(* ===== verification/_CoqProject ===== *)
-Q . S2P
Prelude.v
GoStd.v
GoText.v
GoTime.v
GoJson.v
GoMarshal.v
GoPath.v
GoDisk.v
GoIO.v
Metrics.v
Tracker.v
WfConfig.v
Workspace.v
WfResolve.v
Pathmap.v
SchedState.v
SchedReduce.v
SchedShell.v
SchedInv.v
SchedLifecycle.v
SchedShellInv.v
SchedOrphan.v
SchedDispatch.v
SchedProps.v
WfProps.v
CodexConn.v
StreamJson.v
AppServer.v
LinearGql.v
Agent.v
AgentRun.v
AgentInv.v
AgentWire.v
AgentProps.v
ClientView.v
ClientState.v
ClientReduce.v
ClientInv.v
ClientGraph.v
ClientSteps.v
ClientRollback.v
ClientFrames.v
ClientProps.v
Worktree.v
ClaudeTool.v
ClaudeParser.v
ClaudeTracker.v
ClaudeFollow.v
CodexTranscript.v
ClaudeRender.v
DriverTypes.v
DriverText.v
GeminiTranscript.v
DriverCommon.v
DriverShell.v
DriverClaude.v
DriverCodex.v
DriverGemini.v
DriverRegistry.v
DriverPersist.v
DriverLaunch.v
DriverHooks.v
WorkerPool.v
DriverJobs.v
DriverWorld.v
DriverProps.v
DriverRunners.v
TranscriptProps.v
PlatformProps.v
FrameReg.v
RuntimePersist.v
RuntimeStore.v
Runtime.v
RuntimeInv.v
RuntimeSys.v
RuntimeDurable.v
RuntimeBoot.v
RuntimeBootInv.v
RuntimeReply.v
RuntimeProps.v
