(* ===== verification/Prelude.v ===== *)
(** * Agent Reactor: verification library (root file)

    ** The program

    Agent Reactor runs coding agents in two processes, each built around a pure
    reducer inside an imperative shell:

    - the orchestrator (src/src/orchestrator) polls an issue tracker, claims
      eligible issues, runs one agent per issue and retries or releases them;
      its core is the package [scheduler], a run is the package [agent], which
      talks to an app-server (cmd/claude-app-server) over JSON-RPC;
    - the session daemon (src/src/client) keeps interactive sessions, each a
      stack of frames with a driver per frame, for terminal and web clients; its
      core is the package [client/state], around it the package
      [client/runtime], which performs effects, keeps the session files and
      starts frames, some of them in containers.

    In both, [Reduce] maps a state and an event to the next state and a list of
    effects; the shell performs the effects and feeds results back as events.

    ** Files

    Shared:
    - [Prelude]: record update, tactics, lemmas on lists and maps.
    - [GoStd]: 64-bit integers with wrap-around, [time], [strings], [sort].
    - [GoText]: UTF-8, [unicode], [strings], [strconv], [path/filepath].
    - [GoTime]: calendar time in RFC 3339.
    - [GoJson], [GoMarshal]: encoding/json, both directions and the round trip.
    - [GoPath]: [Dir], [Rel] and the theory of clean paths.
    - [GoDisk]: files on a disk where any operation may fail; base64, SHA-256.
    - [GoIO]: calls to the outside as histories, [bufio.Scanner], map ranges.

    Orchestrator:
    - [Metrics]: platform/metrics, token and runtime accumulators.
    - [Tracker]: platform/tracker, the issue record.
    - [WfConfig], [WfResolve]: orchestrator/wfconfig and workflowfile, from the
      text of a workflow file to a checked configuration.
    - [Workspace]: orchestrator/workspace, directories and hooks.
    - [Pathmap]: platform/pathmap, host and container paths.
    - [SchedState], [SchedReduce]: the pure core of orchestrator/scheduler.
    - [SchedShell]: its loop ([step], [loop_step]), timers and reload.
    - [SchedInv], [SchedLifecycle], [SchedDispatch], [SchedShellInv],
      [SchedOrphan]: lemmas.
    - [SchedProps], [WfProps]: the properties of scheduler and workflow files.
    - [CodexConn]: platform/agent/codexclient, JSON-RPC.  [StreamJson]:
      platform/lib/claude/streamjson.  [AppServer]: cmd/claude-app-server.
      [LinearGql]: orchestrator/lineargql.
    - [Agent], [AgentRun]: orchestrator/agent, the protocol handler, the start
      of a session and the run loop.  [AgentInv], [AgentWire]: lemmas.
    - [AgentProps]: the properties of agent runs.

    Session daemon, reducer:
    - [ClientView], [ClientState]: client/state, its data; drivers are records
      of functions.  [ClientReduce]: every handler; [Reduce].
    - [ClientInv], [ClientGraph], [ClientSteps], [ClientRollback],
      [ClientFrames]: lemmas on the session graph, driver steps, failed spawns
      and exits, and invariants of driver states.
    - [ClientProps]: the properties of the session reducer.

    Session daemon, transcripts and worktrees:
    - [ClaudeTool], [ClaudeParser], [ClaudeTracker], [ClaudeRender]:
      client/lib/claude/transcript.  [ClaudeFollow]: lemmas.
    - [CodexTranscript], [GeminiTranscript]: the other two formats.
    - [Worktree]: platform/lib/git, plastic and vcs, and
      client/runtime/subsystem with its CLI backend.
    - [TranscriptProps], [PlatformProps]: the properties of these, of
      workspaces and of mounts.

    Session daemon, drivers (src/src/client/driver):
    - [DriverTypes], [DriverText], [DriverCommon]: their states and what they
      share.  [DriverShell], [DriverClaude], [DriverCodex], [DriverGemini]: the
      five drivers, a Module each, with every method.  [DriverRunners]: the
      jobs they start.
    - [DriverRegistry]: registration at boot; the contract [DriverLaws] of the
      reducer, proved for each driver.
    - [DriverPersist], [DriverLaunch], [DriverHooks], [DriverJobs]: lemmas.
    - [WorkerPool]: client/runtime/worker.  [DriverWorld]: a frame's driver
      beside the pool, as the daemon routes jobs and results.
    - [DriverProps]: the properties of the daemon with its drivers.

    Session daemon, runtime (src/src/client/runtime):
    - [FrameReg]: framereg, container tokens.
    - [RuntimePersist]: persist.go and warm_state.go; [RuntimeStore]: what they
      do to the files.
    - [Runtime]: the event loop, the interpreter of effects and the spawn
      goroutine.  [RuntimeInv], [RuntimeSys]: the loop beside its goroutines;
      [RuntimeReply]: the queue of events, and who is owed a reply;
      [RuntimeDurable]: the session files follow the sessions.
    - [RuntimeBoot]: bootstrap.go and bootstrap_coldstart.go, the restart;
      [RuntimeBootInv]: the state it leaves to the loop.
    - [RuntimeProps]: the properties of the runtime.

    ** How code becomes definitions

    Go strings and byte slices are [string]; [int] and [int64] are [Z] with the
    wrap-around of [GoStd] wherever arithmetic can leave the range; times are
    nanoseconds; maps are [gmap], sets [gset]; a nil pointer or error is [None];
    (value, error) results are sums or options.  A panic is [None].  Go copies
    values and clones maps before writing, so functional update is exact; the
    drivers write their maps of pending tools in place, but never look at the
    state they were given again.  Iteration over a map is sorted by the code
    itself, shown not to matter, or taken in the arbitrary order [mapRange];
    only a permission prompt for one of several tools that started at the same
    instant is given to the first in the order of [map_to_list].  [Status] of a
    driver panics on a state of another driver, and is 0 here; that no frame
    holds one is [driver_state_types].

    Code that asks the outside for something (files, processes, git, the
    launcher, a terminal backend) is a program of calls: the world answers each
    call, and may answer differently depending on everything asked before
    ([Eff] of [GoIO]).  The files a program keeps for itself are a [Disk], whose
    operations fail wherever [fault] says so.  Goroutines are the
    interleavings of a step relation: [loop_step], [astep], [pool_step],
    [sysStep], [serve].  Histories the code does not keep (the jobs a full
    queue refused, the exits and events a full channel dropped, the requests
    made) are extra fields of the states of these relations; no step looks at
    them.

    Code outside the modelled packages is a parameter: the scheduler's [Deps]
    (tracker, spawning, clock, workspaces) over an arbitrary world, the YAML
    decoder and the template engine, the claude process and HTTP, the supply
    [idAt] of random ids.  Hypotheses about them are named: [supply_ok] (ids
    from crypto/rand do not repeat and are not empty), [placed] and [storable]
    (the session directory is a clean absolute path; session ids are file names
    and texts are UTF-8).  What the reducer and the runtime need of the drivers
    ([quiet_drivers], [silent_drivers], [stops_on_exit], [DriverInvariant],
    [drivers_push]) is proved of the shipped ones.  The drivers' own
    surroundings are the class [DriverEnv]; a driver reads them as functions, so
    two reads of one step see the same files.

    ** What is proved

    Scheduler, for every configuration the loop reaches: an issue has at most
    one authority, slots are never overcommitted, every queued retry of a
    claimed issue has exactly one timer, the configuration in use and the
    prompt come from one version of the workflow file, which resolved and
    passed its checks.  For single events: refinement of the claim lifecycle,
    dispatch within limits and work conserving, the outcome of refresh and stall
    passes, conservation of token totals, the retry delay with its overflow.

    Agent runs: the outcome and the usage claude prints for a turn arrive at the
    worker, through two encodings and the wire; messages are read back as
    written and responses reach their requests; in any interleaving a run
    stays within its turns, ends, and is torn down once, in order, and its exit
    is reported once unless the channel of the scheduler is full.  The scanner
    of the linear tool counts the operations of a GraphQL document.

    Session reducer, for every event and any drivers: the session graph stays
    well formed and refines an abstract graph; frames that leave are torn down;
    commands fail atomically; driver steps are isolated, jobs get fresh ids and
    results are delivered once; failed spawns roll back.

    The shipped drivers: boot registers them without a panic and every frame
    holds a state of its driver's type; what a driver persists it restores; the
    command lines they launch, word by word; hooks out of order, forked
    conversations, the tool log; at most one job of a kind per frame, which
    the pool has unless its queue was full.  Transcripts that grow are followed as if read at once.

    Runtime: however the loop and the spawn goroutines interleave, every sandbox
    that is acquired is released once, belongs to a frame that exists, or was
    lost in a spawn that panicked ([sandboxes_accounted]); every request of a
    client is answered once, or still on its way, or was dropped by a full
    queue of events ([command_answered_once]); tokens die with their frames ([tokens_expire]);
    session files are whole whatever fails ([session_files_whole]); a restart
    finds the sessions as they were ([restart_resumes], which composes reducer,
    interpreter, JSON, disk, drivers and boot).

    Defects are theorems as well: [orphan_forever] (a failed spawn orphans its
    retry), [backoffDelay_overflow], [stale_exit_unseats], [failed_startup_leaks],
    [second_operation_hidden], [unset_root_is_cwd], [child_crash_repeats],
    [lost_job_never_retried], [split_line_lost], [subagent_loops],
    [borrowed_worktree_removed] and [adopted_sandbox_leaked].

    ** Fuel

    [step] of [SchedShell] has fuel: performing an effect can feed an event
    whose effects are performed in turn.  The nesting is at most four, and
    [handlers_terminate] proves that four levels suffice for every handler,
    environment and state.  [load_go] of [ClaudeParser] has fuel because the
    code may not return: [subagents_inlined] says when it does,
    [subagent_loops] when not.  The walk up to a repository ends
    ([repository_search_ends]).  The parsers of text take its length as fuel,
    which each of their steps lowers; the round trips show that it is enough.
    Everything else is structural recursion.

    ** Not modelled

    Logging, contexts and cancellation; the goroutines that serve sockets,
    ptys and file watches, and the web gateway (server/web), which only move
    bytes; third-party code (YAML, templates, terminal emulation, styles,
    petnames, HTTP, the container runtime itself); generated schema types
    nothing here reads; the settings files and the command-line programs. *)

From Stdlib Require Export Ascii String.
From stdpp Require Export base tactics list gmap strings sorting fin_maps.
From Stdlib Require Export ZArith Lia.

(** ** Record update

    Go assigns to fields of struct values; [r <| f := v |>] is the copy of
    [r] with field [f] replaced.  A record becomes updatable by giving its
    eta expansion once ([Eta] instance); the setter of a field is computed
    from it. *)

Class Eta (R : Type) := eta_of : R -> R.
Arguments eta_of {R} _ _ /.

Class FieldSet {R T : Type} (f : R -> T) := { field_set : T -> R -> R }.
Arguments field_set {R T} f {_} _ _ /.
#[export] Hint Mode FieldSet - - ! : typeclass_instances.

Ltac derive_field_set :=
  lazymatch goal with
  | |- @FieldSet ?R ?T ?f =>
      let e := constr:(_ : Eta R) in
      let e := eval red in e in
      exact (@Build_FieldSet R T f (fun (v : T) (r : R) =>
        ltac:(let body := eval cbv beta in (e r) in
              lazymatch eval pattern (f r) in body with
              | ?g _ => let t := eval cbv beta in (g v) in exact t
              end)))
  end.

#[export] Hint Extern 0 (FieldSet _) => derive_field_set : typeclass_instances.

Declare Scope go_scope.
Delimit Scope go_scope with go.
Notation "r <| f := v |>" := (field_set f v r)
  (at level 12, f at level 200, left associativity, format "r  <|  f  :=  v  |>") : go_scope.
Open Scope go_scope.

(** ** Proof automation

    [go_simpl] is the normalisation step shared by the components: it reduces
    record projections out of updates and rewrites map lookups.  [go_case]
    performs the case analysis a Go [if]/[switch] chain asks for. *)

Create HintDb reactor.
Create Rewrite HintDb reactor_fields.

Ltac go_simpl := repeat (progress (simpl in *; simplify_map_eq)).

Ltac go_case :=
  match goal with
  | |- context [match ?x with _ => _ end] => destruct x eqn:?
  end.

Ltac go_case_in H :=
  match type of H with
  | context [match ?x with _ => _ end] => destruct x eqn:?
  end.

(** ** Options and booleans *)

Definition is_some {A} (o : option A) : bool :=
  match o with Some _ => true | None => false end.

Lemma is_some_true {A} (o : option A) : is_some o = true <-> is_Some o.
Proof. by rewrite <- not_eq_None_Some; destruct o; simpl; naive_solver. Qed.

Lemma is_some_false {A} (o : option A) : is_some o = false <-> o = None.
Proof. by destruct o. Qed.

(** ** Finite maps: domains and sizes

    A Go [map\[string\]T] is a [gmap string T]; [len] is [size]. *)

Section maps.
Context {K : Type} `{Countable K} {V : Type}.
Implicit Types (m : gmap K V) (k : K) (v : V).

Lemma size_insert_present m k v :
  is_Some (m !! k) -> size (<[k:=v]> m) = size m.
Proof. intros. by apply map_size_insert_Some. Qed.

Lemma size_insert_le m k v : (size m <= size (<[k:=v]> m) <= S (size m))%nat.
Proof.
  destruct (m !! k) eqn:E.
  - rewrite map_size_insert_Some by eauto. lia.
  - rewrite map_size_insert_None by done. lia.
Qed.

Lemma size_delete_present m k :
  is_Some (m !! k) -> S (size (delete k m)) = size m.
Proof.
  intros Hk. rewrite map_size_delete_Some by done.
  destruct Hk as [v Hv].
  assert (size m <> 0%nat); [|lia].
  rewrite map_size_empty_iff. intros ->. by rewrite lookup_empty in Hv.
Qed.

Lemma size_delete_absent m k : m !! k = None -> size (delete k m) = size m.
Proof. intros. by rewrite delete_id. Qed.
End maps.

(** ** Lists *)

Lemma bind_ext_in {A B} (f g : A -> list B) l :
  (∀ x, x ∈ l -> f x = g x) -> l ≫= f = l ≫= g.
Proof.
  induction l as [|x l IH]; simpl; intros E; [done|].
  rewrite E by left. f_equal. apply IH. intros. apply E. by right.
Qed.

(** ** Sums over a map

    Go ranges over a map to accumulate a sum; with a commutative and
    associative addition the iteration order does not matter. *)

Section map_sum.
Context {T A : Type} (add : T -> T -> T) (weight : A -> T).
Context (add_comm : ∀ x y, add x y = add y x).
Context (add_assoc : ∀ x y z, add x (add y z) = add (add x y) z).
Implicit Types (m : gmap string A).

Definition map_sum (b : T) m : T := map_fold (λ _ a t, add t (weight a)) b m.

Lemma add_swap x y z : add (add x y) z = add (add x z) y.
Proof. by rewrite <- !add_assoc, (add_comm y z). Qed.

Lemma map_sum_acc b x m : map_sum (add b x) m = add (map_sum b m) x.
Proof.
  unfold map_sum. apply (map_fold_comm_acc _ (λ t, add t x)). intros. apply add_swap.
Qed.

Lemma map_sum_delete b k a m :
  m !! k = Some a -> map_sum b m = add (map_sum b (delete k m)) (weight a).
Proof.
  intros Hk. unfold map_sum. rewrite (map_fold_delete_L _ _ k a m); [done| |done].
  intros. apply add_swap.
Qed.

(** Moving an entry's weight into the base keeps the sum. *)
Lemma map_sum_flush b k a m :
  m !! k = Some a -> map_sum (add b (weight a)) (delete k m) = map_sum b m.
Proof. intros Hk. by rewrite map_sum_acc, <- map_sum_delete. Qed.

Lemma map_sum_insert_new b k a m :
  m !! k = None -> map_sum b (<[k:=a]> m) = add (map_sum b m) (weight a).
Proof.
  intros Hk. rewrite (map_sum_delete _ k a) by apply lookup_insert_eq.
  by rewrite delete_insert_id.
Qed.

Lemma map_sum_insert_grow b k a a' d m :
  m !! k = Some a -> weight a' = add (weight a) d ->
  map_sum b (<[k:=a']> m) = add (map_sum b m) d.
Proof.
  intros Hk E. rewrite (map_sum_delete _ k a') by apply lookup_insert_eq.
  rewrite delete_insert_eq, E, add_assoc. by rewrite <- map_sum_delete.
Qed.
End map_sum.
