(* ===== verification/GoStd.v ===== *)
(** * Go standard library: the parts the modelled packages use

    Machine integers, [time], [strings.ToLower], [sort.Strings] and
    [sort.SliceStable].  Go [string]s are byte strings, here Rocq [string]s
    (sequences of 8-bit [ascii]). *)

From S2P Require Import Prelude.
Open Scope Z_scope.

(** ** 64-bit integers

    [int], [int64] and [time.Duration] are two's-complement 64-bit integers on
    the supported platforms: every arithmetic operation is taken modulo 2^64
    and reinterpreted as signed. *)

Definition int64_min : Z := - 2 ^ 63.
Definition int64_max : Z := 2 ^ 63 - 1.
Definition in_int64 (z : Z) : Prop := int64_min <= z <= int64_max.

Definition wrap64 (z : Z) : Z := (z + 2 ^ 63) mod 2 ^ 64 - 2 ^ 63.

Declare Scope int64_scope.
Delimit Scope int64_scope with i64.
Notation "a + b" := (wrap64 (a + b)) : int64_scope.
Notation "a - b" := (wrap64 (a - b)) : int64_scope.
Notation "a * b" := (wrap64 (a * b)) : int64_scope.

(** [a << b] on a signed 64-bit operand: the shifted-out bits are lost. *)
Definition shl64 (a b : Z) : Z := wrap64 (Z.shiftl a b).

Lemma wrap64_range z : in_int64 (wrap64 z).
Proof.
  unfold in_int64, wrap64, int64_min, int64_max.
  pose proof (Z.mod_pos_bound (z + 2 ^ 63) (2 ^ 64) eq_refl). lia.
Qed.

Lemma wrap64_id z : in_int64 z -> wrap64 z = z.
Proof.
  unfold in_int64, wrap64, int64_min, int64_max. intros.
  rewrite Z.mod_small; lia.
Qed.

Lemma wrap64_wrap_add_l a b : wrap64 (wrap64 a + b) = wrap64 (a + b).
Proof.
  unfold wrap64. f_equal.
  replace ((a + 2 ^ 63) mod 2 ^ 64 - 2 ^ 63 + b + 2 ^ 63)
    with ((a + 2 ^ 63) mod 2 ^ 64 + b) by lia.
  rewrite Z.add_mod_idemp_l by done. f_equal. lia.
Qed.

Lemma wrap64_wrap_add_r a b : wrap64 (a + wrap64 b) = wrap64 (a + b).
Proof. rewrite Z.add_comm, wrap64_wrap_add_l. f_equal. lia. Qed.

Lemma wrap64_eq_mod a b : a mod 2 ^ 64 = b mod 2 ^ 64 -> wrap64 a = wrap64 b.
Proof.
  intros E. unfold wrap64. f_equal.
  rewrite <- (Z.add_mod_idemp_l a), <- (Z.add_mod_idemp_l b) by done.
  by rewrite E.
Qed.

(** ** package time

    A [time.Time] is the number of nanoseconds since Go's zero time
    (1 January of year 1, UTC), so [IsZero] is a comparison with 0.  A
    [time.Duration] is an int64 count of nanoseconds. *)

Abbreviation Time := Z (only parsing).
Abbreviation Duration := Z (only parsing).

Module time.
Definition Millisecond : Duration := 1000000.
Definition Second : Duration := 1000000000.

(** Milliseconds from the zero time to the Unix epoch. *)
Definition unix_epoch_ms : Z := 62135596800000.

Definition IsZero (t : Time) : bool := t =? 0.
Definition Add (t : Time) (d : Duration) : Time := t + d.
(** [Sub] saturates at the bounds of [Duration]. *)
Definition Sub (t u : Time) : Duration :=
  Z.max int64_min (Z.min int64_max (t - u)).
Definition Before (t u : Time) : bool := t <? u.
Definition Equal (t u : Time) : bool := t =? u.
Definition UnixMilli (t : Time) : Z :=
  wrap64 (t / 1000000 - unix_epoch_ms).

Lemma Sub_self_add t d : in_int64 d -> Sub (Add t d) t = d.
Proof. unfold Sub, Add, in_int64. lia. Qed.
End time.

(** ** package strings

    [ToLower] on its ASCII range: bytes [A]-[Z] move to [a]-[z], every other
    byte is kept.  (Go additionally folds non-ASCII letters by the Unicode
    tables; names with such letters are compared here without that folding.) *)

Module strings.
Definition lower_byte (c : ascii) : ascii :=
  let n := N_of_ascii c in
  if ((65 <=? n) && (n <=? 90))%N then ascii_of_N (n + 32) else c.

Fixpoint ToLower (s : string) : string :=
  match s with
  | EmptyString => EmptyString
  | String.String c s' => String.String (lower_byte c) (ToLower s')
  end.

Lemma lower_byte_idem c : lower_byte (lower_byte c) = lower_byte c.
Proof. destruct c as [[] [] [] [] [] [] [] []]; reflexivity. Qed.

Lemma ToLower_idem s : ToLower (ToLower s) = ToLower s.
Proof. induction s as [|c s IH]; simpl; [done|]. by rewrite lower_byte_idem, IH. Qed.
End strings.

(** ** package sort *)

Module sort.
(** [sort.Strings]: ascending bytewise order.  The order is total and
    antisymmetric, so the result does not depend on the algorithm. *)
Definition Strings (l : list string) : list string := merge_sort String.le l.

Lemma Strings_Permutation l : Strings l ≡ₚ l.
Proof. apply merge_sort_Permutation. Qed.

Lemma Strings_elem_of x l : x ∈ Strings l <-> x ∈ l.
Proof. by rewrite Strings_Permutation. Qed.

Lemma Strings_NoDup l : NoDup l -> NoDup (Strings l).
Proof. by rewrite Strings_Permutation. Qed.

(** The result is determined by the elements: the iteration order of a Go
    map cannot be observed through it. *)
Lemma Strings_unique l1 l2 : l1 ≡ₚ l2 -> Strings l1 = Strings l2.
Proof.
  intros E. apply (Sorted_unique String.le); [apply Sorted_merge_sort..|]; try apply _.
  by rewrite !Strings_Permutation.
Qed.

(** [sort.SliceStable(x, less)]: insertion sort.  An element is placed
    before the first element it is not greater than, so equivalent elements
    keep their order. *)
Section stable.
Context {A : Type} (less : A -> A -> bool).

Fixpoint insert_stable (x : A) (l : list A) : list A :=
  match l with
  | [] => [x]
  | y :: l' => if less y x then y :: insert_stable x l' else x :: y :: l'
  end.

Definition SliceStable (l : list A) : list A := foldr insert_stable [] l.

Lemma insert_stable_Permutation x l : insert_stable x l ≡ₚ x :: l.
Proof.
  induction l as [|y l IH]; simpl; [done|].
  destruct (less y x); [|done]. rewrite IH. constructor.
Qed.

Lemma SliceStable_Permutation l : SliceStable l ≡ₚ l.
Proof.
  induction l as [|x l IH]; simpl; [done|].
  by rewrite insert_stable_Permutation, IH.
Qed.

(** What [sort.SliceStable] requires of its comparison. *)
Class StrictWeakOrder : Prop := {
  swo_irrefl x : less x x = false;
  swo_trans x y z : less x y = true -> less y z = true -> less x z = true;
  swo_incomp x y z :
    less x y = false -> less y z = false -> less x z = false;
}.

Definition not_after (x y : A) : Prop := less y x = false.

Context `{Hswo : !StrictWeakOrder}.

Lemma swo_asym x y : less x y = true -> less y x = false.
Proof.
  intros E. destruct (less y x) eqn:E'; [|done].
  pose proof (swo_trans _ _ _ E E') as C. by rewrite swo_irrefl in C.
Qed.

#[export] Instance not_after_trans : Transitive not_after.
Proof. intros x y z. unfold not_after. intros H1 H2. by eapply swo_incomp. Qed.

Lemma insert_stable_sorted x l :
  StronglySorted not_after l -> StronglySorted not_after (insert_stable x l).
Proof.
  induction 1 as [|y l Hl IH Hy]; simpl; [repeat constructor|].
  destruct (less y x) eqn:E.
  - constructor; [done|]. rewrite insert_stable_Permutation.
    constructor; [by apply swo_asym | done].
  - constructor; [by constructor|]. constructor; [done|].
    eapply Forall_impl; [exact Hy|]. intros z Hz. by transitivity y.
Qed.

Lemma SliceStable_sorted l : StronglySorted not_after (SliceStable l).
Proof.
  induction l as [|x l IH]; simpl; [constructor|]. by apply insert_stable_sorted.
Qed.

(** Stability: the elements equivalent to [x] come out in input order. *)
Definition equivalent (x y : A) : bool := negb (less x y) && negb (less y x).

Lemma equivalent_less_l x y z :
  equivalent x y = true -> less z x = less z y.
Proof.
  unfold equivalent. rewrite andb_true_iff, !negb_true_iff. intros [H1 H2].
  destruct (less z x) eqn:E1, (less z y) eqn:E2; try done.
  - rewrite (swo_incomp z y x) in E1; done.
  - rewrite (swo_incomp z x y) in E2; done.
Qed.

Lemma insert_stable_filter x y l :
  base.filter (λ z, equivalent x z = true) (insert_stable y l)
  = base.filter (λ z, equivalent x z = true) (y :: l).
Proof.
  induction l as [|z l IH]; simpl; [done|].
  destruct (less z y) eqn:E; [|done].
  rewrite (filter_cons _ z (insert_stable y l)), IH.
  rewrite (filter_cons _ y (z :: l)), (filter_cons _ z l), (filter_cons _ y l).
  destruct (decide (equivalent x z = true)) as [Hz|Hz],
    (decide (equivalent x y = true)) as [Hy|Hy]; try done.
  exfalso. rewrite <- (equivalent_less_l _ _ _ Hy) in E.
  unfold equivalent in Hz. rewrite andb_true_iff, !negb_true_iff in Hz.
  destruct Hz. congruence.
Qed.

Lemma SliceStable_stable x l :
  base.filter (λ z, equivalent x z = true) (SliceStable l)
  = base.filter (λ z, equivalent x z = true) l.
Proof.
  induction l as [|y l IH]; simpl; [done|].
  by rewrite insert_stable_filter, !filter_cons, IH.
Qed.
End stable.
End sort.
