(* ===== verification/GoText.v ===== *)
(** * Go standard library: text

    UTF-8 decoding and encoding ([[]rune(s)], [string(runes)]),
    [unicode.IsSpace], the functions of package [strings] that the drivers
    use, [strconv.Itoa]/[Atoi] and the lexical part of [path/filepath].  A Go
    string is a byte string that need not be valid UTF-8: an invalid byte is
    decoded as U+FFFD of width one. *)

From S2P Require Import Prelude GoStd.
From stdpp Require Import pretty.
Open Scope Z_scope.

(** ** String concatenation *)

Lemma str_app_cons c a b : String.String c a +:+ b = String.String c (a +:+ b).
Proof. done. Qed.
Lemma str_app_nil_l a : EmptyString +:+ a = a.
Proof. done. Qed.
Lemma str_app_nil_r a : a +:+ EmptyString = a.
Proof. induction a as [|c a IH]; [done|]. by rewrite str_app_cons, IH. Qed.
Lemma str_app_assoc a b c : (a +:+ b) +:+ c = a +:+ (b +:+ c).
Proof. induction a as [|x a IH]; [done|]. by rewrite !str_app_cons, IH. Qed.
Lemma str_length_app a b :
  String.length (a +:+ b) = (String.length a + String.length b)%nat.
Proof. induction a as [|x a IH]; [done|]. rewrite str_app_cons. simpl. by rewrite IH. Qed.
Lemma str_prefix_app a b : String.prefix a (a +:+ b) = true.
Proof.
  induction a as [|c a IH]; [by destruct b|]. rewrite str_app_cons. cbn [String.prefix].
  by destruct (ascii_dec c c).
Qed.
Lemma str_app_nil_inv a b : a +:+ b = EmptyString -> a = EmptyString /\ b = EmptyString.
Proof. destruct a; [by split|done]. Qed.

(** ** package unicode/utf8 *)

Module utf8.
Definition byte (c : ascii) : Z := Z.of_N (N_of_ascii c).
Definition chr (z : Z) : ascii := ascii_of_N (Z.to_N z).

Definition RuneError : Z := 65533.

Definition between (lo hi b : Z) : bool := (lo <=? b) && (b <=? hi).
Definition cont (c : ascii) : bool := between 128 191 (byte c).

(** The first rune of [String c0 s] and the number of bytes it takes after
    the first. *)
Definition decode (c0 : ascii) (s : string) : Z * nat :=
  let b0 := byte c0 in
  if b0 <? 128 then (b0, 0%nat)
  else if between 194 223 b0 then
    match s with
    | String.String c1 _ =>
      if cont c1 then ((b0 - 192) * 64 + (byte c1 - 128), 1%nat)
      else (RuneError, 0%nat)
    | EmptyString => (RuneError, 0%nat)
    end
  else if between 224 239 b0 then
    match s with
    | String.String c1 (String.String c2 _) =>
      if between (if b0 =? 224 then 160 else 128)
           (if b0 =? 237 then 159 else 191) (byte c1) && cont c2
      then ((b0 - 224) * 4096 + (byte c1 - 128) * 64 + (byte c2 - 128), 2%nat)
      else (RuneError, 0%nat)
    | _ => (RuneError, 0%nat)
    end
  else if between 240 244 b0 then
    match s with
    | String.String c1 (String.String c2 (String.String c3 _)) =>
      if between (if b0 =? 240 then 144 else 128)
           (if b0 =? 244 then 143 else 191) (byte c1) && cont c2 && cont c3
      then ((b0 - 240) * 262144 + (byte c1 - 128) * 4096
            + (byte c2 - 128) * 64 + (byte c3 - 128), 3%nat)
      else (RuneError, 0%nat)
    | _ => (RuneError, 0%nat)
    end
  else (RuneError, 0%nat).

(** [[]rune(s)]; [skip] counts the bytes of the current rune still ahead. *)
Fixpoint runes_go (skip : nat) (s : string) : list Z :=
  match s with
  | EmptyString => []
  | String.String c s' =>
    match skip with
    | S k => runes_go k s'
    | O => let '(r, w) := decode c s' in r :: runes_go w s'
    end
  end.
Definition runes (s : string) : list Z := runes_go 0 s.

Definition valid_rune (r : Z) : bool :=
  between 0 55295 r || between 57344 1114111 r.

(** [utf8.AppendRune]: an invalid rune is written as U+FFFD. *)
Definition encode (r : Z) : string :=
  let r := if valid_rune r then r else RuneError in
  if r <? 128 then String.String (chr r) EmptyString
  else if r <? 2048 then
    String.String (chr (192 + r / 64)) (String.String (chr (128 + r mod 64)) EmptyString)
  else if r <? 65536 then
    String.String (chr (224 + r / 4096))
      (String.String (chr (128 + r / 64 mod 64))
        (String.String (chr (128 + r mod 64)) EmptyString))
  else
    String.String (chr (240 + r / 262144))
      (String.String (chr (128 + r / 4096 mod 64))
        (String.String (chr (128 + r / 64 mod 64))
          (String.String (chr (128 + r mod 64)) EmptyString))).

(** [string(runes)]. *)
Fixpoint of_runes (l : list Z) : string :=
  match l with [] => EmptyString | r :: l' => encode r +:+ of_runes l' end.

(** *** Decoding inverts encoding *)

Lemma byte_range c : 0 <= byte c < 256.
Proof. unfold byte. pose proof (N_ascii_bounded c). lia. Qed.

Lemma byte_chr z : 0 <= z < 256 -> byte (chr z) = z.
Proof. intros H. unfold byte, chr. rewrite N_ascii_embedding; lia. Qed.

Lemma decode_valid c s : valid_rune (fst (decode c s)) = true.
Proof.
  pose proof (byte_range c) as Hc. unfold decode.
  repeat case_match; subst; try reflexivity; cbn [fst];
    unfold valid_rune, cont, between in *; lia.
Qed.

Lemma decode_width c s : (snd (decode c s) <= String.length s)%nat.
Proof. unfold decode. repeat case_match; subst; simpl; lia. Qed.

(** Decoding never looks past a byte that is not a continuation byte. *)
Lemma decode_app c a d b :
  cont d = false -> decode c (a +:+ String.String d b) = decode c a.
Proof.
  intros Hd. unfold decode.
  destruct a as [|a1 [|a2 [|a3 a]]]; rewrite ?str_app_cons, ?str_app_nil_l;
    repeat case_match; subst; simplify_eq; try done;
    unfold cont, between in *; try lia.
Qed.

Lemma runes_go_app k a d b :
  cont d = false -> (k <= String.length a)%nat ->
  runes_go k (a +:+ String.String d b) = runes_go k a ++ runes (String.String d b).
Proof.
  intros Hd. revert k. induction a as [|c a IH]; intros k Hk.
  { simpl in Hk. by assert (k = 0%nat) as -> by lia. }
  rewrite str_app_cons. cbn [runes_go]. destruct k as [|k].
  - rewrite decode_app by done. pose proof (decode_width c a).
    destruct (decode c a) as [r w]. cbn [snd] in *. rewrite IH by lia. done.
  - apply IH. simpl in Hk. lia.
Qed.

Lemma runes_app a d b :
  cont d = false ->
  runes (a +:+ String.String d b) = runes a ++ runes (String.String d b).
Proof. intros Hd. apply runes_go_app; [done|lia]. Qed.

Lemma runes_valid k s : Forall (fun r => valid_rune r = true) (runes_go k s).
Proof.
  revert k. induction s as [|c s IH]; intros k; cbn [runes_go]; [constructor|].
  destruct k as [|k]; [|apply IH].
  pose proof (decode_valid c s). destruct (decode c s) as [r w].
  constructor; [done|apply IH].
Qed.

(** A valid rune is written as a lead byte and [w] more bytes, which decode
    to it whatever follows. *)
Lemma encode_cases r :
  valid_rune r = true ->
  exists c t, encode r = String.String c t /\
    forall rest, decode c (t +:+ rest) = (r, String.length t).
Proof.
  intros Hv. unfold encode. rewrite Hv.
  assert (0 <= r <= 1114111) by (unfold valid_rune, between in Hv; lia).
  destruct (Z.ltb_spec r 128); [|destruct (Z.ltb_spec r 2048);
    [|destruct (Z.ltb_spec r 65536)]];
    do 2 eexists; (split; [reflexivity|]); intros rest;
    rewrite ?str_app_cons, ?str_app_nil_l; cbn [String.length]; unfold decode, cont;
    rewrite ?byte_chr by (Z.to_euclidean_division_equations; lia);
    unfold valid_rune, between in *.
  all: repeat case_match; try (exfalso; Z.to_euclidean_division_equations; lia);
    f_equal; Z.to_euclidean_division_equations; lia.
Qed.

Lemma runes_go_skip t rest : runes_go (String.length t) (t +:+ rest) = runes rest.
Proof. induction t as [|c t IH]; [by destruct rest|]. apply IH. Qed.

Lemma runes_encode r rest :
  valid_rune r = true -> runes (encode r +:+ rest) = r :: runes rest.
Proof.
  intros Hv. destruct (encode_cases r Hv) as (c & t & -> & Hd).
  unfold runes at 1. rewrite str_app_cons. cbn [runes_go]. rewrite Hd.
  by rewrite runes_go_skip.
Qed.

Lemma runes_of_runes l rest :
  Forall (fun r => valid_rune r = true) l ->
  runes (of_runes l +:+ rest) = l ++ runes rest.
Proof.
  induction 1 as [|r l Hr _ IH]; [done|]. cbn [of_runes app].
  rewrite str_app_assoc, runes_encode by done. by rewrite IH.
Qed.
End utf8.

(** ** package unicode *)

Module unicode.
(** [unicode.IsSpace]: the White_Space property. *)
Definition IsSpace (r : Z) : bool :=
  utf8.between 9 13 r || (r =? 32) || (r =? 133) || (r =? 160) || (r =? 5760)
  || utf8.between 8192 8202 r || (r =? 8232) || (r =? 8233) || (r =? 8239)
  || (r =? 8287) || (r =? 12288).
End unicode.

(** ** package strings *)

Module Strings.
Import utf8.

(** Every byte with whether the rune it belongs to satisfies [p]. *)
Fixpoint mask_go (p : Z -> bool) (skip : nat) (cur : bool) (s : string) : list (ascii * bool) :=
  match s with
  | EmptyString => []
  | String.String c s' =>
    match skip with
    | S k => (c, cur) :: mask_go p k cur s'
    | O => let '(r, w) := decode c s' in (c, p r) :: mask_go p w (p r) s'
    end
  end.
Definition mask (p : Z -> bool) (s : string) : list (ascii * bool) := mask_go p 0 false s.

Fixpoint of_mask (l : list (ascii * bool)) : string :=
  match l with [] => EmptyString | (c, _) :: l' => String.String c (of_mask l') end.

Fixpoint drop_marked (l : list (ascii * bool)) : list (ascii * bool) :=
  match l with (c, true) :: l' => drop_marked l' | _ => l end.

(** [strings.TrimFunc] and [strings.TrimSpace]. *)
Definition TrimFunc (p : Z -> bool) (s : string) : string :=
  of_mask (rev (drop_marked (rev (drop_marked (mask p s))))).
Definition TrimSpace (s : string) : string := TrimFunc unicode.IsSpace s.

(** [strings.FieldsFunc]: the maximal runs of unmarked bytes. *)
Fixpoint fields_go (cur : string) (l : list (ascii * bool)) : list string :=
  match l with
  | [] => if decide (cur = EmptyString) then [] else [cur]
  | (c, true) :: l' =>
    if decide (cur = EmptyString) then fields_go EmptyString l'
    else cur :: fields_go EmptyString l'
  | (c, false) :: l' => fields_go (cur +:+ String.String c EmptyString) l'
  end.
Definition FieldsFunc (p : Z -> bool) (s : string) : list string :=
  fields_go EmptyString (mask p s).
Definition Fields (s : string) : list string := FieldsFunc unicode.IsSpace s.

(** [strings.Join]. *)
Fixpoint Join (l : list string) (sep : string) : string :=
  match l with
  | [] => EmptyString
  | [x] => x
  | x :: l' => x +:+ sep +:+ Join l' sep
  end.

Definition HasPrefix (s p : string) : bool := String.prefix p s.

Fixpoint str_drop (n : nat) (s : string) : string :=
  match n, s with
  | S n', String.String _ s' => str_drop n' s'
  | _, _ => s
  end.
Fixpoint str_take (n : nat) (s : string) : string :=
  match n, s with
  | S n', String.String c s' => String.String c (str_take n' s')
  | _, _ => EmptyString
  end.

Definition TrimPrefix (s p : string) : string :=
  if HasPrefix s p then str_drop (String.length p) s else s.
Definition HasSuffix (s p : string) : bool :=
  (String.length p <=? String.length s)%nat
  && bool_decide (str_drop (String.length s - String.length p) s = p).
Definition TrimSuffix (s p : string) : string :=
  if HasSuffix s p then str_take (String.length s - String.length p) s else s.

(** [strings.Contains]. *)
Fixpoint Contains (s sub : string) : bool :=
  String.prefix sub s
  || match s with EmptyString => false | String.String _ s' => Contains s' sub end.

(** [strings.IndexByte(s, c) >= 0]. *)
Fixpoint ContainsByte (s : string) (c : ascii) : bool :=
  match s with
  | EmptyString => false
  | String.String d s' => bool_decide (c = d) || ContainsByte s' c
  end.
(** [strings.ContainsAny(s, chars)] for ASCII [chars]. *)
Definition ContainsAny (s : string) (chars : list ascii) : bool :=
  existsb (ContainsByte s) chars.

(** [strings.Split(s, sep)] for a one-byte separator. *)
Fixpoint Split (s : string) (sep : ascii) : list string :=
  match s with
  | EmptyString => [EmptyString]
  | String.String c s' =>
    if decide (c = sep) then EmptyString :: Split s' sep
    else match Split s' sep with
         | [] => [String.String c EmptyString]
         | x :: l => String.String c x :: l
         end
  end.

(** [strings.Cut(s, sep)] for a one-byte separator; [None] when it is absent. *)
Fixpoint Cut (s : string) (sep : ascii) : option (string * string) :=
  match s with
  | EmptyString => None
  | String.String c s' =>
    if decide (c = sep) then Some (EmptyString, s')
    else match Cut s' sep with
         | Some (a, b) => Some (String.String c a, b)
         | None => None
         end
  end.

(** [strings.SplitN(s, sep, n)] for a one-byte separator and [n > 0]. *)
Fixpoint SplitN (n : nat) (s : string) (sep : ascii) : list string :=
  match n with
  | S (S _ as n') =>
    match Cut s sep with
    | Some (a, b) => a :: SplitN n' b sep
    | None => [s]
    end
  | _ => [s]
  end.

(** [strings.ReplaceAll(s, old, new)] for a one-byte [old]. *)
Fixpoint ReplaceAll (s : string) (old : ascii) (new : string) : string :=
  match s with
  | EmptyString => EmptyString
  | String.String c s' =>
    if decide (c = old) then new +:+ ReplaceAll s' old new
    else String.String c (ReplaceAll s' old new)
  end.

(** [strings.TrimRight(s, cutset)] for an ASCII [cutset]. *)
Fixpoint TrimRight (s : string) (cutset : list ascii) : string :=
  match s with
  | EmptyString => EmptyString
  | String.String c s' =>
    let t := TrimRight s' cutset in
    if decide (t = EmptyString /\ c ∈ cutset) then EmptyString
    else String.String c t
  end.

(** *** Fields and Join *)

Section mask.
Context (p : Z -> bool).

(** No byte of [s] is marked. *)
Definition unmarked (s : string) : Prop := Forall (fun x => snd x = false) (mask p s).

Lemma of_mask_go k b s : of_mask (mask_go p k b s) = s.
Proof.
  revert k b. induction s as [|c s IH]; intros [|k] b; cbn [mask_go]; try done;
    [destruct (decode c s) as [r w]|]; cbn [of_mask]; by rewrite IH.
Qed.

Lemma of_mask_app l1 l2 : of_mask (l1 ++ l2) = of_mask l1 +:+ of_mask l2.
Proof. induction l1 as [|[c b] l1 IH]; [done|]. simpl. by rewrite IH, str_app_cons. Qed.

Lemma mask_go_app k b a d r :
  cont d = false -> (k <= String.length a)%nat ->
  mask_go p k b (a +:+ String.String d r) = mask_go p k b a ++ mask p (String.String d r).
Proof.
  intros Hd. revert k b. induction a as [|c a IH]; intros k b Hk.
  { simpl in Hk. assert (k = 0%nat) as -> by lia. done. }
  rewrite str_app_cons. cbn [mask_go]. destruct k as [|k].
  - rewrite decode_app by done. pose proof (decode_width c a).
    destruct (decode c a) as [x w]. cbn [snd app] in *. by rewrite IH by lia.
  - cbn [app]. rewrite IH; [done|simpl in Hk; lia].
Qed.

Lemma mask_app a d r :
  cont d = false -> mask p (a +:+ String.String d r) = mask p a ++ mask p (String.String d r).
Proof. intros. apply mask_go_app; [done|lia]. Qed.

Lemma fields_go_unmarked cur l rest :
  Forall (fun x => snd x = false) l ->
  fields_go cur (l ++ rest) = fields_go (cur +:+ of_mask l) rest.
Proof.
  intros H. revert cur. induction H as [|[c b] l Hb _ IH]; intros cur; simpl.
  { by rewrite str_app_nil_r. }
  cbn [snd] in Hb. subst b. rewrite IH, str_app_assoc. by rewrite str_app_cons.
Qed.

(** The bytes of a marked rune add nothing. *)
Lemma fields_go_skip k r :
  (k <= String.length r)%nat ->
  fields_go EmptyString (mask_go p k true r) = FieldsFunc p (str_drop k r).
Proof.
  revert r. induction k as [|k IH]; intros r Hk.
  - destruct r as [|c r]; [done|]. unfold FieldsFunc, mask. cbn [mask_go str_drop].
    done.
  - destruct r as [|c r]; [simpl in Hk; lia|]. simpl in Hk.
    cbn [mask_go fields_go str_drop]. rewrite decide_True by done. apply IH. lia.
Qed.

(** A string splits at its first marked rune. *)
Lemma mask_split (Herr : p RuneError = false) s k :
  (k <= String.length s)%nat ->
  exists a r, s = a +:+ r /\ (k <= String.length a)%nat /\
    Forall (fun x => snd x = false) (mask_go p k false a) /\
    (r = EmptyString \/
     exists d r', r = String.String d r' /\ cont d = false /\ p (fst (decode d r')) = true).
Proof.
  revert k. induction s as [|c s IH]; intros k Hk.
  { exists EmptyString, EmptyString. split_and!; [done|done|constructor|by left]. }
  destruct k as [|k].
  - destruct (p (fst (decode c s))) eqn:E.
    { exists EmptyString, (String.String c s).
      split_and!; [done|simpl; lia|constructor|]. right. exists c, s. split_and!; [done| |done].
      destruct (cont c) eqn:Ec; [|done]. exfalso. revert E.
      unfold decode. unfold cont, between in *.
      replace (byte c <? 128) with false by lia.
      replace (194 <=? byte c) with false by lia.
      replace (224 <=? byte c) with false by lia.
      replace (240 <=? byte c) with false by lia. cbn. by rewrite Herr. }
    destruct (IH (snd (decode c s)) (decode_width c s)) as (a & r & -> & Hl & Hf & Hr).
    exists (String.String c a), r. split_and!; [done|simpl; lia| |done].
    assert (decode c (a +:+ r) = decode c a) as Ed.
    { destruct Hr as [->|(d & r' & -> & Hd & _)]; [by rewrite str_app_nil_r|].
      by apply decode_app. }
    rewrite Ed in *. cbn [mask_go]. destruct (decode c a) as [x w]. cbn [fst snd] in *.
    rewrite E. by constructor.
  - simpl in Hk. destruct (IH k) as (a & r & -> & Hl & Hf & Hr); [lia|].
    exists (String.String c a), r. split_and!; [done|simpl; lia| |done].
    cbn [mask_go]. by constructor.
Qed.

Lemma str_length_drop n s : (String.length (str_drop n s) <= String.length s)%nat.
Proof. revert s. induction n as [|n IH]; intros [|c s]; simpl; try lia. specialize (IH s). lia. Qed.

(** Every field is a non-empty string without marked runes. *)
Lemma FieldsFunc_spec (Herr : p RuneError = false) s :
  Forall (fun f => f <> EmptyString /\ unmarked f) (FieldsFunc p s).
Proof.
  remember (String.length s) as n eqn:En. revert s En.
  induction (lt_wf n) as [n _ IH]; intros s ->.
  destruct (mask_split Herr s 0) as (a & r & -> & _ & Hf & Hr); [lia|].
  unfold FieldsFunc, mask.
  destruct Hr as [->|(d & r' & -> & Hd & Hp)].
  - rewrite str_app_nil_r, <- (app_nil_r (mask_go p 0 false a)).
    rewrite fields_go_unmarked by done. rewrite of_mask_go, str_app_nil_l. simpl.
    case_decide; by repeat constructor.
  - rewrite mask_go_app by (done || lia).
    rewrite fields_go_unmarked by done. rewrite of_mask_go, str_app_nil_l.
    unfold mask. cbn [mask_go]. pose proof (decode_width d r') as Hw.
    destruct (decode d r') as [x w]. cbn [fst snd] in *. rewrite Hp. cbn [fields_go].
    rewrite fields_go_skip by done.
    assert (Forall (fun f => f <> EmptyString /\ unmarked f) (FieldsFunc p (str_drop w r'))).
    { eapply IH; [|done]. rewrite str_length_app. pose proof (str_length_drop w r').
      simpl. lia. }
    case_decide; [done|]. by repeat constructor.
Qed.
End mask.

(** [Fields] recovers the words that [Join] put together. *)
Definition word (f : string) : Prop := f <> EmptyString /\ unmarked unicode.IsSpace f.

Lemma mask_space s :
  mask unicode.IsSpace (String.String " " s) = (" "%char, true) :: mask_go unicode.IsSpace 0 true s.
Proof. done. Qed.

Lemma Fields_words s : Forall word (Fields s).
Proof. by apply FieldsFunc_spec. Qed.

Lemma Fields_Join l : Forall word l -> Fields (Join l " ") = l.
Proof.
  induction 1 as [|f l [Hne Hf] Hl IH]; [done|]. unfold Fields, FieldsFunc.
  destruct l as [|g l].
  - cbn [Join]. rewrite <- (app_nil_r (mask _ f)), fields_go_unmarked by done.
    unfold mask. rewrite of_mask_go, str_app_nil_l. simpl. by rewrite decide_False.
  - change (Join (f :: g :: l) " ") with (f +:+ String.String " " (Join (g :: l) " ")).
    rewrite mask_app by done. rewrite fields_go_unmarked by done.
    unfold mask at 1. rewrite of_mask_go, str_app_nil_l, mask_space.
    cbn [fields_go]. rewrite decide_False by done. f_equal.
    rewrite fields_go_skip by lia. apply IH.
Qed.

(** Trimming leaves joined words alone, and appending one more word to them
    is joining it. *)
Lemma drop_marked_head l : head l <> None -> (forall c, head l <> Some (c, true)) -> drop_marked l = l.
Proof. destruct l as [|[c []] l]; simpl; intros ? H; try done. by destruct (H c). Qed.

Lemma mask_words l :
  Forall word l -> l <> [] ->
  (exists c m, mask unicode.IsSpace (Join l " ") = (c, false) :: m) /\
  (exists c m, mask unicode.IsSpace (Join l " ") = m ++ [(c, false)]).
Proof.
  assert (forall f, word f -> (exists c m, mask unicode.IsSpace f = (c, false) :: m) /\
    (exists c m, mask unicode.IsSpace f = m ++ [(c, false)])) as Hw.
  { intros f [Hne Hf]. unfold unmarked in Hf.
    assert (mask unicode.IsSpace f <> []) as Hm.
    { intros E. apply Hne. rewrite <- (of_mask_go unicode.IsSpace 0 false f).
      change (of_mask (mask unicode.IsSpace f) = EmptyString). by rewrite E. }
    split.
    - destruct (mask _ f) as [|[c b] m]; [done|]. apply Forall_cons in Hf as [Hb _].
      cbn in Hb. subst b. by eauto.
    - destruct (exists_last Hm) as (m & [c b] & E). rewrite E in *.
      apply Forall_app in Hf as [_ Hf]. apply Forall_cons in Hf as [Hb _].
      cbn in Hb. subst b. by eauto. }
  induction 1 as [|f l Hf Hl IH]; [done|]. intros _.
  destruct l as [|g l]; [by apply Hw|].
  destruct (Hw f Hf) as [(c & m & E) _]. destruct IH as [_ (c' & m' & E')]; [done|].
  change (Join (f :: g :: l) " ") with (f +:+ String.String " " (Join (g :: l) " ")).
  rewrite mask_app, mask_space by done. rewrite E. split; [by eauto|].
  exists c', ((c, false) :: m ++ (" "%char, true) :: m').
  replace (mask_go unicode.IsSpace 0 true (Join (g :: l) " "))
    with (mask unicode.IsSpace (Join (g :: l) " "))
    by (unfold mask; by destruct (Join (g :: l) " ")).
  rewrite E'. simpl. by rewrite <- app_assoc.
Qed.

Lemma TrimSpace_Join l : Forall word l -> TrimSpace (Join l " ") = Join l " ".
Proof.
  intros Hl. destruct (decide (l = [])) as [->|Hne]; [done|].
  destruct (mask_words l Hl Hne) as [(c & m & E) (c' & m' & E')].
  unfold TrimSpace, TrimFunc. rewrite (drop_marked_head (mask _ _)) by (rewrite E; done).
  rewrite E', rev_app_distr. change (drop_marked _) with ([(c', false)] ++ rev m').
  rewrite rev_app_distr, rev_involutive. change (rev [_]) with [(c', false)].
  rewrite <- E'. apply of_mask_go.
Qed.

Lemma Join_snoc l x sep : l <> [] -> Join (l ++ [x]) sep = Join l sep +:+ sep +:+ x.
Proof.
  induction l as [|y [|z l] IH]; intros; [done|done|].
  change (Join ((y :: z :: l) ++ [x]) sep) with (y +:+ sep +:+ Join ((z :: l) ++ [x]) sep).
  rewrite IH by done. change (Join (y :: z :: l) sep) with (y +:+ sep +:+ Join (z :: l) sep).
  by rewrite !str_app_assoc.
Qed.
End Strings.

(** ** Parts of strings *)

Lemma str_take_app a b : Strings.str_take (String.length a) (a +:+ b) = a.
Proof. induction a as [|c a IH]; [by destruct b|]. rewrite str_app_cons. cbn. by rewrite IH. Qed.
Lemma str_take_drop n s : Strings.str_take n s +:+ Strings.str_drop n s = s.
Proof. revert n. induction s as [|c s IH]; intros [|n]; try done. cbn. rewrite str_app_cons. by rewrite IH. Qed.
Lemma str_drop_app a b : Strings.str_drop (String.length a) (a +:+ b) = b.
Proof. induction a as [|c a IH]; [done|]. exact IH. Qed.

Lemma HasSuffix_app a b : Strings.HasSuffix (a +:+ b) b = true.
Proof.
  unfold Strings.HasSuffix. rewrite str_length_app.
  replace (String.length a + String.length b - String.length b)%nat with (String.length a) by lia.
  rewrite str_drop_app. apply andb_true_iff. split; [apply Nat.leb_le; lia|by apply bool_decide_eq_true].
Qed.
Lemma HasSuffix_inv s b : Strings.HasSuffix s b = true -> exists a, s = a +:+ b.
Proof.
  intros [_ E%bool_decide_eq_true]%andb_true_iff.
  exists (Strings.str_take (String.length s - String.length b) s). rewrite <- E at 2. by rewrite str_take_drop.
Qed.

Lemma str_app_inj_r a a' b : a +:+ b = a' +:+ b -> a = a'.
Proof.
  intros E. assert (String.length a = String.length a') as Hl.
  { apply (f_equal String.length) in E. rewrite !str_length_app in E. lia. }
  rewrite <- (str_take_app a b), E, Hl. apply str_take_app.
Qed.

Lemma ContainsByte_app a b c :
  Strings.ContainsByte (a +:+ b) c = Strings.ContainsByte a c || Strings.ContainsByte b c.
Proof. induction a as [|d a IH]; [done|]. rewrite str_app_cons. cbn. by rewrite IH, orb_assoc. Qed.

(** ** package strconv *)

Module strconv.
Definition Itoa (z : Z) : string := pretty z.

(** Decimal digits read onto an accumulator; [None] on any other byte. *)
Fixpoint digits (acc : Z) (s : string) : option Z :=
  match s with
  | EmptyString => Some acc
  | String.String c s' =>
    if utf8.between 48 57 (utf8.byte c) then digits (acc * 10 + (utf8.byte c - 48)) s'
    else None
  end.

Definition atoi_range (v : option Z) : option Z :=
  z ← v; if (int64_min <=? z) && (z <=? int64_max) then Some z else None.

(** [strconv.Atoi]: [None] when it returns an error. *)
Definition Atoi (s : string) : option Z :=
  match s with
  | EmptyString => None
  | String.String c s' =>
    if decide (c = "-"%char) then
      if decide (s' = EmptyString) then None else atoi_range (Z.opp <$> digits 0 s')
    else if decide (c = "+"%char) then
      if decide (s' = EmptyString) then None else atoi_range (digits 0 s')
    else atoi_range (digits 0 s)
  end.

Lemma digits_pretty_go x s : digits 0 (pretty_N_go x s) = digits (Z.of_N x) s.
Proof.
  revert s. induction (N.lt_wf_0 x) as [x _ IH]; intros s.
  destruct (decide (x = 0)%N) as [->|Hx]; [by rewrite pretty_N_go_0|].
  rewrite pretty_N_go_step by lia. rewrite IH by (apply N.div_lt; lia).
  cbn [digits].
  assert (utf8.byte (pretty_N_char (x mod 10)) = 48 + Z.of_N (x mod 10)) as ->.
  { pose proof (N.mod_lt x 10 ltac:(lia)) as Hm. generalize dependent (x mod 10)%N.
    intros d Hd. do 10 (destruct d as [|d] using N.peano_ind; [done|clear IHd]). lia. }
  pose proof (N.mod_lt x 10 ltac:(lia)).
  pose proof (N.div_mod x 10 ltac:(lia)) as Hd.
  remember (x mod 10)%N as m. remember (x / 10)%N as q.
  unfold utf8.between.
  destruct (48 <=? 48 + Z.of_N m) eqn:E1; [|lia].
  destruct (48 + Z.of_N m <=? 57) eqn:E2; [|lia].
  cbn [andb]. f_equal. lia.
Qed.

Lemma pretty_N_digits (x : N) : digits 0 (pretty x) = Some (Z.of_N x).
Proof. unfold pretty, pretty_N. case_decide; [by subst|]. by rewrite digits_pretty_go. Qed.

Lemma pretty_N_head (x : N) :
  exists c s, pretty x = String.String c s /\ c <> "-"%char /\ c <> "+"%char.
Proof.
  pose proof (pretty_N_digits x) as H.
  destruct (pretty x) as [|c s] eqn:E.
  { exfalso. unfold pretty, pretty_N in E. case_decide as Hx; [done|].
    pose proof (digits_pretty_go x "") as D. rewrite E in D. cbn [digits] in D.
    injection D. lia. }
  exists c, s. split; [done|]. cbn [digits] in H.
  split; intros ->; discriminate H.
Qed.

Lemma Atoi_Itoa z : in_int64 z -> Atoi (Itoa z) = Some z.
Proof.
  intros [H1 H2]. assert (forall y, y = z -> atoi_range (Some y) = Some z) as Hr.
  { intros y ->. unfold atoi_range. cbn. replace (_ && _) with true by lia. done. }
  destruct z as [|q|q].
  - done.
  - destruct (pretty_N_head (N.pos q)) as (c & s & E & Hm & Hp).
    pose proof (pretty_N_digits (N.pos q)) as D.
    change (Itoa (Z.pos q)) with (pretty (N.pos q)). rewrite E in *. unfold Atoi.
    rewrite !decide_False, D by done. by apply Hr.
  - destruct (pretty_N_head (N.pos q)) as (c & s & E & _).
    pose proof (pretty_N_digits (N.pos q)) as D.
    change (Itoa (Z.neg q)) with ("-" +:+ pretty (N.pos q)). rewrite E in *.
    rewrite str_app_cons, str_app_nil_l. unfold Atoi.
    rewrite decide_True, decide_False, D by done. by apply Hr.
Qed.

(** [Quote], the verb [%q]; which runes beyond ASCII are printable is in the
    tables of package unicode, a parameter. *)
Definition hexDigit (n : Z) : ascii := utf8.chr (if n <? 10 then 48 + n else 87 + n).
Fixpoint hexDigits (width : nat) (n : Z) : string :=
  match width with O => EmptyString | S w => hexDigits w (n / 16) +:+ String.String (hexDigit (n mod 16)) EmptyString end.
Definition escaped (letter : Z) (rest : string) : string :=
  String.String (utf8.chr 92) (String.String (utf8.chr letter) rest).

Section quote.
Context (graphic : Z -> bool).
Definition quoteRune (r : Z) : string :=
  if (r =? 34) || (r =? 92) then escaped r EmptyString
  else if if r <? 128 then utf8.between 32 126 r else graphic r then utf8.encode r
  else if utf8.between 7 13 r then escaped (default 118 ([97; 98; 116; 110; 118; 102; 114] !! Z.to_nat (r - 7))) EmptyString
  else if (r <? 32) || (r =? 127) then escaped 120 (hexDigits 2 r)
  else if r <? 65536 then escaped 117 (hexDigits 4 r)
  else escaped 85 (hexDigits 8 r).

Fixpoint quote_go (skip : nat) (s : string) : string :=
  match s with
  | EmptyString => EmptyString
  | String.String c t =>
    match skip with
    | S k => quote_go k t
    | O =>
      let '(r, n) := utf8.decode c t in
      (if (r =? utf8.RuneError) && (n =? 0)%nat then escaped 120 (hexDigits 2 (utf8.byte c)) else quoteRune r)
      +:+ quote_go n t
    end
  end.
Definition Quote (s : string) : string :=
  String.String (utf8.chr 34) (quote_go 0 s +:+ String.String (utf8.chr 34) EmptyString).
End quote.
End strconv.

(** ** package path/filepath (Unix) *)

Module filepath.
(** The element stack of [Clean], innermost last. *)
Fixpoint clean_go (rooted : bool) (out : list string) (l : list string) : list string :=
  match l with
  | [] => rev out
  | x :: l' =>
    if decide (x = EmptyString \/ x = "."%string) then clean_go rooted out l'
    else if decide (x = ".."%string) then
      match out with
      | y :: out' =>
        if decide (y = ".."%string) then clean_go rooted (x :: out) l'
        else clean_go rooted out' l'
      | [] => clean_go rooted (if rooted then [] else [x]) l'
      end
    else clean_go rooted (x :: out) l'
  end.

(** [filepath.Clean]. *)
Definition Clean (path : string) : string :=
  let rooted := Strings.HasPrefix path "/" in
  let out := clean_go rooted [] (Strings.Split path "/") in
  if rooted then "/" +:+ Strings.Join out "/"
  else if decide (out = []) then "."%string
  else Strings.Join out "/".

(** [filepath.Join]: leading empty elements are ignored. *)
Fixpoint Join (elems : list string) : string :=
  match elems with
  | [] => EmptyString
  | e :: l => if decide (e = EmptyString) then Join l else Clean (Strings.Join elems "/")
  end.

(** [filepath.Base]. *)
Definition Base (path : string) : string :=
  if decide (path = EmptyString) then "."%string
  else
    let p := Strings.TrimRight path ["/"%char] in
    let b := default EmptyString (last (Strings.Split p "/")) in
    if decide (b = EmptyString) then "/"%string else b.
End filepath.
