(* ===== verification/GoTime.v ===== *)
(** * Go standard library: calendar time

    [Time.UTC().Format(time.RFC3339)] and [time.Parse(time.RFC3339, _)].  The
    civil date of an instant follows the proleptic Gregorian calendar; the
    parser is the RFC 3339 grammar (Go additionally accepts a one-digit hour
    and a comma before the fraction, which [Format] never writes). *)

From S2P Require Import Prelude GoStd GoText.
From stdpp Require Import list_numbers.
Open Scope Z_scope.

Module calendar.
Definition is_leap (y : Z) : bool :=
  (y mod 4 =? 0) && (negb (y mod 100 =? 0) || (y mod 400 =? 0)).

Definition month_days (leap : bool) : list Z :=
  [31; if leap then 29 else 28; 31; 30; 31; 30; 31; 31; 30; 31; 30; 31].

Definition daysIn (m y : Z) : Z :=
  default 0 (month_days (is_leap y) !! Z.to_nat (m - 1)).

(** Days from 1 January of year 1 to 1 January of year [y]. *)
Definition days_before_year (y : Z) : Z :=
  let y := y - 1 in 365 * y + y / 4 - y / 100 + y / 400.

Definition days_before_month (leap : bool) (m : Z) : Z :=
  foldr Z.add 0 (take (Z.to_nat (m - 1)) (month_days leap)).

Definition days_of_date (y m d : Z) : Z :=
  days_before_year y + days_before_month (is_leap y) m + (d - 1).

(** Year and day of the year of a day number: cycles of 400, 100, 4 and 1
    years, the last day of a cycle belonging to its last year. *)
Definition year_of_days (days : Z) : Z * Z :=
  let n400 := days / 146097 in
  let d := days - 146097 * n400 in
  let n100 := Z.min 3 (d / 36524) in
  let d := d - 36524 * n100 in
  let n4 := d / 1461 in
  let d := d - 1461 * n4 in
  let n1 := Z.min 3 (d / 365) in
  (400 * n400 + 100 * n100 + 4 * n4 + n1 + 1, d - 365 * n1).

Fixpoint month_of_yday (m : Z) (l : list Z) (yday : Z) : Z * Z :=
  match l with
  | [] => (m, yday + 1)
  | n :: l' => if yday <? n then (m, yday + 1) else month_of_yday (m + 1) l' (yday - n)
  end.

Definition date_of_days (days : Z) : Z * Z * Z :=
  let '(y, yday) := year_of_days days in
  let '(m, d) := month_of_yday 1 (month_days (is_leap y)) yday in
  (y, m, d).

(** ** The date determines the day number *)

Lemma year_of_days_spec days y yday :
  year_of_days days = (y, yday) ->
  days_before_year y + yday = days /\
  0 <= yday < (if is_leap y then 366 else 365).
Proof.
  unfold year_of_days. intros E. apply pair_equal_spec in E as [Ey Ed].
  set (a := days / 146097) in *. set (d1 := days - 146097 * a) in *.
  assert (0 <= d1 < 146097) by (subst d1 a; Z.to_euclidean_division_equations; lia).
  set (b := Z.min 3 (d1 / 36524)) in *. set (d2 := d1 - 36524 * b) in *.
  assert (0 <= b <= 3 /\ 0 <= d2 <= 36524 /\ (d2 = 36524 -> b = 3))
    by (subst d2 b; Z.to_euclidean_division_equations; lia).
  set (c := d2 / 1461) in *. set (d3 := d2 - 1461 * c) in *.
  assert (0 <= c <= 24 /\ 0 <= d3 < 1461 /\ (c = 24 -> d3 <= 1460) /\
    (c = 24 -> d3 = 1460 -> b = 3))
    by (subst d3 c; Z.to_euclidean_division_equations; lia).
  set (e := Z.min 3 (d3 / 365)) in *.
  assert (0 <= e <= 3 /\ 0 <= d3 - 365 * e <= 365 /\ (d3 - 365 * e = 365 -> e = 3))
    by (subst e; Z.to_euclidean_division_equations; lia).
  clearbody e. subst d3. clearbody c. subst d2. clearbody b. subst d1. clearbody a.
  assert ((y - 1) / 4 = 100 * a + 25 * b + c /\ (y - 1) / 100 = 4 * a + b /\
    (y - 1) / 400 = a) as (E4 & E100 & E400)
    by (subst y; Z.to_euclidean_division_equations; lia).
  split.
  - unfold days_before_year. rewrite E4, E100, E400. lia.
  - split; [lia|]. destruct (is_leap y) eqn:El; [lia|].
    destruct (decide (yday = 365)) as [Hy|]; [|lia]. exfalso.
    enough (is_leap y = true) by congruence. unfold is_leap. assert (e = 3) by lia. clear El E4 E100 E400.
    assert (c = 24 -> b = 3) by lia.
    assert (y mod 4 = 0) as -> by (subst y; Z.to_euclidean_division_equations; lia).
    destruct (decide (c = 24)) as [->|].
    + assert (y mod 400 = 0) as -> by (subst y; Z.to_euclidean_division_equations; lia).
      by rewrite orb_true_r.
    + assert (y mod 100 <> 0) by (subst y; Z.to_euclidean_division_equations; lia).
      destruct (Z.eqb_spec (y mod 100) 0); [done|]. done.
Qed.

(** Both month tables, checked day by day. *)
Definition month_ok (leap : bool) (yday : Z) : bool :=
  let '(m, d) := month_of_yday 1 (month_days leap) yday in
  (days_before_month leap m + (d - 1) =? yday)
  && (1 <=? m) && (m <=? 12) && (1 <=? d)
  && (d <=? default 0 (month_days leap !! Z.to_nat (m - 1))).

Lemma month_table :
  forallb (month_ok true) (seqZ 0 366) && forallb (month_ok false) (seqZ 0 365) = true.
Proof. vm_compute. reflexivity. Qed.

Lemma month_of_yday_spec (leap : bool) yday m d :
  0 <= yday < (if leap then 366 else 365) ->
  month_of_yday 1 (month_days leap) yday = (m, d) ->
  days_before_month leap m + (d - 1) = yday /\ 1 <= m <= 12 /\
  1 <= d <= default 0 (month_days leap !! Z.to_nat (m - 1)).
Proof.
  intros Hy E. pose proof month_table as T. apply andb_prop in T as [T1 T2].
  rewrite forallb_forall in T1, T2.
  assert (month_ok leap yday = true) as Hok.
  { destruct leap; [apply T1|apply T2]; apply list_elem_of_In, elem_of_seqZ; lia. }
  unfold month_ok in Hok. rewrite E in Hok. lia.
Qed.

Lemma days_of_date_of_days days y m d :
  date_of_days days = (y, m, d) ->
  days_of_date y m d = days /\ 1 <= m <= 12 /\ 1 <= d <= daysIn m y.
Proof.
  unfold date_of_days. destruct (year_of_days days) as [y' yday] eqn:Ey.
  destruct (month_of_yday 1 _ yday) as [m' d'] eqn:Em. intros [= -> -> ->].
  apply year_of_days_spec in Ey as [E1 E2]. apply month_of_yday_spec in Em; [|done].
  unfold days_of_date, daysIn. lia.
Qed.
End calendar.

(** ** RFC 3339 *)

Module rfc3339.
Import calendar.

Definition digit (n : Z) : ascii := utf8.chr (48 + n mod 10).

Fixpoint fixed_digits (w : nat) (n : Z) (rest : string) : string :=
  match w with
  | O => rest
  | S w' => fixed_digits w' (n / 10) (String.String (digit n) rest)
  end.

(** [appendInt(b, x, width)]. *)
Definition appendInt (x : Z) (w : nat) (rest : string) : string :=
  let body := if Z.abs x <? 10 ^ Z.of_nat w then fixed_digits w (Z.abs x) rest
              else strconv.Itoa (Z.abs x) +:+ rest in
  if x <? 0 then String.String "-" body else body.

Definition day_ns : Z := 86400 * time.Second.

(** [t.UTC().Format(time.RFC3339)]. *)
Definition Format (t : Time) : string :=
  let '(y, m, d) := date_of_days (t / day_ns) in
  let s := t / time.Second mod 86400 in
  appendInt y 4 (String.String "-" (appendInt m 2 (String.String "-" (appendInt d 2
    (String.String "T" (appendInt (s / 3600) 2 (String.String ":" (appendInt (s / 60 mod 60) 2
      (String.String ":" (appendInt (s mod 60) 2 "Z")))))))))).

(** A number of [n] digits between [lo] and [hi], and the rest of the string. *)
Fixpoint take_digits (n : nat) (acc : Z) (s : string) : option (Z * string) :=
  match n, s with
  | O, _ => Some (acc, s)
  | S n', String.String c s' =>
    if utf8.between 48 57 (utf8.byte c)
    then take_digits n' (acc * 10 + (utf8.byte c - 48)) s'
    else None
  | S _, EmptyString => None
  end.
Definition parseUint (n : nat) (lo hi : Z) (s : string) : option (Z * string) :=
  '(x, s') ← take_digits n 0 s;
  if (lo <=? x) && (x <=? hi) then Some (x, s') else None.
Definition expect (c : ascii) (s : string) : option string :=
  match s with
  | String.String c' s' => if decide (c = c') then Some s' else None
  | EmptyString => None
  end.

(** The digits of a fraction: up to nine count, in nanoseconds. *)
Fixpoint fraction (scale acc : Z) (s : string) : Z * string :=
  match s with
  | String.String c s' =>
    if utf8.between 48 57 (utf8.byte c)
    then fraction (scale / 10) (acc + (utf8.byte c - 48) * scale) s'
    else (acc, s)
  | EmptyString => (acc, s)
  end.
Definition parse_fraction (s : string) : Z * string :=
  match s with
  | String.String "." (String.String c s') =>
    if utf8.between 48 57 (utf8.byte c) then fraction 100000000 0 (String.String c s')
    else (0, s)
  | _ => (0, s)
  end.

(** The zone: [Z] or [+hh:mm] / [-hh:mm], as an offset in seconds. *)
Definition parse_zone (s : string) : option Z :=
  if decide (s = "Z"%string) then Some 0
  else match s with
  | String.String sg s' =>
    '(hr, s') ← parseUint 2 0 23 s'; s' ← expect ":" s';
    '(mm, s') ← parseUint 2 0 59 s';
    if decide (s' = EmptyString) then
      if decide (sg = "+"%char) then Some ((hr * 60 + mm) * 60)
      else if decide (sg = "-"%char) then Some (- ((hr * 60 + mm) * 60)) else None
    else None
  | EmptyString => None
  end.

(** [time.Parse(time.RFC3339, s)]; [None] when it returns an error. *)
Definition Parse (s : string) : option Time :=
  '(year, s) ← parseUint 4 0 9999 s; s ← expect "-" s;
  '(month, s) ← parseUint 2 1 12 s; s ← expect "-" s;
  '(day, s) ← parseUint 2 1 (daysIn month year) s; s ← expect "T" s;
  '(hour, s) ← parseUint 2 0 23 s; s ← expect ":" s;
  '(min, s) ← parseUint 2 0 59 s; s ← expect ":" s;
  '(sec, s) ← parseUint 2 0 59 s;
  let '(nsec, s) := parse_fraction s in
  off ← parse_zone s;
  Some ((days_of_date year month day * 86400 + hour * 3600 + min * 60 + sec - off)
        * time.Second + nsec).

(** ** Round trip *)

Lemma byte_digit n : utf8.byte (digit n) = 48 + n mod 10.
Proof. unfold digit. apply utf8.byte_chr. pose proof (Z.mod_pos_bound n 10). lia. Qed.

Lemma take_fixed k n rest w acc :
  0 <= n < 10 ^ Z.of_nat w ->
  take_digits (w + k) acc (fixed_digits w n rest)
  = take_digits k (acc * 10 ^ Z.of_nat w + n) rest.
Proof.
  revert k n rest acc. induction w as [|w IH]; intros k n rest acc Hn.
  { rewrite Z.pow_0_r in *. cbn. f_equal. lia. }
  cbn [fixed_digits]. rewrite Nat2Z.inj_succ, Z.pow_succ_r in * by lia.
  replace (S w + k)%nat with (w + S k)%nat by lia.
  rewrite IH by (Z.to_euclidean_division_equations; lia).
  cbn [take_digits]. rewrite byte_digit. pose proof (Z.mod_pos_bound n 10 eq_refl).
  unfold utf8.between.
  destruct (48 <=? 48 + n mod 10) eqn:E1; [|lia].
  destruct (48 + n mod 10 <=? 57) eqn:E2; [|lia]. cbn [andb]. f_equal.
  pose proof (Z.div_mod n 10). lia.
Qed.

Lemma parse_appendInt w n lo hi rest :
  0 <= n < 10 ^ Z.of_nat w -> lo <= n <= hi ->
  parseUint w lo hi (appendInt n w rest) = Some (n, rest).
Proof.
  intros H1 H2. unfold appendInt, parseUint. rewrite Z.abs_eq by lia.
  destruct (Z.ltb_spec n (10 ^ Z.of_nat w)); [|lia].
  destruct (Z.ltb_spec n 0); [lia|].
  pose proof (take_fixed 0 n rest w 0 H1) as E. rewrite Nat.add_0_r, Z.mul_0_l, Z.add_0_l in E.
  rewrite E. cbn [take_digits mbind option_bind]. destruct (lo <=? n) eqn:?; [|lia]. destruct (n <=? hi) eqn:?; [|lia]. done.
Qed.

Lemma Format_parse y m d s :
  0 <= y <= 9999 -> 1 <= m <= 12 -> 1 <= d <= daysIn m y -> 0 <= s < 86400 ->
  Parse (appendInt y 4 (String.String "-" (appendInt m 2 (String.String "-" (appendInt d 2
    (String.String "T" (appendInt (s / 3600) 2 (String.String ":" (appendInt (s / 60 mod 60) 2
      (String.String ":" (appendInt (s mod 60) 2 "Z")))))))))))
  = Some ((days_of_date y m d * 86400 + s) * time.Second).
Proof.
  intros Hy Hm Hd Hs.
  assert (daysIn m y <= 31).
  { unfold daysIn. assert (forall leap, Forall (fun x => x <= 31) (month_days leap)) as F
      by (intros []; repeat constructor; lia).
    destruct (month_days (is_leap y) !! Z.to_nat (m - 1)) eqn:E; simpl; [|lia].
    exact (proj1 (Forall_lookup _ _) (F _) _ _ E). }
  assert (forall c t, expect c (String.String c t) = Some t) as Hx
    by (intros; unfold expect; by rewrite decide_True).
  unfold Parse.
  rewrite parse_appendInt by lia. cbn [mbind option_bind]. rewrite Hx. cbn [mbind option_bind].
  rewrite parse_appendInt by lia. cbn [mbind option_bind]. rewrite Hx. cbn [mbind option_bind].
  rewrite parse_appendInt by lia. cbn [mbind option_bind]. rewrite Hx. cbn [mbind option_bind].
  rewrite parse_appendInt by (Z.to_euclidean_division_equations; lia).
  cbn [mbind option_bind]. rewrite Hx. cbn [mbind option_bind].
  rewrite parse_appendInt by (Z.to_euclidean_division_equations; lia).
  cbn [mbind option_bind]. rewrite Hx. cbn [mbind option_bind].
  rewrite parse_appendInt by (Z.to_euclidean_division_equations; lia).
  cbn [mbind option_bind]. change (parse_fraction "Z") with (0, "Z"%string).
  cbv iota beta. change (parse_zone "Z") with (Some 0). cbn [mbind option_bind].
  f_equal. rewrite Z.add_0_r. f_equal. Z.to_euclidean_division_equations; lia.
Qed.

(** The instants of the years 0 to 9999. *)
Definition formattable (t : Time) : Prop :=
  0 <= fst (fst (date_of_days (t / day_ns))) <= 9999.

Definition truncate_second (t : Time) : Time := t / time.Second * time.Second.

Lemma Parse_Format t : formattable t -> Parse (Format t) = Some (truncate_second t).
Proof.
  unfold formattable, Format.
  destruct (date_of_days (t / day_ns)) as [[y m] d] eqn:E. cbn [fst]. intros Hy.
  apply days_of_date_of_days in E as (Ed & Hm & Hd).
  rewrite Format_parse by (done || apply Z.mod_pos_bound; done).
  f_equal. rewrite Ed. unfold truncate_second, day_ns. f_equal.
  rewrite (Z.mul_comm 86400), <- Z.div_div by done.
  pose proof (Z.div_mod (t / time.Second) 86400). lia.
Qed.
End rfc3339.
