(* ===== verification/GoJson.v ===== *)
(** * Go standard library: encoding/json

    [Unmarshal] as the code uses it.  [parse] is the scanner: the syntax of the
    whole input is checked first, and nothing is stored when it is wrong.  The
    decoders then walk the value; a value of the wrong type is skipped and
    reported at the end, after everything else has been stored.  Each element
    of a compound value keeps its source text, which is what a [RawMessage]
    holds.  [Marshal] is in GoMarshal. *)

From S2P Require Import Prelude GoStd GoText.
From stdpp Require Import pretty.
Open Scope Z_scope.

Module json.

(** ** Values *)

Inductive value :=
| Null
| Bool (b : bool)
| Number (lit : string)
| Str (s : string)
| Array (elems : list (string * value))
| Object (members : list (string * (string * value))).

(** ** Strings *)

Definition quoteChar : ascii := "034"%char.
Definition backslash : ascii := "092"%char.

Definition hexDigit (c : ascii) : option Z :=
  let b := utf8.byte c in
  if utf8.between 48 57 b then Some (b - 48)
  else if utf8.between 97 102 b then Some (b - 87)
  else if utf8.between 65 70 b then Some (b - 55)
  else None.

(** The four digits after [\u]. *)
Definition getu4 (a b c d : ascii) : option Z :=
  a ← hexDigit a; b ← hexDigit b; c ← hexDigit c; d ← hexDigit d;
  Some (((a * 16 + b) * 16 + c) * 16 + d).

Definition isSurrogate (r : Z) : bool := utf8.between 55296 57343 r.

(** [utf16.DecodeRune]: [None] stands for U+FFFD. *)
Definition decodeSurrogates (r1 r2 : Z) : option Z :=
  if utf8.between 55296 56319 r1 && utf8.between 56320 57343 r2
  then Some ((r1 - 55296) * 1024 + (r2 - 56320) + 65536) else None.

(** The byte a one-letter escape stands for. *)
Definition simpleEscape (c : ascii) : option ascii :=
  let b := utf8.byte c in
  if (b =? 34) || (b =? 92) || (b =? 47) then Some c
  else if b =? 98 then Some (utf8.chr 8)
  else if b =? 102 then Some (utf8.chr 12)
  else if b =? 110 then Some (utf8.chr 10)
  else if b =? 114 then Some (utf8.chr 13)
  else if b =? 116 then Some (utf8.chr 9)
  else None.

Definition emit (p : string) (r : option (string * string)) : option (string * string) :=
  match r with Some (s, rest) => Some (p +:+ s, rest) | None => None end.

(** The text up to the closing quote and what follows it; [copy] counts the
    bytes of the current rune still to copy.  An invalid byte is read as
    U+FFFD. *)
Fixpoint str_go (copy : nat) (s : string) : option (string * string) :=
  match s with
  | EmptyString => None
  | String.String c s1 =>
    match copy with
    | S k => emit (String.String c EmptyString) (str_go k s1)
    | O =>
      if Ascii.eqb c quoteChar then Some (EmptyString, s1)
      else if Ascii.eqb c backslash then
        match s1 with
        | String.String e s2 =>
          if Ascii.eqb e "u" then
            match s2 with
            | String.String h1 (String.String h2 (String.String h3 (String.String h4 t))) =>
              match getu4 h1 h2 h3 h4 with
              | None => None
              | Some r =>
                if isSurrogate r then
                  match t with
                  | String.String b (String.String u (String.String g1 (String.String g2
                      (String.String g3 (String.String g4 t2))))) =>
                    match (if Ascii.eqb b backslash && Ascii.eqb u "u"
                           then r2 ← getu4 g1 g2 g3 g4; decodeSurrogates r r2 else None) with
                    | Some d => emit (utf8.encode d) (str_go 0 t2)
                    | None => emit (utf8.encode utf8.RuneError) (str_go 0 t)
                    end
                  | _ => emit (utf8.encode utf8.RuneError) (str_go 0 t)
                  end
                else emit (utf8.encode r) (str_go 0 t)
              end
            | _ => None
            end
          else
            match simpleEscape e with
            | Some b => emit (String.String b EmptyString) (str_go 0 s2)
            | None => None
            end
        | EmptyString => None
        end
      else if utf8.byte c <? 32 then None
      else
        let '(r, w) := utf8.decode c s1 in
        if (r =? utf8.RuneError) && Nat.eqb w 0
        then emit (utf8.encode utf8.RuneError) (str_go 0 s1)
        else emit (String.String c EmptyString) (str_go w s1)
    end
  end.

(** ** Numbers *)

Definition isDigit (c : ascii) : bool := utf8.between 48 57 (utf8.byte c).

Fixpoint spanDigits (s : string) : string * string :=
  match s with
  | String.String c t =>
    if isDigit c then let '(ds, r) := spanDigits t in (String.String c ds, r)
    else (EmptyString, s)
  | EmptyString => (EmptyString, EmptyString)
  end.

Definition lexExp (acc s : string) : option (string * string) :=
  match s with
  | String.String e t =>
    if Ascii.eqb e "e" || Ascii.eqb e "E" then
      let '(sign, t) :=
        match t with
        | String.String c t' =>
          if Ascii.eqb c "+" || Ascii.eqb c "-" then (String.String c EmptyString, t')
          else (EmptyString, t)
        | EmptyString => (EmptyString, t)
        end in
      let '(ds, r) := spanDigits t in
      if decide (ds = EmptyString) then None
      else Some (acc +:+ String.String e EmptyString +:+ sign +:+ ds, r)
    else Some (acc, s)
  | EmptyString => Some (acc, s)
  end.

Definition lexFrac (acc s : string) : option (string * string) :=
  match s with
  | String.String d t =>
    if Ascii.eqb d "." then
      let '(ds, r) := spanDigits t in
      if decide (ds = EmptyString) then None
      else lexExp (acc +:+ String.String d EmptyString +:+ ds) r
    else lexExp acc s
  | EmptyString => Some (acc, s)
  end.

Definition lexInt (sign s : string) : option (string * string) :=
  match s with
  | String.String c t =>
    if Ascii.eqb c "0" then lexFrac (sign +:+ String.String c EmptyString) t
    else if isDigit c then
      let '(ds, r) := spanDigits t in lexFrac (sign +:+ String.String c ds) r
    else None
  | EmptyString => None
  end.

Definition lexNumber (s : string) : option (string * string) :=
  match s with
  | String.String c t =>
    if Ascii.eqb c "-" then lexInt (String.String c EmptyString) t else lexInt EmptyString s
  | EmptyString => None
  end.

(** ** Values *)

Definition isSpace (c : ascii) : bool :=
  let b := utf8.byte c in (b =? 32) || (b =? 9) || (b =? 13) || (b =? 10).

Fixpoint skip (s : string) : string :=
  match s with
  | String.String c t => if isSpace c then skip t else s
  | EmptyString => EmptyString
  end.

(** [s] without the literal [lit] at its front. *)
Fixpoint stripLit (lit s : string) : option string :=
  match lit, s with
  | EmptyString, _ => Some s
  | String.String a lit', String.String c s' => if Ascii.eqb a c then stripLit lit' s' else None
  | _, EmptyString => None
  end.

(** What was consumed between [s] and its suffix [rest]. *)
Definition consumed (s rest : string) : string :=
  Strings.str_take (String.length s - String.length rest) s.

(** [maxNestingDepth]. *)
Definition maxNestingDepth : nat := Z.to_nat 10000.

(** [value_go] reads the value that [s] starts with, [elements_go] an array
    from its first element, [members_go] an object from its first key.  A
    compound value may open while [depth] is not used up. *)
Fixpoint value_go (fuel depth : nat) (s : string) : option (value * string) :=
  match fuel with
  | O => None
  | S fuel =>
    match s with
    | EmptyString => None
    | String.String c t =>
      if Ascii.eqb c quoteChar then
        match str_go 0 t with Some (x, r) => Some (Str x, r) | None => None end
      else if Ascii.eqb c "[" then
        match depth with
        | O => None
        | S depth =>
          match skip t with
          | String.String c' t' =>
            if Ascii.eqb c' "]" then Some (Array [], t')
            else match elements_go fuel depth (skip t) with
                 | Some (es, r) => Some (Array es, r)
                 | None => None
                 end
          | EmptyString => None
          end
        end
      else if Ascii.eqb c "{" then
        match depth with
        | O => None
        | S depth =>
          match skip t with
          | String.String c' t' =>
            if Ascii.eqb c' "}" then Some (Object [], t')
            else match members_go fuel depth (skip t) with
                 | Some (ms, r) => Some (Object ms, r)
                 | None => None
                 end
          | EmptyString => None
          end
        end
      else if Ascii.eqb c "t" then
        match stripLit "true" s with Some r => Some (Bool true, r) | None => None end
      else if Ascii.eqb c "f" then
        match stripLit "false" s with Some r => Some (Bool false, r) | None => None end
      else if Ascii.eqb c "n" then
        match stripLit "null" s with Some r => Some (Null, r) | None => None end
      else
        match lexNumber s with Some (lit, r) => Some (Number lit, r) | None => None end
    end
  end
with elements_go (fuel depth : nat) (s : string) : option (list (string * value) * string) :=
  match fuel with
  | O => None
  | S fuel =>
    match value_go fuel depth s with
    | None => None
    | Some (v, r) =>
      match skip r with
      | String.String c t =>
        if Ascii.eqb c "]" then Some ([(consumed s r, v)], t)
        else if Ascii.eqb c "," then
          match elements_go fuel depth (skip t) with
          | Some (es, r') => Some ((consumed s r, v) :: es, r')
          | None => None
          end
        else None
      | EmptyString => None
      end
    end
  end
with members_go (fuel depth : nat) (s : string)
    : option (list (string * (string * value)) * string) :=
  match fuel with
  | O => None
  | S fuel =>
    match s with
    | EmptyString => None
    | String.String q t =>
      if negb (Ascii.eqb q quoteChar) then None
      else
        match str_go 0 t with
        | None => None
        | Some (key, r) =>
          match skip r with
          | EmptyString => None
          | String.String c t1 =>
            if negb (Ascii.eqb c ":") then None
            else
              let s1 := skip t1 in
              match value_go fuel depth s1 with
              | None => None
              | Some (v, r1) =>
                match skip r1 with
                | String.String c' t2 =>
                  if Ascii.eqb c' "}" then Some ([(key, (consumed s1 r1, v))], t2)
                  else if Ascii.eqb c' "," then
                    match members_go fuel depth (skip t2) with
                    | Some (ms, r') => Some ((key, (consumed s1 r1, v)) :: ms, r')
                    | None => None
                    end
                  else None
                | EmptyString => None
                end
              end
          end
        end
    end
  end.

(** A whole input: its text without the surrounding space, and its value. *)
Definition parse (data : string) : option (string * value) :=
  let s := skip data in
  match value_go (2 * String.length s + 2) maxNestingDepth s with
  | Some (v, r) =>
    match skip r with EmptyString => Some (consumed s r, v) | String.String _ _ => None end
  | None => None
  end.

(** ** The parser has enough fuel *)

Lemma skip_length s : (String.length (skip s) <= String.length s)%nat.
Proof. induction s as [|c s IH]; simpl; [lia|]. destruct (isSpace c); simpl; lia. Qed.

Lemma emit_inv p x s rest : emit p x = Some (s, rest) -> exists s', x = Some (s', rest).
Proof. destruct x as [[s' r]|]; simpl; [|done]. intros [= _ <-]. by eexists. Qed.

Lemma str_go_length s : forall k x r, str_go k s = Some (x, r) ->
  (String.length r < String.length s)%nat.
Proof.
  induction s as [s IH] using (induction_ltof1 _ String.length). unfold ltof in IH.
  intros k x r. destruct s as [|c s1]; [done|]. cbn [str_go String.length].
  intros H.
  repeat (case_match; simplify_eq; try done); try lia;
    apply emit_inv in H as [y H]; apply IH in H; simpl in *; lia.
Qed.

Lemma spanDigits_length s ds r : spanDigits s = (ds, r) ->
  (String.length ds + String.length r = String.length s)%nat.
Proof.
  revert ds r. induction s as [|c s IH]; simpl; intros ds r; [by intros [= <- <-]|].
  destruct (isDigit c); [|by intros [= <- <-]].
  destruct (spanDigits s) as [ds' r'] eqn:E. intros [= <- <-]. simpl.
  by rewrite <- (IH _ _ eq_refl).
Qed.

Ltac lex_lengths :=
  repeat match goal with
  | H : spanDigits _ = _ |- _ => apply spanDigits_length in H
  | H : Some _ = Some _ |- _ => injection H as <- <-
  | H : (_, _) = (_, _) |- _ => injection H as <- <-
  end; simpl in *.

Lemma lexExp_length acc s lit r : lexExp acc s = Some (lit, r) ->
  (String.length r <= String.length s)%nat.
Proof.
  unfold lexExp. intros H. repeat case_match; try done; lex_lengths; lia.
Qed.

Lemma lexFrac_length acc s lit r : lexFrac acc s = Some (lit, r) ->
  (String.length r <= String.length s)%nat.
Proof.
  unfold lexFrac. intros H. repeat case_match; try done;
    try (apply lexExp_length in H); lex_lengths; lia.
Qed.

Lemma lexInt_length sign s lit r : lexInt sign s = Some (lit, r) ->
  (String.length r < String.length s)%nat.
Proof.
  unfold lexInt. intros H. repeat case_match; try done;
    apply lexFrac_length in H; lex_lengths; lia.
Qed.

Lemma lexNumber_length s lit r : lexNumber s = Some (lit, r) ->
  (String.length r < String.length s)%nat.
Proof.
  unfold lexNumber. intros H. repeat case_match; try done; apply lexInt_length in H; simpl in *; lia.
Qed.

Lemma stripLit_length lit s r : stripLit lit s = Some r ->
  (String.length lit + String.length r = String.length s)%nat.
Proof.
  revert s. induction lit as [|a lit IH]; intros [|c s]; simpl; try done; try by intros [= <-].
  destruct (Ascii.eqb a c); [|done]. intros H%IH. lia.
Qed.

(** What a parser leaves is shorter than what it was given. *)
Lemma go_length fuel : forall depth s,
  (forall v r, value_go fuel depth s = Some (v, r) -> (String.length r < String.length s)%nat) /\
  (forall es r, elements_go fuel depth s = Some (es, r) -> (String.length r < String.length s)%nat) /\
  (forall ms r, members_go fuel depth s = Some (ms, r) -> (String.length r < String.length s)%nat).
Proof.
  induction fuel as [|fuel IH]; [done|]. intros depth s.
  split_and!; intros vs rest H; cbn [value_go elements_go members_go] in H.
  - repeat (case_match; simplify_eq; try done);
      repeat match goal with
      | H : str_go _ _ = Some _ |- _ => apply str_go_length in H
      | H : lexNumber _ = Some _ |- _ => apply lexNumber_length in H
      | H : stripLit _ _ = Some _ |- _ => apply stripLit_length in H
      | H : elements_go _ _ _ = Some _ |- _ => apply (IH _ _) in H
      | H : members_go _ _ _ = Some _ |- _ => apply (IH _ _) in H
      | H : skip ?t = String.String _ _ |- _ =>
          pose proof (skip_length t); rewrite H in *; clear H
      end; simpl in *; lia.
  - repeat (case_match; simplify_eq; try done);
      repeat match goal with
      | H : value_go _ _ _ = Some _ |- _ => apply (IH _ _) in H
      | H : elements_go _ _ (skip ?t) = Some _ |- _ =>
          pose proof (skip_length t); apply (IH _ _) in H
      | H : skip ?t = String.String _ _ |- _ =>
          pose proof (skip_length t); rewrite H in *; clear H
      end; simpl in *; lia.
  - repeat (case_match; simplify_eq; try done);
      repeat match goal with
      | H : str_go _ _ = Some _ |- _ => apply str_go_length in H
      | H : value_go _ _ (skip ?t) = Some _ |- _ =>
          pose proof (skip_length t); apply (IH _ _) in H
      | H : members_go _ _ (skip ?t) = Some _ |- _ =>
          pose proof (skip_length t); apply (IH _ _) in H
      | H : skip ?t = String.String _ _ |- _ =>
          pose proof (skip_length t); rewrite H in *; clear H
      end; simpl in *; lia.
Qed.

(** From twice the length of its input on, fuel does not matter: [parse] never
    fails for want of it. *)
Definition fuel_indifferent (s : string) : Prop :=
  forall f1 f2 depth,
  ((2 * String.length s + 2 <= f1)%nat -> (2 * String.length s + 2 <= f2)%nat ->
     value_go f1 depth s = value_go f2 depth s) /\
  ((2 * String.length s + 3 <= f1)%nat -> (2 * String.length s + 3 <= f2)%nat ->
     elements_go f1 depth s = elements_go f2 depth s) /\
  ((2 * String.length s + 3 <= f1)%nat -> (2 * String.length s + 3 <= f2)%nat ->
     members_go f1 depth s = members_go f2 depth s).

Lemma value_fuel s :
  (forall t, (String.length t < String.length s)%nat -> fuel_indifferent t) ->
  forall f1 f2 depth, (2 * String.length s + 2 <= f1)%nat -> (2 * String.length s + 2 <= f2)%nat ->
  value_go f1 depth s = value_go f2 depth s.
Proof.
  intros IH [|f1] [|f2] depth H1 H2; try lia. destruct s as [|c t]; [done|].
  cbn [value_go]. pose proof (skip_length t) as Hs. simpl in *.
  assert (fuel_indifferent (skip t)) as Ht by (apply IH; lia).
  destruct depth as [|depth]; [done|].
  destruct (Ht f1 f2 depth) as (_ & He & Hm). rewrite He, Hm by lia. done.
Qed.

Lemma elements_fuel s :
  (forall t, (String.length t < String.length s)%nat -> fuel_indifferent t) ->
  forall f1 f2 depth, (2 * String.length s + 3 <= f1)%nat -> (2 * String.length s + 3 <= f2)%nat ->
  elements_go f1 depth s = elements_go f2 depth s.
Proof.
  intros IH [|f1] [|f2] depth H1 H2; try lia. cbn [elements_go].
  rewrite (value_fuel s IH f1 f2) by lia.
  destruct (value_go f2 depth s) as [[v r]|] eqn:E; [|done].
  apply go_length in E. pose proof (skip_length r).
  destruct (skip r) as [|c t] eqn:Er; [done|]. simpl in *. pose proof (skip_length t).
  destruct (Ascii.eqb c "]"); [done|]. destruct (Ascii.eqb c ","); [|done].
  destruct (IH (skip t) ltac:(lia) f1 f2 depth) as (_ & He & _). by rewrite He by lia.
Qed.

Lemma members_fuel s :
  (forall t, (String.length t < String.length s)%nat -> fuel_indifferent t) ->
  forall f1 f2 depth, (2 * String.length s + 3 <= f1)%nat -> (2 * String.length s + 3 <= f2)%nat ->
  members_go f1 depth s = members_go f2 depth s.
Proof.
  intros IH [|f1] [|f2] depth H1 H2; try lia. cbn [members_go].
  destruct s as [|q t]; [done|]. destruct (negb _); [done|].
  destruct (str_go 0 t) as [[key r]|] eqn:Ek; [|done].
  apply str_go_length in Ek. pose proof (skip_length r).
  destruct (skip r) as [|c t1] eqn:Er; [done|]. simpl in *. pose proof (skip_length t1).
  destruct (negb (Ascii.eqb c ":")); [done|].
  destruct (IH (skip t1) ltac:(lia) f1 f2 depth) as (Hv & _ & _). rewrite Hv by lia.
  destruct (value_go f2 depth (skip t1)) as [[v r1]|] eqn:E; [|done].
  apply go_length in E. pose proof (skip_length r1).
  destruct (skip r1) as [|c' t2] eqn:Er1; [done|]. simpl in *. pose proof (skip_length t2).
  destruct (Ascii.eqb c' "}"); [done|]. destruct (Ascii.eqb c' ","); [|done].
  destruct (IH (skip t2) ltac:(lia) f1 f2 depth) as (_ & _ & Hm). by rewrite Hm by lia.
Qed.

Lemma go_fuel s : fuel_indifferent s.
Proof.
  induction s as [s IH] using (induction_ltof1 _ String.length). unfold ltof in IH.
  intros f1 f2 depth. split_and!; intros.
  - by apply value_fuel.
  - by apply elements_fuel.
  - by apply members_fuel.
Qed.

(** ** Decoders

    A decoder stores a value, with its text, into a variable and says whether
    a value of the wrong type was met on the way. *)

Definition Decoder (T : Type) : Type := string * value -> T -> T * bool.

Definition RawMessage : Type := string.

Definition Unmarshal {T} (d : Decoder T) (data : string) (x : T) : T * bool :=
  match parse data with Some rv => d rv x | None => (x, true) end.

(** [json.NewDecoder(r).Decode]: the first value of a stream, whatever
    follows it. *)
Definition Decode {T} (d : Decoder T) (data : string) (x : T) : T * bool :=
  let s := skip data in
  match value_go (2 * String.length s + 2) maxNestingDepth s with
  | Some (v, r) => d (consumed s r, v) x
  | None => (x, true)
  end.

Definition dString : Decoder string := fun rv x =>
  match rv.2 with Str s => (s, false) | Null => (x, false) | _ => (x, true) end.

Definition dBool : Decoder bool := fun rv x =>
  match rv.2 with Bool b => (b, false) | Null => (x, false) | _ => (x, true) end.

(** [strconv.ParseInt(lit, 10, 64)]: no fraction, no exponent, in range. *)
Definition dInt : Decoder Z := fun rv x =>
  match rv.2 with
  | Number lit => match strconv.Atoi lit with Some n => (n, false) | None => (x, true) end
  | Null => (x, false)
  | _ => (x, true)
  end.

Definition dRaw : Decoder RawMessage := fun rv _ => (rv.1, false).

(** [*T]: a value of the wrong type still allocates. *)
Definition dPtr {T} (zero : T) (d : Decoder T) : Decoder (option T) := fun rv x =>
  match rv.2 with
  | Null => (None, false)
  | _ => let '(y, e) := d rv (default zero x) in (Some y, e)
  end.

Definition dSlice {T} (zero : T) (d : Decoder T) : Decoder (list T) := fun rv x =>
  match rv.2 with
  | Null => ([], false)
  | Array es => (map (fun e => (d e zero).1) es, existsb (fun e => (d e zero).2) es)
  | _ => (x, true)
  end.

Definition dMap {T} (zero : T) (d : Decoder T) : Decoder (gmap string T) := fun rv x =>
  match rv.2 with
  | Null => (∅, false)
  | Object ms =>
    (foldl (fun m km => <[km.1 := (d km.2 zero).1]> m) x ms,
     existsb (fun km => (d km.2 zero).2) ms)
  | _ => (x, true)
  end.

(** [foldName], as far as names in ASCII can match: letters fold to upper
    case, and so do the Kelvin sign and the long s. *)
Definition foldRune (r : Z) : Z :=
  if utf8.between 97 122 r then r - 32
  else if r =? 8490 then 75 else if r =? 383 then 83 else r.
Definition foldName (s : string) : list Z := map foldRune (utf8.runes s).

(** A field of a struct: its name and how it is stored. *)
Definition Field (S : Type) : Type := string * Decoder S.

Definition field {S T} (name : string) (get : S -> T) (set : T -> S -> S) (d : Decoder T) : Field S :=
  (name, fun rv s => let '(y, e) := d rv (get s) in (set y s, e)).

(** [byExactName], then [byFoldedName]. *)
Definition findField {S} (fields : list (Field S)) (key : string) : option (Decoder S) :=
  match List.find (fun f => String.eqb f.1 key) fields with
  | Some f => Some f.2
  | None =>
    match List.find (fun f => bool_decide (foldName f.1 = foldName key)) fields with
    | Some f => Some f.2
    | None => None
    end
  end.

Fixpoint storeMembers {S} (fields : list (Field S)) (ms : list (string * (string * value)))
    (x : S) : S * bool :=
  match ms with
  | [] => (x, false)
  | (key, rv) :: ms =>
    let '(x, e) :=
      match findField fields key with Some d => d rv x | None => (x, false) end in
    let '(x, e') := storeMembers fields ms x in (x, e || e')
  end.

Definition dStruct {S} (fields : list (Field S)) : Decoder S := fun rv x =>
  match rv.2 with
  | Null => (x, false)
  | Object ms => storeMembers fields ms x
  | _ => (x, true)
  end.

(** *** interface{}

    The value itself; a number that does not fit a float64 is an error. *)

(** The digits of a literal without its point, and the exponent that goes
    with them. *)
Definition decimal (lit : string) : Z * Z :=
  let unsigned := Strings.TrimPrefix lit "-" in
  let '(ip, r) := spanDigits unsigned in
  let '(fp, r) := match r with
    | String.String c t => if Ascii.eqb c "." then spanDigits t else (EmptyString, r)
    | EmptyString => (EmptyString, r)
    end in
  let e := match r with
    | String.String _ t => default 0 (strconv.digits 0 (Strings.TrimPrefix (Strings.TrimPrefix t "+") "-"))
                           * (if Strings.HasPrefix t "-" then -1 else 1)
    | EmptyString => 0
    end in
  (default 0 (strconv.digits 0 (ip +:+ fp)), e - Z.of_nat (String.length fp)).

(** [strconv.ParseFloat] reports a range error from halfway beyond the
    largest float64 on. *)
Definition floatOverflows (lit : string) : bool :=
  let '(m, e) := decimal lit in
  if m =? 0 then false
  else if e <? 0 then ((2 ^ 1024 - 2 ^ 970) * 10 ^ (- e) <=? m)
  else ((2 ^ 1024 - 2 ^ 970) <=? m * 10 ^ e).

Fixpoint anyErr (v : value) : bool :=
  match v with
  | Number lit => floatOverflows lit
  | Array es => existsb (fun e => anyErr e.2) es
  | Object ms => existsb (fun m => anyErr m.2.2) ms
  | _ => false
  end.

Definition dAny : Decoder value := fun rv _ => (rv.2, anyErr rv.2).

(** [v.(string)] and [m["key"]] of a [map[string]any]: the last entry wins. *)
Definition asString (v : value) : option string :=
  match v with Str s => Some s | _ => None end.
Definition asMap (v : value) : option (list (string * (string * value))) :=
  match v with Object ms => Some ms | _ => None end.
Fixpoint mapGet (ms : list (string * (string * value))) (key : string) : option value :=
  match ms with
  | [] => None
  | (k, rv) :: ms =>
    match mapGet ms key with
    | Some v => Some v
    | None => if decide (k = key) then Some rv.2 else None
    end
  end.
End json.

(** A field by its projection, for records with an [Eta] instance. *)
Definition fld {R T} (name : string) (f : R -> T) `{!FieldSet f} (d : json.Decoder T)
    : json.Field R :=
  json.field name f (field_set f) d.
