(* ===== verification/GoMarshal.v ===== *)
(** * Go standard library: encoding/json, Marshal

    The text [json.Marshal] writes for a value.  [any] is what the code hands
    to it: a struct is an object with its fields in their order, a map one
    whose keys are sorted, a [RawMessage] its text, compacted.  What is written
    is read back: [parse_text].  Strings come back with every invalid byte
    replaced ([ToValid]). *)

From S2P Require Import Prelude GoStd GoText GoJson.
From stdpp Require Import pretty.
From stdpp Require Import pretty sorting.
Open Scope Z_scope.

Module marshal.
Import json.

(** ** Strings *)

Definition hexLower (n : Z) : ascii :=
  utf8.chr (if n <? 10 then 48 + n else 87 + n).

(** A backslash, [u00] and two digits. *)
Definition unicodeEscape (b : Z) : string :=
  String.String backslash ("u00" +:+ String.String (hexLower (b / 16))
    (String.String (hexLower (b mod 16)) EmptyString)).

Definition escapeOf (letter : ascii) : string :=
  String.String backslash (String.String letter EmptyString).

(** [htmlSafeSet] and the escapes of [appendString], for a byte below 128. *)
Definition quoteByte (c : ascii) : string :=
  let b := utf8.byte c in
  if (b =? 34) || (b =? 92) then escapeOf c
  else if b =? 8 then escapeOf "b"
  else if b =? 12 then escapeOf "f"
  else if b =? 10 then escapeOf "n"
  else if b =? 13 then escapeOf "r"
  else if b =? 9 then escapeOf "t"
  else if (b <? 32) || (b =? 60) || (b =? 62) || (b =? 38) then unicodeEscape b
  else String.String c EmptyString.

(** The line separators U+2028 and U+2029. *)
Definition isSeparator (r : Z) : bool := (r =? 8232) || (r =? 8233).
Definition separatorEscape (r : Z) : string :=
  String.String backslash ("u202" +:+ String.String (hexLower (r mod 16)) EmptyString).
Definition invalidEscape : string := String.String backslash "ufffd".

(** The next [k] bytes belong to a rune that is already dealt with; they are
    kept or dropped. *)
Fixpoint quote_go (keep : bool) (k : nat) (s : string) : string :=
  match s with
  | EmptyString => EmptyString
  | String.String c s' =>
    match k with
    | S k => if keep then String.String c (quote_go keep k s') else quote_go keep k s'
    | O =>
      if utf8.byte c <? 128 then quoteByte c +:+ quote_go true 0 s'
      else
        let '(r, w) := utf8.decode c s' in
        if (r =? utf8.RuneError) && Nat.eqb w 0 then invalidEscape +:+ quote_go true 0 s'
        else if isSeparator r then separatorEscape r +:+ quote_go false w s'
        else String.String c (quote_go true w s')
    end
  end.

Definition quoteStr : string := String.String quoteChar EmptyString.
Definition quote (s : string) : string := quoteStr +:+ quote_go true 0 s +:+ quoteStr.

(** [strings.ToValidUTF8] with U+FFFD: what a string is after the round trip. *)
Definition ToValid (s : string) : string := utf8.of_runes (utf8.runes s).

(** ** Compaction *)

Definition isHTML (c : ascii) : bool :=
  let b := utf8.byte c in (b =? 60) || (b =? 62) || (b =? 38).

(** [appendCompact] with HTML escaping; [str] is set inside a string, [esc]
    after a backslash there. *)
Fixpoint compact_go (str esc : bool) (s : string) : string :=
  match s with
  | EmptyString => EmptyString
  | String.String c t =>
    let keep :=
      if str then
        String.String c
          (if esc then compact_go true false t
           else if Ascii.eqb c backslash then compact_go true true t
           else compact_go (negb (Ascii.eqb c quoteChar)) false t)
      else if isSpace c then compact_go false false t
      else String.String c (compact_go (Ascii.eqb c quoteChar) false t) in
    if isHTML c then unicodeEscape (utf8.byte c) +:+ compact_go str false t
    else
      match t with
      | String.String c1 (String.String c2 u) =>
        if (utf8.byte c =? 226) && (utf8.byte c1 =? 128)
           && ((utf8.byte c2 =? 168) || (utf8.byte c2 =? 169))
        then separatorEscape (utf8.byte c2) +:+ compact_go str false u
        else keep
      | _ => keep
      end
  end.
Definition compact (s : string) : string := compact_go false false s.

(** ** Values *)

Inductive any :=
| ANull
| ABool (b : bool)
| AInt (n : Z)
| AStr (s : string)
| AArr (l : list any)
| AObj (ms : list (string * any))
| ARaw (text : string).

Fixpoint textElems (ts : list string) : string :=
  match ts with
  | [] => EmptyString
  | [t] => t
  | t :: ts => t +:+ "," +:+ textElems ts
  end.

Fixpoint text (a : any) : string :=
  match a with
  | ANull => "null"
  | ABool b => if b then "true" else "false"
  | AInt n => strconv.Itoa n
  | AStr s => quote s
  | AArr l => "[" +:+ textElems (map text l) +:+ "]"
  | AObj ms => "{" +:+ textElems (map (fun m => quote m.1 +:+ ":" +:+ text m.2) ms) +:+ "}"
  | ARaw s => if decide (s = EmptyString) then "null" else compact s
  end.

(** [Marshal] fails on a [RawMessage] that is not JSON; a nil one is null. *)
Fixpoint rawOk (a : any) : bool :=
  match a with
  | AArr l => forallb rawOk l
  | AObj ms => forallb (fun m => rawOk m.2) ms
  | ARaw s => bool_decide (s = EmptyString) || bool_decide (is_Some (parse s))
  | _ => true
  end.
Definition Marshal (a : any) : option string := if rawOk a then Some (text a) else None.

(** A map: its keys in order. *)
Definition keyLe (m1 m2 : string * any) : Prop := String.leb m1.1 m2.1 = true.
#[export] Instance keyLe_dec m1 m2 : Decision (keyLe m1 m2).
Proof. unfold keyLe. apply _. Defined.
Definition mapAny (ms : list (string * any)) : any := AObj (merge_sort keyLe ms).

(** Struct fields marked [omitempty]. *)
Definition omitStr (name s : string) : list (string * any) :=
  if decide (s = EmptyString) then [] else [(name, AStr s)].
Definition omitRaw (name : string) (raw : RawMessage) : list (string * any) :=
  if decide (raw = EmptyString) then [] else [(name, ARaw raw)].

Definition omitInt (name : string) (n : Z) : list (string * any) :=
  if decide (n = 0) then [] else [(name, AInt n)].
Definition omitBool (name : string) (b : bool) : list (string * any) :=
  if b then [(name, ABool b)] else [].
Definition strs (l : list string) : any := AArr (map AStr l).
Definition omitStrs (name : string) (l : list string) : list (string * any) :=
  match l with [] => [] | _ => [(name, strs l)] end.

(** What the text is read as. *)
Fixpoint valueOf (a : any) : value :=
  match a with
  | ANull => Null
  | ABool b => Bool b
  | AInt n => Number (strconv.Itoa n)
  | AStr s => Str (ToValid s)
  | AArr l => Array (map (fun a => (text a, valueOf a)) l)
  | AObj ms => Object (map (fun m => (ToValid m.1, (text m.2, valueOf m.2))) ms)
  | ARaw s => match parse s with Some (_, v) => v | None => Null end
  end.
End marshal.

(** * encoding/json: what Marshal writes is read back

    [str_go_quote] for strings, [compact_text] (compaction leaves a marshalled
    text alone), [go_extends] (the parser does not look past a value) and
    [parse_text] for whole values. *)

Open Scope Z_scope.

Import json marshal.

(** ** Strings *)

Lemma emit_emit p q r : emit p (emit q r) = emit (p +:+ q) r.
Proof. destruct r as [[s rest]|]; cbn; [|done]. by rewrite str_app_assoc. Qed.

Lemma quoteByte_read c X : utf8.byte c < 128 ->
  str_go 0 (quoteByte c +:+ X) = emit (String.String c EmptyString) (str_go 0 X).
Proof.
  destruct c as [[] [] [] [] [] [] [] []]; intros H; try (exfalso; clear -H; vm_compute in H; discriminate H);
    reflexivity.
Qed.

Lemma chr_byte c z : utf8.byte c = z -> utf8.chr z = c.
Proof. intros <-. unfold utf8.chr, utf8.byte. by rewrite N2Z.id, ascii_N_embedding. Qed.

(** Continuation bytes only. *)
Fixpoint continued (t : string) : Prop :=
  match t with EmptyString => True | String.String c t => 128 <= utf8.byte c <= 191 /\ continued t end.

(** The bytes of a valid rune beyond ASCII: they decode to it whatever
    follows, and are what it is written as. *)
Record wide (c : ascii) (t : string) (r : Z) : Prop := {
  wide_decode : forall x, utf8.decode c (t +:+ x) = (r, String.length t);
  wide_encode : utf8.encode r = String.String c t;
  wide_high : 128 <= utf8.byte c;
  wide_cont : continued t;
}.

Ltac known_bools :=
  repeat match goal with
  | H : ?b = true |- context [?b] => rewrite H
  | H : ?b = false |- context [?b] => rewrite H
  end.
Ltac open_bytes :=
  repeat match goal with
  | H : _ && _ = true |- _ => apply andb_true_iff in H as [? ?]
  end;
  unfold utf8.cont, utf8.between, utf8.valid_rune in *;
  repeat match goal with
  | H : context [if ?x =? ?y then _ else _] |- _ => destruct (Z.eqb_spec x y)
  end.

(** The encoding of a number that decodes is the bytes it came from. *)
Lemma encode_bytes2 b0 b1 : 194 <= b0 <= 223 -> 128 <= b1 <= 191 ->
  utf8.encode ((b0 - 192) * 64 + (b1 - 128))
    = String.String (utf8.chr b0) (String.String (utf8.chr b1) EmptyString).
Proof.
  intros H0 H1. set (r := (b0 - 192) * 64 + (b1 - 128)). unfold utf8.encode, utf8.valid_rune, utf8.between.
  replace ((0 <=? r) && (r <=? 55295)) with true by lia. cbn [orb].
  rewrite (proj2 (Z.ltb_ge r 128)), (proj2 (Z.ltb_lt r 2048)) by lia.
  repeat f_equal; Z.to_euclidean_division_equations; lia.
Qed.
Lemma encode_bytes3 b0 b1 b2 : 224 <= b0 <= 239 -> 128 <= b1 <= 191 -> 128 <= b2 <= 191 ->
  (b0 = 224 -> 160 <= b1) -> (b0 = 237 -> b1 <= 159) ->
  utf8.encode ((b0 - 224) * 4096 + (b1 - 128) * 64 + (b2 - 128))
    = String.String (utf8.chr b0) (String.String (utf8.chr b1) (String.String (utf8.chr b2) EmptyString)).
Proof.
  intros H0 H1 H2 Ha Hb. set (r := (b0 - 224) * 4096 + (b1 - 128) * 64 + (b2 - 128)).
  unfold utf8.encode, utf8.valid_rune, utf8.between.
  replace ((0 <=? r) && (r <=? 55295) || (57344 <=? r) && (r <=? 1114111)) with true by lia.
  rewrite (proj2 (Z.ltb_ge r 128)), (proj2 (Z.ltb_ge r 2048)), (proj2 (Z.ltb_lt r 65536)) by lia.
  repeat f_equal; Z.to_euclidean_division_equations; lia.
Qed.
Lemma encode_bytes4 b0 b1 b2 b3 : 240 <= b0 <= 244 -> 128 <= b1 <= 191 -> 128 <= b2 <= 191 ->
  128 <= b3 <= 191 -> (b0 = 240 -> 144 <= b1) -> (b0 = 244 -> b1 <= 143) ->
  utf8.encode ((b0 - 240) * 262144 + (b1 - 128) * 4096 + (b2 - 128) * 64 + (b3 - 128))
    = String.String (utf8.chr b0) (String.String (utf8.chr b1)
        (String.String (utf8.chr b2) (String.String (utf8.chr b3) EmptyString))).
Proof.
  intros H0 H1 H2 H3 Ha Hb. set (r := (b0 - 240) * 262144 + (b1 - 128) * 4096 + (b2 - 128) * 64 + (b3 - 128)).
  unfold utf8.encode, utf8.valid_rune, utf8.between.
  replace ((0 <=? r) && (r <=? 55295) || (57344 <=? r) && (r <=? 1114111)) with true by lia.
  rewrite (proj2 (Z.ltb_ge r 128)), (proj2 (Z.ltb_ge r 2048)), (proj2 (Z.ltb_ge r 65536)) by lia.
  repeat f_equal; Z.to_euclidean_division_equations; lia.
Qed.

Lemma chr_of_byte c : utf8.chr (utf8.byte c) = c.
Proof. by apply chr_byte. Qed.

Lemma decode_wide c s r w :
  utf8.decode c s = (r, w) -> 128 <= utf8.byte c -> (r =? utf8.RuneError) && Nat.eqb w 0 = false ->
  exists t u, s = t +:+ u /\ String.length t = w /\ wide c t r.
Proof.
  intros Hd Hc Hne. unfold utf8.decode in Hd.
  destruct (Z.ltb_spec (utf8.byte c) 128); [lia|].
  assert (forall b, (utf8.RuneError, 0%nat) = (r, w) -> b) as Hbad
    by (intros b [= <- <-]; discriminate Hne).
  assert (utf8.byte c <? 128 = false) as Hlow by lia.
  destruct (utf8.between 194 223 (utf8.byte c)) eqn:E2;
    [|destruct (utf8.between 224 239 (utf8.byte c)) eqn:E3;
      [|destruct (utf8.between 240 244 (utf8.byte c)) eqn:E4; [|exact (Hbad _ Hd)]]].
  - destruct s as [|c1 u]; [exact (Hbad _ Hd)|]. destruct (utf8.cont c1) eqn:E; [|exact (Hbad _ Hd)].
    injection Hd as <- <-. exists (String.String c1 EmptyString), u. split_and!; [done..|].
    split; [intros x; rewrite str_app_cons, str_app_nil_l; unfold utf8.decode; by known_bools| |done|].
    + open_bytes; (rewrite encode_bytes2 by lia; by rewrite !chr_of_byte).
    + open_bytes; cbn; lia.
  - destruct s as [|c1 [|c2 u]]; [exact (Hbad _ Hd)..|].
    destruct (utf8.between (if utf8.byte c =? 224 then 160 else 128) (if utf8.byte c =? 237 then 159 else 191)
                (utf8.byte c1) && utf8.cont c2) eqn:E; [|exact (Hbad _ Hd)].
    injection Hd as <- <-. exists (String.String c1 (String.String c2 EmptyString)), u. split_and!; [done..|].
    split; [intros x; rewrite !str_app_cons, str_app_nil_l; unfold utf8.decode; by known_bools| |done|].
    + open_bytes; (rewrite encode_bytes3 by lia; by rewrite !chr_of_byte).
    + open_bytes; cbn; lia.
  - destruct s as [|c1 [|c2 [|c3 u]]]; [exact (Hbad _ Hd)..|].
    destruct (utf8.between (if utf8.byte c =? 240 then 144 else 128) (if utf8.byte c =? 244 then 143 else 191)
                (utf8.byte c1) && utf8.cont c2 && utf8.cont c3) eqn:E; [|exact (Hbad _ Hd)].
    injection Hd as <- <-. exists (String.String c1 (String.String c2 (String.String c3 EmptyString))), u.
    split_and!; [done..|].
    split; [intros x; rewrite !str_app_cons, str_app_nil_l; unfold utf8.decode; by known_bools| |done|].
    + open_bytes; (rewrite encode_bytes4 by lia; by rewrite !chr_of_byte).
    + open_bytes; cbn; lia.
Qed.

Lemma quote_go_here keep s : quote_go keep 0 s = quote_go true 0 s.
Proof. by destruct s. Qed.

Lemma quote_go_skip keep t u :
  quote_go keep (String.length t) (t +:+ u) = (if keep then t else EmptyString) +:+ quote_go true 0 u.
Proof.
  induction t as [|c t IH].
  - rewrite str_app_nil_l. cbn [String.length]. rewrite quote_go_here. by destruct keep.
  - rewrite str_app_cons. cbn [String.length quote_go]. rewrite IH. by destruct keep.
Qed.

Lemma str_go_copy t x : str_go (String.length t) (t +:+ x) = emit t (str_go 0 x).
Proof.
  induction t as [|c t IH].
  - rewrite str_app_nil_l. cbn [String.length]. destruct (str_go 0 x) as [[? ?]|]; [|done]. cbn. by rewrite str_app_nil_l.
  - rewrite str_app_cons. cbn [String.length str_go]. rewrite IH, emit_emit. by rewrite str_app_cons, str_app_nil_l.
Qed.

(** A rune beyond ASCII inside a string is copied. *)
Lemma str_go_wide c t r x : wide c t r -> (r =? utf8.RuneError) && Nat.eqb (String.length t) 0 = false ->
  str_go 0 (String.String c t +:+ x) = emit (String.String c t) (str_go 0 x).
Proof.
  intros Hw Hne. rewrite str_app_cons. cbn [str_go]. pose proof (wide_high _ _ _ Hw).
  destruct (Ascii.eqb_spec c quoteChar) as [->|_]; [by vm_compute in H|].
  destruct (Ascii.eqb_spec c backslash) as [->|_]; [by vm_compute in H|].
  destruct (Z.ltb_spec (utf8.byte c) 32); [lia|].
  rewrite (wide_decode _ _ _ Hw), Hne, str_go_copy, emit_emit. by rewrite str_app_cons, str_app_nil_l.
Qed.

Lemma separator_read r X : isSeparator r = true ->
  str_go 0 (separatorEscape r +:+ X) = emit (utf8.encode r) (str_go 0 X).
Proof.
  intros [->%Z.eqb_eq| ->%Z.eqb_eq]%orb_true_iff; reflexivity.
Qed.

Lemma invalid_read X : str_go 0 (invalidEscape +:+ X) = emit (utf8.encode utf8.RuneError) (str_go 0 X).
Proof. reflexivity. Qed.

Lemma ToValid_cons c s r w : utf8.decode c s = (r, w) ->
  ToValid (String.String c s) = utf8.encode r +:+ utf8.of_runes (utf8.runes_go w s).
Proof. intros H. unfold ToValid, utf8.runes. cbn [utf8.runes_go]. by rewrite H. Qed.

(** A quoted string is read back, with its invalid bytes replaced. *)
Lemma str_go_quote s rest :
  str_go 0 (quote_go true 0 s +:+ String.String quoteChar rest) = Some (ToValid s, rest).
Proof.
  induction s as [s IH] using (induction_ltof1 _ String.length). unfold ltof in IH.
  destruct s as [|c s]; [done|]. cbn [quote_go].
  destruct (Z.ltb_spec (utf8.byte c) 128) as [Hc|Hc].
  - rewrite str_app_assoc, quoteByte_read, IH by (done || simpl; lia). cbn [emit].
    rewrite (ToValid_cons c s (utf8.byte c) 0) by (unfold utf8.decode; by rewrite (proj2 (Z.ltb_lt _ _) Hc)).
    pose proof (utf8.byte_range c). unfold utf8.encode, utf8.valid_rune, utf8.between.
    replace ((0 <=? utf8.byte c) && (utf8.byte c <=? 55295)) with true by lia. cbn [orb].
    rewrite (proj2 (Z.ltb_lt _ _) Hc). by rewrite chr_of_byte.
  - destruct (utf8.decode c s) as [r w] eqn:Hd. rewrite (ToValid_cons _ _ _ _ Hd).
    destruct ((r =? utf8.RuneError) && Nat.eqb w 0) eqn:Hne.
    + rewrite str_app_assoc, invalid_read, IH by (simpl; lia).
      apply andb_true_iff in Hne as [->%Z.eqb_eq ->%Nat.eqb_eq]. done.
    + destruct (decode_wide _ _ _ _ Hd Hc Hne) as (t & u & -> & <- & Hw).
      rewrite utf8.runes_go_skip, !quote_go_skip. cbn [String.length] in IH.
      assert (str_go 0 (quote_go true 0 u +:+ String.String quoteChar rest) = Some (ToValid u, rest)) as Hu.
      { apply IH. rewrite str_length_app. lia. }
      destruct (isSeparator r) eqn:Hs.
      * by rewrite str_app_nil_l, str_app_assoc, separator_read, Hu.
      * rewrite <- str_app_cons, str_app_assoc, (str_go_wide c t r), Hu by done. cbn [emit].
        by rewrite (wide_encode _ _ _ Hw).
Qed.

(** ** Compaction leaves a marshalled text alone *)

(** Neither escaped nor the start of a separator. *)
Definition inert (c : ascii) : Prop := isHTML c = false /\ utf8.byte c <> 226.

Lemma compact_inert str esc c t : inert c ->
  compact_go str esc (String.String c t) =
    if str then
      String.String c
        (if esc then compact_go true false t
         else if Ascii.eqb c backslash then compact_go true true t
         else compact_go (negb (Ascii.eqb c quoteChar)) false t)
    else if isSpace c then compact_go false false t
    else String.String c (compact_go (Ascii.eqb c quoteChar) false t).
Proof.
  intros [H1 H2]. cbn [compact_go]. rewrite H1. destruct t as [|c1 [|c2 u]]; [done..|].
  by rewrite (proj2 (Z.eqb_neq _ _) H2).
Qed.

Lemma inert_low c : utf8.byte c < 128 -> isHTML c = false -> inert c.
Proof. intros H1 H2. split; [done|lia]. Qed.

(** A byte inside a string that means only itself. *)
Definition innocent (c : ascii) : Prop :=
  inert c /\ Ascii.eqb c backslash = false /\ Ascii.eqb c quoteChar = false.

Lemma compact_innocent c X : innocent c ->
  compact_go true false (String.String c X) = String.String c (compact_go true false X).
Proof. intros (Hi & Hb & Hq). by rewrite compact_inert, Hb, Hq. Qed.

Lemma compact_escaped e X : inert e ->
  compact_go true false (escapeOf e +:+ X) = escapeOf e +:+ compact_go true false X.
Proof.
  intros He. unfold escapeOf. rewrite !str_app_cons, !str_app_nil_l.
  rewrite (compact_inert _ _ backslash) by done. rewrite Ascii.eqb_refl. by rewrite compact_inert.
Qed.

Fixpoint allInnocent (s : string) : Prop :=
  match s with EmptyString => True | String.String c s => innocent c /\ allInnocent s end.

Lemma compact_all s X : allInnocent s ->
  compact_go true false (s +:+ X) = s +:+ compact_go true false X.
Proof.
  induction s as [|c s IH]; [done|]. intros [Hc Hs]. rewrite !str_app_cons.
  by rewrite compact_innocent, IH.
Qed.

Lemma innocent_byte c : utf8.byte c <> 92 -> utf8.byte c <> 34 -> inert c -> innocent c.
Proof. intros H1 H2 Hi. split_and!; [done|..]; apply Ascii.eqb_neq; intros ->; done. Qed.

Lemma innocent_hex n : 0 <= n < 16 -> innocent (hexLower n).
Proof.
  intros H. assert (utf8.byte (hexLower n) = if n <? 10 then 48 + n else 87 + n) as E.
  { unfold hexLower. rewrite utf8.byte_chr; [done|]. destruct (n <? 10); lia. }
  apply innocent_byte; [..|split]; unfold isHTML; rewrite E; destruct (Z.ltb_spec n 10); lia.
Qed.

Lemma compact_unicode b X : 0 <= b < 256 ->
  compact_go true false (unicodeEscape b +:+ X) = unicodeEscape b +:+ compact_go true false X.
Proof.
  intros Hb. unfold unicodeEscape. rewrite str_app_cons, (compact_inert _ _ backslash) by done.
  rewrite Ascii.eqb_refl. rewrite !str_app_cons. f_equal. rewrite compact_inert by done. f_equal.
  rewrite !str_app_nil_l, !str_app_cons, !str_app_nil_l.
  rewrite !compact_innocent; [done|..]; try (by repeat split); apply innocent_hex;
    Z.to_euclidean_division_equations; lia.
Qed.

Lemma compact_quoteByte c X : utf8.byte c < 128 ->
  compact_go true false (quoteByte c +:+ X) = quoteByte c +:+ compact_go true false X.
Proof.
  intros Hc. pose proof (utf8.byte_range c) as Hr. unfold quoteByte.
  repeat case_match; try (apply compact_escaped; done); try (apply compact_unicode; lia).
  - apply compact_escaped, inert_low; [done|]. unfold isHTML. lia.
  - rewrite !str_app_cons, !str_app_nil_l. apply compact_innocent. split_and!.
    + apply inert_low; [done|]. unfold isHTML. lia.
    + apply Ascii.eqb_neq. intros ->. vm_compute in *. lia.
    + apply Ascii.eqb_neq. intros ->. vm_compute in *. lia.
Qed.

Lemma high_innocent c : 128 <= utf8.byte c -> utf8.byte c <> 226 -> innocent c.
Proof.
  intros H1 H2. split_and!; [split; [unfold isHTML; lia|done]|..];
    apply Ascii.eqb_neq; intros ->; by vm_compute in H1.
Qed.

Lemma compact_continued t X : continued t ->
  compact_go true false (t +:+ X) = t +:+ compact_go true false X.
Proof.
  induction t as [|c t IH]; [done|]. intros [Hc Ht]. rewrite !str_app_cons.
  rewrite compact_innocent by (apply high_innocent; lia). by rewrite IH.
Qed.

Lemma compact_wide c t r X : wide c t r -> isSeparator r = false ->
  compact_go true false (String.String c t +:+ X) = String.String c t +:+ compact_go true false X.
Proof.
  intros Hw Hs. rewrite !str_app_cons.
  assert (compact_go true false (String.String c (t +:+ X)) = String.String c (compact_go true false (t +:+ X))) as ->.
  2: { by rewrite compact_continued by apply Hw. }
  pose proof (wide_high _ _ _ Hw) as Hc. destruct (decide (utf8.byte c = 226)) as [E|E];
    [|by apply compact_innocent, high_innocent].
  pose proof (wide_decode _ _ _ Hw X) as Hd. cbn [compact_go].
  assert (isHTML c = false) as -> by (unfold isHTML; lia).
  rewrite E. change (226 =? 226) with true. cbn [andb].
  assert (Ascii.eqb c backslash = false /\ Ascii.eqb c quoteChar = false) as [-> ->].
  { split; apply Ascii.eqb_neq; intros ->; by vm_compute in E. }
  cbn [negb]. destruct (t +:+ X) as [|c1 [|c2 u]]; [done..|].
  destruct ((utf8.byte c1 =? 128) && _) eqn:Ht; [|done]. exfalso.
  unfold utf8.decode in Hd. rewrite E in Hd. cbn in Hd. unfold utf8.cont, utf8.between in Hd.
  replace ((128 <=? utf8.byte c1) && (utf8.byte c1 <=? 191)
           && ((128 <=? utf8.byte c2) && (utf8.byte c2 <=? 191))) with true in Hd by lia.
  injection Hd as Hr _. unfold isSeparator in Hs. lia.
Qed.

Lemma compact_separator r X : isSeparator r = true ->
  compact_go true false (separatorEscape r +:+ X) = separatorEscape r +:+ compact_go true false X.
Proof.
  intros [->%Z.eqb_eq| ->%Z.eqb_eq]%orb_true_iff;
    (unfold separatorEscape; rewrite str_app_cons, (compact_inert _ _ backslash) by done;
     rewrite Ascii.eqb_refl, !str_app_cons; f_equal; rewrite compact_inert by done; f_equal;
     rewrite !str_app_nil_l, !str_app_cons, !str_app_nil_l;
     rewrite !compact_innocent; [done|..]; by repeat split).
Qed.

Lemma compact_quoted s X :
  compact_go true false (quote_go true 0 s +:+ X) = quote_go true 0 s +:+ compact_go true false X.
Proof.
  induction s as [s IH] using (induction_ltof1 _ String.length). unfold ltof in IH.
  destruct s as [|c s]; [done|]. cbn [quote_go].
  destruct (Z.ltb_spec (utf8.byte c) 128) as [Hc|Hc].
  - rewrite !str_app_assoc, compact_quoteByte by done. by rewrite IH by (simpl; lia).
  - destruct (utf8.decode c s) as [r w] eqn:Hd.
    destruct ((r =? utf8.RuneError) && Nat.eqb w 0) eqn:Hne.
    + rewrite !str_app_assoc. rewrite <- IH by (simpl; lia). generalize (quote_go true 0 s +:+ X). intros Y.
      unfold invalidEscape. rewrite str_app_cons, (compact_inert _ _ backslash) by done.
      rewrite Ascii.eqb_refl. rewrite !str_app_cons. f_equal. rewrite compact_inert by done. f_equal.
      rewrite !str_app_nil_l. rewrite !compact_innocent; [done|..]; by repeat split.
    + destruct (decode_wide _ _ _ _ Hd Hc Hne) as (t & u & -> & <- & Hw).
      rewrite !quote_go_skip. cbn [String.length] in IH.
      assert (compact_go true false (quote_go true 0 u +:+ X) = quote_go true 0 u +:+ compact_go true false X) as Hu.
      { apply IH. rewrite str_length_app. lia. }
      destruct (isSeparator r) eqn:Hs.
      * by rewrite str_app_nil_l, !str_app_assoc, compact_separator, Hu.
      * by rewrite <- str_app_cons, !str_app_assoc, (compact_wide c t r), Hu.
Qed.

Lemma compact_quote s X :
  compact_go false false (quote s +:+ X) = quote s +:+ compact_go false false X.
Proof.
  unfold quote. rewrite !str_app_assoc. unfold quoteStr. rewrite !str_app_cons, !str_app_nil_l.
  rewrite (compact_inert _ _ quoteChar) by done. change (isSpace quoteChar) with false. cbv iota.
  rewrite Ascii.eqb_refl, compact_quoted. f_equal. f_equal.
  by rewrite (compact_inert _ _ quoteChar), Ascii.eqb_refl by done.
Qed.

(** ** Numbers *)

Fixpoint allDigits (s : string) : Prop :=
  match s with EmptyString => True | String.String c s => isDigit c = true /\ allDigits s end.

Lemma pretty_char_digit (x : N) : (x < 10)%N ->
  utf8.byte (pretty_N_char x) = 48 + Z.of_N x.
Proof.
  intros H. do 10 (destruct x as [|x] using N.peano_ind; [done|clear IHx]). exfalso; lia.
Qed.

Lemma pretty_go_shape (x : N) s : (0 < x)%N ->
  exists c ds, pretty_N_go x s = String.String c (ds +:+ s) /\
    48 < utf8.byte c <= 57 /\ allDigits ds.
Proof.
  revert s. induction (N.lt_wf_0 x) as [x _ IH]; intros s Hx.
  rewrite pretty_N_go_step by lia.
  pose proof (pretty_char_digit (x mod 10) ltac:(apply N.mod_lt; lia)) as Hd.
  pose proof (N.mod_lt x 10 ltac:(lia)) as Hm. pose proof (N.div_mod x 10 ltac:(lia)).
  destruct (decide (x / 10 = 0)%N) as [E|E].
  - rewrite E, pretty_N_go_0. exists (pretty_N_char (x mod 10)), EmptyString.
    rewrite str_app_nil_l. split_and!; [done|lia..|done].
  - destruct (IH (x / 10)%N ltac:(apply N.div_lt; lia) (String.String (pretty_N_char (x mod 10)) s) ltac:(lia))
      as (c & ds & -> & Hc & Hds).
    exists c, (ds +:+ String.String (pretty_N_char (x mod 10)) EmptyString).
    rewrite str_app_assoc, str_app_cons, str_app_nil_l. split_and!; [done|lia..|].
    clear -Hds Hd Hm. generalize dependent (x mod 10)%N. intros m Hd Hm. induction ds as [|d ds IH].
    + rewrite str_app_nil_l. split; [|done]. unfold isDigit, utf8.between. rewrite Hd. lia.
    + rewrite str_app_cons. destruct Hds. split; [done|]. by apply IH.
Qed.

(** A decimal integer: a digit that is not 0 and digits, or 0; or that with a
    sign. *)
Lemma Itoa_shape z :
  strconv.Itoa z = "0" \/
  exists sign c ds, strconv.Itoa z = sign +:+ String.String c ds /\ (sign = EmptyString \/ sign = "-"%string) /\
    48 < utf8.byte c <= 57 /\ allDigits ds.
Proof.
  assert (forall q, exists c ds, pretty (N.pos q) = String.String c ds /\ 48 < utf8.byte c <= 57 /\ allDigits ds) as H.
  { intros q. unfold pretty, pretty_N. rewrite decide_False by done.
    destruct (pretty_go_shape (N.pos q) EmptyString ltac:(lia)) as (c & ds & -> & ? & ?).
    exists c, ds. by rewrite str_app_nil_r. }
  destruct z as [|q|q]; [by left|right..]; destruct (H q) as (c & ds & E & Hc & Hds).
  - exists EmptyString, c, ds. rewrite str_app_nil_l. split_and!; [done|by left|lia..|done].
  - exists "-"%string, c, ds. change (strconv.Itoa (Z.neg q)) with ("-" +:+ pretty (N.pos q)).
    rewrite E. split_and!; [done|by right|lia..|done].
Qed.

(** What may follow a value: nothing that a number could go on with. *)
Definition stops (rest : string) : Prop :=
  match rest with
  | EmptyString => True
  | String.String c _ => isDigit c = false /\ c <> "."%char /\ c <> "e"%char /\ c <> "E"%char
  end.

Lemma spanDigits_all ds rest : allDigits ds -> stops rest -> spanDigits (ds +:+ rest) = (ds, rest).
Proof.
  intros Hds Hr. induction ds as [|d ds IH].
  - rewrite str_app_nil_l. destruct rest as [|c rest]; [done|]. cbn. by rewrite (proj1 Hr).
  - destruct Hds as [Hd Hds]. rewrite str_app_cons. cbn [spanDigits]. by rewrite Hd, IH.
Qed.

Lemma lexFrac_stops acc rest : stops rest -> lexFrac acc rest = Some (acc, rest).
Proof.
  destruct rest as [|c rest]; [done|]. intros (_ & H1 & H2 & H3). unfold lexFrac, lexExp.
  by rewrite (proj2 (Ascii.eqb_neq _ _) H1), (proj2 (Ascii.eqb_neq _ _) H2), (proj2 (Ascii.eqb_neq _ _) H3).
Qed.

Lemma lexInt_digits sign c ds rest : 48 < utf8.byte c <= 57 -> allDigits ds -> stops rest ->
  lexInt sign (String.String c (ds +:+ rest)) = Some (sign +:+ String.String c ds, rest).
Proof.
  intros Hc Hds Hr. unfold lexInt.
  destruct (Ascii.eqb_spec c "0") as [->|_]; [by destruct Hc|].
  assert (isDigit c = true) as -> by (unfold isDigit, utf8.between; lia).
  rewrite spanDigits_all by done. by apply lexFrac_stops.
Qed.

Lemma lexNumber_Itoa z rest : stops rest ->
  lexNumber (strconv.Itoa z +:+ rest) = Some (strconv.Itoa z, rest).
Proof.
  intros Hr. destruct (Itoa_shape z) as [->|(sign & c & ds & -> & [->| ->] & Hc & Hds)].
  - unfold lexNumber. rewrite str_app_cons, str_app_nil_l. cbn. by apply lexFrac_stops.
  - rewrite str_app_nil_l, str_app_cons. unfold lexNumber.
    destruct (Ascii.eqb_spec c "-") as [->|_]; [by destruct Hc|].
    by rewrite lexInt_digits.
  - rewrite str_app_cons, str_app_nil_l, !str_app_cons. unfold lexNumber. rewrite Ascii.eqb_refl.
    by rewrite lexInt_digits.
Qed.

(** ** Values *)

(** A value whose compound values nest at most [n] deep, and whose raw
    messages are such texts themselves. *)
Inductive wf : nat -> any -> Prop :=
| wf_null n : wf n ANull
| wf_bool n b : wf n (ABool b)
| wf_int n z : wf n (AInt z)
| wf_str n s : wf n (AStr s)
| wf_arr n l : Forall (wf n) l -> wf (S n) (AArr l)
| wf_obj n ms : Forall (fun m => wf n m.2) ms -> wf (S n) (AObj ms)
| wf_nil n : wf n (ARaw EmptyString)
| wf_raw n a : wf n a -> wf n (ARaw (text a)).

Section wf_induction.
Context (P : nat -> any -> Prop).
Context (Hnull : forall n, P n ANull) (Hbool : forall n b, P n (ABool b)) (Hint : forall n z, P n (AInt z))
  (Hstr : forall n s, P n (AStr s))
  (Harr : forall n l, Forall (wf n) l -> Forall (P n) l -> P (S n) (AArr l))
  (Hobj : forall n ms, Forall (fun m => wf n m.2) ms -> Forall (fun m => P n m.2) ms -> P (S n) (AObj ms))
  (Hnil : forall n, P n (ARaw EmptyString))
  (Hraw : forall n a, wf n a -> P n a -> P n (ARaw (text a))).

Lemma wf_nested n a : wf n a -> P n a.
Proof.
  revert n a. fix IH 3. intros n a [| | | |n' l Hl|n' ms Hms| |n' a' Ha]; auto.
  - apply Harr; [exact Hl|]. induction Hl; constructor; auto.
  - apply Hobj; [exact Hms|]. induction Hms; constructor; auto.
Qed.
End wf_induction.

(** A text that compaction passes and leaves alone. *)
Definition closed (t : string) : Prop :=
  forall X, compact_go false false (t +:+ X) = t +:+ compact_go false false X.

Lemma closed_app t u : closed t -> closed u -> closed (t +:+ u).
Proof. intros Ht Hu X. by rewrite !str_app_assoc, Ht, Hu. Qed.

Definition outer (c : ascii) : Prop :=
  inert c /\ isSpace c = false /\ Ascii.eqb c quoteChar = false.

Lemma closed_cons c t : outer c -> closed t -> closed (String.String c t).
Proof.
  intros (Hi & Hs & Hq) Ht X. rewrite !str_app_cons, compact_inert by done. by rewrite Hs, Hq, Ht.
Qed.
Lemma closed_nil : closed EmptyString.
Proof. done. Qed.

Lemma closed_elems ts : Forall closed ts -> closed (textElems ts).
Proof.
  induction 1 as [|t [|t' ts] Ht Hts IH]; [done|done|].
  change (textElems (t :: t' :: ts)) with (t +:+ "," +:+ textElems (t' :: ts)).
  apply closed_app; [done|]. apply closed_app; [|done]. by apply closed_cons.
Qed.

Lemma outer_digit c : 48 <= utf8.byte c <= 57 -> outer c.
Proof.
  intros H. split_and!; [split; unfold isHTML; lia|unfold isSpace; lia|].
  apply Ascii.eqb_neq. intros ->. by destruct H.
Qed.

Lemma closed_digits ds : allDigits ds -> closed ds.
Proof.
  induction ds as [|d ds IH]; [done|]. intros [Hd Hds]. apply closed_cons; [|by apply IH].
  apply outer_digit. unfold isDigit, utf8.between in Hd. lia.
Qed.

Lemma closed_Itoa z : closed (strconv.Itoa z).
Proof.
  destruct (Itoa_shape z) as [->|(sign & c & ds & -> & Hsign & Hc & Hds)].
  - by apply closed_cons.
  - apply closed_app; [destruct Hsign as [->| ->]; [done|by apply closed_cons]|].
    apply closed_cons; [apply outer_digit; lia|by apply closed_digits].
Qed.

Lemma closed_compact t : closed t -> compact t = t.
Proof.
  intros H. pose proof (H EmptyString) as E. rewrite str_app_nil_r in E.
  unfold compact. rewrite E. cbn [compact_go]. apply str_app_nil_r.
Qed.

Lemma text_raw t : closed t -> t <> EmptyString -> text (ARaw t) = t.
Proof. intros H Hne. cbn [text]. rewrite decide_False by done. by apply closed_compact. Qed.

Lemma closed_text_ne n a : wf n a -> closed (text a) /\ text a <> EmptyString.
Proof.
  revert n a. apply (wf_nested (fun _ a => closed (text a) /\ text a <> EmptyString)).
  - split; [|done]. cbn [text]. by repeat (apply closed_cons; [done|]).
  - intros n b. cbn [text]. split; [|by destruct b]. destruct b; by repeat (apply closed_cons; [done|]).
  - intros n z. split; [apply closed_Itoa|].
    cbn [text]. destruct (Itoa_shape z) as [->|(sign & c & ds & -> & [->| ->] & _)]; done.
  - intros n s. split; [intros X; apply compact_quote|done].
  - intros n l _ H. split; [|done]. cbn [text].
    apply closed_app; [by apply closed_cons|]. apply closed_app; [|by apply closed_cons].
    apply closed_elems, Forall_map. eapply Forall_impl; [exact H|]. by intros ? [].
  - intros n ms _ H. split; [|done]. cbn [text].
    apply closed_app; [by apply closed_cons|]. apply closed_app; [|by apply closed_cons].
    apply closed_elems, Forall_map. eapply Forall_impl; [exact H|]. intros m [Hm _].
    apply closed_app; [intros X; apply compact_quote|]. apply closed_app; [by apply closed_cons|done].
  - split; [|done]. cbn [text]. rewrite decide_True by done. by repeat (apply closed_cons; [done|]).
  - intros n a _ [Hc Hne]. by rewrite text_raw.
Qed.

Lemma compact_text n a : wf n a -> compact (text a) = text a.
Proof. intros H. by apply closed_compact, (closed_text_ne n). Qed.
Lemma text_raw_text n a : wf n a -> text (ARaw (text a)) = text a.
Proof. intros [Hc Hne]%closed_text_ne. by apply text_raw. Qed.

(** ** Reading back *)

Lemma consumed_app t r : consumed (t +:+ r) r = t.
Proof.
  unfold consumed. rewrite str_length_app.
  replace (String.length t + String.length r - String.length r)%nat with (String.length t) by lia.
  induction t as [|c t IH]; [by destruct r|]. rewrite str_app_cons. cbn. by rewrite IH.
Qed.

(** The first byte of a value. *)
Definition starts (t : string) : Prop :=
  match t with
  | EmptyString => False
  | String.String c _ => isSpace c = false /\ c <> "]"%char /\ c <> "}"%char
  end.

Lemma skip_starts t : starts t -> skip t = t.
Proof. destruct t as [|c t]; [done|]. intros (H & _). cbn. by rewrite H. Qed.
Lemma starts_app t r : starts t -> starts (t +:+ r).
Proof. by destruct t. Qed.

(** [t] is read as [v], with [n] levels of nesting left. *)
Definition reads (n : nat) (t : string) (v : value) : Prop :=
  starts t /\
  forall fuel depth rest, (n <= depth)%nat -> stops rest ->
    (2 * String.length (t +:+ rest) + 2 <= fuel)%nat ->
    value_go fuel depth (t +:+ rest) = Some (v, rest).

Lemma reads_lit n lit v :
  starts lit ->
  (forall fuel depth rest, (2 * String.length (lit +:+ rest) + 2 <= fuel)%nat ->
     value_go fuel depth (lit +:+ rest) = Some (v, rest)) -> reads n lit v.
Proof. intros Hs H. split; [done|]. intros. by apply H. Qed.

Lemma value_go_quote fuel depth s rest : (0 < fuel)%nat ->
  value_go fuel depth (quote s +:+ rest) = Some (Str (ToValid s), rest).
Proof.
  intros Hf. destruct fuel as [|fuel]; [lia|]. unfold quote, quoteStr.
  rewrite !str_app_assoc, !str_app_cons, !str_app_nil_l. cbn [value_go].
  rewrite Ascii.eqb_refl. by rewrite str_go_quote.
Qed.

Lemma reads_quote n s : reads n (quote s) (Str (ToValid s)).
Proof. apply reads_lit; [done|]. intros. apply value_go_quote. lia. Qed.

Lemma value_go_digit fuel depth c t : 48 <= utf8.byte c <= 57 \/ c = "-"%char ->
  value_go (S fuel) depth (String.String c t)
    = match lexNumber (String.String c t) with Some (lit, r) => Some (Number lit, r) | None => None end.
Proof.
  intros H. cbn [value_go].
  assert (forall d, utf8.byte d < 45 \/ 57 < utf8.byte d -> Ascii.eqb c d = false) as Hne.
  { intros d Hd. apply Ascii.eqb_neq. intros <-. destruct H as [H| ->]; [lia|]. by destruct Hd. }
  by rewrite !Hne by (vm_compute; auto).
Qed.

Lemma reads_Itoa n z : reads n (strconv.Itoa z) (Number (strconv.Itoa z)).
Proof.
  assert (exists c t, strconv.Itoa z = String.String c t /\ (48 <= utf8.byte c <= 57 \/ c = "-"%char)) as (c & t & E & Hc).
  { destruct (Itoa_shape z) as [->|(sign & c & ds & -> & [->| ->] & Hc & Hds)].
    - exists "0"%char, EmptyString. split; [done|]. left. vm_compute. done.
    - exists c, ds. rewrite str_app_nil_l. split; [done|]. left; lia.
    - exists "-"%char, (String.String c ds). rewrite str_app_cons, str_app_nil_l. split; [done|]. by right. }
  split.
  - rewrite E. cbn. destruct Hc as [Hc| ->]; [|done]. split_and!.
    + unfold isSpace. lia.
    + intros ->. by destruct Hc.
    + intros ->. by destruct Hc.
  - intros fuel depth rest _ Hr Hf. destruct fuel as [|fuel]; [lia|].
    pose proof (lexNumber_Itoa z rest Hr) as Hl. rewrite E in *. rewrite str_app_cons in *.
    by rewrite value_go_digit, Hl.
Qed.

(** Space between the tokens of a value. *)
Fixpoint blank (w : string) : Prop :=
  match w with EmptyString => True | String.String c w => isSpace c = true /\ blank w end.

Lemma skip_blank w r : blank w -> skip (w +:+ r) = skip r.
Proof. induction w as [|c w IH]; [done|]. intros [Hc Hw]. rewrite str_app_cons. cbn [skip]. rewrite Hc. by apply IH. Qed.

Lemma stops_blank w c r : blank w -> stops (String.String c r) -> stops (w +:+ String.String c r).
Proof.
  destruct w as [|d w]; [done|]. intros [Hd _] _. rewrite str_app_cons.
  unfold isSpace in Hd. split_and!; [unfold isDigit, utf8.between; lia|by intros ->..].
Qed.

Lemma skip_punct c rest : isSpace c = false -> skip (String.String c rest) = String.String c rest.
Proof. intros H. cbn. by rewrite H. Qed.

(** The elements of a compound value, with [w] after every comma. *)
Fixpoint joined (w : string) (ts : list string) : string :=
  match ts with
  | [] => EmptyString
  | [t] => t
  | t :: ts => t +:+ "," +:+ w +:+ joined w ts
  end.

Lemma joined_cons w t t' ts : joined w (t :: t' :: ts) = t +:+ String.String "," (w +:+ joined w (t' :: ts)).
Proof. done. Qed.

Lemma textElems_joined ts : textElems ts = joined EmptyString ts.
Proof.
  induction ts as [|t [|t' ts] IH]; [done|done|].
  change (textElems (t :: t' :: ts)) with (t +:+ "," +:+ textElems (t' :: ts)). by rewrite IH.
Qed.

Lemma starts_joined w ts : ts <> [] -> Forall starts ts -> starts (joined w ts).
Proof.
  intros Hne H. destruct H as [|t [|t' ts] Ht _]; [done|done|]. rewrite joined_cons. by apply starts_app.
Qed.

Lemma elements_joined n w w' tvs : blank w -> blank w' ->
  tvs <> [] -> Forall (fun tv => reads n tv.1 tv.2) tvs ->
  forall fuel depth rest, (n <= depth)%nat ->
  (2 * String.length (joined w tvs.*1 +:+ w' +:+ String.String "]" rest) + 3 <= fuel)%nat ->
  elements_go fuel depth (joined w tvs.*1 +:+ w' +:+ String.String "]" rest) = Some (tvs, rest).
Proof.
  intros Hw Hw' Hne H. induction H as [|[t v] tvs Ht Htvs IH]; [done|]. clear Hne.
  intros [|fuel] depth rest Hd Hf; [lia|]. cbn [fst snd] in *. destruct tvs as [|[t' v'] tvs].
  - cbn [fmap list_fmap joined fst] in *. cbn [elements_go].
    rewrite (proj2 Ht) by (done || lia || by apply stops_blank). rewrite skip_blank, skip_punct by done.
    rewrite Ascii.eqb_refl. by rewrite consumed_app.
  - change (((t, v) :: (t', v') :: tvs).*1) with (t :: t' :: tvs.*1) in *. rewrite joined_cons in *.
    change (t' :: tvs.*1) with (((t', v') :: tvs).*1) in *.
    rewrite !str_app_assoc, str_app_cons, str_app_assoc in *. cbn [elements_go].
    set (more := joined w _ +:+ _) in *.
    rewrite (proj2 Ht) by (done || lia). rewrite skip_punct by done.
    change (Ascii.eqb "," "]") with false. rewrite Ascii.eqb_refl. cbv iota.
    rewrite skip_blank by done. assert (skip more = more) as ->.
    { apply skip_starts, starts_app, starts_joined; [done|]. apply Forall_fmap.
      eapply Forall_impl; [exact Htvs|]. by intros ? []. }
    rewrite consumed_app. unfold more. rewrite IH; [done|done|done|].
    rewrite str_length_app in Hf. cbn [String.length] in Hf. rewrite str_length_app in Hf. fold more. lia.
Qed.

Definition memberText (sp : string) (m : string * (string * value)) : string :=
  quote m.1 +:+ ":" +:+ sp +:+ m.2.1.

(** One member and what follows it. *)
Lemma members_joined_shape w sp w' k t v ms rest :
  exists c sep more, joined w (map (memberText sp) ((k, (t, v)) :: ms)) +:+ w' +:+ String.String "}" rest
    = String.String quoteChar (quote_go true 0 k +:+ String.String quoteChar
        (String.String ":" (sp +:+ t +:+ sep +:+ String.String c more)))
    /\ ((ms = [] /\ c = "}"%char /\ sep = w' /\ more = rest) \/
        (ms <> [] /\ c = ","%char /\ sep = EmptyString /\
         more = w +:+ joined w (map (memberText sp) ms) +:+ w' +:+ String.String "}" rest)).
Proof.
  unfold map at 1. fold (map (memberText sp) ms).
  change (memberText sp (k, (t, v))) with (quote k +:+ ":" +:+ sp +:+ t).
  unfold quote, quoteStr. destruct ms as [|m ms].
  - exists "}"%char, w', rest. split; [|by left]. cbn [map joined].
    by rewrite !str_app_assoc, !str_app_cons, !str_app_nil_l.
  - exists ","%char, EmptyString, (w +:+ joined w (map (memberText sp) (m :: ms)) +:+ w' +:+ String.String "}" rest).
    split; [|by right]. cbn [map]. rewrite joined_cons.
    by rewrite !str_app_assoc, !str_app_cons, !str_app_nil_l, !str_app_assoc.
Qed.

Lemma members_joined n w sp w' ms : blank w -> blank sp -> blank w' ->
  ms <> [] -> Forall (fun m => reads n m.2.1 m.2.2) ms ->
  forall fuel depth rest, (n <= depth)%nat ->
  (2 * String.length (joined w (map (memberText sp) ms) +:+ w' +:+ String.String "}" rest) + 3 <= fuel)%nat ->
  members_go fuel depth (joined w (map (memberText sp) ms) +:+ w' +:+ String.String "}" rest)
    = Some (map (fun m => (ToValid m.1, m.2)) ms, rest).
Proof.
  intros Hw Hsp Hw' Hne H. induction H as [|[k [t v]] ms Ht Hms IH]; [done|]. clear Hne.
  intros [|fuel] depth rest Hd Hf; [lia|]. cbn [fst snd] in *.
  destruct (members_joined_shape w sp w' k t v ms rest) as (c & sep & more & E & Hcase).
  rewrite E in *. clear E. cbn [members_go]. rewrite Ascii.eqb_refl. cbn [negb].
  rewrite str_go_quote, skip_punct, Ascii.eqb_refl by done. cbn [negb].
  rewrite skip_blank, skip_starts by (done || apply starts_app, Ht).
  assert (blank sep /\ stops (String.String c more)) as [Hsep Hc]
    by (destruct Hcase as [(_ & -> & -> & _)|(_ & -> & -> & _)]; done).
  cbn [String.length] in Hf. rewrite str_length_app in Hf. cbn [String.length] in Hf. rewrite str_length_app in Hf.
  assert (value_go fuel depth (t +:+ sep +:+ String.String c more) = Some (v, sep +:+ String.String c more)) as ->
    by (apply Ht; [done|by apply stops_blank|lia]).
  rewrite consumed_app, skip_blank by done.
  destruct Hcase as [(-> & -> & -> & ->)|(Hne & -> & -> & ->)]; rewrite skip_punct by done.
  - by rewrite Ascii.eqb_refl.
  - change (Ascii.eqb "," "}") with false. rewrite Ascii.eqb_refl. cbv iota.
    rewrite skip_blank, skip_starts by (done || (apply starts_app, starts_joined;
      [by destruct ms|]; apply Forall_map; by apply Forall_true)).
    rewrite IH; [done|done|done|]. rewrite str_app_nil_l in Hf. rewrite str_length_app in Hf.
    cbn [String.length] in Hf. rewrite str_length_app in Hf. lia.
Qed.

Lemma reads_empty_array n : reads (S n) "[]" (Array []).
Proof. split; [done|]. by intros [|fuel] [|depth] rest Hd Hr Hf; [lia..|]. Qed.
Lemma reads_empty_object n : reads (S n) "{}" (Object []).
Proof. split; [done|]. by intros [|fuel] [|depth] rest Hd Hr Hf; [lia..|]. Qed.

Lemma reads_array_joined n w w' tvs : blank w -> blank w' -> tvs <> [] ->
  Forall (fun tv => reads n tv.1 tv.2) tvs ->
  reads (S n) ("[" +:+ w +:+ joined w tvs.*1 +:+ w' +:+ "]") (Array tvs).
Proof.
  intros Hw Hw' Hne H. split; [done|]. intros [|fuel] [|depth] rest Hd Hr Hf; [lia..|].
  rewrite !str_app_assoc, !str_app_cons, !str_app_nil_l in *. cbn [value_go].
  change (Ascii.eqb "[" quoteChar) with false. rewrite Ascii.eqb_refl. cbv iota.
  assert (starts (joined w tvs.*1)) as Hs.
  { apply starts_joined; [by destruct tvs|]. apply Forall_fmap. eapply Forall_impl; [exact H|]. by intros ? []. }
  rewrite skip_blank, skip_starts by (done || by apply starts_app).
  destruct (joined w tvs.*1 +:+ w' +:+ String.String "]" rest) as [|c' t'] eqn:E;
    [by destruct (joined w tvs.*1)|].
  assert (Ascii.eqb c' "]" = false) as ->.
  { apply Ascii.eqb_neq. intros ->. destruct (joined w tvs.*1) as [|c'' t'']; [done|].
    rewrite str_app_cons in E. injection E as -> _. by destruct Hs as (_ & ? & _). }
  cbn [String.length] in Hf. rewrite str_length_app in Hf.
  rewrite <- E in *. by rewrite (elements_joined n) by (done || lia).
Qed.

Lemma reads_object_joined n w sp w' ms : blank w -> blank sp -> blank w' -> ms <> [] ->
  Forall (fun m => reads n m.2.1 m.2.2) ms ->
  reads (S n) ("{" +:+ w +:+ joined w (map (memberText sp) ms) +:+ w' +:+ "}")
    (Object (map (fun m => (ToValid m.1, m.2)) ms)).
Proof.
  intros Hw Hsp Hw' Hne H. split; [done|]. intros [|fuel] [|depth] rest Hd Hr Hf; [lia..|].
  rewrite !str_app_assoc, !str_app_cons, !str_app_nil_l in *. cbn [value_go].
  change (Ascii.eqb "{" quoteChar) with false. change (Ascii.eqb "{" "[") with false.
  rewrite Ascii.eqb_refl. cbv iota.
  assert (exists t', joined w (map (memberText sp) ms) = String.String quoteChar t') as [t' E].
  { destruct ms as [|m ms]; [done|]. cbn [map].
    destruct (map (memberText sp) ms) as [|x l]; cbn [joined]; unfold memberText, quote, quoteStr;
      rewrite !str_app_assoc, !str_app_cons; by eexists. }
  rewrite skip_blank, skip_starts by (done || (rewrite E; done)). rewrite E at 1. rewrite str_app_cons.
  change (Ascii.eqb quoteChar "}") with false. cbv iota.
  cbn [String.length] in Hf. rewrite str_length_app in Hf.
  by rewrite (members_joined n) by (done || lia).
Qed.

Lemma reads_array n tvs : Forall (fun tv => reads n tv.1 tv.2) tvs ->
  reads (S n) ("[" +:+ textElems tvs.*1 +:+ "]") (Array tvs).
Proof.
  intros H. destruct tvs as [|tv tvs]; [apply reads_empty_array|].
  rewrite textElems_joined. by apply (reads_array_joined n EmptyString EmptyString).
Qed.

Lemma reads_object n ms : Forall (fun m => reads n m.2.1 m.2.2) ms ->
  reads (S n) ("{" +:+ textElems (map (memberText EmptyString) ms) +:+ "}") (Object (map (fun m => (ToValid m.1, m.2)) ms)).
Proof.
  intros H. destruct ms as [|m ms]; [apply reads_empty_object|].
  rewrite textElems_joined. by apply (reads_object_joined n EmptyString EmptyString EmptyString).
Qed.

Lemma parse_reads n t v : (n <= maxNestingDepth)%nat -> reads n t v -> parse t = Some (t, v).
Proof.
  intros Hn [Hs H]. unfold parse. rewrite skip_starts by done.
  pose proof (H (2 * String.length t + 2)%nat maxNestingDepth EmptyString Hn I) as E.
  rewrite str_app_nil_r in E. rewrite E by lia. cbn [skip].
  pose proof (consumed_app t EmptyString) as Ec. rewrite str_app_nil_r in Ec. by rewrite Ec.
Qed.

Lemma reads_text n a : wf n a -> (n <= maxNestingDepth)%nat -> reads n (text a) (valueOf a).
Proof.
  revert n a. apply (wf_nested (fun n a => (n <= maxNestingDepth)%nat -> reads n (text a) (valueOf a)));
    intros; cbn [text valueOf].
  - apply reads_lit; [done|]. intros [|fuel] depth rest Hf; [lia|]. done.
  - destruct b; (apply reads_lit; [done|]; intros [|fuel] depth rest Hf; [lia|]; done).
  - apply reads_Itoa.
  - apply reads_quote.
  - pose proof (reads_array n (map (fun a => (text a, valueOf a)) l)) as HA.
    rewrite <- list_fmap_compose in HA. apply HA, Forall_map. eapply Forall_impl; [exact H0|].
    intros a Ha. apply Ha. lia.
  - pose proof (reads_object n (map (fun m => (m.1, (text m.2, valueOf m.2))) ms)) as HO.
    rewrite !map_map in HO. apply HO, Forall_map. eapply Forall_impl; [exact H0|].
    intros a Ha. apply Ha. lia.
  - rewrite decide_True by done. apply reads_lit; [done|]. intros [|fuel] depth rest Hf; [lia|]. done.
  - specialize (H0 H1). rewrite (parse_reads n _ _ H1 H0).
    pose proof (text_raw_text n a H) as E. cbn [text] in E. by rewrite E.
Qed.

(** What [Marshal] writes is read back as the same value. *)
Lemma parse_text n a : wf n a -> (n <= maxNestingDepth)%nat -> parse (text a) = Some (text a, valueOf a).
Proof. intros Ha Hn. by eapply parse_reads, reads_text. Qed.

Lemma rawOk_wf n a : wf n a -> (n <= maxNestingDepth)%nat -> rawOk a = true.
Proof.
  revert n a. apply (wf_nested (fun n a => (n <= maxNestingDepth)%nat -> rawOk a = true));
    intros; cbn [rawOk]; try done.
  - apply forallb_forall. rewrite Forall_forall in H0. intros x Hx%list_elem_of_In. apply H0; [done|lia].
  - apply forallb_forall. rewrite Forall_forall in H0. intros x Hx%list_elem_of_In. apply (H0 x Hx). lia.
  - apply orb_true_iff. right. apply bool_decide_eq_true. by rewrite (parse_text n).
Qed.

Lemma Marshal_wf n a : wf n a -> (n <= maxNestingDepth)%nat -> Marshal a = Some (text a).
Proof. intros Ha Hn. unfold Marshal. by rewrite (rawOk_wf n). Qed.

(** ** A marshalled text has no control characters, so it is one line *)

Fixpoint printable (s : string) : Prop :=
  match s with EmptyString => True | String.String c s => 32 <= utf8.byte c /\ printable s end.

Lemma printable_app a b : printable a -> printable b -> printable (a +:+ b).
Proof. induction a as [|c a IH]; [done|]. intros [Hc Ha] Hb. rewrite str_app_cons. split; [done|]. by apply IH. Qed.

Lemma printable_hex n : 0 <= n < 16 -> 32 <= utf8.byte (hexLower n).
Proof. intros H. unfold hexLower. rewrite utf8.byte_chr; destruct (Z.ltb_spec n 10); lia. Qed.

Lemma printable_continued t : continued t -> printable t.
Proof. induction t as [|c t IH]; [done|]. intros [Hc Ht]. split; [lia|]. by apply IH. Qed.

Lemma printable_digits ds : allDigits ds -> printable ds.
Proof.
  induction ds as [|d ds IH]; [done|]. intros [Hd Hds]. split; [|by apply IH].
  unfold isDigit, utf8.between in Hd. lia.
Qed.

Ltac printable := repeat (first [apply printable_app | split; [by vm_compute|] | exact I]).

Lemma printable_quoteByte c : utf8.byte c < 128 -> printable (quoteByte c).
Proof.
  intros Hc. pose proof (utf8.byte_range c). unfold quoteByte, unicodeEscape, escapeOf.
  repeat case_match; try done; cbn [printable].
  - split; [by vm_compute|]. split; [lia|done].
  - split; [by vm_compute|]. apply printable_app; [printable|].
    split; [|split; [|done]]; apply printable_hex; Z.to_euclidean_division_equations; lia.
  - split; [lia|done].
Qed.

Lemma printable_quote_go s : printable (quote_go true 0 s).
Proof.
  induction s as [s IH] using (induction_ltof1 _ String.length). unfold ltof in IH.
  destruct s as [|c s]; [done|]. cbn [quote_go].
  destruct (Z.ltb_spec (utf8.byte c) 128) as [Hc|Hc].
  - apply printable_app; [by apply printable_quoteByte|]. apply IH. simpl; lia.
  - destruct (utf8.decode c s) as [r w] eqn:Hd.
    destruct ((r =? utf8.RuneError) && Nat.eqb w 0) eqn:Hne.
    + apply printable_app; [unfold invalidEscape; printable|]. apply IH. simpl; lia.
    + destruct (decode_wide _ _ _ _ Hd Hc Hne) as (t & u & -> & <- & Hw).
      rewrite !quote_go_skip. cbn [String.length] in IH.
      assert (printable (quote_go true 0 u)) as Hu by (apply IH; rewrite str_length_app; lia).
      destruct (isSeparator r) eqn:Hs.
      * rewrite str_app_nil_l. apply printable_app; [|done].
        apply orb_true_iff in Hs as [->%Z.eqb_eq| ->%Z.eqb_eq]; unfold separatorEscape; printable.
      * split; [lia|]. apply printable_app; [|done]. apply printable_continued, Hw.
Qed.

Lemma printable_quote s : printable (quote s).
Proof. unfold quote, quoteStr. apply printable_app; [printable|]. apply printable_app; [apply printable_quote_go|printable]. Qed.

Lemma printable_elems ts : Forall printable ts -> printable (textElems ts).
Proof.
  induction 1 as [|t [|t' ts] Ht Hts IH]; [done|done|].
  change (textElems (t :: t' :: ts)) with (t +:+ "," +:+ textElems (t' :: ts)).
  apply printable_app; [done|]. apply printable_app; [printable|done].
Qed.

Lemma printable_text n a : wf n a -> printable (text a).
Proof.
  revert n a. apply (wf_nested (fun _ a => printable (text a))); intros; cbn [text].
  - printable.
  - destruct b; printable.
  - destruct (Itoa_shape z) as [->|(sign & c & ds & -> & Hsign & Hc & Hds)]; [printable|].
    apply printable_app; [destruct Hsign as [->| ->]; printable|]. split; [lia|]. by apply printable_digits.
  - apply printable_quote.
  - apply printable_app; [printable|]. apply printable_app; [|printable].
    apply printable_elems, Forall_map. done.
  - apply printable_app; [printable|]. apply printable_app; [|printable].
    apply printable_elems, Forall_map. eapply Forall_impl; [done|]. intros m Hm.
    apply printable_app; [apply printable_quote|]. apply printable_app; [printable|done].
  - rewrite decide_True by done. printable.
  - pose proof (text_raw_text n a H) as E. cbn [text] in E. by rewrite E.
Qed.

Lemma printable_line s : printable s -> Strings.ContainsByte s "010"%char = false.
Proof.
  induction s as [|c s IH]; [done|]. intros [Hc Hs]. cbn [Strings.ContainsByte]. rewrite IH by done.
  rewrite orb_false_r. apply bool_decide_eq_false. intros E. by subst c.
Qed.

(** Deeper nesting is allowed. *)
Lemma wf_le n m a : wf n a -> (n <= m)%nat -> wf m a.
Proof.
  intros H. revert m. revert n a H.
  apply (wf_nested (fun n a => forall m, (n <= m)%nat -> wf m a)); intros; try (by constructor).
  - destruct m as [|m]; [lia|]. constructor. eapply Forall_impl; [exact H0|]. intros a Ha. apply Ha. lia.
  - destruct m as [|m]; [lia|]. constructor. eapply Forall_impl; [exact H0|]. intros a Ha. apply Ha. lia.
  - constructor. by apply H0.
Qed.

(** ** Structs: what the fields of a marshalled struct decode to *)

(** The members of an object as they are read back. *)
Definition enc (ms : list (string * any)) : list (string * (string * value)) :=
  map (fun m => (ToValid m.1, (text m.2, valueOf m.2))) ms.

Lemma Unmarshal_obj {S} n ms (fields : list (Field S)) x :
  wf n (AObj ms) -> (n <= maxNestingDepth)%nat ->
  Unmarshal (dStruct fields) (text (AObj ms)) x = storeMembers fields (enc ms) x.
Proof. intros Hw Hn. unfold Unmarshal. by rewrite (parse_text n). Qed.

Lemma storeMembers_app {S} (fields : list (Field S)) a b x :
  storeMembers fields (a ++ b) x =
    let '(x, e) := storeMembers fields a x in
    let '(x, e') := storeMembers fields b x in (x, e || e').
Proof.
  revert x. induction a as [|[k rv] a IH]; intros x; cbn [app storeMembers].
  - by destruct (storeMembers fields b x).
  - destruct (match findField fields k with Some d => d rv x | None => (x, false) end) as [x1 e1].
    rewrite IH. destruct (storeMembers fields a x1) as [x2 e2]. destruct (storeMembers fields b x2).
    by rewrite orb_assoc.
Qed.

Lemma store_then {S} (fields : list (Field S)) a b x y :
  storeMembers fields a x = (y, false) -> storeMembers fields (a ++ b) x = storeMembers fields b y.
Proof. intros H. rewrite storeMembers_app, H. by destruct (storeMembers fields b y). Qed.

Lemma enc_app a b : enc (a ++ b) = enc a ++ enc b.
Proof. apply map_app. Qed.

Lemma store_first {S} (fields : list (Field S)) m ms x y :
  storeMembers fields (enc [m]) x = (y, false) -> storeMembers fields (enc (m :: ms)) x = storeMembers fields (enc ms) y.
Proof. change (enc (m :: ms)) with (enc [m] ++ enc ms). apply store_then. Qed.

(** One member, stored by the decoder of its field. *)
Lemma store_member {S T} (fields : list (Field S)) name (pr : S -> T) `{!FieldSet pr} (d : Decoder T) a x y :
  findField fields (ToValid name) = Some (snd (fld name pr d)) ->
  d (text a, valueOf a) (pr x) = (y, false) ->
  storeMembers fields (enc [(name, a)]) x = (field_set pr y x, false).
Proof.
  intros Hf Hd. cbn [enc map storeMembers fst snd]. rewrite Hf. cbn [snd fld field]. by rewrite Hd.
Qed.

Section omitted.
Context {S : Type} (fields : list (Field S)) (name : string).

Lemma store_omitStr (pr : S -> string) `{!FieldSet pr} s x :
  findField fields (ToValid name) = Some (snd (fld name pr dString)) ->
  field_set pr EmptyString x = x ->
  storeMembers fields (enc (omitStr name s)) x = (field_set pr (ToValid s) x, false).
Proof.
  intros Hf Hx. unfold omitStr. case_decide as E; [|by eapply store_member].
  subst s. change (ToValid EmptyString) with EmptyString. by rewrite Hx.
Qed.

Lemma store_omitRaw (pr : S -> RawMessage) `{!FieldSet pr} raw x :
  findField fields (ToValid name) = Some (snd (fld name pr dRaw)) ->
  field_set pr EmptyString x = x -> compact raw = raw ->
  storeMembers fields (enc (omitRaw name raw)) x = (field_set pr raw x, false).
Proof.
  intros Hf Hx Hc. unfold omitRaw. case_decide as E; [by subst; rewrite Hx|].
  eapply store_member; [done|]. unfold dRaw. cbn [fst text]. rewrite decide_False by done. by rewrite Hc.
Qed.

Lemma store_omitInt (pr : S -> Z) `{!FieldSet pr} n x :
  findField fields (ToValid name) = Some (snd (fld name pr dInt)) ->
  field_set pr 0 x = x -> in_int64 n ->
  storeMembers fields (enc (omitInt name n)) x = (field_set pr n x, false).
Proof.
  intros Hf Hx Hn. unfold omitInt. case_decide as E; [by subst; rewrite Hx|].
  eapply store_member; [done|]. unfold dInt. cbn [snd valueOf]. by rewrite strconv.Atoi_Itoa.
Qed.

Lemma store_omitBool (pr : S -> bool) `{!FieldSet pr} b x :
  findField fields (ToValid name) = Some (snd (fld name pr dBool)) ->
  field_set pr false x = x ->
  storeMembers fields (enc (omitBool name b)) x = (field_set pr b x, false).
Proof. intros Hf Hx. unfold omitBool. destruct b; [by eapply store_member|]. by rewrite Hx. Qed.

Lemma store_str (pr : S -> string) `{!FieldSet pr} s x :
  findField fields (ToValid name) = Some (snd (fld name pr dString)) ->
  storeMembers fields (enc [(name, AStr s)]) x = (field_set pr (ToValid s) x, false).
Proof. intros Hf. by eapply store_member. Qed.

Lemma store_bool (pr : S -> bool) `{!FieldSet pr} b x :
  findField fields (ToValid name) = Some (snd (fld name pr dBool)) ->
  storeMembers fields (enc [(name, ABool b)]) x = (field_set pr b x, false).
Proof. intros Hf. by eapply store_member. Qed.

Lemma store_int (pr : S -> Z) `{!FieldSet pr} n x :
  findField fields (ToValid name) = Some (snd (fld name pr dInt)) -> in_int64 n ->
  storeMembers fields (enc [(name, AInt n)]) x = (field_set pr n x, false).
Proof.
  intros Hf Hn. eapply store_member; [done|]. unfold dInt. cbn [snd valueOf]. by rewrite strconv.Atoi_Itoa.
Qed.
End omitted.

(** Strings in an array. *)
Lemma dSlice_strs l x : dSlice EmptyString dString (text (strs l), valueOf (strs l)) x = (map ToValid l, false).
Proof.
  unfold dSlice, strs. cbn [snd valueOf]. rewrite !map_map. f_equal.
  induction l as [|s l IH]; [done|]. exact IH.
Qed.

(** * Go standard library: json.MarshalIndent

    [MarshalIndent(v, "", "  ")]: one member per line, two spaces per level;
    an empty array or object stays on its line.  A decoder that keeps no source
    text ([textless]) reads it as it reads the text of [Marshal]:
    [Unmarshal_indented]. *)

Open Scope Z_scope.

Import json marshal.

Module indent.

(** A newline and the indentation of level [d]. *)
Fixpoint spaces (d : nat) : string :=
  match d with O => EmptyString | S d => "  " +:+ spaces d end.
Definition newline (d : nat) : string := String.String "010"%char (spaces d).

(** The text at level [d].  The code indents no [RawMessage]. *)
Fixpoint textAt (d : nat) (a : any) : string :=
  match a with
  | AArr [] => "[]"
  | AArr l => "[" +:+ newline (S d) +:+ joined (newline (S d)) (map (textAt (S d)) l)
                  +:+ newline d +:+ "]"
  | AObj [] => "{}"
  | AObj ms => "{" +:+ newline (S d)
                   +:+ joined (newline (S d)) (map (fun m => quote m.1 +:+ ":" +:+ " " +:+ textAt (S d) m.2) ms)
                   +:+ newline d +:+ "}"
  | _ => text a
  end.

Definition MarshalIndent (a : any) : option string :=
  if rawOk a then Some (textAt 0 a) else None.

(** What it is read as. *)
Fixpoint valueAt (d : nat) (a : any) : value :=
  match a with
  | AArr l => Array (map (fun a => (textAt (S d) a, valueAt (S d) a)) l)
  | AObj ms => Object (map (fun m => (ToValid m.1, (textAt (S d) m.2, valueAt (S d) m.2))) ms)
  | _ => valueOf a
  end.
End indent.
Import indent.

(** ** It is read back *)

Lemma blank_app a b : blank a -> blank b -> blank (a +:+ b).
Proof. induction a as [|c a IH]; [done|]. intros [? ?] ?. rewrite str_app_cons. split; [done|]. by apply IH. Qed.
Lemma blank_newline d : blank (newline d).
Proof. split; [done|]. induction d as [|d IH]; [done|]. apply blank_app; [|done]. by repeat split. Qed.

(** No raw message inside. *)
Fixpoint cooked (a : any) : bool :=
  match a with
  | AArr l => forallb cooked l
  | AObj ms => forallb (fun m => cooked m.2) ms
  | ARaw _ => false
  | _ => true
  end.

Lemma textAt_arr d x l : textAt d (AArr (x :: l)) =
  "[" +:+ newline (S d) +:+ joined (newline (S d)) (map (textAt (S d)) (x :: l)) +:+ newline d +:+ "]".
Proof. done. Qed.
Lemma textAt_obj d m ms : textAt d (AObj (m :: ms)) =
  "{" +:+ newline (S d)
      +:+ joined (newline (S d)) (map (fun m => quote m.1 +:+ ":" +:+ " " +:+ textAt (S d) m.2) (m :: ms))
      +:+ newline d +:+ "}".
Proof. done. Qed.

Lemma reads_textAt n a : wf n a -> (n <= maxNestingDepth)%nat ->
  forall d, cooked a = true -> reads n (textAt d a) (valueAt d a).
Proof.
  revert n a. apply (wf_nested (fun n a => (n <= maxNestingDepth)%nat -> forall d, cooked a = true ->
    reads n (textAt d a) (valueAt d a))); intros n; intros; cbn [valueAt]; try discriminate;
    try (apply (reads_text n); [by constructor|done]).
  - destruct l as [|x l]; [apply reads_empty_array|]. rewrite textAt_arr.
    pose proof (reads_array_joined n (newline (S d)) (newline d)
      (map (fun a => (textAt (S d) a, valueAt (S d) a)) (x :: l))) as HA.
    rewrite <- list_fmap_compose in HA. apply HA; [apply blank_newline..|done|]. clear HA.
    cbn [cooked] in H2. rewrite forallb_forall in H2. apply Forall_map, Forall_forall.
    rewrite Forall_forall in H0. intros a Ha. apply (H0 a Ha); [lia|]. by apply H2, list_elem_of_In.
  - destruct ms as [|m ms]; [apply reads_empty_object|]. rewrite textAt_obj.
    pose proof (reads_object_joined n (newline (S d)) " " (newline d)
      (map (fun m => (m.1, (textAt (S d) m.2, valueAt (S d) m.2))) (m :: ms))) as HO.
    rewrite !map_map in HO. apply HO; [apply blank_newline|by repeat split|apply blank_newline|done|]. clear HO.
    cbn [cooked] in H2. rewrite forallb_forall in H2. apply Forall_map, Forall_forall.
    rewrite Forall_forall in H0. intros a Ha. apply (H0 a Ha); [lia|]. by apply H2, list_elem_of_In.
Qed.

(** ** Decoders that keep no source text *)

Fixpoint erase (v : value) : value :=
  match v with
  | Array es => Array (map (fun e => (EmptyString, erase e.2)) es)
  | Object ms => Object (map (fun m => (m.1, (EmptyString, erase m.2.2))) ms)
  | _ => v
  end.

Definition textless {T} (d : Decoder T) : Prop := forall t v x, d (t, v) x = d (EmptyString, erase v) x.

Lemma textless_eq {T} (d : Decoder T) t t' v v' x : textless d -> erase v = erase v' -> d (t, v) x = d (t', v') x.
Proof. intros H E. by rewrite H, E, <- H. Qed.

Lemma textless_string : textless dString.
Proof. by intros t [] x. Qed.
Lemma textless_bool : textless dBool.
Proof. by intros t [] x. Qed.
Lemma textless_int : textless dInt.
Proof. by intros t [] x. Qed.

Lemma textless_slice {T} (zero : T) d : textless d -> textless (dSlice zero d).
Proof.
  intros H t [] x; try done. unfold dSlice. cbn [snd erase]. rewrite map_map. f_equal.
  - apply map_ext. intros [u v]. by rewrite H.
  - induction elems as [|[u v] es IH]; [done|]. cbn [map existsb]. by rewrite IH, H.
Qed.

Lemma textless_map {T} (zero : T) d : textless d -> textless (dMap zero d).
Proof.
  intros H t [] x; try done. unfold dMap. cbn [snd erase]. f_equal.
  - revert x. induction members as [|[k [u v]] ms IH]; intros x; [done|]. cbn [map foldl fst snd].
    by rewrite IH, H.
  - induction members as [|[k [u v]] ms IH]; [done|]. cbn [map existsb fst snd]. by rewrite IH, H.
Qed.

Lemma textless_field {R T} name (f : R -> T) `{!FieldSet f} d : textless d -> textless (snd (fld name f d)).
Proof. intros H t v x. cbn [snd fld field]. by rewrite H. Qed.

Lemma textless_struct {R} (fields : list (Field R)) :
  Forall (fun f => textless f.2) fields -> textless (dStruct fields).
Proof.
  intros H t [] x; try done. unfold dStruct. cbn [snd erase].
  assert (forall k d, findField fields k = Some d -> textless d) as Hf.
  { unfold findField. intros k d E. rewrite Forall_forall in H.
    repeat case_match; simplify_eq;
      match goal with E : List.find _ _ = Some ?f |- _ => apply find_some in E as [E _]; apply (H f) end;
      by apply list_elem_of_In. }
  revert x. induction members as [|[k [u v]] ms IH]; intros x; [done|]. cbn [map storeMembers fst snd].
  destruct (findField fields k) as [d|] eqn:E; [|by rewrite IH].
  rewrite (Hf k d E u v x). destruct (d _ x). by rewrite IH.
Qed.

(** ** Indentation does not matter to them *)

Section any_induction.
Context (P : any -> Prop).
Context (Hleaf : forall a, match a with AArr _ | AObj _ => False | _ => True end -> P a)
  (Harr : forall l, Forall P l -> P (AArr l)) (Hobj : forall ms, Forall (fun m => P m.2) ms -> P (AObj ms)).
Lemma any_nested a : P a.
Proof.
  revert a. fix IH 1. intros [| | | |l|ms|]; try by apply Hleaf.
  - apply Harr. induction l as [|a l IHl]; constructor; auto.
  - apply Hobj. induction ms as [|m ms IHms]; constructor; auto.
Qed.
End any_induction.

Lemma erase_valueAt a : forall d, erase (valueAt d a) = erase (valueOf a).
Proof.
  induction a as [a Ha|l IH|ms IH] using any_nested; intros d.
  - by destruct a.
  - cbn [valueAt valueOf erase]. rewrite !map_map. f_equal. cbn [snd].
    induction IH as [|a l H _ IHl]; [done|]. cbn [map]. by rewrite IHl, H.
  - cbn [valueAt valueOf erase]. rewrite !map_map. f_equal. cbn [fst snd].
    induction IH as [|m ms H _ IHl]; [done|]. cbn [map]. by rewrite IHl, H.
Qed.

Lemma Unmarshal_indented {T} n (d : Decoder T) a x :
  wf n a -> (n <= maxNestingDepth)%nat -> cooked a = true -> textless d ->
  Unmarshal d (textAt 0 a) x = Unmarshal d (text a) x.
Proof.
  intros Hw Hn Hc Hd. unfold Unmarshal. rewrite (parse_text n) by done.
  rewrite (parse_reads n _ _ Hn (reads_textAt n a Hw Hn 0 Hc)).
  apply textless_eq; [done|]. apply erase_valueAt.
Qed.

Lemma MarshalIndent_wf n a : wf n a -> (n <= maxNestingDepth)%nat -> MarshalIndent a = Some (textAt 0 a).
Proof. intros Hw Hn. unfold MarshalIndent. by rewrite (rawOk_wf n). Qed.
