(* ===== verification/GoPath.v ===== *)
(** * Go standard library: more of path/filepath

    [Dir] and [Rel], and the theory of clean paths: a clean path is a flag
    (rooted or not) and a list of elements ([comps]); [Clean], [Join] and
    [Dir] are simple operations on those. *)

From S2P Require Import Prelude GoStd GoText.
Open Scope Z_scope.

Import filepath.

(** ** Definitions *)

(** The path up to and including its last slash. *)
Fixpoint dirPrefix (s : string) : string :=
  match s with
  | EmptyString => EmptyString
  | String.String c t =>
    match dirPrefix t with
    | EmptyString => if decide (c = "/"%char) then "/" else EmptyString
    | r => String.String c r
    end
  end%string.

(** [filepath.Dir]. *)
Definition Dir (path : string) : string := Clean (dirPrefix path).

Definition IsAbs (path : string) : bool := Strings.HasPrefix path "/".

(** The elements [Rel] compares: what is between the slashes of a clean path. *)
Definition relElems (p : string) : list string :=
  if decide (p = EmptyString) then [] else Strings.Split p "/".

Definition relTail (p : string) : list string :=
  if IsAbs p then relElems (Strings.TrimPrefix p "/") else relElems p.

Fixpoint stripCommon (b t : list string) : list string * list string :=
  match b, t with
  | x :: b', y :: t' => if decide (x = y) then stripCommon b' t' else (b, t)
  | _, _ => (b, t)
  end.

(** [filepath.Rel]; [None] is an error. *)
Definition Rel (basepath targpath : string) : option string :=
  let base := Clean basepath in
  let targ := Clean targpath in
  if decide (base = targ) then Some "."%string
  else if negb (Bool.eqb (IsAbs base) (IsAbs targ)) then None
  else
    let base := if decide (base = "."%string) then EmptyString else base in
    match stripCommon (relTail base) (relTail targ) with
    | ([], t) => Some (Strings.Join t "/")
    | (x :: b, t) =>
      if bool_decide (x = ".."%string) && bool_decide (t <> []) then None
      else Some (Strings.Join (replicate (S (length b)) ".."%string ++ t) "/")
    end.

(** ** Clean paths *)

Definition rooted (p : string) : bool := Strings.HasPrefix p "/".
Definition comps (p : string) : list string := clean_go (rooted p) [] (Strings.Split p "/").

Definition render (r : bool) (l : list string) : string :=
  if r then "/" +:+ Strings.Join l "/"
  else if decide (l = []) then "."%string else Strings.Join l "/".

Lemma Clean_render p : Clean p = render (rooted p) (comps p).
Proof. done. Qed.

(** An element that means itself. *)
Definition plain (x : string) : Prop :=
  x <> EmptyString /\ x <> "."%string /\ x <> ".."%string /\ Strings.ContainsByte x "/" = false.

(** The elements of a clean path: parent references only at the front of a
    path that is not rooted. *)
Inductive normal : bool -> list string -> Prop :=
| normal_plain r l : Forall plain l -> normal r l
| normal_up l : normal false l -> normal false (".."%string :: l).

Lemma normal_snoc r l x : normal r l -> plain x -> normal r (l ++ [x]).
Proof.
  induction 1 as [r l Hl|l Hl IH]; intros Hx.
  - apply normal_plain, Forall_app. by split; [|apply Forall_singleton].
  - apply normal_up. by apply IH.
Qed.

Lemma clean_go_app r l1 l2 : forall out,
  clean_go r out (l1 ++ l2) = clean_go r (rev (clean_go r out l1)) l2.
Proof.
  induction l1 as [|x l1 IH]; intros out; cbn [app clean_go]; [by rewrite rev_involutive|].
  repeat (case_decide || case_match); apply IH.
Qed.

Lemma clean_go_plain r l : forall out, Forall plain l -> clean_go r out l = rev out ++ l.
Proof.
  induction l as [|x l IH]; intros out Hl; cbn [clean_go]; [by rewrite app_nil_r|].
  apply Forall_cons in Hl as [(H1 & H2 & H3 & _) Hl].
  rewrite decide_False by tauto. rewrite decide_False by done. rewrite IH by done.
  cbn [rev]. by rewrite <- app_assoc.
Qed.

Lemma clean_go_normal r l : normal r l -> clean_go r [] l = l.
Proof.
  assert (forall l, normal false l -> forall k, clean_go false (replicate k ".."%string) l
    = replicate k ".."%string ++ l) as Hup.
  { intros l' Hl. remember false as r' eqn:Er.
    induction Hl as [r'' l' Hl|l' Hl IH]; intros k.
    - rewrite clean_go_plain by done. f_equal. rewrite rev_alt. apply reverse_replicate.
    - cbn [clean_go]. rewrite decide_False by (intros [|]; done). rewrite decide_True by done.
      destruct k as [|k]; cbn [replicate].
      + exact (IH eq_refl 1%nat).
      + rewrite decide_True by done. pose proof (IH eq_refl (S (S k))) as H. cbn [replicate app] in H |- *.
        rewrite H. f_equal.
        change (replicate (S k) ".."%string ++ l' = replicate k ".."%string ++ ".."%string :: l').
        by rewrite replicate_S_end, <- app_assoc. }
  intros Hl. inversion Hl as [r' l' H|l' H]; subst.
  - by rewrite clean_go_plain.
  - by apply (Hup _ Hl 0%nat).
Qed.

Lemma normal_init r l x : normal r (l ++ [x]) -> normal r l.
Proof.
  induction l as [|y l IH]; cbn [app]; intros H; [apply normal_plain; constructor|].
  inversion H as [r' l' Hl|l' Hl]; subst.
  - apply Forall_cons in Hl as [Hy Hl]. apply Forall_app in Hl as [Hl _].
    by apply normal_plain, Forall_cons.
  - apply normal_up. by apply IH.
Qed.

Lemma normal_up_snoc r l : normal r (l ++ [".."%string]) -> normal r ((l ++ [".."%string]) ++ [".."%string]).
Proof.
  induction l as [|y l IH]; cbn [app]; intros H.
  - inversion H as [r' l' Hl|l' Hl]; subst.
    + apply Forall_singleton in Hl as (_ & _ & ? & _). done.
    + do 2 apply normal_up. done.
  - inversion H as [r' l' Hl|l' Hl]; subst.
    + apply Forall_cons in Hl as [_ Hl]. apply Forall_app in Hl as [_ Hl].
      apply Forall_singleton in Hl as (_ & _ & ? & _). done.
    + apply normal_up. by apply IH.
Qed.

(** What [Clean] computes is clean. *)
Lemma clean_go_is_normal r l : Forall (fun x => Strings.ContainsByte x "/" = false) l ->
  forall out, normal r (rev out) -> normal r (clean_go r out l).
Proof.
  induction 1 as [|x l Hx Hl IH]; intros out Ho; cbn [clean_go]; [done|].
  case_decide as E1; [by apply IH|]. case_decide as E2.
  - subst x. destruct out as [|y out]; [destruct r; apply IH|].
    + apply normal_plain. constructor.
    + cbn [rev app]. apply normal_up, normal_plain. constructor.
    + case_decide as E3; apply IH; cbn [rev] in *.
      * subst. by apply normal_up_snoc.
      * by eapply normal_init.
  - apply IH. cbn [rev]. apply normal_snoc; [done|]. split_and!; [tauto|tauto|done|done].
Qed.

(** *** Splitting at slashes *)

Lemma split_nonempty p sep : Strings.Split p sep <> [].
Proof. destruct p; cbn [Strings.Split]; repeat case_match; done. Qed.

Lemma split_noslash p : Forall (fun x => Strings.ContainsByte x "/" = false) (Strings.Split p "/").
Proof.
  induction p as [|c p IH]; cbn [Strings.Split]; [by repeat constructor|].
  case_decide as E; [by constructor|].
  pose proof (split_nonempty p "/"). destruct (Strings.Split p "/") as [|x l]; [done|].
  apply Forall_cons in IH as [Hx Hl]. constructor; [|done]. cbn [Strings.ContainsByte].
  rewrite Hx, orb_false_r. apply bool_decide_eq_false. congruence.
Qed.

Lemma split_sep a b : Strings.Split (a +:+ String.String "/" b) "/" = Strings.Split a "/" ++ Strings.Split b "/".
Proof.
  induction a as [|c a IH].
  - rewrite str_app_nil_l. cbn [Strings.Split]. by rewrite decide_True.
  - rewrite str_app_cons. cbn [Strings.Split]. case_decide; [by rewrite IH|].
    rewrite IH. pose proof (split_nonempty a "/").
    destruct (Strings.Split a "/") as [|x l]; done.
Qed.

Lemma slash_app s : "/" +:+ s = String.String "/" s.
Proof. done. Qed.

Lemma split_one x : Strings.ContainsByte x "/" = false -> Strings.Split x "/" = [x].
Proof.
  induction x as [|c x IH]; [done|]. cbn [Strings.ContainsByte Strings.Split].
  intros [Hc%bool_decide_eq_false Hx]%orb_false_iff. rewrite decide_False by congruence. by rewrite IH.
Qed.

Lemma split_join l : Forall (fun x => Strings.ContainsByte x "/" = false) l -> l <> [] ->
  Strings.Split (Strings.Join l "/") "/" = l.
Proof.
  induction 1 as [|x l Hx Hl IH]; [done|]. intros _. destruct l as [|y l].
  - by apply split_one.
  - change (Strings.Join (x :: y :: l) "/") with (x +:+ "/" +:+ Strings.Join (y :: l) "/").
    rewrite slash_app, split_sep, split_one by done. by rewrite IH.
Qed.

(** *** [Clean] *)

Lemma comps_normal p : normal (rooted p) (comps p).
Proof. apply clean_go_is_normal; [apply split_noslash|]. apply normal_plain. constructor. Qed.

Lemma normal_noslash r l : normal r l -> Forall (fun x => Strings.ContainsByte x "/" = false) l.
Proof.
  induction 1 as [r l Hl|l Hl IH]; [|by constructor].
  eapply Forall_impl; [exact Hl|]. by intros x (_ & _ & _ & ?).
Qed.

Lemma rooted_render r l : normal r l -> rooted (render r l) = r.
Proof.
  intros Hn. destruct r; cbn [render].
  { rewrite slash_app. unfold rooted, Strings.HasPrefix. cbn [String.prefix].
    destruct (ascii_dec "/" "/"); [by destruct (Strings.Join l "/")|done]. }
  case_decide as E; [done|]. destruct l as [|x l]; [done|].
  assert (x <> EmptyString /\ Strings.ContainsByte x "/" = false) as [Hne Hs].
  { inversion Hn as [r' l' Hl|l' Hl]; subst; [|done].
    by apply Forall_cons in Hl as [(? & _ & _ & ?) _]. }
  destruct x as [|c x]; [done|].
  cbn [Strings.ContainsByte] in Hs. apply orb_false_iff in Hs as [Hc%bool_decide_eq_false _].
  unfold rooted, Strings.HasPrefix. destruct l; cbn [Strings.Join];
    [|rewrite str_app_cons]; cbn [String.prefix]; (destruct (ascii_dec "/" c); [by subst|done]).
Qed.

Lemma comps_render r l : normal r l -> comps (render r l) = l.
Proof.
  intros Hn. unfold comps. rewrite rooted_render by done.
  pose proof (normal_noslash _ _ Hn) as Hs. destruct r; cbn [render].
  - rewrite slash_app, <- (str_app_nil_l (String.String "/" _)), split_sep.
    destruct l as [|x l]; [done|]. rewrite split_join by done. rewrite clean_go_app.
    by apply clean_go_normal.
  - case_decide as E; [by subst|]. rewrite split_join by done. by apply clean_go_normal.
Qed.

Lemma Clean_comps p : rooted (Clean p) = rooted p /\ comps (Clean p) = comps p.
Proof.
  rewrite Clean_render. pose proof (comps_normal p).
  split; [by apply rooted_render|by apply comps_render].
Qed.

Lemma Clean_idem p : Clean (Clean p) = Clean p.
Proof. rewrite (Clean_render (Clean p)). destruct (Clean_comps p) as [-> ->]. done. Qed.

Lemma clean_ext p q : Clean p = p -> Clean q = q -> rooted p = rooted q -> comps p = comps q -> p = q.
Proof. intros Hp Hq Hr Hc. rewrite <- Hp, <- Hq, !Clean_render. by rewrite Hr, Hc. Qed.

(** *** [Join] and [Dir] *)

Lemma rooted_app p q : p <> EmptyString -> rooted (p +:+ q) = rooted p.
Proof.
  destruct p as [|c p]; [done|]. intros _. unfold rooted, Strings.HasPrefix. rewrite str_app_cons.
  cbn [String.prefix]. destruct (ascii_dec "/" c); [|done]. by destruct p, q.
Qed.

Lemma Join_comps p x :
  p <> EmptyString ->
  rooted (Join [p; x]) = rooted p /\
  comps (Join [p; x]) = clean_go (rooted p) (rev (comps p)) (Strings.Split x "/").
Proof.
  intros Hp. cbn [Join Strings.Join]. rewrite decide_False by done.
  destruct (Clean_comps (p +:+ "/" +:+ x)) as [-> ->]. rewrite slash_app.
  unfold comps. rewrite rooted_app by done. split; [done|]. by rewrite split_sep, clean_go_app.
Qed.

(** A plain name is added as the last element. *)
Lemma Join_plain p x :
  p <> EmptyString -> plain x ->
  rooted (Join [p; x]) = rooted p /\ comps (Join [p; x]) = comps p ++ [x].
Proof.
  intros Hp Hx. destruct (Join_comps p x Hp) as [-> ->]. split; [done|].
  rewrite split_one by apply Hx. rewrite clean_go_plain by by apply Forall_singleton.
  by rewrite rev_involutive.
Qed.

Lemma Join_clean l : Clean (Join l) = Join l \/ Join l = EmptyString.
Proof.
  induction l as [|e l IH]; [by right|]. cbn [Join]. case_decide; [done|]. left. apply Clean_idem.
Qed.

Lemma dirPrefix_none p : Strings.ContainsByte p "/" = false -> dirPrefix p = EmptyString.
Proof.
  induction p as [|c p IH]; [done|]. cbn [Strings.ContainsByte].
  intros [Hc%bool_decide_eq_false E]%orb_false_iff. cbn [dirPrefix]. rewrite IH by done.
  by rewrite decide_False by congruence.
Qed.

Lemma dirPrefix_split p : Strings.ContainsByte p "/" = true ->
  exists parts last, Strings.Split p "/" = parts ++ [last] /\ parts <> [] /\
    Strings.Split (dirPrefix p) "/" = parts ++ [EmptyString] /\
    dirPrefix p <> EmptyString /\ rooted (dirPrefix p) = rooted p.
Proof.
  induction p as [|c p IH]; [done|]. cbn [Strings.ContainsByte]. intros H.
  destruct (Strings.ContainsByte p "/") eqn:E.
  - destruct (IH eq_refl) as (parts & last & E1 & Hne & E2 & Hd & Hr).
    cbn [dirPrefix Strings.Split]. destruct (dirPrefix p) as [|c' r] eqn:Ed; [done|].
    destruct (decide (c = "/"%char)) as [->|Hc].
    + exists (EmptyString :: parts), last. rewrite E1. split_and!; try done.
      * cbn [Strings.Split]. rewrite (decide_True (P := "/"%char = "/"%char)) by done.
        change (EmptyString :: Strings.Split (String.String c' r) "/" = EmptyString :: parts ++ [EmptyString]).
        by rewrite E2.
      * unfold rooted, Strings.HasPrefix. cbn [String.prefix]. destruct (ascii_dec "/" "/"); [|done].
        by destruct p.
    + rewrite E1. destruct parts as [|x parts]; [done|]. cbn [app].
      exists (String.String c x :: parts), last. split_and!; try done.
      * change (Strings.Split (String.String c (String.String c' r)) "/")
          with (if decide (c = "/"%char) then EmptyString :: Strings.Split (String.String c' r) "/"
                else match Strings.Split (String.String c' r) "/" with
                     | [] => [String.String c EmptyString] | y :: l => String.String c y :: l end).
        rewrite decide_False by done. by rewrite E2.
      * unfold rooted, Strings.HasPrefix. cbn [String.prefix].
        destruct (ascii_dec "/" c); [by subst|done].
  - rewrite orb_false_r in H. apply bool_decide_eq_true in H as <-.
    exists [EmptyString], p. cbn [dirPrefix Strings.Split]. rewrite decide_True by done.
    rewrite dirPrefix_none by done.
    rewrite decide_True by done. rewrite split_one by done. split_and!; try done.
    unfold rooted, Strings.HasPrefix. cbn [String.prefix]. destruct (ascii_dec "/" "/"); [|done].
    by destruct p.
Qed.

Lemma split_render r l x : normal r (l ++ [x]) ->
  Strings.Split (render r (l ++ [x])) "/" = (if r then EmptyString :: l else l) ++ [x].
Proof.
  intros Hn. pose proof (normal_noslash _ _ Hn) as Hs.
  assert (l ++ [x] <> []) as Hne by by destruct l.
  destruct r; cbn [render].
  - rewrite slash_app, <- (str_app_nil_l (String.String "/" _)), split_sep, split_join by done. done.
  - rewrite decide_False by done. by rewrite split_join.
Qed.

(** The parent of a clean path that ends with [x]. *)
Lemma Dir_comps p l x : Clean p = p -> comps p = l ++ [x] ->
  rooted (Dir p) = rooted p /\ comps (Dir p) = l.
Proof.
  intros Hp Hc. pose proof (comps_normal p) as Hn. rewrite Hc in Hn.
  assert (Strings.Split p "/" = (if rooted p then EmptyString :: l else l) ++ [x]) as Hs.
  { rewrite <- Hp at 1. rewrite Clean_render, Hc. by apply split_render. }
  unfold Dir. destruct (Clean_comps (dirPrefix p)) as [-> ->].
  assert (clean_go (rooted p) [] ((if rooted p then EmptyString :: l else l) ++ [EmptyString]) = l) as Hl.
  { rewrite clean_go_app. cbn [clean_go]. rewrite decide_True by auto. rewrite rev_involutive.
    apply normal_init in Hn. destruct (rooted p); cbn [clean_go]; [rewrite decide_True by auto|];
      by apply clean_go_normal. }
  destruct (Strings.ContainsByte p "/") eqn:E.
  - destruct (dirPrefix_split p E) as (parts & last & E1 & Hne & E2 & Hd & Hr).
    rewrite Hr. split; [done|]. unfold comps. rewrite Hr, E2.
    rewrite Hs in E1. apply app_inj_tail in E1 as [<- _]. done.
  - rewrite split_one in Hs by done.
    rewrite dirPrefix_none by done.
    destruct (rooted p); [by destruct l|]. destruct l; [done|by destruct l].
Qed.

Lemma Dir_clean p : Clean (Dir p) = Dir p.
Proof. apply Clean_idem. Qed.

(** The parent of [d/x] is [d]. *)
Lemma Dir_Join d x : Clean d = d -> d <> EmptyString -> plain x -> Dir (Join [d; x]) = d.
Proof.
  intros Hd Hne Hx. destruct (Join_plain d x Hne Hx) as [Hr Hc].
  assert (Clean (Join [d; x]) = Join [d; x]) as Hj.
  { cbn [Join]. rewrite decide_False by done. apply Clean_idem. }
  destruct (Dir_comps _ _ _ Hj Hc) as [Hr' Hc'].
  apply clean_ext; [apply Dir_clean|done|by rewrite Hr'|done].
Qed.

(** *** [Rel] below the base *)

Lemma stripCommon_app a b t : stripCommon a (a ++ t) = ([], t) /\ stripCommon (a ++ b) a = (b, []).
Proof.
  split.
  - induction a as [|x a IH]; [by destruct t|]. cbn. by rewrite decide_True.
  - induction a as [|x a IH]; [by destruct b|]. cbn [app stripCommon]. by rewrite decide_True.
Qed.

Lemma Join_nonempty l : Forall (fun x => x <> EmptyString) l -> l <> [] -> Strings.Join l "/" <> EmptyString.
Proof.
  destruct 1 as [|x l Hx Hl]; [done|]. intros _. destruct l; cbn [Strings.Join]; [done|].
  destruct x; [done|]. by rewrite str_app_cons.
Qed.

Lemma normal_elems_nonempty r l : normal r l -> Forall (fun x => x <> EmptyString) l.
Proof.
  induction 1 as [r l Hl|l Hl IH]; [|by constructor]. eapply Forall_impl; [exact Hl|]. by intros x [].
Qed.

Lemma relElems_Join l : Forall (fun x => Strings.ContainsByte x "/" = false) l ->
  Forall (fun x => x <> EmptyString) l -> relElems (Strings.Join l "/") = l.
Proof.
  intros Hs Hne. unfold relElems. destruct l as [|x l]; [done|].
  rewrite decide_False by by apply Join_nonempty. by apply split_join.
Qed.

(** The elements [Rel] sees of a clean path are its elements. *)
Lemma relTail_render r l : normal r l -> (r = true \/ l <> []) -> relTail (render r l) = l.
Proof.
  intros Hn Hne. unfold relTail, IsAbs.
  change (Strings.HasPrefix (render r l) "/") with (rooted (render r l)). rewrite rooted_render by done.
  pose proof (normal_noslash _ _ Hn). pose proof (normal_elems_nonempty _ _ Hn).
  destruct r; cbn [render].
  - assert (Strings.TrimPrefix ("/" +:+ Strings.Join l "/") "/" = Strings.Join l "/") as ->
      by (unfold Strings.TrimPrefix; change (Strings.HasPrefix ("/" +:+ Strings.Join l "/") "/") with (rooted (render true l)); by rewrite rooted_render).
    by apply relElems_Join.
  - destruct Hne as [|Hne]; [done|]. rewrite decide_False by done. by apply relElems_Join.
Qed.

(** Several plain names are added one after the other. *)
Lemma Join_plains p xs : p <> EmptyString -> Forall plain xs -> xs <> [] ->
  rooted (Join (p :: xs)) = rooted p /\ comps (Join (p :: xs)) = comps p ++ xs /\
  Clean (Join (p :: xs)) = Join (p :: xs).
Proof.
  intros Hp Hx Hne. cbn [Join]. rewrite decide_False by done.
  assert (Strings.Join (p :: xs) "/" = p +:+ String.String "/" (Strings.Join xs "/")) as ->
    by by destruct xs.
  destruct (Clean_comps (p +:+ String.String "/" (Strings.Join xs "/"))) as [-> ->].
  unfold comps. rewrite rooted_app by done. split_and!; [done| |apply Clean_idem].
  rewrite split_sep, clean_go_app, split_join; [|eapply Forall_impl; [exact Hx|]; by intros x (_ & _ & _ & ?)|done].
  by rewrite clean_go_plain, rev_involutive.
Qed.

(** *** [Base] *)

Lemma TrimRight_noslash x : x <> EmptyString -> Strings.ContainsByte x "/" = false ->
  Strings.TrimRight x ["/"%char] = x.
Proof.
  induction x as [|c x IH]; [done|]. intros _. cbn [Strings.ContainsByte Strings.TrimRight].
  intros [Hc%bool_decide_eq_false Hx]%orb_false_iff. destruct x as [|d x].
  - cbn [Strings.TrimRight]. rewrite decide_False; [done|]. intros [_ H%list_elem_of_singleton]. congruence.
  - rewrite IH by done. rewrite decide_False; [done|]. by intros [? _].
Qed.

Lemma TrimRight_app a x : x <> EmptyString -> Strings.ContainsByte x "/" = false ->
  Strings.TrimRight (a +:+ x) ["/"%char] = a +:+ x.
Proof.
  intros Hx Hs. induction a as [|c a IH]; [by apply TrimRight_noslash|].
  rewrite str_app_cons. cbn [Strings.TrimRight]. rewrite IH. rewrite decide_False; [done|].
  intros [E _]. by apply str_app_nil_inv in E as [_ ?].
Qed.

Lemma Base_comps p l x : Clean p = p -> comps p = l ++ [x] -> Base p = x.
Proof.
  intros Hp Hc. pose proof (comps_normal p) as Hn. rewrite Hc in Hn.
  assert (x <> EmptyString /\ Strings.ContainsByte x "/" = false) as [Hx Hs].
  { pose proof (normal_noslash _ _ Hn) as H1. pose proof (normal_elems_nonempty _ _ Hn) as H2.
    apply Forall_app in H1 as [_ H1], H2 as [_ H2]. apply Forall_cons in H1 as [? _], H2 as [? _]. done. }
  assert (Strings.Split p "/" = (if rooted p then EmptyString :: l else l) ++ [x]) as Hsp.
  { rewrite <- Hp at 1. rewrite Clean_render, Hc. by apply split_render. }
  assert (exists a, p = a +:+ x) as [a Ha].
  { rewrite <- Hp, Clean_render, Hc. unfold render. rewrite (decide_False (P := l ++ [x] = [])) by by destruct l.
    destruct (decide (l = [])) as [->|Hl].
    - destruct (rooted p); [by exists "/"%string|by exists EmptyString].
    - rewrite Strings.Join_snoc by done.
      destruct (rooted p); [exists ("/" +:+ Strings.Join l "/" +:+ "/")|exists (Strings.Join l "/" +:+ "/")];
        by rewrite !str_app_assoc. }
  unfold Base. rewrite decide_False; [|rewrite Ha; by intros [_ ?]%str_app_nil_inv].
  assert (Strings.TrimRight p ["/"%char] = p) as -> by (rewrite Ha; by apply TrimRight_app).
  rewrite Hsp, last_snoc. cbn [default from_option id].
  by rewrite decide_False.
Qed.
