(* ===== verification/GoDisk.v ===== *)
(** * Go standard library: files, and base64

    [Disk] is the part of the file system a program keeps its own files in:
    contents by directory and name, and the directories it has made.  The operations are
    those of package os; each may fail ([fault]), and a failed write may leave
    any part of a file behind.  A program that stops dead is one all of whose
    later operations fail without effect. *)

From S2P Require Import Prelude GoStd GoText GoPath.
From stdpp Require Import sorting list_numbers.
Open Scope Z_scope.

Import filepath.

(** ** Files *)

Module os.

Record Disk := mkDisk {
  files : gmap (string * string) string;
  dirs : gset string;
  ops : nat;              (** operations so far *)
}.
#[export] Instance eta_Disk : Eta Disk := fun r => mkDisk (files r) (dirs r) (ops r).

Inductive Op :=
| OpMkdirAll (path : string)
| OpReadDir (path : string)
| OpReadFile (path : string)
| OpWriteFile (path data : string)
| OpRename (from to : string)
| OpRemove (path : string)
| OpRemoveAll (path : string).

(** An error value: is it [os.ErrNotExist], and its text. *)
Record Error := mkError { IsNotExist : bool; Error_text : string }.

(** How an operation fails: the error, and for a write what the file holds
    then, if it was opened at all. *)
Record Fault := mkFault { Fault_err : string; Fault_torn : option string }.

(** The faults of a run: by the number of the operation. *)
Definition Faults : Type := nat -> Op -> option Fault.
Definition faultless : Faults := fun _ _ => None.

Definition IO (A : Type) : Type := Disk -> A * Disk.
#[export] Instance IO_ret : MRet IO := fun A x d => (x, d).
#[export] Instance IO_bind : MBind IO := fun A B f m d => let '(x, d) := m d in f x d.

Section ops.
Context (fault : Faults).

(** The directory and the name a path leads to. *)
Definition locate (path : string) : string * string := (Dir path, Base path).

Definition missing (path : string) : Error := mkError true (path +:+ ": no such file or directory").
Definition failed (f : Fault) : Error := mkError false (Fault_err f).
Definition tick (d : Disk) : Disk := d <| ops := S (ops d) |>.

(** An operation: what it does unless it fails. *)
Definition perform {A} (o : Op) (run : Disk -> (A + Error) * Disk) : IO (A + Error) := fun d =>
  match fault (ops d) o with
  | Some f => (inr (failed f), tick d)
  | None => let '(r, d') := run d in (r, tick d')
  end.

Definition MkdirAll (path : string) : IO (unit + Error) :=
  perform (OpMkdirAll path) (fun d => (inl tt, d <| dirs := {[Clean path]} ∪ dirs d |>)).

(** The files directly in a directory, by name. *)
Definition nameLe (a b : string) : Prop := String.leb a b = true.
#[export] Instance nameLe_dec a b : Decision (nameLe a b).
Proof. unfold nameLe. apply _. Defined.
Definition entries (d : Disk) (path : string) : list string :=
  merge_sort nameLe
    (map snd (filter (fun k => k.1 = path) (map fst (map_to_list (files d))))).
Definition ReadDir (path : string) : IO (list string + Error) :=
  perform (OpReadDir path) (fun d =>
    (if decide (Clean path ∈ dirs d) then inl (entries d (Clean path)) else inr (missing path), d)).

Definition ReadFile (path : string) : IO (string + Error) :=
  perform (OpReadFile path) (fun d =>
    (match files d !! locate path with Some data => inl data | None => inr (missing path) end, d)).

(** Truncates the file, then writes. *)
Definition WriteFile (path data : string) : IO (unit + Error) := fun d =>
  match fault (ops d) (OpWriteFile path data) with
  | Some f =>
    (inr (failed f), tick match Fault_torn f with
                          | Some torn => d <| files := <[locate path := torn]> (files d) |>
                          | None => d
                          end)
  | None =>
    if decide (Dir path ∈ dirs d) then (inl tt, tick (d <| files := <[locate path := data]> (files d) |>))
    else (inr (missing path), tick d)
  end.

Definition Rename (from to : string) : IO (unit + Error) :=
  perform (OpRename from to) (fun d =>
    match files d !! locate from with
    | Some data => (inl tt, d <| files := <[locate to := data]> (delete (locate from) (files d)) |>)
    | None => (inr (missing from), d)
    end).

Definition Remove (path : string) : IO (unit + Error) :=
  perform (OpRemove path) (fun d =>
    match files d !! locate path with
    | Some _ => (inl tt, d <| files := delete (locate path) (files d) |>)
    | None => (inr (missing path), d)
    end).

(** Is [p] the directory [path] or one below it? *)
Definition below (path p : string) : Prop := p = path \/ Strings.HasPrefix p (path +:+ "/") = true.
#[export] Instance below_dec path p : Decision (below path p).
Proof. unfold below. apply _. Defined.
Definition RemoveAll (path : string) : IO (unit + Error) :=
  perform (OpRemoveAll path) (fun d =>
    (inl tt, d <| files := filter (fun kv => ~ below (Clean path) kv.1.1 /\ kv.1 <> locate path) (files d) |>
               <| dirs := filter (fun p => ~ below (Clean path) p) (dirs d) |>)).
End ops.
End os.

(** ** Paths in a directory *)

Lemma Join_prefix d : d <> EmptyString -> exists a, forall x, plain x -> Join [d; x] = a +:+ x.
Proof.
  intros Hd. exists (match comps d with
    | [] => if rooted d then "/"%string else EmptyString
    | l => (if rooted d then "/"%string else EmptyString) +:+ Strings.Join l "/" +:+ "/"
    end). intros x Hx. destruct (Join_plain d x Hd Hx) as [Hr Hc].
  assert (Clean (Join [d; x]) = Join [d; x]) as <-
    by (cbn [Join]; rewrite decide_False by done; apply Clean_idem).
  rewrite Clean_render, Hr, Hc. unfold render. rewrite decide_False by (by destruct (comps d)).
  destruct (comps d) as [|c l]; [by destruct (rooted d)|].
  rewrite (Strings.Join_snoc (c :: l)) by done. destruct (rooted d); by rewrite !str_app_assoc.
Qed.

Lemma Join_suffix d x y : d <> EmptyString -> plain x -> plain (x +:+ y) ->
  Join [d; x] +:+ y = Join [d; x +:+ y].
Proof. intros Hd Hx Hxy. destruct (Join_prefix d Hd) as [a Ha]. by rewrite !Ha, str_app_assoc. Qed.

Lemma Join_inj d x y : d <> EmptyString -> plain x -> plain y -> Join [d; x] = Join [d; y] -> x = y.
Proof.
  intros Hd Hx Hy E. destruct (Join_plain d x Hd Hx) as [_ E1]. destruct (Join_plain d y Hd Hy) as [_ E2].
  rewrite E, E2 in E1. by apply app_inj_tail in E1 as [_ ->].
Qed.

Lemma Base_Join d x : d <> EmptyString -> plain x -> Base (Join [d; x]) = x.
Proof.
  intros Hd Hx. eapply Base_comps; [|by apply Join_plain].
  cbn [Join]. rewrite decide_False by done. apply Clean_idem.
Qed.

Lemma locate_Join d x : Clean d = d -> d <> EmptyString -> plain x -> os.locate (Join [d; x]) = (d, x).
Proof. intros. unfold os.locate. by rewrite Dir_Join, Base_Join. Qed.

(** ** base64.StdEncoding *)

Module base64.
Definition alphabet (n : Z) : ascii :=
  utf8.chr (if n <? 26 then 65 + n else if n <? 52 then 71 + n else if n <? 62 then n - 4
            else if n =? 62 then 43 else 47).
Definition value (c : ascii) : option Z :=
  let b := utf8.byte c in
  if utf8.between 65 90 b then Some (b - 65)
  else if utf8.between 97 122 b then Some (b - 71)
  else if utf8.between 48 57 b then Some (b + 4)
  else if b =? 43 then Some 62 else if b =? 47 then Some 63 else None.
Definition pad : ascii := "=".

Fixpoint Encode (s : string) : string :=
  match s with
  | EmptyString => EmptyString
  | String.String a EmptyString =>
    let n := utf8.byte a * 16 in
    String.String (alphabet (n / 64)) (String.String (alphabet (n mod 64))
      (String.String pad (String.String pad EmptyString)))
  | String.String a (String.String b EmptyString) =>
    let n := (utf8.byte a * 256 + utf8.byte b) * 4 in
    String.String (alphabet (n / 4096)) (String.String (alphabet (n / 64 mod 64))
      (String.String (alphabet (n mod 64)) (String.String pad EmptyString)))
  | String.String a (String.String b (String.String c s)) =>
    let n := (utf8.byte a * 256 + utf8.byte b) * 256 + utf8.byte c in
    String.String (alphabet (n / 262144)) (String.String (alphabet (n / 4096 mod 64))
      (String.String (alphabet (n / 64 mod 64)) (String.String (alphabet (n mod 64)) (Encode s))))
  end.

(** Line breaks do not count. *)
Fixpoint unbroken (s : string) : string :=
  match s with
  | EmptyString => EmptyString
  | String.String c s =>
    if (utf8.byte c =? 10) || (utf8.byte c =? 13) then unbroken s else String.String c (unbroken s)
  end.

(** Groups of four; only the last may be padded.  The bits a padded group
    does not use are not looked at. *)
Fixpoint groups (s : string) : option string :=
  match s with
  | EmptyString => Some EmptyString
  | String.String w (String.String x (String.String y (String.String z s))) =>
    w ← value w; x ← value x;
    if Ascii.eqb y pad then
      if Ascii.eqb z pad && String.eqb s EmptyString
      then Some (String.String (utf8.chr ((w * 64 + x) / 16)) EmptyString) else None
    else
      y ← value y;
      let n := (w * 64 + x) * 64 + y in
      if Ascii.eqb z pad then
        if String.eqb s EmptyString
        then Some (String.String (utf8.chr (n / 1024)) (String.String (utf8.chr (n / 4 mod 256)) EmptyString))
        else None
      else
        z ← value z;
        let n := n * 64 + z in
        rest ← groups s;
        Some (String.String (utf8.chr (n / 65536)) (String.String (utf8.chr (n / 256 mod 256))
          (String.String (utf8.chr (n mod 256)) rest)))
  | _ => None
  end.
Definition Decode (s : string) : option string := groups (unbroken s).

(** *** Round trip *)

Definition digit_ok (n : Z) : bool :=
  bool_decide (value (alphabet n) = Some n) && negb (Ascii.eqb (alphabet n) pad)
  && negb ((utf8.byte (alphabet n) =? 10) || (utf8.byte (alphabet n) =? 13)).

Lemma digit_table : forallb digit_ok (seqZ 0 64) = true.
Proof. vm_compute. reflexivity. Qed.

Lemma alphabet_read n : 0 <= n < 64 ->
  value (alphabet n) = Some n /\ Ascii.eqb (alphabet n) pad = false /\
  forall s, unbroken (String.String (alphabet n) s) = String.String (alphabet n) (unbroken s).
Proof.
  intros Hn. pose proof digit_table as T. rewrite forallb_forall in T.
  specialize (T n ltac:(apply list_elem_of_In, elem_of_seqZ; lia)). unfold digit_ok in T.
  apply andb_true_iff in T as [[H1%bool_decide_eq_true H2%negb_true_iff]%andb_true_iff H3%negb_true_iff].
  split_and!; [done..|]. intros s. cbn [unbroken]. by rewrite H3.
Qed.

Ltac digits := repeat match goal with
  | |- context [unbroken (String.String (alphabet ?n) _)] =>
      rewrite (proj2 (proj2 (alphabet_read n ltac:(Z.to_euclidean_division_equations; lia))))
  end; cbn [groups];
  repeat (match goal with
  | |- context [value (alphabet ?n)] =>
      rewrite (proj1 (alphabet_read n ltac:(Z.to_euclidean_division_equations; lia)))
  | |- context [Ascii.eqb (alphabet ?n) pad] =>
      rewrite (proj1 (proj2 (alphabet_read n ltac:(Z.to_euclidean_division_equations; lia))))
  end; cbn [mbind option_bind]).
Lemma chr_is c z : z = utf8.byte c -> utf8.chr z = c.
Proof. intros ->. unfold utf8.chr, utf8.byte. by rewrite N2Z.id, ascii_N_embedding. Qed.

Lemma Decode_Encode s : Decode (Encode s) = Some s.
Proof.
  unfold Decode. induction s as [s IH] using (induction_ltof1 _ String.length). unfold ltof in IH.
  destruct s as [|a [|b [|c s]]]; [done|..]; cbn [Encode]; cbv zeta;
    pose proof (utf8.byte_range a); try pose proof (utf8.byte_range b); try pose proof (utf8.byte_range c).
  - digits. cbn [andb String.eqb Ascii.eqb]. change (unbroken _) with "=="%string. cbn.
    do 2 f_equal. apply chr_is. Z.to_euclidean_division_equations; lia.
  - digits. change (unbroken _) with "="%string. cbn [Ascii.eqb pad eqb String.eqb].
    do 2 f_equal; [|f_equal]; apply chr_is; Z.to_euclidean_division_equations; lia.
  - digits. rewrite IH by (simpl; lia). cbn [mbind option_bind].
    do 2 f_equal; [|f_equal; [|f_equal]]; apply chr_is; Z.to_euclidean_division_equations; lia.
Qed.
End base64.

(** ** crypto/sha256 *)

Module sha256.
Definition w32 (x : Z) : Z := Z.land x 0xffffffff.
Definition rotr (x n : Z) : Z := w32 (Z.lor (Z.shiftr x n) (Z.shiftl x (32 - n))).

(** The constants: 32 bits after the binary point of the cube roots of the
    first 64 primes, and of the square roots of the first eight. *)
Definition prime (n : Z) : bool := forallb (fun d => negb (n mod d =? 0)) (seqZ 2 (n - 2)).
Definition primes : list Z := List.filter prime (seqZ 2 310).

(** The largest [r] below [2 ^ n] whose cube is at most [x], bit by bit. *)
Fixpoint cubeRoot (n : nat) (r x : Z) : Z :=
  match n with
  | O => r
  | S n => let r' := r + 2 ^ Z.of_nat n in cubeRoot n (if r' ^ 3 <=? x then r' else r) x
  end.

Definition K : list Z := Eval vm_compute in map (fun p => w32 (cubeRoot 36 0 (p * 2 ^ 96))) primes.
Definition H0 : list Z := Eval vm_compute in map (fun p => w32 (Z.sqrt (p * 2 ^ 64))) (take 8 primes).

Fixpoint be (n : nat) (x : Z) : list Z :=
  match n with O => [] | S n => Z.land (Z.shiftr x (8 * Z.of_nat n)) 255 :: be n x end.

Definition padded (s : list Z) : list Z :=
  let len := Z.of_nat (length s) in
  s ++ 128 :: replicate (Z.to_nat ((55 - len) mod 64)) 0 ++ be 8 (8 * len).

Fixpoint words (l : list Z) : list Z :=
  match l with
  | a :: b :: c :: d :: l => Z.lor (Z.shiftl a 24) (Z.lor (Z.shiftl b 16) (Z.lor (Z.shiftl c 8) d)) :: words l
  | _ => []
  end.

(** The message schedule, latest word first. *)
Fixpoint schedule (n : nat) (l : list Z) : list Z :=
  match n with
  | O => l
  | S n =>
    let at_ i := nth i l 0 in
    let s0 := Z.lxor (rotr (at_ 14%nat) 7) (Z.lxor (rotr (at_ 14%nat) 18) (Z.shiftr (at_ 14%nat) 3)) in
    let s1 := Z.lxor (rotr (at_ 1%nat) 17) (Z.lxor (rotr (at_ 1%nat) 19) (Z.shiftr (at_ 1%nat) 10)) in
    schedule n (w32 (at_ 15%nat + s0 + at_ 6%nat + s1) :: l)
  end.

Definition round (st : list Z) (kw : Z * Z) : list Z :=
  match st with
  | [a; b; c; d; e; f; g; h] =>
    let S1 := Z.lxor (rotr e 6) (Z.lxor (rotr e 11) (rotr e 25)) in
    let ch := Z.lxor (Z.land e f) (Z.land (Z.lxor e 0xffffffff) g) in
    let t1 := w32 (h + S1 + ch + kw.1 + kw.2) in
    let S0 := Z.lxor (rotr a 2) (Z.lxor (rotr a 13) (rotr a 22)) in
    let maj := Z.lxor (Z.land a b) (Z.lxor (Z.land a c) (Z.land b c)) in
    [w32 (t1 + w32 (S0 + maj)); a; b; c; w32 (d + t1); e; f; g]
  | _ => st
  end.

Definition block (h : list Z) (ws : list Z) : list Z :=
  zip_with (fun x y => w32 (x + y)) h
    (fold_left round (zip K (reverse (schedule 48 (reverse ws)))) h).

Fixpoint blocks (n : nat) (ws : list Z) (h : list Z) : list Z :=
  match n with O => h | S n => blocks n (drop 16 ws) (block h (take 16 ws)) end.

Definition bytesOf (s : string) : list Z := map utf8.byte (String.list_ascii_of_string s).

Definition Sum256 (s : string) : list Z :=
  let ws := words (padded (bytesOf s)) in
  blocks (length ws / 16) ws H0 ≫= be 4.

Definition hexDigit (n : Z) : ascii := utf8.chr (if n <? 10 then 48 + n else 87 + n).
(** [%x]. *)
Definition hex (l : list Z) : string :=
  String.string_of_list_ascii (l ≫= fun b => [hexDigit (Z.shiftr b 4); hexDigit (Z.land b 15)]).

Lemma Sum256_abc :
  hex (Sum256 "abc") = "ba7816bf8f01cfea414140de5dae2223b00361a396177a9cb410ff61f20015ad"%string.
Proof. by vm_compute. Qed.
Lemma Sum256_two_blocks :
  hex (Sum256 "abcdbcdecdefdefgefghfghighijhijkijkljklmklmnlmnomnopnopq")
  = "248d6a61d20638b8e5c026930c3e6039a33ce45964ff2167f6ecedd419db06c1"%string.
Proof. by vm_compute. Qed.
End sha256.
