(* ===== verification/GoIO.v ===== *)
(** * Go standard library: line scanning, map iteration, fixed-point floats

    [bufio.Scanner] with [ScanLines] over a file read to its end, [range] over
    a map, and [fmt.Sprintf] of a quotient with one decimal. *)

From S2P Require Import Prelude GoStd GoText.
From stdpp Require Import pretty.
Open Scope Z_scope.

(** ** bufio.Scanner *)

Module bufio.

(** [dropCR]. *)
Definition dropCR (s : string) : string := Strings.TrimSuffix s (String.String "013"%char EmptyString).

Definition len (s : string) : Z := Z.of_nat (String.length s).

(** What a scanner whose buffer may grow to [max] makes of the pieces between
    newlines: its tokens, the number of bytes it has read when it stops, and
    whether it stopped at a line too long for the buffer.  The last piece has
    no newline and is a token unless it is empty. *)
Fixpoint scanPieces (max : Z) (pieces : list string) : list string * Z * bool :=
  match pieces with
  | [] => ([], 0, false)
  | p :: rest =>
    match rest with
    | [] =>
      if decide (p = EmptyString) then ([], 0, false)
      else if len p <? max then ([dropCR p], len p, false) else ([], max, true)
    | _ :: _ =>
      if len p <? max then
        let '(ts, n, tooLong) := scanPieces max rest in (dropCR p :: ts, len p + 1 + n, tooLong)
      else ([], max, true)
    end
  end.

Definition newline : ascii := "010"%char.

Definition scan (max : Z) (data : string) : list string * Z * bool :=
  scanPieces max (Strings.Split data newline).

(** Complete lines, each with its newline. *)
Fixpoint unlines (lines : list string) : string :=
  match lines with
  | [] => EmptyString
  | l :: lines => l +:+ String.String newline (unlines lines)
  end.

(** A line that fits the buffer. *)
Definition fits (max : Z) (line : string) : Prop :=
  Strings.ContainsByte line newline = false /\ len line < max.

Lemma split_newline line rest :
  Strings.ContainsByte line newline = false ->
  Strings.Split (line +:+ String.String newline rest) newline
    = line :: Strings.Split rest newline.
Proof.
  induction line as [|c line IH]; cbn [Strings.ContainsByte].
  - intros _. rewrite str_app_nil_l. cbn [Strings.Split].
    by rewrite decide_True by done.
  - intros H. rewrite str_app_cons. cbn [Strings.Split].
    apply orb_false_iff in H as [E%bool_decide_eq_false H]. rewrite (IH H).
    by rewrite decide_False by congruence.
Qed.

Lemma split_unlines lines rest :
  Forall (fun l => Strings.ContainsByte l newline = false) lines ->
  Strings.Split (unlines lines +:+ rest) newline = lines ++ Strings.Split rest newline.
Proof.
  induction 1 as [|l lines Hl _ IH]; [done|]. cbn [unlines app].
  rewrite str_app_assoc, str_app_cons, split_newline by done. by rewrite IH.
Qed.

Lemma len_app a b : len (a +:+ b) = len a + len b.
Proof. unfold len. rewrite str_length_app. lia. Qed.

(** Complete lines that fit are its tokens, and it reads them all. *)
Lemma scan_lines max lines :
  Forall (fits max) lines ->
  scan max (unlines lines) = (map dropCR lines, len (unlines lines), false).
Proof.
  intros H. unfold scan.
  assert (Forall (fun l => Strings.ContainsByte l newline = false) lines) as Hn
    by (eapply Forall_impl; [exact H|]; by intros ? []).
  rewrite <- (str_app_nil_r (unlines lines)), split_unlines by done. rewrite str_app_nil_r.
  clear Hn. induction H as [|l lines [_ Hl] H IH]; [done|].
  cbn [app map unlines].
  assert (exists p ps, lines ++ Strings.Split EmptyString newline = p :: ps) as (p & ps & E)
    by (destruct lines; simpl; eauto).
  rewrite E in *. cbn [scanPieces] in IH |- *. rewrite IH.
  apply Z.ltb_lt in Hl as ->. rewrite len_app. do 2 f_equal. unfold len. cbn [String.length]. lia.
Qed.
End bufio.

(** ** range over a map

    The order is not specified: [mapRange] is some enumeration. *)

Class MapRange := {
  mapRange : forall {K : Type} `{Countable K} {V : Type}, gmap K V -> list (K * V);
  mapRange_perm : forall {K} `{Countable K} {V} (m : gmap K V), mapRange m ≡ₚ map_to_list m;
}.

(** ** Floats *)

Module float.
(** [num / den] to the nearest integer, ties to even. *)
Definition roundHalfEven (num den : Z) : Z :=
  let q := num / den in
  let r := num mod den in
  if 2 * r <? den then q else if den <? 2 * r then q + 1 else if Z.even q then q else q + 1.

(** The float64 nearest to the positive rational [num / den] as mantissa and
    binary exponent; subnormals do not arise from the integers divided here. *)
Definition nearest (num den : Z) : Z * Z :=
  let k := Z.log2 num - Z.log2 den - 53 in
  let scaled (e : Z) := if e <? 0 then (num * 2 ^ (- e), den) else (num, den * 2 ^ e) in
  let e := let '(a, b) := scaled (k + 1) in if 2 ^ 52 <=? a / b then k + 1 else k in
  let '(a, b) := scaled e in (roundHalfEven a b, e).

(** [fmt.Sprintf("%.1f", float64(n)/float64(d))] for positive [n] and [d]. *)
Definition sprintf1 (n d : Z) : string :=
  let '(mn, en) := nearest n 1 in
  let n := if en <? 0 then mn / 2 ^ (- en) else mn * 2 ^ en in
  let '(m, e) := nearest n d in
  let tenths := if e <? 0 then roundHalfEven (m * 10) (2 ^ (- e)) else m * 2 ^ e * 10 in
  strconv.Itoa (tenths / 10) +:+ "." +:+ strconv.Itoa (tenths mod 10).
End float.

(** * Calls to the surroundings

    Code that talks to the operating system is a computation that makes calls
    of a type [C] and gets replies of a type [R].  A [World] answers each call,
    and may take everything called before into account; the history of calls
    is part of the result, so that theorems can speak about what was done. *)


Section calls.
Context {C R : Type}.

Definition History : Type := list C.
Definition World : Type := History -> C -> R.
Definition Eff (A : Type) : Type := World -> History -> A * History.

#[export] Instance Eff_ret : MRet Eff := fun A x w h => (x, h).
#[export] Instance Eff_bind : MBind Eff := fun A B f m w h => let '(x, h) := m w h in f x w h.
Definition call (c : C) : Eff R := fun w h => (w h c, h ++ [c]).

Lemma Eff_assoc {A B E} (m : Eff A) (f : A -> Eff B) (g : B -> Eff E) w h :
  ((m ≫= f) ≫= g) w h = (m ≫= (fun x => f x ≫= g)) w h.
Proof. unfold mbind, Eff_bind. by destruct (m w h). Qed.

(** [m] makes only calls that satisfy [P]. *)
Definition only {A} (P : C -> Prop) (m : Eff A) : Prop :=
  forall w h, exists calls, (m w h).2 = h ++ calls /\ Forall P calls.

Lemma only_ret {A} P (x : A) : only P (mret x).
Proof. intros w h. exists []. split; [by rewrite app_nil_r|constructor]. Qed.

Lemma only_bind {A B} P (m : Eff A) (f : A -> Eff B) :
  only P m -> (forall x, only P (f x)) -> only P (m ≫= f).
Proof.
  intros Hm Hf w h. unfold mbind, Eff_bind. destruct (Hm w h) as (c1 & E1 & H1).
  destruct (m w h) as [x h']. cbn [snd] in E1. subst h'.
  destruct (Hf x w (h ++ c1)) as (c2 & E2 & H2). exists (c1 ++ c2).
  split; [by rewrite E2, app_assoc|by apply Forall_app].
Qed.

Lemma only_call (P : C -> Prop) c : P c -> only P (call c).
Proof. intros Hc w h. exists [c]. split; [done|by apply Forall_singleton]. Qed.

(** What [m] returns in the world [w] satisfies [P]. *)
Definition yields {A} (w : World) (P : A -> Prop) (m : Eff A) : Prop := forall h, P (m w h).1.

Lemma yields_ret {A} w (P : A -> Prop) x : P x -> yields w P (mret x).
Proof. intros H h. exact H. Qed.

Lemma yields_bind {A B} w (P : A -> Prop) (Q : B -> Prop) (m : Eff A) (f : A -> Eff B) :
  yields w P m -> (forall x, P x -> yields w Q (f x)) -> yields w Q (m ≫= f).
Proof.
  intros Hm Hf h. unfold mbind, Eff_bind. specialize (Hm h). destruct (m w h) as [x h'].
  by apply Hf.
Qed.

Lemma yields_call w (P : R -> Prop) c : (forall h, P (w h c)) -> yields w P (call c).
Proof. intros H h. apply H. Qed.

Lemma yields_any {A} w (m : Eff A) : yields w (fun _ => True) m.
Proof. by intros h. Qed.
End calls.
Arguments History : clear implicits.
Arguments World : clear implicits.
Arguments Eff : clear implicits.

Ltac solve_only := repeat first
  [ apply only_ret | apply only_call | apply only_bind; [|intros ?] | case_match ].
