(* ===== verification/Metrics.v ===== *)
(** * platform/metrics: token and runtime accounting

    [Accumulator] folds absolute cumulative per-thread token reports into
    totals.  The theorems show that it never counts a token twice: as long as
    each thread's reports are non-decreasing, the totals are the sum over
    threads of the last report, whatever the interleaving of threads and
    however often a report is repeated. *)

From S2P Require Import Prelude GoStd.
Open Scope Z_scope.

Record Totals := mkTotals {
  Totals_Input : Z;
  Totals_Output : Z;
  Totals_Total : Z;
}.

Definition zeroTotals : Totals := mkTotals 0 0 0.

Record Usage := mkUsage {
  Usage_ThreadID : string;
  Usage_Input : Z;
  Usage_Output : Z;
  Usage_Total : Z;
}.

Definition zeroUsage : Usage := mkUsage "" 0 0 0.

Record Accumulator := mkAccumulator {
  lastSeen : gmap string Usage;
  totals : Totals;
}.

Definition NewAccumulator : Accumulator := mkAccumulator ∅ zeroTotals.

Definition clampPos (v : Z) : Z := if v <? 0 then 0 else v.

(** Reading a missing key of a Go map yields the zero [Usage]. *)
Definition Observe (a : Accumulator) (u : Usage) : Accumulator :=
  let prev := default zeroUsage (lastSeen a !! Usage_ThreadID u) in
  let totals := mkTotals
    (Totals_Input (totals a) + clampPos (Usage_Input u - Usage_Input prev)%i64)%i64
    (Totals_Output (totals a) + clampPos (Usage_Output u - Usage_Output prev)%i64)%i64
    (Totals_Total (totals a) + clampPos (Usage_Total u - Usage_Total prev)%i64)%i64 in
  mkAccumulator (<[Usage_ThreadID u := u]> (lastSeen a)) totals.

Definition AccTotals (a : Accumulator) : Totals := totals a.

Definition addTotals (t u : Totals) : Totals := mkTotals
  (Totals_Input t + Totals_Input u)%i64
  (Totals_Output t + Totals_Output u)%i64
  (Totals_Total t + Totals_Total u)%i64.

Record RuntimeAccumulator := mkRuntimeAccumulator { rt_total : Duration }.

Definition AddTurn (r : RuntimeAccumulator) (d : Duration) : RuntimeAccumulator :=
  if 0 <? d then mkRuntimeAccumulator (rt_total r + d)%i64 else r.

Definition RuntimeTotal (r : RuntimeAccumulator) : Duration := rt_total r.

Record RateLimitSnapshot := mkRateLimitSnapshot {
  PrimaryUsedPercent : Z;
  PrimaryResetsAt : Z;
  SecondaryUsedPercent : Z;
  SecondaryResetsAt : Z;
}.

(** ** Totals form a commutative monoid modulo 2^64 *)

Lemma addTotals_comm t u : addTotals t u = addTotals u t.
Proof. unfold addTotals. f_equal; f_equal; lia. Qed.

Lemma addTotals_assoc t u v :
  addTotals t (addTotals u v) = addTotals (addTotals t u) v.
Proof.
  unfold addTotals; simpl. f_equal;
    rewrite wrap64_wrap_add_l, wrap64_wrap_add_r; f_equal; lia.
Qed.

(** ** What the totals mean *)

(** A counter of a report that follows [prev]: a non-negative int64 that does
    not go backwards. *)
Definition counter_ok (prev cur : Z) : Prop := 0 <= prev <= cur /\ in_int64 cur.

Definition report_ok (a : Accumulator) (u : Usage) : Prop :=
  let prev := default zeroUsage (lastSeen a !! Usage_ThreadID u) in
  counter_ok (Usage_Input prev) (Usage_Input u) /\
  counter_ok (Usage_Output prev) (Usage_Output u) /\
  counter_ok (Usage_Total prev) (Usage_Total u).

Fixpoint reports_ok (a : Accumulator) (us : list Usage) : Prop :=
  match us with
  | [] => True
  | u :: us' => report_ok a u /\ reports_ok (Observe a u) us'
  end.

Definition observe_all (a : Accumulator) (us : list Usage) : Accumulator :=
  fold_left Observe us a.

(** The sum of one counter over the last report of every thread. *)
Definition sum_last (f : Usage -> Z) (m : gmap string Usage) : Z :=
  map_fold (λ _ u acc, f u + acc) 0 m.

Definition last_totals (m : gmap string Usage) : Totals := mkTotals
  (wrap64 (sum_last Usage_Input m))
  (wrap64 (sum_last Usage_Output m))
  (wrap64 (sum_last Usage_Total m)).

Lemma sum_last_insert_new f m k u :
  m !! k = None -> sum_last f (<[k:=u]> m) = f u + sum_last f m.
Proof.
  intros. unfold sum_last. rewrite map_fold_insert_L; [done| |done].
  intros; lia.
Qed.

Lemma sum_last_insert f m k u :
  f zeroUsage = 0 ->
  sum_last f (<[k:=u]> m)
  = sum_last f m + (f u - f (default zeroUsage (m !! k))).
Proof.
  intros Hz. destruct (m !! k) as [v|] eqn:E; simpl.
  - rewrite <- (insert_delete_id m k v E) at 2.
    rewrite <- insert_delete_eq, !sum_last_insert_new by apply lookup_delete_eq.
    lia.
  - rewrite sum_last_insert_new by done. lia.
Qed.

Lemma clampPos_delta prev cur :
  counter_ok prev cur -> clampPos (wrap64 (cur - prev)) = cur - prev.
Proof.
  intros [? ?]. unfold in_int64, int64_min, int64_max in *.
  rewrite wrap64_id by (unfold in_int64, int64_min, int64_max; lia).
  unfold clampPos. case (Z.ltb_spec (cur - prev) 0); lia.
Qed.

Lemma Observe_last_totals a u :
  report_ok a u ->
  totals a = last_totals (lastSeen a) ->
  totals (Observe a u) = last_totals (lastSeen (Observe a u)).
Proof.
  intros (HI & HO & HT) E. unfold Observe, last_totals. simpl.
  rewrite !clampPos_delta by done. rewrite E. simpl.
  rewrite !wrap64_wrap_add_l, !sum_last_insert by done. done.
Qed.

Lemma observe_all_last_totals us : forall a,
  totals a = last_totals (lastSeen a) ->
  reports_ok a us ->
  totals (observe_all a us) = last_totals (lastSeen (observe_all a us)).
Proof.
  induction us as [|u us IH]; simpl; [done|].
  intros a E [Hu Hus]. apply IH; [|done]. by apply Observe_last_totals.
Qed.

Lemma clampPos_nonneg v : 0 <= clampPos v.
Proof. unfold clampPos. case (Z.ltb_spec v 0); lia. Qed.

(** What one report adds to the totals. *)
Definition usageDelta (a : Accumulator) (u : Usage) : Totals :=
  let prev := default zeroUsage (lastSeen a !! Usage_ThreadID u) in mkTotals
  (clampPos (Usage_Input u - Usage_Input prev)%i64)
  (clampPos (Usage_Output u - Usage_Output prev)%i64)
  (clampPos (Usage_Total u - Usage_Total prev)%i64).

Lemma Observe_delta a u : AccTotals (Observe a u) = addTotals (AccTotals a) (usageDelta a u).
Proof. done. Qed.

Lemma clampPos_range z : wrap64 (0 + clampPos (wrap64 z)) = clampPos (wrap64 z).
Proof.
  pose proof (wrap64_range z). apply wrap64_id.
  unfold clampPos, in_int64, int64_min, int64_max in *. case Z.ltb_spec; lia.
Qed.

Lemma Observe_new_delta u :
  AccTotals (Observe NewAccumulator u) = usageDelta NewAccumulator u.
Proof.
  rewrite Observe_delta. unfold usageDelta, addTotals. simpl.
  by rewrite !clampPos_range.
Qed.
