(* ===== verification/Tracker.v ===== *)
(** * platform/tracker: the normalised issue model *)

From S2P Require Import Prelude GoStd.
Open Scope Z_scope.

Record Blocker := mkBlocker {
  Blocker_ID : string;
  Blocker_Identifier : string;
  Blocker_State : string;
}.

Record Project := mkProject {
  Project_Name : string;
  Project_Content : string;
}.

(** [Priority *int] is [option Z]. *)
Record Issue := mkIssue {
  Issue_ID : string;
  Issue_Identifier : string;
  Issue_Title : string;
  Issue_Description : string;
  Issue_Priority : option Z;
  Issue_State : string;
  Issue_BranchName : string;
  Issue_URL : string;
  Issue_Labels : list string;
  Issue_BlockedBy : list Blocker;
  Issue_Project : Project;
  Issue_CreatedAt : Time;
  Issue_UpdatedAt : Time;
}.
