(* ===== verification/WfConfig.v ===== *)
(** * orchestrator/wfconfig: the resolved workflow configuration

    The typed [Config], its range validation, and the scheduler's operational
    [Preflight] check on it. *)

From S2P Require Import Prelude GoStd.
Open Scope Z_scope.

Record ServerConfig := mkServerConfig { Server_Port : Z; Server_Bind : string }.

Record TrackerConfig := mkTrackerConfig {
  Tracker_Kind : string;
  Tracker_Endpoint : string;
  Tracker_APIKey : string;
  Tracker_ProjectSlugs : list string;
  Tracker_ActiveStates : list string;
  Tracker_TerminalStates : list string;
}.

Record PollingConfig := mkPollingConfig { Polling_IntervalMS : Z }.

Record WorkspaceConfig := mkWorkspaceConfig { Workspace_Root : string }.

Record HooksConfig := mkHooksConfig {
  Hooks_TimeoutMS : Z;
  Hooks_AfterCreate : string;
  Hooks_BeforeRun : string;
  Hooks_AfterRun : string;
  Hooks_BeforeRemove : string;
}.

Record AgentConfig := mkAgentConfig {
  MaxConcurrentAgents : Z;
  MaxConcurrentAgentsByState : gmap string Z;
  MaxTurns : Z;
  MaxRetryBackoffMS : Z;
}.

Record CodexConfig := mkCodexConfig {
  Codex_Command : string;
  TurnTimeoutMS : Z;
  ReadTimeoutMS : Z;
  StallTimeoutMS : Z;
  ApprovalPolicy : string;
  ThreadSandbox : string;
  TurnSandboxPolicy : string;
}.

Record Config := mkConfig {
  Config_Tracker : TrackerConfig;
  Config_Polling : PollingConfig;
  Config_Workspace : WorkspaceConfig;
  Config_Hooks : HooksConfig;
  Config_Agent : AgentConfig;
  Config_Codex : CodexConfig;
  Config_Server : ServerConfig;
}.

#[export] Instance eta_ServerConfig : Eta ServerConfig := fun r =>
  mkServerConfig (Server_Port r) (Server_Bind r).
#[export] Instance eta_TrackerConfig : Eta TrackerConfig := fun r =>
  mkTrackerConfig (Tracker_Kind r) (Tracker_Endpoint r) (Tracker_APIKey r)
    (Tracker_ProjectSlugs r) (Tracker_ActiveStates r) (Tracker_TerminalStates r).
#[export] Instance eta_AgentConfig : Eta AgentConfig := fun r =>
  mkAgentConfig (MaxConcurrentAgents r) (MaxConcurrentAgentsByState r)
    (MaxTurns r) (MaxRetryBackoffMS r).
#[export] Instance eta_CodexConfig : Eta CodexConfig := fun r =>
  mkCodexConfig (Codex_Command r) (TurnTimeoutMS r) (ReadTimeoutMS r)
    (StallTimeoutMS r) (ApprovalPolicy r) (ThreadSandbox r) (TurnSandboxPolicy r).
#[export] Instance eta_Config : Eta Config := fun r =>
  mkConfig (Config_Tracker r) (Config_Polling r) (Config_Workspace r)
    (Config_Hooks r) (Config_Agent r) (Config_Codex r) (Config_Server r).

(** The Go zero value of [Config]. *)
Definition zeroConfig : Config := mkConfig
  (mkTrackerConfig "" "" "" [] [] []) (mkPollingConfig 0) (mkWorkspaceConfig "")
  (mkHooksConfig 0 "" "" "" "") (mkAgentConfig 0 ∅ 0 0)
  (mkCodexConfig "" 0 0 0 "" "" "") (mkServerConfig 0 "").

(** ** validate *)

(** The field named in an [ErrConfigValidation] error, with its value. *)
Inductive ConfigError :=
| ErrHooksTimeoutMS (got : Z)
| ErrMaxTurns (got : Z)
| ErrPollingIntervalMS (got : Z)
| ErrTurnTimeoutMS (got : Z)
| ErrReadTimeoutMS (got : Z).

Definition validate (c : Config) : option ConfigError :=
  if Hooks_TimeoutMS (Config_Hooks c) <=? 0 then
    Some (ErrHooksTimeoutMS (Hooks_TimeoutMS (Config_Hooks c)))
  else if MaxTurns (Config_Agent c) <=? 0 then
    Some (ErrMaxTurns (MaxTurns (Config_Agent c)))
  else if Polling_IntervalMS (Config_Polling c) <=? 0 then
    Some (ErrPollingIntervalMS (Polling_IntervalMS (Config_Polling c)))
  else if TurnTimeoutMS (Config_Codex c) <=? 0 then
    Some (ErrTurnTimeoutMS (TurnTimeoutMS (Config_Codex c)))
  else if ReadTimeoutMS (Config_Codex c) <=? 0 then
    Some (ErrReadTimeoutMS (ReadTimeoutMS (Config_Codex c)))
  else None.

(** ** Preflight (orchestrator/scheduler/preflight.go) *)

Inductive PreflightError :=
| ErrKindRequired
| ErrKindUnsupported (kind : string)
| ErrAPIKeyRequired
| ErrProjectSlugsRequired
| ErrCommandRequired.

Definition supportedTrackerKinds : gmap string bool := {["linear" := true]}.

Definition Preflight (cfg : Config) : option PreflightError :=
  let t := Config_Tracker cfg in
  if String.eqb (Tracker_Kind t) "" then Some ErrKindRequired
  else if negb (default false (supportedTrackerKinds !! Tracker_Kind t)) then
    Some (ErrKindUnsupported (Tracker_Kind t))
  else if String.eqb (Tracker_APIKey t) "" then Some ErrAPIKeyRequired
  else if String.eqb (Tracker_Kind t) "linear"
          && (length (Tracker_ProjectSlugs t) =? 0)%nat then
    Some ErrProjectSlugsRequired
  else if String.eqb (Codex_Command (Config_Codex cfg)) "" then Some ErrCommandRequired
  else None.
