(* ===== verification/Workspace.v ===== *)
(** * orchestrator/workspace: workspace directories and hooks

    [workspace.go], [ensure.go], [hooks.go].  What the manager asks of the
    operating system is a sequence of calls; the answers come from [os], which
    may depend on everything asked before.  The environment of a hook is what
    the code adds to the inherited one. *)

From S2P Require Import Prelude GoStd GoText GoPath WfConfig GoIO.
From stdpp Require Import pretty.
Open Scope Z_scope.

Import filepath.

Module workspace.

(** ** Calls to the operating system *)

Inductive OsCall :=
| CStat (path : string)
| CMkdirAll (path : string)
| CRemoveAll (path : string)
| CHook (name script cwd : string) (extraEnv : list string) (timeoutMS : Z).

(** What a call may return: a file, a directory, nothing there, another error;
    success or an error; the exit of a script. *)
Inductive OsReply :=
| RDir | RFile | RNotExist | RErr (err : string) | ROk | RTimeout.

Abbreviation MOs := (Eff OsCall OsReply).

(** ** workspace.go *)

Inductive WsError :=
| ErrPathEscapesRoot (identifier : string)
| ErrNotDirectory (path : string)
| ErrCWDMismatch (detail : string)
| ErrHookFailed (name detail : string)
| ErrSymlinkEscapesRoot (cwd : string)
| ErrAfterCreate (hookErr : WsError)
| ErrOs (err : string).

Record Manager := mkManager { M_root : string; M_hooks : HooksConfig }.

Definition New (cfg : Config) : Manager :=
  mkManager (Clean (Workspace_Root (Config_Workspace cfg))) (Config_Hooks cfg).

Definition Root (m : Manager) : string := M_root m.

Definition keepRune (r : Z) : Z :=
  if utf8.between 65 90 r || utf8.between 97 122 r || utf8.between 48 57 r
     || (r =? 46) || (r =? 95) || (r =? 45) then r else 95.

Definition sanitizeKey (s : string) : string := utf8.of_runes (map keepRune (utf8.runes s)).

(** [rel] leads out of its base, or nowhere. *)
Definition escapes (rel : option string) : bool :=
  match rel with
  | None => true
  | Some rel => bool_decide (rel = "."%string) || bool_decide (rel = ".."%string)
                || Strings.HasPrefix rel "../"
  end.

Definition Path (m : Manager) (identifier : string) : string + WsError :=
  let key := sanitizeKey identifier in
  let p := Clean (Join [M_root m; key]) in
  if escapes (Rel (M_root m) p) then inr (ErrPathEscapesRoot identifier) else inl p.

(** [filepath.Abs] and [filepath.EvalSymlinks] ask the operating system;
    [None] is an error. *)
Definition VerifyCWD (m : Manager) (absOf evalSymlinks : string -> option string)
    (identifier cwd : string) : option WsError :=
  match Path m identifier with
  | inr err => Some err
  | inl expected =>
    match absOf cwd with
    | None => Some (ErrCWDMismatch "abs")
    | Some abs =>
      if decide (Clean abs <> expected) then Some (ErrCWDMismatch abs)
      else
        match evalSymlinks abs, evalSymlinks (M_root m) with
        | None, _ => Some (ErrCWDMismatch "cannot resolve cwd symlinks")
        | _, None => Some (ErrCWDMismatch "cannot resolve root symlinks")
        | Some realCWD, Some realRoot =>
          if escapes (Rel realRoot realCWD) then Some (ErrSymlinkEscapesRoot cwd) else None
        end
    end
  end.

(** ** hooks.go *)

Definition branchEnv (branch : string) : list string := ["ROOST_PROJECT_BRANCH=" +:+ branch].

Definition runHook (m : Manager) (name script cwd : string) (extraEnv : list string)
    : MOs (option WsError) :=
  if decide (script = EmptyString) then mret None
  else
    r ← call (CHook name script cwd extraEnv (Hooks_TimeoutMS (M_hooks m)));
    mret (match r with
          | RErr err => Some (ErrHookFailed name err)
          | RTimeout => Some (ErrHookFailed name
              ("timeout after " +:+ strconv.Itoa (Hooks_TimeoutMS (M_hooks m)) +:+ "ms"))
          | _ => None
          end).

Definition BeforeRun (m : Manager) (identifier branch : string) : MOs (option WsError) :=
  match Path m identifier with
  | inr err => mret (Some err)
  | inl p => runHook m "before_run" (Hooks_BeforeRun (M_hooks m)) p (branchEnv branch)
  end.

Definition AfterRun (m : Manager) (identifier branch : string) : MOs () :=
  match Path m identifier with
  | inr _ => mret ()
  | inl p => _ ← runHook m "after_run" (Hooks_AfterRun (M_hooks m)) p (branchEnv branch); mret ()
  end.

(** ** ensure.go *)

Definition ensureDir (p : string) : MOs (bool + WsError) :=
  r ← call (CStat p);
  match r with
  | RDir => mret (inl false)
  | RNotExist =>
    r ← call (CMkdirAll p);
    mret (match r with RErr err => inr (ErrOs err) | _ => inl true end)
  | RErr err => mret (inr (ErrOs err))
  | _ => mret (inr (ErrNotDirectory p))
  end.

Definition Ensure (m : Manager) (identifier branch : string) : MOs (string + WsError) :=
  match Path m identifier with
  | inr err => mret (inr err)
  | inl p =>
    created ← ensureDir p;
    match created with
    | inr err => mret (inr err)
    | inl false => mret (inl p)
    | inl true =>
      hookErr ← runHook m "after_create" (Hooks_AfterCreate (M_hooks m)) p (branchEnv branch);
      match hookErr with
      | Some err => _ ← call (CRemoveAll p); mret (inr (ErrAfterCreate err))
      | None => mret (inl p)
      end
    end
  end.

Definition Remove (m : Manager) (identifier : string) : MOs (option WsError) :=
  match Path m identifier with
  | inr err => mret (Some err)
  | inl p =>
    _ ← runHook m "before_remove" (Hooks_BeforeRemove (M_hooks m)) p [];
    r ← call (CRemoveAll p);
    mret (match r with RErr err => Some (ErrOs err) | _ => None end)
  end.

(** ** Sanitized keys *)

Lemma keepRune_ascii r : 45 <= keepRune r <= 122 /\ keepRune r <> 47.
Proof.
  unfold keepRune, utf8.between.
  destruct (_ || _ || _ || _ || _ || _) eqn:E; [|lia].
  repeat (apply orb_true_iff in E as [E|E]); lia.
Qed.

Lemma encode_ascii r : 0 <= r < 128 -> utf8.encode r = String.String (utf8.chr r) EmptyString.
Proof.
  intros Hr. unfold utf8.encode, utf8.valid_rune, utf8.between.
  replace ((0 <=? r) && (r <=? 55295)) with true by lia. cbn [orb].
  by rewrite (proj2 (Z.ltb_lt r 128)) by lia.
Qed.

(** A key has none of the separators, and a byte of [A-Za-z0-9._-] for each
    rune of the identifier. *)
Lemma sanitizeKey_noslash s : Strings.ContainsByte (sanitizeKey s) "/" = false.
Proof.
  unfold sanitizeKey. induction (utf8.runes s) as [|r l IH]; [done|].
  cbn [map utf8.of_runes]. destruct (keepRune_ascii r) as [Hr Hne].
  rewrite encode_ascii, str_app_cons, str_app_nil_l by lia. cbn [Strings.ContainsByte].
  rewrite IH, orb_false_r. apply bool_decide_eq_false. intros E.
  apply (f_equal utf8.byte) in E. rewrite utf8.byte_chr in E by lia.
  change (utf8.byte "/") with 47 in E. lia.
Qed.

Lemma sanitizeKey_plain s :
  plain (sanitizeKey s) \/ sanitizeKey s = EmptyString \/ sanitizeKey s = "."%string \/
  sanitizeKey s = ".."%string.
Proof.
  pose proof (sanitizeKey_noslash s). unfold plain.
  destruct (decide (sanitizeKey s = EmptyString)), (decide (sanitizeKey s = "."%string)),
    (decide (sanitizeKey s = ".."%string)); tauto.
Qed.

(** ** Paths *)

Lemma Clean_ne p : Clean p <> EmptyString.
Proof.
  rewrite Clean_render. pose proof (comps_normal p) as Hn. unfold render.
  destruct (rooted p); [done|]. case_decide as E; [done|].
  apply Join_nonempty; [by eapply normal_elems_nonempty|done].
Qed.

(** [root/key] relative to [root] is [key]. *)
Lemma Rel_child root x : Clean root = root -> plain x -> Rel root (Join [root; x]) = Some x.
Proof.
  intros Hc Hx. pose proof (Clean_ne root) as Hne. rewrite Hc in Hne.
  destruct (Join_plain root x Hne Hx) as [Hr Hj].
  assert (Clean (Join [root; x]) = Join [root; x]) as Hjc
    by (destruct (Join_clean [root; x]) as [|E]; [done|]; rewrite E in Hj;
        destruct (comps root); done).
  unfold Rel. rewrite Hc, Hjc. rewrite decide_False; [|intros E; rewrite <- E in Hj;
    apply (f_equal length) in Hj; rewrite length_app in Hj; cbn [length] in Hj; lia].
  assert (IsAbs root = rooted root) as -> by done.
  assert (IsAbs (Join [root; x]) = rooted root) as -> by exact Hr.
  rewrite Bool.eqb_reflx. cbn [negb].
  pose proof (comps_normal (Join [root; x])) as Hn. rewrite Hr, Hj in Hn.
  assert (relTail (Join [root; x]) = comps root ++ [x]) as ->.
  { rewrite <- Hjc, Clean_render, Hr, Hj. apply relTail_render; [done|]. right. by destruct (comps root). }
  assert (relTail (if decide (root = "."%string) then EmptyString else root) = comps root) as Hb.
  { case_decide as E; [by rewrite E|]. rewrite <- Hc at 1. rewrite Clean_render.
    apply relTail_render; [apply comps_normal|].
    destruct (rooted root) eqn:Er; [by left|right]. intros Ec. apply E. rewrite <- Hc, Clean_render, Er, Ec.
    done. }
  rewrite Hb. destruct (stripCommon_app (comps root) [] [x]) as [-> _]. done.
Qed.

Lemma plain_not_escape x : plain x -> escapes (Some x) = false.
Proof.
  intros (H1 & H2 & H3 & H4). unfold escapes. rewrite !bool_decide_eq_false_2 by done. cbn [orb].
  destruct (Strings.HasPrefix x "../") eqn:E; [|done].
  assert (Strings.ContainsByte x "/" = true); [|congruence].
  unfold Strings.HasPrefix in E. apply String.prefix_correct in E. clear H4.
  destruct x as [|a [|b [|c x]]]; try done. cbn in E. destruct x; injection E as -> -> ->;
    cbn [Strings.ContainsByte]; by rewrite (bool_decide_eq_true_2 ("/"%char = "/"%char)), !orb_true_r by done.
Qed.

Lemma Path_plain m id : Clean (M_root m) = M_root m -> plain (sanitizeKey id) ->
  Path m id = inl (Join [M_root m; sanitizeKey id]).
Proof.
  intros Hc Hx. unfold Path.
  assert (Clean (Join [M_root m; sanitizeKey id]) = Join [M_root m; sanitizeKey id]) as ->.
  { cbn [Join]. rewrite decide_False; [apply Clean_idem|]. rewrite <- Hc. apply Clean_ne. }
  rewrite Rel_child by done. by rewrite plain_not_escape.
Qed.

Lemma Rel_self root : Clean root = root -> Rel root root = Some "."%string.
Proof. intros Hc. unfold Rel. rewrite Hc. by rewrite decide_True. Qed.

Lemma normal_last r l y : normal r (l ++ [y]) -> y <> ".."%string -> plain y.
Proof.
  induction l as [|x l IH]; cbn [app]; intros H Hy.
  - inversion H as [r' l' Hl|l' Hl]; subst; [|done]. by apply Forall_cons in Hl as [Hl _].
  - inversion H as [r' l' Hl|l' Hl]; subst; [|by apply IH].
    apply Forall_cons in Hl as [_ Hl]. apply Forall_app in Hl as [_ Hl].
    by apply Forall_cons in Hl as [Hl _].
Qed.

(** The elements [Rel] compares. *)
Lemma relTail_clean p : Clean p = p -> relTail p = comps p \/ p = "."%string.
Proof.
  intros Hp. destruct (decide (p = "."%string)) as [|E]; [by right|left].
  rewrite <- Hp at 1. rewrite Clean_render. apply relTail_render; [apply comps_normal|].
  destruct (rooted p) eqn:Er; [by left|right]. intros Ec. apply E.
  by rewrite <- Hp, Clean_render, Er, Ec.
Qed.

Lemma relTail_base root : Clean root = root ->
  relTail (if decide (root = "."%string) then EmptyString else root) = comps root.
Proof. intros Hc. case_decide as E; [by rewrite E|]. by destruct (relTail_clean root Hc). Qed.

(** The parent of the root is outside, whatever the root is. *)
Lemma Rel_parent root : Clean root = root -> escapes (Rel root (Join [root; ".."%string])) = true.
Proof.
  intros Hc. pose proof (Clean_ne root) as Hne. rewrite Hc in Hne.
  destruct (Join_comps root ".." Hne) as [Hr Hj]. change (Strings.Split ".." "/") with [".."%string] in Hj.
  set (p := Join [root; ".."%string]) in *.
  assert (Clean p = p) as Hpc.
  { unfold p. cbn [Join]. rewrite decide_False by done. apply Clean_idem. }
  unfold Rel. rewrite Hc, Hpc. case_decide as E; [done|].
  change (IsAbs root) with (rooted root). change (IsAbs p) with (rooted p). rewrite Hr, Bool.eqb_reflx.
  cbn [negb]. rewrite relTail_base by done. pose proof (comps_normal root) as Hn.
  destruct (comps root) as [|y l _] eqn:El using rev_ind.
  - destruct (rooted root) eqn:Er;
      [change (clean_go true (rev []) [".."%string]) with (@nil string) in Hj
      |change (clean_go false (rev []) [".."%string]) with [".."%string] in Hj].
    + destruct E. apply clean_ext; [done..|by rewrite Hr, Er|by rewrite El, Hj].
    + destruct (relTail_clean p Hpc) as [->|Hp]; [by rewrite Hj|]. by rewrite Hp in Hj.
  - rewrite rev_app_distr in Hj. cbn [rev app clean_go] in Hj.
    rewrite decide_False in Hj by (intros [|]; done). rewrite decide_True in Hj by done.
    destruct (decide (y = ".."%string)) as [->|Hy].
    + cbn [rev] in Hj. rewrite rev_involutive in Hj.
      destruct (relTail_clean p Hpc) as [->|Hp]; [|rewrite Hp in Hj; by destruct l].
      rewrite Hj. by destruct (stripCommon_app (l ++ [".."%string]) [] [".."%string]) as [-> _].
    + rewrite rev_involutive in Hj.
      assert (plain y) as (_ & Hd & _ & _) by by eapply normal_last.
      destruct (relTail_clean p Hpc) as [->|Hp].
      * rewrite Hj. destruct (stripCommon_app l [y] []) as [_ ->].
        by rewrite (bool_decide_eq_false_2 (y = _)) by done.
      * assert (l = []) as -> by (rewrite Hp in Hj; by symmetry). rewrite Hp.
        change (relTail ".") with ["."%string]. cbn [app stripCommon]. rewrite decide_False by done. by rewrite (bool_decide_eq_false_2 (y = _)) by done.
Qed.

(** The path of an identifier: the directory named by its key, right below the
    root, or an error if the key names the root or its parent. *)
Lemma Path_spec m id : Clean (M_root m) = M_root m ->
  (plain (sanitizeKey id) /\ Path m id = inl (Join [M_root m; sanitizeKey id])) \/
  (~ plain (sanitizeKey id) /\ Path m id = inr (ErrPathEscapesRoot id)).
Proof.
  intros Hc. destruct (sanitizeKey_plain id) as [Hp|Hk].
  { left. split; [done|]. by apply Path_plain. }
  right. split; [unfold plain; destruct Hk as [->|[->| ->]]; naive_solver|].
  assert (M_root m <> EmptyString) as Hne by (rewrite <- Hc; apply Clean_ne).
  unfold Path.
  assert (Clean (Join [M_root m; sanitizeKey id]) = Join [M_root m; sanitizeKey id]) as ->.
  { cbn [Join]. rewrite decide_False by done. apply Clean_idem. }
  assert (escapes (Rel (M_root m) (Join [M_root m; sanitizeKey id])) = true) as ->; [|done].
  assert (forall k, Strings.Split k "/" = [k] -> k = EmptyString \/ k = "."%string ->
    Join [M_root m; k] = M_root m) as Hself.
  { intros k Hs Hk'. destruct (Join_comps (M_root m) k Hne) as [Hr Hj]. rewrite Hs in Hj.
    cbn [clean_go] in Hj. rewrite decide_True in Hj by done. rewrite rev_involutive in Hj.
    apply clean_ext; [|done..]. cbn [Join]. rewrite decide_False by done. apply Clean_idem. }
  destruct Hk as [->|[->| ->]]; [rewrite Hself by auto; by rewrite Rel_self..|by apply Rel_parent].
Qed.

(** ** Containment *)

(** A directory right below the root. *)
Definition inside (root p : string) : Prop := exists x, plain x /\ p = Join [root; x].

Definition callInside (root : string) (c : OsCall) : Prop :=
  match c with
  | CStat p | CMkdirAll p | CRemoveAll p => inside root p
  | CHook _ _ cwd _ _ => inside root cwd
  end.

(** What the orchestrator asks of a manager. *)
Inductive WsOp :=
| OpEnsure (identifier branch : string)
| OpRemove (identifier : string)
| OpBeforeRun (identifier branch : string)
| OpAfterRun (identifier branch : string).

Definition runOp (m : Manager) (op : WsOp) : MOs () :=
  match op with
  | OpEnsure id branch => _ ← Ensure m id branch; mret ()
  | OpRemove id => _ ← Remove m id; mret ()
  | OpBeforeRun id branch => _ ← BeforeRun m id branch; mret ()
  | OpAfterRun id branch => AfterRun m id branch
  end.

Definition runOps (m : Manager) (os : World OsCall OsReply) (ops : list WsOp) : list OsCall :=
  foldl (fun h op => (runOp m op os h).2) [] ops.

Lemma runHook_only P m name script cwd env :
  P (CHook name script cwd env (Hooks_TimeoutMS (M_hooks m))) -> only P (runHook m name script cwd env).
Proof.
  intros H. unfold runHook. case_decide; [apply only_ret|].
  apply only_bind; [by apply only_call|]. intros x. apply only_ret.
Qed.

Lemma runOp_only m op : Clean (M_root m) = M_root m -> only (callInside (M_root m)) (runOp m op).
Proof.
  intros Hc.
  assert (forall id p, Path m id = inl p -> inside (M_root m) p) as Hin.
  { intros id p Hp. destruct (Path_spec m id Hc) as [[Hk E]|[_ E]]; rewrite E in Hp; [|done].
    injection Hp as <-. by eexists. }
  destruct op as [id br|id|id br|id br]; cbn [runOp]; unfold Ensure, Remove, BeforeRun, AfterRun, ensureDir;
    destruct (Path m id) as [p|err] eqn:E; try (by solve_only); specialize (Hin id p E);
    repeat (solve_only; try apply runHook_only); exact Hin.
Qed.

Lemma runOps_inside m os ops : Clean (M_root m) = M_root m ->
  Forall (callInside (M_root m)) (runOps m os ops).
Proof.
  intros Hc. unfold runOps. assert (Forall (callInside (M_root m)) []) as H by constructor.
  revert H. generalize (@nil OsCall). induction ops as [|op ops IH]; intros h H; [done|]. cbn [foldl].
  apply IH. destruct (runOp_only m op Hc os h) as (calls & -> & Hf). by apply Forall_app.
Qed.

(** ** Ensure *)

(** The calls of [Ensure] and its result, for an identifier with a path. *)
Lemma Ensure_calls m os h id br p :
  Path m id = inl p ->
  let hook := CHook "after_create" (Hooks_AfterCreate (M_hooks m)) p (branchEnv br)
                (Hooks_TimeoutMS (M_hooks m)) in
  let failed := match os (h ++ [CStat p; CMkdirAll p]) hook with RErr _ | RTimeout => true | _ => false end in
  let '(r, h') := Ensure m id br os h in
  match os h (CStat p) with
  | RDir => r = inl p /\ h' = h ++ [CStat p]
  | RNotExist =>
    match os (h ++ [CStat p]) (CMkdirAll p) with
    | RErr err => r = inr (ErrOs err) /\ h' = h ++ [CStat p; CMkdirAll p]
    | _ =>
      if decide (Hooks_AfterCreate (M_hooks m) = EmptyString) then
        r = inl p /\ h' = h ++ [CStat p; CMkdirAll p]
      else if failed then
        (exists err, r = inr (ErrAfterCreate err)) /\ h' = h ++ [CStat p; CMkdirAll p; hook; CRemoveAll p]
      else r = inl p /\ h' = h ++ [CStat p; CMkdirAll p; hook]
    end
  | RErr err => r = inr (ErrOs err) /\ h' = h ++ [CStat p]
  | _ => r = inr (ErrNotDirectory p) /\ h' = h ++ [CStat p]
  end.
Proof.
  intros Hp. cbn zeta. unfold Ensure. rewrite Hp. unfold ensureDir, runHook, mbind, Eff_bind, mret, Eff_ret, call.
  assert (forall a b, (h ++ [a]) ++ [b] = h ++ [a; b]) as H2 by (intros; by rewrite <- app_assoc).
  destruct (os h (CStat p)) eqn:E1; try done.
  destruct (os (h ++ [CStat p]) (CMkdirAll p)) eqn:E2; rewrite ?H2; try done;
    case_decide; rewrite ?H2; try done;
    destruct (os (h ++ [CStat p; CMkdirAll p]) _) eqn:E3; rewrite <- ?app_assoc; cbn [app]; try done;
    split; eauto.
Qed.
End workspace.
