(* ===== verification/WfResolve.v ===== *)
(** * orchestrator/workflowfile and orchestrator/wfconfig: from a file to a
    configuration

    [loader.go] splits WORKFLOW.md into front matter and prompt; [coerce.go],
    [resolve.go], [defaults.go] and [expand.go] turn the front matter into a
    [Config].  YAML itself is a parameter: [yaml] is what the decoder makes of
    a text.  The process environment is [env] ([os.Getenv]). *)

From S2P Require Import Prelude GoStd GoText GoPath GoIO WfConfig Workspace.
Open Scope Z_scope.

Import filepath.

(** ** Decoded YAML

    A map is the list of its entries in the order in which [range] visits
    them.  Of a float only the integer it is equal to matters, if any. *)

Inductive yvalue :=
| YNull
| YBool (b : bool)
| YInt (n : Z)
| YFloat (whole : option Z)
| YString (s : string)
| YList (l : list yvalue)
| YMap (m : list (string * yvalue))
| YOther.

Abbreviation ymap := (list (string * yvalue)).

Fixpoint ylookup (key : string) (m : ymap) : option yvalue :=
  match m with
  | [] => None
  | (k, v) :: m => if decide (k = key) then Some v else ylookup key m
  end.

Module workflowfile.

(** ** orchestrator/workflowfile *)

Record Workflow := mkWorkflow { WF_Config : ymap; WF_PromptTemplate : string }.

Inductive LoadError := ErrMissingWorkflowFile | ErrWorkflowParse | ErrFrontMatterNotMap.

Definition newline : ascii := "010"%char.
Definition nl : string := String.String newline EmptyString.

(** [strings.ReplaceAll(s, CR LF, LF)]. *)
Fixpoint unixLines (s : string) : string :=
  match s with
  | EmptyString => EmptyString
  | String.String c t =>
    if bool_decide (c = "013"%char) && Strings.HasPrefix t nl then unixLines t
    else String.String c (unixLines t)
  end.

(** The loop: the lines up to the closing fence, and those after it. *)
Fixpoint splitFence (lines : list string) : option (list string * list string) :=
  match lines with
  | [] => None
  | l :: lines =>
    if decide (l = "---"%string) then Some ([], lines)
    else '(fm, body) ← splitFence lines; Some (l :: fm, body)
  end.

Definition splitFrontMatter (lines : list string) : (string * string) + LoadError :=
  match splitFence (tail lines) with
  | Some (fm, body) => inl (Strings.Join fm nl, Strings.Join body nl)
  | None => inr ErrWorkflowParse
  end.

Section yaml.
Context (yaml : string -> option yvalue).

Definition buildWorkflow (fm body : string) : Workflow + LoadError :=
  match yaml fm with
  | None => inr ErrWorkflowParse
  | Some YNull => inl (mkWorkflow [] (Strings.TrimSpace body))
  | Some (YMap cfg) => inl (mkWorkflow cfg (Strings.TrimSpace body))
  | Some _ => inr ErrFrontMatterNotMap
  end.

Definition Parse (data : string) : Workflow + LoadError :=
  let text := unixLines data in
  let lines := Strings.Split text newline in
  match lines with
  | l :: _ =>
    if decide (l = "---"%string) then
      match splitFrontMatter lines with
      | inl (fm, body) => buildWorkflow fm body
      | inr err => inr err
      end
    else inl (mkWorkflow [] (Strings.TrimSpace text))
  | [] => inl (mkWorkflow [] (Strings.TrimSpace text))
  end.

(** [file] is the content of the file, [None] if it cannot be read. *)
Definition Load (file : option string) : Workflow + LoadError :=
  match file with
  | None => inr ErrMissingWorkflowFile
  | Some data => Parse data
  end.
End yaml.
End workflowfile.

Module wfconfig.

(** ** coerce.go *)

(** Which field could not be coerced, or what [validate] found. *)
Inductive ResolveError := ErrConfigCoerce (field : string) | ErrConfigValidation (err : ConfigError).

Definition coerceInt (v : yvalue) : option Z :=
  match v with
  | YInt n => Some n
  | YFloat whole => whole
  | YString s => strconv.Atoi s
  | _ => None
  end.

Definition coerceString (v : yvalue) : option string :=
  match v with YString s => Some s | _ => None end.

Fixpoint coerceStrings (l : list yvalue) : option (list string) :=
  match l with
  | [] => Some []
  | v :: l => s ← coerceString v; l ← coerceStrings l; Some (s :: l)
  end.
Definition coerceStringSlice (v : yvalue) : option (list string) :=
  match v with YList l => coerceStrings l | _ => None end.

Definition perStateEntry (out : gmap string Z) (kv : string * yvalue) : gmap string Z :=
  match coerceInt kv.2 with
  | Some n => if n <=? 0 then out else <[strings.ToLower kv.1 := n]> out
  | None => out
  end.
Definition coercePerStateMap (v : yvalue) : option (gmap string Z) :=
  match v with YMap m => Some (foldl perStateEntry ∅ m) | _ => None end.

(** ** resolve.go: decoding *)

#[export] Instance eta_PollingConfig : Eta PollingConfig := fun r => mkPollingConfig (Polling_IntervalMS r).
#[export] Instance eta_WorkspaceConfig : Eta WorkspaceConfig := fun r => mkWorkspaceConfig (Workspace_Root r).
#[export] Instance eta_HooksConfig : Eta HooksConfig := fun r =>
  mkHooksConfig (Hooks_TimeoutMS r) (Hooks_AfterCreate r) (Hooks_BeforeRun r) (Hooks_AfterRun r)
    (Hooks_BeforeRemove r).

(** Decoding writes to a configuration, or stops with an error. *)
Definition Decode : Type := Config -> Config + ResolveError.
Definition andThen (d1 d2 : Decode) : Decode := fun c =>
  match d1 c with inl c => d2 c | inr err => inr err end.
Local Infix ">>" := andThen (at level 60, right associativity).

(** [if s, ok := m[key]; ok { ... coerce ... }]. *)
Definition field {A} (section : string) (m : ymap) (key : string) (coerce : yvalue -> option A)
    (set : A -> Config -> Config) : Decode := fun c =>
  match ylookup key m with
  | None => inl c
  | Some v =>
    match coerce v with
    | Some x => inl (set x c)
    | None => inr (ErrConfigCoerce (section +:+ "." +:+ key))
    end
  end.

(** The map under a section name: nothing to do without one. *)
Definition section (raw : ymap) (name : string) (fields : ymap -> Decode) : Decode := fun c =>
  match ylookup name raw with
  | None => inl c
  | Some (YMap m) => fields m c
  | Some _ => inr (ErrConfigCoerce name)
  end.

Definition setTracker (f : TrackerConfig -> TrackerConfig) (c : Config) : Config :=
  c <| Config_Tracker := f (Config_Tracker c) |>.
Definition setHooks (f : HooksConfig -> HooksConfig) (c : Config) : Config :=
  c <| Config_Hooks := f (Config_Hooks c) |>.
Definition setAgent (f : AgentConfig -> AgentConfig) (c : Config) : Config :=
  c <| Config_Agent := f (Config_Agent c) |>.
Definition setCodex (f : CodexConfig -> CodexConfig) (c : Config) : Config :=
  c <| Config_Codex := f (Config_Codex c) |>.
Definition setServer (f : ServerConfig -> ServerConfig) (c : Config) : Config :=
  c <| Config_Server := f (Config_Server c) |>.

Definition decodeTracker (raw : ymap) : Decode := section raw "tracker" (fun m =>
  let f {A} := @field A "tracker" m in
  f "kind" coerceString (fun x => setTracker (fun t => t <| Tracker_Kind := x |>))
  >> f "endpoint" coerceString (fun x => setTracker (fun t => t <| Tracker_Endpoint := x |>))
  >> f "api_key" coerceString (fun x => setTracker (fun t => t <| Tracker_APIKey := x |>))
  >> f "project_slugs" coerceStringSlice (fun x => setTracker (fun t => t <| Tracker_ProjectSlugs := x |>))
  >> f "active_states" coerceStringSlice (fun x => setTracker (fun t => t <| Tracker_ActiveStates := x |>))
  >> f "terminal_states" coerceStringSlice
       (fun x => setTracker (fun t => t <| Tracker_TerminalStates := x |>)))%string.

Definition decodePolling (raw : ymap) : Decode := section raw "polling" (fun m =>
  field "polling" m "interval_ms" coerceInt (fun x c => c <| Config_Polling := mkPollingConfig x |>)).

Definition decodeWorkspace (raw : ymap) : Decode := section raw "workspace" (fun m =>
  field "workspace" m "root" coerceString (fun x c => c <| Config_Workspace := mkWorkspaceConfig x |>)).

Definition decodeHooks (raw : ymap) : Decode := section raw "hooks" (fun m =>
  let f {A} := @field A "hooks" m in
  f "timeout_ms" coerceInt (fun x => setHooks (fun h => h <| Hooks_TimeoutMS := x |>))
  >> f "after_create" coerceString (fun x => setHooks (fun h => h <| Hooks_AfterCreate := x |>))
  >> f "before_run" coerceString (fun x => setHooks (fun h => h <| Hooks_BeforeRun := x |>))
  >> f "after_run" coerceString (fun x => setHooks (fun h => h <| Hooks_AfterRun := x |>))
  >> f "before_remove" coerceString (fun x => setHooks (fun h => h <| Hooks_BeforeRemove := x |>)))%string.

Definition decodeAgent (raw : ymap) : Decode := section raw "agent" (fun m =>
  let f {A} := @field A "agent" m in
  f "max_concurrent_agents" coerceInt (fun x => setAgent (fun a => a <| MaxConcurrentAgents := x |>))
  >> f "max_concurrent_agents_by_state" coercePerStateMap
       (fun x => setAgent (fun a => a <| MaxConcurrentAgentsByState := x |>))
  >> f "max_turns" coerceInt (fun x => setAgent (fun a => a <| MaxTurns := x |>))
  >> f "max_retry_backoff_ms" coerceInt (fun x => setAgent (fun a => a <| MaxRetryBackoffMS := x |>)))%string.

Definition decodeServer (raw : ymap) : Decode := section raw "server" (fun m =>
  let f {A} := @field A "server" m in
  f "port" coerceInt (fun x => setServer (fun s => s <| Server_Port := x |>))
  >> f "bind" coerceString (fun x => setServer (fun s => s <| Server_Bind := x |>)))%string.

Definition decodeCodex (raw : ymap) : Decode := section raw "codex" (fun m =>
  let f {A} := @field A "codex" m in
  f "command" coerceString (fun x => setCodex (fun s => s <| Codex_Command := x |>))
  >> f "turn_timeout_ms" coerceInt (fun x => setCodex (fun s => s <| TurnTimeoutMS := x |>))
  >> f "read_timeout_ms" coerceInt (fun x => setCodex (fun s => s <| ReadTimeoutMS := x |>))
  >> f "stall_timeout_ms" coerceInt (fun x => setCodex (fun s => s <| StallTimeoutMS := x |>))
  >> f "approval_policy" coerceString (fun x => setCodex (fun s => s <| ApprovalPolicy := x |>))
  >> f "thread_sandbox" coerceString (fun x => setCodex (fun s => s <| ThreadSandbox := x |>))
  >> f "turn_sandbox_policy" coerceString (fun x => setCodex (fun s => s <| TurnSandboxPolicy := x |>)))%string.

(** ** defaults.go *)

(** [m, _ := raw[name].(map[string]any)]: a nil map otherwise. *)
Definition mapAt (raw : ymap) (name : string) : ymap :=
  match ylookup name raw with Some (YMap m) => m | _ => [] end.

(** A default applies when the key is missing and the field still zero. *)
Definition defaultTo {A} `{EqDecision A} (m : ymap) (key : string) (zero x v : A) : A :=
  match ylookup key m with
  | Some _ => v
  | None => if decide (v = zero) then x else v
  end.

Section environment.
Context (env : string -> string).

(** [os.TempDir] and [os.UserHomeDir] (its error leaves the empty string). *)
Definition TempDir : string :=
  if decide (env "TMPDIR"%string = EmptyString) then "/tmp"%string else env "TMPDIR"%string.
Definition UserHomeDir : string := env "HOME"%string.

Definition applyServerDefaults (server : ymap) : Config -> Config :=
  setServer (fun s => s <| Server_Bind := defaultTo server "bind" EmptyString "127.0.0.1"%string (Server_Bind s) |>).

Definition applyTrackerDefaults (tracker : ymap) (c : Config) : Config :=
  c <| Config_Tracker := Config_Tracker c
    <| Tracker_Endpoint :=
         if decide (Tracker_Kind (Config_Tracker c) = "linear"%string)
         then defaultTo tracker "endpoint" EmptyString "https://api.linear.app/graphql"%string
                (Tracker_Endpoint (Config_Tracker c))
         else Tracker_Endpoint (Config_Tracker c) |>
    <| Tracker_ActiveStates := defaultTo tracker "active_states" [] ["Todo"; "In Progress"]%string
         (Tracker_ActiveStates (Config_Tracker c)) |>
    <| Tracker_TerminalStates := defaultTo tracker "terminal_states" []
         ["Closed"; "Cancelled"; "Canceled"; "Duplicate"; "Done"]%string
         (Tracker_TerminalStates (Config_Tracker c)) |> |>.

Definition applyAgentDefaults (agent : ymap) : Config -> Config := setAgent (fun a =>
  a <| MaxConcurrentAgents := defaultTo agent "max_concurrent_agents" 0 10 (MaxConcurrentAgents a) |>
    <| MaxTurns := defaultTo agent "max_turns" 0 20 (MaxTurns a) |>
    <| MaxRetryBackoffMS := defaultTo agent "max_retry_backoff_ms" 0 300000 (MaxRetryBackoffMS a) |>).

Definition applyCodexDefaults (codex : ymap) : Config -> Config := setCodex (fun s =>
  s <| Codex_Command := defaultTo codex "command" EmptyString "codex app-server"%string (Codex_Command s) |>
    <| TurnTimeoutMS := defaultTo codex "turn_timeout_ms" 0 3600000 (TurnTimeoutMS s) |>
    <| ReadTimeoutMS := defaultTo codex "read_timeout_ms" 0 5000 (ReadTimeoutMS s) |>
    <| StallTimeoutMS := defaultTo codex "stall_timeout_ms" 0 300000 (StallTimeoutMS s) |>).

Definition applyDefaults (c : Config) (raw : ymap) : Config :=
  let c := applyTrackerDefaults (mapAt raw "tracker") c in
  let c := c <| Config_Polling := mkPollingConfig (defaultTo (mapAt raw "polling") "interval_ms" 0 30000
                (Polling_IntervalMS (Config_Polling c))) |> in
  let c := c <| Config_Workspace := mkWorkspaceConfig (defaultTo (mapAt raw "workspace") "root" EmptyString
                (Join [TempDir; "symphony_workspaces"%string]) (Workspace_Root (Config_Workspace c))) |> in
  let c := setHooks (fun h => h <| Hooks_TimeoutMS := defaultTo (mapAt raw "hooks") "timeout_ms" 0 60000
                (Hooks_TimeoutMS h) |>) c in
  let c := applyAgentDefaults (mapAt raw "agent") c in
  let c := applyCodexDefaults (mapAt raw "codex") c in
  applyServerDefaults (mapAt raw "server") c.

(** ** expand.go *)

Definition varStart (c : ascii) : bool :=
  utf8.between 65 90 (utf8.byte c) || bool_decide (c = "_"%char).
Definition varChar (c : ascii) : bool := varStart c || utf8.between 48 57 (utf8.byte c).
Fixpoint allChars (p : ascii -> bool) (s : string) : bool :=
  match s with EmptyString => true | String.String c s => p c && allChars p s end.

(** [varPattern]: a dollar sign and a name, nothing else. *)
Definition varName (s : string) : option string :=
  match s with
  | String.String d (String.String c rest as name) =>
    if bool_decide (d = "$"%char) && varStart c && allChars varChar rest then Some name else None
  | _ => None
  end.

Definition expandVar (s : string) : string :=
  match varName s with Some name => env name | None => s end.

(** platform/config/path.go. *)
Definition ExpandPath (p : string) : string :=
  match p with
  | String.String c rest => if decide (c = "~"%char) then Join [UserHomeDir; rest] else p
  | EmptyString => p
  end.

Definition expandPath (s : string) : string := expandVar (ExpandPath s).
Definition expandAPIKey (s : string) : string := expandVar s.

(** ** resolve.go *)

Definition expandFields (c : Config) : Config :=
  let key := expandAPIKey (Tracker_APIKey (Config_Tracker c)) in
  let key := if bool_decide (Tracker_Kind (Config_Tracker c) = "linear"%string)
                && bool_decide (key = EmptyString) then env "LINEAR_API_KEY"%string else key in
  c <| Config_Tracker := Config_Tracker c <| Tracker_APIKey := key |> |>
    <| Config_Workspace := mkWorkspaceConfig (expandPath (Workspace_Root (Config_Workspace c))) |>.

Definition normalizeWorkspaceRoot (c : Config) (workflowDir : string) : Config :=
  let root := Workspace_Root (Config_Workspace c) in
  if decide (root = EmptyString) then c
  else
    let root := if rooted root then root else Join [workflowDir; root] in
    c <| Config_Workspace := mkWorkspaceConfig (Clean root) |>.

Definition Resolve (raw : ymap) (workflowDir : string) : Config + ResolveError :=
  match (decodeTracker raw >> decodePolling raw >> decodeWorkspace raw >> decodeHooks raw
         >> decodeAgent raw >> decodeCodex raw >> decodeServer raw) zeroConfig with
  | inr err => inr err
  | inl c =>
    let c := normalizeWorkspaceRoot (expandFields (applyDefaults c raw)) workflowDir in
    match validate c with
    | Some err => inr (ErrConfigValidation err)
    | None => inl c
    end
  end.
End environment.
End wfconfig.

(** * Resolution of a workflow file: what each field becomes

    [reads] relates a field of the result to a key of the front matter, through
    the sequence of decoders; [resolved] collects all of them. *)

Open Scope Z_scope.

Import filepath wfconfig.

(** ** Fields through decoders *)

(** How a decoder that succeeds changes the field [pr]. *)
Definition does {B} (pr : Config -> B) (R : B -> B -> Prop) (d : Decode) : Prop :=
  forall c c', d c = inl c' -> R (pr c) (pr c').

Lemma does_then_l {B} (pr : Config -> B) R d1 d2 :
  does pr R d1 -> does pr eq d2 -> does pr R (andThen d1 d2).
Proof.
  intros H1 H2 c c'. unfold andThen. destruct (d1 c) as [c1|] eqn:E; [|done].
  intros E2. rewrite <- (H2 _ _ E2). by apply H1.
Qed.
Lemma does_then_r {B} (pr : Config -> B) R d1 d2 :
  does pr eq d1 -> does pr R d2 -> does pr R (andThen d1 d2).
Proof.
  intros H1 H2 c c'. unfold andThen. destruct (d1 c) as [c1|] eqn:E; [|done].
  intros E2. rewrite (H1 _ _ E). by apply H2.
Qed.

Lemma does_field_other {A B} (pr : Config -> B) sec m key (coerce : yvalue -> option A) set :
  (forall x c, pr (set x c) = pr c) -> does pr eq (field sec m key coerce set).
Proof.
  intros H c c'. unfold field. repeat case_match; intros E; simplify_eq; [by rewrite H|done].
Qed.

(** The field is what the key's value is coerced to, unchanged without it. *)
Definition readsKey {A} (coerce : yvalue -> option A) (key : string) (m : ymap) (b b' : A) : Prop :=
  match ylookup key m with Some v => coerce v = Some b' | None => b' = b end.

Lemma does_field {A} (pr : Config -> A) sec m key (coerce : yvalue -> option A) set :
  (forall x c, pr (set x c) = x) ->
  does pr (readsKey coerce key m) (field sec m key coerce set).
Proof.
  intros H c c'. unfold field, readsKey. destruct (ylookup key m) as [v|]; [|by intros [= ->]].
  destruct (coerce v); [|done]. intros [= <-]. by rewrite H.
Qed.

Lemma does_section_other {B} (pr : Config -> B) raw name fields :
  (forall m, does pr eq (fields m)) -> does pr eq (section raw name fields).
Proof.
  intros H c c'. unfold section. repeat case_match; intros E; simplify_eq; [by eapply H|done].
Qed.

Lemma does_section {A} (pr : Config -> A) raw name fields (coerce : yvalue -> option A) key :
  (forall m, does pr (readsKey coerce key m) (fields m)) ->
  does pr (readsKey coerce key (mapAt raw name)) (section raw name fields).
Proof.
  intros H c c'. unfold section, mapAt. destruct (ylookup name raw) as [[]|]; try done.
  - apply H.
  - by intros [= ->].
Qed.

(** All decoders in the order of [Resolve]. *)
Definition decodeAll (raw : ymap) : Decode :=
  andThen (decodeTracker raw) (andThen (decodePolling raw) (andThen (decodeWorkspace raw)
    (andThen (decodeHooks raw) (andThen (decodeAgent raw) (andThen (decodeCodex raw) (decodeServer raw)))))).

Ltac does_other :=
  lazymatch goal with
  | |- does _ _ (field _ _ _ _ _) => apply does_field_other; done
  | |- does _ _ (andThen _ _) => apply does_then_l; does_other
  | |- does _ _ (section _ _ _) => apply does_section_other; intros ?; cbv zeta; does_other
  end.
Ltac does_field key :=
  lazymatch goal with
  | |- does _ _ (field _ _ key _ _) => by apply does_field
  | |- does _ _ (andThen (field _ _ key _ _) _) => apply does_then_l; [does_field key|does_other]
  | |- does _ _ (andThen (field _ _ _ _ _) _) => apply does_then_r; [does_other|does_field key]
  end.
Ltac does_here key := apply does_section; intros ?; cbv zeta; does_field key.
(** The field [key] of the section [name]; everything else leaves it alone. *)
Ltac does_all name key :=
  lazymatch goal with
  | |- does _ _ (section _ name _) => does_here key
  | |- does _ _ (andThen (section _ name _) _) => apply does_then_l; [does_here key|does_other]
  | |- does _ _ (andThen _ _) => apply does_then_r; [does_other|does_all name key]
  end.
Ltac decoded name key :=
  unfold decodeAll, decodeTracker, decodePolling, decodeWorkspace, decodeHooks, decodeAgent,
    decodeCodex, decodeServer; does_all name key.

(** ** What each field becomes *)

(** The key of a section; a value that is there is coerced, one that is not is
    [def]. *)
Definition leaf {A} (coerce : yvalue -> option A) (raw : ymap) (sec key : string) (def : A) : option A :=
  match ylookup key (mapAt raw sec) with Some v => coerce v | None => Some def end.

Record decoded (raw : ymap) (c : Config) : Prop := {
  d_kind : leaf coerceString raw "tracker" "kind" EmptyString = Some (Tracker_Kind (Config_Tracker c));
  d_endpoint : leaf coerceString raw "tracker" "endpoint" EmptyString = Some (Tracker_Endpoint (Config_Tracker c));
  d_api_key : leaf coerceString raw "tracker" "api_key" EmptyString = Some (Tracker_APIKey (Config_Tracker c));
  d_slugs : leaf coerceStringSlice raw "tracker" "project_slugs" [] = Some (Tracker_ProjectSlugs (Config_Tracker c));
  d_active : leaf coerceStringSlice raw "tracker" "active_states" [] = Some (Tracker_ActiveStates (Config_Tracker c));
  d_terminal : leaf coerceStringSlice raw "tracker" "terminal_states" [] = Some (Tracker_TerminalStates (Config_Tracker c));
  d_interval : leaf coerceInt raw "polling" "interval_ms" 0 = Some (Polling_IntervalMS (Config_Polling c));
  d_root : leaf coerceString raw "workspace" "root" EmptyString = Some (Workspace_Root (Config_Workspace c));
  d_timeout : leaf coerceInt raw "hooks" "timeout_ms" 0 = Some (Hooks_TimeoutMS (Config_Hooks c));
  d_after_create : leaf coerceString raw "hooks" "after_create" EmptyString = Some (Hooks_AfterCreate (Config_Hooks c));
  d_before_run : leaf coerceString raw "hooks" "before_run" EmptyString = Some (Hooks_BeforeRun (Config_Hooks c));
  d_after_run : leaf coerceString raw "hooks" "after_run" EmptyString = Some (Hooks_AfterRun (Config_Hooks c));
  d_before_remove : leaf coerceString raw "hooks" "before_remove" EmptyString = Some (Hooks_BeforeRemove (Config_Hooks c));
  d_max_agents : leaf coerceInt raw "agent" "max_concurrent_agents" 0 = Some (MaxConcurrentAgents (Config_Agent c));
  d_by_state : leaf coercePerStateMap raw "agent" "max_concurrent_agents_by_state" ∅
                 = Some (MaxConcurrentAgentsByState (Config_Agent c));
  d_max_turns : leaf coerceInt raw "agent" "max_turns" 0 = Some (MaxTurns (Config_Agent c));
  d_backoff : leaf coerceInt raw "agent" "max_retry_backoff_ms" 0 = Some (MaxRetryBackoffMS (Config_Agent c));
  d_command : leaf coerceString raw "codex" "command" EmptyString = Some (Codex_Command (Config_Codex c));
  d_turn_timeout : leaf coerceInt raw "codex" "turn_timeout_ms" 0 = Some (TurnTimeoutMS (Config_Codex c));
  d_read_timeout : leaf coerceInt raw "codex" "read_timeout_ms" 0 = Some (ReadTimeoutMS (Config_Codex c));
  d_stall_timeout : leaf coerceInt raw "codex" "stall_timeout_ms" 0 = Some (StallTimeoutMS (Config_Codex c));
  d_approval : leaf coerceString raw "codex" "approval_policy" EmptyString = Some (ApprovalPolicy (Config_Codex c));
  d_thread : leaf coerceString raw "codex" "thread_sandbox" EmptyString = Some (ThreadSandbox (Config_Codex c));
  d_turn_sandbox : leaf coerceString raw "codex" "turn_sandbox_policy" EmptyString = Some (TurnSandboxPolicy (Config_Codex c));
  d_port : leaf coerceInt raw "server" "port" 0 = Some (Server_Port (Config_Server c));
  d_bind : leaf coerceString raw "server" "bind" EmptyString = Some (Server_Bind (Config_Server c));
}.

Lemma does_leaf {A} (pr : Config -> A) (coerce : yvalue -> option A) raw sec key c :
  does pr (readsKey coerce key (mapAt raw sec)) (decodeAll raw) ->
  decodeAll raw zeroConfig = inl c -> leaf coerce raw sec key (pr zeroConfig) = Some (pr c).
Proof.
  intros H E. specialize (H _ _ E). unfold readsKey, leaf in *. destruct (ylookup key _); congruence.
Qed.

Lemma decodeAll_decoded raw c : decodeAll raw zeroConfig = inl c -> decoded raw c.
Proof.
  intros E. split;
    match goal with
    | |- leaf ?co ?raw ?sec ?key _ = Some ?rhs =>
      let f := eval pattern c in rhs in
      match f with ?pr _ => apply (does_leaf pr co raw sec key c); [decoded sec key|exact E] end
    end.
Qed.

(** ** The resolved configuration *)

Section resolved.
Context (env : string -> string).

(** The workspace root as it is configured, and made absolute and clean. *)
Definition placedRoot (workflowDir root : string) : string :=
  if decide (root = EmptyString) then EmptyString
  else Clean (if rooted root then root else Join [workflowDir; root]).

(** The key to the tracker: a variable is looked up, and linear has a
    variable of its own. *)
Definition trackerKey (kind key : string) : string :=
  let key := expandVar env key in
  if bool_decide (kind = "linear"%string) && bool_decide (key = EmptyString)
  then env "LINEAR_API_KEY"%string else key.

Record resolved (raw : ymap) (dir : string) (c : Config) : Prop := {
  r_kind : leaf coerceString raw "tracker" "kind" EmptyString = Some (Tracker_Kind (Config_Tracker c));
  r_endpoint : leaf coerceString raw "tracker" "endpoint"
      (if decide (Tracker_Kind (Config_Tracker c) = "linear"%string)
       then "https://api.linear.app/graphql"%string else EmptyString)
    = Some (Tracker_Endpoint (Config_Tracker c));
  r_api_key : exists key, leaf coerceString raw "tracker" "api_key" EmptyString = Some key /\
    Tracker_APIKey (Config_Tracker c) = trackerKey (Tracker_Kind (Config_Tracker c)) key;
  r_slugs : leaf coerceStringSlice raw "tracker" "project_slugs" [] = Some (Tracker_ProjectSlugs (Config_Tracker c));
  r_active : leaf coerceStringSlice raw "tracker" "active_states" ["Todo"; "In Progress"]%string
    = Some (Tracker_ActiveStates (Config_Tracker c));
  r_terminal : leaf coerceStringSlice raw "tracker" "terminal_states"
      ["Closed"; "Cancelled"; "Canceled"; "Duplicate"; "Done"]%string
    = Some (Tracker_TerminalStates (Config_Tracker c));
  r_interval : leaf coerceInt raw "polling" "interval_ms" 30000 = Some (Polling_IntervalMS (Config_Polling c));
  r_root : exists root,
    leaf coerceString raw "workspace" "root" (Join [TempDir env; "symphony_workspaces"%string]) = Some root /\
    Workspace_Root (Config_Workspace c) = placedRoot dir (expandPath env root);
  r_timeout : leaf coerceInt raw "hooks" "timeout_ms" 60000 = Some (Hooks_TimeoutMS (Config_Hooks c));
  r_after_create : leaf coerceString raw "hooks" "after_create" EmptyString = Some (Hooks_AfterCreate (Config_Hooks c));
  r_before_run : leaf coerceString raw "hooks" "before_run" EmptyString = Some (Hooks_BeforeRun (Config_Hooks c));
  r_after_run : leaf coerceString raw "hooks" "after_run" EmptyString = Some (Hooks_AfterRun (Config_Hooks c));
  r_before_remove : leaf coerceString raw "hooks" "before_remove" EmptyString = Some (Hooks_BeforeRemove (Config_Hooks c));
  r_max_agents : leaf coerceInt raw "agent" "max_concurrent_agents" 10 = Some (MaxConcurrentAgents (Config_Agent c));
  r_by_state : leaf coercePerStateMap raw "agent" "max_concurrent_agents_by_state" ∅
    = Some (MaxConcurrentAgentsByState (Config_Agent c));
  r_max_turns : leaf coerceInt raw "agent" "max_turns" 20 = Some (MaxTurns (Config_Agent c));
  r_backoff : leaf coerceInt raw "agent" "max_retry_backoff_ms" 300000 = Some (MaxRetryBackoffMS (Config_Agent c));
  r_command : leaf coerceString raw "codex" "command" "codex app-server"%string = Some (Codex_Command (Config_Codex c));
  r_turn_timeout : leaf coerceInt raw "codex" "turn_timeout_ms" 3600000 = Some (TurnTimeoutMS (Config_Codex c));
  r_read_timeout : leaf coerceInt raw "codex" "read_timeout_ms" 5000 = Some (ReadTimeoutMS (Config_Codex c));
  r_stall_timeout : leaf coerceInt raw "codex" "stall_timeout_ms" 300000 = Some (StallTimeoutMS (Config_Codex c));
  r_approval : leaf coerceString raw "codex" "approval_policy" EmptyString = Some (ApprovalPolicy (Config_Codex c));
  r_thread : leaf coerceString raw "codex" "thread_sandbox" EmptyString = Some (ThreadSandbox (Config_Codex c));
  r_turn_sandbox : leaf coerceString raw "codex" "turn_sandbox_policy" EmptyString = Some (TurnSandboxPolicy (Config_Codex c));
  r_port : leaf coerceInt raw "server" "port" 0 = Some (Server_Port (Config_Server c));
  r_bind : leaf coerceString raw "server" "bind" "127.0.0.1"%string = Some (Server_Bind (Config_Server c));
  r_valid : validate c = None;
}.

Lemma defaultTo_leaf {A} `{EqDecision A} (coerce : yvalue -> option A) raw sec key zero x v :
  leaf coerce raw sec key zero = Some v ->
  leaf coerce raw sec key x = Some (defaultTo (mapAt raw sec) key zero x v).
Proof.
  unfold leaf, defaultTo. destruct (ylookup key _); [done|]. intros [= <-]. by rewrite decide_True.
Qed.

Lemma Resolve_decoded raw dir c : Resolve env raw dir = inl c ->
  exists c0, decoded raw c0 /\ validate c = None /\
    c = normalizeWorkspaceRoot (expandFields env (applyDefaults env c0 raw)) dir.
Proof.
  unfold Resolve. fold (decodeAll raw). destruct (decodeAll raw zeroConfig) as [c0|] eqn:E; [|done].
  destruct (validate _) eqn:Ev; [done|]. intros [= <-]. exists c0.
  split_and!; [by apply decodeAll_decoded|done|done].
Qed.

Lemma normalize_fields c dir :
  let c' := normalizeWorkspaceRoot c dir in
  Config_Tracker c' = Config_Tracker c /\ Config_Polling c' = Config_Polling c /\
  Config_Hooks c' = Config_Hooks c /\ Config_Agent c' = Config_Agent c /\
  Config_Codex c' = Config_Codex c /\ Config_Server c' = Config_Server c /\
  Workspace_Root (Config_Workspace c') = placedRoot dir (Workspace_Root (Config_Workspace c)).
Proof. unfold normalizeWorkspaceRoot, placedRoot. case_decide as E; cbn; [|done]. by rewrite E. Qed.

Lemma Resolve_resolved raw dir c : Resolve env raw dir = inl c -> resolved raw dir c.
Proof.
  intros (c0 & H & Hv & Hc)%Resolve_decoded.
  destruct (normalize_fields (expandFields env (applyDefaults env c0 raw)) dir)
    as (E1 & E2 & E3 & E4 & E5 & E6 & E7). cbn zeta in *.
  rewrite <- Hc in E1, E2, E3, E4, E5, E6, E7. clear Hc.
  split; rewrite ?E1, ?E2, ?E3, ?E4, ?E5, ?E6.
  - exact (d_kind _ _ H).
  - change (leaf coerceString raw "tracker" "endpoint"
      (if decide (Tracker_Kind (Config_Tracker c0) = "linear"%string)
       then "https://api.linear.app/graphql"%string else EmptyString)
      = Some (if decide (Tracker_Kind (Config_Tracker c0) = "linear"%string)
              then defaultTo (mapAt raw "tracker") "endpoint" EmptyString "https://api.linear.app/graphql"%string
                     (Tracker_Endpoint (Config_Tracker c0))
              else Tracker_Endpoint (Config_Tracker c0))).
    case_decide; [exact (defaultTo_leaf _ _ _ _ _ _ _ (d_endpoint _ _ H))|exact (d_endpoint _ _ H)].
  - exists (Tracker_APIKey (Config_Tracker c0)). split; [exact (d_api_key _ _ H)|reflexivity].
  - exact (d_slugs _ _ H).
  - exact (defaultTo_leaf _ _ _ _ _ _ _ (d_active _ _ H)).
  - exact (defaultTo_leaf _ _ _ _ _ _ _ (d_terminal _ _ H)).
  - exact (defaultTo_leaf _ _ _ _ _ _ _ (d_interval _ _ H)).
  - eexists. split; [exact (defaultTo_leaf _ _ _ _ _ _ _ (d_root _ _ H))|exact E7].
  - exact (defaultTo_leaf _ _ _ _ _ _ _ (d_timeout _ _ H)).
  - exact (d_after_create _ _ H).
  - exact (d_before_run _ _ H).
  - exact (d_after_run _ _ H).
  - exact (d_before_remove _ _ H).
  - exact (defaultTo_leaf _ _ _ _ _ _ _ (d_max_agents _ _ H)).
  - exact (d_by_state _ _ H).
  - exact (defaultTo_leaf _ _ _ _ _ _ _ (d_max_turns _ _ H)).
  - exact (defaultTo_leaf _ _ _ _ _ _ _ (d_backoff _ _ H)).
  - exact (defaultTo_leaf _ _ _ _ _ _ _ (d_command _ _ H)).
  - exact (defaultTo_leaf _ _ _ _ _ _ _ (d_turn_timeout _ _ H)).
  - exact (defaultTo_leaf _ _ _ _ _ _ _ (d_read_timeout _ _ H)).
  - exact (defaultTo_leaf _ _ _ _ _ _ _ (d_stall_timeout _ _ H)).
  - exact (d_approval _ _ H).
  - exact (d_thread _ _ H).
  - exact (d_turn_sandbox _ _ H).
  - exact (d_port _ _ H).
  - exact (defaultTo_leaf _ _ _ _ _ _ _ (d_bind _ _ H)).
  - exact Hv.
Qed.

(** The root is clean, and absolute if the workflow file is; or it is empty,
    which happens only when the configured root expands to nothing. *)
Lemma placedRoot_spec dir root : rooted dir = true ->
  (placedRoot dir root = EmptyString <-> root = EmptyString) /\
  (root <> EmptyString -> Clean (placedRoot dir root) = placedRoot dir root /\
     rooted (placedRoot dir root) = true).
Proof.
  intros Hd. unfold placedRoot. case_decide as E; [by subst|].
  set (p := if rooted root then root else _).
  assert (rooted p = true) as Hp.
  { subst p. destruct (rooted root) eqn:Hr; [done|].
    destruct (Join_comps dir root) as [-> _]; [by destruct dir|done]. }
  destruct (Clean_comps p) as [Hr _]. rewrite Hp in Hr. split.
  - split; [|done]. intros E2. by rewrite E2 in Hr.
  - intros _. split; [apply Clean_idem|done].
Qed.
End resolved.

(** ** Front matter and prompt *)

Definition carriageReturn : ascii := "013"%char.

(** Lines ended the way DOS ends them. *)
Fixpoint dosLines (s : string) : string :=
  match s with
  | EmptyString => EmptyString
  | String.String c t =>
    if decide (c = workflowfile.newline)
    then String.String carriageReturn (String.String c (dosLines t))
    else String.String c (dosLines t)
  end.

Lemma unixLines_id s :
  Strings.ContainsByte s carriageReturn = false -> workflowfile.unixLines s = s.
Proof.
  induction s as [|c s IH]; [done|]. cbn [Strings.ContainsByte workflowfile.unixLines].
  intros [Hc%bool_decide_eq_false Hs]%orb_false_iff.
  rewrite bool_decide_eq_false_2; [|exact (fun E => Hc (eq_sym E)) || exact Hc]. cbn [andb]. by rewrite IH.
Qed.

Lemma unixLines_dosLines s :
  Strings.ContainsByte s carriageReturn = false -> workflowfile.unixLines (dosLines s) = s.
Proof.
  induction s as [|c s IH]; [done|]. cbn [Strings.ContainsByte dosLines].
  intros [Hc%bool_decide_eq_false Hs]%orb_false_iff. case_decide as E.
  - subst c. cbn [workflowfile.unixLines].
    assert (Strings.HasPrefix (String.String workflowfile.newline (dosLines s)) workflowfile.nl = true) as ->.
    { unfold Strings.HasPrefix, workflowfile.nl. cbn. by destruct (dosLines s). }
    rewrite bool_decide_eq_true_2 by done. cbn [andb].
    rewrite bool_decide_eq_false_2 by done. cbn [andb]. by rewrite IH.
  - cbn [workflowfile.unixLines].
    rewrite bool_decide_eq_false_2; [|exact (fun E => Hc (eq_sym E)) || exact Hc]. cbn [andb]. by rewrite IH.
Qed.

Lemma join_split_at s sep :
  Strings.Join (Strings.Split s sep) (String.String sep EmptyString) = s.
Proof.
  induction s as [|c s IH]; [done|]. cbn [Strings.Split]. pose proof (split_nonempty s sep) as Hne.
  case_decide as E.
  - subst c. destruct (Strings.Split s sep) as [|x l]; [done|].
    change (Strings.Join (EmptyString :: x :: l) (String.String sep EmptyString))
      with (EmptyString +:+ String.String sep EmptyString +:+ Strings.Join (x :: l) (String.String sep EmptyString)).
    by rewrite IH, str_app_nil_l, str_app_cons, str_app_nil_l.
  - destruct (Strings.Split s sep) as [|x l]; [done|]. rewrite <- IH. destruct l as [|y l]; [done|].
    change (Strings.Join (String.String c x :: y :: l) (String.String sep EmptyString))
      with (String.String c x +:+ String.String sep EmptyString +:+ Strings.Join (y :: l) (String.String sep EmptyString)).
    by rewrite str_app_cons.
Qed.

Lemma splitFence_app fm body : Forall (fun l => l <> "---"%string) fm ->
  workflowfile.splitFence (fm ++ "---"%string :: body) = Some (fm, body).
Proof.
  induction 1 as [|l fm Hl _ IH]; cbn [app workflowfile.splitFence]; [by rewrite decide_True|].
  rewrite decide_False by done. by rewrite IH.
Qed.

(** A line of front matter: one line, and not the fence. *)
Definition matterLine (l : string) : Prop :=
  Strings.ContainsByte l workflowfile.newline = false /\ l <> "---"%string.

Lemma Parse_fenced yaml fm body :
  Forall matterLine fm ->
  let text := bufio.unlines ("---"%string :: fm ++ ["---"%string]) +:+ body in
  workflowfile.unixLines text = text ->
  workflowfile.Parse yaml text
    = workflowfile.buildWorkflow yaml (Strings.Join fm workflowfile.nl) body.
Proof.
  intros Hfm text Ht. unfold workflowfile.Parse. rewrite Ht. unfold text.
  rewrite bufio.split_unlines.
  2: { constructor; [done|]. apply Forall_app. split; [|by repeat constructor].
       eapply Forall_impl; [exact Hfm|]. by intros ? []. }
  cbn [app]. rewrite decide_True by done. unfold workflowfile.splitFrontMatter. cbn [tail].
  rewrite <- app_assoc. cbn [app]. rewrite splitFence_app.
  - cbn zeta. unfold workflowfile.nl at 2. by rewrite join_split_at.
  - eapply Forall_impl; [exact Hfm|]. by intros ? [].
Qed.

Lemma Parse_plain yaml text :
  Strings.HasPrefix text "---" = false -> workflowfile.unixLines text = text ->
  workflowfile.Parse yaml text = inl (workflowfile.mkWorkflow [] (Strings.TrimSpace text)).
Proof.
  intros Hp Ht. unfold workflowfile.Parse. rewrite Ht.
  destruct (Strings.Split text workflowfile.newline) as [|l ls] eqn:E; [done|].
  case_decide as El; [|done]. subst l. exfalso.
  pose proof (join_split_at text workflowfile.newline) as Hj. rewrite E in Hj. rewrite <- Hj in Hp.
  destruct ls as [|y ls]; [by vm_compute in Hp|].
  unfold Strings.HasPrefix in Hp.
  change (Strings.Join ("---"%string :: y :: ls) (String.String workflowfile.newline EmptyString))
    with ("---" +:+ (String.String workflowfile.newline EmptyString +:+
            Strings.Join (y :: ls) (String.String workflowfile.newline EmptyString))) in Hp.
  by rewrite str_prefix_app in Hp.
Qed.
