(* ===== verification/Pathmap.v ===== *)
(** * platform/pathmap: host and container paths

    [Mounts] translate a path by the mount with the longest matching prefix. *)

From S2P Require Import Prelude GoStd GoText GoPath.
Open Scope Z_scope.

Import filepath.

Module pathmap.

Record Mount := mkMount { Host : string; Container : string }.

Definition subpath (p root : string) : option string :=
  if decide (p = root) then Some "."%string
  else
    let prefix := root +:+ "/" in
    if (String.length prefix <? String.length p)%nat
       && bool_decide (Strings.str_take (String.length prefix) p = prefix)
    then Some (Strings.str_drop (String.length prefix) p)
    else None.

(** The best mount so far with the length of its root and the rest of the
    path; a longer root replaces it. *)
Definition better (clean : string) (key : Mount -> string) (best : option (Mount * nat * string))
    (m : Mount) : option (Mount * nat * string) :=
  let root := Clean (key m) in
  match subpath clean root with
  | None => best
  | Some rel =>
    let found := Some (mkMount (Clean (Host m)) (Clean (Container m)), String.length root, rel) in
    match best with
    | Some (_, bestLen, _) => if (bestLen <? String.length root)%nat then found else best
    | None => found
    end
  end.

Definition longestMatch (ms : list Mount) (clean : string) (key : Mount -> string)
    : option (Mount * string) :=
  match foldl (better clean key) None ms with
  | Some (m, _, rel) => Some (m, rel)
  | None => None
  end.

Definition ToHost (ms : list Mount) (container : string) : option string :=
  match longestMatch ms (Clean container) Container with
  | None => None
  | Some (m, rel) => Some (if decide (rel = "."%string) then Host m else Join [Host m; rel])
  end.

Definition ToContainer (ms : list Mount) (host : string) : option string :=
  match longestMatch ms (Clean host) Host with
  | None => None
  | Some (m, rel) => Some (if decide (rel = "."%string) then Container m else Join [Container m; rel])
  end.

(** ** Paths below a root *)

(** A path equals the root or continues it behind a slash. *)
Lemma subpath_spec p root rel :
  subpath p root = Some rel <->
  (p = root /\ rel = "."%string) \/
  (rel <> EmptyString /\ p = root +:+ "/" +:+ rel).
Proof.
  unfold subpath. case_decide as E.
  - split; [intros [= <-]; by left|]. intros [[_ ->]|[Hne ->]]; [done|]. exfalso.
    apply (f_equal String.length) in E. rewrite !str_length_app in E. cbn in E. destruct rel; [done|]. cbn in E. lia.
  - destruct ((String.length (root +:+ "/") <? String.length p)%nat && _) eqn:B.
    + apply andb_true_iff in B as [Hl%Nat.ltb_lt Ht%bool_decide_eq_true].
      assert (p = root +:+ "/" +:+ Strings.str_drop (String.length (root +:+ "/")) p) as Hp.
      { rewrite <- (str_take_drop (String.length (root +:+ "/")) p) at 1. rewrite Ht. by rewrite str_app_assoc. }
      split.
      * intros [= <-]. right. split; [|done]. intros En. rewrite En in Hp.
        rewrite Hp in Hl. rewrite !str_length_app in Hl. cbn in Hl. lia.
      * intros [[? _]|[Hne Hq]]; [done|]. f_equal. rewrite Hq, <- str_app_assoc. apply str_drop_app.
    + split; [done|]. intros [[? _]|[Hne ->]]; [done|]. exfalso.
      apply andb_false_iff in B as [Hl%Nat.ltb_ge|Ht%bool_decide_eq_false].
      * rewrite !str_length_app in Hl. destruct rel; [done|]. cbn in Hl. lia.
      * apply Ht. rewrite <- str_app_assoc. apply str_take_app.
Qed.

(** ** The longest match *)

Section match_.
Context (clean : string) (key : Mount -> string).

(** [best] is what the mounts [ms] give: the first of the longest. *)
Definition chosen (ms : list Mount) (best : option (Mount * nat * string)) : Prop :=
  match best with
  | None => forall m, m ∈ ms -> subpath clean (Clean (key m)) = None
  | Some (b, n, rel) =>
    (exists m, m ∈ ms /\ b = mkMount (Clean (Host m)) (Clean (Container m)) /\
       n = String.length (Clean (key m)) /\ subpath clean (Clean (key m)) = Some rel) /\
    (forall m r, m ∈ ms -> subpath clean (Clean (key m)) = Some r ->
       (String.length (Clean (key m)) <= n)%nat)
  end.

Lemma better_chosen ms best m : chosen ms best -> chosen (ms ++ [m]) (better clean key best m).
Proof.
  intros H. unfold better. destruct (subpath clean (Clean (key m))) as [rel|] eqn:E.
  - destruct best as [[[b n] r]|].
    + destruct H as [(m0 & Hm0 & -> & -> & Hs0) Hmax].
      destruct (Nat.ltb_spec (String.length (Clean (key m0))) (String.length (Clean (key m)))) as [Hlt|Hge].
      * split; [exists m; set_solver|]. intros m' r' [Hm'|Hm']%elem_of_app Hs'.
        -- specialize (Hmax m' r' Hm' Hs'). lia.
        -- apply list_elem_of_singleton in Hm' as ->. done.
      * split; [exists m0; set_solver|]. intros m' r' [Hm'|Hm']%elem_of_app Hs'; [eauto|].
        by apply list_elem_of_singleton in Hm' as ->.
    + split; [exists m; set_solver|]. intros m' r' [Hm'|Hm']%elem_of_app Hs'.
      * rewrite (H m' Hm') in Hs'. done.
      * by apply list_elem_of_singleton in Hm' as ->.
  - destruct best as [[[b n] r]|].
    + destruct H as [(m0 & Hm0 & H0) Hmax]. split; [exists m0; set_solver|].
      intros m' r' [Hm'|Hm']%elem_of_app Hs'; [eauto|]. apply list_elem_of_singleton in Hm' as ->. congruence.
    + intros m' [Hm'|Hm']%elem_of_app; [by apply H|]. by apply list_elem_of_singleton in Hm' as ->.
Qed.

Lemma foldl_chosen ms : chosen ms (foldl (better clean key) None ms).
Proof.
  assert (forall pre best, chosen pre best -> chosen (pre ++ ms) (foldl (better clean key) best ms)) as H.
  { induction ms as [|m ms IH]; intros pre best Hb; [by rewrite app_nil_r|]. cbn [foldl].
    specialize (IH _ _ (better_chosen pre best m Hb)). by rewrite <- app_assoc in IH. }
  apply (H [] None). intros m Hm. set_solver.
Qed.

(** No mount is found exactly when none covers the path; the one found covers
    it and none that does has a longer root. *)
Lemma longestMatch_spec ms :
  match longestMatch ms clean key with
  | None => forall m, m ∈ ms -> subpath clean (Clean (key m)) = None
  | Some (b, rel) => exists m, m ∈ ms /\ b = mkMount (Clean (Host m)) (Clean (Container m)) /\
      subpath clean (Clean (key m)) = Some rel /\
      forall m' r, m' ∈ ms -> subpath clean (Clean (key m')) = Some r ->
        (String.length (Clean (key m')) <= String.length (Clean (key m)))%nat
  end.
Proof.
  unfold longestMatch. pose proof (foldl_chosen ms) as H.
  destruct (foldl (better clean key) None ms) as [[[b n] rel]|]; [|exact H].
  destruct H as [(m & Hm & -> & -> & Hs) Hmax]. exists m. split_and!; eauto.
Qed.
End match_.

(** ** Round trips *)

(** A mount point: an absolute path other than the root directory. *)
Definition mountPoint (p : string) : Prop := rooted p = true /\ comps p <> [].

Lemma rooted_normal_plain p : rooted p = true -> Forall plain (comps p).
Proof.
  intros Hr. pose proof (comps_normal p) as H. rewrite Hr in H. by inversion H.
Qed.

Lemma Join_app l1 l2 sep : l1 <> [] -> l2 <> [] ->
  Strings.Join (l1 ++ l2) sep = Strings.Join l1 sep +:+ sep +:+ Strings.Join l2 sep.
Proof.
  induction l1 as [|x l1 IH]; [done|]. intros _ H2. destruct l1 as [|y l1].
  - cbn [app]. destruct l2; [done|]. done.
  - change (Strings.Join ((x :: y :: l1) ++ l2) sep) with (x +:+ sep +:+ Strings.Join ((y :: l1) ++ l2) sep).
    rewrite IH by done.
    change (Strings.Join (x :: y :: l1) sep) with (x +:+ sep +:+ Strings.Join (y :: l1) sep).
    by rewrite !str_app_assoc.
Qed.

(** A clean mount point and elements behind it. *)
Lemma render_below root l : mountPoint root -> l <> [] ->
  render true (comps root ++ l) = Clean root +:+ "/" +:+ Strings.Join l "/".
Proof.
  intros [Hr Hc] Hl. rewrite Clean_render, Hr. cbn [render]. rewrite Join_app by done.
  by rewrite !str_app_assoc.
Qed.

Lemma split_clean p : rooted p = true ->
  Strings.Split (Clean p) "/" = EmptyString :: match comps p with [] => [EmptyString] | l => l end.
Proof.
  intros Hr. rewrite Clean_render, Hr. cbn [render].
  rewrite slash_app, <- (str_app_nil_l (String.String "/" _)), split_sep. cbn [Strings.Split app].
  pose proof (normal_noslash _ _ (comps_normal p)) as Hn.
  destruct (comps p) as [|x l]; [done|]. by rewrite split_join.
Qed.

Lemma join_split s : Strings.Join (Strings.Split s "/") "/" = s.
Proof.
  induction s as [|c s IH]; [done|]. cbn [Strings.Split].
  pose proof (split_nonempty s "/"). destruct (Strings.Split s "/") as [|x l]; [done|]. case_decide as E.
  - change (Strings.Join (EmptyString :: x :: l) "/") with (EmptyString +:+ "/" +:+ Strings.Join (x :: l) "/").
    rewrite IH, str_app_nil_l, slash_app. by subst.
  - destruct l as [|y l]; [cbn in *; by rewrite IH|].
    change (Strings.Join (String.String c x :: y :: l) "/")
      with (String.String c x +:+ "/" +:+ Strings.Join (y :: l) "/").
    rewrite str_app_cons. f_equal. exact IH.
Qed.

(** What lies below a mount point, by elements. *)
Lemma subpath_below p root rel :
  rooted p = true -> mountPoint root -> rel <> "."%string ->
  subpath (Clean p) (Clean root) = Some rel <->
  exists l, l <> [] /\ comps p = comps root ++ l /\ rel = Strings.Join l "/".
Proof.
  intros Hp Hm Hd. rewrite subpath_spec. split.
  - intros [[_ ?]|[Hne E]]; [done|]. exists (Strings.Split rel "/").
    split_and!; [apply split_nonempty| |by rewrite join_split].
    apply (f_equal (fun s => Strings.Split s "/")) in E. rewrite slash_app, split_sep in E.
    destruct Hm as [Hm1 Hm2]. rewrite !split_clean in E by done. injection E as E.
    destruct (comps root) as [|x l]; [done|]. cbn [app] in E |- *.
    destruct (comps p); [|done]. apply (f_equal length) in E. cbn [length] in E.
    rewrite length_app in E. pose proof (split_nonempty rel "/"). destruct (Strings.Split rel "/"); [done|].
    cbn [length] in E. lia.
  - intros (l & Hl & Hc & ->). right.
    assert (Forall plain l) as Hpl.
    { pose proof (rooted_normal_plain p Hp) as Hf. rewrite Hc in Hf. by apply Forall_app in Hf as [_ ?]. }
    split; [apply Join_nonempty; [|done]; eapply Forall_impl; [exact Hpl|]; by intros x []|].
    rewrite (Clean_render p), Hp, Hc. by apply render_below.
Qed.

(** A path is covered by a mount point when the elements of the mount point
    start it. *)
Lemma subpath_covers p root rel :
  rooted p = true -> mountPoint root -> subpath (Clean p) (Clean root) = Some rel ->
  exists l, comps p = comps root ++ l /\
    (l = [] /\ rel = "."%string \/ l <> [] /\ rel = Strings.Join l "/" /\ rel <> "."%string).
Proof.
  intros Hp Hm H. destruct (decide (rel = "."%string)) as [->|Hd].
  - apply subpath_spec in H as [[E _]|[_ E]].
    + exists []. rewrite app_nil_r. split; [|by left].
      destruct (Clean_comps p) as [_ <-], (Clean_comps root) as [_ <-]. by rewrite E.
    + exfalso. apply (f_equal (fun s => Strings.Split s "/")) in E. rewrite slash_app, split_sep in E.
      destruct Hm as [Hm1 Hm2]. rewrite !split_clean in E by done. injection E as E.
      change (Strings.Split "." "/") with ["."%string] in E.
      pose proof (rooted_normal_plain p Hp) as Hf.
      destruct (comps root) as [|x l]; [done|].
      destruct (comps p) as [|y k]; [by destruct l|]. rewrite E in Hf.
      apply Forall_app in Hf as [_ Hf]. apply Forall_cons in Hf as [(_ & ? & _) _]. done.
  - apply subpath_below in H as (l & Hl & Hc & ->); [|done..]. exists l. split; [done|]. by right.
Qed.

(** Moving a path from one mount point to another. *)
Lemma move root' l :
  mountPoint root' -> Forall plain l -> l <> [] ->
  rooted (Join [Clean root'; Strings.Join l "/"]) = true /\
  comps (Join [Clean root'; Strings.Join l "/"]) = comps root' ++ l.
Proof.
  intros [Hr Hc] Hl Hne.
  assert (Clean root' <> EmptyString) as Hcl.
  { rewrite Clean_render, Hr. done. }
  destruct (Join_comps (Clean root') (Strings.Join l "/") Hcl) as [-> ->].
  destruct (Clean_comps root') as [-> ->]. split; [done|].
  rewrite split_join; [|eapply Forall_impl; [exact Hl|]; by intros x (_ & _ & _ & ?)|done].
  by rewrite clean_go_plain, rev_involutive.
Qed.

(** No container mount point lies at or below another one. *)
Definition separate (ms : list Mount) : Prop :=
  forall m m', m ∈ ms -> m' ∈ ms -> (exists l, comps (Container m') = comps (Container m) ++ l) -> m = m'.

Definition translates (ms : list Mount) : Prop :=
  Forall (fun m => mountPoint (Host m) /\ mountPoint (Container m)) ms.

Lemma prefix_compare {A} (a b l k : list A) : a ++ l = b ++ k ->
  (exists x, b = a ++ x) \/ (exists x, a = b ++ x).
Proof.
  revert b. induction a as [|x a IH]; intros b E; [left; by exists b|].
  destruct b as [|y b]; [right; by exists (x :: a)|]. injection E as -> E.
  destruct (IH b E) as [[z ->]|[z ->]]; [left|right]; by exists z.
Qed.

Lemma translates_at ms m : translates ms -> m ∈ ms -> mountPoint (Host m) /\ mountPoint (Container m).
Proof. unfold translates. rewrite Forall_forall. auto. Qed.

Lemma Join_not_dot l : Forall plain l -> l <> [] -> Strings.Join l "/" <> "."%string.
Proof.
  intros Hl Hne E. apply (f_equal (fun s => Strings.Split s "/")) in E.
  rewrite split_join in E; [|eapply Forall_impl; [exact Hl|]; by intros y (_ & _ & _ & ?)|done].
  subst l. apply Forall_cons in Hl as [(_ & ? & _) _]. done.
Qed.

(** The root of a mount covers what has its elements in front. *)
Lemma covered p root l :
  rooted p = true -> mountPoint root -> comps p = comps root ++ l -> Forall plain l ->
  subpath (Clean p) (Clean root) <> None.
Proof.
  intros Hp Hm Hc Hl. destruct (decide (l = [])) as [->|Hne].
  - rewrite app_nil_r in Hc. assert (Clean p = Clean root) as E.
    { destruct Hm as [Hr _]. by rewrite !Clean_render, Hp, Hr, Hc. }
    rewrite E. unfold subpath. by rewrite decide_True.
  - rewrite (proj2 (subpath_below p root (Strings.Join l "/") Hp Hm (Join_not_dot l Hl Hne))); [done|].
    by exists l.
Qed.

(** The path a mount point and the rest of a path make. *)
Lemma moved root rel l :
  mountPoint root -> Forall plain l ->
  (l = [] /\ rel = "."%string \/ l <> [] /\ rel = Strings.Join l "/" /\ rel <> "."%string) ->
  let h := if decide (rel = "."%string) then Clean root else Join [Clean root; rel] in
  rooted h = true /\ comps h = comps root ++ l /\ Clean h = h.
Proof.
  intros Hm Hl [[-> ->]|(Hne & -> & Hd)]; cbn zeta.
  - rewrite decide_True by done. rewrite app_nil_r. destruct (Clean_comps root) as [-> ->], Hm.
    split_and!; try done. apply Clean_idem.
  - rewrite decide_False by done. destruct (move root l Hm Hl Hne) as [Hr Hc]. split_and!; try done.
    destruct (Join_clean [Clean root; Strings.Join l "/"]) as [|E]; [done|]. by rewrite E in Hr.
Qed.

Lemma to_host_below ms m p l :
  translates ms -> separate ms -> m ∈ ms -> rooted p = true -> comps p = comps (Container m) ++ l ->
  Forall plain l ->
  exists h, ToHost ms p = Some h /\ rooted h = true /\ comps h = comps (Host m) ++ l /\ Clean h = h.
Proof.
  intros Ht Hs Hm Hp Hc Hl. unfold ToHost.
  pose proof (longestMatch_spec (Clean p) Container ms) as H.
  destruct (translates_at ms m Ht Hm) as [Hmh Hmc].
  destruct (longestMatch ms (Clean p) Container) as [[b rel]|];
    [|destruct (covered p _ l Hp Hmc Hc Hl); by apply H].
  destruct H as (m' & Hm' & -> & Hsub & _). destruct (translates_at ms m' Ht Hm') as [Hmh' Hmc'].
  destruct (subpath_covers p _ rel Hp Hmc' Hsub) as (l' & Hc' & Hcase).
  assert (m = m') as <-.
  { rewrite Hc in Hc'. destruct (prefix_compare _ _ _ _ Hc') as [Hx|Hx]; [|symmetry]; by apply Hs. }
  rewrite Hc in Hc'. apply app_inv_head in Hc' as <-. eexists. split; [done|]. by apply moved.
Qed.

(** A host path that is mounted comes back from the container as it was. *)
Lemma host_round_trip ms h c :
  translates ms -> separate ms -> rooted h = true -> ToContainer ms h = Some c ->
  ToHost ms c = Some (Clean h).
Proof.
  intros Ht Hs Hr. unfold ToContainer. pose proof (longestMatch_spec (Clean h) Host ms) as H.
  destruct (longestMatch ms (Clean h) Host) as [[b rel]|]; [|done].
  destruct H as (m & Hm & -> & Hsub & _). destruct (translates_at ms m Ht Hm) as [Hmh Hmc].
  destruct (subpath_covers h _ rel Hr Hmh Hsub) as (l & Hc & Hcase).
  assert (Forall plain l) as Hl.
  { pose proof (rooted_normal_plain h Hr) as Hf. rewrite Hc in Hf. by apply Forall_app in Hf as [_ ?]. }
  cbn [Container]. intros Ec. apply (inj Some) in Ec as <-. destruct (moved (Container m) rel l Hmc Hl Hcase) as (Hr' & Hc' & _).
  destruct (to_host_below ms m _ l Ht Hs Hm Hr' Hc' Hl) as (h' & -> & Hrh & Hch & Hclean).
  f_equal. destruct (Clean_comps h) as [E1 E2].
  apply clean_ext; [done|apply Clean_idem|congruence|congruence].
Qed.
End pathmap.
