(* ===== verification/SchedState.v ===== *)
(** * orchestrator/scheduler: state and transitions

    [state.go], [transitions.go], [event.go], [effect.go], [retry.go] and
    [util.go]: the immutable scheduler state, the pure transition helpers, the
    event and effect sums, and the retry delay. *)

From S2P Require Import Prelude GoStd Metrics Tracker WfConfig.
Open Scope Z_scope.

(** ** Data *)

(** Go [error] values, identified by their message; [nil] is [None]. *)
Abbreviation error := string (only parsing).

Inductive ClaimState := Unclaimed | CS_Claimed | CS_Running | CS_RetryQueued | Released.

Inductive RunPhase :=
| PhasePreparingWorkspace
| PhaseBuildingPrompt
| PhaseLaunchingAgentProcess
| PhaseInitializingSession
| PhaseStreamingTurn
| PhaseFinishing
| PhaseSucceeded
| PhaseFailed
| PhaseTimedOut
| PhaseStalled
| PhaseCanceledByReconciliation.

Inductive RetryKind := RetryContinuation | RetryBackoff.

Record LiveSession := mkLiveSession {
  LS_SessionID : string;
  LS_ThreadID : string;
  LS_TurnID : string;
  LS_StartedAt : Time;
}.

Record RunAttempt := mkRunAttempt {
  Run_Issue : Issue;
  Run_Session : LiveSession;
  Run_Attempt : Z;
  Run_Phase : RunPhase;
  Run_TurnCount : Z;
  Run_StartedAt : Time;
  LastCodexMessage : string;
  LastCodexEvent : string;
  LastCodexTimestamp : Time;
  CodexAppServerPID : Z;
  TotalInputTokens : Z;
  TotalOutputTokens : Z;
  TotalTokens : Z;
  TotalRuntime : Duration;
  RateLimit : option RateLimitSnapshot;
}.

#[export] Instance eta_RunAttempt : Eta RunAttempt := fun r =>
  mkRunAttempt (Run_Issue r) (Run_Session r) (Run_Attempt r) (Run_Phase r)
    (Run_TurnCount r) (Run_StartedAt r) (LastCodexMessage r) (LastCodexEvent r)
    (LastCodexTimestamp r) (CodexAppServerPID r) (TotalInputTokens r)
    (TotalOutputTokens r) (TotalTokens r) (TotalRuntime r) (RateLimit r).

Record RetryEntry := mkRetryEntry {
  RE_IssueID : string;
  RE_Identifier : string;
  RE_Attempt : Z;
  RE_Kind : RetryKind;
  RE_Err : option error;
  RE_DueAtMS : Z;
}.

#[export] Instance eta_RetryEntry : Eta RetryEntry := fun r =>
  mkRetryEntry (RE_IssueID r) (RE_Identifier r) (RE_Attempt r) (RE_Kind r)
    (RE_Err r) (RE_DueAtMS r).

(** [map\[string\]struct{}] is [gset string]. *)
Record State := mkState {
  Running : gmap string RunAttempt;
  Claimed : gset string;
  RetryAttempts : gmap string RetryEntry;
  St_Usage : gmap string Accumulator;
  Runtime : gmap string Duration;
  CodexTotals : Totals;
  CodexRuntime : Duration;
}.

#[export] Instance eta_State : Eta State := fun r =>
  mkState (Running r) (Claimed r) (RetryAttempts r) (St_Usage r) (Runtime r)
    (CodexTotals r) (CodexRuntime r).

Definition NewState : State := mkState ∅ ∅ ∅ ∅ ∅ zeroTotals 0.

Record StateSnapshot := mkStateSnapshot {
  Snap_Running : gmap string RunAttempt;
  Snap_Claimed : gset string;
  Snap_RetryAttempts : gmap string RetryEntry;
  Snap_CodexTotals : Totals;
  (** nanoseconds; Go reports the same quantity as float64 seconds *)
  Snap_CodexRunning : Duration;
}.

Definition Snapshot (s : State) : StateSnapshot := mkStateSnapshot
  (Running s) (Claimed s) (RetryAttempts s)
  (map_fold (λ _ acc t, addTotals t (AccTotals acc)) (CodexTotals s) (St_Usage s))
  (map_fold (λ _ d rt, rt + d)%i64 (CodexRuntime s) (Runtime s)).

(** ** Events and effects *)

Inductive Event :=
| EvTick (ConfigValid : bool)
| EvCandidatesFetched (Issues : list Issue)
| EvTrackerRefreshed (RequestedIDs : list string) (Issues : list Issue)
| EvRevalidated (issue : Issue) (Attempt : Z) (Fresh : option Issue)
| EvRetryResolved (IssueID Identifier : string) (Attempt : Z)
    (Issues : list Issue) (FetchErr : option error)
| EvSpawned (issue : Issue) (Attempt : Z) (Session : LiveSession)
| EvSpawnFailed (issue : Issue) (Attempt : Z) (Err : option error)
| EvWorkerExit (IssueID : string) (Err : option error) (Attempt : Z)
| EvRetryDue (IssueID Identifier : string) (Attempt : Z)
| EvCodexActivity (IssueID Event Message : string) (Timestamp : Time)
    (usage : option Usage) (rateLimit : option RateLimitSnapshot)
    (TurnDuration : option Duration) (TurnCompleted : bool).

Inductive Effect :=
| EffFetchCandidates
| EffRefreshTracker (IDs : list string)
| EffRevalidate (issue : Issue) (Attempt : Z)
| EffRetryFetch (IssueID Identifier : string) (Attempt : Z)
| EffSpawn (issue : Issue) (Attempt : Z)
| EffKillWorker (IssueID Reason : string)
| EffRemoveWorkspace (Identifier : string)
| EffArmRetryTimer (IssueID Identifier : string) (Attempt : Z) (Delay : Duration)
| EffCancelRetryTimer (IssueID : string).

(** ** Transitions (transitions.go) *)

Definition ErrDuplicateDispatch : error := "issue already claimed or running".
Definition ErrStall : error := "stall timeout exceeded".
Definition ErrNotInRefresh : error := "issue not in refresh response".
Definition ErrLeftActiveStates : error := "issue left active states".
Definition errNoSlots : error := "no available orchestrator slots".

Definition claim (s : State) (issue : Issue) : State * option error :=
  if decide (Issue_ID issue ∈ Claimed s) then (s, Some ErrDuplicateDispatch)
  else match Running s !! Issue_ID issue with
  | Some _ => (s, Some ErrDuplicateDispatch)
  | None =>
      (s <| RetryAttempts := delete (Issue_ID issue) (RetryAttempts s) |>
         <| Claimed := {[Issue_ID issue]} ∪ Claimed s |>, None)
  end.

Definition claimFromRetry (s : State) (issueID : string) : State * option error :=
  match RetryAttempts s !! issueID with
  | None => (s, Some ErrDuplicateDispatch)
  | Some _ =>
      match Running s !! issueID with
      | Some _ => (s, Some ErrDuplicateDispatch)
      | None =>
          if decide (issueID ∈ Claimed s) then
            (s <| RetryAttempts := delete issueID (RetryAttempts s) |>, None)
          else (s, Some ErrDuplicateDispatch)
      end
  end.

Definition markRunning (s : State) (issue : Issue) (attempt : Z)
    (session : LiveSession) : State :=
  s <| Running := <[Issue_ID issue := mkRunAttempt issue session attempt
         PhasePreparingWorkspace 0 (LS_StartedAt session) "" "" 0 0 0 0 0 0 None]>
       (Running s) |>.

Definition updateIssueSnapshot (s : State) (issueID : string) (issue : Issue) : State :=
  match Running s !! issueID with
  | None => s
  | Some run => s <| Running := <[issueID := run <| Run_Issue := issue |>]> (Running s) |>
  end.

Definition workerExitNormal (s : State) (issueID : string) : option (State * RetryEntry) :=
  match Running s !! issueID with
  | None => None
  | Some run =>
      Some (s <| Running := delete issueID (Running s) |>,
            mkRetryEntry issueID (Issue_Identifier (Run_Issue run))
              (Run_Attempt run + 1)%i64 RetryContinuation None 0)
  end.

Definition workerExitAbnormal (s : State) (issueID : string) (err : option error)
    (attempt : Z) : option (State * RetryEntry) :=
  match Running s !! issueID with
  | None => None
  | Some run =>
      Some (s <| Running := delete issueID (Running s) |>,
            mkRetryEntry issueID (Issue_Identifier (Run_Issue run))
              (attempt + 1)%i64 RetryBackoff err 0)
  end.

Definition releaseClaim (s : State) (issueID : string) : State :=
  let s := match St_Usage s !! issueID with
    | Some acc => s <| CodexTotals := addTotals (CodexTotals s) (AccTotals acc) |>
                    <| St_Usage := delete issueID (St_Usage s) |>
    | None => s
    end in
  let s := match Runtime s !! issueID with
    | Some rt => s <| CodexRuntime := (CodexRuntime s + rt)%i64 |>
                   <| Runtime := delete issueID (Runtime s) |>
    | None => s
    end in
  s <| Running := delete issueID (Running s) |>
    <| Claimed := Claimed s ∖ {[issueID]} |>
    <| RetryAttempts := delete issueID (RetryAttempts s) |>.

Definition enqueueRetry (s : State) (entry : RetryEntry) : State :=
  s <| RetryAttempts := <[RE_IssueID entry := entry]> (RetryAttempts s) |>.

Definition incrementTurnCount (s : State) (issueID : string) : State :=
  match Running s !! issueID with
  | None => s
  | Some run =>
      s <| Running := <[issueID := run <| Run_TurnCount := (Run_TurnCount run + 1)%i64 |>]>
             (Running s) |>
  end.

Definition updateCodexActivity (s : State) (issueID event message : string)
    (ts : Time) : State :=
  match Running s !! issueID with
  | None => s
  | Some run =>
      let run := run <| LastCodexEvent := event |> <| LastCodexTimestamp := ts |> in
      let run := if String.eqb message "" then run
                 else run <| LastCodexMessage := message |> in
      s <| Running := <[issueID := run]> (Running s) |>
  end.

Definition recordUsage (s : State) (issueID : string) (u : Usage) : State :=
  match Running s !! issueID with
  | None => s
  | Some run =>
      let acc := Observe (default NewAccumulator (St_Usage s !! issueID)) u in
      let totals := AccTotals acc in
      let run := run <| TotalInputTokens := Totals_Input totals |>
                     <| TotalOutputTokens := Totals_Output totals |>
                     <| TotalTokens := Totals_Total totals |> in
      s <| St_Usage := <[issueID := acc]> (St_Usage s) |>
        <| Running := <[issueID := run]> (Running s) |>
  end.

Definition recordRateLimit (s : State) (issueID : string) (rl : RateLimitSnapshot) : State :=
  match Running s !! issueID with
  | None => s
  | Some run =>
      s <| Running := <[issueID := run <| RateLimit := Some rl |>]> (Running s) |>
  end.

Definition addRuntime (s : State) (issueID : string) (d : Duration) : State :=
  match Running s !! issueID with
  | None => s
  | Some run =>
      if d <=? 0 then s else
      s <| Running := <[issueID := run <| TotalRuntime := (TotalRuntime run + d)%i64 |>]>
             (Running s) |>
        <| Runtime := <[issueID := (default 0 (Runtime s !! issueID) + d)%i64]>
             (Runtime s) |>
  end.

(** ** Iteration order and retry delays (util.go, retry.go) *)

Definition sortedRunningIDs (s : State) : list string :=
  sort.Strings ((map_to_list (Running s)).*1).

Definition sortedIDs (ids : list string) : list string := sort.Strings ids.

Definition continuationDelay : Duration := 1000 * time.Millisecond.

Definition backoffDelay (attempt : Z) (cfg : Config) : Duration :=
  let attempt := if attempt <? 1 then 1 else attempt in
  let shift := (attempt - 1)%i64 in
  let shift := if 62 <? shift then 62 else shift in
  let ms := (10000 * shl64 1 shift)%i64 in
  let maxMS := MaxRetryBackoffMS (Config_Agent cfg) in
  let ms := if (0 <? maxMS) && (maxMS <? ms) then maxMS else ms in
  (ms * time.Millisecond)%i64.
