(* ===== verification/SchedReduce.v ===== *)
(** * orchestrator/scheduler: eligibility, slots and the pure [Reduce]

    [eligibility.go], [slots.go] and [reduce*.go].  [Reduce] folds one event
    into the next state and the list of effects the shell must perform; time
    is the argument [now]. *)

From S2P Require Import Prelude GoStd Metrics Tracker WfConfig SchedState.
Open Scope Z_scope.

(** ** Eligibility (eligibility.go) *)

Definition normSet (states : list string) : gset string :=
  list_to_set (strings.ToLower <$> states).

Definition hasActiveBlocker (blockers : list Blocker) (terminal : gset string) : bool :=
  existsb (λ b, negb (bool_decide (strings.ToLower (Blocker_State b) ∈ terminal))) blockers.

Definition eligible (iss : Issue) (s : State) (active terminal : gset string) : bool :=
  if String.eqb (Issue_ID iss) "" || String.eqb (Issue_Identifier iss) ""
     || String.eqb (Issue_Title iss) "" || String.eqb (Issue_State iss) "" then false
  else
    let norm := strings.ToLower (Issue_State iss) in
    if negb (bool_decide (norm ∈ active)) || bool_decide (norm ∈ terminal) then false
    else if is_some (Running s !! Issue_ID iss) then false
    else if bool_decide (Issue_ID iss ∈ Claimed s) then false
    else if is_some (RetryAttempts s !! Issue_ID iss) then false
    else if String.eqb (strings.ToLower (Issue_State iss)) "todo"
            && hasActiveBlocker (Issue_BlockedBy iss) terminal then false
    else true.

Definition filterEligible (cands : list Issue) (s : State) (cfg : Config) : list Issue :=
  let active := normSet (Tracker_ActiveStates (Config_Tracker cfg)) in
  let terminal := normSet (Tracker_TerminalStates (Config_Tracker cfg)) in
  List.filter (λ iss, eligible iss s active terminal) cands.

(** The comparison closure of [sortCandidates]: priority ascending with nil
    last, then creation time, then identifier. *)
Definition candidate_less (a b : Issue) : bool :=
  let tie :=
    if negb (time.Equal (Issue_CreatedAt a) (Issue_CreatedAt b)) then
      time.Before (Issue_CreatedAt a) (Issue_CreatedAt b)
    else String.ltb (Issue_Identifier a) (Issue_Identifier b) in
  match Issue_Priority a, Issue_Priority b with
  | None, Some _ => false
  | Some _, None => true
  | Some p, Some q => if negb (p =? q) then p <? q else tie
  | None, None => tie
  end.

Definition sortCandidates (l : list Issue) : list Issue :=
  sort.SliceStable candidate_less l.

(** ** Slots (slots.go) *)

Definition retryQueuedCount (s : State) : Z :=
  Z.of_nat (length (List.filter (λ id, negb (is_some (Running s !! id)))
                      ((map_to_list (RetryAttempts s)).*1))).

Definition runningInState (s : State) (norm : string) : Z :=
  Z.of_nat (length (List.filter (λ run,
      String.eqb (strings.ToLower (Issue_State (Run_Issue run))) norm)
    ((map_to_list (Running s)).*2))).

Definition availableGlobalSlots (s : State) (cfg : Config) : Z :=
  let used := Z.of_nat (size (Running s)) + retryQueuedCount s in
  let avail := (MaxConcurrentAgents (Config_Agent cfg) - used)%i64 in
  if avail <? 0 then 0 else avail.

(** The per-state limit, or the global one when none is configured. *)
Definition stateCapacity (cfg : Config) (norm : string) : Z :=
  match MaxConcurrentAgentsByState (Config_Agent cfg) !! norm with
  | Some capacity => capacity
  | None => MaxConcurrentAgents (Config_Agent cfg)
  end.

Definition availablePerStateSlots (state : string) (s : State) (cfg : Config) : Z :=
  let norm := strings.ToLower state in
  let capacity := stateCapacity cfg norm in
  let used := runningInState s norm in
  let avail := (capacity - used)%i64 in
  if avail <? 0 then 0 else avail.

Definition retryReclaimHasSlot (s : State) (cfg : Config) (issueID state : string) : bool :=
  let globalUsed := Z.of_nat (size (Running s)) + retryQueuedCount s in
  let globalUsed := if is_some (RetryAttempts s !! issueID) then globalUsed - 1
                    else globalUsed in
  if MaxConcurrentAgents (Config_Agent cfg) <=? globalUsed then false
  else 0 <? availablePerStateSlots state s cfg.

(** ** Retry arming (reduce.go: armRetry) *)

Definition armRetry (s : State) (entry : RetryEntry) (delay : Duration) (now : Time)
    : State * list Effect :=
  let entry := entry <| RE_DueAtMS := time.UnixMilli (time.Add now delay) |> in
  (enqueueRetry s entry,
   [EffArmRetryTimer (RE_IssueID entry) (RE_Identifier entry) (RE_Attempt entry) delay]).

(** ** Reconcile (reduce_reconcile.go) *)

Definition reconcileKillRetry (s : State) (effs : list Effect) (id : string) (attempt : Z)
    (cause : error) (reason : string) (cfg : Config) (now : Time) : State * list Effect :=
  match workerExitAbnormal s id (Some cause) attempt with
  | None => (s, effs)
  | Some (ns, entry) =>
      let effs := effs ++ [EffKillWorker id reason] in
      let '(ns, armEffs) := armRetry ns entry (backoffDelay (RE_Attempt entry) cfg) now in
      (ns, effs ++ armEffs)
  end.

(** The loop body of [reduceStall]; the loop runs over the ids running at
    entry, in sorted order. *)
Definition stallStep (cfg : Config) (now : Time) (threshold : Duration)
    (acc : State * list Effect) (id : string) : State * list Effect :=
  let '(s, effs) := acc in
  match Running s !! id with
  | None => (s, effs) (* the zero RunAttempt: base.IsZero() continues *)
  | Some run =>
      let base := LastCodexTimestamp run in
      let base := if time.IsZero base then Run_StartedAt run else base in
      if time.IsZero base || (time.Sub now base <=? threshold) then (s, effs)
      else match workerExitAbnormal s id (Some ErrStall) (Run_Attempt run) with
      | None => (s, effs)
      | Some (s, entry) =>
          let effs := effs ++ [EffKillWorker id "stall"] in
          let '(s, armEffs) := armRetry s entry (backoffDelay (RE_Attempt entry) cfg) now in
          (s, effs ++ armEffs)
      end
  end.

Definition reduceStall (s : State) (cfg : Config) (now : Time) : State * list Effect :=
  if StallTimeoutMS (Config_Codex cfg) <=? 0 then (s, [])
  else
    let threshold := (StallTimeoutMS (Config_Codex cfg) * time.Millisecond)%i64 in
    fold_left (stallStep cfg now threshold) (sortedRunningIDs s) (s, []).

(** [byID]: later issues of the response win. *)
Definition issuesByID (issues : list Issue) : gmap string Issue :=
  fold_left (λ m iss, <[Issue_ID iss := iss]> m) issues ∅.

Definition refreshStep (cfg : Config) (now : Time) (byID : gmap string Issue)
    (acc : State * list Effect) (id : string) : State * list Effect :=
  let terminal := normSet (Tracker_TerminalStates (Config_Tracker cfg)) in
  let active := normSet (Tracker_ActiveStates (Config_Tracker cfg)) in
  let '(s, effs) := acc in
  match Running s !! id with
  | None => (s, effs)
  | Some run =>
      match byID !! id with
      | None => reconcileKillRetry s effs id (Run_Attempt run) ErrNotInRefresh "not-found" cfg now
      | Some iss =>
          let norm := strings.ToLower (Issue_State iss) in
          if bool_decide (norm ∈ terminal) then
            (releaseClaim s id,
             effs ++ [EffKillWorker id "terminal";
                      EffRemoveWorkspace (Issue_Identifier (Run_Issue run))])
          else if bool_decide (norm ∈ active) then (updateIssueSnapshot s id iss, effs)
          else reconcileKillRetry s effs id (Run_Attempt run) ErrLeftActiveStates "non-active" cfg now
      end
  end.

Definition reduceTrackerRefreshed (s : State) (RequestedIDs : list string)
    (Issues : list Issue) (cfg : Config) (now : Time) : State * list Effect :=
  fold_left (refreshStep cfg now (issuesByID Issues)) (sortedIDs RequestedIDs) (s, []).

(** ** Tick (reduce.go) *)

Definition reduceTick (s : State) (ConfigValid : bool) (cfg : Config) (now : Time)
    : State * list Effect :=
  let '(s, effs) := reduceStall s cfg now in
  let effs := if (0 <? size (Running s))%nat
              then effs ++ [EffRefreshTracker (sortedRunningIDs s)] else effs in
  let effs := if ConfigValid then effs ++ [EffFetchCandidates] else effs in
  (s, effs).

(** ** Dispatch (reduce_dispatch.go) *)

Definition countByState (s : State) : gmap string Z :=
  map_fold (λ _ run m,
      let k := strings.ToLower (Issue_State (Run_Issue run)) in
      <[k := default 0 (m !! k) + 1]> m) ∅ (Running s).

(** Loop state of one dispatch pass. *)
Record Dispatch := mkDispatch {
  d_state : State;
  d_globalAvail : Z;
  d_perStateUsed : gmap string Z;
  d_effs : list Effect;
}.

(** [break] when the global slots are exhausted, [continue] on a full
    per-state limit or a rejected claim. *)
Fixpoint dispatchLoop (cfg : Config) (d : Dispatch) (l : list Issue) : Dispatch :=
  match l with
  | [] => d
  | iss :: l' =>
      if d_globalAvail d <=? 0 then d
      else
        let norm := strings.ToLower (Issue_State iss) in
        let capacity := stateCapacity cfg norm in
        let used := default 0 (d_perStateUsed d !! norm) in
        if capacity <=? used then dispatchLoop cfg d l'
        else match claim (d_state d) iss with
        | (_, Some _) => dispatchLoop cfg d l'
        | (ns, None) =>
            dispatchLoop cfg
              (mkDispatch ns (d_globalAvail d - 1)
                 (<[norm := used + 1]> (d_perStateUsed d))
                 (d_effs d ++ [EffRevalidate iss 0])) l'
        end
  end.

Definition reduceCandidates (s : State) (cands : list Issue) (cfg : Config)
    : State * list Effect :=
  let eligibles := sortCandidates (filterEligible cands s cfg) in
  let d := dispatchLoop cfg
    (mkDispatch s (availableGlobalSlots s cfg) (countByState s) []) eligibles in
  (d_state d, d_effs d).

Definition reduceRevalidated (s : State) (issue : Issue) (attempt : Z)
    (fresh : option Issue) (cfg : Config) : State * list Effect :=
  match fresh with
  | None => (releaseClaim s (Issue_ID issue), [])
  | Some f =>
      let active := normSet (Tracker_ActiveStates (Config_Tracker cfg)) in
      let terminal := normSet (Tracker_TerminalStates (Config_Tracker cfg)) in
      let norm := strings.ToLower (Issue_State f) in
      if negb (bool_decide (norm ∈ active)) || bool_decide (norm ∈ terminal) then
        (releaseClaim s (Issue_ID issue), [])
      else (s, [EffSpawn issue attempt])
  end.

(** ** Retry (reduce_retry.go) *)

Definition retryEntry (IssueID Identifier : string) (attempt : Z) (cause : option error)
    : RetryEntry :=
  mkRetryEntry IssueID Identifier attempt RetryBackoff cause 0.

Fixpoint findIssue (issues : list Issue) (id : string) : option Issue :=
  match issues with
  | [] => None
  | iss :: l => if String.eqb (Issue_ID iss) id then Some iss else findIssue l id
  end.

Definition reduceRetryResolved (s : State) (IssueID Identifier : string) (Attempt : Z)
    (Issues : list Issue) (FetchErr : option error) (cfg : Config) (now : Time)
    : State * list Effect :=
  match FetchErr with
  | Some err =>
      armRetry s (retryEntry IssueID Identifier (Attempt + 1)%i64 (Some err))
        (backoffDelay (Attempt + 1)%i64 cfg) now
  | None =>
      match findIssue Issues IssueID with
      | None => (releaseClaim s IssueID, [])
      | Some found =>
          let terminal := normSet (Tracker_TerminalStates (Config_Tracker cfg)) in
          let active := normSet (Tracker_ActiveStates (Config_Tracker cfg)) in
          let norm := strings.ToLower (Issue_State found) in
          if bool_decide (norm ∈ terminal) || negb (bool_decide (norm ∈ active)) then
            (releaseClaim s IssueID, [])
          else if negb (retryReclaimHasSlot s cfg IssueID (Issue_State found)) then
            armRetry s (retryEntry IssueID Identifier (Attempt + 1)%i64 (Some errNoSlots))
              (backoffDelay (Attempt + 1)%i64 cfg) now
          else match claimFromRetry s IssueID with
          | (_, Some _) => (s, [])
          | (ns, None) => (ns, [EffSpawn found Attempt])
          end
      end
  end.

(** ** Worker exit, spawn failure, codex activity (reduce.go) *)

Definition reduceWorkerExit (s : State) (IssueID : string) (Err : option error)
    (Attempt : Z) (cfg : Config) (now : Time) : State * list Effect :=
  match Err with
  | None =>
      match workerExitNormal s IssueID with
      | None => (s, [])
      | Some (ns, entry) => armRetry ns entry continuationDelay now
      end
  | Some err =>
      match workerExitAbnormal s IssueID (Some err) Attempt with
      | None => (s, [])
      | Some (ns, entry) => armRetry ns entry (backoffDelay (RE_Attempt entry) cfg) now
      end
  end.

Definition reduceSpawnFailed (s : State) (issue : Issue) (attempt : Z)
    (err : option error) (cfg : Config) (now : Time) : State * list Effect :=
  let s := releaseClaim s (Issue_ID issue) in
  let entry := mkRetryEntry (Issue_ID issue) (Issue_Identifier issue) (attempt + 1)%i64
                 RetryBackoff err 0 in
  armRetry s entry (backoffDelay (RE_Attempt entry) cfg) now.

Definition reduceCodexActivity (s : State) (IssueID event message : string)
    (ts : Time) (u : option Usage) (rl : option RateLimitSnapshot)
    (td : option Duration) (completed : bool) : State :=
  let s := updateCodexActivity s IssueID event message ts in
  let s := match u with Some u => recordUsage s IssueID u | None => s end in
  let s := match rl with Some rl => recordRateLimit s IssueID rl | None => s end in
  let s := match td with Some d => addRuntime s IssueID d | None => s end in
  if completed then incrementTurnCount s IssueID else s.

(** ** Reduce *)

Definition Reduce (s : State) (ev : Event) (cfg : Config) (now : Time)
    : State * list Effect :=
  match ev with
  | EvTick valid => reduceTick s valid cfg now
  | EvTrackerRefreshed ids issues => reduceTrackerRefreshed s ids issues cfg now
  | EvCandidatesFetched issues => reduceCandidates s issues cfg
  | EvRevalidated issue attempt fresh => reduceRevalidated s issue attempt fresh cfg
  | EvRetryDue id ident attempt => (s, [EffRetryFetch id ident attempt])
  | EvRetryResolved id ident attempt issues err =>
      reduceRetryResolved s id ident attempt issues err cfg now
  | EvSpawned issue attempt session => (markRunning s issue attempt session, [])
  | EvSpawnFailed issue attempt err => reduceSpawnFailed s issue attempt err cfg now
  | EvWorkerExit id err attempt => reduceWorkerExit s id err attempt cfg now
  | EvCodexActivity id event message ts u rl td completed =>
      (reduceCodexActivity s id event message ts u rl td completed, [])
  end.
