(* ===== verification/SchedShell.v ===== *)
(** * orchestrator/scheduler: the imperative shell

    [scheduler.go], [effects_exec.go], [dispatch.go], [startup.go],
    [snapshot.go] and [clock.go].  The single loop owns the state, interprets
    effects depth first and feeds their results back as events.

    The interfaces the shell is given ([Deps]: tracker, spawn function, clock,
    workspace, and the workflow file on disk) are the record [Deps] over an
    arbitrary world type [W]; every call may read and change the world.  The
    clock's one-shot timers are modelled explicitly: an armed timer sits in
    [armed] until it is stopped or fires, a fired one is a request queued on
    [retryFire]. *)

From S2P Require Import Prelude GoStd Metrics Tracker WfConfig SchedState SchedReduce.
Open Scope Z_scope.

Record retryFireReq := mkRetryFireReq {
  Req_IssueID : string;
  Req_Identifier : string;
  Req_Attempt : Z;
}.

(** A workflow reload as read from disk: the resolved config and the prompt
    template, or the error of [workflowfile.Load] / [wfconfig.Resolve]. *)
Record LoadedWorkflow := mkLoadedWorkflow {
  Loaded_Config : Config;
  Loaded_Template : string;
}.

Section shell.
Context {W Worker : Type}.

(** [nil] interface values are [None]; errors are [option error]. *)
Record TrackerAPI := mkTrackerAPI {
  RefreshStates : W -> list string -> W * (list Issue * option error);
  TerminalIssues : W -> W * (list Issue * option error);
}.

Record Deps := mkDeps {
  Deps_Tracker : option (W -> W * (list Issue * option error));
  Deps_Spawn : option (W -> Issue -> Z -> W * (LiveSession * option Worker + error));
  Deps_RefreshTracker : option TrackerAPI;
  Deps_Workspace : option (W -> string -> W * option error);
  Deps_Now : W -> W * Time;
  Deps_Kill : W -> Worker -> string -> W;
  Deps_LoadWorkflow : W -> W * (LoadedWorkflow + error);
}.

Record Scheduler := mkScheduler {
  interval : Duration;
  lastGood : Config;
  lastGoodTemplate : string;
  reloadCh : bool; (** a one-slot channel: is a reload pending? *)
  degraded : bool;
  available : bool;
  cur : State;
  cfg : Config;
  published : option State;
  workers : gmap string Worker;
  timers : gmap string nat;
  armed : gmap nat retryFireReq;
  nextTimer : nat;
  retryFire : list retryFireReq;
}.

#[export] Instance eta_Scheduler : Eta Scheduler := fun r =>
  mkScheduler (interval r) (lastGood r) (lastGoodTemplate r) (reloadCh r) (degraded r)
    (available r) (cur r) (cfg r) (published r) (workers r) (timers r) (armed r)
    (nextTimer r) (retryFire r).

Definition publish (σ : Scheduler) : Scheduler := σ <| published := Some (cur σ) |>.

(** [New]: a fresh scheduler around an initial last-known-good config. *)
Definition New (c : Config) (tmpl : string) : Scheduler :=
  publish (mkScheduler (Polling_IntervalMS (Config_Polling c) * time.Millisecond)%i64
    c tmpl false false false NewState c None ∅ ∅ ∅ 0 []).

Context (deps : Deps).

(** A configuration of the running program. *)
Abbreviation conf := (Scheduler * W)%type.

(** ** Timers (armTimer, cancelTimer) *)

(** [Timer.Stop] on a timer that has already fired has no effect. *)
Definition stopTimer (σ : Scheduler) (tid : nat) : Scheduler :=
  σ <| armed := delete tid (armed σ) |>.

Definition armTimer (σ : Scheduler) (issueID identifier : string) (attempt : Z)
    (delay : Duration) : Scheduler :=
  let σ := match timers σ !! issueID with Some old => stopTimer σ old | None => σ end in
  let tid := nextTimer σ in
  σ <| armed := <[tid := mkRetryFireReq issueID identifier attempt]> (armed σ) |>
    <| nextTimer := S tid |>
    <| timers := <[issueID := tid]> (timers σ) |>.

Definition cancelTimer (σ : Scheduler) (issueID : string) : Scheduler :=
  match timers σ !! issueID with
  | Some t => stopTimer σ t <| timers := delete issueID (timers σ) |>
  | None => σ
  end.

(** ** Effect interpretation (effects_exec.go)

    [k] is [step]: the synchronous feedback of an event into the loop. *)

Section exec.
Context (k : conf -> Event -> option conf).

Definition execFetchCandidates (c : conf) : option conf :=
  let '(σ, w) := c in
  match Deps_Tracker deps, Deps_Spawn deps with
  | Some candidates, Some _ =>
      let '(w, (cands, err)) := candidates w in
      match err with
      | Some _ => Some (σ, w)
      | None => k (σ, w) (EvCandidatesFetched cands)
      end
  | _, _ => Some (σ, w)
  end.

Definition execRefreshTracker (c : conf) (ids : list string) : option conf :=
  let '(σ, w) := c in
  match Deps_RefreshTracker deps, Deps_Workspace deps with
  | Some api, Some _ =>
      let '(w, (issues, err)) := RefreshStates api w ids in
      match err with
      | Some _ => Some (σ, w)
      | None => k (σ, w) (EvTrackerRefreshed ids issues)
      end
  | _, _ => Some (σ, w)
  end.

(** [revalidateIssue]: the issue's fresh state, [None] when it is missing or
    the fetch failed. *)
Definition revalidateIssue (api : TrackerAPI) (w : W) (issueID : string)
    : W * option Issue :=
  let '(w, (issues, err)) := RefreshStates api w [issueID] in
  match err with
  | Some _ => (w, None)
  | None => (w, findIssue issues issueID)
  end.

Definition execRevalidate (c : conf) (issue : Issue) (attempt : Z) : option conf :=
  let '(σ, w) := c in
  match Deps_RefreshTracker deps with
  | None => k (σ, w) (EvRevalidated issue attempt (Some issue))
  | Some api =>
      let '(w, fresh) := revalidateIssue api w (Issue_ID issue) in
      k (σ, w) (EvRevalidated issue attempt fresh)
  end.

Definition execRetryFetch (c : conf) (id ident : string) (attempt : Z) : option conf :=
  let '(σ, w) := c in
  match Deps_Tracker deps, Deps_Spawn deps with
  | Some candidates, Some _ =>
      let '(w, (cands, err)) := candidates w in
      k (σ, w) (EvRetryResolved id ident attempt cands err)
  | _, _ => Some (σ, w)
  end.

Definition execSpawn (c : conf) (issue : Issue) (attempt : Z) : option conf :=
  let '(σ, w) := c in
  match Deps_Spawn deps with
  | None => Some (σ, w)
  | Some spawn =>
      match spawn w issue attempt with
      | (w, inr err) => k (σ, w) (EvSpawnFailed issue attempt (Some err))
      | (w, inl (session, worker)) =>
          let σ := match worker with
            | Some h => σ <| workers := <[Issue_ID issue := h]> (workers σ) |>
            | None => σ
            end in
          k (σ, w) (EvSpawned issue attempt session)
      end
  end.

Definition execKillWorker (c : conf) (id reason : string) : option conf :=
  let '(σ, w) := c in
  match workers σ !! id with
  | None => Some (σ, w)
  | Some h => Some (σ <| workers := delete id (workers σ) |>, Deps_Kill deps w h reason)
  end.

Definition execRemoveWorkspace (c : conf) (ident : string) : option conf :=
  let '(σ, w) := c in
  match Deps_Workspace deps with
  | None => Some (σ, w)
  | Some remove => Some (σ, (remove w ident).1)
  end.

Definition exec (c : conf) (eff : Effect) : option conf :=
  match eff with
  | EffFetchCandidates => execFetchCandidates c
  | EffRefreshTracker ids => execRefreshTracker c ids
  | EffRevalidate issue attempt => execRevalidate c issue attempt
  | EffRetryFetch id ident attempt => execRetryFetch c id ident attempt
  | EffSpawn issue attempt => execSpawn c issue attempt
  | EffKillWorker id reason => execKillWorker c id reason
  | EffRemoveWorkspace ident => execRemoveWorkspace c ident
  | EffArmRetryTimer id ident attempt delay =>
      Some (armTimer c.1 id ident attempt delay, c.2)
  | EffCancelRetryTimer id => Some (cancelTimer c.1 id, c.2)
  end.

Fixpoint execAll (c : conf) (effs : list Effect) : option conf :=
  match effs with
  | [] => Some c
  | eff :: effs' => match exec c eff with Some c' => execAll c' effs' | None => None end
  end.
End exec.

(** [step]: one event, its effects, and recursively the events they yield.
    The recursion is bounded by [fuel]; [stepFuel] levels are always enough. *)
Fixpoint stepN (fuel : nat) (c : conf) (ev : Event) : option conf :=
  match fuel with
  | O => None
  | S fuel' =>
      let '(σ, w) := c in
      let '(w, now) := Deps_Now deps w in
      let '(next, effs) := Reduce (cur σ) ev (cfg σ) now in
      execAll (stepN fuel') (publish (σ <| cur := next |>), w) effs
  end.

Definition stepFuel : nat := 4.
Definition step (c : conf) (ev : Event) : option conf := stepN stepFuel c ev.

(** ** Configuration reload *)

Definition markDegraded (σ : Scheduler) : Scheduler :=
  if degraded σ then σ else σ <| degraded := true |>.

Definition reloadConfig (c : conf) : conf * (Config * bool) :=
  let '(σ, w) := c in
  let '(w, loaded) := Deps_LoadWorkflow deps w in
  match loaded with
  | inr _ => ((markDegraded σ, w), (lastGood σ, false))
  | inl wf =>
      match Preflight (Loaded_Config wf) with
      | Some _ => ((markDegraded σ, w), (lastGood σ, false))
      | None =>
          let σ := if degraded σ then σ <| degraded := false |> else σ in
          ((σ <| lastGood := Loaded_Config wf |>
              <| lastGoodTemplate := Loaded_Template wf |>, w), (Loaded_Config wf, true))
      end
  end.

(** ** The loop (Run) *)

Definition tick (c : conf) : option conf :=
  let '((σ, w), (c', valid)) := reloadConfig c in
  step (σ <| cfg := c' |>, w) (EvTick valid).

Definition intervalOrFallback (σ : Scheduler) : Duration :=
  if 0 <? interval σ then interval σ else time.Second.

Definition applyInterval (σ : Scheduler) : Scheduler :=
  let want := (Polling_IntervalMS (Config_Polling (lastGood σ)) * time.Millisecond)%i64 in
  if (0 <? want) && negb (want =? interval σ) then σ <| interval := want |> else σ.

Definition handleRetryFire (c : conf) (req : retryFireReq) : option conf :=
  let '(σ, w) := c in
  let σ := σ <| timers := delete (Req_IssueID req) (timers σ) |> in
  let '((σ, w), (c', valid)) := reloadConfig (σ, w) in
  if negb valid then
    let '(σ, w) := match RetryAttempts (cur σ) !! Req_IssueID req with
      | Some entry =>
          let '(w, now) := Deps_Now deps w in
          let entry := entry <| RE_DueAtMS :=
            time.UnixMilli (time.Add now continuationDelay) |> in
          (publish (σ <| cur := enqueueRetry (cur σ) entry |>), w)
      | None => (σ, w)
      end in
    Some (armTimer σ (Req_IssueID req) (Req_Identifier req) (Req_Attempt req)
            continuationDelay, w)
  else
    step (σ <| cfg := c' |>, w)
      (EvRetryDue (Req_IssueID req) (Req_Identifier req) (Req_Attempt req)).

Definition handleWorkerDone (c : conf) (id : string) (err : option error) (attempt : Z)
    : option conf :=
  let '(σ, w) := c in
  let '((σ, w), (c', _)) := reloadConfig (σ <| workers := delete id (workers σ) |>, w) in
  step (σ <| cfg := c' |>, w) (EvWorkerExit id err attempt).

(** [StartupCleanup]: remove the workspaces of terminal issues. *)
Definition StartupCleanup (w : W) : W :=
  match Deps_RefreshTracker deps, Deps_Workspace deps with
  | Some api, Some remove =>
      let '(w, (issues, err)) := TerminalIssues api w in
      match err with
      | Some _ => w
      | None => fold_left (λ w iss, (remove w (Issue_Identifier iss)).1) issues w
      end
  | _, _ => w
  end.

(** [Run] up to the loop. *)
Definition startRun (c : conf) : option conf :=
  let '(σ, w) := c in
  tick (σ <| available := true |>, StartupCleanup w).

(** [Refresh]: request an immediate tick; reports whether it was coalesced. *)
Definition Refresh (σ : Scheduler) : Scheduler * bool :=
  if reloadCh σ then (σ, true) else (σ <| reloadCh := true |>, false).

(** [SnapshotCtx]: the published state, or an error while not running. *)
Definition SnapshotCtx (σ : Scheduler) (ctxErr : bool) : option StateSnapshot :=
  if negb (available σ) || ctxErr then None
  else match published σ with
  | Some st => Some (Snapshot st)
  | None => Some (Snapshot NewState)
  end.

(** One iteration of the [select] loop, a timer firing, or a concurrent
    [Refresh] call.  Worker exits and codex activity arrive from the agent
    runners and are unconstrained. *)
Inductive loop_step : conf -> conf -> Prop :=
| LS_ticker σ w σ' w' :
    tick (σ, w) = Some (σ', w') -> loop_step (σ, w) (applyInterval σ', w')
| LS_retryFire σ w req reqs c' :
    retryFire σ = req :: reqs ->
    handleRetryFire (σ <| retryFire := reqs |>, w) req = Some c' ->
    loop_step (σ, w) c'
| LS_workerDone c id err attempt c' :
    handleWorkerDone c id err attempt = Some c' -> loop_step c c'
| LS_codexActivity c id event message ts u rl td completed c' :
    step c (EvCodexActivity id event message ts u rl td completed) = Some c' ->
    loop_step c c'
| LS_reload σ w σ' w' :
    reloadCh σ = true ->
    tick (σ <| reloadCh := false |>, w) = Some (σ', w') ->
    loop_step (σ, w) (applyInterval σ', w')
| LS_timerFires σ w tid req :
    armed σ !! tid = Some req ->
    loop_step (σ, w) (σ <| armed := delete tid (armed σ) |>
                        <| retryFire := retryFire σ ++ [req] |>, w)
| LS_refresh σ w : loop_step (σ, w) ((Refresh σ).1, w)
| LS_world σ w w' : loop_step (σ, w) (σ, w').

(** States of a running scheduler, from its start. *)
Inductive reachable (c0 : Config) (tmpl : string) : conf -> Prop :=
| R_start w c : startRun (New c0 tmpl, w) = Some c -> reachable c0 tmpl c
| R_step c c' : reachable c0 tmpl c -> loop_step c c' -> reachable c0 tmpl c'.

End shell.

Arguments TrackerAPI W : clear implicits.
Arguments Deps W Worker : clear implicits.
Arguments Scheduler Worker : clear implicits.
