(* ===== verification/SchedInv.v ===== *)
(** * orchestrator/scheduler: invariants of the state and of [Reduce]

    Work that is in flight between the reducer and the shell is accounted for
    by tokens: a claim token for an issue reserved for dispatch but not yet
    running, and a timer token for a retry entry whose timer is about to be
    armed, is armed, or has fired and is being handled.  [sgood] ties the
    tokens to the state; every transition and every event preserves it. *)

From S2P Require Import Prelude GoStd Metrics Tracker WfConfig SchedState SchedReduce.
Open Scope Z_scope.

(** ** The state invariant *)

Record sinv (s : State) : Prop := {
  inv_run_claimed id : is_Some (Running s !! id) -> id ∈ Claimed s;
  inv_run_retry id : is_Some (Running s !! id) -> RetryAttempts s !! id = None;
  inv_run_key id run : Running s !! id = Some run -> Issue_ID (Run_Issue run) = id;
  inv_retry_key id e : RetryAttempts s !! id = Some e -> RE_IssueID e = id;
  inv_usage id : is_Some (St_Usage s !! id) -> id ∈ Claimed s;
  inv_runtime id : is_Some (Runtime s !! id) -> id ∈ Claimed s;
}.

(** Slots in use: running attempts plus queued retries (SPEC 8.3). *)
Definition slotsUsed (s : State) : Z :=
  Z.of_nat (size (Running s)) + Z.of_nat (size (RetryAttempts s)).

(** [C]: claim tokens, [Q]: timer tokens, [M]: slot bound. *)
Record sgood (b : bool) (M : Z) (s : State) (C Q : list string) : Prop := {
  g_inv : sinv s;
  g_C_nodup : NoDup C;
  g_C id : id ∈ C ->
    id ∈ Claimed s /\ Running s !! id = None /\ RetryAttempts s !! id = None;
  g_claimed id : id ∈ Claimed s ->
    is_Some (Running s !! id) \/ is_Some (RetryAttempts s !! id) \/ id ∈ C;
  g_Q_nodup : NoDup Q;
  g_Q_retry id : id ∈ Q -> is_Some (RetryAttempts s !! id);
  g_retry_Q id : is_Some (RetryAttempts s !! id) -> id ∈ Claimed s -> id ∈ Q;
  g_strict : b = true -> ∀ id, is_Some (RetryAttempts s !! id) -> id ∈ Claimed s;
  g_slots : slotsUsed s + Z.of_nat (length C) <= M;
}.

Lemma sinv_NewState : sinv NewState.
Proof. split; intros *; simpl; rewrite ?lookup_empty; (by intros [? [=]]) || done. Qed.

Lemma sgood_NewState b M : 0 <= M -> sgood b M NewState [] [].
Proof.
  intros. split.
  - apply sinv_NewState.
  - constructor.
  - intros id []%not_elem_of_nil.
  - intros id Hid. simpl in Hid. set_solver.
  - constructor.
  - intros id []%not_elem_of_nil.
  - intros id [? [=]].
  - intros _ id [? [=]].
  - done.
Qed.

#[export] Instance sgood_Proper b M s :
  Proper ((≡ₚ) ==> (≡ₚ) ==> iff) (sgood b M s).
Proof.
  assert (∀ C C' Q Q', C ≡ₚ C' -> Q ≡ₚ Q' -> sgood b M s C Q -> sgood b M s C' Q') as H.
  { intros C C' Q Q' HC HQ []. split; try done.
    all: try (intros id; rewrite <- ?HC, <- ?HQ; by auto).
    all: rewrite <- ?HC, <- ?HQ; done. }
  intros C C' HC Q Q' HQ. split; apply H; done.
Qed.

(** ** Field equations of the compound transitions *)

Section releaseClaim.
Context (s : State) (id : string).

Ltac unfold_release :=
  unfold releaseClaim; destruct (St_Usage s !! id) eqn:?; simpl;
  destruct (Runtime s !! id) eqn:?; simpl.

Lemma releaseClaim_Running : Running (releaseClaim s id) = delete id (Running s).
Proof. by unfold_release. Qed.
Lemma releaseClaim_Claimed : Claimed (releaseClaim s id) = Claimed s ∖ {[id]}.
Proof. by unfold_release. Qed.
Lemma releaseClaim_RetryAttempts :
  RetryAttempts (releaseClaim s id) = delete id (RetryAttempts s).
Proof. by unfold_release. Qed.
Lemma releaseClaim_Usage : St_Usage (releaseClaim s id) = delete id (St_Usage s).
Proof. unfold_release; try rewrite delete_id by done; done. Qed.
Lemma releaseClaim_Runtime : Runtime (releaseClaim s id) = delete id (Runtime s).
Proof. unfold_release; try rewrite delete_id by done; done. Qed.
End releaseClaim.

#[export] Hint Rewrite releaseClaim_Running releaseClaim_Claimed releaseClaim_RetryAttempts
  releaseClaim_Usage releaseClaim_Runtime : reactor_fields.

(** Membership in updated maps and sets, as propositions. *)
Ltac map_norm :=
  autorewrite with reactor_fields in *; simpl in *;
  repeat first
    [ rewrite lookup_insert_is_Some' in * | rewrite lookup_delete_is_Some in *
    | rewrite lookup_insert_None in * | rewrite lookup_delete_None in *
    | rewrite elem_of_difference in * | rewrite elem_of_union in *
    | rewrite elem_of_singleton in * | rewrite elem_of_cons in *
    | rewrite lookup_insert_Some in * | rewrite lookup_delete_Some in * ].

Lemma sgood_running_fresh b M s C Q id :
  sgood b M s C Q -> is_Some (Running s !! id) ->
  RetryAttempts s !! id = None /\ id ∉ Q /\ id ∉ C /\ id ∈ Claimed s.
Proof.
  intros [[] ? HC ? ? HQ ? ? ?] Hr. repeat split; auto.
  - intros Hq. apply HQ in Hq. rewrite inv_run_retry0 in Hq by done. by destruct Hq.
  - intros (_ & Hn & _)%HC. rewrite Hn in Hr. by destruct Hr.
Qed.

Lemma slotsUsed_nonneg s : 0 <= slotsUsed s.
Proof. unfold slotsUsed. lia. Qed.

Lemma releaseClaim_sinv s id : sinv s -> sinv (releaseClaim s id).
Proof.
  intros []. split; intros x; map_norm; try intros y; map_norm; naive_solver.
Qed.

Lemma releaseClaim_slots s id : slotsUsed (releaseClaim s id) <= slotsUsed s.
Proof.
  unfold slotsUsed. autorewrite with reactor_fields.
  assert (∀ A (m : gmap string A), (size (delete id m) <= size m)%nat) as Hd.
  { intros A m. destruct (m !! id) eqn:E.
    - pose proof (size_delete_present m id ltac:(eauto)). lia.
    - rewrite delete_id by done. lia. }
  pose proof (Hd _ (Running s)). pose proof (Hd _ (RetryAttempts s)). lia.
Qed.

(** ** Token moves

    One lemma per transition: how the tokens change hands. *)

(** Releasing an issue drops whichever token it holds. *)
Lemma sgood_release b M s C Q C' Q' id :
  sgood b M s C Q ->
  NoDup C' -> NoDup Q' ->
  (∀ x, x ∈ C' <-> x ∈ C /\ x ≠ id) ->
  (∀ x, x ∈ Q' <-> x ∈ Q /\ x ≠ id) ->
  (length C' <= length C)%nat ->
  sgood b M (releaseClaim s id) C' Q'.
Proof.
  intros [Hinv ? HC Hcl ? HQ Hrq Hst Hs] ? ? EC EQ HL. split; try done.
  - by apply releaseClaim_sinv.
  - intros x Hx. apply EC in Hx as [Hx ?]. apply HC in Hx. map_norm. naive_solver.
  - intros x Hx. specialize (Hcl x). clear -Hx Hcl EC. map_norm. rewrite EC. naive_solver.
  - intros x Hx. apply EQ in Hx as [Hx ?]. apply HQ in Hx. map_norm. naive_solver.
  - intros x Hx Hc. map_norm. rewrite EQ. naive_solver.
  - intros Hb x Hx. specialize (Hst Hb x). map_norm. naive_solver.
  - pose proof (releaseClaim_slots s id). lia.
Qed.

Lemma NoDup_cons_elem (x : string) l :
  NoDup (x :: l) -> NoDup l /\ (∀ y, y ∈ l <-> y ∈ x :: l /\ y ≠ x).
Proof.
  intros [Hx Hl]%NoDup_cons. split; [done|]. intros y. rewrite elem_of_cons.
  naive_solver.
Qed.

(** An element not in the list can be dropped without changing it. *)
Lemma not_elem_drop (x : string) (l : list string) : x ∉ l -> ∀ y, y ∈ l <-> y ∈ l /\ y ≠ x.
Proof. intros Hx y. naive_solver. Qed.

Lemma sgood_release_claim b M s C Q id :
  sgood b M s (id :: C) Q -> sgood b M (releaseClaim s id) C Q.
Proof.
  intros G. pose proof (NoDup_cons_elem _ _ (g_C_nodup _ _ _ _ _ G)) as [??].
  eapply sgood_release; [exact G|done|apply G|done| |simpl; lia].
  apply not_elem_drop. intros Hq%(g_Q_retry _ _ _ _ _ G).
  destruct (g_C _ _ _ _ _ G id ltac:(left)) as (_ & _ & Hn).
  rewrite Hn in Hq. by destruct Hq.
Qed.

Lemma sgood_release_timer b M s C Q id :
  sgood b M s C (id :: Q) -> sgood b M (releaseClaim s id) C Q.
Proof.
  intros G. pose proof (NoDup_cons_elem _ _ (g_Q_nodup _ _ _ _ _ G)) as [??].
  eapply sgood_release; [exact G|apply G|done| |done|lia].
  apply not_elem_drop. intros (_ & _ & Hn)%(g_C _ _ _ _ _ G).
  destruct (g_Q_retry _ _ _ _ _ G id ltac:(left)) as [? ?]. congruence.
Qed.

Lemma sgood_release_running b M s C Q id :
  sgood b M s C Q -> is_Some (Running s !! id) -> sgood b M (releaseClaim s id) C Q.
Proof.
  intros G Hr. destruct (sgood_running_fresh _ _ _ _ _ _ G Hr) as (? & ? & ? & ?).
  eapply sgood_release; [exact G|apply G|apply G| | |lia]; by apply not_elem_drop.
Qed.

Lemma enqueueRetry_sinv s e :
  sinv s -> Running s !! RE_IssueID e = None -> sinv (enqueueRetry s e).
Proof.
  intros [H1 H2 H3 H4 H5 H6] Hr. split; simpl; auto.
  - intros x Hx. apply lookup_insert_None. split; [by apply H2|].
    intros <-. rewrite Hr in Hx. by destruct Hx.
  - intros x e'. rewrite lookup_insert_Some. intros [[<- <-]|[_ ?]]; [done|by apply H4].
Qed.

(** A running issue becomes a queued retry: it gains a timer token. *)
Lemma sgood_exit b M s C Q id e :
  sgood b M s C Q -> is_Some (Running s !! id) -> RE_IssueID e = id ->
  sgood b M (enqueueRetry (s <| Running := delete id (Running s) |>) e) C (id :: Q).
Proof.
  intros G Hr He. destruct (sgood_running_fresh _ _ _ _ _ _ G Hr) as (Hn & Hq & Hc & ?).
  destruct G as [[] ? HC Hcl ? HQ Hrq Hst Hs]. unfold enqueueRetry. rewrite He.
  split; try done.
  - split; intros x; map_norm; try intros y; map_norm; naive_solver.
  - intros x Hx. specialize (HC x Hx). map_norm. naive_solver.
  - intros x Hx. map_norm. specialize (Hcl x Hx). destruct (decide (id = x)); naive_solver.
  - by constructor.
  - intros x Hx. map_norm. naive_solver.
  - intros x Hx ?. map_norm. naive_solver.
  - intros Hb x Hx. specialize (Hst Hb x). map_norm. naive_solver.
  - unfold slotsUsed in *. simpl. rewrite map_size_insert_None by done.
    pose proof (size_delete_present _ _ Hr). lia.
Qed.

(** A claimed issue is spawned. *)
Lemma sgood_markRunning b M s C Q issue attempt session :
  sgood b M s (Issue_ID issue :: C) Q ->
  sgood b M (markRunning s issue attempt session) C Q.
Proof.
  intros G. pose proof (NoDup_cons_elem _ _ (g_C_nodup _ _ _ _ _ G)) as [? HC'].
  destruct (g_C _ _ _ _ _ G (Issue_ID issue) ltac:(left)) as (Hcl0 & Hr0 & Hn0).
  destruct G as [[] ? HC Hcl ? HQ Hrq Hst Hs]. split; try done.
  - split; intros x; map_norm; try intros y; map_norm; naive_solver.
  - intros x Hx. apply HC' in Hx as [Hx Hne]. specialize (HC x Hx). map_norm. naive_solver.
  - intros x Hx. map_norm. specialize (Hcl x Hx). map_norm. naive_solver.
  - unfold slotsUsed, markRunning in *. simpl in *. rewrite map_size_insert_None by done. lia.
Qed.

(** A retry entry for an issue that is not tracked at all. *)
Lemma sgood_enqueue_untracked b M s C Q id e :
  b = false -> sgood b M s C Q -> RE_IssueID e = id ->
  id ∉ Claimed s -> RetryAttempts s !! id = None ->
  slotsUsed s + 1 + Z.of_nat (length C) <= M ->
  sgood b M (enqueueRetry s e) C (id :: Q).
Proof.
  intros -> G He Hc0 Hn0 Hs0.
  assert (id ∉ Q) as Hq0.
  { intros Hq%(g_Q_retry _ _ _ _ _ G). rewrite Hn0 in Hq. by destruct Hq. }
  destruct G as [Hinv ? HC Hcl ? HQ Hrq Hst Hs]. pose proof (inv_run_claimed _ Hinv id).
  unfold enqueueRetry. rewrite He. split; try done.
  - rewrite <- He. apply enqueueRetry_sinv; [done|]. rewrite He.
    apply eq_None_not_Some. eauto.
  - intros x Hx. specialize (HC x Hx). map_norm. naive_solver.
  - intros x Hx. map_norm. specialize (Hcl x Hx). naive_solver.
  - by constructor.
  - intros x Hx. map_norm. naive_solver.
  - intros x Hx ?. map_norm. naive_solver.
  - unfold slotsUsed in *. simpl in *. rewrite map_size_insert_None by done. lia.
Qed.

(** A claimed issue fails to spawn: the claim is given up but a retry entry
    and its timer token are created. *)
Lemma sgood_spawnFailed b M s C Q id e :
  b = false -> sgood b M s (id :: C) Q -> RE_IssueID e = id ->
  sgood b M (enqueueRetry (releaseClaim s id) e) C (id :: Q).
Proof.
  intros -> G He. pose proof (g_slots _ _ _ _ _ G) as Hs. simpl in Hs.
  pose proof (releaseClaim_slots s id).
  apply sgood_enqueue_untracked; [done|by apply sgood_release_claim|done| | |lia].
  - autorewrite with reactor_fields. set_solver.
  - autorewrite with reactor_fields. apply lookup_delete_eq.
Qed.

(** A retry entry is replaced (rescheduled) while its timer token is held. *)
Lemma sgood_requeue b M s C Q id e :
  sgood b M s C (id :: Q) -> RE_IssueID e = id ->
  sgood b M (enqueueRetry s e) C (id :: Q).
Proof.
  intros G He. pose proof (g_Q_retry _ _ _ _ _ G id ltac:(left)) as Hr0.
  destruct G as [Hinv ? HC Hcl ? HQ Hrq Hst Hs]. unfold enqueueRetry. rewrite He.
  split; try done.
  - rewrite <- He. apply enqueueRetry_sinv; [done|]. rewrite He.
    apply eq_None_not_Some. intros Hx%(inv_run_retry _ Hinv).
    rewrite Hx in Hr0. by destruct Hr0.
  - intros x Hx. destruct (HC x Hx) as (? & ? & Hn). repeat split; try done.
    apply lookup_insert_None. split; [done|]. intros ->. rewrite Hn in Hr0. by destruct Hr0.
  - intros x Hx. simpl. rewrite lookup_insert_is_Some'. specialize (Hcl x Hx). tauto.
  - intros x Hx. simpl. rewrite lookup_insert_is_Some'. auto.
  - intros x. simpl. rewrite lookup_insert_is_Some'. intros [<-|?] ?; [left|auto].
  - intros Hb x. simpl. rewrite lookup_insert_is_Some'. intros [<-|?]; auto.
  - unfold slotsUsed in *. simpl. rewrite size_insert_present by done. lia.
Qed.

(** A retry is promoted back to a claim, or its claim turns out to be gone. *)
Lemma sgood_claimFromRetry b M s C Q id :
  sgood b M s C (id :: Q) ->
  match claimFromRetry s id with
  | (s', None) => sgood b M s' (id :: C) Q
  | (_, Some _) => sgood b M s C Q /\ id ∉ Claimed s
  end.
Proof.
  intros G. pose proof (g_Q_retry _ _ _ _ _ G id ltac:(left)) as Hr0.
  pose proof (NoDup_cons_elem _ _ (g_Q_nodup _ _ _ _ _ G)) as [? HQ'].
  destruct G as [Hinv ? HC Hcl ? HQ Hrq Hst Hs].
  assert (Running s !! id = None) as Hrun.
  { apply eq_None_not_Some. intros Hx%(inv_run_retry _ Hinv).
    rewrite Hx in Hr0. by destruct Hr0. }
  unfold claimFromRetry. rewrite Hrun. destruct (RetryAttempts s !! id) as [e|] eqn:Ee.
  2:{ by destruct Hr0. }
  destruct (decide (id ∈ Claimed s)) as [Hc|Hc].
  - destruct Hinv as [H1 H2 H3 H4 H5 H6]. split; simpl; try done.
    + split; simpl; auto.
      * intros x Hx. apply lookup_delete_None. auto.
      * intros x e' [_ He']%lookup_delete_Some. by apply H4.
    + constructor; [|done]. intros (_ & _ & Hn)%HC. congruence.
    + intros x [->|Hx]%elem_of_cons; [by rewrite lookup_delete_eq|].
      destruct (HC x Hx) as (? & ? & ?). by rewrite lookup_delete_None; auto.
    + intros x Hx. rewrite lookup_delete_is_Some, elem_of_cons.
      destruct (decide (x = id)); [tauto|]. destruct (Hcl x Hx) as [|[|]]; auto.
    + intros x [Hx Hne]%HQ'. rewrite lookup_delete_is_Some. auto.
    + intros x. rewrite lookup_delete_is_Some. intros [Hne Hx] Hcx. apply HQ'. auto.
    + intros Hb x. rewrite lookup_delete_is_Some. intros [_ Hx]. auto.
    + unfold slotsUsed in *. simpl.
      pose proof (size_delete_present (RetryAttempts s) id ltac:(eauto)). lia.
  - split; [|done]. split; try done.
    + intros x [Hx _]%HQ'. auto.
    + intros x Hx Hcx. apply HQ'. split; [auto|]. by intros ->.
Qed.

(** A fresh issue is claimed for dispatch, taking one slot. *)
Lemma sgood_claim b M s C Q iss s' :
  sgood b M s C Q -> claim s iss = (s', None) ->
  RetryAttempts s !! Issue_ID iss = None ->
  slotsUsed s + Z.of_nat (length C) < M ->
  sgood b M s' (Issue_ID iss :: C) Q.
Proof.
  intros [Hinv HCn HC Hcl ? HQ Hrq Hst Hs] Hclaim Hn Hlt. unfold claim in Hclaim.
  destruct (decide (Issue_ID iss ∈ Claimed s)) as [|Hc]; [done|].
  destruct (Running s !! Issue_ID iss) eqn:Er; [done|].
  injection Hclaim as <-. rewrite delete_id by done.
  destruct Hinv as [H1 H2 H3 H4 H5 H6]. split; simpl; try done.
  - split; simpl; auto; intros x Hx; apply elem_of_union_r; auto.
  - constructor; [|done]. by intros (? & _ & _)%HC.
  - intros x [->|Hx]%elem_of_cons; [set_solver|].
    destruct (HC x Hx) as (? & ? & ?). set_solver.
  - intros x [->%elem_of_singleton|Hx]%elem_of_union; rewrite elem_of_cons; [auto|].
    specialize (Hcl x Hx). tauto.
  - intros x Hx [->%elem_of_singleton|Hcx]%elem_of_union; [|auto].
    rewrite Hn in Hx. by destruct Hx.
  - intros Hb x Hx. apply elem_of_union_r. auto.
  - unfold slotsUsed in *. simpl. lia.
Qed.

(** Bookkeeping of a running attempt: same issue under the same key. *)
Lemma sgood_touch b M s C Q id run run' u r ct cr :
  sgood b M s C Q -> Running s !! id = Some run -> Issue_ID (Run_Issue run') = id ->
  (∀ x, is_Some (u !! x) -> x = id \/ is_Some (St_Usage s !! x)) ->
  (∀ x, is_Some (r !! x) -> x = id \/ is_Some (Runtime s !! x)) ->
  sgood b M (mkState (<[id := run']> (Running s)) (Claimed s) (RetryAttempts s) u r ct cr) C Q.
Proof.
  intros [[H1 H2 H3 H4 H5 H6] HCn HC Hcl ? HQ Hrq Hst Hs] Hr Hk Hu Hrt.
  assert (∀ x, is_Some (<[id := run']> (Running s) !! x) <-> is_Some (Running s !! x)) as Hdom.
  { intros x. rewrite lookup_insert_is_Some'. split; [|auto]. intros [<-|?]; eauto. }
  split; simpl; try done.
  - split; simpl; try done.
    + intros x Hx%Hdom. auto.
    + intros x Hx%Hdom. auto.
    + intros x y. rewrite lookup_insert_Some. intros [[<- <-]|[_ ?]]; auto.
    + intros x Hx. destruct (Hu x Hx) as [->|]; eauto.
    + intros x Hx. destruct (Hrt x Hx) as [->|]; eauto.
  - intros x Hx. destruct (HC x Hx) as (? & Hn & ?). repeat split; try done.
    apply eq_None_not_Some. rewrite Hdom, Hn. by intros [? [=]].
  - intros x Hx. rewrite Hdom. auto.
  - unfold slotsUsed in *. simpl. rewrite size_insert_present by eauto. lia.
Qed.

(** ** Tokens held by events and effects *)

Definition claim_tok (eff : Effect) : list string :=
  match eff with
  | EffRevalidate issue _ | EffSpawn issue _ => [Issue_ID issue]
  | _ => []
  end.

Definition timer_tok (eff : Effect) : list string :=
  match eff with
  | EffRetryFetch id _ _ | EffArmRetryTimer id _ _ _ => [id]
  | _ => []
  end.

Definition claim_tok_ev (ev : Event) : list string :=
  match ev with
  | EvRevalidated issue _ _ | EvSpawned issue _ _ | EvSpawnFailed issue _ _ => [Issue_ID issue]
  | _ => []
  end.

Definition timer_tok_ev (ev : Event) : list string :=
  match ev with
  | EvRetryDue id _ _ | EvRetryResolved id _ _ _ _ => [id]
  | _ => []
  end.

Abbreviation claim_toks effs := (effs ≫= claim_tok).
Abbreviation timer_toks effs := (effs ≫= timer_tok).

(** A fold that keeps [I] on its state and produces no claim tokens. *)
Definition retrying (b : bool) (M : Z) (C Q : list string) (acc : State * list Effect) : Prop :=
  sgood b M acc.1 C (timer_toks acc.2 ++ Q) /\ claim_toks acc.2 = []
  /\ EffFetchCandidates ∉ acc.2.

Lemma retrying_exit b M C Q s effs id reason ident attempt delay e :
  retrying b M C Q (s, effs) -> is_Some (Running s !! id) -> RE_IssueID e = id ->
  retrying b M C Q
    (enqueueRetry (s <| Running := delete id (Running s) |>) e,
     (effs ++ [EffKillWorker id reason]) ++ [EffArmRetryTimer id ident attempt delay]).
Proof.
  intros (G & Hc & Hf) Hr He. split; [|split]; simpl.
  - rewrite !bind_app. simpl. rewrite app_nil_r, <- app_assoc. simpl.
    rewrite <- Permutation_middle. by apply sgood_exit.
  - rewrite !bind_app. simpl in *. by rewrite Hc.
  - simpl in Hf. set_solver.
Qed.

Lemma reconcileKillRetry_retrying b M C Q s effs id attempt cause reason cfg now :
  retrying b M C Q (s, effs) -> is_Some (Running s !! id) ->
  retrying b M C Q (reconcileKillRetry s effs id attempt cause reason cfg now).
Proof.
  intros G Hr. unfold reconcileKillRetry, workerExitAbnormal.
  destruct (Running s !! id) eqn:E; [|done].
  eapply retrying_exit; eauto.
Qed.

Lemma stallStep_retrying b M C Q cfg now threshold acc id :
  retrying b M C Q acc -> retrying b M C Q (stallStep cfg now threshold acc id).
Proof.
  destruct acc as [s effs]. intros G. unfold stallStep, workerExitAbnormal.
  destruct (Running s !! id) eqn:E; [|done].
  destruct (_ || _); [done|]. eapply retrying_exit; eauto.
Qed.

Lemma retrying_fold {A} b M C Q f (l : list A) acc :
  (∀ acc x, retrying b M C Q acc -> retrying b M C Q (f acc x)) ->
  retrying b M C Q acc -> retrying b M C Q (fold_left f l acc).
Proof. intros Hf. revert acc. induction l; simpl; auto. Qed.

Lemma reduceStall_retrying b M C Q s cfg now :
  sgood b M s C Q -> retrying b M C Q (reduceStall s cfg now).
Proof.
  intros G. assert (retrying b M C Q (s, [])) by (split; [done|set_solver]).
  unfold reduceStall. case_match; [done|].
  apply retrying_fold; [|done]. intros. by apply stallStep_retrying.
Qed.

Lemma issuesByID_key issues id iss :
  issuesByID issues !! id = Some iss -> Issue_ID iss = id.
Proof.
  unfold issuesByID.
  assert (∀ id iss, (∅ : gmap string Issue) !! id = Some iss -> Issue_ID iss = id) as Hm
    by done.
  revert Hm. generalize (∅ : gmap string Issue) as m. revert id iss.
  induction issues as [|i l IH]; simpl; intros id iss m Hm; [by apply Hm|].
  apply IH. intros id' iss'. rewrite lookup_insert_Some. intros [[<- <-]|[_ ?]]; auto.
Qed.

Lemma updateIssueSnapshot_sgood b M s C Q id iss :
  sgood b M s C Q -> Issue_ID iss = id -> sgood b M (updateIssueSnapshot s id iss) C Q.
Proof.
  intros G Hk. unfold updateIssueSnapshot. destruct (Running s !! id) eqn:E; [|done].
  simpl. eapply sgood_touch; eauto.
Qed.

Lemma refreshStep_retrying b M C Q cfg now byID acc id :
  (∀ id iss, byID !! id = Some iss -> Issue_ID iss = id) ->
  retrying b M C Q acc ->
  retrying b M C Q (refreshStep cfg now byID acc id).
Proof.
  intros Hk G. destruct acc as [s effs]. unfold refreshStep.
  destruct (Running s !! id) eqn:E; [|done].
  destruct (byID !! id) as [iss|] eqn:Ei.
  2:{ apply reconcileKillRetry_retrying; eauto. }
  case_bool_decide; [|case_bool_decide].
  - destruct G as (G & Hc & Hf). split; [|split]; simpl in *.
    + rewrite bind_app. simpl. rewrite app_nil_r.
      apply sgood_release_running; eauto.
    + by rewrite bind_app, Hc.
    + set_solver.
  - destruct G as (G & Hc & Hf). split; [|done]. simpl in *.
    apply updateIssueSnapshot_sgood; eauto.
  - apply reconcileKillRetry_retrying; eauto.
Qed.

Lemma reduceTrackerRefreshed_retrying b M C Q s ids issues cfg now :
  sgood b M s C Q -> retrying b M C Q (reduceTrackerRefreshed s ids issues cfg now).
Proof.
  intros G. unfold reduceTrackerRefreshed. apply retrying_fold.
  - intros. apply refreshStep_retrying; [|done]. intros. by eapply issuesByID_key.
  - split; [done|set_solver].
Qed.

(** ** Slot accounting *)

(** With the running and queued issues disjoint, every queued retry counts. *)
Lemma retryQueuedCount_size s :
  sinv s -> retryQueuedCount s = Z.of_nat (size (RetryAttempts s)).
Proof.
  intros I. unfold retryQueuedCount.
  rewrite forallb_filter_id.
  - by rewrite length_fmap, length_map_to_list.
  - apply forallb_forall. intros id Hid. apply negb_true_iff, is_some_false.
    apply list_elem_of_In, list_elem_of_fmap in Hid as ([id' e] & -> & He).
    apply elem_of_map_to_list in He. simpl.
    apply eq_None_not_Some. intros Hr%(inv_run_retry _ I). congruence.
Qed.

(** The configured limit is one the slot bound [M] covers.  Nothing in the
    configuration check rules out a negative limit, which stands for no slots. *)
Definition limit_ok (M : Z) (cfg : Config) : Prop :=
  Z.abs (MaxConcurrentAgents (Config_Agent cfg)) <= M /\ M < 2 ^ 62.

Lemma availableGlobalSlots_bound b M s C Q cfg :
  limit_ok M cfg -> sgood b M s C Q ->
  0 <= availableGlobalSlots s cfg /\
  (0 < availableGlobalSlots s cfg -> slotsUsed s + availableGlobalSlots s cfg <= M).
Proof.
  intros [Hl HM] G. pose proof (g_slots _ _ _ _ _ G) as Hs.
  unfold availableGlobalSlots, slotsUsed in *.
  rewrite (retryQueuedCount_size s (g_inv _ _ _ _ _ G)). unfold int64_max in *.
  rewrite wrap64_id by (unfold in_int64, int64_min, int64_max; lia).
  case Z.ltb_spec; lia.
Qed.

(** The dispatch loop: claims taken so far plus slots still available stay
    within the bound. *)
Record dispatching (b : bool) (M : Z) (Q : list string) (d : Dispatch) : Prop := {
  d_good : sgood b M (d_state d) (claim_toks (d_effs d)) Q;
  d_only_claims : timer_toks (d_effs d) = [];
  d_no_fetch : EffFetchCandidates ∉ d_effs d;
  d_room : 0 < d_globalAvail d ->
    slotsUsed (d_state d) + Z.of_nat (length (claim_toks (d_effs d))) + d_globalAvail d <= M;
}.

Lemma claim_retry_None s iss s' id :
  claim s iss = (s', None) -> RetryAttempts s !! id = None -> RetryAttempts s' !! id = None.
Proof.
  unfold claim. case_decide; [done|]. destruct (Running s !! _); [done|].
  intros [= <-] Hn. simpl. apply lookup_delete_None. auto.
Qed.

Lemma claim_slotsUsed s iss s' :
  claim s iss = (s', None) -> RetryAttempts s !! Issue_ID iss = None ->
  slotsUsed s' = slotsUsed s.
Proof.
  unfold claim. case_decide; [done|]. destruct (Running s !! _); [done|].
  intros [= <-] Hn. unfold slotsUsed. simpl. by rewrite delete_id.
Qed.

Lemma dispatchLoop_dispatching b M Q cfg l : forall d,
  (∀ iss, iss ∈ l -> RetryAttempts (d_state d) !! Issue_ID iss = None) ->
  dispatching b M Q d -> dispatching b M Q (dispatchLoop cfg d l).
Proof.
  induction l as [|iss l IH]; simpl; intros d Hl D; [done|].
  assert (RetryAttempts (d_state d) !! Issue_ID iss = None) as Hn by (apply Hl; left).
  assert (∀ i, i ∈ l -> RetryAttempts (d_state d) !! Issue_ID i = None) as Hl'
    by (intros; apply Hl; by right).
  case Z.leb_spec; intros Hav; [done|]. case Z.leb_spec; intros Hcap; [by apply IH|].
  destruct (claim (d_state d) iss) as [s' [err|]] eqn:Ec; [by apply IH|].
  destruct D as [G Ht Hf Hroom]. specialize (Hroom Hav). apply IH.
  - intros i Hi. simpl. eapply claim_retry_None; eauto.
  - assert (claim_toks (d_effs d ++ [EffRevalidate iss 0]) ≡ₚ
            Issue_ID iss :: claim_toks (d_effs d)) as Hp.
    { rewrite bind_app. simpl. by rewrite <- Permutation_cons_append. }
    split; simpl.
    + rewrite Hp. eapply sgood_claim; eauto. lia.
    + by rewrite bind_app, Ht.
    + set_solver.
    + intros _. rewrite Hp, (claim_slotsUsed _ _ _ Ec Hn). simpl. lia.
Qed.

(** What [eligible] guarantees of an issue (SPEC 8.2). *)
Lemma eligible_spec iss s active terminal :
  eligible iss s active terminal = true <->
  Issue_ID iss ≠ "" /\ Issue_Identifier iss ≠ "" /\ Issue_Title iss ≠ "" /\
  Issue_State iss ≠ "" /\
  strings.ToLower (Issue_State iss) ∈ active /\
  strings.ToLower (Issue_State iss) ∉ terminal /\
  Running s !! Issue_ID iss = None /\ Issue_ID iss ∉ Claimed s /\
  RetryAttempts s !! Issue_ID iss = None /\
  (strings.ToLower (Issue_State iss) = "todo" ->
   hasActiveBlocker (Issue_BlockedBy iss) terminal = false).
Proof.
  unfold eligible. rewrite <- !is_some_false.
  destruct (String.eqb_spec (Issue_ID iss) ""); [naive_solver|].
  destruct (String.eqb_spec (Issue_Identifier iss) ""); [naive_solver|].
  destruct (String.eqb_spec (Issue_Title iss) ""); [naive_solver|].
  destruct (String.eqb_spec (Issue_State iss) ""); [naive_solver|]. simpl.
  case_bool_decide as Ha; simpl; [|split; [discriminate|tauto]].
  case_bool_decide as Ht; simpl; [split; [discriminate|tauto]|].
  destruct (is_some (Running s !! _)) eqn:?; [naive_solver|].
  case_bool_decide; [naive_solver|].
  destruct (is_some (RetryAttempts s !! _)) eqn:?; [naive_solver|].
  destruct (String.eqb_spec (strings.ToLower (Issue_State iss)) "todo");
    destruct (hasActiveBlocker _ _); simpl; naive_solver.
Qed.

Lemma elem_of_eligibles cands s cfg iss :
  iss ∈ sortCandidates (filterEligible cands s cfg) <->
  iss ∈ cands /\ eligible iss s (normSet (Tracker_ActiveStates (Config_Tracker cfg)))
    (normSet (Tracker_TerminalStates (Config_Tracker cfg))) = true.
Proof.
  unfold sortCandidates. rewrite sort.SliceStable_Permutation.
  unfold filterEligible. by rewrite !list_elem_of_In, filter_In.
Qed.

Lemma reduceCandidates_sgood b M s Q cands cfg :
  limit_ok M cfg -> sgood b M s [] Q ->
  let '(s', effs) := reduceCandidates s cands cfg in
  sgood b M s' (claim_toks effs) Q /\ timer_toks effs = [] /\ EffFetchCandidates ∉ effs.
Proof.
  intros Hl G. unfold reduceCandidates.
  destruct (availableGlobalSlots_bound _ _ _ _ _ _ Hl G) as [Ha0 Ha].
  edestruct (dispatchLoop_dispatching b M Q cfg) as [? ? ? ?]; [| |done].
  - simpl. intros iss Hi%elem_of_eligibles. destruct Hi as [_ Hi].
    by apply eligible_spec in Hi as (_&_&_&_&_&_&_&_&?&_).
  - split; simpl; [done|done|set_solver|]. intros Hav. specialize (Ha Hav). lia.
Qed.

(** ** Codex bookkeeping *)

Section activity.
Context (b : bool) (M : Z) (C Q : list string).

Ltac solve_touch :=
  intros G; match goal with
  | |- sgood _ _ (?f _ _) _ _ => unfold f
  | |- sgood _ _ (?f _ _ _) _ _ => unfold f
  | |- sgood _ _ (?f _ _ _ _ _) _ _ => unfold f
  end;
  match goal with |- context [Running ?s !! ?id] =>
    let E := fresh "E" in
    destruct (Running s !! id) as [run|] eqn:E; [|done];
    pose proof (inv_run_key _ (g_inv _ _ _ _ _ G) _ _ E)
  end.

Lemma updateCodexActivity_sgood s id event message ts :
  sgood b M s C Q -> sgood b M (updateCodexActivity s id event message ts) C Q.
Proof. solve_touch. eapply sgood_touch; eauto. by case_match. Qed.

Lemma recordUsage_sgood s id u : sgood b M s C Q -> sgood b M (recordUsage s id u) C Q.
Proof.
  solve_touch. simpl. eapply sgood_touch; eauto. intros x. rewrite lookup_insert_is_Some'.
  naive_solver.
Qed.

Lemma recordRateLimit_sgood s id rl : sgood b M s C Q -> sgood b M (recordRateLimit s id rl) C Q.
Proof. solve_touch. eapply sgood_touch; eauto. Qed.

Lemma addRuntime_sgood s id d : sgood b M s C Q -> sgood b M (addRuntime s id d) C Q.
Proof.
  solve_touch. case_match; [done|]. simpl. eapply sgood_touch; eauto.
  intros x. rewrite lookup_insert_is_Some'. naive_solver.
Qed.

Lemma incrementTurnCount_sgood s id : sgood b M s C Q -> sgood b M (incrementTurnCount s id) C Q.
Proof. solve_touch. eapply sgood_touch; eauto. Qed.
End activity.

#[export] Hint Resolve updateCodexActivity_sgood recordUsage_sgood recordRateLimit_sgood
  addRuntime_sgood incrementTurnCount_sgood : reactor.

Lemma reduceCodexActivity_sgood b M C Q s id event message ts u rl td completed :
  sgood b M s C Q ->
  sgood b M (reduceCodexActivity s id event message ts u rl td completed) C Q.
Proof.
  intros G. unfold reduceCodexActivity.
  destruct u, rl, td, completed; eauto 8 with reactor.
Qed.

Lemma findIssue_ID issues id iss : findIssue issues id = Some iss -> Issue_ID iss = id.
Proof.
  induction issues as [|i l IH]; simpl; [done|].
  case (String.eqb_spec (Issue_ID i) id); [|auto]. by intros ? [= ->].
Qed.

(** ** Every event preserves the token discipline *)

Definition fetches (ev : Event) : bool :=
  match ev with EvTick _ | EvCandidatesFetched _ => true | _ => false end.

Ltac no_fetch :=
  simpl; rewrite ?elem_of_cons, ?elem_of_nil in *; naive_solver.

(** With [b] set no spawn fails, and then no retry loses its claim. *)
Definition allowed (b : bool) (ev : Event) : Prop :=
  match ev with EvSpawnFailed _ _ _ => b = false | _ => True end.

Lemma Reduce_sgood b M s C Q ev cfg now s' effs :
  limit_ok M cfg -> allowed b ev -> (fetches ev = true -> C = []) ->
  sgood b M s (claim_tok_ev ev ++ C) (timer_tok_ev ev ++ Q) ->
  Reduce s ev cfg now = (s', effs) ->
  sgood b M s' (claim_toks effs ++ C) (timer_toks effs ++ Q) /\
  (EffFetchCandidates ∈ effs -> fetches ev = true /\ claim_toks effs = []).
Proof.
  intros Hl Hal HC0 G HR. destruct ev; simpl in *.
  - (* EvTick *)
    pose proof (reduceStall_retrying b M C Q s cfg now G) as (G' & Hc & Hf).
    unfold reduceTick in HR. destruct (reduceStall s cfg now) as [s1 effs1].
    injection HR as <- <-. simpl in *.
    repeat case_match; rewrite ?bind_app, ?app_nil_r, ?Hc; simpl; rewrite ?app_nil_r; auto.
  - (* EvCandidatesFetched *)
    rewrite (HC0 eq_refl) in *. pose proof (reduceCandidates_sgood b M s Q Issues cfg Hl G) as H.
    rewrite HR in H. destruct H as (? & Ht & ?). rewrite app_nil_r, Ht. split; [done|no_fetch].
  - (* EvTrackerRefreshed *)
    pose proof (reduceTrackerRefreshed_retrying b M C Q s RequestedIDs Issues cfg now G) as H.
    rewrite HR in H. destruct H as (? & Hc & ?). simpl in *. rewrite Hc. split; [done|no_fetch].
  - (* EvRevalidated *)
    unfold reduceRevalidated in HR.
    destruct Fresh as [f|]; [destruct (_ || _)|]; simplify_eq/=; (split; [|no_fetch]);
      auto using sgood_release_claim.
  - (* EvRetryResolved *)
    unfold reduceRetryResolved in HR. destruct FetchErr as [err|].
    { injection HR as <- <-. split; [|no_fetch]. by apply sgood_requeue. }
    destruct (findIssue Issues IssueID) as [found|] eqn:Ef.
    2:{ simplify_eq/=. split; [|no_fetch]. by apply sgood_release_timer. }
    destruct (_ || _); [simplify_eq/=; split; [by apply sgood_release_timer|no_fetch]|].
    destruct (negb _).
    { injection HR as <- <-. split; [|no_fetch]. by apply sgood_requeue. }
    pose proof (sgood_claimFromRetry b M s C Q IssueID G) as H.
    destruct (claimFromRetry s IssueID) as [s1 [err|]]; simplify_eq/=.
    + split; [by destruct H|no_fetch].
    + rewrite (findIssue_ID _ _ _ Ef). split; [done|no_fetch].
  - (* EvSpawned *) simplify_eq/=. split; [by apply sgood_markRunning|no_fetch].
  - (* EvSpawnFailed *) injection HR as <- <-. split; [|no_fetch].
    simpl. by apply sgood_spawnFailed.
  - (* EvWorkerExit *)
    unfold reduceWorkerExit, workerExitNormal, workerExitAbnormal in HR.
    destruct Err; (destruct (Running s !! IssueID) eqn:E;
      [injection HR as <- <-; split; [|no_fetch]; apply sgood_exit; eauto
      |simplify_eq/=; split; [done|no_fetch]]).
  - (* EvRetryDue *) simplify_eq/=. split; [done|no_fetch].
  - (* EvCodexActivity *) simplify_eq/=.
    split; [by apply reduceCodexActivity_sgood|no_fetch].
Qed.
