(* ===== verification/SchedLifecycle.v ===== *)
(** * orchestrator/scheduler: what [Reduce] does to a single issue

    The reducer's loops act on each issue independently of the others.  [view]
    is what the state records of one issue; the stall and refresh passes are
    pointwise functions of it, and every event moves an issue along the claim
    lifecycle of SPEC 7.1. *)

From S2P Require Import Prelude GoStd Metrics Tracker WfConfig SchedState SchedReduce SchedInv.
Open Scope Z_scope.

(** ** The state of one issue *)

Record IssueView := mkIssueView {
  v_run : option RunAttempt;
  v_retry : option RetryEntry;
  v_claimed : bool;
}.

Definition view (s : State) (id : string) : IssueView :=
  mkIssueView (Running s !! id) (RetryAttempts s !! id) (bool_decide (id ∈ Claimed s)).

#[export] Instance ClaimState_eq_dec : EqDecision ClaimState.
Proof. solve_decision. Defined.

(** Lifecycle state of an issue (SPEC 7.1). *)
Definition lifecycle_of (v : IssueView) : ClaimState :=
  if is_some (v_run v) then CS_Running
  else if is_some (v_retry v) then CS_RetryQueued
  else if v_claimed v then CS_Claimed else Unclaimed.

Definition lifecycle (s : State) (id : string) : ClaimState := lifecycle_of (view s id).

(** ** Views after each transition *)

Section views.
Context (s : State).

Lemma bool_decide_elem_ne (x id : string) (X : gset string) :
  x ≠ id -> bool_decide (x ∈ X ∖ {[id]}) = bool_decide (x ∈ X).
Proof. intros. apply bool_decide_ext. set_solver. Qed.

Lemma view_releaseClaim id x :
  view (releaseClaim s id) x
  = if decide (x = id) then mkIssueView None None false else view s x.
Proof.
  unfold view. autorewrite with reactor_fields. case_decide; subst.
  - rewrite !lookup_delete_eq. f_equal. apply bool_decide_eq_false. set_solver.
  - by rewrite !lookup_delete_ne, bool_decide_elem_ne.
Qed.

Lemma view_enqueueRetry e x :
  view (enqueueRetry s e) x
  = if decide (x = RE_IssueID e) then mkIssueView (Running s !! x) (Some e) (v_claimed (view s x))
    else view s x.
Proof.
  unfold view, enqueueRetry. simpl. case_decide; subst.
  - by rewrite lookup_insert_eq.
  - by rewrite lookup_insert_ne.
Qed.

Lemma view_exit id x :
  view (s <| Running := delete id (Running s) |>) x
  = if decide (x = id) then mkIssueView None (v_retry (view s x)) (v_claimed (view s x))
    else view s x.
Proof.
  unfold view. simpl. case_decide; subst; [by rewrite lookup_delete_eq|by rewrite lookup_delete_ne].
Qed.

Lemma view_set_run id run x :
  view (s <| Running := <[id := run]> (Running s) |>) x
  = if decide (x = id) then mkIssueView (Some run) (v_retry (view s x)) (v_claimed (view s x))
    else view s x.
Proof.
  unfold view. simpl. case_decide; subst; [by rewrite lookup_insert_eq|by rewrite lookup_insert_ne].
Qed.

Lemma view_claim iss s' x :
  claim s iss = (s', None) ->
  view s' x = if decide (x = Issue_ID iss) then mkIssueView None None true else view s x.
Proof.
  unfold claim. case_decide as Hc; [done|]. destruct (Running s !! _) eqn:Er; [done|].
  intros [= <-]. unfold view. simpl. case_decide; subst.
  - rewrite Er, lookup_delete_eq. f_equal. apply bool_decide_eq_true. set_solver.
  - rewrite lookup_delete_ne by done. f_equal. apply bool_decide_ext. set_solver.
Qed.

Lemma view_claimFromRetry id s' x :
  claimFromRetry s id = (s', None) ->
  view s' x = if decide (x = id) then mkIssueView None None true else view s x.
Proof.
  unfold claimFromRetry. destruct (RetryAttempts s !! id); [|done].
  destruct (Running s !! id) eqn:Er; [done|]. case_decide as Hc; [|done].
  intros [= <-]. unfold view. simpl. case_decide; subst.
  - rewrite Er, lookup_delete_eq. f_equal. by apply bool_decide_eq_true.
  - by rewrite lookup_delete_ne.
Qed.
End views.

(** ** Pointwise passes *)

(** A pass over [l] whose step at [id] replaces the view of [id] by [upd] of
    it, and emits [out] of it. *)
Lemma fold_pointwise (f : State * list Effect -> string -> State * list Effect)
    (upd : string -> IssueView -> IssueView) (out : string -> IssueView -> list Effect) l :
  (∀ acc id x, view (f acc id).1 x
     = if decide (x = id) then upd id (view acc.1 id) else view acc.1 x) ->
  (∀ acc id, (f acc id).2 = acc.2 ++ out id (view acc.1 id)) ->
  NoDup l -> ∀ acc,
  (∀ x, view (fold_left f l acc).1 x
     = if decide (x ∈ l) then upd x (view acc.1 x) else view acc.1 x) /\
  (fold_left f l acc).2 = acc.2 ++ (l ≫= λ id, out id (view acc.1 id)).
Proof.
  intros Hv He. induction 1 as [|id l Hid Hnd IH]; intros acc; simpl.
  { split; [|by rewrite app_nil_r]. done. }
  destruct (IH (f acc id)) as [IHv IHe]. split.
  - intros x. rewrite IHv, Hv. destruct (decide (x = id)) as [->|Hne].
    + rewrite decide_False by done. by rewrite decide_True by left.
    + destruct (decide (x ∈ l)).
      * by rewrite decide_True by (by right).
      * rewrite decide_False; [done|]. rewrite elem_of_cons. naive_solver.
  - rewrite IHe, He, <- (assoc_L (++)). do 2 f_equal.
    apply bind_ext_in. intros x Hx. rewrite Hv, decide_False; [done|congruence].
Qed.

(** What reconciliation does to an attempt it gives up: the worker is killed
    and a backoff retry of the next attempt is queued and armed. *)
Section killed.
Context (cfg : Config) (now : Time) (id : string) (run : RunAttempt) (cause : error).

Definition killedEntry : RetryEntry :=
  let attempt := (Run_Attempt run + 1)%i64 in
  mkRetryEntry id (Issue_Identifier (Run_Issue run)) attempt RetryBackoff (Some cause)
    (time.UnixMilli (time.Add now (backoffDelay attempt cfg))).

Definition killedView (v : IssueView) : IssueView := mkIssueView None (Some killedEntry) (v_claimed v).

Definition killedEffs (reason : string) : list Effect :=
  [EffKillWorker id reason;
   EffArmRetryTimer id (Issue_Identifier (Run_Issue run)) (RE_Attempt killedEntry)
     (backoffDelay (RE_Attempt killedEntry) cfg)].

Lemma reconcileKillRetry_spec s effs reason :
  Running s !! id = Some run ->
  let '(s', effs') := reconcileKillRetry s effs id (Run_Attempt run) cause reason cfg now in
  (∀ x, view s' x = if decide (x = id) then killedView (view s id) else view s x) /\
  effs' = effs ++ killedEffs reason.
Proof.
  intros Hr. unfold reconcileKillRetry, workerExitAbnormal. rewrite Hr.
  unfold armRetry. cbv beta iota zeta. split.
  - intros x. rewrite view_enqueueRetry, view_exit. simpl.
    case_decide; [subst|done]. by rewrite lookup_delete_eq.
  - by rewrite <- (assoc_L (++)).
Qed.
End killed.

(** *** The stall pass *)

Definition stalled (now : Time) (threshold : Duration) (run : RunAttempt) : bool :=
  let base := LastCodexTimestamp run in
  let base := if time.IsZero base then Run_StartedAt run else base in
  negb (time.IsZero base || (time.Sub now base <=? threshold)).

Section stall.
Context (cfg : Config) (now : Time) (threshold : Duration).

Definition stallUpd (id : string) (v : IssueView) : IssueView :=
  match v_run v with
  | Some run => if stalled now threshold run then killedView cfg now id run ErrStall v else v
  | None => v
  end.

Definition stallOut (id : string) (v : IssueView) : list Effect :=
  match v_run v with
  | Some run => if stalled now threshold run then killedEffs cfg now id run ErrStall "stall"
                else []
  | None => []
  end.

Lemma stallStep_eq s effs id :
  stallStep cfg now threshold (s, effs) id =
  match Running s !! id with
  | Some run => if stalled now threshold run
                then reconcileKillRetry s effs id (Run_Attempt run) ErrStall "stall" cfg now
                else (s, effs)
  | None => (s, effs)
  end.
Proof.
  unfold stallStep, stalled, reconcileKillRetry. destruct (Running s !! id); [|done].
  by destruct (_ || _).
Qed.

Lemma stallStep_pointwise acc id :
  (∀ x, view (stallStep cfg now threshold acc id).1 x
     = if decide (x = id) then stallUpd id (view acc.1 id) else view acc.1 x) /\
  (stallStep cfg now threshold acc id).2 = acc.2 ++ stallOut id (view acc.1 id).
Proof.
  destruct acc as [s effs]. rewrite stallStep_eq. unfold stallUpd, stallOut. simpl.
  destruct (Running s !! id) as [run|] eqn:Er; [destruct (stalled _ _ _)|].
  - pose proof (reconcileKillRetry_spec cfg now id run ErrStall s effs "stall" Er) as H.
    by destruct (reconcileKillRetry _ _ _ _ _ _ _ _).
  - simpl. split; [|by rewrite app_nil_r]. intros. by case_decide; subst.
  - simpl. split; [|by rewrite app_nil_r]. intros. by case_decide; subst.
Qed.
End stall.

Lemma NoDup_running_ids s : NoDup (sortedRunningIDs s).
Proof. apply sort.Strings_NoDup, NoDup_fst_map_to_list. Qed.

Lemma elem_of_running_ids s id : id ∈ sortedRunningIDs s <-> is_Some (Running s !! id).
Proof.
  unfold sortedRunningIDs. rewrite sort.Strings_elem_of, list_elem_of_fmap. split.
  - intros ([id' r] & -> & H%elem_of_map_to_list). eauto.
  - intros [r H]. exists (id, r). by rewrite elem_of_map_to_list.
Qed.

Lemma reduceStall_pointwise s cfg now :
  0 < StallTimeoutMS (Config_Codex cfg) ->
  let threshold := (StallTimeoutMS (Config_Codex cfg) * time.Millisecond)%i64 in
  (∀ x, view (reduceStall s cfg now).1 x = stallUpd cfg now threshold x (view s x)) /\
  (reduceStall s cfg now).2
  = (sortedRunningIDs s ≫= λ id, stallOut cfg now threshold id (view s id)).
Proof.
  intros Hpos threshold. unfold reduceStall. rewrite (proj2 (Z.leb_gt _ _) Hpos).
  edestruct (fold_pointwise (stallStep cfg now threshold) (stallUpd cfg now threshold)
    (stallOut cfg now threshold) (sortedRunningIDs s)) as [Hv He].
  - intros. by apply stallStep_pointwise.
  - intros. by apply stallStep_pointwise.
  - apply NoDup_running_ids.
  - split; [|exact He]. intros x. rewrite Hv. simpl. case_decide as Hx; [done|].
    unfold stallUpd. simpl. destruct (Running s !! x) eqn:E; [|done].
    destruct Hx. apply elem_of_running_ids. eauto.
Qed.

(** *** The refresh pass *)

Section refresh.
Context (cfg : Config) (now : Time) (byID : gmap string Issue).

Definition isTerminal (state : string) : bool :=
  bool_decide (strings.ToLower state ∈ normSet (Tracker_TerminalStates (Config_Tracker cfg))).
Definition isActive (state : string) : bool :=
  bool_decide (strings.ToLower state ∈ normSet (Tracker_ActiveStates (Config_Tracker cfg))).

Definition refreshUpd (id : string) (v : IssueView) : IssueView :=
  match v_run v with
  | None => v
  | Some run =>
      match byID !! id with
      | None => killedView cfg now id run ErrNotInRefresh v
      | Some iss =>
          if isTerminal (Issue_State iss) then mkIssueView None None false
          else if isActive (Issue_State iss) then
            mkIssueView (Some (run <| Run_Issue := iss |>)) (v_retry v) (v_claimed v)
          else killedView cfg now id run ErrLeftActiveStates v
      end
  end.

Definition refreshOut (id : string) (v : IssueView) : list Effect :=
  match v_run v with
  | None => []
  | Some run =>
      match byID !! id with
      | None => killedEffs cfg now id run ErrNotInRefresh "not-found"
      | Some iss =>
          if isTerminal (Issue_State iss) then
            [EffKillWorker id "terminal";
             EffRemoveWorkspace (Issue_Identifier (Run_Issue run))]
          else if isActive (Issue_State iss) then []
          else killedEffs cfg now id run ErrLeftActiveStates "non-active"
      end
  end.

Lemma refreshStep_pointwise acc id :
  (∀ x, view (refreshStep cfg now byID acc id).1 x
     = if decide (x = id) then refreshUpd id (view acc.1 id) else view acc.1 x) /\
  (refreshStep cfg now byID acc id).2 = acc.2 ++ refreshOut id (view acc.1 id).
Proof.
  destruct acc as [s effs]. unfold refreshStep, refreshUpd, refreshOut. simpl.
  destruct (Running s !! id) as [run|] eqn:Er.
  2:{ simpl. split; [|by rewrite app_nil_r]. intros. by case_decide; subst. }
  assert (∀ cause reason,
    let r := reconcileKillRetry s effs id (Run_Attempt run) cause reason cfg now in
    (∀ x, view r.1 x = if decide (x = id) then killedView cfg now id run cause (view s id)
                       else view s x) /\
    r.2 = effs ++ killedEffs cfg now id run cause reason) as Hkill.
  { intros cause reason. simpl.
    pose proof (reconcileKillRetry_spec cfg now id run cause s effs reason Er) as H.
    by destruct (reconcileKillRetry _ _ _ _ _ _ _ _). }
  destruct (byID !! id) as [iss|]; [|apply Hkill].
  unfold isTerminal, isActive. case_bool_decide; [|case_bool_decide; [|apply Hkill]].
  { split; [|done]. intros. apply view_releaseClaim. }
  simpl. split; [|by rewrite app_nil_r]. intros x. unfold updateIssueSnapshot. rewrite Er.
  rewrite view_set_run. case_decide; by subst.
Qed.
End refresh.

Lemma reduceTrackerRefreshed_pointwise s ids issues cfg now :
  NoDup ids ->
  let byID := issuesByID issues in
  (∀ x, view (reduceTrackerRefreshed s ids issues cfg now).1 x
     = if decide (x ∈ ids) then refreshUpd cfg now byID x (view s x) else view s x) /\
  (reduceTrackerRefreshed s ids issues cfg now).2
  = (sortedIDs ids ≫= λ id, refreshOut cfg now byID id (view s id)).
Proof.
  intros Hnd byID. unfold reduceTrackerRefreshed.
  edestruct (fold_pointwise (refreshStep cfg now byID) (refreshUpd cfg now byID)
    (refreshOut cfg now byID) (sortedIDs ids)) as [Hv He].
  - intros. by apply refreshStep_pointwise.
  - intros. by apply refreshStep_pointwise.
  - by apply sort.Strings_NoDup.
  - split; [|exact He]. intros x. rewrite Hv. simpl. unfold sortedIDs.
    destruct (decide (x ∈ ids)) as [Hx|Hx].
    + by rewrite decide_True by (by apply sort.Strings_elem_of).
    + rewrite decide_False; [done|]. by rewrite sort.Strings_elem_of.
Qed.

(** ** The claim lifecycle *)

(** The moves of one issue that each event allows (SPEC 7.1). *)
Inductive lifecycle_step (id : string) : Event -> ClaimState -> ClaimState -> Prop :=
| LC_stay ev c : lifecycle_step id ev c c
| LC_dispatch issues : lifecycle_step id (EvCandidatesFetched issues) Unclaimed CS_Claimed
| LC_revalidation_failed issue attempt fresh : Issue_ID issue = id ->
    lifecycle_step id (EvRevalidated issue attempt fresh) CS_Claimed Unclaimed
| LC_spawned issue attempt session : Issue_ID issue = id ->
    lifecycle_step id (EvSpawned issue attempt session) CS_Claimed CS_Running
| LC_spawn_failed issue attempt err : Issue_ID issue = id ->
    lifecycle_step id (EvSpawnFailed issue attempt err) CS_Claimed CS_RetryQueued
| LC_stalled valid : lifecycle_step id (EvTick valid) CS_Running CS_RetryQueued
| LC_left ids issues : id ∈ ids ->
    lifecycle_step id (EvTrackerRefreshed ids issues) CS_Running CS_RetryQueued
| LC_terminal ids issues : id ∈ ids ->
    lifecycle_step id (EvTrackerRefreshed ids issues) CS_Running Unclaimed
| LC_exit err attempt : lifecycle_step id (EvWorkerExit id err attempt) CS_Running CS_RetryQueued
| LC_reclaimed ident attempt issues err :
    lifecycle_step id (EvRetryResolved id ident attempt issues err) CS_RetryQueued CS_Claimed
| LC_dropped ident attempt issues err :
    lifecycle_step id (EvRetryResolved id ident attempt issues err) CS_RetryQueued Unclaimed.

#[export] Hint Constructors lifecycle_step : reactor.

(** Steps that change the lifecycle of a running issue only. *)
Lemma lifecycle_fold (R : string -> ClaimState -> Prop) f (l : list string) acc x :
  (∀ acc id x, lifecycle (f acc id : State * list Effect).1 x = lifecycle acc.1 x \/
     x = id /\ lifecycle acc.1 x = CS_Running /\ lifecycle (f acc id).1 x ≠ CS_Running
       /\ R id (lifecycle (f acc id).1 x)) ->
  lifecycle (fold_left f l acc).1 x = lifecycle acc.1 x \/
  x ∈ l /\ lifecycle acc.1 x = CS_Running /\ lifecycle (fold_left f l acc).1 x ≠ CS_Running
    /\ R x (lifecycle (fold_left f l acc).1 x).
Proof.
  intros Hf. revert acc. induction l as [|id l IH]; simpl; intros acc; [auto|].
  rewrite elem_of_cons.
  destruct (IH (f acc id)) as [Hl|(Hin & Hr & Hn & HR)], (Hf acc id x) as [E|(-> & Hr' & Hn' & HR')].
  - left. congruence.
  - right. rewrite Hl. auto.
  - right. rewrite <- E. auto.
  - congruence.
Qed.

Lemma lifecycle_stallStep cfg now threshold acc id x :
  lifecycle (stallStep cfg now threshold acc id).1 x = lifecycle acc.1 x \/
  x = id /\ lifecycle acc.1 x = CS_Running
    /\ lifecycle (stallStep cfg now threshold acc id).1 x ≠ CS_Running
    /\ lifecycle (stallStep cfg now threshold acc id).1 x = CS_RetryQueued.
Proof.
  destruct (stallStep_pointwise cfg now threshold acc id) as [Hv _].
  unfold lifecycle. rewrite Hv. case_decide as E; [subst x|by left].
  unfold stallUpd. destruct (v_run (view acc.1 id)) eqn:Er; [|by left].
  destruct (stalled _ _ _); [right|by left]. unfold lifecycle_of at 1. by rewrite Er.
Qed.

Lemma lifecycle_refreshStep cfg now byID acc id x :
  lifecycle (refreshStep cfg now byID acc id).1 x = lifecycle acc.1 x \/
  x = id /\ lifecycle acc.1 x = CS_Running
    /\ lifecycle (refreshStep cfg now byID acc id).1 x ≠ CS_Running
    /\ (lifecycle (refreshStep cfg now byID acc id).1 x = CS_RetryQueued \/
        lifecycle (refreshStep cfg now byID acc id).1 x = Unclaimed).
Proof.
  destruct (refreshStep_pointwise cfg now byID acc id) as [Hv _].
  unfold lifecycle. rewrite Hv. case_decide as E; [subst x|by left].
  unfold refreshUpd. destruct (v_run (view acc.1 id)) eqn:Er; [|by left].
  unfold lifecycle_of at 2 3. rewrite Er. simpl.
  destruct (byID !! id); [destruct (isTerminal _ _); [|destruct (isActive _ _)]|];
    unfold lifecycle_of; simpl; first [by left|right; split_and!; [done..|by auto]].
Qed.

Lemma lifecycle_dispatchLoop cfg l x : forall d,
  (∀ iss, iss ∈ l -> RetryAttempts (d_state d) !! Issue_ID iss = None) ->
  lifecycle (d_state (dispatchLoop cfg d l)) x = lifecycle (d_state d) x \/
  lifecycle (d_state d) x = Unclaimed /\
  lifecycle (d_state (dispatchLoop cfg d l)) x = CS_Claimed.
Proof.
  induction l as [|iss l IH]; simpl; intros d Hl; [by left|].
  assert (∀ i, i ∈ l -> RetryAttempts (d_state d) !! Issue_ID i = None) as Hl'
    by (intros; apply Hl; by right).
  case_match; [by left|]. case_match; [by apply IH|].
  destruct (claim (d_state d) iss) as [s' [err|]] eqn:Ec; [by apply IH|].
  set (d' := mkDispatch s' _ _ _).
  assert (lifecycle s' x = lifecycle (d_state d) x \/
    lifecycle (d_state d) x = Unclaimed /\ lifecycle s' x = CS_Claimed) as Hs.
  { unfold lifecycle. rewrite (view_claim _ _ _ _ Ec). case_decide; [right|by left]. subst x.
    split; [|done]. assert (RetryAttempts (d_state d) !! Issue_ID iss = None) as Hn by (apply Hl; left).
    unfold claim in Ec. case_decide; [done|]. destruct (Running (d_state d) !! _) eqn:Er; [done|].
    unfold lifecycle_of. simpl. rewrite Er, Hn. simpl. by rewrite bool_decide_eq_false_2. }
  destruct (IH d') as [E|[E1 E2]].
  - intros i Hi. simpl. eapply claim_retry_None; eauto.
  - rewrite E. exact Hs.
  - simpl in E1. destruct Hs as [E|[? E]]; [right; split; [congruence|done]|congruence].
Qed.

(** *** Lifecycle of the issue a token stands for *)

Lemma lifecycle_claim_tok b M s C Q id :
  sgood b M s C Q -> id ∈ C -> lifecycle s id = CS_Claimed.
Proof.
  intros G Hid. apply (g_C _ _ _ _ _ G) in Hid as (Hc & Hr & Hq).
  unfold lifecycle, lifecycle_of. simpl. rewrite Hr, Hq. simpl. by rewrite bool_decide_eq_true_2.
Qed.

Lemma lifecycle_timer_tok b M s C Q id :
  sgood b M s C Q -> id ∈ Q -> lifecycle s id = CS_RetryQueued.
Proof.
  intros G Hid. apply (g_Q_retry _ _ _ _ _ G) in Hid as [e He].
  unfold lifecycle, lifecycle_of. simpl. rewrite He.
  destruct (Running s !! id) eqn:Er; [|done].
  rewrite (inv_run_retry _ (g_inv _ _ _ _ _ G)) in He; [done|eauto].
Qed.

Lemma lifecycle_running s id : is_Some (Running s !! id) <-> lifecycle s id = CS_Running.
Proof.
  unfold lifecycle, lifecycle_of. simpl. rewrite <- is_some_true.
  destruct (is_some (Running s !! id)); [done|]. by repeat case_match.
Qed.

(** *** Events that leave every other issue alone *)

Lemma lifecycle_releaseClaim s id x :
  lifecycle (releaseClaim s id) x = if decide (x = id) then Unclaimed else lifecycle s x.
Proof. unfold lifecycle. rewrite view_releaseClaim. by case_decide. Qed.

Lemma lifecycle_armRetry s e delay now x :
  lifecycle (armRetry s e delay now).1 x
  = if decide (x = RE_IssueID e /\ lifecycle s x ≠ CS_Running) then CS_RetryQueued
    else lifecycle s x.
Proof.
  unfold armRetry. simpl. unfold lifecycle at 1. rewrite view_enqueueRetry. simpl.
  case_decide as E.
  - destruct (Running s !! x) eqn:Er; unfold lifecycle_of; simpl.
    + assert (lifecycle s x = CS_Running) as El by (apply lifecycle_running; eauto).
      rewrite decide_False by naive_solver. by rewrite El.
    + rewrite decide_True; [done|]. split; [done|]. intros [? ?]%lifecycle_running. congruence.
  - rewrite decide_False; [done|]. naive_solver.
Qed.

Lemma lifecycle_set_run s id run x :
  lifecycle (s <| Running := <[id := run]> (Running s) |>) x
  = if decide (x = id) then CS_Running else lifecycle s x.
Proof. unfold lifecycle. rewrite view_set_run. by case_decide. Qed.

Lemma lifecycle_exit s id e delay now x :
  RE_IssueID e = id ->
  lifecycle (armRetry (s <| Running := delete id (Running s) |>) e delay now).1 x
  = if decide (x = id) then CS_RetryQueued else lifecycle s x.
Proof.
  intros He. unfold armRetry. cbv beta iota zeta. unfold fst, lifecycle.
  rewrite view_enqueueRetry, view_exit. simpl. rewrite He.
  case_decide; [subst x|done]. by rewrite lookup_delete_eq.
Qed.

Lemma lifecycle_touch_running s id f x :
  lifecycle (match Running s !! id with
             | Some run => s <| Running := <[id := f run]> (Running s) |>
             | None => s
             end) x = lifecycle s x.
Proof.
  destruct (Running s !! id) eqn:E; [|done]. rewrite lifecycle_set_run.
  case_decide; [subst x|done]. symmetry. apply lifecycle_running. eauto.
Qed.

Lemma lifecycle_reduceCodexActivity s id event message ts u rl td completed x :
  lifecycle (reduceCodexActivity s id event message ts u rl td completed) x = lifecycle s x.
Proof.
  unfold reduceCodexActivity.
  assert (∀ s, lifecycle (if completed then incrementTurnCount s id else s) x = lifecycle s x) as ->.
  { intros s'. destruct completed; [|done]. apply (lifecycle_touch_running s' id
      (λ run, run <| Run_TurnCount := (Run_TurnCount run + 1)%i64 |>)). }
  assert (∀ s, lifecycle (match td with Some d => addRuntime s id d | None => s end) x
    = lifecycle s x) as ->.
  { intros s'. destruct td as [d|]; [|done]. unfold addRuntime.
    transitivity (lifecycle (match Running s' !! id with
      | Some run => s' <| Running := <[id := run <| TotalRuntime := (TotalRuntime run + d)%i64 |>]>
          (Running s') |> | None => s' end) x); [|apply lifecycle_touch_running].
    destruct (Running s' !! id) eqn:E; [|done]. case_match; [|done].
    rewrite lifecycle_set_run. case_decide; [subst x|done]. apply lifecycle_running. eauto. }
  assert (∀ s, lifecycle (match rl with Some rl => recordRateLimit s id rl | None => s end) x
    = lifecycle s x) as ->.
  { intros s'. destruct rl as [r|]; [|done].
    apply (lifecycle_touch_running s' id (λ run, run <| RateLimit := Some r |>)). }
  assert (∀ s, lifecycle (match u with Some u => recordUsage s id u | None => s end) x
    = lifecycle s x) as ->.
  { intros s'. destruct u as [u|]; [|done]. unfold recordUsage.
    destruct (Running s' !! id) eqn:E; [|done].
    unfold lifecycle, view. simpl. destruct (decide (x = id)) as [->|].
    - by rewrite lookup_insert_eq, E.
    - by rewrite lookup_insert_ne. }
  apply (lifecycle_touch_running s id (λ run,
    let run := run <| LastCodexEvent := event |> <| LastCodexTimestamp := ts |> in
    if String.eqb message "" then run else run <| LastCodexMessage := message |>)).
Qed.

Section retryResolved.
Context (s : State) (id ident : string) (attempt : Z) (issues : list Issue)
  (ferr : option error) (cfg : Config) (now : Time).
Context (Hq : lifecycle s id = CS_RetryQueued).

Lemma lifecycle_requeue e delay x :
  RE_IssueID e = id -> lifecycle (armRetry s e delay now).1 x = lifecycle s x.
Proof. intros <-. rewrite lifecycle_armRetry. case_decide as H; [|done]. by destruct H as [-> _]. Qed.

Lemma lifecycle_reduceRetryResolved x :
  lifecycle_step x (EvRetryResolved id ident attempt issues ferr) (lifecycle s x)
    (lifecycle (reduceRetryResolved s id ident attempt issues ferr cfg now).1 x).
Proof.
  assert (∀ s', (∀ x, lifecycle s' x = if decide (x = id) then Unclaimed else lifecycle s x) \/
    (∀ x, lifecycle s' x = if decide (x = id) then CS_Claimed else lifecycle s x) \/
    (∀ x, lifecycle s' x = lifecycle s x) ->
    lifecycle_step x (EvRetryResolved id ident attempt issues ferr) (lifecycle s x)
      (lifecycle s' x)) as Hcases.
  { intros s' [E|[E|E]]; rewrite E; repeat case_decide; subst; rewrite ?Hq; auto with reactor. }
  apply Hcases. unfold reduceRetryResolved. destruct ferr.
  { right. right. intros. by apply lifecycle_requeue. }
  destruct (findIssue issues id) as [found|]; [|left; apply lifecycle_releaseClaim].
  destruct (_ || _); [left; apply lifecycle_releaseClaim|].
  destruct (negb _); [right; right; intros; by apply lifecycle_requeue|].
  destruct (claimFromRetry s id) as [s' [err|]] eqn:Ec; [by auto|].
  right. left. intros y. simpl. unfold lifecycle. rewrite (view_claimFromRetry _ _ _ _ Ec).
  by case_decide.
Qed.
End retryResolved.

Lemma lifecycle_reduceWorkerExit s id err attempt cfg now x :
  lifecycle_step x (EvWorkerExit id err attempt) (lifecycle s x)
    (lifecycle (reduceWorkerExit s id err attempt cfg now).1 x).
Proof.
  unfold reduceWorkerExit, workerExitNormal, workerExitAbnormal.
  destruct err; (destruct (Running s !! id) eqn:E; [|apply LC_stay]);
    rewrite (lifecycle_exit s id) by done; (case_decide; [subst x|apply LC_stay]);
    (assert (lifecycle s id = CS_Running) as -> by (apply lifecycle_running; eauto));
    auto with reactor.
Qed.

Lemma lifecycle_reduceSpawnFailed s issue attempt err cfg now x :
  lifecycle s (Issue_ID issue) = CS_Claimed ->
  lifecycle_step x (EvSpawnFailed issue attempt err) (lifecycle s x)
    (lifecycle (reduceSpawnFailed s issue attempt err cfg now).1 x).
Proof.
  intros Hc. unfold reduceSpawnFailed. cbv zeta. rewrite lifecycle_armRetry. cbn [RE_IssueID].
  rewrite lifecycle_releaseClaim. destruct (decide (x = Issue_ID issue)) as [->|Hne].
  - rewrite decide_True by done. rewrite Hc. by constructor.
  - rewrite decide_False by naive_solver. apply LC_stay.
Qed.

Lemma Reduce_lifecycle b M s C Q ev cfg now x :
  sgood b M s (claim_tok_ev ev ++ C) (timer_tok_ev ev ++ Q) ->
  lifecycle_step x ev (lifecycle s x) (lifecycle (Reduce s ev cfg now).1 x).
Proof.
  intros G. destruct ev; simpl in *.
  - unfold reduceTick. assert (lifecycle_step x (EvTick ConfigValid) (lifecycle s x)
      (lifecycle (reduceStall s cfg now).1 x)) as H; [|by destruct (reduceStall s cfg now)].
    unfold reduceStall. case_match; [apply LC_stay|].
    edestruct (lifecycle_fold (λ _ c, c = CS_RetryQueued)
      (stallStep cfg now (StallTimeoutMS (Config_Codex cfg) * time.Millisecond)%i64)
      (sortedRunningIDs s) (s, []) x) as [E|(_ & E & _ & E')].
    + intros. apply lifecycle_stallStep.
    + rewrite E. apply LC_stay.
    + simpl in E. rewrite E, E'. apply LC_stalled.
  - unfold reduceCandidates. simpl. edestruct (lifecycle_dispatchLoop cfg) as [E|[E1 E2]];
      [|rewrite E; apply LC_stay|rewrite E2; simpl in E1; rewrite E1; apply LC_dispatch].
    simpl. intros iss [_ Hi]%elem_of_eligibles.
    by apply eligible_spec in Hi as (_&_&_&_&_&_&_&_&?&_).
  - unfold reduceTrackerRefreshed.
    edestruct (lifecycle_fold (λ _ c, c = CS_RetryQueued \/ c = Unclaimed)
      (refreshStep cfg now (issuesByID Issues)) (sortedIDs RequestedIDs) (s, []) x)
      as [E|(Hin & E & _ & E')].
    + intros. apply lifecycle_refreshStep.
    + rewrite E. apply LC_stay.
    + simpl in E. rewrite E. apply (proj1 (sort.Strings_elem_of _ _)) in Hin.
      destruct E' as [-> | ->]; auto with reactor.
  - assert (lifecycle s (Issue_ID issue) = CS_Claimed) as Hc
      by (eapply lifecycle_claim_tok; [done|left]).
    assert (lifecycle_step x (EvRevalidated issue Attempt Fresh) (lifecycle s x)
      (lifecycle (releaseClaim s (Issue_ID issue)) x)) as Hrel.
    { rewrite lifecycle_releaseClaim.
      case_decide; [subst x; rewrite Hc; by constructor|apply LC_stay]. }
    unfold reduceRevalidated. destruct Fresh; [destruct (_ || _)|]; simpl; try done.
    apply LC_stay.
  - apply lifecycle_reduceRetryResolved. eapply lifecycle_timer_tok; [done|left].
  - assert (lifecycle s (Issue_ID issue) = CS_Claimed) as Hc
      by (eapply lifecycle_claim_tok; [done|left]).
    unfold markRunning. rewrite lifecycle_set_run.
    case_decide; [subst x; rewrite Hc; by constructor|apply LC_stay].
  - assert (lifecycle s (Issue_ID issue) = CS_Claimed) as Hc
      by (eapply lifecycle_claim_tok; [done|left]).
    by apply lifecycle_reduceSpawnFailed.
  - apply lifecycle_reduceWorkerExit.
  - apply LC_stay.
  - rewrite lifecycle_reduceCodexActivity. apply LC_stay.
Qed.
