(* ===== verification/SchedShellInv.v ===== *)
(** * orchestrator/scheduler: theorems about the running loop

    Termination of the effect recursion, then the invariants of every
    reachable configuration of the scheduler: single authority, slot bound,
    retry timers, and what happens to an issue whose spawn fails. *)

From S2P Require Import Prelude GoStd Metrics Tracker WfConfig SchedState SchedReduce SchedShell SchedInv.
Open Scope Z_scope.

(** ** Depth of the effect recursion *)

(** An effect of rank [n] yields events of rank at most [n]; an event of rank
    [n] yields effects of rank less than [n].  [EffCancelRetryTimer] has a rank
    no event reaches: the reducer never emits it. *)
Definition eff_rank (eff : Effect) : nat :=
  match eff with
  | EffFetchCandidates => 3
  | EffRefreshTracker _ => 1
  | EffRevalidate _ _ => 2
  | EffRetryFetch _ _ _ => 2
  | EffSpawn _ _ => 1
  | EffKillWorker _ _ | EffRemoveWorkspace _ | EffArmRetryTimer _ _ _ _ => 0
  | EffCancelRetryTimer _ => 5
  end.

Definition ev_rank (ev : Event) : nat :=
  match ev with
  | EvTick _ => 4
  | EvCandidatesFetched _ | EvRetryDue _ _ _ => 3
  | EvRevalidated _ _ _ | EvRetryResolved _ _ _ _ _ => 2
  | EvTrackerRefreshed _ _ | EvSpawned _ _ _ | EvSpawnFailed _ _ _
  | EvWorkerExit _ _ _ | EvCodexActivity _ _ _ _ _ _ _ _ => 1
  end.

Abbreviation low n := (Forall (λ e, (eff_rank e < n)%nat)).

Lemma low_fold {A} n (f : State * list Effect -> A -> State * list Effect) l acc :
  (∀ acc x, low n acc.2 -> low n (f acc x).2) ->
  low n acc.2 -> low n (fold_left f l acc).2.
Proof. intros Hf. revert acc. induction l; simpl; auto. Qed.

Lemma reconcileKillRetry_low s effs id attempt cause reason cfg now :
  low 1 effs -> low 1 (reconcileKillRetry s effs id attempt cause reason cfg now).2.
Proof.
  intros. unfold reconcileKillRetry, armRetry. repeat case_match; simplify_eq/=; [|done].
  rewrite !Forall_app. repeat constructor; auto.
Qed.

Lemma reduceStall_low s cfg now : low 1 (reduceStall s cfg now).2.
Proof.
  unfold reduceStall. case_match; simpl; [constructor|]. apply low_fold; [|constructor].
  intros [s' effs] id Hl. unfold stallStep, armRetry. repeat case_match; simplify_eq/=; try done.
  all: rewrite !Forall_app; repeat constructor; auto.
Qed.

Lemma reduceTrackerRefreshed_low s ids issues cfg now :
  low 1 (reduceTrackerRefreshed s ids issues cfg now).2.
Proof.
  unfold reduceTrackerRefreshed. apply low_fold; [|constructor].
  intros [s' effs] id Hl. unfold refreshStep.
  repeat (case_match; try done); simpl; auto using reconcileKillRetry_low.
  rewrite Forall_app. repeat constructor; auto.
Qed.

Lemma dispatchLoop_low cfg l : forall d, low 3 (d_effs d) -> low 3 (d_effs (dispatchLoop cfg d l)).
Proof.
  induction l as [|iss l IH]; simpl; intros d Hd; [done|].
  repeat case_match; simplify_eq/=; auto.
  apply IH. simpl. rewrite Forall_app. repeat constructor; auto.
Qed.

Lemma low_weaken n m effs : (n <= m)%nat -> low n effs -> low m effs.
Proof. intros. eapply Forall_impl; [done|]. simpl. lia. Qed.

Lemma Reduce_low s ev cfg now : low (ev_rank ev) (Reduce s ev cfg now).2.
Proof.
  destruct ev; simpl; try (by repeat constructor).
  - unfold reduceTick. pose proof (reduceStall_low s cfg now) as H.
    destruct (reduceStall s cfg now) as [s' effs]. simpl in *.
    apply (low_weaken 1 4) in H; [|lia].
    repeat case_match; rewrite ?Forall_app; repeat constructor; auto; simpl; lia.
  - unfold reduceCandidates. simpl. apply dispatchLoop_low. constructor.
  - apply reduceTrackerRefreshed_low.
  - unfold reduceRevalidated. repeat case_match; repeat constructor.
  - unfold reduceRetryResolved. repeat case_match; repeat constructor.
  - unfold reduceWorkerExit. repeat case_match; repeat constructor.
Qed.

Section totality.
Context {W Worker : Type} (deps : Deps W Worker).

Lemma exec_total (k : Scheduler Worker * W -> Event -> option (Scheduler Worker * W)) n c eff :
  (∀ c ev, (ev_rank ev <= n)%nat -> is_Some (k c ev)) ->
  (eff_rank eff <= n)%nat -> is_Some (exec deps k c eff).
Proof.
  intros Hk Hr. destruct c as [σ w], eff; simpl in *;
    unfold execFetchCandidates, execRefreshTracker, execRevalidate, execRetryFetch,
      execSpawn, execKillWorker, execRemoveWorkspace;
    repeat case_match; eauto; apply Hk; simpl; lia.
Qed.

Lemma execAll_total k n effs : forall c : Scheduler Worker * W,
  (∀ c ev, (ev_rank ev <= n)%nat -> is_Some (k c ev)) ->
  low (S n) effs -> is_Some (execAll deps k c effs).
Proof.
  induction effs as [|eff effs IH]; simpl; intros c Hk Hl; [eauto|].
  inversion Hl as [|? ? He Hl']; subst.
  destruct (exec_total k n c eff) as [c' ->]; [done|lia|]. by apply IH.
Qed.

Lemma stepN_total fuel : forall c ev,
  (ev_rank ev <= fuel)%nat -> is_Some (stepN deps fuel c ev).
Proof.
  induction fuel as [|fuel IH]; intros [σ w] ev Hr; [destruct ev; simpl in Hr; lia|].
  simpl. destruct (Deps_Now deps w) as [w1 now].
  pose proof (Reduce_low (cur σ) ev (cfg σ) now) as Hl.
  destruct (Reduce (cur σ) ev (cfg σ) now) as [s' effs]. simpl in Hl.
  eapply execAll_total; [exact IH|]. eapply low_weaken; [|done]. lia.
Qed.

Lemma ev_rank_bound ev : (ev_rank ev <= stepFuel)%nat.
Proof. destruct ev; simpl; unfold stepFuel; lia. Qed.

Lemma step_total c ev : is_Some (step deps c ev).
Proof. apply stepN_total, ev_rank_bound. Qed.
End totality.

(** ** Invariants of the loop

    A predicate [I] on the scheduler and the claim and timer tokens in flight is
    an invariant of the loop when the reducer and the timer operations preserve
    it, for events that satisfy [ok].  The rules below carry it through the
    effect recursion, the handlers, and every reachable configuration. *)

(** The fields the token discipline speaks of are equal. *)
Definition same_core {Worker} (σ σ' : Scheduler Worker) : Prop :=
  cur σ' = cur σ /\ timers σ' = timers σ /\ armed σ' = armed σ /\
  nextTimer σ' = nextTimer σ /\ retryFire σ' = retryFire σ /\ published σ' = published σ.

Record loop_inv {Worker} (M : Z) (ok : Event -> Prop)
    (I : Scheduler Worker -> list string -> list string -> Prop) : Prop := {
  I_reduce σ C T ev now s' effs :
    ok ev -> (fetches ev = true -> C = []) ->
    I σ (claim_tok_ev ev ++ C) (timer_tok_ev ev ++ T) ->
    Reduce (cur σ) ev (cfg σ) now = (s', effs) ->
    I (publish (σ <| cur := s' |>)) (claim_toks effs ++ C) (timer_toks effs ++ T) /\
    (EffFetchCandidates ∈ effs -> fetches ev = true /\ claim_toks effs = []);
  I_arm σ C T id ident a d : I σ C (id :: T) -> I (armTimer σ id ident a d) C T;
  I_limits σ C T : I σ C T -> limit_ok M (cfg σ) /\ limit_ok M (lastGood σ);
  I_frame σ σ' C T : same_core σ σ' -> limit_ok M (cfg σ') -> limit_ok M (lastGood σ') ->
    I σ C T -> I σ' C T;
  I_forget σ C T id : I σ C T -> I (σ <| timers := delete id (timers σ) |>) C T;
  I_receive σ req reqs : retryFire σ = req :: reqs -> I σ [] [] ->
    I (σ <| retryFire := reqs |>) [] [Req_IssueID req];
  I_fire σ tid req : armed σ !! tid = Some req -> I σ [] [] ->
    I (σ <| armed := delete tid (armed σ) |> <| retryFire := retryFire σ ++ [req] |>) [] [];
  I_postpone σ id e due : RetryAttempts (cur σ) !! id = Some e -> I σ [] [id] ->
    I (publish (σ <| cur := enqueueRetry (cur σ) (e <| RE_DueAtMS := due |>) |>)) [] [id];
}.

(** The assumptions on the environment under which the loop is verified:
    dispatch is wired, and no workflow that loads has a concurrency limit above
    [M] in absolute value. *)
Record env_ok {W Worker} (deps : Deps W Worker) (M : Z) : Prop := {
  env_tracker : is_Some (Deps_Tracker deps);
  env_spawn : is_Some (Deps_Spawn deps);
  env_limit w wf : (Deps_LoadWorkflow deps w).2 = inl wf ->
    limit_ok M (Loaded_Config wf);
}.

Section rule.
Context {W Worker : Type} (deps : Deps W Worker) (M : Z) (ok : Event -> Prop).
Context (I : Scheduler Worker -> list string -> list string -> Prop).
Context (HI : loop_inv M ok I) (Henv : env_ok deps M).
Implicit Types (c : Scheduler Worker * W) (σ : Scheduler Worker).

Hypothesis ok_other : ∀ ev, (∀ i a e, ev ≠ EvSpawnFailed i a e) -> ok ev.
Hypothesis ok_spawn : ∀ spawn w i a err, Deps_Spawn deps = Some spawn ->
  (spawn w i a).2 = inr err -> ok (EvSpawnFailed i a (Some err)).

Lemma I_workers σ C T ws : I σ C T -> I (σ <| workers := ws |>) C T.
Proof.
  intros H. destruct (I_limits _ _ _ HI _ _ _ H).
  by eapply (I_frame _ _ _ HI); [..|exact H].
Qed.

Abbreviation preserves k := (∀ (c c' : Scheduler Worker * W) ev C T,
  ok ev -> (fetches ev = true -> C = []) ->
  I c.1 (claim_tok_ev ev ++ C) (timer_tok_ev ev ++ T) ->
  k c ev = Some c' -> I c'.1 C T).

Lemma exec_rule k c c' eff C T :
  preserves k -> (eff = EffFetchCandidates -> C = []) ->
  (∀ id, eff ≠ EffCancelRetryTimer id) ->
  I c.1 (claim_tok eff ++ C) (timer_tok eff ++ T) ->
  exec deps k c eff = Some c' -> I c'.1 C T.
Proof.
  intros Hk HC Hcancel HInv HE. destruct c as [σ w], eff; simpl in *.
  - unfold execFetchCandidates in HE. repeat case_match; simplify_eq/=; try done.
    refine (Hk _ _ _ _ _ _ _ _ HE); [by apply ok_other|auto|exact HInv].
  - unfold execRefreshTracker in HE. repeat case_match; simplify_eq/=; try done.
    refine (Hk _ _ _ _ _ _ _ _ HE); [by apply ok_other|done|exact HInv].
  - unfold execRevalidate in HE. repeat case_match; simplify_eq/=;
      (refine (Hk _ _ _ _ _ _ _ _ HE); [by apply ok_other|done|exact HInv]).
  - unfold execRetryFetch in HE. destruct (env_tracker _ _ Henv) as [cand Hc], (env_spawn _ _ Henv) as [sp Hs].
    rewrite Hc, Hs in HE. repeat case_match; simplify_eq/=.
    refine (Hk _ _ _ _ _ _ _ _ HE); [by apply ok_other|done|exact HInv].
  - unfold execSpawn in HE. destruct (env_spawn _ _ Henv) as [sp Hs]. rewrite Hs in HE.
    destruct (sp w issue Attempt) as [w' [[session worker]|err]] eqn:Esp.
    + refine (Hk _ _ _ _ _ _ _ _ HE); [by apply ok_other|done|].
      destruct worker; [by apply I_workers|done].
    + refine (Hk _ _ _ _ _ _ _ _ HE); [eapply ok_spawn; [done|by rewrite Esp]|done|exact HInv].
  - unfold execKillWorker in HE. case_match; simplify_eq/=; [by apply I_workers|done].
  - unfold execRemoveWorkspace in HE. repeat case_match; simplify_eq/=; auto.
  - simplify_eq/=. by apply (I_arm _ _ _ HI).
  - by destruct (Hcancel IssueID).
Qed.

Lemma execAll_rule k effs : forall c c' C T,
  preserves k ->
  (EffFetchCandidates ∈ effs -> C = [] /\ claim_toks effs = []) ->
  (∀ id, EffCancelRetryTimer id ∉ effs) ->
  I c.1 (claim_toks effs ++ C) (timer_toks effs ++ T) ->
  execAll deps k c effs = Some c' -> I c'.1 C T.
Proof.
  induction effs as [|eff effs IH]; simpl; intros c c' C T Hk Hf Hn HInv HE.
  { by simplify_eq. }
  destruct (exec deps k c eff) as [c1|] eqn:Ee; [|done].
  assert (EffFetchCandidates ∈ eff :: effs -> C = [] /\ claim_toks effs = []) as Hf'.
  { intros Hin. destruct (Hf Hin) as [? Hc]. split; [done|].
    by apply app_eq_nil in Hc as [_ ?]. }
  eapply (IH c1 c' C T Hk); [| | |exact HE].
  - intros. apply Hf'. by right.
  - intros id Hin. apply (Hn id). by right.
  - eapply exec_rule; [exact Hk| | | |exact Ee].
    + intros ->. destruct Hf' as [-> ->]; [left|done].
    + intros id ->. apply (Hn id). left.
    + by rewrite !(assoc_L (++)).
Qed.

Lemma stepN_rule fuel : preserves (stepN deps fuel).
Proof.
  induction fuel as [|fuel IH]; intros [σ w] c' ev C T Hok HC HInv HE; [done|].
  simpl in HE, HInv. destruct (Deps_Now deps w) as [w1 now].
  pose proof (Reduce_low (cur σ) ev (cfg σ) now) as Hl.
  destruct (Reduce (cur σ) ev (cfg σ) now) as [s' effs] eqn:ER. simpl in Hl.
  destruct (I_reduce _ _ _ HI σ C T ev now s' effs Hok HC HInv ER) as [HI' Hf].
  refine (execAll_rule (stepN deps fuel) effs _ _ _ _ IH _ _ _ HE); [| |exact HI'].
  - intros Hin. destruct (Hf Hin). auto.
  - intros id Hin. rewrite Forall_forall in Hl. specialize (Hl _ Hin).
    pose proof (ev_rank_bound ev). unfold stepFuel in *. simpl in Hl. lia.
Qed.

Lemma step_rule c c' ev C T :
  ok ev -> (fetches ev = true -> C = []) ->
  I c.1 (claim_tok_ev ev ++ C) (timer_tok_ev ev ++ T) ->
  step deps c ev = Some c' -> I c'.1 C T.
Proof. apply stepN_rule. Qed.

Lemma reloadConfig_spec σ w σ' w' cf v :
  reloadConfig deps (σ, w) = ((σ', w'), (cf, v)) ->
  same_core σ σ' /\ cfg σ' = cfg σ /\
  (cf = lastGood σ \/ limit_ok M cf) /\ (lastGood σ' = lastGood σ \/ limit_ok M (lastGood σ')).
Proof.
  pose proof (env_limit _ _ Henv w) as Hlim. unfold reloadConfig, markDegraded.
  destruct (Deps_LoadWorkflow deps w) as [w1 [wf|err]]; simpl in *.
  - specialize (Hlim wf eq_refl). destruct (Preflight (Loaded_Config wf));
      intros [= <- <- <- <-]; destruct (degraded σ); (split; [by repeat split|]); simpl; auto.
  - intros [= <- <- <- <-]. destruct (degraded σ); (split; [by repeat split|]); simpl; auto.
Qed.

Lemma reloadConfig_rule σ w σ' w' cf v C T :
  I σ C T -> reloadConfig deps (σ, w) = ((σ', w'), (cf, v)) ->
  I (σ' <| cfg := cf |>) C T /\ I σ' C T.
Proof.
  intros H E. destruct (reloadConfig_spec _ _ _ _ _ _ E) as (Hs & Hc & Hcf & Hlg).
  destruct (I_limits _ _ _ HI _ _ _ H) as [Hl Hl'].
  assert (limit_ok M cf) by (by destruct Hcf as [->|]).
  assert (limit_ok M (lastGood σ')) by (by destruct Hlg as [->|]).
  split; (eapply (I_frame _ _ _ HI); [..|exact H]); simpl; try done. by rewrite Hc.
Qed.

Lemma tick_rule c c' : I c.1 [] [] -> tick deps c = Some c' -> I c'.1 [] [].
Proof.
  destruct c as [σ w]. intros H. change (I σ [] []) in H. unfold tick.
  destruct (reloadConfig deps (σ, w)) as [[σ1 w1] [c1 v]] eqn:E.
  destruct (reloadConfig_rule _ _ _ _ _ _ _ _ H E). apply step_rule; try done.
  by apply ok_other.
Qed.

Lemma handleRetryFire_rule σ w req c' :
  I σ [] [Req_IssueID req] -> handleRetryFire deps (σ, w) req = Some c' -> I c'.1 [] [].
Proof.
  intros H. apply (I_forget _ _ _ HI _ _ _ (Req_IssueID req)) in H.
  unfold handleRetryFire. cbv zeta.
  destruct (reloadConfig deps _) as [[σ1 w1] [c1 v]] eqn:E.
  destruct (reloadConfig_rule _ _ _ _ _ _ _ _ H E) as [Hc H1]. clear H E.
  destruct v; simpl.
  - apply step_rule; [by apply ok_other|done|done].
  - destruct (RetryAttempts (cur σ1) !! Req_IssueID req) as [entry|] eqn:He.
    + destruct (Deps_Now deps w1) as [w2 now]. intros [= <-].
      by apply (I_arm _ _ _ HI), (I_postpone _ _ _ HI).
    + intros [= <-]. by apply (I_arm _ _ _ HI).
Qed.

Lemma handleWorkerDone_rule c id err attempt c' :
  I c.1 [] [] -> handleWorkerDone deps c id err attempt = Some c' -> I c'.1 [] [].
Proof.
  destruct c as [σ w]. intros H. change (I σ [] []) in H. unfold handleWorkerDone.
  apply (I_workers _ _ _ (delete id (workers σ))) in H.
  destruct (reloadConfig deps (σ <| workers := delete id (workers σ) |>, w))
    as [[σ1 w1] [c1 v]] eqn:E.
  destruct (reloadConfig_rule _ _ _ _ _ _ _ _ H E). apply step_rule; try done.
  by apply ok_other.
Qed.

Lemma I_shell σ σ' C T :
  same_core σ σ' -> cfg σ' = cfg σ -> lastGood σ' = lastGood σ -> I σ C T -> I σ' C T.
Proof.
  intros Hs Ec El H. destruct (I_limits _ _ _ HI _ _ _ H).
  eapply (I_frame _ _ _ HI); [done|by rewrite Ec|by rewrite El|done].
Qed.

Lemma applyInterval_rule σ C T : I σ C T -> I (applyInterval σ) C T.
Proof. unfold applyInterval. case_match; [|done]. by apply I_shell. Qed.

Lemma loop_step_rule c c' : loop_step deps c c' -> I c.1 [] [] -> I c'.1 [] [].
Proof.
  intros Hs H. destruct Hs as [σ w σ' w' Ht|σ w req reqs c' Hq Hh|c id err a c' Hh
    |c id ev m ts u rl td cm c' Hs|σ w σ' w' Hr Ht|σ w tid req Ha|σ w|σ w w'].
  - apply applyInterval_rule. by apply tick_rule in Ht.
  - eapply handleRetryFire_rule; [|exact Hh]. by apply (I_receive _ _ _ HI).
  - by eapply handleWorkerDone_rule.
  - refine (step_rule _ _ _ _ _ _ _ _ Hs); [by apply ok_other|done..].
  - apply applyInterval_rule. apply tick_rule in Ht; [done|]. by eapply I_shell; [..|exact H].
  - by apply (I_fire _ _ _ HI).
  - simpl in *. unfold Refresh. case_match; [done|]. by eapply I_shell; [..|exact H].
  - done.
Qed.

Lemma reachable_rule (c0 : Config) tmpl c :
  I (New c0 tmpl) [] [] -> reachable deps c0 tmpl c -> I c.1 [] [].
Proof.
  intros H0. induction 1 as [w c Hs|c c' _ IH Hstep].
  - unfold startRun in Hs. eapply tick_rule; [|exact Hs].
    by eapply I_shell; [..|exact H0].
  - by eapply loop_step_rule.
Qed.
End rule.

(** ** The loop invariant *)

(** Issues with a timer that is armed or has fired. *)
Definition pending {Worker} (σ : Scheduler Worker) : list string :=
  (Req_IssueID <$> (map_to_list (armed σ)).*2) ++ (Req_IssueID <$> retryFire σ).

(** [C], [T]: the claim and timer tokens held by work in progress. *)
Record good {Worker} (b : bool) (M : Z) (σ : Scheduler Worker) (C T : list string) : Prop := {
  good_s : sgood b M (cur σ) C (pending σ ++ T);
  good_own id tid req :
    timers σ !! id = Some tid -> armed σ !! tid = Some req -> Req_IssueID req = id;
  good_armed_next tid : is_Some (armed σ !! tid) -> (tid < nextTimer σ)%nat;
  good_timers_next id tid : timers σ !! id = Some tid -> (tid < nextTimer σ)%nat;
  good_limit : limit_ok M (cfg σ);
  good_lastGood : limit_ok M (lastGood σ);
  good_published : published σ = Some (cur σ);
}.

Section good.
Context {Worker : Type}.
Implicit Types (σ : Scheduler Worker).

Lemma elem_of_pending_armed σ tid req :
  armed σ !! tid = Some req -> Req_IssueID req ∈ pending σ.
Proof.
  intros Ha. apply elem_of_app. left. apply list_elem_of_fmap. exists req.
  split; [done|]. apply list_elem_of_fmap. exists (tid, req). split; [done|].
  by apply elem_of_map_to_list.
Qed.

Lemma armTimer_good b M σ C T id ident a d :
  good b M σ C (id :: T) -> good b M (armTimer σ id ident a d) C T.
Proof.
  intros [G Hown Han Htn Hl Hlg Hp].
  pose proof (g_Q_nodup _ _ _ _ _ G) as Hnd.
  assert (match timers σ !! id with Some old => stopTimer σ old | None => σ end = σ) as Hstop.
  { destruct (timers σ !! id) as [old|] eqn:E; [|done]. unfold stopTimer.
    rewrite delete_id; [by destruct σ|]. destruct (armed σ !! old) as [req|] eqn:Ea; [|done].
    pose proof (Hown _ _ _ E Ea) as Hid. apply elem_of_pending_armed in Ea.
    apply NoDup_app in Hnd as (_ & Hd & _). destruct (Hd (Req_IssueID req)); [done|].
    rewrite Hid. left. }
  unfold armTimer. rewrite Hstop.
  assert (armed σ !! nextTimer σ = None) as Hfresh.
  { apply eq_None_not_Some. intros ?%Han. lia. }
  split; simpl; try done.
  - unfold pending. simpl. rewrite map_to_list_insert by done. simpl.
    rewrite Permutation_middle. exact G.
  - intros id' tid req. rewrite !lookup_insert_Some.
    intros [[<- <-]|[Hne Ht]] [[He <-]|[Hne' Ha]]; simpl; try done; eauto.
    apply Htn in Ht. lia.
  - intros tid. rewrite lookup_insert_is_Some'. intros [<-|Ha%Han]; lia.
  - intros id' tid. rewrite lookup_insert_Some. intros [[_ <-]|[_ Ht%Htn]]; lia.
Qed.

Lemma reduce_good b M σ C T ev now s' effs :
  allowed b ev -> (fetches ev = true -> C = []) ->
  good b M σ (claim_tok_ev ev ++ C) (timer_tok_ev ev ++ T) ->
  Reduce (cur σ) ev (cfg σ) now = (s', effs) ->
  good b M (publish (σ <| cur := s' |>)) (claim_toks effs ++ C) (timer_toks effs ++ T) /\
  (EffFetchCandidates ∈ effs -> fetches ev = true /\ claim_toks effs = []).
Proof.
  intros Hok HC [G Hown Han Htn Hl Hlg Hp] HR.
  assert (∀ l, pending σ ++ l ++ T ≡ₚ l ++ pending σ ++ T) as Hperm.
  { intros l. by rewrite !(assoc_L (++)), (comm (++) (pending σ) l). }
  rewrite Hperm in G.
  destruct (Reduce_sgood _ _ _ _ _ _ _ _ _ _ Hl Hok HC G HR) as [G' Hf].
  split; [|done]. split; simpl; try done. unfold pending. simpl. by rewrite Hperm.
Qed.

(** Changes that touch neither state nor timers. *)
Lemma good_frame b M σ σ' C T :
  cur σ' = cur σ -> timers σ' = timers σ -> armed σ' = armed σ ->
  nextTimer σ' = nextTimer σ -> retryFire σ' = retryFire σ -> published σ' = published σ ->
  limit_ok M (cfg σ') -> limit_ok M (lastGood σ') ->
  good b M σ C T -> good b M σ' C T.
Proof.
  intros E1 E2 E3 E4 E5 E6 ? ? [G Hown Han Htn Hl Hlg Hp].
  split; unfold pending; rewrite ?E1, ?E2, ?E3, ?E4, ?E5, ?E6; done.
Qed.

(** Forgetting the handle of a timer that has fired. *)
Lemma good_delete_timers b M σ C T id :
  good b M σ C T -> good b M (σ <| timers := delete id (timers σ) |>) C T.
Proof.
  intros [G Hown Han Htn Hl Hlg Hp]. split; simpl; try done.
  - intros id' tid req [_ ?]%lookup_delete_Some. eauto.
  - intros id' tid [_ ?]%lookup_delete_Some. eauto.
Qed.

(** Receiving a fired request hands its timer token to the handler. *)
Lemma good_receive b M σ req reqs :
  retryFire σ = req :: reqs -> good b M σ [] [] ->
  good b M (σ <| retryFire := reqs |>) [] [Req_IssueID req].
Proof.
  intros E [G Hown Han Htn Hl Hlg Hp]. split; simpl; try done.
  unfold pending in *. simpl. rewrite E in G. rewrite app_nil_r in G. simpl in G.
  by rewrite <- (assoc_L (++)), <- Permutation_cons_append.
Qed.

Lemma good_fire b M σ tid req :
  armed σ !! tid = Some req -> good b M σ [] [] ->
  good b M (σ <| armed := delete tid (armed σ) |>
              <| retryFire := retryFire σ ++ [req] |>) [] [].
Proof.
  intros E [G Hown Han Htn Hl Hlg Hp]. split; simpl; try done.
  - unfold pending in *. simpl. rewrite <- (map_to_list_delete _ _ _ E) in G. simpl in G.
    rewrite fmap_app. simpl.
    rewrite (assoc_L (++)), <- Permutation_cons_append. exact G.
  - intros id' tid' req' Ht [_ ?]%lookup_delete_Some. eauto.
  - intros tid' [_ ?]%lookup_delete_is_Some. eauto.
Qed.

Lemma good_New b M c tmpl : limit_ok M c -> good b M (@New Worker c tmpl) [] [].
Proof.
  intros Hl. split; simpl; try done.
  - apply sgood_NewState. destruct Hl. lia.
  - intros tid. rewrite lookup_empty. by intros [? [=]].
Qed.
End good.


(** Without spawn failures, [b] may be set. *)
Definition spawn_never_fails {W Worker} (deps : Deps W Worker) : Prop :=
  ∀ spawn w i a err, Deps_Spawn deps = Some spawn -> (spawn w i a).2 ≠ inr err.

Section reach.
Context {W Worker : Type} (deps : Deps W Worker) (b : bool) (M : Z).
Context (Henv : env_ok deps M) (Hspawn : b = true -> spawn_never_fails deps).

Lemma allowed_other ev : (∀ i a e, ev ≠ EvSpawnFailed i a e) -> allowed b ev.
Proof. destruct ev; simpl; try done. intros H. by destruct (H issue Attempt Err). Qed.

Lemma allowed_spawn spawn w i a err :
  Deps_Spawn deps = Some spawn -> (spawn w i a).2 = inr err ->
  allowed b (EvSpawnFailed i a (Some err)).
Proof. simpl. intros Hs E. destruct b; [|done]. by destruct (Hspawn eq_refl spawn w i a err Hs). Qed.

Lemma good_loop_inv : loop_inv M (allowed b) (@good Worker b M).
Proof.
  split.
  - intros. by eapply reduce_good.
  - intros. by apply armTimer_good.
  - intros σ C T G. split; apply G.
  - intros σ σ' C T (?&?&?&?&?&?) ? ?. by apply good_frame.
  - intros. by apply good_delete_timers.
  - intros. by apply good_receive.
  - intros. by apply good_fire.
  - intros σ id e due He [G Hown Han Htn Hcfg Hlg Hp]. split; simpl; try done.
    unfold pending in *. simpl in *. rewrite <- Permutation_cons_append in *.
    apply sgood_requeue; [done|]. by apply (inv_retry_key _ (g_inv _ _ _ _ _ G)) in He.
Qed.

Lemma reachable_good (c0 : Config) tmpl c :
  limit_ok M c0 -> reachable deps c0 tmpl c -> good b M c.1 [] [].
Proof.
  intros Hl. apply (reachable_rule deps M (allowed b) (good b M) good_loop_inv Henv).
  - apply allowed_other.
  - apply allowed_spawn.
  - by apply good_New.
Qed.
End reach.
