(* ===== verification/SchedOrphan.v ===== *)
(** * orchestrator/scheduler: retries whose spawn failed

    [reduceSpawnFailed] releases the claim before it queues the retry, but
    [claimFromRetry] only accepts a queued issue that is still claimed.  When
    the timer of such a retry fires, the entry stays behind without a timer:
    an orphan.  Orphans are never dispatched again and never leave the state. *)

From S2P Require Import Prelude GoStd Metrics Tracker WfConfig SchedState SchedReduce SchedShell SchedInv.
From S2P Require Import SchedLifecycle SchedShellInv.
Open Scope Z_scope.

(** ** Whose timers an event arms *)

Lemma elem_of_timer_toks_app (x : string) effs effs' :
  x ∈ timer_toks (effs ++ effs') <-> x ∈ timer_toks effs \/ x ∈ timer_toks effs'.
Proof. by rewrite bind_app, elem_of_app. Qed.

Lemma fold_arms f (l : list string) x : forall acc,
  (∀ acc id, x ∈ timer_toks (f acc id : State * list Effect).2 ->
     x ∈ timer_toks acc.2 \/ lifecycle acc.1 x = CS_Running) ->
  (∀ acc id, lifecycle (f acc id).1 x = CS_Running -> lifecycle acc.1 x = CS_Running) ->
  x ∈ timer_toks (fold_left f l acc).2 ->
  x ∈ timer_toks acc.2 \/ lifecycle acc.1 x = CS_Running.
Proof.
  induction l as [|id l IH]; simpl; intros acc Ha Hr Hx; [by left|].
  destruct (IH _ Ha Hr Hx) as [H%Ha|H%Hr]; auto.
Qed.

Lemma killedEffs_arms (x : string) cfg now id run cause reason :
  x ∈ timer_toks (killedEffs cfg now id run cause reason) -> x = id.
Proof. simpl. by intros ?%list_elem_of_singleton. Qed.

Lemma stallStep_arms cfg now threshold acc id x :
  x ∈ timer_toks (stallStep cfg now threshold acc id).2 ->
  x ∈ timer_toks acc.2 \/ lifecycle acc.1 x = CS_Running.
Proof.
  destruct (stallStep_pointwise cfg now threshold acc id) as [_ ->].
  rewrite elem_of_timer_toks_app. intros [?|H]; [by left|right].
  unfold stallOut in H. simpl in H. destruct (Running acc.1 !! id) eqn:E; [|set_solver].
  destruct (stalled _ _ _); [|set_solver]. apply killedEffs_arms in H as ->.
  apply lifecycle_running. eauto.
Qed.

Lemma refreshStep_arms cfg now byID acc id x :
  x ∈ timer_toks (refreshStep cfg now byID acc id).2 ->
  x ∈ timer_toks acc.2 \/ lifecycle acc.1 x = CS_Running.
Proof.
  destruct (refreshStep_pointwise cfg now byID acc id) as [_ ->].
  rewrite elem_of_timer_toks_app. intros [?|H]; [by left|right].
  unfold refreshOut in H. cbn [v_run view] in H.
  destruct (Running acc.1 !! id) eqn:E; [|set_solver].
  assert (x = id) as ->; [|apply lifecycle_running; eauto].
  destruct (byID !! id); [destruct (isTerminal _ _); [|destruct (isActive _ _)]|];
    try (by apply killedEffs_arms in H); simpl in H; set_solver.
Qed.

Lemma dispatchLoop_arms cfg l : forall d,
  timer_toks (d_effs d) = [] -> timer_toks (d_effs (dispatchLoop cfg d l)) = [].
Proof.
  induction l as [|iss l IH]; simpl; intros d Hd; [done|].
  repeat case_match; auto. apply IH. simpl. by rewrite bind_app, Hd.
Qed.

Lemma armRetry_arms (x : string) s e delay now :
  x ∈ timer_toks (armRetry s e delay now).2 -> x = RE_IssueID e.
Proof. simpl. by intros ?%list_elem_of_singleton. Qed.

Lemma reduceTick_arms s valid cfg now x :
  x ∈ timer_toks (reduceTick s valid cfg now).2 -> lifecycle s x = CS_Running.
Proof.
  unfold reduceTick. assert (x ∈ timer_toks (reduceStall s cfg now).2 ->
    lifecycle s x = CS_Running) as Hstall.
  { unfold reduceStall. case_match; [set_solver|]. intros Hx.
    apply fold_arms in Hx as [Hx|Hx]; [set_solver|done| |].
    - intros. by eapply stallStep_arms.
    - intros acc id Hr. by destruct (lifecycle_stallStep cfg now
        (StallTimeoutMS (Config_Codex cfg) * time.Millisecond)%i64 acc id x) as [<-|(_&?&?&_)]. }
  destruct (reduceStall s cfg now) as [s1 effs]. simpl in Hstall.
  repeat case_match; simpl; rewrite ?elem_of_timer_toks_app; set_solver.
Qed.

Lemma Reduce_arms s ev cfg now x :
  x ∈ timer_toks (Reduce s ev cfg now).2 ->
  x ∈ timer_tok_ev ev \/ x ∈ claim_tok_ev ev \/ lifecycle s x = CS_Running.
Proof.
  destruct ev; cbn [Reduce].
  - intros ?%reduceTick_arms. auto.
  - unfold reduceCandidates. simpl. rewrite dispatchLoop_arms by done. set_solver.
  - intros H. apply fold_arms in H as [H|H]; [set_solver|auto| |].
    + intros. by eapply refreshStep_arms.
    + intros acc id Hr. by destruct (lifecycle_refreshStep cfg now (issuesByID Issues) acc id x)
        as [<-|(_&?&?&_)].
  - unfold reduceRevalidated. repeat case_match; simpl; set_solver.
  - unfold reduceRetryResolved. simpl timer_tok_ev.
    repeat case_match; try (intros ->%armRetry_arms; left; left); simpl; set_solver.
  - simpl. set_solver.
  - intros ->%armRetry_arms. simpl. set_solver.
  - unfold reduceWorkerExit, workerExitNormal, workerExitAbnormal.
    repeat case_match; simplify_eq; try (simpl; set_solver);
      intros ->%armRetry_arms; simpl; right; right; apply lifecycle_running; eauto.
  - simpl. set_solver.
  - simpl. set_solver.
Qed.

(** ** Orphans *)

(** A queued retry without a timer: none armed, fired, or being handled. *)
Definition orphan {Worker} (id : string) (σ : Scheduler Worker) (T : list string) : Prop :=
  is_Some (RetryAttempts (cur σ) !! id) /\ id ∉ pending σ ++ T.

Section orphan.
Context {W Worker : Type} (M : Z) (id : string).
Implicit Types (σ : Scheduler Worker).

Lemma orphan_retry_queued b σ C T :
  good b M σ C T -> orphan id σ T ->
  lifecycle (cur σ) id = CS_RetryQueued /\ id ∉ Claimed (cur σ).
Proof.
  intros [G _ _ _ _ _ _] [[e He] Hp]. split.
  - unfold lifecycle, lifecycle_of. simpl. rewrite He.
    destruct (Running (cur σ) !! id) eqn:Er; [|done].
    rewrite (inv_run_retry _ (g_inv _ _ _ _ _ G)) in He; [done|eauto].
  - intros Hc. apply Hp. apply (g_retry_Q _ _ _ _ _ G); eauto.
Qed.

Lemma orphan_reduce σ C T ev now s' effs :
  good false M σ (claim_tok_ev ev ++ C) (timer_tok_ev ev ++ T) ->
  orphan id σ (timer_tok_ev ev ++ T) ->
  Reduce (cur σ) ev (cfg σ) now = (s', effs) ->
  orphan id (publish (σ <| cur := s' |>)) (timer_toks effs ++ T).
Proof.
  intros G O HR. destruct (orphan_retry_queued _ _ _ _ G O) as [Hq Hc].
  destruct O as [He Hp]. rewrite !elem_of_app in Hp.
  assert (sgood false M (cur σ) (claim_tok_ev ev ++ C) (timer_tok_ev ev ++ pending σ ++ T)) as G'.
  { destruct G as [G _ _ _ _ _ _].
    by rewrite (assoc_L (++)), (comm (++) (timer_tok_ev ev)), <- (assoc_L (++)). }
  pose proof (Reduce_lifecycle _ _ _ _ _ _ (cfg σ) now id G') as Hstep.
  pose proof (Reduce_arms (cur σ) ev (cfg σ) now id) as Harm.
  rewrite HR, Hq in *. simpl in *. split.
  - assert (lifecycle s' id = CS_RetryQueued) as Hq'.
    { inversion Hstep; subst; try done; exfalso; apply Hp; right; left; left. }
    unfold lifecycle, lifecycle_of in Hq'. simpl in *.
    destruct (Running s' !! id); [done|]. by destruct (RetryAttempts s' !! id), (bool_decide _).
  - change (pending (publish (σ <| cur := s' |>))) with (pending σ).
    rewrite !elem_of_app. intros [?|[H|?]]; [by auto| |by auto].
    apply Harm in H as [?|[H|?]]; [by auto| |done].
    apply Hc, (g_C _ _ _ _ _ G'). by apply elem_of_app; left.
Qed.

Lemma elem_of_pending_armTimer σ id' ident a d (x : string) :
  x ∈ pending (armTimer σ id' ident a d) -> x = id' \/ x ∈ pending σ.
Proof.
  unfold armTimer. set (σ1 := match timers σ !! id' with Some _ => _ | None => _ end).
  assert (armed σ1 ⊆ armed σ /\ retryFire σ1 = retryFire σ) as [Ha Hr].
  { unfold σ1. destruct (timers σ !! id'); simpl; split; try done. apply delete_subseteq. }
  unfold pending. simpl. rewrite !elem_of_app, Hr. intros [H|?]; [|by auto].
  apply list_elem_of_fmap in H as (req & -> & H).
  apply list_elem_of_fmap in H as ([tid req'] & -> & H%elem_of_map_to_list).
  apply lookup_insert_Some in H as [[_ <-]|[_ H]]; [by left|right; left].
  eapply (lookup_weaken _ _ _ _ H) in Ha. apply list_elem_of_fmap. exists req'.
  split; [done|]. apply list_elem_of_fmap. exists (tid, req').
  by rewrite elem_of_map_to_list.
Qed.

Lemma orphan_loop_inv :
  loop_inv M (allowed false) (λ σ C T, good false M σ C T /\ orphan id σ T).
Proof.
  pose proof (@good_loop_inv Worker false M) as HL. split.
  - intros σ C T ev now s' effs Hok HC [G O] HR.
    destruct (I_reduce _ _ _ HL _ _ _ _ _ _ _ Hok HC G HR) as [G' Hf].
    split; [split; [done|]|done]. by eapply orphan_reduce.
  - intros σ C T id' ident a d [G O]. split; [by apply armTimer_good|].
    destruct O as [He Hp]. split; [unfold armTimer; by destruct (timers σ !! id')|].
    rewrite elem_of_app in *. intros [H|?]; [|set_solver].
    apply (elem_of_pending_armTimer _ _ ident a d) in H. set_solver.
  - intros σ C T [G _]. by apply (I_limits _ _ _ HL) in G.
  - intros σ σ' C T Hs ? ? [G O]. split; [by eapply (I_frame _ _ _ HL)|].
    destruct Hs as (E1&_&E3&_&E5&_). unfold orphan, pending in *. by rewrite E1, E3, E5.
  - intros σ C T id' [G O]. split; [by apply good_delete_timers|done].
  - intros σ req reqs E [G O]. split; [by apply good_receive|].
    destruct O as [He Hp]. split; [done|]. unfold pending in *. rewrite E in Hp. simpl in *.
    set_solver.
  - intros σ tid req E [G O]. split; [by apply good_fire|].
    destruct O as [He Hp]. split; [done|]. unfold pending in *. simpl in *.
    rewrite <- (map_to_list_delete _ _ _ E) in Hp. simpl in Hp. set_solver.
  - intros σ id' e due He [G O]. split; [by apply (I_postpone _ _ _ HL)|].
    destruct O as [He' Hp]. split; [|done]. simpl. by apply lookup_insert_is_Some'; right.
Qed.
End orphan.

(** * orchestrator/scheduler: workflow reload

    The loop never runs on a configuration that failed its checks, and while
    the workflow file is invalid it reconciles but claims nothing. *)

Open Scope Z_scope.

(** ** Fields the effect recursion leaves alone *)

Definition shell_eq {Worker} (σ σ' : Scheduler Worker) : Prop :=
  cfg σ' = cfg σ /\ lastGood σ' = lastGood σ /\ lastGoodTemplate σ' = lastGoodTemplate σ /\
  degraded σ' = degraded σ /\ interval σ' = interval σ /\ available σ' = available σ /\
  reloadCh σ' = reloadCh σ.

#[export] Instance shell_eq_PreOrder {Worker} : PreOrder (@shell_eq Worker).
Proof.
  split; [done|]. intros σ1 σ2 σ3 (?&?&?&?&?&?&?) (?&?&?&?&?&?&?).
  unfold shell_eq. split_and!; congruence.
Qed.

Section frame.
Context {W Worker : Type} (deps : Deps W Worker).

Lemma armTimer_shell (σ : Scheduler Worker) id ident a d : shell_eq σ (armTimer σ id ident a d).
Proof. unfold armTimer. by destruct (timers σ !! id). Qed.

Lemma cancelTimer_shell (σ : Scheduler Worker) id : shell_eq σ (cancelTimer σ id).
Proof. unfold cancelTimer. by destruct (timers σ !! id). Qed.

Lemma exec_shell k (c c' : Scheduler Worker * W) eff :
  (∀ c c' ev, k c ev = Some c' -> shell_eq c.1 c'.1) ->
  exec deps k c eff = Some c' -> shell_eq c.1 c'.1.
Proof.
  intros Hk. destruct c as [σ w], eff; simpl;
    unfold execFetchCandidates, execRefreshTracker, execRevalidate, execRetryFetch,
      execSpawn, execKillWorker, execRemoveWorkspace.
  all: try (intros [= <-]; apply armTimer_shell || apply cancelTimer_shell).
  all: repeat case_match; intros E; try (by apply Hk in E); by simplify_eq.
Qed.

Lemma execAll_shell k effs : forall c c' : Scheduler Worker * W,
  (∀ c c' ev, k c ev = Some c' -> shell_eq c.1 c'.1) ->
  execAll deps k c effs = Some c' -> shell_eq c.1 c'.1.
Proof.
  induction effs as [|eff effs IH]; simpl; intros c c' Hk E; [by simplify_eq|].
  destruct (exec deps k c eff) as [c1|] eqn:E1; [|done].
  etrans; [by eapply exec_shell|]. by eapply IH.
Qed.

Lemma stepN_shell fuel : forall (c c' : Scheduler Worker * W) ev,
  stepN deps fuel c ev = Some c' -> shell_eq c.1 c'.1.
Proof.
  induction fuel as [|fuel IH]; intros [σ w] c' ev; [done|]. simpl.
  destruct (Deps_Now deps w) as [w1 now]. destruct (Reduce _ _ _ _) as [s' effs].
  intros E. apply execAll_shell in E; [done|exact IH].
Qed.

Lemma step_shell c c' ev : step deps c ev = Some c' -> shell_eq c.1 c'.1.
Proof. apply stepN_shell. Qed.
End frame.

(** ** Every configuration in use passed its checks *)

Definition checked {Worker} (P : LoadedWorkflow -> Prop) (σ : Scheduler Worker) : Prop :=
  P (mkLoadedWorkflow (lastGood σ) (lastGoodTemplate σ)) /\ cfg σ = lastGood σ /\ available σ = true.

(** [P] is any property of the workflows that load and pass. *)
Section checked.
Context {W Worker : Type} (deps : Deps W Worker) (P : LoadedWorkflow -> Prop).
Hypothesis loads : forall w w' wf, Deps_LoadWorkflow deps w = (w', inl wf) ->
  Preflight (Loaded_Config wf) = None -> P wf.
Implicit Types (c : Scheduler Worker * W) (σ : Scheduler Worker).

Lemma checked_shell σ σ' : shell_eq σ σ' -> checked P σ -> checked P σ'.
Proof. unfold checked. intros (->&->&->&_&_&->&_). done. Qed.

Lemma reloadConfig_checked σ w σ' w' cf v :
  reloadConfig deps (σ, w) = ((σ', w'), (cf, v)) -> checked P σ ->
  (v = false -> checked P σ') /\ checked P (σ' <| cfg := cf |>).
Proof.
  unfold reloadConfig, markDegraded, checked.
  destruct (Deps_LoadWorkflow deps w) as [w1 [[c t]|err]] eqn:El;
    [destruct (Preflight _) eqn:E; [|pose proof (loads _ _ _ El E)]|];
    intros [= <- <- <- <-] (Hc & Hl & Ha); destruct (degraded σ); simpl; by split_and!.
Qed.

(** What a reload leaves: the workflow it read if that one passes, else the
    one before. *)
Definition reloaded σ (loaded : LoadedWorkflow + error) : LoadedWorkflow :=
  match loaded with
  | inl wf =>
    match Preflight (Loaded_Config wf) with
    | None => wf
    | Some _ => mkLoadedWorkflow (lastGood σ) (lastGoodTemplate σ)
    end
  | inr _ => mkLoadedWorkflow (lastGood σ) (lastGoodTemplate σ)
  end.

Lemma tick_reloaded σ w c' : tick deps (σ, w) = Some c' ->
  let wf := reloaded σ (Deps_LoadWorkflow deps w).2 in
  cfg c'.1 = Loaded_Config wf /\ lastGood c'.1 = Loaded_Config wf /\
  lastGoodTemplate c'.1 = Loaded_Template wf.
Proof.
  unfold tick, reloadConfig, markDegraded, reloaded.
  destruct (Deps_LoadWorkflow deps w) as [w1 [wf|err]]; cbn [snd];
    [destruct (Preflight _)|]; destruct (degraded σ);
    intros (->&->&->&_)%step_shell; done.
Qed.

Lemma tick_checked c c' : checked P c.1 -> tick deps c = Some c' -> checked P c'.1.
Proof.
  destruct c as [σ w]. intros H. change (checked P σ) in H. unfold tick.
  destruct (reloadConfig deps (σ, w)) as [[σ1 w1] [c1 v]] eqn:E.
  destruct (reloadConfig_checked _ _ _ _ _ _ E H) as [_ H'].
  intros Hs%step_shell. by eapply checked_shell.
Qed.

Lemma handleRetryFire_checked c req c' :
  checked P c.1 -> handleRetryFire deps c req = Some c' -> checked P c'.1.
Proof.
  destruct c as [σ w]. intros H. change (checked P σ) in H. unfold handleRetryFire. cbv zeta.
  destruct (reloadConfig deps _) as [[σ1 w1] [c1 v]] eqn:E.
  destruct (reloadConfig_checked _ _ _ _ _ _ E H) as [H1 H2].
  destruct v; cbn [negb].
  - intros Hs%step_shell. by eapply checked_shell.
  - specialize (H1 eq_refl). assert (∀ σ2 (w2 : W), shell_eq σ1 σ2 ->
      Some (armTimer σ2 (Req_IssueID req) (Req_Identifier req) (Req_Attempt req)
        continuationDelay, w2) = Some c' -> checked P c'.1) as Harm.
    { intros σ2 w2 Hs [= <-]. eapply checked_shell; [|exact H1].
      etrans; [exact Hs|]. apply armTimer_shell. }
    destruct (RetryAttempts (cur σ1) !! Req_IssueID req); [|by apply Harm].
    destruct (Deps_Now deps w1) as [w2 now]. by apply Harm.
Qed.

Lemma handleWorkerDone_checked c id err a c' :
  checked P c.1 -> handleWorkerDone deps c id err a = Some c' -> checked P c'.1.
Proof.
  destruct c as [σ w]. intros H. change (checked P σ) in H. unfold handleWorkerDone.
  destruct (reloadConfig deps _) as [[σ1 w1] [c1 v]] eqn:E.
  destruct (reloadConfig_checked _ _ _ _ _ _ E H) as [_ H'].
  intros Hs%step_shell. by eapply checked_shell.
Qed.

Lemma applyInterval_checked σ : checked P σ -> checked P (applyInterval σ).
Proof. unfold applyInterval. by case_match. Qed.

Lemma loop_step_checked c c' : loop_step deps c c' -> checked P c.1 -> checked P c'.1.
Proof.
  intros Hs H. destruct Hs as [σ w σ' w' Ht|σ w req reqs c' Hq Hh|c id err a c' Hh
    |c id ev m ts u rl td cm c' Hs|σ w σ' w' Hr Ht|σ w tid req Ha|σ w|σ w w'].
  - apply applyInterval_checked. by apply tick_checked in Ht.
  - by eapply handleRetryFire_checked; [|exact Hh].
  - by eapply handleWorkerDone_checked.
  - apply step_shell in Hs. by eapply checked_shell.
  - apply applyInterval_checked. by apply tick_checked in Ht.
  - done.
  - simpl in *. unfold Refresh. by case_match.
  - done.
Qed.

Lemma reachable_checked (c0 : Config) tmpl c :
  P (mkLoadedWorkflow c0 tmpl) -> reachable deps c0 tmpl c -> checked P c.1.
Proof.
  intros Hp. induction 1 as [w c Hs|c c' _ IH Hstep].
  - unfold startRun in Hs. by eapply tick_checked; [|exact Hs].
  - by eapply loop_step_checked.
Qed.
End checked.

(** ** Reconciliation claims nothing *)

Definition quiet_ev (ev : Event) : bool :=
  match ev with EvTick valid => negb valid | EvTrackerRefreshed _ _ => true | _ => false end.

Definition quiet_eff (eff : Effect) : bool :=
  match eff with
  | EffRefreshTracker _ | EffKillWorker _ _ | EffRemoveWorkspace _
  | EffArmRetryTimer _ _ _ _ => true
  | _ => false
  end.

(** A pass that only kills, retries and releases. *)
Definition quiet (s : State) (acc : State * list Effect) : Prop :=
  Claimed acc.1 ⊆ Claimed s /\ Forall (λ e, quiet_eff e = true) acc.2.

Lemma quiet_fold {A} s f (l : list A) acc :
  (∀ acc x, quiet s acc -> quiet s (f acc x)) -> quiet s acc -> quiet s (fold_left f l acc).
Proof. intros Hf. revert acc. induction l; simpl; auto. Qed.

Lemma quiet_reconcileKillRetry s0 s effs id a cause reason cfg now :
  quiet s0 (s, effs) -> quiet s0 (reconcileKillRetry s effs id a cause reason cfg now).
Proof.
  intros [Hc He]. unfold reconcileKillRetry, workerExitAbnormal.
  destruct (Running s !! id); [|done]. split; [done|]. simpl in *.
  rewrite !Forall_app. by repeat constructor.
Qed.

Lemma quiet_refreshStep s0 cfg now byID acc id :
  quiet s0 acc -> quiet s0 (refreshStep cfg now byID acc id).
Proof.
  destruct acc as [s effs]. intros Hq. unfold refreshStep.
  destruct (Running s !! id) eqn:E; [|done].
  destruct (byID !! id); [|by apply quiet_reconcileKillRetry].
  case_bool_decide; [|case_bool_decide; [|by apply quiet_reconcileKillRetry]].
  - destruct Hq as [Hc He]. split; cbn [fst snd] in *.
    + rewrite releaseClaim_Claimed. set_solver.
    + rewrite Forall_app. by repeat constructor.
  - unfold updateIssueSnapshot. by rewrite E.
Qed.

Lemma quiet_stallStep s0 cfg now threshold acc id :
  quiet s0 acc -> quiet s0 (stallStep cfg now threshold acc id).
Proof.
  destruct acc as [s effs]. intros [Hc He]. unfold stallStep, workerExitAbnormal.
  destruct (Running s !! id); [|done]. destruct (_ || _); [done|]. split; [done|]. simpl in *.
  rewrite !Forall_app. by repeat constructor.
Qed.

Lemma Reduce_quiet s ev cfg now : quiet_ev ev = true -> quiet s (Reduce s ev cfg now).
Proof.
  destruct ev; simpl; try done.
  - destruct ConfigValid; [done|]. intros _. unfold reduceTick.
    assert (quiet s (reduceStall s cfg now)) as Hq.
    { unfold reduceStall. case_match; [by split|].
      apply quiet_fold; [|by split]. intros. by apply quiet_stallStep. }
    destruct (reduceStall s cfg now) as [s1 effs]. destruct Hq as [Hc He]. split; [done|].
    simpl in *. case_match; [rewrite Forall_app; by repeat constructor|done].
  - intros _. apply quiet_fold; [|by split]. intros. by apply quiet_refreshStep.
Qed.

Section quiet.
Context {W Worker : Type} (deps : Deps W Worker).
Abbreviation shrinks k := (∀ (c c' : Scheduler Worker * W) ev,
  quiet_ev ev = true -> k c ev = Some c' -> Claimed (cur c'.1) ⊆ Claimed (cur c.1)).

Lemma execAll_quiet k effs : forall c c', shrinks k ->
  Forall (λ e, quiet_eff e = true) effs ->
  execAll deps k c effs = Some c' -> Claimed (cur c'.1) ⊆ Claimed (cur c.1).
Proof.
  induction effs as [|eff effs IH]; simpl; intros c c' Hk Hq E; [by simplify_eq|].
  inversion Hq as [|? ? Heff Hq']; subst.
  destruct (exec deps k c eff) as [c1|] eqn:E1; [|done]. etrans; [by eapply IH|].
  destruct c as [σ w], eff; simpl in *; try done.
  - unfold execRefreshTracker in E1. repeat case_match; simplify_eq/=; try done.
    by apply Hk in E1.
  - unfold execKillWorker in E1. by case_match; simplify_eq/=.
  - unfold execRemoveWorkspace in E1. by case_match; simplify_eq/=.
  - simplify_eq/=. unfold armTimer. by destruct (timers σ !! IssueID).
Qed.

Lemma stepN_quiet fuel : shrinks (stepN deps fuel).
Proof.
  induction fuel as [|fuel IH]; intros [σ w] c' ev Hq; [done|]. simpl.
  destruct (Deps_Now deps w) as [w1 now].
  pose proof (Reduce_quiet (cur σ) ev (cfg σ) now Hq) as HR.
  destruct (Reduce _ _ _ _) as [s' effs]. destruct HR as [Hc He].
  intros E. apply execAll_quiet in E; [|exact IH|exact He]. simpl in *. set_solver.
Qed.

(** The workflow on disk does not load or fails its checks. *)
Definition workflow_invalid (w : W) : Prop :=
  match (Deps_LoadWorkflow deps w).2 with
  | inl wf => Preflight (Loaded_Config wf) ≠ None
  | inr _ => True
  end.

Lemma reloadConfig_invalid σ w :
  workflow_invalid w ->
  ∃ w', reloadConfig deps (σ, w) = ((markDegraded σ, w'), (lastGood σ, false)).
Proof.
  unfold workflow_invalid, reloadConfig.
  destruct (Deps_LoadWorkflow deps w) as [w1 [wf|err]]; simpl; [|by eexists].
  destruct (Preflight (Loaded_Config wf)); [by eexists|done].
Qed.

Lemma tick_invalid σ w c' :
  workflow_invalid w -> tick deps (σ, w) = Some c' ->
  Claimed (cur c'.1) ⊆ Claimed (cur σ) /\ cfg c'.1 = lastGood σ /\
  lastGood c'.1 = lastGood σ /\ degraded c'.1 = true.
Proof.
  intros Hi E. unfold tick in E.
  destruct (reloadConfig_invalid σ w Hi) as [w' Er]. rewrite Er in E. clear Er.
  pose proof (step_shell _ _ _ _ E) as (Ec & El & _ & Ed & _).
  apply stepN_quiet in E; [|done]. unfold markDegraded in *. simpl in *.
  rewrite Ec, El, Ed. destruct (degraded σ) eqn:?; simpl in *; auto.
Qed.
End quiet.
