(* ===== verification/SchedDispatch.v ===== *)
(** * orchestrator/scheduler: the order and the limits of dispatch

    [candidate_less] is a strict weak order, so [sortCandidates] is a stable
    sort; [dispatchLoop] takes the sorted candidates greedily within the global
    and the per-state limits. *)

From S2P Require Import Prelude GoStd Metrics Tracker WfConfig SchedState SchedReduce SchedInv.
Open Scope Z_scope.

(** ** Candidate order *)

Lemma ltb_le x y : String.ltb x y = true <-> ¬ String.le y x.
Proof.
  unfold String.ltb, String.le, String.leb. rewrite (String.compare_antisym x y).
  destruct (String.compare y x); simpl; naive_solver.
Qed.

Lemma ltb_false_le x y : String.ltb x y = false <-> String.le y x.
Proof.
  rewrite <- not_true_iff_false, ltb_le. split; [|by intros ? []].
  intros H. destruct (decide (String.le y x)); [done|]. by destruct H.
Qed.

(** The sort key: candidates without a priority come last. *)
Definition prio_key (i : Issue) : Z * Z :=
  match Issue_Priority i with Some p => (0, p) | None => (1, 0) end.

Lemma candidate_less_false a b :
  candidate_less a b = false <->
  let '(n, p) := prio_key a in let '(m, q) := prio_key b in
  m < n \/ m = n /\ (q < p \/ q = p /\
    (Issue_CreatedAt b < Issue_CreatedAt a \/
     Issue_CreatedAt b = Issue_CreatedAt a /\
     String.le (Issue_Identifier b) (Issue_Identifier a))).
Proof.
  unfold candidate_less, prio_key, time.Equal, time.Before.
  destruct (Issue_Priority a) as [p|], (Issue_Priority b) as [q|]; rewrite <- ltb_false_le;
    try (case (Z.eqb_spec p q); intros; simpl); try (case Z.ltb_spec; intros);
    try (case Z.eqb_spec; intros; simpl); try (case Z.ltb_spec; intros); intuition (lia || congruence).
Qed.

#[export] Instance candidate_less_swo : sort.StrictWeakOrder candidate_less.
Proof.
  assert (∀ x, candidate_less x x = false) as Hirr.
  { intros x. rewrite candidate_less_false. destruct (prio_key x). auto 10. }
  assert (∀ x y, candidate_less x y = false \/ candidate_less y x = false) as Htot.
  { intros x y. rewrite !candidate_less_false. destruct (prio_key x), (prio_key y).
    destruct (total String.le (Issue_Identifier x) (Issue_Identifier y)); lia || idtac.
    all: destruct (Z.lt_total z z1) as [?|[->|?]]; [lia| |lia];
      destruct (Z.lt_total z0 z2) as [?|[->|?]]; [lia| |lia];
      destruct (Z.lt_total (Issue_CreatedAt x) (Issue_CreatedAt y)) as [?|[->|?]];
      [lia| |lia]; auto 10. }
  assert (∀ x y z, candidate_less x y = false -> candidate_less y z = false ->
    candidate_less x z = false) as Hinc.
  { intros x y z. rewrite !candidate_less_false.
    destruct (prio_key x), (prio_key y), (prio_key z).
    intros [?|[-> [?|[-> [?|[E1 ?]]]]]] [?|[-> [?|[-> [?|[E2 ?]]]]]]; try lia.
    do 2 (right; split; [done|]). rewrite E2, E1. right. split; [done|]. by etrans. }
  split; [done| |done].
  intros x y z Hxy Hyz. destruct (candidate_less x z) eqn:E; [done|].
  destruct (Htot y z) as [E'|E']; [congruence|].
  pose proof (Hinc x z y E E') as C. congruence.
Qed.

(** ** Counting issues by state *)

Definition in_state (norm : string) (iss : Issue) : bool :=
  String.eqb (strings.ToLower (Issue_State iss)) norm.

Definition countIn (norm : string) (l : list Issue) : Z :=
  Z.of_nat (length (List.filter (in_state norm) l)).

Lemma countIn_app norm l1 l2 : countIn norm (l1 ++ l2) = countIn norm l1 + countIn norm l2.
Proof. unfold countIn. rewrite List.filter_app, length_app. lia. Qed.

Lemma countIn_nonneg norm l : 0 <= countIn norm l.
Proof. unfold countIn. lia. Qed.

Lemma map_fold_countIn norm (m : gmap string RunAttempt) :
  default 0 (map_fold (λ _ run m,
      let k := strings.ToLower (Issue_State (Run_Issue run)) in
      <[k := default 0 (m !! k) + 1]> m) (∅ : gmap string Z) m !! norm)
  = Z.of_nat (length (List.filter (λ run,
      String.eqb (strings.ToLower (Issue_State (Run_Issue run))) norm) (map_to_list m).*2)).
Proof.
  rewrite map_fold_foldr. cbv zeta. induction (map_to_list m) as [|[id run] l IH]; simpl; [done|].
  rewrite lookup_insert. case (String.eqb_spec _ norm); intros E.
  - rewrite decide_True by done. simpl. rewrite E, IH. unfold fmap. lia.
  - rewrite decide_False by done. exact IH.
Qed.

(** The tally a dispatch pass starts from is [slots.go]'s count. *)
Lemma countByState_running s norm :
  default 0 (countByState s !! norm) = runningInState s norm.
Proof. apply map_fold_countIn. Qed.

(** ** The dispatch pass *)

Definition revalidate0 (iss : Issue) : Effect := EffRevalidate iss 0.

(** After the candidates [pre] have been considered, [ds] of them have been
    claimed. *)
Record dispatched (s : State) (cfg : Config) (pre ds : list Issue) (d : Dispatch) : Prop := {
  dd_effs : d_effs d = revalidate0 <$> ds;
  dd_sub : ds `sublist_of` pre;
  dd_avail : d_globalAvail d = availableGlobalSlots s cfg - Z.of_nat (length ds);
  dd_nonneg : 0 <= d_globalAvail d;
  dd_used norm : default 0 (d_perStateUsed d !! norm) = runningInState s norm + countIn norm ds;
  dd_cap norm : countIn norm ds <= Z.max 0 (stateCapacity cfg norm - runningInState s norm);
  dd_running : Running (d_state d) = Running s;
  dd_claimed id : id ∈ Claimed (d_state d) <-> id ∈ Claimed s \/ id ∈ Issue_ID <$> ds;
  dd_fresh : ∀ id, id ∈ Issue_ID <$> ds -> id ∉ Claimed s;
  dd_nodup : NoDup (Issue_ID <$> ds);
  dd_greedy : d_globalAvail d = 0 \/ ∀ iss, iss ∈ pre ->
    Issue_ID iss ∈ Claimed (d_state d) \/
    let norm := strings.ToLower (Issue_State iss) in
    stateCapacity cfg norm <= runningInState s norm + countIn norm ds;
}.

Section dispatch.
Context (s : State) (cfg : Config).

Lemma dispatched_skip pre ds d iss :
  dispatched s cfg pre ds d ->
  (d_globalAvail d = 0 \/ Issue_ID iss ∈ Claimed (d_state d) \/
   let norm := strings.ToLower (Issue_State iss) in
   stateCapacity cfg norm <= default 0 (d_perStateUsed d !! norm)) ->
  dispatched s cfg (pre ++ [iss]) ds d.
Proof.
  intros [] Hskip. split; try done.
  - by apply sublist_inserts_r.
  - destruct dd_greedy0 as [?|Hg]; [by left|]. destruct Hskip as [?|Hskip]; [by left|right].
    intros i [Hi|Hi%list_elem_of_singleton]%elem_of_app; [by apply Hg|subst i].
    simpl in *. by rewrite dd_used0 in Hskip.
Qed.

Lemma dispatched_skip_all pre ds d l :
  dispatched s cfg pre ds d -> d_globalAvail d = 0 -> dispatched s cfg (pre ++ l) ds d.
Proof.
  revert pre. induction l as [|iss l IH]; intros pre D H0; [by rewrite app_nil_r|].
  rewrite cons_middle, (assoc_L (++)). apply IH; [|done]. apply dispatched_skip; auto.
Qed.

Lemma countIn_singleton norm iss :
  countIn norm [iss] = if decide (strings.ToLower (Issue_State iss) = norm) then 1 else 0.
Proof.
  unfold countIn, in_state. simpl. case (String.eqb_spec _ norm); case_decide; done.
Qed.

Lemma dispatched_take pre ds d iss s' :
  dispatched s cfg pre ds d -> 0 < d_globalAvail d ->
  let norm := strings.ToLower (Issue_State iss) in
  let used := default 0 (d_perStateUsed d !! norm) in
  used < stateCapacity cfg norm -> claim (d_state d) iss = (s', None) ->
  dispatched s cfg (pre ++ [iss]) (ds ++ [iss])
    (mkDispatch s' (d_globalAvail d - 1) (<[norm := used + 1]> (d_perStateUsed d))
       (d_effs d ++ [EffRevalidate iss 0])).
Proof.
  intros [] Hav norm used Hcap Hc. unfold claim in Hc. case_decide as Hcl; [done|].
  destruct (Running (d_state d) !! _) eqn:Er; [done|]. injection Hc as <-.
  assert (Issue_ID iss ∉ Claimed s /\ Issue_ID iss ∉ Issue_ID <$> ds) as [Hn1 Hn2].
  { split; intros H; apply Hcl, dd_claimed0; auto. }
  assert (used = runningInState s norm + countIn norm ds) as Hused by apply dd_used0.
  split; simpl.
  - by rewrite dd_effs0, fmap_app.
  - by apply sublist_app.
  - rewrite length_app. simpl. lia.
  - lia.
  - intros n. rewrite countIn_app, countIn_singleton, lookup_insert. fold norm.
    case_decide as En; simpl; [rewrite <- En; lia|]. rewrite dd_used0. lia.
  - intros n. rewrite countIn_app, countIn_singleton. fold norm. specialize (dd_cap0 n).
    case_decide as En; [subst n; lia|lia].
  - done.
  - intros id. rewrite fmap_app. simpl. specialize (dd_claimed0 id). set_solver.
  - intros id. rewrite fmap_app. simpl. specialize (dd_fresh0 id). set_solver.
  - rewrite fmap_app. apply NoDup_app. split; [done|]. split; [set_solver|apply NoDup_singleton].
  - destruct dd_greedy0 as [?|Hg]; [lia|]. right.
    intros i [Hi|Hi%list_elem_of_singleton]%elem_of_app; [|subst i; left; set_solver].
    destruct (Hg i Hi) as [?|?]; [left; set_solver|right].
    rewrite countIn_app. pose proof (countIn_nonneg (strings.ToLower (Issue_State i)) [iss]).
    simpl in *. lia.
Qed.

Lemma dispatchLoop_dispatched l : forall pre ds d,
  dispatched s cfg pre ds d -> (∀ iss, iss ∈ l -> Running s !! Issue_ID iss = None) ->
  ∃ ds', dispatched s cfg (pre ++ l) ds' (dispatchLoop cfg d l).
Proof.
  induction l as [|iss l IH]; simpl; intros pre ds d D Hl.
  { exists ds. by rewrite app_nil_r. }
  assert (∀ i, i ∈ l -> Running s !! Issue_ID i = None) as Hl' by (intros; apply Hl; by right).
  pose proof (dd_nonneg _ _ _ _ _ D).
  case Z.leb_spec; intros Hav; [exists ds; apply dispatched_skip_all; [done|lia]|].
  rewrite cons_middle, (assoc_L (++)).
  case Z.leb_spec; intros Hcap; [eapply IH; [apply dispatched_skip; eauto|done]|].
  destruct (claim (d_state d) iss) as [s' [err|]] eqn:Ec.
  - eapply IH; [apply dispatched_skip; [exact D|]|done]. right. left.
    unfold claim in Ec. case_decide; [done|].
    rewrite (dd_running _ _ _ _ _ D), Hl in Ec by left. done.
  - eapply IH; [|done]. by apply dispatched_take.
Qed.

Lemma availableGlobalSlots_nonneg : 0 <= availableGlobalSlots s cfg.
Proof. unfold availableGlobalSlots. case Z.ltb_spec; lia. Qed.

Lemma dispatched_start :
  dispatched s cfg [] [] (mkDispatch s (availableGlobalSlots s cfg) (countByState s) []).
Proof.
  split; simpl; try done; try apply NoDup_nil_2; try (intros; set_solver).
  - lia.
  - apply availableGlobalSlots_nonneg.
  - intros. rewrite countByState_running. unfold countIn. simpl. lia.
  - intros. unfold countIn. simpl. lia.
Qed.

Lemma reduceCandidates_dispatched cands :
  ∃ d ds, reduceCandidates s cands cfg = (d_state d, d_effs d) /\
    dispatched s cfg (sortCandidates (filterEligible cands s cfg)) ds d.
Proof.
  destruct (dispatchLoop_dispatched (sortCandidates (filterEligible cands s cfg)) [] []
    _ dispatched_start) as [ds D].
  - intros iss [_ Hi]%elem_of_eligibles. by apply eligible_spec in Hi as (_&_&_&_&_&_&?&_).
  - by eexists _, ds.
Qed.
End dispatch.

(** * orchestrator/scheduler: token and runtime totals

    A snapshot reports the totals of finished issues plus those of the issues
    still claimed.  Only codex activity changes what it reports: releasing a
    claim moves the issue's share into the finished totals. *)

Open Scope Z_scope.

Definition snapTotals (s : State) : Totals := Snap_CodexTotals (Snapshot s).
Definition snapRuntime (s : State) : Duration := Snap_CodexRunning (Snapshot s).

Definition add64 (a b : Z) : Z := (a + b)%i64.

Lemma add64_comm a b : add64 a b = add64 b a.
Proof. unfold add64. f_equal. lia. Qed.

Lemma add64_assoc a b c : add64 a (add64 b c) = add64 (add64 a b) c.
Proof. unfold add64. rewrite wrap64_wrap_add_l, wrap64_wrap_add_r. f_equal. lia. Qed.

Lemma snapTotals_sum s : snapTotals s = map_sum addTotals AccTotals (CodexTotals s) (St_Usage s).
Proof. done. Qed.

Lemma snapRuntime_sum s : snapRuntime s = map_sum add64 Datatypes.id (CodexRuntime s) (Runtime s).
Proof. done. Qed.

(** ** Conservation *)

Definition conserves (s s' : State) : Prop :=
  snapTotals s' = snapTotals s /\ snapRuntime s' = snapRuntime s.

#[export] Instance conserves_PreOrder : PreOrder conserves.
Proof.
  split; [done|]. intros s1 s2 s3 [E1 E2] [E3 E4]. split; congruence.
Qed.

Lemma conserves_frame s s' :
  St_Usage s' = St_Usage s -> CodexTotals s' = CodexTotals s ->
  Runtime s' = Runtime s -> CodexRuntime s' = CodexRuntime s -> conserves s s'.
Proof.
  intros E1 E2 E3 E4. split.
  - by rewrite !snapTotals_sum, E1, E2.
  - by rewrite !snapRuntime_sum, E3, E4.
Qed.

Lemma conserves_releaseClaim s id : conserves s (releaseClaim s id).
Proof.
  unfold conserves. rewrite !snapTotals_sum, !snapRuntime_sum.
  rewrite releaseClaim_Usage, releaseClaim_Runtime. unfold releaseClaim.
  destruct (St_Usage s !! id) as [acc|] eqn:Eu; simpl;
    destruct (Runtime s !! id) as [d|] eqn:Er; simpl; split;
    rewrite ?(delete_id (St_Usage s)), ?(delete_id (Runtime s)) by done; try done.
  all: first
    [ apply (map_sum_flush addTotals); auto using addTotals_comm, addTotals_assoc
    | apply (map_sum_flush add64 Datatypes.id add64_comm add64_assoc _ _ _ _ Er) ].
Qed.

Lemma conserves_fold {A} (f : State * list Effect -> A -> State * list Effect) l acc :
  (∀ acc x, conserves acc.1 (f acc x).1) -> conserves acc.1 (fold_left f l acc).1.
Proof.
  intros Hf. revert acc. induction l as [|x l IH]; simpl; intros acc; [done|].
  by etrans; [apply (Hf acc x)|].
Qed.

Lemma conserves_armRetry s e delay now : conserves s (armRetry s e delay now).1.
Proof. by apply conserves_frame. Qed.

Lemma conserves_reconcileKillRetry s effs id a cause reason cfg now :
  conserves s (reconcileKillRetry s effs id a cause reason cfg now).1.
Proof.
  unfold reconcileKillRetry, workerExitAbnormal. destruct (Running s !! id); [|done].
  by apply conserves_frame.
Qed.

Lemma conserves_stallStep cfg now threshold acc id :
  conserves acc.1 (stallStep cfg now threshold acc id).1.
Proof.
  destruct acc as [s effs]. unfold stallStep, workerExitAbnormal.
  destruct (Running s !! id); [|done]. destruct (_ || _); [done|]. by apply conserves_frame.
Qed.

Lemma conserves_refreshStep cfg now byID acc id :
  conserves acc.1 (refreshStep cfg now byID acc id).1.
Proof.
  destruct acc as [s effs]. unfold refreshStep. destruct (Running s !! id) eqn:E; [|done].
  destruct (byID !! id); [|apply conserves_reconcileKillRetry].
  case_bool_decide; [apply conserves_releaseClaim|].
  case_bool_decide; [|apply conserves_reconcileKillRetry].
  simpl. unfold updateIssueSnapshot. rewrite E. by apply conserves_frame.
Qed.

Lemma conserves_claim s iss : conserves s (claim s iss).1.
Proof. unfold claim. repeat case_match; by apply conserves_frame. Qed.

Lemma conserves_dispatchLoop cfg l : forall d,
  conserves (d_state d) (d_state (dispatchLoop cfg d l)).
Proof.
  induction l as [|iss l IH]; simpl; intros d; [done|].
  case_match; [done|]. case_match; [apply IH|].
  pose proof (conserves_claim (d_state d) iss) as Hc.
  destruct (claim (d_state d) iss) as [s' [err|]]; [apply IH|].
  etrans; [exact Hc|]. apply (IH (mkDispatch s' _ _ _)).
Qed.

(** Events other than codex activity move totals but never change them. *)
Lemma Reduce_conserves s ev cfg now :
  match ev with EvCodexActivity _ _ _ _ _ _ _ _ => True
  | _ => conserves s (Reduce s ev cfg now).1 end.
Proof.
  destruct ev; simpl; try done.
  - unfold reduceTick. assert (conserves s (reduceStall s cfg now).1) as H.
    { unfold reduceStall. case_match; [done|].
      apply (conserves_fold _ _ (s, [])). intros. apply conserves_stallStep. }
    by destruct (reduceStall s cfg now).
  - apply (conserves_dispatchLoop cfg _ (mkDispatch s _ _ _)).
  - apply (conserves_fold _ _ (s, [])). intros. apply conserves_refreshStep.
  - unfold reduceRevalidated. destruct Fresh; [destruct (_ || _)|];
      first [apply conserves_releaseClaim|done].
  - unfold reduceRetryResolved, claimFromRetry.
    repeat case_match; simplify_eq/=; auto using conserves_releaseClaim; try done;
      by apply conserves_frame.
  - etrans; [apply conserves_releaseClaim|]. by apply conserves_frame.
  - unfold reduceWorkerExit, workerExitNormal, workerExitAbnormal.
    repeat case_match; simplify_eq/=; try done; by apply conserves_frame.
Qed.

(** ** Activity *)

Lemma snapTotals_recordUsage s id u :
  snapTotals (recordUsage s id u) =
  match Running s !! id with
  | Some _ => addTotals (snapTotals s)
                (usageDelta (default NewAccumulator (St_Usage s !! id)) u)
  | None => snapTotals s
  end.
Proof.
  unfold recordUsage. destruct (Running s !! id); [|done]. rewrite !snapTotals_sum. simpl.
  destruct (St_Usage s !! id) as [acc|] eqn:E; simpl.
  - eapply map_sum_insert_grow;
      [apply addTotals_comm|apply addTotals_assoc|exact E|apply Observe_delta].
  - rewrite map_sum_insert_new; [|apply addTotals_comm|apply addTotals_assoc|done].
    by rewrite Observe_new_delta.
Qed.

Lemma snapTotals_reduceCodexActivity s id event message ts u rl td completed :
  snapTotals (reduceCodexActivity s id event message ts u rl td completed) =
  match u, Running s !! id with
  | Some u, Some _ => addTotals (snapTotals s)
                        (usageDelta (default NewAccumulator (St_Usage s !! id)) u)
  | _, _ => snapTotals s
  end.
Proof.
  unfold reduceCodexActivity, incrementTurnCount, recordRateLimit, addRuntime, updateCodexActivity.
  set (s1 := match Running s !! id with Some _ => _ | None => _ end).
  set (s2 := match u with Some u => recordUsage s1 id u | None => s1 end).
  transitivity (snapTotals s2).
  { rewrite !snapTotals_sum. repeat case_match; done. }
  assert (St_Usage s1 = St_Usage s /\ snapTotals s1 = snapTotals s /\
    is_some (Running s1 !! id) = is_some (Running s !! id)) as (E1 & E2 & E3).
  { unfold s1. destruct (Running s !! id) eqn:Er; [|by rewrite Er]. simpl.
    rewrite lookup_insert_eq. done. }
  unfold s2. destruct u as [u|]; [|done]. rewrite snapTotals_recordUsage, E1, E2.
  by destruct (Running s1 !! id), (Running s !! id).
Qed.

(** Updates of a running attempt that leave the runtime accounts alone. *)
Definition same_runtime (id : string) (s s' : State) : Prop :=
  Runtime s' = Runtime s /\ CodexRuntime s' = CodexRuntime s /\
  is_some (Running s' !! id) = is_some (Running s !! id).

#[export] Instance same_runtime_PreOrder id : PreOrder (same_runtime id).
Proof.
  split; [done|]. intros s1 s2 s3 (?&?&?) (?&?&?). split_and!; congruence.
Qed.

Ltac solve_same_runtime :=
  match goal with |- same_runtime ?id ?s (?f _ _) => unfold f | |- same_runtime ?id ?s (?f _ _ _) => unfold f
  | |- same_runtime ?id ?s (?f _ _ _ _ _) => unfold f end;
  match goal with |- context [Running ?s !! ?id] =>
    let E := fresh "E" in destruct (Running s !! id) eqn:E; [|done];
    unfold same_runtime; simpl; by rewrite lookup_insert_eq, E
  end.

Lemma same_runtime_updateCodexActivity s id event message ts :
  same_runtime id s (updateCodexActivity s id event message ts).
Proof. solve_same_runtime. Qed.

Lemma same_runtime_recordUsage s id u : same_runtime id s (recordUsage s id u).
Proof. solve_same_runtime. Qed.

Lemma same_runtime_recordRateLimit s id rl : same_runtime id s (recordRateLimit s id rl).
Proof. solve_same_runtime. Qed.

Lemma snapRuntime_reduceCodexActivity s id event message ts u rl td completed :
  snapRuntime (reduceCodexActivity s id event message ts u rl td completed) =
  match td, Running s !! id with
  | Some d, Some _ => if d <=? 0 then snapRuntime s
                      else if is_some (Runtime s !! id) then (snapRuntime s + d)%i64
                      else (snapRuntime s + (0 + d)%i64)%i64
  | _, _ => snapRuntime s
  end.
Proof.
  unfold reduceCodexActivity.
  set (s1 := updateCodexActivity s id event message ts).
  set (s2 := match u with Some u => recordUsage s1 id u | None => s1 end).
  set (s3 := match rl with Some rl => recordRateLimit s2 id rl | None => s2 end).
  assert (same_runtime id s s3) as (E1 & E2 & E3).
  { transitivity s1; [apply same_runtime_updateCodexActivity|].
    transitivity s2; [unfold s2|unfold s3].
    - destruct u; [apply same_runtime_recordUsage|done].
    - destruct rl; [apply same_runtime_recordRateLimit|done]. }
  transitivity (snapRuntime (match td with Some d => addRuntime s3 id d | None => s3 end)).
  { unfold incrementTurnCount. rewrite !snapRuntime_sum. repeat case_match; done. }
  assert (snapRuntime s3 = snapRuntime s) as E by (by rewrite !snapRuntime_sum, E1, E2).
  destruct td as [d|]; [|done]. unfold addRuntime.
  destruct (Running s3 !! id), (Running s !! id); try done.
  case_match; [done|]. rewrite <- E, !snapRuntime_sum. simpl. rewrite <- E1.
  destruct (Runtime s3 !! id) as [rt|] eqn:Er; simpl.
  - by apply (map_sum_insert_grow add64 Datatypes.id add64_comm add64_assoc _ _ _ _ d _ Er).
  - apply (map_sum_insert_new add64 Datatypes.id add64_comm add64_assoc _ _ _ _ Er).
Qed.
