(* ===== verification/SchedProps.v ===== *)
(** * orchestrator/scheduler: the correctness properties

    Stated for every configuration a running scheduler reaches, then for the
    reducer's single events.  The concrete environment below instantiates the
    interfaces the shell is given. *)

From S2P Require Import Prelude GoStd Metrics Tracker WfConfig SchedState SchedReduce SchedShell SchedInv SchedLifecycle SchedDispatch SchedShellInv SchedOrphan.
Open Scope Z_scope.

(** ** Arithmetic of slots and delays *)

Lemma runningInState_bound s norm : 0 <= runningInState s norm <= Z.of_nat (size (Running s)).
Proof.
  unfold runningInState. rewrite <- length_map_to_list, <- (length_fmap snd (map_to_list _)).
  pose proof (List.filter_length_le (λ run,
    String.eqb (strings.ToLower (Issue_State (Run_Issue run))) norm) (map_to_list (Running s)).*2).
  lia.
Qed.

Lemma availablePerStateSlots_pos state s cfg :
  Z.abs (stateCapacity cfg (strings.ToLower state)) < 2 ^ 62 ->
  Z.of_nat (size (Running s)) <= 2 ^ 62 ->
  0 < availablePerStateSlots state s cfg ->
  runningInState s (strings.ToLower state) < stateCapacity cfg (strings.ToLower state).
Proof.
  intros Hc Hr. pose proof (runningInState_bound s (strings.ToLower state)).
  unfold availablePerStateSlots. rewrite wrap64_id
    by (unfold in_int64, int64_min, int64_max; lia).
  case Z.ltb_spec; lia.
Qed.

Lemma findIssue_elem issues id iss : findIssue issues id = Some iss -> iss ∈ issues.
Proof.
  induction issues as [|i l IH]; simpl; [done|].
  case String.eqb; [intros [= ->]; left|intros ?; right; auto].
Qed.

Lemma backoffDelay_unfold attempt cfg :
  in_int64 attempt ->
  backoffDelay attempt cfg =
  let ms := wrap64 (10000 * shl64 1 (Z.min (Z.max 1 attempt - 1) 62)) in
  let maxMS := MaxRetryBackoffMS (Config_Agent cfg) in
  wrap64 ((if (0 <? maxMS) && (maxMS <? ms) then maxMS else ms) * time.Millisecond).
Proof.
  intros Hi. unfold backoffDelay, in_int64, int64_min, int64_max in *.
  assert ((if attempt <? 1 then 1 else attempt) = Z.max 1 attempt) as ->
    by (case Z.ltb_spec; lia).
  rewrite (wrap64_id (Z.max 1 attempt - 1)) by (unfold in_int64, int64_min, int64_max; lia).
  assert ((if 62 <? Z.max 1 attempt - 1 then 62 else Z.max 1 attempt - 1)
    = Z.min (Z.max 1 attempt - 1) 62) as -> by (case Z.ltb_spec; lia).
  done.
Qed.

Lemma shl64_small e : 0 <= e <= 62 -> shl64 1 e = 2 ^ e.
Proof.
  intros He. unfold shl64. rewrite Z.shiftl_1_l. apply wrap64_id.
  pose proof (Z.pow_pos_nonneg 2 e). pose proof (Z.pow_le_mono_r 2 e 62).
  unfold in_int64, int64_min, int64_max. lia.
Qed.

(** ** A concrete environment

    The world is the time in nanoseconds; the tracker lists two issues of a
    project with one slot, and spawning succeeds or always fails. *)

Definition exampleIssue (id : string) (prio : option Z) : Issue :=
  mkIssue id id "a title" "" prio "Todo" "" "" [] [] (mkProject "" "") 0 0.

Definition exampleConfig : Config := zeroConfig
  <| Config_Tracker := mkTrackerConfig "linear" "" "key" ["p"] ["Todo"; "In Progress"] ["Done"] |>
  <| Config_Agent := mkAgentConfig 1 ∅ 20 300000 |>
  <| Config_Codex := mkCodexConfig "codex" 1000 1000 60000 "" "" "" |>.

Definition exampleDeps (spawn_ok : bool) : Deps Z unit := {|
  Deps_Tracker := Some (λ w, (w, ([exampleIssue "A" (Some 2); exampleIssue "B" (Some 1)], None)));
  Deps_Spawn := Some (λ w i a,
    (w, if spawn_ok then inl (mkLiveSession "s" "t" "u" w, Some tt) else inr "no workspace"%string));
  Deps_RefreshTracker := None;
  Deps_Workspace := None;
  Deps_Now := λ w, (w + 1000, w);
  Deps_Kill := λ w _ _, w;
  Deps_LoadWorkflow := λ w, (w, inl (mkLoadedWorkflow exampleConfig "prompt"));
|}.

Definition exampleStart (spawn_ok : bool) : Scheduler unit * Z :=
  default (New exampleConfig "prompt", 0)
    (startRun (exampleDeps spawn_ok) (New exampleConfig "prompt", 5)).

Lemma exampleStart_reachable spawn_ok :
  reachable (exampleDeps spawn_ok) exampleConfig "prompt" (exampleStart spawn_ok).
Proof. apply (R_start _ _ _ 5). destruct spawn_ok; vm_compute; reflexivity. Qed.

Lemma exampleDeps_ok spawn_ok : env_ok (exampleDeps spawn_ok) 1.
Proof. split; simpl; [eauto..|]. intros w wf [= <-]. split; vm_compute; [done|done]. Qed.

Lemma exampleConfig_ok : limit_ok 1 exampleConfig.
Proof. split; vm_compute; done. Qed.

(** ** The running scheduler *)

(** C35: every handler of the loop returns: the synchronous recursion of effects
    and events is never deeper than the four levels [stepFuel] allows, for any
    environment and any state. *)
Theorem handlers_terminate {W Worker} (deps : Deps W Worker) (c : Scheduler Worker * W) :
  is_Some (tick deps c) /\ is_Some (startRun deps c) /\
  (∀ req, is_Some (handleRetryFire deps c req)) /\
  (∀ id err attempt, is_Some (handleWorkerDone deps c id err attempt)) /\
  (∀ ev, is_Some (step deps c ev)).
Proof.
  assert (∀ c, is_Some (tick deps c)) as Ht.
  { intros [σ w]. unfold tick. destruct (reloadConfig deps (σ, w)) as [[? ?] [? ?]].
    apply step_total. }
  destruct c as [σ w]. split_and!.
  - apply Ht.
  - apply Ht.
  - intros req. unfold handleRetryFire. cbv zeta. destruct (reloadConfig deps _) as [[? ?] [? v]].
    destruct v; simpl; [apply step_total|]. repeat case_match; eauto.
  - intros. unfold handleWorkerDone. destruct (reloadConfig deps _) as [[? ?] [? ?]].
    apply step_total.
  - intros. apply step_total.
Qed.

(** C1: single authority.  In every reachable configuration a running issue is
    claimed and not queued for retry; a claimed issue is running or queued, so
    no claim leaks; map entries carry their key; and the published snapshot is
    the current state. *)
Theorem reachable_single_authority {W Worker} (deps : Deps W Worker) M c0 tmpl c :
  env_ok deps M -> limit_ok M c0 -> reachable deps c0 tmpl c ->
  let s := cur c.1 in
  (∀ id run, Running s !! id = Some run ->
     id ∈ Claimed s /\ RetryAttempts s !! id = None /\ Issue_ID (Run_Issue run) = id) /\
  (∀ id, id ∈ Claimed s -> is_Some (Running s !! id) \/ is_Some (RetryAttempts s !! id)) /\
  (∀ id e, RetryAttempts s !! id = Some e -> RE_IssueID e = id) /\
  published c.1 = Some s.
Proof.
  intros He Hl Hr.
  pose proof (reachable_good deps false M He ltac:(done) c0 tmpl c Hl Hr) as [G _ _ _ _ _ Hp].
  destruct (g_inv _ _ _ _ _ G) as []. split_and!; [|..|done].
  { intros id run Hrun. split_and!; eauto. }
  2:{ eauto. }
  intros id Hid. destruct (g_claimed _ _ _ _ _ G id Hid) as [?|[?|H]]; auto.
  by apply elem_of_nil in H.
Qed.

Lemma reachable_single_authority_witness :
  published (exampleStart true).1 = Some (cur (exampleStart true).1) /\
  is_Some (Running (cur (exampleStart true).1) !! "B"%string).
Proof.
  split; [|vm_compute; eauto].
  apply (reachable_single_authority (exampleDeps true) 1 exampleConfig "prompt").
  - apply exampleDeps_ok.
  - apply exampleConfig_ok.
  - apply exampleStart_reachable.
Defined.

(** C12: bounded concurrency.  Running attempts plus queued retries never exceed
    the largest concurrency limit the workflow file has had. *)
Theorem reachable_slot_bound {W Worker} (deps : Deps W Worker) M c0 tmpl c :
  env_ok deps M -> limit_ok M c0 -> reachable deps c0 tmpl c -> slotsUsed (cur c.1) <= M.
Proof.
  intros He Hl Hr.
  pose proof (reachable_good deps false M He ltac:(done) c0 tmpl c Hl Hr) as [G _ _ _ _ _ _].
  pose proof (g_slots _ _ _ _ _ G) as H. simpl in H. lia.
Qed.

Lemma reachable_slot_bound_witness : slotsUsed (cur (exampleStart true).1) <= 1.
Proof.
  apply (reachable_slot_bound (exampleDeps true) 1 exampleConfig "prompt").
  - apply exampleDeps_ok.
  - apply exampleConfig_ok.
  - apply exampleStart_reachable.
Defined.

(** C16: retry timers.  In every reachable configuration an issue has at most one
    timer armed or fired, a timer belongs to a queued retry, and every queued
    retry of a claimed issue has its timer. *)
Theorem reachable_timers {W Worker} (deps : Deps W Worker) M c0 tmpl c :
  env_ok deps M -> limit_ok M c0 -> reachable deps c0 tmpl c ->
  NoDup (pending c.1) /\
  (∀ id, id ∈ pending c.1 -> is_Some (RetryAttempts (cur c.1) !! id)) /\
  (∀ id, is_Some (RetryAttempts (cur c.1) !! id) -> id ∈ Claimed (cur c.1) -> id ∈ pending c.1).
Proof.
  intros He Hl Hr.
  pose proof (reachable_good deps false M He ltac:(done) c0 tmpl c Hl Hr) as [G _ _ _ _ _ _].
  rewrite app_nil_r in G. destruct G. auto.
Qed.

Lemma reachable_timers_witness :
  NoDup (pending (exampleStart false).1) /\ pending (exampleStart false).1 = ["B"%string].
Proof.
  split; [|vm_compute; reflexivity].
  apply (reachable_timers (exampleDeps false) 1 exampleConfig "prompt").
  - apply exampleDeps_ok.
  - apply exampleConfig_ok.
  - apply exampleStart_reachable.
Defined.

(** C23: no retry is lost while spawning succeeds.  If the spawn function never
    reports an error, every queued retry of a reachable configuration is still
    claimed and has its timer armed or fired. *)
Theorem reachable_no_retry_lost {W Worker} (deps : Deps W Worker) M c0 tmpl c :
  env_ok deps M -> spawn_never_fails deps -> limit_ok M c0 -> reachable deps c0 tmpl c ->
  ∀ id, is_Some (RetryAttempts (cur c.1) !! id) -> id ∈ Claimed (cur c.1) /\ id ∈ pending c.1.
Proof.
  intros He Hs Hl Hr id Hid.
  pose proof (reachable_good deps true M He ltac:(done) c0 tmpl c Hl Hr) as [G _ _ _ _ _ _].
  rewrite app_nil_r in G. destruct G. auto.
Qed.

(** The running example after its worker exits: issue B waits for its
    continuation timer. *)
Definition exampleExited : Scheduler unit * Z :=
  default (exampleStart true)
    (handleWorkerDone (exampleDeps true) (exampleStart true) "B" None 0).

Lemma exampleExited_reachable :
  reachable (exampleDeps true) exampleConfig "prompt" exampleExited.
Proof.
  eapply R_step; [apply exampleStart_reachable|].
  apply (LS_workerDone _ _ "B" None 0). vm_compute. reflexivity.
Qed.

Lemma reachable_no_retry_lost_witness :
  "B"%string ∈ Claimed (cur exampleExited.1) /\ "B"%string ∈ pending exampleExited.1.
Proof.
  apply (reachable_no_retry_lost (exampleDeps true) 1 exampleConfig "prompt").
  - apply exampleDeps_ok.
  - intros spawn w i a err [= <-]. done.
  - apply exampleConfig_ok.
  - apply exampleExited_reachable.
  - vm_compute. eauto.
Defined.

(** An orphaned retry is stuck.  Once a reachable configuration has a queued
    retry without a timer (which a failed spawn leads to, see the witness), the
    issue stays queued in every later configuration: it is never claimed, never
    running and keeps occupying a slot. *)
Theorem orphan_forever {W Worker} (deps : Deps W Worker) M c0 tmpl c id c' :
  env_ok deps M -> limit_ok M c0 -> reachable deps c0 tmpl c ->
  orphan id c.1 [] -> rtc (loop_step deps) c c' ->
  orphan id c'.1 [] /\ lifecycle (cur c'.1) id = CS_RetryQueued /\
  id ∉ Claimed (cur c'.1) /\ 1 <= slotsUsed (cur c'.1).
Proof.
  intros He Hl Hr Ho Hsteps.
  pose proof (reachable_good deps false M He ltac:(done) c0 tmpl c Hl Hr) as G.
  assert (good false M c'.1 [] [] /\ orphan id c'.1 []) as [G' O'].
  { clear Hr. induction Hsteps as [|c c1 c' Hstep _ IH]; [done|].
    destruct (loop_step_rule deps M (allowed false) _ (orphan_loop_inv M id) He
      (allowed_other false) ltac:(done) _ _ Hstep (conj G Ho)). auto. }
  destruct (orphan_retry_queued _ _ _ _ _ _ G' O') as [Hq Hc]. split_and!; try done.
  destruct O' as [[e Hret] _]. unfold slotsUsed.
  rewrite <- (size_delete_present (RetryAttempts (cur c'.1)) id) by eauto. lia.
Qed.

(** The failing example: the timer of issue B fires and is handled. *)
Definition fire {Worker} (c : Scheduler Worker * Z) (tid : nat) (req : retryFireReq)
    : Scheduler Worker * Z :=
  (c.1 <| armed := delete tid (armed c.1) |> <| retryFire := retryFire c.1 ++ [req] |>, c.2).

Lemma R_fire {Worker} (deps : Deps Z Worker) c0 tmpl c tid req :
  reachable deps c0 tmpl c -> armed c.1 !! tid = Some req ->
  reachable deps c0 tmpl (fire c tid req).
Proof. destruct c as [σ w]. intros Hr Ha. eapply R_step; [exact Hr|]. by apply LS_timerFires. Qed.

Lemma R_retry {W Worker} (deps : Deps W Worker) c0 tmpl c req reqs c' :
  reachable deps c0 tmpl c -> retryFire c.1 = req :: reqs ->
  handleRetryFire deps (c.1 <| retryFire := reqs |>, c.2) req = Some c' ->
  reachable deps c0 tmpl c'.
Proof. destruct c as [σ w]. intros Hr Hq Hh. eapply R_step; [exact Hr|]. by eapply LS_retryFire. Qed.

Definition exampleFired : Scheduler unit * Z :=
  fire (exampleStart false) 0 (mkRetryFireReq "B" "B" 1).

Definition exampleOrphaned : Scheduler unit * Z :=
  default exampleFired
    (handleRetryFire (exampleDeps false) (exampleFired.1 <| retryFire := [] |>, exampleFired.2)
       (mkRetryFireReq "B" "B" 1)).

Lemma exampleOrphaned_reachable :
  reachable (exampleDeps false) exampleConfig "prompt" exampleOrphaned.
Proof.
  apply (R_retry _ _ _ exampleFired (mkRetryFireReq "B" "B" 1) []).
  - apply R_fire; [apply exampleStart_reachable|vm_compute; reflexivity].
  - vm_compute. reflexivity.
  - vm_compute. reflexivity.
Qed.

Lemma orphan_forever_witness :
  orphan "B" exampleOrphaned.1 [] /\ lifecycle (cur exampleOrphaned.1) "B" = CS_RetryQueued /\
  "B"%string ∉ Claimed (cur exampleOrphaned.1) /\ 1 <= slotsUsed (cur exampleOrphaned.1).
Proof.
  apply (orphan_forever (exampleDeps false) 1 exampleConfig "prompt" exampleOrphaned "B").
  - apply exampleDeps_ok.
  - apply exampleConfig_ok.
  - apply exampleOrphaned_reachable.
  - split; [vm_compute; eauto|]. vm_compute. apply not_elem_of_nil.
  - apply rtc_refl.
Defined.

(** ** Single events *)

(** C25: the reducer refines the claim lifecycle.  Whatever the event, each issue
    makes at most one move, and only a move the event allows: dispatch claims,
    a spawn outcome ends a claim, an exit, stall or reconciliation ends a run,
    and only the issue's own retry resolution takes it out of the retry queue. *)
Theorem Reduce_refines_lifecycle b M s C Q ev cfg now id :
  sgood b M s (claim_tok_ev ev ++ C) (timer_tok_ev ev ++ Q) ->
  lifecycle_step id ev (lifecycle s id) (lifecycle (Reduce s ev cfg now).1 id).
Proof. apply Reduce_lifecycle. Qed.

Lemma Reduce_refines_lifecycle_witness :
  lifecycle_step "B" (EvCandidatesFetched [exampleIssue "B" None]) Unclaimed CS_Claimed.
Proof.
  apply (Reduce_refines_lifecycle true 1 NewState [] []
    (EvCandidatesFetched [exampleIssue "B" None]) exampleConfig 0 "B").
  by apply sgood_NewState.
Defined.

(** C26: dispatch respects every limit and the priority order.  The effects of a
    candidate fetch are revalidations of distinct, eligible, unclaimed
    candidates, in sorted order, at most as many as there are global slots, and
    with those already running never more per state than its capacity. *)
Theorem dispatch_within_limits s cands cfg :
  ∃ ds, (reduceCandidates s cands cfg).2 = (revalidate0 <$> ds) /\
    ds `sublist_of` sortCandidates (filterEligible cands s cfg) /\
    NoDup (Issue_ID <$> ds) /\
    (∀ iss, iss ∈ ds -> Issue_ID iss ∉ Claimed s /\
       Issue_ID iss ∈ Claimed (reduceCandidates s cands cfg).1) /\
    Z.of_nat (length ds) <= availableGlobalSlots s cfg /\
    ∀ norm, countIn norm ds <= Z.max 0 (stateCapacity cfg norm - runningInState s norm).
Proof.
  destruct (reduceCandidates_dispatched s cfg cands) as (d & ds & -> & []).
  exists ds. split_and!; try done; [|lia].
  intros iss Hi. assert (Issue_ID iss ∈ Issue_ID <$> ds) by (by apply list_elem_of_fmap_2).
  simpl. rewrite dd_claimed. auto.
Qed.

(** C34: dispatch is work conserving.  After a candidate fetch either every global
    slot is used, or each eligible candidate has been claimed or belongs to a
    state whose capacity is used up. *)
Theorem dispatch_work_conserving s cands cfg :
  let '(s', effs) := reduceCandidates s cands cfg in
  Z.of_nat (length effs) = availableGlobalSlots s cfg \/
  ∀ iss, iss ∈ filterEligible cands s cfg ->
    Issue_ID iss ∈ Claimed s' \/
    ∃ ds, effs = revalidate0 <$> ds /\
      let norm := strings.ToLower (Issue_State iss) in
      stateCapacity cfg norm <= runningInState s norm + countIn norm ds.
Proof.
  destruct (reduceCandidates_dispatched s cfg cands) as (d & ds & -> & []).
  destruct dd_greedy as [H0|Hg]; [left|right].
  - rewrite dd_effs, length_fmap. lia.
  - intros iss Hi. rewrite <- (sort.SliceStable_Permutation candidate_less) in Hi.
    destruct (Hg iss Hi) as [?|?]; [by left|right; by exists ds].
Qed.

(** Candidates are taken in priority order.  [sortCandidates] permutes the
    candidates into an order in which no later one is strictly preferred, and
    candidates that tie keep the order of the tracker's response. *)
Theorem sortCandidates_stable_sort l :
  sortCandidates l ≡ₚ l /\
  StronglySorted (λ a b, candidate_less b a = false) (sortCandidates l) /\
  ∀ x, base.filter (λ z, sort.equivalent candidate_less x z = true) (sortCandidates l)
     = base.filter (λ z, sort.equivalent candidate_less x z = true) l.
Proof.
  split_and!.
  - apply sort.SliceStable_Permutation.
  - apply sort.SliceStable_sorted. apply _.
  - intros x. apply sort.SliceStable_stable. apply _.
Qed.

(** The outcome of a tracker refresh, issue by issue.  A running issue that
    is missing or has left the active states is killed and queued for a backoff
    retry of the next attempt; a terminal one is killed, its workspace removed
    and its claim released; an active one gets the fresh issue; every other
    issue is untouched.  The effects are those of the running issues, in id
    order. *)
Theorem refresh_outcome s ids issues cfg now :
  NoDup ids ->
  let byID := issuesByID issues in
  let '(s', effs) := reduceTrackerRefreshed s ids issues cfg now in
  (∀ id, view s' id = if decide (id ∈ ids) then refreshUpd cfg now byID id (view s id)
                      else view s id) /\
  effs = (sortedIDs ids ≫= λ id, refreshOut cfg now byID id (view s id)).
Proof.
  intros Hnd. pose proof (reduceTrackerRefreshed_pointwise s ids issues cfg now Hnd).
  by destruct (reduceTrackerRefreshed s ids issues cfg now).
Qed.

Lemma refresh_outcome_witness :
  let s := markRunning NewState (exampleIssue "B" None) 0 (mkLiveSession "s" "t" "u" 5) in
  view (reduceTrackerRefreshed s ["B"%string] [] exampleConfig 7).1 "B"
  = refreshUpd exampleConfig 7 ∅ "B" (view s "B").
Proof.
  pose proof (refresh_outcome
    (markRunning NewState (exampleIssue "B" None) 0 (mkLiveSession "s" "t" "u" 5))
    ["B"%string] [] exampleConfig 7 (NoDup_singleton _)) as H.
  simpl in *. destruct (reduceTrackerRefreshed _ _ _ _ _) as [s' effs]. destruct H as [H _].
  exact (H "B"%string).
Defined.

(** The stall pass retires exactly the runs whose last activity is older
    than the stall timeout: each is killed and queued for a backoff retry of the
    next attempt, every other issue is untouched. *)
Theorem stall_outcome s cfg now :
  0 < StallTimeoutMS (Config_Codex cfg) ->
  let threshold := (StallTimeoutMS (Config_Codex cfg) * time.Millisecond)%i64 in
  let '(s', effs) := reduceStall s cfg now in
  (∀ id, view s' id = stallUpd cfg now threshold id (view s id)) /\
  effs = (sortedRunningIDs s ≫= λ id, stallOut cfg now threshold id (view s id)).
Proof.
  intros Hpos. pose proof (reduceStall_pointwise s cfg now Hpos).
  by destruct (reduceStall s cfg now).
Qed.

Lemma stall_outcome_witness :
  let s := markRunning NewState (exampleIssue "B" None) 0 (mkLiveSession "s" "t" "u" 5) in
  (reduceStall s exampleConfig 90000000000).2
  = [EffKillWorker "B" "stall"; EffArmRetryTimer "B" "B" 1 10000000000].
Proof.
  assert (0 < StallTimeoutMS (Config_Codex exampleConfig)) as Hpos by (vm_compute; done).
  pose proof (stall_outcome
    (markRunning NewState (exampleIssue "B" None) 0 (mkLiveSession "s" "t" "u" 5))
    exampleConfig 90000000000 Hpos) as H.
  cbv zeta in *. destruct (reduceStall _ _ _) as [s' effs]. destruct H as [_ H].
  rewrite H. vm_compute. reflexivity.
Defined.

(** A retry is dispatched only into a free slot.  If the resolution of a due
    retry spawns the issue, the other running and queued issues number fewer
    than the global limit and the issue's state has capacity left; the issue
    spawned is the fresh one of the tracker's response and is active. *)
Theorem retry_within_limits s id ident attempt issues ferr cfg now s' iss a :
  sinv s -> slotsUsed s <= 2 ^ 62 -> Z.abs (stateCapacity cfg (strings.ToLower (Issue_State iss))) < 2 ^ 62 ->
  reduceRetryResolved s id ident attempt issues ferr cfg now = (s', [EffSpawn iss a]) ->
  slotsUsed s - 1 < MaxConcurrentAgents (Config_Agent cfg) /\
  runningInState s (strings.ToLower (Issue_State iss))
    < stateCapacity cfg (strings.ToLower (Issue_State iss)) /\
  Issue_ID iss = id /\ iss ∈ issues /\ a = attempt /\
  isActive cfg (Issue_State iss) = true /\ isTerminal cfg (Issue_State iss) = false.
Proof.
  intros Hinv Hs Hcap. unfold reduceRetryResolved. destruct ferr; [done|].
  destruct (findIssue issues id) as [found|] eqn:Ef; [|done].
  destruct (_ || _) eqn:Est; [done|]. destruct (negb (retryReclaimHasSlot _ _ _ _)) eqn:Eslot; [done|].
  destruct (claimFromRetry s id) as [s1 [err|]] eqn:Ec; [done|]. intros [= <- <- <-].
  apply orb_false_iff in Est as [Ht Ha%negb_false_iff]. apply negb_false_iff in Eslot.
  unfold claimFromRetry in Ec. destruct (RetryAttempts s !! id) eqn:Er; [|done].
  unfold retryReclaimHasSlot in Eslot. rewrite Er, (retryQueuedCount_size s Hinv) in Eslot.
  simpl in Eslot. destruct (Z.leb_spec (MaxConcurrentAgents (Config_Agent cfg))
    (Z.of_nat (size (Running s)) + Z.of_nat (size (RetryAttempts s)) - 1)) as [|Hg]; [done|].
  apply Z.ltb_lt, availablePerStateSlots_pos in Eslot; [|done|by unfold slotsUsed in *; lia].
  split_and!; try done.
  - by eapply findIssue_ID.
  - by eapply findIssue_elem.
Qed.

Lemma retry_within_limits_witness :
  slotsUsed (enqueueRetry (claim NewState (exampleIssue "B" None)).1
    (retryEntry "B" "B" 1 None)) - 1 < MaxConcurrentAgents (Config_Agent exampleConfig).
Proof.
  apply (retry_within_limits _ "B" "B" 1 [exampleIssue "B" None] None exampleConfig 0
    (claim NewState (exampleIssue "B" None)).1 (exampleIssue "B" None) 1).
  - apply enqueueRetry_sinv; [|done]. split; simpl; intros *;
      rewrite ?lookup_delete_Some, ?lookup_empty; first [done|by intros [? [=]]|by intros [_ [=]]].
  - vm_compute. done.
  - vm_compute. done.
  - vm_compute. reflexivity.
Defined.

(** Exponential backoff.  For the first fifty attempts and any positive cap
    whose nanoseconds fit 64 bits, the delay is ten seconds doubled per attempt
    and capped. *)
Theorem backoffDelay_exact attempt cfg :
  attempt <= 50 -> in_int64 attempt ->
  0 < MaxRetryBackoffMS (Config_Agent cfg) <= 9223372036854 ->
  backoffDelay attempt cfg
  = Z.min (10000 * 2 ^ (Z.max 1 attempt - 1)) (MaxRetryBackoffMS (Config_Agent cfg))
    * time.Millisecond.
Proof.
  intros Ha Hi Hm. rewrite backoffDelay_unfold by done. cbv zeta.
  set (e := Z.max 1 attempt - 1). assert (0 <= e <= 49) as He by lia.
  rewrite Z.min_l by lia. rewrite (shl64_small e) by lia.
  assert (1 <= 2 ^ e <= 2 ^ 49) as Hp.
  { split; [|apply Z.pow_le_mono_r; lia]. pose proof (Z.pow_pos_nonneg 2 e). lia. }
  rewrite (wrap64_id (10000 * 2 ^ e)) by (unfold in_int64, int64_min, int64_max; lia).
  rewrite (proj2 (Z.ltb_lt _ _) (proj1 Hm)). simpl.
  unfold time.Millisecond. case Z.ltb_spec; intros;
    (rewrite wrap64_id; [|unfold in_int64, int64_min, int64_max]; lia).
Qed.

Lemma backoffDelay_exact_witness : backoffDelay 4 exampleConfig = 80000 * time.Millisecond.
Proof.
  rewrite (backoffDelay_exact 4 exampleConfig); [vm_compute; reflexivity|lia| |vm_compute; split; done].
  split; vm_compute; done.
Defined.

(** The backoff overflows.  From the 61st attempt on the 64-bit product is
    zero, the cap does not apply, and the retry is due immediately. *)
Theorem backoffDelay_overflow attempt cfg :
  61 <= attempt <= int64_max -> backoffDelay attempt cfg = 0.
Proof.
  intros Ha. rewrite backoffDelay_unfold by (unfold in_int64, int64_min; lia). cbv zeta.
  assert (wrap64 (10000 * shl64 1 (Z.min (Z.max 1 attempt - 1) 62)) = 0) as ->.
  { assert (Z.min (Z.max 1 attempt - 1) 62 = 60 \/ Z.min (Z.max 1 attempt - 1) 62 = 61 \/
      Z.min (Z.max 1 attempt - 1) 62 = 62) as [-> | [-> | ->]] by lia; reflexivity. }
  destruct (Z.ltb_spec 0 (MaxRetryBackoffMS (Config_Agent cfg))) as [H|H]; simpl; [|done].
  case Z.ltb_spec; [lia|done].
Qed.

Lemma backoffDelay_overflow_witness : backoffDelay 61 exampleConfig = 0.
Proof. apply (backoffDelay_overflow 61 exampleConfig). unfold int64_max. lia. Defined.

(** Token totals are conserved.  Whatever the event, the totals a snapshot
    reports change only by the tokens a running issue newly reports: releasing,
    retrying or killing an issue neither loses nor duplicates any. *)
Theorem Reduce_totals s ev cfg now :
  snapTotals (Reduce s ev cfg now).1 =
  match ev with
  | EvCodexActivity id _ _ _ (Some u) _ _ _ =>
      match Running s !! id with
      | Some _ => addTotals (snapTotals s)
                    (usageDelta (default NewAccumulator (St_Usage s !! id)) u)
      | None => snapTotals s
      end
  | _ => snapTotals s
  end.
Proof.
  pose proof (Reduce_conserves s ev cfg now) as H.
  destruct ev; try exact (proj1 H). simpl.
  rewrite snapTotals_reduceCodexActivity. by destruct usage.
Qed.

(** The running configuration has passed its checks.  If the initial
    configuration passes [Preflight], so do the current and the last-known-good
    one of every reachable configuration, whatever is written to the workflow
    file. *)
Theorem reachable_config_checked {W Worker} (deps : Deps W Worker) c0 tmpl c :
  Preflight c0 = None -> reachable deps c0 tmpl c ->
  Preflight (cfg c.1) = None /\ Preflight (lastGood c.1) = None.
Proof.
  intros Hp Hr. destruct (reachable_checked deps (fun wf => Preflight (Loaded_Config wf) = None))
    with c0 tmpl c as (?&->&_); [by intros|done..].
Qed.

Lemma reachable_config_checked_witness : Preflight (cfg (exampleStart true).1) = None.
Proof.
  apply (reachable_config_checked (exampleDeps true) exampleConfig "prompt" (exampleStart true)).
  - vm_compute. reflexivity.
  - apply exampleStart_reachable.
Defined.

(** An invalid workflow suspends dispatch.  A tick while the workflow file
    does not load or fails its checks claims no issue, runs on the
    last-known-good configuration, keeps it, and marks the scheduler degraded. *)
Theorem tick_invalid_no_dispatch {W Worker} (deps : Deps W Worker) σ w c' :
  workflow_invalid deps w -> tick deps (σ, w) = Some c' ->
  Claimed (cur c'.1) ⊆ Claimed (cur σ) /\ cfg c'.1 = lastGood σ /\
  lastGood c'.1 = lastGood σ /\ degraded c'.1 = true.
Proof. apply tick_invalid. Qed.

Definition brokenDeps : Deps Z unit :=
  mkDeps (Deps_Tracker (exampleDeps true)) (Deps_Spawn (exampleDeps true)) None None
    (Deps_Now (exampleDeps true)) (Deps_Kill (exampleDeps true))
    (λ w, (w, inr "no such file"%string)).

Lemma tick_invalid_no_dispatch_witness :
  ∃ c', tick brokenDeps (New exampleConfig "prompt", 5) = Some c' /\ degraded c'.1 = true.
Proof.
  eexists. split; [vm_compute; reflexivity|].
  apply (tick_invalid_no_dispatch brokenDeps (New exampleConfig "prompt") 5).
  - exact I.
  - vm_compute. reflexivity.
Defined.

(** A late exit unseats the current attempt.  The exit report of an earlier
    attempt that was killed and replaced is not ignored: it ends the run in
    place, and an error exit queues its own attempt plus one, so the attempt
    number falls back. *)
Theorem stale_exit_unseats s id run attempt err cfg now :
  Running s !! id = Some run -> 0 <= attempt < Run_Attempt run -> in_int64 (Run_Attempt run) ->
  ∃ e, view (reduceWorkerExit s id (Some err) attempt cfg now).1 id
         = mkIssueView None (Some e) (v_claimed (view s id)) /\ RE_Attempt e <= Run_Attempt run.
Proof.
  intros Hr Ha Hi. unfold reduceWorkerExit, workerExitAbnormal. rewrite Hr. eexists. split.
  - unfold armRetry. cbv beta iota zeta. unfold fst. rewrite view_enqueueRetry, view_exit. simpl.
    rewrite !decide_True by done. simpl. by rewrite lookup_delete_eq.
  - simpl. unfold in_int64, int64_min, int64_max in *.
    rewrite wrap64_id; [lia|unfold in_int64, int64_min, int64_max; lia].
Qed.

Lemma stale_exit_unseats_witness :
  let s := markRunning NewState (exampleIssue "B" None) 3 (mkLiveSession "s" "t" "u" 5) in
  ∃ e, view (reduceWorkerExit s "B" (Some "killed"%string) 1 exampleConfig 7).1 "B"
         = mkIssueView None (Some e) false /\ RE_Attempt e <= 3.
Proof.
  apply (stale_exit_unseats
    (markRunning NewState (exampleIssue "B" None) 3 (mkLiveSession "s" "t" "u" 5)) "B"
    (mkRunAttempt (exampleIssue "B" None) (mkLiveSession "s" "t" "u" 5) 3
       PhasePreparingWorkspace 0 5 "" "" 0 0 0 0 0 0 None)).
  - vm_compute. reflexivity.
  - simpl. lia.
  - simpl. unfold in_int64, int64_min, int64_max. lia.
Defined.

(** ** platform/metrics *)

(** No token is counted twice.  If each thread's cumulative reports do not
    go backwards, the accumulator's totals are the sum over the threads of
    their last report, however the threads interleave and however often a
    report is repeated. *)
Theorem totals_no_double_count us :
  reports_ok NewAccumulator us ->
  AccTotals (observe_all NewAccumulator us)
  = last_totals (lastSeen (observe_all NewAccumulator us)).
Proof. by apply observe_all_last_totals. Qed.

Lemma totals_no_double_count_witness :
  let us := [mkUsage "t1" 10 5 15; mkUsage "t2" 1 1 2; mkUsage "t1" 12 5 17; mkUsage "t1" 12 5 17] in
  AccTotals (observe_all NewAccumulator us)
  = last_totals (lastSeen (observe_all NewAccumulator us)).
Proof.
  apply (totals_no_double_count
    [mkUsage "t1" 10 5 15; mkUsage "t2" 1 1 2; mkUsage "t1" 12 5 17; mkUsage "t1" 12 5 17]).
  repeat split; vm_compute; done.
Defined.
