(* ===== verification/WfProps.v ===== *)
(** * Workflow files: properties

    What a workflow file means, and that the scheduler never runs on one that
    does not resolve. *)

From S2P Require Import Prelude GoStd GoText GoIO GoPath WfConfig WfResolve Workspace.
From S2P Require Import Metrics Tracker SchedState SchedReduce SchedShell SchedShellInv SchedOrphan.
Open Scope Z_scope.

Import filepath.

(** ** The file as the scheduler reads it *)

Section load.
Context (yaml : string -> option yvalue) (env : string -> string).

(** The first half of [reloadConfig]: [file] is what the workflow path holds. *)
Definition loadWorkflow (path : string) (file : option string) : LoadedWorkflow + error :=
  match workflowfile.Load yaml file with
  | inr workflowfile.ErrMissingWorkflowFile => inr "workflowfile: missing WORKFLOW.md"%string
  | inr workflowfile.ErrWorkflowParse => inr "workflowfile: workflow parse error"%string
  | inr workflowfile.ErrFrontMatterNotMap => inr "workflowfile: front matter is not a map"%string
  | inl wf =>
    match wfconfig.Resolve env (workflowfile.WF_Config wf) (Dir path) with
    | inr (wfconfig.ErrConfigCoerce f) => inr ("wfconfig: coerce error: " +:+ f)
    | inr (wfconfig.ErrConfigValidation _) => inr "wfconfig: validation error"%string
    | inl cfg => inl (mkLoadedWorkflow cfg (workflowfile.WF_PromptTemplate wf))
    end
  end.

(** The configuration and the prompt [wf] are those of one content of the file
    among [versions]: parsed as a workflow file, then resolved. *)
Definition fromFile (versions : string -> Prop) (path : string) (wf : LoadedWorkflow) : Prop :=
  exists data parsed, versions data /\ workflowfile.Parse yaml data = inl parsed /\
    resolved env (workflowfile.WF_Config parsed) (Dir path) (Loaded_Config wf) /\
    Loaded_Template wf = workflowfile.WF_PromptTemplate parsed.

Lemma loadWorkflow_resolved (versions : string -> Prop) path file wf :
  (forall data, file = Some data -> versions data) ->
  loadWorkflow path file = inl wf -> fromFile versions path wf.
Proof.
  intros Hv. unfold loadWorkflow. destruct file as [data|]; [|done]. cbn [workflowfile.Load].
  destruct (workflowfile.Parse yaml data) as [w|[]] eqn:Ep; try done.
  destruct (wfconfig.Resolve _ _ _) as [c|[]] eqn:E; try done. intros [= <-].
  exists data, w. split_and!; auto. by apply Resolve_resolved.
Qed.
End load.

Lemma validate_positive c : validate c = None ->
  0 < Hooks_TimeoutMS (Config_Hooks c) /\ 0 < MaxTurns (Config_Agent c) /\
  0 < Polling_IntervalMS (Config_Polling c) /\ 0 < TurnTimeoutMS (Config_Codex c) /\
  0 < ReadTimeoutMS (Config_Codex c).
Proof. unfold validate. intros H. repeat case_match; try done. lia. Qed.

(** ** Examples *)

Section example.
Local Open Scope string_scope.

Definition exampleEnv (v : string) : string :=
  if decide (v = "LINEAR_API_KEY") then "lin_key" else if decide (v = "HOME") then "/home/u" else "".

Definition exampleMatter : ymap :=
  [("tracker", YMap [("kind", YString "linear"); ("project_slugs", YList [YString "p"])]);
   ("workspace", YMap [("root", YString "~/ws")]);
   ("agent", YMap [("max_turns", YString "7")])].

Definition exampleFm : list string := ["tracker:"; "  kind: linear"].
Definition exampleFile : string :=
  bufio.unlines ("---" :: exampleFm ++ ["---"]) +:+ "do it".

Definition exampleYaml (s : string) : option yvalue :=
  if decide (s = Strings.Join exampleFm workflowfile.nl) then Some (YMap exampleMatter) else None.

Definition exampleLoaded : LoadedWorkflow :=
  match loadWorkflow exampleYaml exampleEnv "/proj/WORKFLOW.md" (Some exampleFile) with
  | inl wf => wf | inr _ => mkLoadedWorkflow zeroConfig "" end.

Definition fileDeps : Deps (option string) unit :=
  mkDeps None None None None (fun w => (w, 5)%Z) (fun w _ _ => w)
    (fun w => (w, loadWorkflow exampleYaml exampleEnv "/proj/WORKFLOW.md" w)).
End example.

(** ** Properties *)

(** A workflow file means what its front matter says: when resolution succeeds,
    every field of the configuration is the coerced value of its key or the
    documented default, the tracker key and the workspace root are expanded
    from the environment, and every timeout, the turn limit and the polling
    interval are positive. *)
Theorem workflow_resolved env raw dir c :
  wfconfig.Resolve env raw dir = inl c ->
  resolved env raw dir c /\
  0 < Hooks_TimeoutMS (Config_Hooks c) /\ 0 < MaxTurns (Config_Agent c) /\
  0 < Polling_IntervalMS (Config_Polling c) /\ 0 < TurnTimeoutMS (Config_Codex c) /\
  0 < ReadTimeoutMS (Config_Codex c).
Proof.
  intros H%Resolve_resolved. split; [done|]. apply validate_positive, H.
Qed.

Lemma workflow_resolved_witness :
  exists c, wfconfig.Resolve exampleEnv exampleMatter "/proj" = inl c /\
    resolved exampleEnv exampleMatter "/proj" c.
Proof.
  eexists. split; [vm_compute; reflexivity|].
  refine (proj1 (workflow_resolved exampleEnv exampleMatter "/proj" _ _)). vm_compute. reflexivity.
Defined.

(** C32: front matter and prompt are split where they were joined: a file made of a
    fence, lines none of which is a fence, another fence and any text parses
    to that front matter and that text, whether its lines end in LF or CR LF;
    a file that does not start with a fence is a prompt without front matter. *)
Theorem front_matter_round_trip yaml fm body text :
  Forall matterLine fm ->
  text = bufio.unlines ("---"%string :: fm ++ ["---"%string]) +:+ body ->
  Strings.ContainsByte text carriageReturn = false ->
  workflowfile.Parse yaml text
    = workflowfile.buildWorkflow yaml (Strings.Join fm workflowfile.nl) body /\
  workflowfile.Parse yaml (dosLines text) = workflowfile.Parse yaml text /\
  forall prompt, Strings.HasPrefix prompt "---" = false ->
    Strings.ContainsByte prompt carriageReturn = false ->
    workflowfile.Parse yaml prompt = inl (workflowfile.mkWorkflow [] (Strings.TrimSpace prompt)).
Proof.
  intros Hfm -> Hcr. split_and!.
  - by apply Parse_fenced, unixLines_id.
  - unfold workflowfile.Parse. by rewrite unixLines_dosLines, unixLines_id.
  - intros. by apply Parse_plain, unixLines_id.
Qed.

Lemma front_matter_round_trip_witness :
  workflowfile.Parse exampleYaml exampleFile
    = inl (workflowfile.mkWorkflow exampleMatter "do it").
Proof.
  etrans; [refine (proj1 (front_matter_round_trip exampleYaml exampleFm "do it" _ _ eq_refl _))|].
  - by repeat constructor.
  - vm_compute. reflexivity.
  - vm_compute. reflexivity.
Defined.

(** C19: the scheduler runs on one version of its workflow file, a version that
    resolves and passes the checks.  Let [versions] hold what the file contains
    at the start and at every reload.  Then, in every reachable state, the
    configuration in force and the prompt are the front matter and the body of
    one and the same of these contents, parsed and resolved; its limits and
    timeouts are positive.  A tick moves on to the content it reads if that
    one resolves and passes, and otherwise stays with the one before. *)
Theorem running_config_resolved {W Worker} yaml env path (deps : Deps W Worker)
    (file : W -> option string) (versions : string -> Prop) data0 wf0 c :
  (forall w, Deps_LoadWorkflow deps w = (w, loadWorkflow yaml env path (file w))) ->
  (forall w data, file w = Some data -> versions data) -> versions data0 ->
  loadWorkflow yaml env path (Some data0) = inl wf0 -> Preflight (Loaded_Config wf0) = None ->
  reachable deps (Loaded_Config wf0) (Loaded_Template wf0) c ->
  let wf := mkLoadedWorkflow (cfg c.1) (lastGoodTemplate c.1) in
  fromFile yaml env versions path wf /\ lastGood c.1 = cfg c.1 /\ Preflight (cfg c.1) = None /\
  0 < MaxTurns (Config_Agent (cfg c.1)) /\ 0 < TurnTimeoutMS (Config_Codex (cfg c.1)) /\
  0 < Polling_IntervalMS (Config_Polling (cfg c.1)) /\
  forall c', tick deps c = Some c' ->
    mkLoadedWorkflow (cfg c'.1) (lastGoodTemplate c'.1) =
    match loadWorkflow yaml env path (file c.2) with
    | inl new => if decide (Preflight (Loaded_Config new) = None) then new else wf
    | inr _ => wf
    end.
Proof.
  intros Hd Hv H0 Hl Hp Hr wf.
  destruct (reachable_checked deps
    (fun wf => fromFile yaml env versions path wf /\ Preflight (Loaded_Config wf) = None))
    with (Loaded_Config wf0) (Loaded_Template wf0) c as ([H1 H2] & E & _); [|split| done|].
  - intros w w' new El Hpre. rewrite Hd in El. injection El as _ El. split; [|done].
    eapply loadWorkflow_resolved; [|done]. apply Hv.
  - destruct wf0. eapply loadWorkflow_resolved; [|done]. by intros ? [= <-].
  - done.
  - cbn [Loaded_Config] in H2. rewrite <- E in H1, H2. split_and!; try done.
    1-3: destruct H1 as (data & w & _ & _ & Hraw & _);
      pose proof (validate_positive _ (r_valid _ _ _ _ Hraw)); cbn [Loaded_Config] in *; tauto.
    intros c' Ht. destruct c as [σ w]. apply tick_reloaded in Ht as (-> & _ & ->).
    rewrite Hd. cbn [snd fst] in *. unfold reloaded, wf. rewrite <- E.
    destruct (loadWorkflow yaml env path (file w)) as [[cn tn]|]; [|done]. cbn [Loaded_Config].
    destruct (Preflight cn); [by rewrite decide_False|by rewrite decide_True].
Qed.

Lemma running_config_resolved_witness :
  exists c, startRun fileDeps (New (Loaded_Config exampleLoaded) "do it", None) = Some c /\
    0 < MaxTurns (Config_Agent (cfg c.1)).
Proof.
  eexists. split; [vm_compute; reflexivity|].
  eapply (running_config_resolved exampleYaml exampleEnv "/proj/WORKFLOW.md" fileDeps (fun w => w)
    (fun _ => True) exampleFile exampleLoaded).
  - done.
  - done.
  - done.
  - vm_compute. reflexivity.
  - vm_compute. reflexivity.
  - apply (R_start _ _ _ None). vm_compute. reflexivity.
Defined.

(** a workspace root that expands to nothing is the working directory.  When
    [workspace.root] names a variable that is not set, the file still
    resolves; the manager's root is then the relative path ".", and workspaces
    are created and removed in whatever directory the process runs in. *)
Theorem unset_root_is_cwd env raw dir c v :
  wfconfig.Resolve env raw dir = inl c ->
  leaf wfconfig.coerceString raw "workspace" "root" EmptyString = Some (String.String "$" v) ->
  wfconfig.varName (String.String "$" v) = Some v -> env v = EmptyString ->
  let m := workspace.New c in
  workspace.M_root m = "."%string /\
  forall id, plain (workspace.sanitizeKey id) ->
    workspace.Path m id = inl (Join ["."%string; workspace.sanitizeKey id]).
Proof.
  intros [root [Hroot Hc]]%Resolve_resolved%r_root Hl Hv He m.
  assert (root = String.String "$" v) as ->.
  { unfold leaf in *. destruct (ylookup _ _); [congruence|done]. }
  assert (workspace.M_root m = "."%string) as Hm.
  { unfold m, workspace.New. cbn [workspace.M_root]. rewrite Hc.
    assert (wfconfig.expandPath env (String.String "$" v) = EmptyString) as ->; [|done].
    unfold wfconfig.expandPath, wfconfig.ExpandPath. rewrite decide_False by done.
    unfold wfconfig.expandVar. by rewrite Hv. }
  split; [done|]. intros id Hid. rewrite <- Hm. apply workspace.Path_plain; [|done]. by rewrite Hm.
Qed.

Lemma unset_root_is_cwd_witness :
  exists c, wfconfig.Resolve exampleEnv
      [("workspace", YMap [("root", YString "$WORKSPACES")])]%string "/proj" = inl c /\
    workspace.M_root (workspace.New c) = "."%string.
Proof.
  eexists. split; [vm_compute; reflexivity|].
  refine (proj1 (unset_root_is_cwd exampleEnv
    [("workspace", YMap [("root", YString "$WORKSPACES")])]%string "/proj" _ "WORKSPACES" _ _ _ _)).
  - vm_compute. reflexivity.
  - vm_compute. reflexivity.
  - vm_compute. reflexivity.
  - vm_compute. reflexivity.
Defined.
