(* ===== verification/CodexConn.v ===== *)
(** * platform/agent/codexclient: JSON-RPC with an app-server

    [conn.go], [client.go], [server.go] and [transport_stdio.go].  A [Conn]
    serves both sides.  Goroutines meet in two places: [pending], guarded by a
    mutex, and the one-slot channel of each request, here [inbox].  Writing is
    represented by the message written; the transport frames it as a line. *)

From S2P Require Import Prelude GoStd GoText GoJson GoMarshal GoIO.
Open Scope Z_scope.

Module codexclient.
Import json marshal.

(** ** codexschema/methods.go *)

Definition MethodInitialize : string := "initialize".
Definition MethodThreadStart : string := "thread/start".
Definition MethodThreadResume : string := "thread/resume".
Definition MethodInitialized : string := "initialized".
Definition MethodTurnStart : string := "turn/start".
Definition MethodThreadStarted : string := "thread/started".
Definition MethodTurnStarted : string := "turn/started".
Definition MethodTurnCompleted : string := "turn/completed".
Definition MethodItemStarted : string := "item/started".
Definition MethodItemCompleted : string := "item/completed".
Definition MethodItemAgentMessageDelta : string := "item/agentMessage/delta".
Definition MethodThreadTokenUsageUpdated : string := "thread/tokenUsage/updated".
Definition MethodAccountRateLimitsUpdated : string := "account/rateLimits/updated".
Definition MethodError : string := "error".
Definition MethodItemCommandExecutionRequestApproval : string := "item/commandExecution/requestApproval".
Definition MethodItemFileChangeRequestApproval : string := "item/fileChange/requestApproval".
Definition MethodItemToolCall : string := "item/tool/call".
Definition MethodItemToolRequestUserInput : string := "item/tool/requestUserInput".
Definition ApprovalAcceptForSession : string := "acceptForSession".

(** ** conn.go *)

Record rpcMessage := mkMessage {
  Msg_ID : option Z;
  Msg_Method : string;
  Msg_Params : RawMessage;
  Msg_Result : RawMessage;
  Msg_Error : RawMessage;
}.
#[export] Instance eta_rpcMessage : Eta rpcMessage := fun m =>
  mkMessage (Msg_ID m) (Msg_Method m) (Msg_Params m) (Msg_Result m) (Msg_Error m).

Definition zeroMessage : rpcMessage := mkMessage None EmptyString EmptyString EmptyString EmptyString.

Definition dMessage : Decoder rpcMessage := dStruct
  [fld "id" Msg_ID (dPtr 0 dInt); fld "method" Msg_Method dString; fld "params" Msg_Params dRaw;
   fld "result" Msg_Result dRaw; fld "error" Msg_Error dRaw].

Definition messageAny (m : rpcMessage) : any := AObj (
  match Msg_ID m with Some id => [("id"%string, AInt id)] | None => [] end
  ++ omitStr "method" (Msg_Method m) ++ omitRaw "params" (Msg_Params m)
  ++ omitRaw "result" (Msg_Result m) ++ omitRaw "error" (Msg_Error m)).

Definition mustJSON (a : any) : RawMessage := default EmptyString (Marshal a).

(** The bytes [writeMsg] hands to the transport. *)
Definition writeMsg (m : rpcMessage) : option string := Marshal (messageAny m).

Definition Notify (method : string) (params : any) : rpcMessage :=
  mkMessage None method (mustJSON params) EmptyString EmptyString.
Definition Reply (id : Z) (result : any) : rpcMessage :=
  mkMessage (Some id) EmptyString EmptyString (mustJSON result) EmptyString.
Definition ReplyError (id : Z) (errMsg : string) : rpcMessage :=
  mkMessage (Some id) EmptyString EmptyString EmptyString (mustJSON (mapAny [("message"%string, AStr errMsg)])).

Record Conn := mkConn {
  pending : gset Z;
  inbox : gmap Z rpcMessage;
  nextID : Z;
}.
#[export] Instance eta_Conn : Eta Conn := fun c => mkConn (pending c) (inbox c) (nextID c).

Definition NewConn : Conn := mkConn ∅ ∅ 0.

(** [Request] up to its write: a fresh id, registered before it is sent. *)
Definition startRequest (c : Conn) (method : string) (params : any) : Conn * (Z * rpcMessage) :=
  let id := (nextID c + 1)%i64 in
  (c <| pending := pending c ∪ {[id]} |> <| nextID := id |>,
   (id, mkMessage (Some id) method (mustJSON params) EmptyString EmptyString)).

(** The write failed, or the read timeout fired first. *)
Definition forget (c : Conn) (id : Z) : Conn := c <| pending := pending c ∖ {[id]} |>.

Definition resolvePending (c : Conn) (id : Z) (msg : rpcMessage) : Conn :=
  if decide (id ∈ pending c)
  then c <| pending := pending c ∖ {[id]} |> <| inbox := <[id := msg]> (inbox c) |>
  else c.

(** What [Request] returns once the response is there. *)
Definition requestResult (method : string) (msg : rpcMessage) : RawMessage * option string :=
  if negb (bool_decide (Msg_Error msg = EmptyString)) && negb (bool_decide (Msg_Error msg = "null"%string))
  then (Msg_Result msg, Some ("codexclient: " +:+ method +:+ " error: " +:+ Msg_Error msg))
  else (Msg_Result msg, None).

(** What [Run] does with one message. *)
Inductive inbound :=
| InDropped
| InResponse (id : Z) (msg : rpcMessage)
| InRequest (id : Z) (method : string) (params : RawMessage)
| InNotification (method : string) (params : RawMessage).

Definition classify (data : string) : inbound :=
  match Unmarshal dMessage data zeroMessage with
  | (_, true) => InDropped
  | (msg, false) =>
    match Msg_ID msg with
    | Some id =>
      if decide (Msg_Method msg = EmptyString) then InResponse id msg
      else InRequest id (Msg_Method msg) (Msg_Params msg)
    | None =>
      if decide (Msg_Method msg = EmptyString) then InDropped
      else InNotification (Msg_Method msg) (Msg_Params msg)
    end
  end.

(** The part of an iteration of [Run] that touches the connection itself. *)
Definition receive (c : Conn) (data : string) : Conn :=
  match classify data with InResponse id msg => resolvePending c id msg | _ => c end.

(** ** transport_stdio.go *)

Definition maxStdioMessage : Z := 64 * 2 ^ 20.

(** What the writes of a side leave in the pipe, and what the reads of the
    other take from it. *)
Definition written (datas : list string) : string := bufio.unlines datas.
Definition readMessages (stream : string) : list string := (bufio.scan maxStdioMessage stream).1.1.

(** ** client.go *)

Definition initializeParams : any :=
  mapAny [("clientInfo", mapAny [("name", AStr "agent-reactor"); ("version", AStr "0")]);
          ("capabilities", mapAny [("experimentalApi", ABool true)])]%string.

Record ThreadOptions := mkThreadOptions {
  TO_ApprovalPolicy : string; TO_SandboxMode : string; TO_ServiceName : string }.
Record ResumeOptions := mkResumeOptions {
  RO_ThreadID : string; RO_RolloutPath : string; RO_Cwd : string }.
Record ThreadSession := mkThreadSession {
  TS_ThreadID : string; TS_SessionID : string; TS_RolloutPath : string; TS_Raw : RawMessage }.
Record TurnOptions := mkTurnOptions { Turn_ApprovalPolicy : string; Turn_SandboxPolicy : string }.

Definition startThreadParams (cwd : string) (dynamicTools : list any) (opts : ThreadOptions) : any :=
  mapAny (omitStr "cwd" cwd
    ++ match dynamicTools with [] => [] | _ => [("dynamicTools"%string, AArr dynamicTools)] end
    ++ omitStr "approvalPolicy" (TO_ApprovalPolicy opts)
    ++ omitStr "sandbox" (TO_SandboxMode opts)
    ++ omitStr "serviceName" (TO_ServiceName opts)).

Definition resumeThreadParams (opts : ResumeOptions) : any :=
  mapAny (omitStr "threadId" (RO_ThreadID opts) ++ omitStr "path" (RO_RolloutPath opts)
    ++ omitStr "cwd" (RO_Cwd opts)).

Definition startTurnParams (threadID startDir stdin : string) (opts : TurnOptions) : any :=
  mapAny (omitStr "threadId" threadID ++ omitStr "cwd" startDir ++ omitStr "message" stdin
    ++ omitStr "approvalPolicy" (Turn_ApprovalPolicy opts)
    ++ (if decide (Turn_SandboxPolicy opts = EmptyString) then []
        else [("sandboxPolicy", mapAny [("type", AStr (Turn_SandboxPolicy opts))])]%string)).

Definition StartTurn (threadID startDir stdin : string) (opts : TurnOptions) : rpcMessage :=
  Notify MethodTurnStart (startTurnParams threadID startDir stdin opts).

(** The payload of a reply to thread/start or thread/resume. *)
Record threadFields := mkThreadFields { T_ID : string; T_SessionID : string; T_Path : string }.
#[export] Instance eta_threadFields : Eta threadFields := fun t =>
  mkThreadFields (T_ID t) (T_SessionID t) (T_Path t).
Record threadPayload := mkThreadPayload {
  P_Thread : threadFields; P_ThreadID : string; P_SessionID : string; P_Path : string }.
#[export] Instance eta_threadPayload : Eta threadPayload := fun p =>
  mkThreadPayload (P_Thread p) (P_ThreadID p) (P_SessionID p) (P_Path p).

Definition dThreadFields : Decoder threadFields := dStruct
  [fld "id" T_ID dString; fld "sessionId" T_SessionID dString; fld "path" T_Path dString].
Definition dThreadPayload : Decoder threadPayload := dStruct
  [fld "thread" P_Thread dThreadFields; fld "threadId" P_ThreadID dString;
   fld "sessionId" P_SessionID dString; fld "path" P_Path dString].
Definition zeroPayload : threadPayload :=
  mkThreadPayload (mkThreadFields EmptyString EmptyString EmptyString) EmptyString EmptyString EmptyString.

Definition orElse (s d : string) : string := if decide (s = EmptyString) then d else s.

Definition decodeThreadSession (raw : RawMessage) : option ThreadSession :=
  match Unmarshal dThreadPayload raw zeroPayload with
  | (_, true) => None
  | (p, false) => Some (mkThreadSession (orElse (T_ID (P_Thread p)) (P_ThreadID p))
      (orElse (T_SessionID (P_Thread p)) (P_SessionID p)) (orElse (T_Path (P_Thread p)) (P_Path p)) raw)
  end.

(** ** server.go *)

Definition EmitThreadStarted (threadID cwd : string) : rpcMessage :=
  Notify MethodThreadStarted (mapAny [("thread", mapAny [("id", AStr threadID); ("cwd", AStr cwd)])]%string).
Definition EmitTurnStarted (threadID turnID : string) : rpcMessage :=
  Notify MethodTurnStarted (mapAny [("threadId", AStr threadID); ("turnId", AStr turnID)]%string).
Definition EmitTurnCompleted (threadID turnID text : string) : rpcMessage :=
  Notify MethodTurnCompleted
    (mapAny [("threadId", AStr threadID); ("turnId", AStr turnID); ("text", AStr text)]%string).
Definition EmitTurnFailed (threadID message : string) : rpcMessage :=
  Notify MethodError (mapAny [("threadId", AStr threadID); ("message", AStr message)]%string).
Definition EmitAgentMessageDelta (threadID delta : string) : rpcMessage :=
  Notify MethodItemAgentMessageDelta (mapAny [("threadId", AStr threadID); ("delta", AStr delta)]%string).
Definition EmitItemStarted (threadID turnID : string) (item : any) : rpcMessage :=
  Notify MethodItemStarted
    (mapAny [("threadId", AStr threadID); ("turnId", AStr turnID); ("item", item)]%string).
Definition EmitItemCompleted (threadID turnID : string) (item : any) : rpcMessage :=
  Notify MethodItemCompleted
    (mapAny [("threadId", AStr threadID); ("turnId", AStr turnID); ("item", item)]%string).
Definition EmitTokenUsage (threadID turnID : string) (last total : any) : rpcMessage :=
  Notify MethodThreadTokenUsageUpdated
    (mapAny [("threadId", AStr threadID); ("turnId", AStr turnID);
             ("tokenUsage", mapAny [("last", last); ("total", total); ("modelContextWindow", ANull)])]%string).
End codexclient.

(** * JSON-RPC: messages survive the wire, responses reach their requests *)

Open Scope Z_scope.

Import json marshal codexclient.

(** ** Messages *)

(** A raw field: absent, or written by [mustJSON]. *)
Definition rawField (raw : RawMessage) : Prop :=
  raw = EmptyString \/ exists n a, (n < maxNestingDepth)%nat /\ wf n a /\ raw = text a.

Record sendable (m : rpcMessage) : Prop := {
  s_id : from_option in_int64 True (Msg_ID m);
  s_params : rawField (Msg_Params m);
  s_result : rawField (Msg_Result m);
  s_error : rawField (Msg_Error m);
}.

Lemma wf_omitStr n name s : Forall (fun m => wf n m.2) (omitStr name s).
Proof. unfold omitStr. case_decide; repeat constructor. Qed.

Lemma wf_omitRaw name raw : rawField raw ->
  Forall (fun m => wf (Nat.pred maxNestingDepth) m.2) (omitRaw name raw).
Proof.
  intros H. unfold omitRaw. case_decide as E; [constructor|].
  destruct H as [|(n & a & Hn & Ha & ->)]; [done|]. repeat constructor.
  eapply wf_le; [exact Ha|]. lia.
Qed.

Lemma messageAny_wf m : sendable m -> wf maxNestingDepth (messageAny m).
Proof.
  intros H. unfold messageAny. assert (0 < maxNestingDepth)%nat by (unfold maxNestingDepth; lia).
  destruct maxNestingDepth as [|n] eqn:E; [lia|]. constructor.
  assert (forall name raw, rawField raw -> Forall (fun m => wf n m.2) (omitRaw name raw)) as Hr.
  { intros. pose proof (wf_omitRaw name raw) as W. rewrite E in W. by apply W. }
  repeat apply Forall_app_2; try apply wf_omitStr; try (apply Hr, H).
  destruct (Msg_ID m); repeat constructor.
Qed.

Lemma rawField_compact raw : rawField raw -> compact raw = raw.
Proof. intros [->|(n & a & _ & Ha & ->)]; [done|]. by eapply compact_text. Qed.

(** A message as the other side reads it: invalid bytes of its method are
    replaced, nothing else changes. *)
Definition received (m : rpcMessage) : rpcMessage := m <| Msg_Method := ToValid (Msg_Method m) |>.

Lemma dMessage_text m : sendable m ->
  Unmarshal dMessage (text (messageAny m)) zeroMessage = (received m, false).
Proof.
  intros H. pose proof (messageAny_wf m H) as Hw. unfold dMessage, messageAny in *.
  rewrite (Unmarshal_obj _ _ _ _ Hw) by done. clear Hw. rewrite !enc_app.
  erewrite store_then.
  2: { instantiate (1 := zeroMessage <| Msg_ID := Msg_ID m |>).
       pose proof (s_id _ H) as Hi. destruct (Msg_ID m) as [id|]; [|done].
       eapply store_member; [done|]. unfold dPtr, dInt. cbn [snd valueOf].
       by rewrite strconv.Atoi_Itoa. }
  erewrite store_then by (apply (store_omitStr _ "method" Msg_Method); done).
  erewrite store_then by (apply (store_omitRaw _ "params" Msg_Params); [done|done|apply rawField_compact, H]).
  erewrite store_then by (apply (store_omitRaw _ "result" Msg_Result); [done|done|apply rawField_compact, H]).
  erewrite (store_omitRaw _ "error" Msg_Error); [done|done|done|apply rawField_compact, H].
Qed.

(** What [Run] makes of a message that was written. *)
Lemma classify_written m data : sendable m -> writeMsg m = Some data ->
  classify data =
    match Msg_ID m with
    | Some id => if decide (ToValid (Msg_Method m) = EmptyString) then InResponse id (received m)
                 else InRequest id (ToValid (Msg_Method m)) (Msg_Params m)
    | None => if decide (ToValid (Msg_Method m) = EmptyString) then InDropped
              else InNotification (ToValid (Msg_Method m)) (Msg_Params m)
    end.
Proof.
  intros H E. unfold writeMsg in E. rewrite (Marshal_wf _ _ (messageAny_wf m H)) in E by done.
  assert (data = text (messageAny m)) as -> by congruence. unfold classify. by rewrite dMessage_text.
Qed.

Lemma writeMsg_sendable m : sendable m -> writeMsg m = Some (text (messageAny m)).
Proof. intros H. apply (Marshal_wf maxNestingDepth); [by apply messageAny_wf|done]. Qed.

Lemma mustJSON_wf n a : wf n a -> (n < maxNestingDepth)%nat -> rawField (mustJSON a) /\ mustJSON a = text a.
Proof.
  intros Ha Hn. assert (mustJSON a = text a) as E.
  { unfold mustJSON. rewrite (Marshal_wf n) by (done || lia). done. }
  split; [|done]. right. exists n, a. by rewrite E.
Qed.

Lemma Notify_sendable n method a : wf n a -> (n < maxNestingDepth)%nat -> sendable (Notify method a).
Proof. intros Ha Hn. split; cbn; [done|by apply (mustJSON_wf n)|by left..]. Qed.
Lemma Reply_sendable n id a : in_int64 id -> wf n a -> (n < maxNestingDepth)%nat -> sendable (Reply id a).
Proof. intros Hid Ha Hn. split; cbn; [done|by left|by apply (mustJSON_wf n)|by left]. Qed.

(** ** Framing *)

Lemma printable_drop n s : printable s -> printable (Strings.str_drop n s).
Proof. revert s. induction n as [|n IH]; intros [|c s]; try done. intros [_ H]. by apply IH. Qed.

Lemma printable_dropCR s : printable s -> bufio.dropCR s = s.
Proof.
  intros H. unfold bufio.dropCR, Strings.TrimSuffix, Strings.HasSuffix.
  destruct (bool_decide (Strings.str_drop _ s = _)) eqn:E; [|by rewrite andb_false_r].
  apply bool_decide_eq_true in E. apply (printable_drop (String.length s - String.length (String.String "013"%char EmptyString))) in H.
  rewrite E in H. by destruct H.
Qed.

(** A marshalled message that fits the read buffer. *)
Definition framed (data : string) : Prop := printable data /\ bufio.len data < maxStdioMessage.

Lemma read_written datas : Forall framed datas -> readMessages (written datas) = datas.
Proof.
  intros H. unfold readMessages, written. rewrite bufio.scan_lines.
  - cbn [fst]. induction H as [|d datas [Hd _] _ IH]; [done|]. cbn [map]. by rewrite printable_dropCR, IH.
  - eapply Forall_impl; [exact H|]. intros d [Hp Hl]. split; [by apply printable_line|done].
Qed.

Lemma framed_written ms datas :
  Forall sendable ms -> Forall2 (fun m d => writeMsg m = Some d) ms datas ->
  Forall (fun d => bufio.len d < maxStdioMessage) datas -> Forall framed datas.
Proof.
  intros Hs Hw Hl. induction Hw as [|m d ms datas Hm _ IH]; [constructor|].
  apply Forall_cons in Hs as [Hs1 Hs], Hl as [Hl1 Hl]. constructor; [|by apply IH]. split; [|done].
  rewrite writeMsg_sendable in Hm by done. assert (d = text (messageAny m)) as -> by congruence.
  eapply printable_text, messageAny_wf, Hs1.
Qed.

(** ** Requests and responses

    What the goroutines around a connection do to it, in any order. *)

Inductive connOp :=
| OpRequest (method : string) (params : any)
| OpForget (id : Z)
| OpReceive (data : string).

Definition connStep (c : Conn) (op : connOp) : Conn :=
  match op with
  | OpRequest method params => (startRequest c method params).1
  | OpForget id => forget c id
  | OpReceive data => receive c data
  end.
Definition connRun (ops : list connOp) : Conn := foldl connStep NewConn ops.

Fixpoint requests (ops : list connOp) : Z :=
  match ops with
  | [] => 0
  | OpRequest _ _ :: ops => 1 + requests ops
  | _ :: ops => requests ops
  end.

(** Every id in use was handed out, and none both waits and is answered. *)
Record connOk (n : Z) (c : Conn) : Prop := {
  co_next : nextID c = n;
  co_pending : forall id, id ∈ pending c -> 1 <= id <= n;
  co_inbox : forall id, is_Some (inbox c !! id) -> 1 <= id <= n;
  co_once : forall id, is_Some (inbox c !! id) -> id ∉ pending c;
}.

Lemma NewConn_ok : connOk 0 NewConn.
Proof. split; unfold NewConn; simpl; [done|by intros id Hid%elem_of_empty|intros id [x Hx]; by rewrite lookup_empty in Hx..]. Qed.

Lemma resolve_ok n c id msg : connOk n c -> connOk n (resolvePending c id msg).
Proof.
  intros H. unfold resolvePending. case_decide as E; [|done]. split; cbn.
  - apply H.
  - intros i Hi. apply H. set_solver.
  - intros i. destruct (decide (i = id)) as [->|]; [intros; by apply H|].
    rewrite lookup_insert_ne by done. apply H.
  - intros i. destruct (decide (i = id)) as [->|]; [set_solver|].
    rewrite lookup_insert_ne by done. intros Hi. apply (co_once _ _ H) in Hi. set_solver.
Qed.

Lemma connStep_ok n c op : connOk n c -> 0 <= n -> n + requests [op] <= int64_max ->
  connOk (n + requests [op]) (connStep c op).
Proof.
  intros H Hn Hmax. destruct op as [method params|id|data]; cbn [requests] in *; rewrite ?Z.add_0_r in *.
  - unfold connStep, startRequest. cbn [fst]. rewrite (co_next _ _ H).
    rewrite wrap64_id by (unfold in_int64, int64_min, int64_max in *; lia). split; cbn.
    + lia.
    + intros i [Hi| ->%elem_of_singleton]%elem_of_union; [|lia].
      apply (co_pending _ _ H) in Hi. lia.
    + intros i Hi. apply (co_inbox _ _ H) in Hi. lia.
    + intros i Hi. pose proof (co_inbox _ _ H _ Hi). apply (co_once _ _ H) in Hi.
      intros [?| ->%elem_of_singleton]%elem_of_union; [done|lia].
  - split; cbn; [apply H|intros i Hi; apply H; set_solver|apply H|].
    intros i Hi. apply (co_once _ _ H) in Hi. set_solver.
  - unfold connStep, receive. destruct (classify data); try done. by apply resolve_ok.
Qed.

Lemma connSteps_ok ops : forall n c, connOk n c -> 0 <= n -> n + requests ops <= int64_max ->
  connOk (n + requests ops) (foldl connStep c ops).
Proof.
  induction ops as [|op ops IH]; intros n c H Hn Hmax; cbn [foldl requests].
  - by rewrite Z.add_0_r.
  - assert (requests (op :: ops) = requests [op] + requests ops) as E by (destruct op; cbn; lia).
    assert (forall l, 0 <= requests l) as Hpos
      by (intros l; induction l as [|[] l IHl]; cbn [requests]; lia).
    pose proof (Hpos ops). pose proof (Hpos [op]).
    change (match op with OpRequest _ _ => _ | _ => _ end) with (requests (op :: ops)). rewrite E, Z.add_assoc.
    apply IH; [apply connStep_ok; [done|done|lia]|lia|lia].
Qed.

(** A response that was delivered stays, and nothing is delivered to a request
    that is not waiting. *)
Lemma connStep_inbox n c op id msg : connOk n c -> inbox c !! id = Some msg ->
  inbox (connStep c op) !! id = Some msg.
Proof.
  intros H Hi. destruct op as [method params|i|data]; [done..|].
  unfold connStep, receive, resolvePending. destruct (classify data) as [|i m| |]; try done.
  case_decide as E; [|done]. cbn. rewrite lookup_insert_ne; [done|]. intros ->.
  by eapply (co_once _ _ H).
Qed.

Lemma connStep_delivers c op id msg :
  inbox (connStep c op) !! id = Some msg -> inbox c !! id = None ->
  exists data, op = OpReceive data /\ classify data = InResponse id msg /\ id ∈ pending c.
Proof.
  intros H Hn. destruct op as [method params|i|data]; cbn in H; [congruence..|].
  unfold receive, resolvePending in H. destruct (classify data) as [|i m| |] eqn:E; try congruence.
  case_decide as Ei; [|congruence]. cbn in H. apply lookup_insert_Some in H as [[-> ->]|[_ H]]; [|congruence].
  by exists data.
Qed.

Lemma requests_nonneg ops : 0 <= requests ops.
Proof. induction ops as [|[] ops IH]; cbn [requests]; lia. Qed.
Lemma requests_app a b : requests (a ++ b) = requests a + requests b.
Proof. induction a as [|[] a IH]; cbn [app requests]; lia. Qed.

Lemma connSteps_inbox ops : forall n c id msg, connOk n c -> 0 <= n -> n + requests ops <= int64_max ->
  inbox c !! id = Some msg -> inbox (foldl connStep c ops) !! id = Some msg.
Proof.
  induction ops as [|op ops IH]; intros n c id msg H Hn Hmax Hi; [done|]. cbn [foldl].
  change (op :: ops) with ([op] ++ ops) in Hmax. rewrite requests_app in Hmax.
  pose proof (requests_nonneg [op]). pose proof (requests_nonneg ops).
  apply (IH (n + requests [op])); [apply connStep_ok; done || lia|lia|lia|].
  by apply (connStep_inbox n).
Qed.
