(* ===== verification/StreamJson.v ===== *)
(** * platform/lib/claude: the stream of a claude process

    [streamjson] parses what [claude -p --output-format stream-json] prints;
    [AppServerArgs] of [cli/argv.go] is its command line. *)

From S2P Require Import Prelude GoStd GoText GoJson GoIO.
Open Scope Z_scope.

Module streamjson.
Import json.

(** ** streamjson.go *)

Record Usage := mkUsage { InputTokens : Z; OutputTokens : Z; TotalTokens : Z }.
#[export] Instance eta_Usage : Eta Usage := fun u => mkUsage (InputTokens u) (OutputTokens u) (TotalTokens u).
Definition zeroUsage : Usage := mkUsage 0 0 0.

Definition Total (u : Usage) : Z :=
  if 0 <? TotalTokens u then TotalTokens u else (InputTokens u + OutputTokens u)%i64.

Record ToolUse := mkToolUse { TU_ID : string; TU_Name : string; TU_Input : RawMessage }.
Record ToolResult := mkToolResult { TR_ToolUseID : string; TR_IsError : bool; TR_Content : string }.

Inductive Event :=
| SystemInit (SessionID : string)
| AssistantMessage (Text : string) (ToolUses : list ToolUse)
| EvToolResult (r : ToolResult)
| ToolResults (Results : list ToolResult)
| Result (Subtype ResultText : string) (IsError : bool) (U : Usage)
| Unknown (Type_ : string).

(** ** parse.go *)

Record head := mkHead { H_Type : string; H_Subtype : string }.
#[export] Instance eta_head : Eta head := fun h => mkHead (H_Type h) (H_Subtype h).
Definition dHead : Decoder head := dStruct [fld "type" H_Type dString; fld "subtype" H_Subtype dString].

Record initLine := mkInitLine { I_SessionID : string }.
#[export] Instance eta_initLine : Eta initLine := fun i => mkInitLine (I_SessionID i).
Definition dInitLine : Decoder initLine := dStruct [fld "session_id" I_SessionID dString].

Record assistantBlock := mkAssistantBlock {
  AB_Type : string; AB_Text : string; AB_ID : string; AB_Name : string; AB_Input : RawMessage }.
#[export] Instance eta_assistantBlock : Eta assistantBlock := fun b =>
  mkAssistantBlock (AB_Type b) (AB_Text b) (AB_ID b) (AB_Name b) (AB_Input b).
Definition zeroAssistantBlock : assistantBlock :=
  mkAssistantBlock EmptyString EmptyString EmptyString EmptyString EmptyString.
Definition dAssistantBlock : Decoder assistantBlock := dStruct
  [fld "type" AB_Type dString; fld "text" AB_Text dString; fld "id" AB_ID dString;
   fld "name" AB_Name dString; fld "input" AB_Input dRaw].

Record userBlock := mkUserBlock { UB_Type : string; UB_ToolUseID : string; UB_IsError : bool; UB_Content : string }.
#[export] Instance eta_userBlock : Eta userBlock := fun b =>
  mkUserBlock (UB_Type b) (UB_ToolUseID b) (UB_IsError b) (UB_Content b).
Definition zeroUserBlock : userBlock := mkUserBlock EmptyString EmptyString false EmptyString.
Definition dUserBlock : Decoder userBlock := dStruct
  [fld "type" UB_Type dString; fld "tool_use_id" UB_ToolUseID dString; fld "is_error" UB_IsError dBool;
   fld "content" UB_Content dString].

(** [{"message": {"content": [...]}}] with blocks of either kind. *)
Record contentOf (B : Type) := mkContent { Content : list B }.
Arguments mkContent {B} _.
Arguments Content {B} _.
#[export] Instance eta_contentOf {B} : Eta (contentOf B) := fun c => mkContent (Content c).
Record messageOf (B : Type) := mkMessageOf { Message : option (contentOf B) }.
Arguments mkMessageOf {B} _.
Arguments Message {B} _.
#[export] Instance eta_messageOf {B} : Eta (messageOf B) := fun m => mkMessageOf (Message m).
Definition dMessageOf {B} (zero : B) (d : Decoder B) : Decoder (messageOf B) := dStruct
  [fld "message" Message (dPtr (mkContent []) (dStruct [fld "content" Content (dSlice zero d)]))].

Record resultLine := mkResultLine {
  R_Subtype : string; R_Result : string; R_IsError : bool; R_Usage : option Usage }.
#[export] Instance eta_resultLine : Eta resultLine := fun r =>
  mkResultLine (R_Subtype r) (R_Result r) (R_IsError r) (R_Usage r).
Definition dUsage : Decoder Usage := dStruct
  [fld "input_tokens" InputTokens dInt; fld "output_tokens" OutputTokens dInt; fld "total_tokens" TotalTokens dInt].
Definition dResultLine : Decoder resultLine := dStruct
  [fld "subtype" R_Subtype dString; fld "result" R_Result dString; fld "is_error" R_IsError dBool;
   fld "usage" R_Usage (dPtr zeroUsage dUsage)].

(** [inr tt] is an error. *)
Definition parseSystem (line subtype : string) : Event + () :=
  if decide (subtype <> "init"%string) then inl (Unknown "system")
  else match Unmarshal dInitLine line (mkInitLine EmptyString) with
       | (_, true) => inr ()
       | (v, false) => inl (SystemInit (I_SessionID v))
       end.

Definition blockTexts (bs : list assistantBlock) : list string :=
  omap (fun b => if bool_decide (AB_Type b = "text"%string) && negb (bool_decide (AB_Text b = EmptyString))
                 then Some (AB_Text b) else None) bs.
Definition blockTools (bs : list assistantBlock) : list ToolUse :=
  omap (fun b => if bool_decide (AB_Type b = "tool_use"%string)
                 then Some (mkToolUse (AB_ID b) (AB_Name b) (AB_Input b)) else None) bs.

Definition parseAssistant (line : string) : Event + () :=
  match Unmarshal (dMessageOf zeroAssistantBlock dAssistantBlock) line (mkMessageOf None) with
  | (_, true) => inr ()
  | (v, false) =>
    match Message v with
    | None => inl (AssistantMessage EmptyString [])
    | Some c => inl (AssistantMessage (foldr String.append EmptyString (blockTexts (Content c)))
                       (blockTools (Content c)))
    end
  end.

Definition blockResults (bs : list userBlock) : list ToolResult :=
  omap (fun b => if bool_decide (UB_Type b = "tool_result"%string)
                 then Some (mkToolResult (UB_ToolUseID b) (UB_IsError b) (UB_Content b)) else None) bs.

Definition parseUser (line : string) : Event + () :=
  match Unmarshal (dMessageOf zeroUserBlock dUserBlock) line (mkMessageOf None) with
  | (_, true) => inr ()
  | (v, false) =>
    match Message v with
    | None => inl (Unknown "user")
    | Some c =>
      match blockResults (Content c) with
      | [] => inl (Unknown "user")
      | [r] => inl (EvToolResult r)
      | rs => inl (ToolResults rs)
      end
    end
  end.

Definition parseResult (line : string) : Event + () :=
  match Unmarshal dResultLine line (mkResultLine EmptyString EmptyString false None) with
  | (_, true) => inr ()
  | (v, false) => inl (Result (R_Subtype v) (R_Result v) (R_IsError v) (default zeroUsage (R_Usage v)))
  end.

(** [bytes.TrimSpace(line)] is empty. *)
Definition blank (line : string) : bool := bool_decide (Strings.TrimSpace line = EmptyString).

Definition Parse (line : string) : option Event + () :=
  if blank line then inl None
  else
    match Unmarshal dHead line (mkHead EmptyString EmptyString) with
    | (_, true) => inr ()
    | (h, false) =>
      match
        (if decide (H_Type h = "system"%string) then parseSystem line (H_Subtype h)
         else if decide (H_Type h = "assistant"%string) then parseAssistant line
         else if decide (H_Type h = "user"%string) then parseUser line
         else if decide (H_Type h = "result"%string) then parseResult line
         else inl (Unknown (H_Type h)))
      with
      | inl ev => inl (Some ev)
      | inr tt => inr ()
      end
    end.

(** ** scanner.go *)

Definition maxLine : Z := 64 * 2 ^ 20.

(** The events of the lines of a stream, and the number of lines skipped. *)
Fixpoint scanLines (lines : list string) : list Event * Z :=
  match lines with
  | [] => ([], 0)
  | l :: lines =>
    let '(evs, skipped) := scanLines lines in
    match Parse l with
    | inr tt => (evs, (1 + skipped)%i64)
    | inl None => (evs, skipped)
    | inl (Some ev) => (ev :: evs, skipped)
    end
  end.
Definition Scan (stdout : string) : list Event * Z := scanLines (bufio.scan maxLine stdout).1.1.
End streamjson.

Module claudeargs.

(** ** cli/argv.go: a non-interactive turn *)

Definition AppServerArgs (resumeSessionID appendSystemPrompt prompt : string) : list string :=
  ["-p"; "--output-format"; "stream-json"; "--verbose"]%string
  ++ (if decide (appendSystemPrompt <> EmptyString)
      then ["--append-system-prompt"%string; appendSystemPrompt] else [])
  ++ (if decide (resumeSessionID <> EmptyString) then ["--resume"%string; resumeSessionID] else [])
  ++ [prompt].
End claudeargs.
