(* ===== verification/AppServer.v ===== *)
(** * cmd/claude-app-server: a claude process behind the codex protocol

    [server.go], [turn.go], [toolbridge.go] and [dynamictool.go].  The shim
    serves thread/start and turn/start by running claude and translating its
    stream.  Fresh ids come from [newID] (UUIDs), numbered; [launch] is the
    claude process: what it prints and how it ends, or why it did not start;
    [listen] is the outcome of opening the socket of the tool bridge.  Writing
    to the connection may fail: [wok] says which messages go out. *)

From S2P Require Import Prelude GoStd GoText GoJson GoMarshal GoIO CodexConn StreamJson.
Open Scope Z_scope.

Module appserver.
Import json marshal codexclient.

(** ** dynamictool.go *)

Record dynToolSpec := mkDynTool { DT_Name : string; DT_Description : string; DT_InputSchema : RawMessage }.
#[export] Instance eta_dynToolSpec : Eta dynToolSpec := fun t =>
  mkDynTool (DT_Name t) (DT_Description t) (DT_InputSchema t).
Definition zeroDynTool : dynToolSpec := mkDynTool EmptyString EmptyString EmptyString.
Definition dDynTool : Decoder dynToolSpec := dStruct
  [fld "name" DT_Name dString; fld "description" DT_Description dString; fld "inputSchema" DT_InputSchema dRaw].

Section prompt.
Local Open Scope string_scope.
Definition nl : string := String.String "010"%char "".

Definition toolPrompt (t : dynToolSpec) : string :=
  "## " +:+ DT_Name t +:+ nl +:+ DT_Description t +:+ nl
  +:+ (if decide (DT_InputSchema t = "") then ""
       else "Input schema (JSON Schema):" +:+ nl +:+ "```json" +:+ nl +:+ DT_InputSchema t +:+ nl +:+ "```" +:+ nl)
  +:+ nl +:+ "## How to call" +:+ nl
  +:+ "Use your Bash tool to run: `" +:+ DT_Name t +:+ " '<json-arguments>'`" +:+ nl +:+ nl
  +:+ "Pass the JSON arguments matching the input schema as a single quoted string. "
  +:+ "The tool writes the result to stdout." +:+ nl +:+ nl.

Definition buildCLISystemPrompt (tools : list dynToolSpec) : string :=
  match tools with
  | [] => ""
  | _ =>
    "# External tools" +:+ nl +:+ nl
    +:+ "You have access to CLI tools in your PATH that let you interact with "
    +:+ "external services. They run outside your sandbox; you never see their credentials." +:+ nl +:+ nl
    +:+ "Available external tools:" +:+ nl +:+ nl
    +:+ foldr (fun t s => toolPrompt t +:+ s) "" tools
  end.
End prompt.

(** ** turn.go *)

Record turnReq := mkTurnReq {
  TR_threadID : string; TR_cwd : string; TR_prompt : string;
  TR_approvalPolicy : string; TR_sandboxPolicy : string;
}.

Record turnRunner := mkTurnRunner {
  threads : gmap string string;
  cumUsage : gmap string streamjson.Usage;
  dynTools : gmap string (list dynToolSpec);
  issued : Z; (** ids taken from [newID] so far *)
}.
#[export] Instance eta_turnRunner : Eta turnRunner := fun r =>
  mkTurnRunner (threads r) (cumUsage r) (dynTools r) (issued r).

Record turnStartParams := mkTurnStartParams {
  TP_ThreadID : string; TP_CWD : string; TP_Message : string;
  TP_ApprovalPolicy : RawMessage; TP_SandboxPolicy : RawMessage }.
#[export] Instance eta_turnStartParams : Eta turnStartParams := fun p =>
  mkTurnStartParams (TP_ThreadID p) (TP_CWD p) (TP_Message p) (TP_ApprovalPolicy p) (TP_SandboxPolicy p).
Definition dTurnStart : Decoder turnStartParams := dStruct
  [fld "threadId" TP_ThreadID dString; fld "cwd" TP_CWD dString; fld "message" TP_Message dString;
   fld "approvalPolicy" TP_ApprovalPolicy dRaw; fld "sandboxPolicy" TP_SandboxPolicy dRaw].

Definition parseTurnStart (params : RawMessage) : turnReq :=
  let p := (Unmarshal dTurnStart params
    (mkTurnStartParams EmptyString EmptyString EmptyString EmptyString EmptyString)).1 in
  mkTurnReq (TP_ThreadID p) (TP_CWD p) (TP_Message p) (TP_ApprovalPolicy p) (TP_SandboxPolicy p).

Definition addUsage (a b : streamjson.Usage) : streamjson.Usage :=
  let i := (streamjson.InputTokens a + streamjson.InputTokens b)%i64 in
  let o := (streamjson.OutputTokens a + streamjson.OutputTokens b)%i64 in
  streamjson.mkUsage i o (i + o)%i64.

Definition usageBreakdown (u : streamjson.Usage) : any :=
  mapAny [("inputTokens", AInt (streamjson.InputTokens u)); ("outputTokens", AInt (streamjson.OutputTokens u));
          ("totalTokens", AInt (streamjson.Total u)); ("cachedInputTokens", AInt 0);
          ("reasoningOutputTokens", AInt 0)]%string.

Section runner.
Context (newID : Z -> string).
Context (launch : string -> string -> string -> string -> list string -> (string * option string) + string).
Context (listen : string -> option string).
Context (wok : rpcMessage -> bool).

(** [r.emit]: the message goes out, or the write fails. *)
Definition emit (m : rpcMessage) : list rpcMessage := if wok m then [m] else [].

Definition freshID (r : turnRunner) : turnRunner * string :=
  (r <| issued := issued r + 1 |>, newID (issued r)).

Definition startThread (r : turnRunner) (tools : list dynToolSpec) : turnRunner * string :=
  let '(r, threadID) := freshID r in
  (r <| dynTools := <[threadID := tools]> (dynTools r) |>, threadID).

(** *** scanStream *)

Definition toolItem (id name : string) (input : RawMessage) : any :=
  mapAny [("id", AStr id); ("type", AStr "dynamicToolCall"); ("tool", AStr name); ("arguments", ARaw input)]%string.

Definition emitToolResult (threadID turnID : string) (toolNames : gmap string string) (tr : streamjson.ToolResult)
    : list rpcMessage :=
  emit (EmitItemCompleted threadID turnID
    (mapAny [("id", AStr (streamjson.TR_ToolUseID tr)); ("type", AStr "dynamicToolCall");
             ("tool", AStr (default "" (toolNames !! streamjson.TR_ToolUseID tr)));
             ("status", AStr (if streamjson.TR_IsError tr then "failed" else "completed"));
             ("output", AStr (streamjson.TR_Content tr))]%string)).

Record turnScanResult := mkScanResult {
  resultReceived : bool; isError : bool; resultText : string; usage : streamjson.Usage }.
Definition zeroScan : turnScanResult := mkScanResult false false EmptyString streamjson.zeroUsage.

Fixpoint scanEvents (threadID turnID : string) (evs : list streamjson.Event) (toolNames : gmap string string)
    (r : turnRunner) (out : turnScanResult) : turnRunner * turnScanResult * list rpcMessage :=
  match evs with
  | [] => (r, out, [])
  | ev :: evs =>
    let '(r, toolNames, out, sent) :=
      match ev with
      | streamjson.SystemInit sid => (r <| threads := <[threadID := sid]> (threads r) |>, toolNames, out, [])
      | streamjson.AssistantMessage text tus =>
        (r, foldl (fun m tu => <[streamjson.TU_ID tu := streamjson.TU_Name tu]> m) toolNames tus, out,
         (if decide (text = EmptyString) then [] else emit (EmitAgentMessageDelta threadID text))
         ++ mjoin (map (fun tu => emit (EmitItemStarted threadID turnID
              (toolItem (streamjson.TU_ID tu) (streamjson.TU_Name tu) (streamjson.TU_Input tu)))) tus))
      | streamjson.EvToolResult tr => (r, toolNames, out, emitToolResult threadID turnID toolNames tr)
      | streamjson.ToolResults trs =>
        (r, toolNames, out, mjoin (map (emitToolResult threadID turnID toolNames) trs))
      | streamjson.Result _ text isErr u => (r, toolNames, mkScanResult true isErr text u, [])
      | streamjson.Unknown _ => (r, toolNames, out, [])
      end in
    let '(r, out, more) := scanEvents threadID turnID evs toolNames r out in (r, out, sent ++ more)
  end.

Definition scanStream (threadID turnID stdout : string) (r : turnRunner)
    : turnRunner * turnScanResult * list rpcMessage :=
  scanEvents threadID turnID (streamjson.Scan stdout).1 ∅ r zeroScan.

(** *** The turn *)

Definition completeTurn (threadID turnID sessionID : string) (u : streamjson.Usage) (text : string) (r : turnRunner)
    : turnRunner * list rpcMessage :=
  let cum := addUsage (default streamjson.zeroUsage (cumUsage r !! threadID)) u in
  (r <| cumUsage := <[threadID := cum]> (cumUsage r) |>,
   emit (EmitTokenUsage threadID turnID (usageBreakdown u) (usageBreakdown cum))
   ++ emit (Notify MethodTurnCompleted
        (mapAny [("threadId", AStr threadID); ("turnId", AStr turnID); ("sessionId", AStr sessionID);
                 ("text", AStr text)]%string))).

Definition runTurnLoop (threadID turnID sessionID cwd prompt sysPrompt : string) (bridge : option string)
    (r : turnRunner) : turnRunner * list rpcMessage :=
  let extraEnv := match bridge with Some sock => ["TOOL_BRIDGE_SOCKET=" +:+ sock] | None => [] end in
  let resumeID := default EmptyString (threads r !! threadID) in
  match launch cwd resumeID sysPrompt prompt extraEnv with
  | inr err => (r, emit (EmitTurnFailed threadID err))
  | inl (stdout, werr) =>
    let '(r, scan, sent) := scanStream threadID turnID stdout r in
    if negb (resultReceived scan) then
      let msg := match werr with
        | Some err => "claude exited: " +:+ err
        | None => "claude exited without emitting a result"%string
        end in
      (r, sent ++ emit (EmitTurnFailed threadID msg))
    else if isError scan then (r, sent ++ emit (EmitTurnFailed threadID (resultText scan)))
    else let '(r, more) := completeTurn threadID turnID sessionID (usage scan) (resultText scan) r in
         (r, sent ++ more)
  end.

(** socketPathFor and newToolBridge, up to the outcome of [net.Listen]. *)
Definition socketPathFor (id : string) : string :=
  match id with
  | String.String c _ => if decide (c = "/"%char) then id else "/tmp/tool-bridge-" +:+ id +:+ ".sock"
  | EmptyString => "/tmp/tool-bridge-.sock"%string
  end.

Definition runTurn (r : turnRunner) (req : turnReq) : turnRunner * list rpcMessage :=
  let isNewThread := bool_decide (TR_threadID req = EmptyString) in
  let '(r, threadID) := if isNewThread then freshID r else (r, TR_threadID req) in
  let '(r, turnID) := freshID r in
  let sessionID := threadID +:+ "-" +:+ turnID in
  let started := EmitThreadStarted threadID (TR_cwd req) in
  if isNewThread && negb (wok started) then (r, [])
  else
    let sent := if isNewThread then [started] else [] in
    let turnStarted := Notify MethodTurnStarted
      (mapAny [("threadId", AStr threadID); ("turnId", AStr turnID); ("sessionId", AStr sessionID)]%string) in
    if negb (wok turnStarted) then (r, sent)
    else
      let sent := sent ++ [turnStarted] in
      let tools := default [] (dynTools r !! threadID) in
      let sysPrompt := buildCLISystemPrompt tools in
      match tools with
      | [] =>
        let '(r, more) := runTurnLoop threadID turnID sessionID (TR_cwd req) (TR_prompt req) sysPrompt None r in
        (r, sent ++ more)
      | _ =>
        let '(r, id) := freshID r in
        let sock := socketPathFor id in
        match listen sock with
        | Some err => (r, sent ++ emit (EmitTurnFailed threadID ("tool bridge listen: " +:+ err)))
        | None =>
          let '(r, more) := runTurnLoop threadID turnID sessionID (TR_cwd req) (TR_prompt req) sysPrompt (Some sock) r in
          (r, sent ++ more)
        end
      end.

(** ** server.go *)

Record threadStart := mkThreadStart { TS_CWD : string; TS_DynamicTools : list dynToolSpec }.
#[export] Instance eta_threadStart : Eta threadStart := fun p => mkThreadStart (TS_CWD p) (TS_DynamicTools p).
Definition dThreadStart : Decoder threadStart := dStruct
  [fld "cwd" TS_CWD dString; fld "dynamicTools" TS_DynamicTools (dSlice zeroDynTool dDynTool)].
Record threadResume := mkThreadResume { TRe_ThreadID : string; TRe_CWD : string }.
#[export] Instance eta_threadResume : Eta threadResume := fun p => mkThreadResume (TRe_ThreadID p) (TRe_CWD p).
Definition dThreadResume : Decoder threadResume := dStruct
  [fld "threadId" TRe_ThreadID dString; fld "cwd" TRe_CWD dString].

(** [initializeResponse] reports the platform; its content is given.  [graphic] is
    what [%q] asks of the unicode tables. *)
Definition OnServerRequest (graphic : Z -> bool) (initializeResponse : any) (r : turnRunner) (id : Z) (method : string) (params : RawMessage)
    : turnRunner * list rpcMessage :=
  if decide (method = MethodInitialize) then (r, emit (Reply id initializeResponse))
  else if decide (method = MethodThreadStart) then
    let p := (Unmarshal dThreadStart params (mkThreadStart EmptyString [])).1 in
    let '(r, threadID) := startThread r (TS_DynamicTools p) in
    (r, emit (EmitThreadStarted threadID (TS_CWD p))
        ++ emit (Reply id (mapAny [("thread", mapAny [("id", AStr threadID)])]%string)))
  else if decide (method = MethodThreadResume) then
    let p := (Unmarshal dThreadResume params (mkThreadResume EmptyString EmptyString)).1 in
    (r, emit (Reply id (mapAny [("threadId", AStr (TRe_ThreadID p)); ("cwd", AStr (TRe_CWD p));
                                ("claudeSessionId", AStr (default "" (threads r !! TRe_ThreadID p)))]%string)))
  else (r, emit (ReplyError id ("method " +:+ strconv.Quote graphic method +:+ " not implemented"))).

(** The turn queue holds eight requests. *)
Definition turnQueue : nat := 8.
Definition OnNotification (queue : list turnReq) (method : string) (params : RawMessage) : list turnReq :=
  if decide (method = MethodTurnStart) then
    if (length queue <? turnQueue)%nat then queue ++ [parseTurnStart params] else queue
  else queue.
End runner.

(** ** toolbridge.go *)

Record bridgeReq := mkBridgeReq { BR_Tool : string; BR_Arguments : RawMessage }.
#[export] Instance eta_bridgeReq : Eta bridgeReq := fun b => mkBridgeReq (BR_Tool b) (BR_Arguments b).
Definition dBridgeReq : Decoder bridgeReq := dStruct
  [fld "tool" BR_Tool dString; fld "arguments" BR_Arguments dRaw].
Record bridgeResp := mkBridgeResp { BS_Success : bool; BS_Output : string; BS_Error : string }.

Record bridgeResult := mkBridgeResult { BT_Success : option bool; BT_Output : string }.
#[export] Instance eta_bridgeResult : Eta bridgeResult := fun b => mkBridgeResult (BT_Success b) (BT_Output b).
Definition dBridgeResult : Decoder bridgeResult := dStruct
  [fld "success" BT_Success (dPtr false dBool); fld "output" BT_Output dString].

(** The call forwarded to the orchestrator. *)
Definition bridgeCall (req : bridgeReq) (callID threadID turnID : string) : any :=
  mapAny [("tool", AStr (BR_Tool req)); ("arguments", ARaw (BR_Arguments req)); ("callId", AStr callID);
          ("threadId", AStr threadID); ("turnId", AStr turnID)]%string.

(** The answer to the CLI, from what [conn.Request] returned. *)
Definition bridgeAnswer (result : RawMessage) (err : option string) : bridgeResp :=
  match err with
  | Some err => mkBridgeResp false EmptyString ("tool call failed: " +:+ err)
  | None =>
    let r := (Unmarshal dBridgeResult result (mkBridgeResult None EmptyString)).1 in
    mkBridgeResp (default true (BT_Success r)) (orElse (BT_Output r) result) EmptyString
  end.
End appserver.
