(* ===== verification/LinearGql.v ===== *)
(** * orchestrator/lineargql: the linear_graphql tool

    [client.go].  The scanner that counts operations works on what is left of
    the document.  The HTTP exchange is a parameter: [post] is what the server
    makes of a payload, the status and the body, or a transport error. *)

From S2P Require Import Prelude GoStd GoText GoJson GoMarshal.
Open Scope Z_scope.

Module lineargql.
Import json marshal.

(** ** The document scanner *)

Inductive gqlScanState := gqlssNormal | gqlssString | gqlssBlockString | gqlssComment.
Inductive gqlDocState := gqldsIdle | gqldsOperation | gqldsFragment | gqldsBody.

Record gqlScanner := mkScanner {
  ss : gqlScanState;
  ds : gqlDocState;
  bodyDepth : Z;
  headerDepth : Z;
  count : Z;
}.
#[export] Instance eta_gqlScanner : Eta gqlScanner := fun s =>
  mkScanner (ss s) (ds s) (bodyDepth s) (headerDepth s) (count s).

Definition isGQLIdentRune (c : ascii) : bool :=
  let b := utf8.byte c in
  (b =? 95) || utf8.between 97 122 b || utf8.between 65 90 b || utf8.between 48 57 b.

Definition dquote : ascii := "034"%char.

(** Three quotes at the front. *)
Definition tripleQuote (s : string) : option string :=
  match s with
  | String.String a (String.String b (String.String c rest)) =>
    if bool_decide (a = dquote) && bool_decide (b = dquote) && bool_decide (c = dquote) then Some rest else None
  | _ => None
  end.

(** [advanceLexer]: [None] when the caller should go on with the document. *)
Definition advanceLexer (sc : gqlScanner) (src : string) : option (gqlScanner * string) :=
  match src with
  | EmptyString => None
  | String.String ch rest =>
    match ss sc with
    | gqlssNormal => None
    | gqlssComment =>
      Some (if decide (ch = "010"%char) then sc <| ss := gqlssNormal |> else sc, rest)
    | gqlssString =>
      if decide (ch = backslash) then
        Some (sc, match rest with String.String _ rest => rest | EmptyString => EmptyString end)
      else Some (if decide (ch = dquote) then sc <| ss := gqlssNormal |> else sc, rest)
    | gqlssBlockString =>
      match tripleQuote src with
      | Some rest => Some (sc <| ss := gqlssNormal |>, rest)
      | None => Some (sc, rest)
      end
    end
  end.

Definition openBrace (sc : gqlScanner) : gqlScanner :=
  match ds sc with
  | gqldsIdle => sc <| count := (count sc + 1)%i64 |> <| ds := gqldsBody |> <| bodyDepth := 1 |>
  | gqldsOperation | gqldsFragment =>
    if 0 <? headerDepth sc then sc <| headerDepth := (headerDepth sc + 1)%i64 |>
    else sc <| ds := gqldsBody |> <| bodyDepth := 1 |> <| headerDepth := 0 |>
  | gqldsBody => sc <| bodyDepth := (bodyDepth sc + 1)%i64 |>
  end.

Definition closeBrace (sc : gqlScanner) : gqlScanner :=
  match ds sc with
  | gqldsIdle => sc
  | gqldsOperation | gqldsFragment =>
    if 0 <? headerDepth sc then sc <| headerDepth := headerDepth sc - 1 |> else sc
  | gqldsBody =>
    let d := (bodyDepth sc - 1)%i64 in
    let sc := sc <| bodyDepth := d |> in
    if d =? 0 then sc <| ds := gqldsIdle |> else sc
  end.

Fixpoint spanIdent (s : string) : string * string :=
  match s with
  | String.String c t =>
    if isGQLIdentRune c then let '(w, r) := spanIdent t in (String.String c w, r) else (EmptyString, s)
  | EmptyString => (EmptyString, EmptyString)
  end.

Definition isOperationKeyword (w : string) : bool :=
  bool_decide (w = "query"%string) || bool_decide (w = "mutation"%string) || bool_decide (w = "subscription"%string).

Definition consumeIdent (sc : gqlScanner) (src : string) : gqlScanner * string :=
  let '(w, rest) := spanIdent src in
  (if isOperationKeyword w
   then sc <| count := (count sc + 1)%i64 |> <| ds := gqldsOperation |> <| headerDepth := 0 |>
   else if decide (w = "fragment"%string) then sc <| ds := gqldsFragment |> <| headerDepth := 0 |>
   else sc, rest).

Definition inHeader (sc : gqlScanner) : bool :=
  match ds sc with gqldsOperation | gqldsFragment => true | _ => false end.

Definition advanceDoc (sc : gqlScanner) (src : string) : gqlScanner * string :=
  match src with
  | EmptyString => (sc, src)
  | String.String ch rest =>
    if decide (ch = "#"%char) then (sc <| ss := gqlssComment |>, rest)
    else
      match tripleQuote src with
      | Some rest => (sc <| ss := gqlssBlockString |>, rest)
      | None =>
        if decide (ch = dquote) then (sc <| ss := gqlssString |>, rest)
        else if bool_decide (ch = "("%char) && inHeader sc
        then (sc <| headerDepth := (headerDepth sc + 1)%i64 |>, rest)
        else if bool_decide (ch = ")"%char) && inHeader sc
        then (if 0 <? headerDepth sc then sc <| headerDepth := headerDepth sc - 1 |> else sc, rest)
        else if decide (ch = "{"%char) then (openBrace sc, rest)
        else if decide (ch = "}"%char) then (closeBrace sc, rest)
        else if (match ds sc with gqldsIdle => true | _ => false end) && isGQLIdentRune ch
        then consumeIdent sc src
        else (sc, rest)
      end
  end.

Definition advance (sc : gqlScanner) (src : string) : gqlScanner * string :=
  match advanceLexer sc src with Some r => r | None => advanceDoc sc src end.

(** The loop; [fuel] bounds its iterations. *)
Fixpoint scan_go (fuel : nat) (sc : gqlScanner) (src : string) : gqlScanner :=
  match fuel with
  | O => sc
  | S fuel =>
    match src with
    | EmptyString => sc
    | String.String _ _ => let '(sc, rest) := advance sc src in scan_go fuel sc rest
    end
  end.

Definition newScanner : gqlScanner := mkScanner gqlssNormal gqldsIdle 0 0 0.
Definition countOperations (src : string) : Z := count (scan_go (String.length src) newScanner src).

(** ** Validation and execution *)

Record Result := mkResult { Success : bool; Data : RawMessage; Errors : RawMessage }.

Definition errResult (msg : string) : Result :=
  mkResult false EmptyString (default EmptyString (Marshal (AArr [mapAny [("message"%string, AStr msg)]]))).

Definition validateSingleOperation (query : string) : option string :=
  if 1 <? countOperations query then Some "query must contain exactly one GraphQL operation"%string else None.

Definition validateVariablesObject (vars : RawMessage) : option string :=
  let trimmed := Strings.TrimSpace vars in
  match trimmed with
  | EmptyString => None
  | String.String c _ =>
    if decide (trimmed = "null"%string) then None
    else if decide (c = "{"%char) then None else Some "variables must be a JSON object"%string
  end.

Record envelope := mkEnvelope { E_Data : RawMessage; E_Errors : RawMessage }.
#[export] Instance eta_envelope : Eta envelope := fun e => mkEnvelope (E_Data e) (E_Errors e).
Definition dEnvelope : Decoder envelope := dStruct [fld "data" E_Data dRaw; fld "errors" E_Errors dRaw].

Section client.
Context (apiKey : string).
Context (post : string -> option (Z * string)).

(** [None]: the payload could not be encoded. *)
Definition Execute (query : string) (variables : RawMessage) : option Result :=
  if decide (query = EmptyString) then Some (errResult "query must not be empty")
  else
    match validateSingleOperation query, validateVariablesObject variables with
    | Some err, _ => Some (errResult err)
    | None, Some err => Some (errResult err)
    | None, None =>
      if decide (apiKey = EmptyString) then Some (errResult "linear API key not configured")
      else
        let variables := if decide (variables = EmptyString) then "null"%string else variables in
        payload ← Marshal (mapAny [("query"%string, AStr query); ("variables"%string, ARaw variables)]);
        Some
          match post payload with
          | None => errResult "transport error"
          | Some (status, body) =>
            if (status <? 200) || (300 <=? status) then errResult ("HTTP " +:+ strconv.Itoa status)
            else
              match Decode dEnvelope body (mkEnvelope EmptyString EmptyString) with
              | (_, true) => errResult "response decode error"
              | (e, false) =>
                if negb (bool_decide (E_Errors e = EmptyString)) && negb (bool_decide (E_Errors e = "null"%string))
                then mkResult false (E_Data e) (E_Errors e)
                else mkResult true (E_Data e) EmptyString
              end
          end
    end.
End client.

(** [json.Marshal(result)]. *)
Definition resultAny (r : Result) : any :=
  AObj ([("success"%string, ABool (Success r))] ++ omitRaw "data" (Data r) ++ omitRaw "errors" (Errors r)).
End lineargql.

(** * lineargql: the scanner counts the operations of a document

    The reference is the lexical grammar of GraphQL, as relations between a text
    and what follows it: comments end at either line terminator, a block string
    may hold escaped triple quotes. *)

Open Scope Z_scope.

Import lineargql.

(** ** GraphQL documents *)

Abbreviation LF := ("010"%char).
Abbreviation CR := ("013"%char).
Abbreviation slash := ("\"%char).
Definition triple (s : string) : string := String.String dquote (String.String dquote (String.String dquote s)).
Definition newline (c : ascii) : Prop := c = LF \/ c = CR.

Inductive comment : string -> string -> Prop :=
| C_end c s : newline c -> comment (String.String c s) s
| C_eof : comment EmptyString EmptyString
| C_char c s r : ~ newline c -> comment s r -> comment (String.String c s) r.

Inductive quoted : string -> string -> Prop :=
| Q_end r : quoted (String.String dquote r) r
| Q_char c s r : c <> dquote -> c <> slash -> ~ newline c -> quoted s r -> quoted (String.String c s) r
| Q_escape c s r : ~ newline c -> quoted s r -> quoted (String.String slash (String.String c s)) r.

Inductive blockString : string -> string -> Prop :=
| K_end r : blockString (triple r) r
| K_escape s r : blockString s r -> blockString (String.String slash (triple s)) r
| K_char c s r : tripleQuote (String.String c s) = None -> ~ (c = slash /\ is_Some (tripleQuote s)) ->
    blockString s r -> blockString (String.String c s) r.

(** Characters with a meaning of their own. *)
Definition special (c : ascii) : Prop := c ∈ ["#"; dquote; "("; ")"; "{"; "}"]%char.
#[export] Instance special_dec c : Decision (special c).
Proof. unfold special. apply _. Defined.

(** Text whose brackets balance. *)
Inductive balanced : string -> string -> Prop :=
| B_nil r : balanced r r
| B_char c s r : ~ special c -> balanced s r -> balanced (String.String c s) r
| B_comment s s' r : comment s s' -> balanced s' r -> balanced (String.String "#" s) r
| B_quoted s s' r : tripleQuote (String.String dquote s) = None -> quoted s s' -> balanced s' r ->
    balanced (String.String dquote s) r
| B_block s s' r : blockString s s' -> balanced s' r -> balanced (triple s) r
| B_brace s s' r : balanced s (String.String "}" s') -> balanced s' r -> balanced (String.String "{" s) r
| B_paren s s' r : balanced s (String.String ")" s') -> balanced s' r -> balanced (String.String "(" s) r.

(** What stands between the keyword and the selection set. *)
Inductive header : string -> string -> Prop :=
| H_nil r : header r r
| H_char c s r : ~ special c -> header s r -> header (String.String c s) r
| H_comment s s' r : comment s s' -> header s' r -> header (String.String "#" s) r
| H_paren s s' r : balanced s (String.String ")" s') -> header s' r -> header (String.String "(" s) r.

Definition nonIdent (s : string) : Prop :=
  match s with String.String c _ => isGQLIdentRune c = false | EmptyString => True end.

(** A document with its number of operations. *)
Inductive document : string -> Z -> Prop :=
| D_end : document EmptyString 0
| D_ignored c s n : ~ special c -> isGQLIdentRune c = false -> document s n -> document (String.String c s) n
| D_comment s s' n : comment s s' -> document s' n -> document (String.String "#" s) n
| D_shorthand s s' n : balanced s (String.String "}" s') -> document s' n -> document (String.String "{" s) (n + 1)
| D_operation kw s s' s'' n : isOperationKeyword kw = true -> nonIdent s -> header s (String.String "{" s') ->
    balanced s' (String.String "}" s'') -> document s'' n -> document (kw +:+ s) (n + 1)
| D_fragment s s' s'' n : nonIdent s -> header s (String.String "{" s') ->
    balanced s' (String.String "}" s'') -> document s'' n -> document ("fragment" +:+ s) n.

(** What the scanner reads differently: a carriage return, an escaped triple quote. *)
Fixpoint unambiguous (s : string) : bool :=
  match s with
  | EmptyString => true
  | String.String c t =>
    negb (bool_decide (c = CR)) && negb (bool_decide (c = slash) && bool_decide (is_Some (tripleQuote t))) && unambiguous t
  end.

(** ** The loop ends *)

Lemma tripleQuote_shorter s r : tripleQuote s = Some r -> (String.length r < String.length s)%nat.
Proof.
  destruct s as [|a [|b [|c s]]]; try done. cbn. case_match; [|done]. intros [= <-]. cbn. lia.
Qed.

Lemma spanIdent_shorter s : (String.length (spanIdent s).2 <= String.length s)%nat.
Proof.
  induction s as [|c s IH]; [done|]. cbn [spanIdent]. destruct (isGQLIdentRune c); [|done].
  destruct (spanIdent s). cbn in *. lia.
Qed.

Lemma consumeIdent_shorter sc c s : isGQLIdentRune c = true ->
  (String.length (consumeIdent sc (String.String c s)).2 < String.length (String.String c s))%nat.
Proof.
  intros H. unfold consumeIdent. cbn [spanIdent]. rewrite H. pose proof (spanIdent_shorter s) as Hs.
  destruct (spanIdent s) as [w r]. cbn in *. lia.
Qed.

(** Every iteration consumes something. *)
Lemma advance_shorter sc c s :
  (String.length (advance sc (String.String c s)).2 < String.length (String.String c s))%nat.
Proof.
  assert (String.length s < String.length (String.String c s))%nat as Hs by (cbn; lia).
  unfold advance, advanceLexer. destruct (ss sc).
  - unfold advanceDoc. case_decide; [exact Hs|]. destruct (tripleQuote _) as [r|] eqn:Et; [apply tripleQuote_shorter in Et; exact Et|].
    case_decide; [exact Hs|]. destruct (_ && inHeader sc); [exact Hs|]. destruct (_ && inHeader sc); [exact Hs|].
    case_decide; [exact Hs|]. case_decide; [exact Hs|].
    destruct (_ && isGQLIdentRune c) eqn:Ei; [|exact Hs]. apply andb_true_iff in Ei as [_ Ei]. by apply consumeIdent_shorter.
  - case_decide; [|exact Hs]. destruct s; cbn; lia.
  - destruct (tripleQuote _) as [r|] eqn:Et; [apply tripleQuote_shorter in Et; exact Et|exact Hs].
  - exact Hs.
Qed.

Lemma scan_fuel : forall n m sc s, (String.length s <= n)%nat -> (String.length s <= m)%nat -> scan_go n sc s = scan_go m sc s.
Proof.
  induction n as [|n IH]; intros m sc s Hn Hm.
  - destruct s; [by destruct m|cbn in Hn; lia].
  - destruct s as [|c s]; [by destruct m|]. destruct m as [|m]; [cbn in Hm; lia|]. cbn [scan_go].
    pose proof (advance_shorter sc c s) as Ha. destruct (advance sc (String.String c s)) as [sc' rest]. cbn [snd] in Ha.
    cbn [String.length] in *. apply IH; lia.
Qed.

Definition scan (sc : gqlScanner) (s : string) : gqlScanner := scan_go (String.length s) sc s.

Lemma scan_step sc c s :
  scan sc (String.String c s) = scan (advance sc (String.String c s)).1 (advance sc (String.String c s)).2.
Proof.
  unfold scan at 1. cbn [String.length scan_go]. pose proof (advance_shorter sc c s) as Ha.
  destruct (advance sc (String.String c s)) as [sc' rest]. cbn [fst snd String.length] in *.
  apply scan_fuel; lia.
Qed.

(** ** Lexical elements *)

(** [r] is what is left of [s]. *)
Record leaves (s r : string) : Prop := {
  lv_length : (String.length r <= String.length s)%nat;
  lv_plain : unambiguous s = true -> unambiguous r = true;
}.

Lemma leaves_refl s : leaves s s.
Proof. by split. Qed.
Lemma leaves_char c s r : leaves s r -> leaves (String.String c s) r.
Proof.
  intros [H1 H2]. split; cbn; [lia|]. intros H. apply H2.
  apply andb_true_iff in H as [_ H]. exact H.
Qed.
Lemma leaves_trans s r t : leaves s r -> leaves r t -> leaves s t.
Proof. intros [H1 H2] [H3 H4]. split; [lia|auto]. Qed.
Create HintDb leaves.
#[local] Hint Resolve leaves_refl leaves_char : leaves.

Lemma comment_leaves s r : comment s r -> leaves s r.
Proof. induction 1; auto with leaves. Qed.
Lemma quoted_leaves s r : quoted s r -> leaves s r.
Proof. induction 1; auto with leaves. Qed.
Lemma blockString_leaves s r : blockString s r -> leaves s r.
Proof. unfold triple. induction 1; unfold triple; auto with leaves. Qed.
#[local] Hint Resolve comment_leaves quoted_leaves blockString_leaves : leaves.

Lemma balanced_leaves s r : balanced s r -> leaves s r.
Proof.
  unfold triple. induction 1; auto with leaves; unfold triple;
    repeat apply leaves_char; (eapply leaves_trans; [|eassumption]); eauto with leaves.
  - eapply leaves_trans; [eassumption|]. auto with leaves.
  - eapply leaves_trans; [eassumption|]. auto with leaves.
Qed.
Lemma header_leaves s r : header s r -> leaves s r.
Proof.
  induction 1 as [| |s s' r Hc _ IH|s s' r Hb _ IH]; auto with leaves.
  - apply leaves_char. eapply leaves_trans; [by apply comment_leaves|done].
  - apply leaves_char. eapply leaves_trans; [by apply balanced_leaves|]. by apply leaves_char.
Qed.

Lemma unambiguous_tail c s : unambiguous (String.String c s) = true -> unambiguous s = true.
Proof. intros H. eapply lv_plain, H. auto with leaves. Qed.

Definition normal (sc : gqlScanner) : gqlScanner := sc <| ss := gqlssNormal |>.

(** The count in the end. *)
Definition final (sc : gqlScanner) (s : string) : Z := count (scan sc s).

Lemma final_step sc c s :
  final sc (String.String c s) = final (advance sc (String.String c s)).1 (advance sc (String.String c s)).2.
Proof. unfold final. by rewrite scan_step. Qed.

Lemma final_comment sc s r : ss sc = gqlssComment -> comment s r -> unambiguous s = true ->
  final sc s = final (normal sc) r.
Proof.
  intros Hs. induction 1 as [c s Hc| |c s r Hc _ IH]; intros Hu.
  - rewrite final_step. unfold advance, advanceLexer. rewrite Hs. destruct Hc as [->| ->]; [done|].
    cbn in Hu. discriminate Hu.
  - done.
  - rewrite final_step. unfold advance, advanceLexer. rewrite Hs.
    rewrite decide_False by (intros ->; apply Hc; by left). cbn [fst snd].
    apply IH, (unambiguous_tail _ _ Hu).
Qed.

Lemma final_quoted sc s r : ss sc = gqlssString -> quoted s r -> final sc s = final (normal sc) r.
Proof.
  intros Hs. induction 1 as [r|c s r Hq Hb Hn _ IH|c s r Hn _ IH]; rewrite final_step; unfold advance, advanceLexer; rewrite Hs.
  - done.
  - rewrite !decide_False by done. exact IH.
  - exact IH.
Qed.

Lemma final_block sc s r : ss sc = gqlssBlockString -> blockString s r -> unambiguous s = true ->
  final sc s = final (normal sc) r.
Proof.
  intros Hs. induction 1 as [r|s r _ IH|c s r Ht _ _ IH]; intros Hu.
  - unfold triple. rewrite final_step. unfold advance, advanceLexer. by rewrite Hs.
  - discriminate Hu.
  - rewrite final_step. unfold advance, advanceLexer. rewrite Hs, Ht. by apply IH, (unambiguous_tail c).
Qed.

(** ** Brackets *)

Definition level (sc : gqlScanner) : Z :=
  match ds sc with gqldsIdle => 0 | gqldsBody => bodyDepth sc | _ => headerDepth sc end.
Definition raised (sc : gqlScanner) : gqlScanner :=
  match ds sc with
  | gqldsBody => sc <| bodyDepth := bodyDepth sc + 1 |>
  | _ => sc <| headerDepth := headerDepth sc + 1 |>
  end.
(** Within brackets, with room for [n] more. *)
Record within (n : Z) (sc : gqlScanner) : Prop := {
  wi_normal : ss sc = gqlssNormal;
  wi_level : 1 <= level sc;
  wi_room : level sc + n <= int64_max;
}.

Lemma within_le n m sc : within n sc -> m <= n -> within m sc.
Proof. intros [H1 H2 H3] Hm. split; [done|done|lia]. Qed.
Lemma raised_within n sc : within n sc -> within (n - 1) (raised sc).
Proof.
  intros [H1 H2 H3]. split; [by unfold raised; destruct (ds sc)|..];
    unfold level, raised in *; destruct (ds sc) eqn:E; cbn; rewrite ?E; lia.
Qed.

Lemma openBrace_within n sc : within n sc -> 1 <= n -> openBrace sc = raised sc.
Proof.
  intros [H1 H2 H3] Hn. unfold openBrace, raised, level in *.
  destruct (ds sc); [lia|..]; try (rewrite (proj2 (Z.ltb_lt 0 (headerDepth sc))) by lia);
    rewrite wrap64_id; unfold in_int64, int64_min, int64_max in *; done || lia.
Qed.
Lemma closeBrace_raised n sc : within n sc -> 1 <= n -> closeBrace (raised sc) = sc.
Proof.
  intros [H1 H2 H3] Hn. unfold closeBrace, raised, level in *.
  destruct sc as [s d b h k]; cbn in *. destruct d; cbn in *; [lia|..].
  - rewrite (proj2 (Z.ltb_lt 0 (h + 1))) by lia. do 2 f_equal. lia.
  - rewrite (proj2 (Z.ltb_lt 0 (h + 1))) by lia. do 2 f_equal. lia.
  - replace (b + 1 - 1) with b by lia. rewrite wrap64_id by (unfold in_int64, int64_min, int64_max in *; lia).
    by rewrite (proj2 (Z.eqb_neq b 0)) by lia.
Qed.

(** A step outside strings and comments. *)
Lemma tripleQuote_other c s : c <> dquote -> tripleQuote (String.String c s) = None.
Proof. intros H. destruct s as [|a [|b s]]; try done. cbn. by rewrite bool_decide_eq_false_2. Qed.

Lemma advance_other sc c s : ss sc = gqlssNormal -> c <> "#"%char -> c <> dquote ->
  advance sc (String.String c s) =
    if bool_decide (c = "("%char) && inHeader sc then (sc <| headerDepth := (headerDepth sc + 1)%i64 |>, s)
    else if bool_decide (c = ")"%char) && inHeader sc
    then (if 0 <? headerDepth sc then sc <| headerDepth := headerDepth sc - 1 |> else sc, s)
    else if decide (c = "{"%char) then (openBrace sc, s)
    else if decide (c = "}"%char) then (closeBrace sc, s)
    else if (match ds sc with gqldsIdle => true | _ => false end) && isGQLIdentRune c
    then consumeIdent sc (String.String c s) else (sc, s).
Proof.
  intros Hs H1 H2. unfold advance, advanceLexer, advanceDoc. rewrite Hs, (tripleQuote_other c) by done.
  by rewrite !(decide_False (P := c = _)) by done.
Qed.

Lemma advance_openBrace sc s : ss sc = gqlssNormal -> advance sc (String.String "{" s) = (openBrace sc, s).
Proof. intros H. by rewrite advance_other. Qed.
Lemma advance_closeBrace sc s : ss sc = gqlssNormal -> advance sc (String.String "}" s) = (closeBrace sc, s).
Proof. intros H. by rewrite advance_other. Qed.

Lemma advance_openParen sc s : ss sc = gqlssNormal -> inHeader sc = true ->
  advance sc (String.String "(" s) = (sc <| headerDepth := (headerDepth sc + 1)%i64 |>, s).
Proof. intros H Hi. rewrite advance_other by done. by rewrite Hi. Qed.
Lemma advance_closeParen sc s : ss sc = gqlssNormal -> inHeader sc = true -> headerDepth sc = 1 ->
  advance sc (String.String ")" s) = (sc <| headerDepth := 0 |>, s).
Proof. intros H Hi Hd. rewrite advance_other by done. by rewrite Hi, Hd. Qed.

Lemma advance_plain sc c s : ss sc = gqlssNormal -> ~ special c -> ds sc <> gqldsIdle \/ isGQLIdentRune c = false ->
  advance sc (String.String c s) = (sc, s).
Proof.
  intros Hs Hc Hi. assert (c <> "#" /\ c <> dquote /\ c <> "(" /\ c <> ")" /\ c <> "{" /\ c <> "}")%char
    as (N1 & N2 & N3 & N4 & N5 & N6) by (clear -Hc; unfold special in Hc; set_solver).
  rewrite advance_other by done. rewrite !bool_decide_eq_false_2 by done. cbn [andb]. rewrite !decide_False by done.
  destruct Hi as [Hi| ->]; [|by rewrite andb_false_r]. by destruct (ds sc).
Qed.

Lemma within_busy n sc : within n sc -> ds sc <> gqldsIdle.
Proof. intros [_ H _] E. unfold level in H. rewrite E in H. lia. Qed.

Lemma normal_id sc : ss sc = gqlssNormal -> normal sc = sc.
Proof. intros H. destruct sc. cbn in H. by subst. Qed.
Lemma normal_set sc x : ss sc = gqlssNormal -> normal (sc <| ss := x |>) = sc.
Proof. intros H. destruct sc. cbn in H. by subst. Qed.

(** Parentheses count where braces do, in a header. *)
Definition opened (sc : gqlScanner) : gqlScanner := if inHeader sc then raised sc else sc.

Lemma advance_open n sc s : within n sc -> 1 <= n -> advance sc (String.String "(" s) = (opened sc, s).
Proof.
  intros [H1 H2 H3] Hn. rewrite advance_other by done. unfold opened, inHeader, raised, level in *. cbn.
  destruct (ds sc); try done; rewrite wrap64_id; unfold in_int64, int64_min, int64_max in *; done || lia.
Qed.

Lemma advance_close n sc s : within n sc -> 1 <= n -> advance (opened sc) (String.String ")" s) = (sc, s).
Proof.
  intros [H1 H2 H3] Hn. unfold opened, inHeader, raised, level in *.
  destruct sc as [st d b h k]; cbn in H1, H2, H3. subst st.
  destruct d; (rewrite advance_other by done); cbn; try done;
    rewrite (proj2 (Z.ltb_lt 0 (h + 1))) by lia; do 3 f_equal; lia.
Qed.

Lemma opened_within n sc : within n sc -> 1 <= n -> within (n - 1) (opened sc).
Proof.
  intros H Hn. unfold opened. destruct (inHeader sc); [by apply raised_within|].
  apply (within_le n); [done|lia].
Qed.

Lemma final_hash sc s s' : ss sc = gqlssNormal -> comment s s' -> unambiguous s = true ->
  final sc (String.String "#" s) = final sc s'.
Proof.
  intros Hs Hc Hu. rewrite final_step. unfold advance, advanceLexer. rewrite Hs.
  cbn [advanceDoc]. rewrite decide_True by done. cbn [fst snd].
  rewrite (final_comment _ s s') by done. by rewrite normal_set.
Qed.

Lemma final_balanced s r : balanced s r -> forall sc,
  unambiguous s = true -> within (Z.of_nat (String.length s)) sc -> final sc s = final sc r.
Proof.
  induction 1 as [r|c s r Hc _ IH|s s' r Hc _ IH|s s' r Ht Hq _ IH|s s' r Hk _ IH|s s' r H1 IH1 _ IH2|s s' r H1 IH1 _ IH2];
    intros sc Hu Hw; [done|..].
  - rewrite final_step, advance_plain; [|apply Hw|done|left; by eapply within_busy]. cbn [fst snd].
    apply IH; [by eapply unambiguous_tail|]. eapply within_le; [exact Hw|]. cbn. lia.
  - apply unambiguous_tail in Hu. pose proof (comment_leaves _ _ Hc) as [Hl Hp].
    rewrite (final_hash sc s s'); [|apply Hw|done|done]. apply IH; [by apply Hp|].
    eapply within_le; [exact Hw|]. cbn [String.length]. lia.
  - apply unambiguous_tail in Hu. pose proof (quoted_leaves _ _ Hq) as [Hl Hp].
    rewrite final_step. unfold advance, advanceLexer. rewrite (wi_normal _ _ Hw). unfold advanceDoc. rewrite Ht.
    rewrite decide_False, decide_True by done. cbn [fst snd].
    rewrite (final_quoted _ s s'), normal_set by (done || apply Hw). apply IH; [by apply Hp|].
    eapply within_le; [exact Hw|]. cbn [String.length]. lia.
  - do 3 apply unambiguous_tail in Hu. pose proof (blockString_leaves _ _ Hk) as [Hl Hp].
    unfold triple. rewrite final_step. unfold advance, advanceLexer. rewrite (wi_normal _ _ Hw). cbn [advanceDoc tripleQuote].
    rewrite decide_False by done. cbn. change (final (sc <| ss := gqlssBlockString |>) s = final sc r).
    rewrite (final_block _ s s'), normal_set by (done || apply Hw). apply IH; [by apply Hp|].
    eapply within_le; [exact Hw|]. cbn [triple String.length]. lia.
  - assert (1 <= Z.of_nat (String.length (String.String "{" s))) as Hn by (cbn; lia).
    apply unambiguous_tail in Hu. pose proof (balanced_leaves _ _ H1) as [Hl Hp]. cbn [String.length] in Hl.
    rewrite final_step, advance_openBrace by apply Hw. cbn [fst snd].
    rewrite (openBrace_within _ sc Hw Hn). rewrite IH1; [|done|eapply within_le; [by apply raised_within|cbn [String.length]; lia]].
    rewrite final_step, advance_closeBrace by apply (raised_within _ _ Hw). cbn [fst snd].
    rewrite (closeBrace_raised _ sc Hw Hn). apply IH2; [by apply (unambiguous_tail "}"), Hp|].
    eapply within_le; [exact Hw|]. cbn [String.length]. lia.
  - assert (1 <= Z.of_nat (String.length (String.String "(" s))) as Hn by (cbn; lia).
    apply unambiguous_tail in Hu. pose proof (balanced_leaves _ _ H1) as [Hl Hp]. cbn [String.length] in Hl.
    rewrite final_step, (advance_open _ sc s Hw Hn). cbn [fst snd].
    rewrite IH1; [|done|eapply within_le; [by apply opened_within|cbn [String.length]; lia]].
    rewrite final_step, (advance_close _ sc s' Hw Hn). cbn [fst snd]. apply IH2; [by apply (unambiguous_tail ")"), Hp|].
    eapply within_le; [exact Hw|]. cbn [String.length]. lia.
Qed.

(** ** Definitions of a document *)

Lemma final_header s r : header s r -> forall sc,
  unambiguous s = true -> ss sc = gqlssNormal -> inHeader sc = true -> headerDepth sc = 0 ->
  Z.of_nat (String.length s) <= int64_max -> final sc s = final sc r.
Proof.
  induction 1 as [r|c s r Hc _ IH|s s' r Hc _ IH|s s' r H1 _ IH]; intros sc Hu Hs Hh Hd Hl; [done|..];
    apply unambiguous_tail in Hu as Hu'; cbn [String.length] in Hl.
  - rewrite final_step, advance_plain; [|done|done|left; by destruct sc as [? [] ? ? ?]]. cbn [fst snd].
    apply IH; done || lia.
  - pose proof (comment_leaves _ _ Hc) as [Hl' Hp]. rewrite (final_hash sc s s') by done.
    apply IH; [by apply Hp|done..|lia].
  - pose proof (balanced_leaves _ _ H1) as [Hl' Hp]. cbn [String.length] in Hl'.
    set (sc1 := sc <| headerDepth := 1 |>).
    assert (level sc1 = 1 /\ ss sc1 = gqlssNormal /\ inHeader sc1 = true) as (E1 & E2 & E3).
    { unfold level, inHeader in *. subst sc1. cbn. destruct (ds sc); done. }
    rewrite final_step, advance_openParen by done. rewrite Hd. change (final sc1 s = final sc r). rewrite (final_balanced s _ H1); [|done|split; [done|lia|rewrite E1; lia]].
    rewrite final_step, advance_closeParen by done. cbn [fst snd].
    replace (sc1 <| headerDepth := 0 |>) with sc by (subst sc1; destruct sc; cbn in *; by subst).
    apply IH; [by apply (unambiguous_tail ")"), Hp|done..|lia].
Qed.

Definition idle (sc : gqlScanner) : Prop := ss sc = gqlssNormal /\ ds sc = gqldsIdle.

Lemma final_body sc s r : balanced s (String.String "}" r) ->
  ss sc = gqlssNormal -> ds sc = gqldsBody -> bodyDepth sc = 1 ->
  unambiguous s = true -> Z.of_nat (String.length s) < int64_max ->
  exists sc', idle sc' /\ count sc' = count sc /\ final sc s = final sc' r.
Proof.
  intros Hb Hs Hd H1 Hu Hl. exists (sc <| bodyDepth := 0 |> <| ds := gqldsIdle |>). split_and!; [done|done|].
  rewrite (final_balanced s _ Hb); [|done|].
  - rewrite final_step, advance_closeBrace by done. unfold closeBrace. rewrite Hd, H1. done.
  - split; [done|unfold level; rewrite Hd; lia..].
Qed.

Lemma final_definition sc s s' r : header s (String.String "{" s') -> balanced s' (String.String "}" r) ->
  ss sc = gqlssNormal -> inHeader sc = true -> headerDepth sc = 0 ->
  unambiguous s = true -> Z.of_nat (String.length s) <= int64_max ->
  exists sc', idle sc' /\ count sc' = count sc /\ final sc s = final sc' r.
Proof.
  intros Hh Hb Hs Hi Hd Hu Hl. pose proof (header_leaves _ _ Hh) as [Hl' Hp]. cbn [String.length] in Hl'.
  rewrite (final_header s _ Hh) by done. rewrite final_step, advance_openBrace by done. cbn [fst snd].
  specialize (Hp Hu). apply unambiguous_tail in Hp.
  destruct (final_body (openBrace sc) s' r) as (sc' & Hi' & Hc & E); try done.
  - unfold openBrace, inHeader in *. rewrite Hd. by destruct (ds sc).
  - unfold openBrace, inHeader in *. rewrite Hd. by destruct (ds sc).
  - unfold openBrace, inHeader in *. rewrite Hd. by destruct (ds sc).
  - lia.
  - exists sc'. split_and!; [done| |done]. rewrite Hc. unfold openBrace, inHeader in *. rewrite Hd. by destruct (ds sc).
Qed.

Lemma spanIdent_app w s : (forall c, c ∈ String.list_ascii_of_string w -> isGQLIdentRune c = true) -> nonIdent s ->
  spanIdent (w +:+ s) = (w, s).
Proof.
  intros Hw Hs. induction w as [|c w IH].
  - rewrite str_app_nil_l. destruct s as [|c s]; [done|]. cbn in Hs |- *. by rewrite Hs.
  - rewrite str_app_cons. cbn [spanIdent]. rewrite (Hw c) by (cbn; set_solver).
    rewrite IH; [done|]. intros c' Hc'. apply Hw. cbn. set_solver.
Qed.

Lemma advance_word sc c w s : idle sc -> isGQLIdentRune c = true -> c <> "#"%char -> c <> dquote ->
  ~ special c -> advance sc (String.String c w +:+ s) = consumeIdent sc (String.String c w +:+ s).
Proof.
  intros [Hs Hd] Hi H1 H2 Hc. rewrite str_app_cons, advance_other by done. unfold inHeader. rewrite Hd, Hi, !andb_false_r.
  rewrite !decide_False; [done|intros ->; apply Hc; unfold special; set_solver..].
Qed.

Lemma document_bound s n : document s n -> 0 <= n <= Z.of_nat (String.length s).
Proof.
  induction 1 as [|c s n _ _ _ IH|s s' n Hc _ IH|s s' n Hb _ IH|kw s s' s'' n Hk _ Hh Hb _ IH|s s' s'' n _ Hh Hb _ IH].
  - done.
  - cbn [String.length]. lia.
  - pose proof (lv_length _ _ (comment_leaves _ _ Hc)). cbn [String.length]. lia.
  - pose proof (lv_length _ _ (balanced_leaves _ _ Hb)). cbn [String.length] in *. lia.
  - pose proof (lv_length _ _ (balanced_leaves _ _ Hb)). pose proof (lv_length _ _ (header_leaves _ _ Hh)).
    rewrite str_length_app. cbn [String.length] in *. lia.
  - pose proof (lv_length _ _ (balanced_leaves _ _ Hb)). pose proof (lv_length _ _ (header_leaves _ _ Hh)).
    rewrite str_length_app. cbn [String.length] in *. lia.
Qed.

(** A keyword and what it defines. *)
Definition word (w : string) : bool :=
  forallb (fun c => isGQLIdentRune c && negb (bool_decide (special c))) (String.list_ascii_of_string w).

Lemma word_char w c : word w = true -> c ∈ String.list_ascii_of_string w -> isGQLIdentRune c = true /\ ~ special c.
Proof.
  unfold word. rewrite forallb_forall. intros H Hc. apply list_elem_of_In in Hc. apply H in Hc.
  apply andb_true_iff in Hc as [H1 H2]. split; [done|]. by apply negb_true_iff, bool_decide_eq_false in H2.
Qed.

Lemma final_keyword sc kw s : idle sc -> word kw = true -> kw <> EmptyString -> nonIdent s ->
  final sc (kw +:+ s) = final
    (if isOperationKeyword kw then sc <| count := (count sc + 1)%i64 |> <| ds := gqldsOperation |> <| headerDepth := 0 |>
     else if decide (kw = "fragment"%string) then sc <| ds := gqldsFragment |> <| headerDepth := 0 |> else sc) s.
Proof.
  intros Hi Hkw Hne Hs. destruct kw as [|c w]; [done|].
  destruct (word_char _ c Hkw) as [Hc1 Hc2]; [cbn; set_solver|].
  rewrite str_app_cons, final_step, <- str_app_cons.
  rewrite advance_word; [|done|done|intros ->; apply Hc2; unfold special; set_solver
    |intros ->; apply Hc2; unfold special; set_solver|done].
  unfold consumeIdent. rewrite spanIdent_app; [done| |done]. intros c' Hc'. by apply (word_char _ c' Hkw).
Qed.

Lemma operation_word kw : isOperationKeyword kw = true -> word kw = true /\ kw <> EmptyString /\
  forall s, unambiguous (kw +:+ s) = unambiguous s.
Proof.
  unfold isOperationKeyword. rewrite !orb_true_iff, !bool_decide_eq_true. intros [[->| ->]| ->]; done.
Qed.

Lemma final_operation sc kw s s' r : idle sc -> isOperationKeyword kw = true -> nonIdent s ->
  header s (String.String "{" s') -> balanced s' (String.String "}" r) ->
  unambiguous s = true -> Z.of_nat (String.length s) <= int64_max -> in_int64 (count sc + 1) ->
  exists sc', idle sc' /\ count sc' = count sc + 1 /\ final sc (kw +:+ s) = final sc' r.
Proof.
  intros Hi Hk Hn Hh Hb Hu Hl Hc. destruct (operation_word kw Hk) as (Hw & Hne & _).
  rewrite final_keyword by done. rewrite Hk, wrap64_id by done. destruct Hi as [Hi _].
  destruct (final_definition (sc <| count := count sc + 1 |> <| ds := gqldsOperation |> <| headerDepth := 0 |>) s s' r)
    as (sc' & ? & ? & ?); try done. by exists sc'.
Qed.

Lemma final_fragment sc s s' r : idle sc -> nonIdent s ->
  header s (String.String "{" s') -> balanced s' (String.String "}" r) ->
  unambiguous s = true -> Z.of_nat (String.length s) <= int64_max ->
  exists sc', idle sc' /\ count sc' = count sc /\ final sc ("fragment" +:+ s) = final sc' r.
Proof.
  intros Hi Hn Hh Hb Hu Hl. rewrite final_keyword by done. destruct Hi as [Hi _].
  destruct (final_definition (sc <| ds := gqldsFragment |> <| headerDepth := 0 |>) s s' r)
    as (sc' & ? & ? & ?); try done. by exists sc'.
Qed.

Lemma definition_leaves s s' r : header s (String.String "{" s') -> balanced s' (String.String "}" r) -> leaves s r.
Proof.
  intros Hh Hb. eapply leaves_trans; [by apply header_leaves|]. apply leaves_char.
  eapply leaves_trans; [by apply balanced_leaves|]. auto with leaves.
Qed.

(** The scanner counts what is there. *)
Lemma final_document s n : document s n -> forall sc,
  idle sc -> 0 <= count sc -> count sc + Z.of_nat (String.length s) <= int64_max -> unambiguous s = true ->
  final sc s = count sc + n.
Proof.
  induction 1 as [|c s n Hc1 Hc2 _ IH|s s' n Hc _ IH|s s' n Hb Hd IH|kw s s' s'' n Hk Hn Hh Hb Hd IH
    |s s' s'' n Hn Hh Hb Hd IH]; intros sc Hi H0 Hl Hu.
  - by rewrite Z.add_0_r.
  - rewrite final_step, advance_plain by (apply Hi || auto). cbn [fst snd String.length] in *.
    apply IH; [done|done|lia|by apply unambiguous_tail in Hu].
  - apply unambiguous_tail in Hu. pose proof (comment_leaves _ _ Hc) as [Hl' Hp]. cbn [String.length] in Hl.
    rewrite (final_hash sc s s') by (apply Hi || done). apply IH; [done|done|lia|by apply Hp].
  - apply unambiguous_tail in Hu. pose proof (balanced_leaves _ _ Hb) as [Hl' Hp]. cbn [String.length] in *.
    destruct Hi as [His Hid]. rewrite final_step, advance_openBrace by done. cbn [fst snd]. unfold openBrace. rewrite Hid.
    rewrite wrap64_id by (unfold in_int64, int64_min; lia).
    destruct (final_body (sc <| count := count sc + 1 |> <| ds := gqldsBody |> <| bodyDepth := 1 |>) s s')
      as (sc' & Hi' & Hc' & ->); try done; [lia|]. cbn in Hc'.
    rewrite IH; [lia|done|lia|lia|]. by apply (unambiguous_tail "}"), Hp.
  - destruct (definition_leaves _ _ _ Hh Hb) as [Hl' Hp]. destruct (operation_word kw Hk) as (_ & Hne & Hkw).
    rewrite Hkw in Hu. rewrite str_length_app in Hl. pose proof (document_bound _ _ Hd).
    assert (1 <= Z.of_nat (String.length kw)) by (destruct kw; cbn; done || lia).
    destruct (final_operation sc kw s s' s'') as (sc' & Hi' & Hc' & ->); try done; [lia|unfold in_int64, int64_min; lia|].
    rewrite IH; [lia|done|lia|lia|by apply Hp].
  - destruct (definition_leaves _ _ _ Hh Hb) as [Hl' Hp]. rewrite str_length_app in Hl.
    destruct (final_fragment sc s s' s'') as (sc' & Hi' & Hc' & ->); try done; [lia|].
    rewrite IH; [lia|done|lia|lia|by apply Hp].
Qed.
