(* ===== verification/Agent.v ===== *)
(** * orchestrator/agent: handler and session start

    [handler.go], [projectmeta.go], [dynamictools.go], the bindings of
    [prompt.go], and the part of [runner.go] that starts a session.  The
    one-slot channels between the handler and the run loop are options.  What
    starting a session asks of its surroundings is a sequence of calls; the
    template engine is the parameter [liquid], the linear client the parameter
    [execute]. *)

From S2P Require Import Prelude GoStd GoText GoJson GoMarshal GoPath Metrics Tracker WfConfig WfResolve GoIO.
From S2P Require Import Workspace SchedState SchedReduce SchedShell CodexConn LinearGql.
Open Scope Z_scope.

(** ** orchestrator/prompt *)

Module prompt.

Definition defaultPrompt : string := "You are working on an issue from Linear.".

(** What a template variable is bound to. *)
Inductive binding :=
| BStr (s : string)
| BInt (n : Z)
| BFalse
| BTime (t : Time)
| BStrs (l : list string)
| BMap (m : list (string * binding))
| BMaps (l : list (list (string * binding))).

Record ProjectVars := mkProjectVars { PV_Name : string; PV_Branch : string; PV_Prompt : string }.
Record Vars := mkVars { Vars_Issue : Issue; Vars_Attempt : Z; Vars_Project : ProjectVars }.

Section maps.
Local Open Scope string_scope.

Definition toBlockerList (bs : list Blocker) : list (list (string * binding)) :=
  map (fun b => [("id", BStr (Blocker_ID b)); ("identifier", BStr (Blocker_Identifier b));
                 ("state", BStr (Blocker_State b))]) bs.

Definition toIssueMap (iss : Issue) : list (string * binding) :=
  [("id", BStr (Issue_ID iss)); ("identifier", BStr (Issue_Identifier iss)); ("title", BStr (Issue_Title iss));
   ("description", BStr (Issue_Description iss));
   ("priority", match Issue_Priority iss with Some p => BInt p | None => BStr "" end);
   ("state", BStr (Issue_State iss)); ("branch_name", BStr (Issue_BranchName iss)); ("url", BStr (Issue_URL iss));
   ("labels", BStrs (Issue_Labels iss)); ("blocked_by", BMaps (toBlockerList (Issue_BlockedBy iss)));
   ("created_at", BTime (Issue_CreatedAt iss)); ("updated_at", BTime (Issue_UpdatedAt iss))].

Definition toProjectMap (p : ProjectVars) : list (string * binding) :=
  [("name", BStr (PV_Name p)); ("branch", BStr (PV_Branch p)); ("prompt", BStr (PV_Prompt p))].

Definition bindings (vars : Vars) : list (string * binding) :=
  [("issue", BMap (toIssueMap (Vars_Issue vars)));
   ("attempt", if (0 <? Vars_Attempt vars)%Z then BInt (Vars_Attempt vars) else BFalse);
   ("project", BMap (toProjectMap (Vars_Project vars)))].
End maps.

Definition Render (liquid : string -> list (string * binding) -> option string) (tmpl : string) (vars : Vars)
    : option string :=
  if decide (tmpl = EmptyString) then Some defaultPrompt else liquid tmpl (bindings vars).
End prompt.

Module agent.
Import json marshal codexclient.

(** ** projectmeta.go *)

Record projectMeta := mkProjectMeta { Meta_Name : string; Meta_Branch : string; Meta_Prompt : string }.

Definition resolveProjectMeta (yaml : string -> option yvalue) (p : Project) : projectMeta :=
  if decide (Project_Content p = EmptyString) then mkProjectMeta (Project_Name p) EmptyString EmptyString
  else
    match workflowfile.Parse yaml (Project_Content p) with
    | inr _ => mkProjectMeta (Project_Name p) EmptyString (Strings.TrimSpace (Project_Content p))
    | inl wf =>
      mkProjectMeta (Project_Name p)
        (match ylookup "branch" (workflowfile.WF_Config wf) with Some (YString s) => s | _ => EmptyString end)
        (workflowfile.WF_PromptTemplate wf)
    end.

(** ** dynamictools.go *)

Section tools.
Local Open Scope string_scope.
Definition linearGraphQLToolSpec : any := mapAny
  [("name", AStr "linear_graphql");
   ("description", AStr ("Execute a raw GraphQL query or mutation against Linear using the orchestrator's configured auth. "
      +:+ "Use this to read or transition issues (e.g. move to In Progress / Done), comment, and introspect the schema."));
   ("inputSchema", mapAny
      [("type", AStr "object"); ("additionalProperties", ABool false); ("required", AArr [AStr "query"]);
       ("properties", mapAny
          [("query", mapAny [("type", AStr "string");
              ("description", AStr "GraphQL query or mutation document to execute against Linear.")]);
           ("variables", mapAny [("type", AArr [AStr "object"; AStr "null"]);
              ("description", AStr "Optional GraphQL variables object."); ("additionalProperties", ABool true)])])])].
End tools.

Definition dynamicToolSpecs (linear : bool) : list any := if linear then [linearGraphQLToolSpec] else [].

(** ** handler.go *)

Record sessionIDs := mkSessionIDs { threadID : string; turnID : string }.
Definition sessionID (s : sessionIDs) : string := threadID s +:+ "-" +:+ turnID s.

Record turnResult := mkTurnResult { failed : bool; cancelled : bool; tr_err : option error }.

(** Events of the agent log: kind, session, error. *)
Record AgentEvent := mkAgentEvent { Ev_Kind : string; Ev_Session : sessionIDs; Ev_Err : option error }.
Definition EventSessionStarted : string := "session_started".
Definition EventTurnCompleted : string := "turn_completed".
Definition EventTurnFailed : string := "turn_failed".
Definition EventTurnCancelled : string := "turn_cancelled".
Definition EventStartupFailed : string := "startup_failed".
Definition EventUnsupportedToolCall : string := "unsupported_tool_call".

Record turnHandler := mkTurnHandler {
  h_threadID : string;
  h_turnID : string;
  h_turnStartedAt : option Time;
  sessionReady : option sessionIDs;
  turnDone : option turnResult;
}.
#[export] Instance eta_turnHandler : Eta turnHandler := fun h =>
  mkTurnHandler (h_threadID h) (h_turnID h) (h_turnStartedAt h) (sessionReady h) (turnDone h).
Definition newHandler : turnHandler := mkTurnHandler EmptyString EmptyString None None None.

(** A send that does not block: the slot keeps what it has. *)
Definition offer {A} (slot : option A) (x : A) : option A :=
  match slot with Some y => Some y | None => Some x end.

Definition extractString (params : RawMessage) (key : string) : string :=
  match Unmarshal (dMap EmptyString dRaw) params ∅ with
  | (_, true) => EmptyString
  | (p, false) => (Unmarshal dString (default EmptyString (p !! key)) EmptyString).1
  end.

Record threadId := mkThreadId { TI_ID : string }.
#[export] Instance eta_threadId : Eta threadId := fun t => mkThreadId (TI_ID t).
Record threadStarted := mkThreadStarted { TS_Thread : threadId }.
#[export] Instance eta_threadStarted : Eta threadStarted := fun t => mkThreadStarted (TS_Thread t).
Definition dThreadStarted : Decoder threadStarted := dStruct
  [fld "thread" TS_Thread (dStruct [fld "id" TI_ID dString])].
Definition extractThreadID (params : RawMessage) : string :=
  TI_ID (TS_Thread (Unmarshal dThreadStarted params (mkThreadStarted (mkThreadId EmptyString))).1).

(** codexschema/v2: the notifications that carry metrics. *)
Record breakdown := mkBreakdown { TB_Input : Z; TB_Output : Z; TB_Total : Z; TB_Cached : Z; TB_Reasoning : Z }.
#[export] Instance eta_breakdown : Eta breakdown := fun b =>
  mkBreakdown (TB_Input b) (TB_Output b) (TB_Total b) (TB_Cached b) (TB_Reasoning b).
Definition zeroBreakdown : breakdown := mkBreakdown 0 0 0 0 0.
Definition dBreakdown : Decoder breakdown := dStruct
  [fld "cachedInputTokens" TB_Cached dInt; fld "inputTokens" TB_Input dInt; fld "outputTokens" TB_Output dInt;
   fld "reasoningOutputTokens" TB_Reasoning dInt; fld "totalTokens" TB_Total dInt].
Record threadUsage := mkThreadUsage { TU_Last : breakdown; TU_Window : option Z; TU_Total : breakdown }.
#[export] Instance eta_threadUsage : Eta threadUsage := fun t =>
  mkThreadUsage (TU_Last t) (TU_Window t) (TU_Total t).
Definition dThreadUsage : Decoder threadUsage := dStruct
  [fld "last" TU_Last dBreakdown; fld "modelContextWindow" TU_Window (dPtr 0 dInt); fld "total" TU_Total dBreakdown].
Record usageNotification := mkUsageNotification { UN_ThreadID : string; UN_Usage : threadUsage; UN_TurnID : string }.
#[export] Instance eta_usageNotification : Eta usageNotification := fun n =>
  mkUsageNotification (UN_ThreadID n) (UN_Usage n) (UN_TurnID n).
Definition dUsageNotification : Decoder usageNotification := dStruct
  [fld "threadId" UN_ThreadID dString; fld "tokenUsage" UN_Usage dThreadUsage; fld "turnId" UN_TurnID dString].
Definition zeroUsageNotification : usageNotification :=
  mkUsageNotification EmptyString (mkThreadUsage zeroBreakdown None zeroBreakdown) EmptyString.

Record rateWindow := mkRateWindow { RW_ResetsAt : option Z; RW_UsedPercent : Z; RW_Duration : option Z }.
#[export] Instance eta_rateWindow : Eta rateWindow := fun w =>
  mkRateWindow (RW_ResetsAt w) (RW_UsedPercent w) (RW_Duration w).
Definition dRateWindow : Decoder rateWindow := dStruct
  [fld "resetsAt" RW_ResetsAt (dPtr 0 dInt); fld "usedPercent" RW_UsedPercent dInt;
   fld "windowDurationMins" RW_Duration (dPtr 0 dInt)].
Record creditsSnapshot := mkCredits { CS_Balance : option string; CS_HasCredits : bool; CS_Unlimited : bool }.
#[export] Instance eta_creditsSnapshot : Eta creditsSnapshot := fun c =>
  mkCredits (CS_Balance c) (CS_HasCredits c) (CS_Unlimited c).
Definition dCredits : Decoder creditsSnapshot := dStruct
  [fld "balance" CS_Balance (dPtr EmptyString dString); fld "hasCredits" CS_HasCredits dBool;
   fld "unlimited" CS_Unlimited dBool].
Record rateLimits := mkRateLimits {
  RL_Credits : option creditsSnapshot; RL_LimitID : option string; RL_LimitName : option string;
  RL_PlanType : option string; RL_Primary : option rateWindow; RL_Reached : option string;
  RL_Secondary : option rateWindow }.
#[export] Instance eta_rateLimits : Eta rateLimits := fun r =>
  mkRateLimits (RL_Credits r) (RL_LimitID r) (RL_LimitName r) (RL_PlanType r) (RL_Primary r) (RL_Reached r)
    (RL_Secondary r).
Definition dOptString : Decoder (option string) := dPtr EmptyString dString.
Definition dRateLimits : Decoder rateLimits := dStruct
  [fld "credits" RL_Credits (dPtr (mkCredits None false false) dCredits); fld "limitId" RL_LimitID dOptString;
   fld "limitName" RL_LimitName dOptString; fld "planType" RL_PlanType dOptString;
   fld "primary" RL_Primary (dPtr (mkRateWindow None 0 None) dRateWindow);
   fld "rateLimitReachedType" RL_Reached dOptString;
   fld "secondary" RL_Secondary (dPtr (mkRateWindow None 0 None) dRateWindow)].
Record rateNotification := mkRateNotification { RN_RateLimits : rateLimits }.
#[export] Instance eta_rateNotification : Eta rateNotification := fun n => mkRateNotification (RN_RateLimits n).
Definition dRateNotification : Decoder rateNotification := dStruct [fld "rateLimits" RN_RateLimits dRateLimits].
Definition zeroRateNotification : rateNotification :=
  mkRateNotification (mkRateLimits None None None None None None None).

Definition mapRateLimit (rl : rateLimits) : RateLimitSnapshot :=
  let pct w := match w with Some w => RW_UsedPercent w | None => 0 end in
  let at_ w := match w with Some w => default 0 (RW_ResetsAt w) | None => 0 end in
  mkRateLimitSnapshot (pct (RL_Primary rl)) (at_ (RL_Primary rl)) (pct (RL_Secondary rl)) (at_ (RL_Secondary rl)).

(** scheduler.CodexActivity. *)
Record CodexActivity := mkActivity {
  Act_IssueID : string; Act_Event : string; Act_Message : string; Act_Timestamp : Time;
  Act_Usage : option Usage; Act_RateLimit : option RateLimitSnapshot;
  Act_TurnDuration : option Duration; Act_TurnCompleted : bool }.
#[export] Instance eta_CodexActivity : Eta CodexActivity := fun a =>
  mkActivity (Act_IssueID a) (Act_Event a) (Act_Message a) (Act_Timestamp a) (Act_Usage a) (Act_RateLimit a)
    (Act_TurnDuration a) (Act_TurnCompleted a).

(** [OnNotification], first switch: the session. *)
Definition sessionNotification (h : turnHandler) (method : string) (params : RawMessage) (now : Time)
    (act : CodexActivity) : turnHandler * CodexActivity :=
  if decide (method = MethodThreadStarted) then (h <| h_threadID := extractThreadID params |>, act)
  else if decide (method = MethodTurnStarted) then
    let uid := extractString params "turnId" in
    let tid := extractString params "threadId" in
    let h := if decide (tid = EmptyString) then h else h <| h_threadID := tid |> in
    let h := h <| h_turnID := uid |> <| h_turnStartedAt := Some now |> in
    (h <| sessionReady := offer (sessionReady h) (mkSessionIDs (h_threadID h) uid) |>, act)
  else if decide (method = MethodTurnCompleted) then
    let act := match h_turnStartedAt h with
      | Some started => act <| Act_TurnDuration := Some (time.Sub now started) |>
      | None => act
      end in
    (h <| h_turnStartedAt := None |> <| turnDone := offer (turnDone h) (mkTurnResult false false None) |>,
     act <| Act_TurnCompleted := true |>)
  else if decide (method = MethodError) then
    (h <| turnDone := offer (turnDone h) (mkTurnResult true false (Some (extractString params "message"))) |>, act)
  else (h, act).

(** The second switch: metrics. *)
Definition enrich (method : string) (params : RawMessage) (act : CodexActivity) : CodexActivity :=
  if decide (method = MethodItemAgentMessageDelta) then act <| Act_Message := extractString params "delta" |>
  else if decide (method = MethodThreadTokenUsageUpdated) then
    match Unmarshal dUsageNotification params zeroUsageNotification with
    | (_, true) => act
    | (n, false) =>
      let t := TU_Total (UN_Usage n) in
      act <| Act_Usage := Some (mkUsage (UN_ThreadID n) (TB_Input t) (TB_Output t) (TB_Total t)) |>
    end
  else if decide (method = MethodAccountRateLimitsUpdated) then
    match Unmarshal dRateNotification params zeroRateNotification with
    | (_, true) => act
    | (n, false) => act <| Act_RateLimit := Some (mapRateLimit (RN_RateLimits n)) |>
    end
  else act.

Definition OnNotification (issueID : string) (h : turnHandler) (method : string) (params : RawMessage) (now : Time)
    : turnHandler * CodexActivity :=
  let act := mkActivity issueID method EmptyString now None None None false in
  let '(h, act) := sessionNotification h method params now act in
  (h, enrich method params act).

(** *** Requests of the server *)

Record toolCallParams := mkToolCallParams {
  TC_Tool : string; TC_Arguments : RawMessage; TC_CallID : string; TC_ThreadID : string; TC_TurnID : string }.
#[export] Instance eta_toolCallParams : Eta toolCallParams := fun p =>
  mkToolCallParams (TC_Tool p) (TC_Arguments p) (TC_CallID p) (TC_ThreadID p) (TC_TurnID p).
Definition dToolCall : Decoder toolCallParams := dStruct
  [fld "tool" TC_Tool dString; fld "arguments" TC_Arguments dRaw; fld "callId" TC_CallID dString;
   fld "threadId" TC_ThreadID dString; fld "turnId" TC_TurnID dString].
Record linearArgs := mkLinearArgs { LA_Query : string; LA_Variables : RawMessage }.
#[export] Instance eta_linearArgs : Eta linearArgs := fun a => mkLinearArgs (LA_Query a) (LA_Variables a).
Definition dLinearArgs : Decoder linearArgs := dStruct
  [fld "query" LA_Query dString; fld "variables" LA_Variables dRaw].

Section requests.
(** The linear client, if one is configured. *)
Context (execute : option (string -> RawMessage -> option lineargql.Result)).

(** [handleToolCall]: its reply, and the events it emits. *)
Definition handleToolCall (h : turnHandler) (id : Z) (params : RawMessage) : rpcMessage * list AgentEvent :=
  match Unmarshal dToolCall params (mkToolCallParams EmptyString EmptyString EmptyString EmptyString EmptyString) with
  | (_, true) => (ReplyError id "invalid tool call params", [])
  | (p, false) =>
    match execute with
    | Some run =>
      if decide (TC_Tool p = "linear_graphql"%string) then
        match Unmarshal dLinearArgs (TC_Arguments p) (mkLinearArgs EmptyString EmptyString) with
        | (_, true) => (ReplyError id "invalid linear_graphql arguments", [])
        | (args, false) =>
          match run (LA_Query args) (LA_Variables args) with
          | None => (ReplyError id "linear_graphql internal error", [])
          | Some result =>
            match Marshal (lineargql.resultAny result) with
            | None => (ReplyError id "linear_graphql result encode error", [])
            | Some out => (Reply id (AObj [("success"%string, ABool (lineargql.Success result));
                                           ("output"%string, AStr out)]), [])
            end
          end
        end
      else (ReplyError id ("unknown tool: " +:+ TC_Tool p),
            [mkAgentEvent EventUnsupportedToolCall (mkSessionIDs (h_threadID h) (h_turnID h)) None])
    | None => (ReplyError id ("unknown tool: " +:+ TC_Tool p),
            [mkAgentEvent EventUnsupportedToolCall (mkSessionIDs (h_threadID h) (h_turnID h)) None])
    end
  end.

Record requestOutcome := mkOutcome {
  out_handler : turnHandler; out_replies : list rpcMessage;
  out_events : list AgentEvent; out_activity : list CodexActivity }.

Definition OnServerRequest (issueID : string) (h : turnHandler) (id : Z) (method : string) (params : RawMessage)
    (now : Time) : requestOutcome :=
  if decide (method = MethodItemCommandExecutionRequestApproval \/ method = MethodItemFileChangeRequestApproval)
  then mkOutcome h [Reply id (mapAny [("decision"%string, AStr ApprovalAcceptForSession)])] [] []
  else if decide (method = MethodItemToolCall) then
    let '(reply, events) := handleToolCall h id params in mkOutcome h [reply] events []
  else if decide (method = MethodItemToolRequestUserInput) then
    mkOutcome
      (h <| turnDone := offer (turnDone h) (mkTurnResult true false (Some "user input required"%string)) |>)
      [ReplyError id "user input required: automated orchestration cannot provide user input"] []
      [mkActivity issueID "turn_input_required" EmptyString now None None None false]
  else mkOutcome h [ReplyError id "unsupported"] [] [].
End requests.
End agent.
