(* ===== verification/AgentRun.v ===== *)
(** * orchestrator/agent: starting a session and its run loop

    [runner.go] and [worker.go].  [spawnWith] is sequential: it asks its
    surroundings for a workspace, a wrapped command, a process and a session.
    [runLoop] runs beside the goroutine that reads the process, beside the
    scheduler that may kill the worker, and beside the process itself; [astep]
    interleaves them.  A [select] with several ready cases takes any of them. *)

From S2P Require Import Prelude GoStd GoText GoJson GoMarshal GoPath Metrics Tracker WfConfig WfResolve GoIO.
From S2P Require Import Workspace SchedState SchedReduce SchedShell CodexConn LinearGql Agent.
Open Scope Z_scope.

Module agentrun.
Import json marshal codexclient agent.

(** ** Starting a session *)

Inductive Call :=
| CWorkspace (c : workspace.OsCall)
| CWrap (frameID : string) (startDir : string)
| CSpawn
| CRequest (method : string) (params : any)
| CNotify (m : rpcMessage)
| CAwaitSession          (** the select on sessionReady, the spawn timeout and doneCh *)
| CCancel
| CAwaitDone
| CCleanup
| CStartLoop
| CEvent (e : AgentEvent).

Inductive Reply :=
| RWorkspace (r : workspace.OsReply)
| RWrapped (startDir : string) (cleanup : bool)
| ROk
| RRaw (raw : RawMessage)
| RSession (ids : sessionIDs)
| RErr (err : string).

Abbreviation M := (Eff Call Reply).

(** The calls of a workspace operation among the others. *)
Definition liftWs {A} (m : workspace.MOs A) : M A := fun w h =>
  let ask hs c := match w (h ++ map CWorkspace hs) (CWorkspace c) with
                  | RWorkspace r => r | _ => workspace.RErr "" end in
  let '(x, hs) := m ask [] in (x, h ++ map CWorkspace hs).

Definition emit (e : AgentEvent) : M () := _ ← call (CEvent e); mret ().

(** [None] for success. *)
Definition tryCall (c : Call) : M (option string) :=
  r ← call c; mret (match r with RErr err => Some err | _ => None end).

Section runner.
Context (yaml : string -> option yvalue).
Context (liquid : string -> list (string * prompt.binding) -> option string).
Context (absOf evalSymlinks : string -> option string).
Context (splitArgs : string -> option (list string)).
Context (ws : workspace.Manager) (cfg : Config) (template : string) (linear : bool).

Definition ensureWorkspace (identifier branch : string) : M (string + string) :=
  p ← liftWs (workspace.Ensure ws identifier branch);
  match p with
  | inr _ => mret (inr "agent: workspace ensure"%string)
  | inl wsPath =>
    match workspace.VerifyCWD ws absOf evalSymlinks identifier wsPath with
    | Some _ => mret (inr "agent: verify cwd"%string)
    | None => mret (inl wsPath)
    end
  end.

Definition renderPrompt (issue : Issue) (attempt : Z) (meta : projectMeta) : option string :=
  prompt.Render liquid template (prompt.mkVars issue attempt
    (prompt.mkProjectVars (Meta_Name meta) (Meta_Branch meta) (Meta_Prompt meta))).

(** Where the process runs, and whether the launch has something to clean up. *)
Definition launchConn (frameID wsPath : string) : M ((string * bool) + string) :=
  match splitArgs (Codex_Command (Config_Codex cfg)) with
  | None => mret (inr "agent: parse command"%string)
  | Some argv =>
    r ← call (CWrap frameID wsPath);
    match r with
    | RWrapped startDir cleanup =>
      err ← tryCall CSpawn;
      match err with
      | Some err =>
        _ ← (if cleanup then tryCall CCleanup else mret None);
        mret (inr err)
      | None => mret (inl (startDir, cleanup))
      end
    | RErr err => mret (inr ("agent: dispatch wrap: " +:+ err))
    | _ => mret (inr "agent: dispatch wrap"%string)
    end
  end.

Definition buildThreadOptions (issue : Issue) : ThreadOptions :=
  mkThreadOptions (ApprovalPolicy (Config_Codex cfg)) (ThreadSandbox (Config_Codex cfg))
    (if decide (Issue_Identifier issue = EmptyString) then EmptyString
     else if decide (Issue_Title issue = EmptyString) then Issue_Identifier issue
     else Issue_Identifier issue +:+ ": " +:+ Issue_Title issue).

Definition buildTurnOptions : TurnOptions :=
  mkTurnOptions (ApprovalPolicy (Config_Codex cfg)) (TurnSandboxPolicy (Config_Codex cfg)).

(** [codexclient.Initialize], [StartThread]: a request and what its reply says. *)
Definition Initialize : M (option string) :=
  err ← tryCall (CRequest MethodInitialize initializeParams);
  match err with
  | Some err => mret (Some err)
  | None => tryCall (CNotify (Notify MethodInitialized (mapAny [])))
  end.

Definition StartThread (cwd : string) (opts : ThreadOptions) : M (ThreadSession + string) :=
  r ← call (CRequest MethodThreadStart (startThreadParams cwd (dynamicToolSpecs linear) opts));
  mret (match r with
        | RRaw raw => match decodeThreadSession raw with Some s => inl s | None => inr "decode"%string end
        | RErr err => inr err
        | _ => inr EmptyString
        end).

Definition initSession (startDir rendered : string) (issue : Issue) : M (sessionIDs + string) :=
  err ← Initialize;
  match err with
  | Some err => mret (inr ("agent: initialize: " +:+ err))
  | None =>
    session ← StartThread startDir (buildThreadOptions issue);
    match session with
    | inr err => mret (inr ("agent: start thread: " +:+ err))
    | inl session =>
      err ← tryCall (CNotify (StartTurn (TS_ThreadID session) startDir rendered buildTurnOptions));
      match err with
      | Some err => mret (inr ("agent: start turn: " +:+ err))
      | None =>
        r ← call CAwaitSession;
        mret (match r with RSession ids => inl ids | RErr err => inr err | _ => inr EmptyString end)
      end
    end
  end.

(** [spawnWith] between [ensureWorkspace] and its deferred [AfterRun]. *)
Definition startSession (issue : Issue) (attempt : Z) (meta : projectMeta) (wsPath : string) : M (sessionIDs + string) :=
  hookErr ← liftWs (workspace.BeforeRun ws (Issue_Identifier issue) (Meta_Branch meta));
  match hookErr with
  | Some _ => mret (inr "agent: before run"%string)
  | None =>
    match renderPrompt issue attempt meta with
    | None => mret (inr "agent: render prompt"%string)
    | Some rendered =>
      let frameID := Issue_Identifier issue +:+ "#" +:+ strconv.Itoa attempt in
      lr ← launchConn frameID wsPath;
      match lr with
      | inr err => _ ← call CCancel; mret (inr err)
      | inl (startDir, cleanup) =>
        ids ← initSession startDir rendered issue;
        match ids with
        | inr err =>
          _ ← call CCancel;
          _ ← call CAwaitDone;
          _ ← emit (mkAgentEvent EventStartupFailed (mkSessionIDs EmptyString EmptyString) (Some err));
          mret (inr err)
        | inl ids =>
          _ ← call CStartLoop;
          _ ← emit (mkAgentEvent EventSessionStarted ids None);
          mret (inl ids)
        end
      end
    end
  end.

Definition spawnWith (issue : Issue) (attempt : Z) : M (sessionIDs + string) :=
  let meta := resolveProjectMeta yaml (Issue_Project issue) in
  p ← ensureWorkspace (Issue_Identifier issue) (Meta_Branch meta);
  match p with
  | inr err => mret (inr err)
  | inl wsPath =>
    r ← startSession issue attempt meta wsPath;
    match r with
    | inl ids => mret (inl ids)
    | inr err =>
      _ ← liftWs (workspace.AfterRun ws (Issue_Identifier issue) (Meta_Branch meta));
      mret (inr err)
    end
  end.
End runner.

(** ** The run loop *)

(** Where the loop is: waiting for the turn; past the turn timeout, waiting
    for the process; waiting for the next turn to start; in [teardown]; done. *)
Inductive pc :=
| PAwait (turn : Z)
| PTimedOut (turn : Z)
| PNext (turn : Z)
| PTeardown (err : option error)
| PExited (err : option error).

(** [scheduler.WorkerExit] and the capacity of the channel of them. *)
Record WorkerExit := mkWorkerExit { Exit_IssueID : string; Exit_Err : option error; Exit_Attempt : Z }.
Definition workerDoneCap : Z := 64.

Record Run := mkRun {
  r_pc : pc;
  r_ids : sessionIDs;
  r_handler : turnHandler;
  r_done : bool;          (** doneCh is closed: the process is gone *)
  r_cancelled : bool;     (** the worker's context is cancelled *)
  r_graceful : bool;
  r_killing : bool;       (** a [Kill] waits for the process *)
  r_cleanup : bool;       (** the launch has a cleanup *)
  r_cleanups : Z;         (** how often it ran *)
  r_afterRuns : Z;
  r_turns : Z;            (** continuation turns asked for *)
  r_sent : list rpcMessage;
  r_activity : list CodexActivity;
  r_events : list AgentEvent;
  r_workerDone : option (list WorkerExit); (** the scheduler's channel, [None] for nil *)
  r_exits : list WorkerExit;                            (** what this worker sent on it *)
  r_dropped : list (WorkerExit * list WorkerExit);      (** what it could not send, and the channel then *)
}.
#[export] Instance eta_Run : Eta Run := fun r =>
  mkRun (r_pc r) (r_ids r) (r_handler r) (r_done r) (r_cancelled r) (r_graceful r) (r_killing r) (r_cleanup r)
    (r_cleanups r) (r_afterRuns r) (r_turns r) (r_sent r) (r_activity r) (r_events r) (r_workerDone r)
    (r_exits r) (r_dropped r).

Definition startedRun (ids : sessionIDs) (h : turnHandler) (cleanup : bool)
    (workerDone : option (list WorkerExit)) : Run :=
  mkRun (PAwait 1) ids h false false false false cleanup 0 0 0 [] [] [] workerDone [] [].

(** [runCleanup]: [once] lets the cleanup, if there is one, run a single time. *)
Definition runCleanup (r : Run) : Run :=
  if negb (r_cleanup r) then r
  else if r_cleanups r =? 0 then r <| r_cleanups := 1 |> else r.

(** [sendWorkerExit]: the send does not wait; a full channel drops the exit. *)
Definition sendWorkerExit (issueID : string) (attempt : Z) (exitErr : option error) (r : Run) : Run :=
  match r_workerDone r with
  | None => r
  | Some queue =>
    let exit := mkWorkerExit issueID exitErr attempt in
    if Z.of_nat (length queue) <? workerDoneCap then
      r <| r_workerDone := Some (queue ++ [exit]) |> <| r_exits := r_exits r ++ [exit] |>
    else r <| r_dropped := r_dropped r ++ [(exit, queue)] |>
  end.

(** The other ends of the channel: another worker sends, the scheduler receives. *)
Inductive othersUse : list WorkerExit -> list WorkerExit -> Prop :=
| OU_send queue exit : Z.of_nat (length queue) < workerDoneCap -> othersUse queue (queue ++ [exit])
| OU_receive exit queue : othersUse (exit :: queue) queue.

Section loop.
Context (execute : option (string -> RawMessage -> option lineargql.Result)).
Context (cfg : Config) (issueID : string) (attempt : Z) (startDir : string).

(** [shouldContinue]; [refreshed] is the tracker's answer for the issue, if
    there is a tracker and it answers. *)
Definition shouldContinue (turn : Z) (refreshed : option (list Issue)) : bool :=
  if MaxTurns (Config_Agent cfg) <=? turn then false
  else
    match refreshed with
    | Some (issue :: _) =>
      existsb (fun s => String.eqb (strings.ToLower s) (strings.ToLower (Issue_State issue)))
        (Tracker_ActiveStates (Config_Tracker cfg))
    | _ => false
    end.

Definition continuationPrompt : string := "Continue working on the issue.".

Definition leave (r : Run) (err : option error) : Run := r <| r_cancelled := true |> <| r_pc := PTeardown err |>.
Definition log (r : Run) (kind : string) (err : option error) : Run :=
  r <| r_events := r_events r ++ [mkAgentEvent kind (r_ids r) err] |>.

(** The body of the loop after [awaitTurn]; [startErr] is the outcome of
    writing the next turn/start. *)
Definition afterTurn (r : Run) (turn : Z) (result : turnResult) (refreshed : option (list Issue))
    (startErr : option error) : Run :=
  if cancelled result then leave (log r EventTurnCancelled None) None
  else if failed result then leave (log r EventTurnFailed (tr_err result)) (tr_err result)
  else
    let r := log r EventTurnCompleted None in
    if negb (shouldContinue turn refreshed) then leave r None
    else
      match startErr with
      | Some err => leave r (Some ("agent: start turn " +:+ strconv.Itoa (turn + 1)%i64 +:+ ": " +:+ err))
      | None =>
        r <| r_sent := r_sent r ++ [StartTurn (threadID (r_ids r)) startDir continuationPrompt (buildTurnOptions cfg)] |>
          <| r_turns := r_turns r + 1 |> <| r_pc := PNext (turn + 1)%i64 |>
      end.

(** [awaitTurn] once the process is gone: its result, and the handler after a
    result was taken from it. *)
Definition exitResult (r : Run) : turnResult :=
  if r_graceful r then mkTurnResult false true None
  else
    match turnDone (r_handler r) with
    | Some result => result
    | None => mkTurnResult true false (Some (if r_cancelled r then "worker killed before turn completed"
                                             else "codex process exited unexpectedly")%string)
    end.
Definition takeDone (r : Run) : Run := r <| r_handler := r_handler r <| turnDone := None |> |>.

Definition gracefulReason (reason : string) : bool :=
  bool_decide (reason = "terminal"%string) || bool_decide (reason = "non-active"%string).

Definition timeoutError : error :=
  "turn timeout exceeded (" +:+ strconv.Itoa (TurnTimeoutMS (Config_Codex cfg)) +:+ "ms)".

Inductive astep : Run -> Run -> Prop :=
(** The reader. *)
| A_notified r method params now : r_done r = false ->
    let n := OnNotification issueID (r_handler r) method params now in
    astep r (r <| r_handler := n.1 |> <| r_activity := r_activity r ++ [n.2] |>)
| A_requested r id method params now : r_done r = false ->
    let out := OnServerRequest execute issueID (r_handler r) id method params now in
    astep r (r <| r_handler := out_handler out |> <| r_activity := r_activity r ++ out_activity out |>
               <| r_sent := r_sent r ++ out_replies out |> <| r_events := r_events r ++ out_events out |>)
(** The process. *)
| A_exit r : astep r (r <| r_done := true |>)
(** [Kill], up to its wait, and after it. *)
| A_kill r reason :
    astep r (r <| r_graceful := r_graceful r || gracefulReason reason |> <| r_cancelled := true |> <| r_killing := true |>)
| A_killed r : r_killing r = true -> r_done r = true -> astep r (runCleanup r <| r_killing := false |>)
(** [awaitTurn]. *)
| A_result r turn result refreshed startErr :
    r_pc r = PAwait turn -> turnDone (r_handler r) = Some result ->
    astep r (afterTurn (takeDone r) turn result refreshed startErr)
| A_timeout r turn :
    r_pc r = PAwait turn -> 0 < TurnTimeoutMS (Config_Codex cfg) ->
    astep r (r <| r_cancelled := true |> <| r_pc := PTimedOut turn |>)
| A_timedOut r turn refreshed startErr :
    r_pc r = PTimedOut turn -> r_done r = true ->
    astep r (afterTurn r turn (mkTurnResult true false (Some timeoutError)) refreshed startErr)
| A_exited r turn refreshed startErr :
    r_pc r = PAwait turn -> r_done r = true ->
    astep r (afterTurn (if r_graceful r then r else takeDone r) turn (exitResult r) refreshed startErr)
(** [nextTurn]. *)
| A_started r turn ids :
    r_pc r = PNext turn -> sessionReady (r_handler r) = Some ids ->
    astep r (r <| r_ids := ids |> <| r_handler := r_handler r <| sessionReady := None |> |> <| r_pc := PAwait turn |>)
| A_startTimeout r turn :
    r_pc r = PNext turn ->
    astep r (leave r (Some ("agent: timeout waiting for turn " +:+ strconv.Itoa turn +:+ " to start")))
| A_startExited r turn :
    r_pc r = PNext turn -> r_done r = true ->
    astep r (leave r (Some ("agent: codex exited before turn " +:+ strconv.Itoa turn +:+ " started")))
| A_startCancelled r turn :
    r_pc r = PNext turn -> r_cancelled r = true ->
    astep r (leave r (Some ("agent: context cancelled waiting for turn " +:+ strconv.Itoa turn)))
(** [teardown] and [sendWorkerExit]. *)
| A_teardown r err :
    r_pc r = PTeardown err -> r_done r = true ->
    astep r (sendWorkerExit issueID attempt err (runCleanup r <| r_afterRuns := r_afterRuns r + 1 |>)
               <| r_pc := PExited err |>)
(** The other users of the channel. *)
| A_channel r queue queue' :
    r_workerDone r = Some queue -> othersUse queue queue' -> astep r (r <| r_workerDone := Some queue' |>).

Inductive areach (r0 : Run) : Run -> Prop :=
| AR_start : areach r0 r0
| AR_step r r' : areach r0 r -> astep r r' -> areach r0 r'.
End loop.
End agentrun.
