(* ===== verification/AgentInv.v ===== *)
(** * Agent runs: teardown, turn limit, termination; sessions that fail to start *)

From S2P Require Import Prelude GoStd GoText GoJson GoMarshal GoPath Metrics Tracker WfConfig WfResolve GoIO.
From S2P Require Import Workspace SchedState SchedReduce SchedShell CodexConn LinearGql Agent AgentRun.
Open Scope Z_scope.

Import json marshal codexclient agent agentrun.

(** ** The run loop *)

Section loop.
Context (execute : option (string -> RawMessage -> option lineargql.Result)).
Context (cfg : Config) (issueID : string) (attempt : Z) (startDir : string).
Hypothesis turns_int : in_int64 (MaxTurns (Config_Agent cfg)).

Abbreviation step := (astep execute cfg issueID attempt startDir).
Abbreviation limit := (Z.max 1 (MaxTurns (Config_Agent cfg))).

(** The turn the loop is in. *)
Definition turnOf (p : pc) : option Z :=
  match p with PAwait t | PTimedOut t | PNext t => Some t | _ => None end.

Definition ended (p : pc) : bool := match p with PExited _ => true | _ => false end.

(** The exit was sent once, or met a full channel, or there is no channel. *)
Definition reported (r : Run) (err : option error) : Prop :=
  let exit := mkWorkerExit issueID err attempt in
  match r_workerDone r with
  | None => r_exits r = [] /\ r_dropped r = []
  | Some _ =>
    (r_exits r = [exit] /\ r_dropped r = []) \/
    (r_exits r = [] /\ exists queue, r_dropped r = [(exit, queue)] /\ workerDoneCap <= Z.of_nat (length queue))
  end.

Record run_ok (r : Run) : Prop := {
  ro_turn : forall t, turnOf (r_pc r) = Some t -> 1 <= t <= limit /\ r_turns r = t - 1;
  ro_turns : 0 <= r_turns r < limit;
  ro_cleanups : r_cleanups r = 0 \/ (r_cleanups r = 1 /\ r_done r = true /\ r_cleanup r = true);
  ro_live : ended (r_pc r) = false -> r_afterRuns r = 0 /\ r_exits r = [] /\ r_dropped r = [];
  ro_ended : forall err, r_pc r = PExited err ->
    r_afterRuns r = 1 /\ r_cleanups r = (if r_cleanup r then 1 else 0) /\ r_done r = true /\ reported r err;
}.

Lemma started_ok ids h cleanup chan : run_ok (startedRun ids h cleanup chan).
Proof. split; cbn; try done; [intros t [= <-]; lia|lia|by left]. Qed.

(** A step that leaves the loop where it is. *)
Lemma run_ok_aside r r' :
  r_pc r' = r_pc r -> r_turns r' = r_turns r -> r_cleanups r' = r_cleanups r -> r_afterRuns r' = r_afterRuns r ->
  r_exits r' = r_exits r -> r_dropped r' = r_dropped r -> r_cleanup r' = r_cleanup r ->
  (r_workerDone r' = None <-> r_workerDone r = None) ->
  (r_done r = true -> r_done r' = true) -> run_ok r -> run_ok r'.
Proof.
  intros E1 E2 E3 E4 E5 E6 E7 Ew Ed H. split; rewrite ?E1, ?E2, ?E3, ?E4, ?E5, ?E6, ?E7; try apply H.
  - destruct (ro_cleanups _ H) as [|(? & ? & ?)]; [by left|right; auto].
  - intros err He. destruct (ro_ended _ H err He) as (? & ? & ? & Hr). split_and!; auto.
    unfold reported in *. rewrite E5, E6.
    destruct (r_workerDone r), (r_workerDone r'); try done; [by pose proof (proj1 Ew eq_refl)|by pose proof (proj2 Ew eq_refl)].
Qed.

(** Leaving for [teardown]. *)
Lemma leave_ok r err : run_ok r -> ended (r_pc r) = false -> run_ok (leave r err).
Proof. intros H He. split; cbn; [done|apply H|apply H|by intros _; apply (ro_live _ H)|done]. Qed.

Lemma log_ok r kind err : run_ok r -> run_ok (log r kind err).
Proof. intros H. by apply (run_ok_aside r). Qed.

Lemma afterTurn_ok r turn result refreshed startErr :
  run_ok r -> turnOf (r_pc r) = Some turn -> ended (r_pc r) = false ->
  run_ok (afterTurn cfg startDir r turn result refreshed startErr).
Proof.
  intros H Ht He. unfold afterTurn. destruct (cancelled result); [by apply leave_ok; [apply log_ok|]|].
  destruct (failed result); [by apply leave_ok; [apply log_ok|]|].
  destruct (shouldContinue cfg turn refreshed) eqn:Ec; cbn [negb]; [|by apply leave_ok; [apply log_ok|]].
  destruct startErr; [by apply leave_ok; [apply log_ok|]|].
  destruct (ro_turn _ H _ Ht) as [Hb Hn]. pose proof (ro_turns _ H).
  assert (turn < MaxTurns (Config_Agent cfg)) as Hlt
    by (unfold shouldContinue in Ec; destruct (Z.leb_spec (MaxTurns (Config_Agent cfg)) turn); [done|lia]).
  unfold in_int64, int64_min, int64_max in *.
  rewrite (wrap64_id (turn + 1)) by (unfold in_int64, int64_min, int64_max; lia).
  split; cbn; [|lia|apply H|by intros _; apply (ro_live _ H)|done]. intros t [= <-]. lia.
Qed.

Lemma cleanup_ok r : run_ok r -> r_done r = true ->
  let q := runCleanup r in
  run_ok q /\ r_cleanups q = (if r_cleanup r then 1 else 0) /\ r_cleanup q = r_cleanup r /\
  r_pc q = r_pc r /\ r_afterRuns q = r_afterRuns r /\ r_exits q = r_exits r /\ r_dropped q = r_dropped r /\
  r_workerDone q = r_workerDone r /\ r_done q = true /\ r_turns q = r_turns r.
Proof.
  intros H Hd. unfold runCleanup. destruct (ro_cleanups _ H) as [E|(E & _ & Ec)]; rewrite E.
  - destruct (r_cleanup r) eqn:Ec; cbn [negb Z.eqb]; split_and!; try done.
    split; cbn; [apply H|apply H|by right|apply H|].
    intros err He. destruct (ro_ended _ H err He) as (? & ? & ? & ?). by rewrite Ec.
  - rewrite Ec. by split_and!.
Qed.

(** The end: the exit goes out, once. *)
Lemma teardown_ok r err : run_ok r -> r_pc r = PTeardown err -> r_done r = true ->
  run_ok (sendWorkerExit issueID attempt err (runCleanup r <| r_afterRuns := r_afterRuns r + 1 |>)
    <| r_pc := PExited err |>).
Proof.
  intros H Hp Hd. destruct (cleanup_ok r H Hd) as (_ & Ec & Ek & _ & Ea & Ee & Edr & Ew & Ed & Et).
  destruct (ro_live _ H) as (Ha & He & Hdr); [by rewrite Hp|]. pose proof (ro_turns _ H) as Hturns.
  set (q := runCleanup r) in *. clearbody q.
  unfold sendWorkerExit. cbn [r_workerDone].
  assert (r_workerDone (q <| r_afterRuns := r_afterRuns r + 1 |>) = r_workerDone r) as -> by done.
  destruct (r_workerDone r) as [queue|] eqn:Eq; [destruct (Z.ltb_spec (Z.of_nat (length queue)) workerDoneCap)|];
    (split; cbn; rewrite ?Ec, ?Ek, ?Ea, ?Ed, ?Et, ?Ha; [done|done|by destruct (r_cleanup r); auto|done|]);
    intros err' [= <-]; (split_and!; [done..|]); unfold reported; cbn; rewrite ?Ew, ?Ee, ?Edr, ?He, ?Hdr.
  - by left.
  - right. split; [done|]. by exists queue.
  - done.
Qed.

Lemma step_ok r r' : step r r' -> run_ok r -> run_ok r'.
Proof.
  intros Hs H. destruct Hs as [r method params now Hd|r id method params now Hd|r|r reason|r Hk Hd
    |r turn result refreshed startErr Hp Ht|r turn Hp Htm|r turn refreshed startErr Hp Hd
    |r turn refreshed startErr Hp Hd|r turn ids Hp Hr|r turn Hp|r turn Hp Hd|r turn Hp Hc|r err Hp Hd|r queue queue' Hq Hu].
  - by apply (run_ok_aside r).
  - by apply (run_ok_aside r).
  - by apply (run_ok_aside r).
  - by apply (run_ok_aside r).
  - destruct (cleanup_ok r H Hd) as (H' & _). by apply (run_ok_aside (runCleanup r)).
  - apply afterTurn_ok; [by apply (run_ok_aside r)|cbn; by rewrite Hp..].
  - split; cbn; [|apply H|apply H|by intros _; apply (ro_live _ H); rewrite Hp|done].
    intros t [= <-]. apply (ro_turn _ H). by rewrite Hp.
  - apply afterTurn_ok; [done|by rewrite Hp..].
  - assert (run_ok (if r_graceful r then r else takeDone r)) by (destruct (r_graceful r); [done|by apply (run_ok_aside r)]).
    apply afterTurn_ok; [done|destruct (r_graceful r); cbn; by rewrite Hp..].
  - split; cbn; [|apply H|apply H|by intros _; apply (ro_live _ H); rewrite Hp|done].
    intros t [= <-]. apply (ro_turn _ H). by rewrite Hp.
  - apply leave_ok; [done|by rewrite Hp].
  - apply leave_ok; [done|by rewrite Hp].
  - apply leave_ok; [done|by rewrite Hp].
  - by apply teardown_ok.
  - apply (run_ok_aside r); try done. cbn. by rewrite Hq.
Qed.

(** What a run does not change: whether there is a cleanup, and a channel. *)
Lemma step_fixed r r' : step r r' ->
  r_cleanup r' = r_cleanup r /\ (r_workerDone r' = None <-> r_workerDone r = None).
Proof.
  intros Hs.
  assert (forall r turn result refreshed startErr,
    let q := afterTurn cfg startDir r turn result refreshed startErr in
    r_cleanup q = r_cleanup r /\ r_workerDone q = r_workerDone r) as Hafter.
  { intros. subst q. unfold afterTurn. by repeat case_match. }
  assert (forall r, r_cleanup (runCleanup r) = r_cleanup r /\ r_workerDone (runCleanup r) = r_workerDone r) as Hclean.
  { intros q. unfold runCleanup. by repeat case_match. }
  destruct Hs as [r method params now Hd|r id method params now Hd|r|r reason|r Hk Hd
    |r turn result refreshed startErr Hp Ht|r turn Hp Htm|r turn refreshed startErr Hp Hd
    |r turn refreshed startErr Hp Hd|r turn ids Hp Hr|r turn Hp|r turn Hp Hd|r turn Hp Hc|r err Hp Hd|r queue queue' Hq Hu];
    try done.
  - cbn. by destruct (Hclean r) as [-> ->].
  - by destruct (Hafter (takeDone r) turn result refreshed startErr) as [-> ->].
  - destruct (Hafter (if r_graceful r then r else takeDone r) turn (exitResult r) refreshed startErr) as [-> ->].
    by destruct (r_graceful r).
  - destruct (Hclean r) as [E1 E2]. unfold sendWorkerExit. cbn. rewrite E2.
    destruct (r_workerDone r); [case_match|]; cbn; by rewrite ?E1, ?E2.
  - cbn. by rewrite Hq.
Qed.

Lemma areach_ok ids h cleanup chan r :
  areach execute cfg issueID attempt startDir (startedRun ids h cleanup chan) r ->
  run_ok r /\ r_cleanup r = cleanup /\ (r_workerDone r = None <-> chan = None).
Proof.
  induction 1 as [|r r' _ (IH & Hc & Hw) Hs]; [split; [apply started_ok|done]|].
  destruct (step_fixed _ _ Hs) as [E1 E2]. split; [by eapply step_ok|]. by rewrite E1, E2.
Qed.

(** ** The loop comes to its end *)

Definition rank (r : Run) : Z :=
  match r_pc r with
  | PAwait t => 4 * (limit - t) + 3
  | PTimedOut t => 4 * (limit - t) + 2
  | PNext t => 4 * (limit - t) + 4
  | PTeardown _ => 1
  | PExited _ => 0
  end.

Lemma leave_rank r err : rank (leave r err) = 1.
Proof. done. Qed.

Lemma afterTurn_rank r turn result refreshed startErr :
  run_ok r -> turnOf (r_pc r) = Some turn -> 2 <= rank r -> 4 * (limit - turn) + 2 <= rank r ->
  rank (afterTurn cfg startDir r turn result refreshed startErr) < rank r.
Proof.
  intros H Ht H2 Hr. unfold afterTurn.
  destruct (cancelled result); [rewrite leave_rank; lia|].
  destruct (failed result); [rewrite leave_rank; lia|].
  destruct (shouldContinue cfg turn refreshed) eqn:Ec; cbn [negb]; [|rewrite leave_rank; lia].
  destruct startErr; [rewrite leave_rank; lia|].
  destruct (ro_turn _ H _ Ht) as [Hb _].
  assert (turn < MaxTurns (Config_Agent cfg)) as Hlt
    by (unfold shouldContinue in Ec; destruct (Z.leb_spec (MaxTurns (Config_Agent cfg)) turn); [done|lia]).
  unfold in_int64, int64_min, int64_max in *.
  rewrite (wrap64_id (turn + 1)) by (unfold in_int64, int64_min, int64_max; lia).
  unfold rank at 1. cbn [r_pc]. change (4 * (limit - (turn + 1)) + 4 < rank r). lia.
Qed.

Lemma step_rank r r' : step r r' -> run_ok r ->
  (r_pc r' = r_pc r /\ rank r' = rank r) \/ rank r' < rank r.
Proof.
  intros Hs H.
  assert (forall t, turnOf (r_pc r) = Some t -> 4 * (limit - t) + 2 <= rank r /\ 2 <= rank r) as Hrank.
  { intros t Ht. destruct (ro_turn _ H _ Ht) as [Hb _]. unfold rank.
    destruct (r_pc r); try done; injection Ht as ->; lia. }
  destruct Hs as [r method params now Hd|r id method params now Hd|r|r reason|r Hk Hd
    |r turn result refreshed startErr Hp Ht|r turn Hp Htm|r turn refreshed startErr Hp Hd
    |r turn refreshed startErr Hp Hd|r turn ids Hp Hr|r turn Hp|r turn Hp Hd|r turn Hp Hc|r err Hp Hd|r queue queue' Hq Hu];
    try (by left; split); try (rewrite Hp in Hrank; destruct (Hrank turn eq_refl)).
  - left. destruct (cleanup_ok r H Hd) as (_ & _ & _ & Ep & _). unfold rank. cbn. by rewrite Ep.
  - right. change (rank r) with (rank (takeDone r)) in *. apply afterTurn_rank; try done; [by apply (run_ok_aside r)|].
    cbn. by rewrite Hp.
  - right. unfold rank in *. cbn. rewrite Hp in *. lia.
  - right. apply afterTurn_rank; try done. by rewrite Hp.
  - right. assert (run_ok (if r_graceful r then r else takeDone r)) by (destruct (r_graceful r); [done|by apply (run_ok_aside r)]).
    assert (rank r = rank (if r_graceful r then r else takeDone r)) as Er by (by destruct (r_graceful r)).
    rewrite Er in *. apply afterTurn_rank; try done. destruct (r_graceful r); cbn; by rewrite Hp.
  - right. unfold rank in *. cbn. rewrite Hp in *. lia.
  - right. rewrite leave_rank. lia.
  - right. rewrite leave_rank. lia.
  - right. rewrite leave_rank. lia.
  - right. unfold rank. cbn. rewrite Hp. lia.
Qed.

(** Once the process is gone, the loop can always go on, and does not wait for
    anything else. *)
Lemma progress r : run_ok r -> r_done r = true -> ended (r_pc r) = false ->
  exists r', step r r' /\ rank r' < rank r /\ r_done r' = true.
Proof.
  intros H Hd He.
  assert (forall r', step r r' -> r_pc r' <> r_pc r -> r_done r' = true ->
    exists r', step r r' /\ rank r' < rank r /\ r_done r' = true) as Hgo.
  { intros r' Hs Hne Hd'. exists r'. destruct (step_rank r r' Hs H) as [[E _]|Hr]; done. }
  assert (forall q turn result, r_done q = true ->
    let q' := afterTurn cfg startDir q turn result None None in
    r_done q' = true /\ r_pc q' <> PAwait turn /\ r_pc q' <> PTimedOut turn) as Hafter.
  { intros q turn result Hq. unfold afterTurn. destruct (cancelled result); [done|]. destruct (failed result); [done|].
    assert (shouldContinue cfg turn None = false) as -> by (unfold shouldContinue; by case_match). done. }
  destruct (r_pc r) as [t|t|t|err|err] eqn:Hp; [..|done].
  - destruct (Hafter (if r_graceful r then r else takeDone r) t (exitResult r)) as (Hd' & Hne & _);
      [by destruct (r_graceful r)|].
    by apply (Hgo _ (A_exited _ _ _ _ _ r t None None Hp Hd)).
  - destruct (Hafter r t (mkTurnResult true false (Some (timeoutError cfg))) Hd) as (Hd' & _ & Hne).
    by apply (Hgo _ (A_timedOut _ _ _ _ _ r t None None Hp Hd)).
  - by apply (Hgo _ (A_startExited _ _ _ _ _ r t Hp Hd)).
  - apply (Hgo _ (A_teardown _ _ _ _ _ r err Hp Hd)); [done|].
    destruct (ro_ended _ (teardown_ok r err H Hp Hd) err) as (_ & _ & ? & _); done.
Qed.

Lemma areach_trans r0 r1 r2 :
  areach execute cfg issueID attempt startDir r0 r1 -> areach execute cfg issueID attempt startDir r1 r2 ->
  areach execute cfg issueID attempt startDir r0 r2.
Proof. intros H1. induction 1; [done|]. by eapply AR_step. Qed.

Lemma rank_nonneg r : run_ok r -> 0 <= rank r.
Proof.
  intros Hq. unfold rank. pose proof (ro_turn _ Hq) as Ht.
  destruct (r_pc r); try lia; destruct (Ht _ eq_refl); lia.
Qed.

Lemma gone_ends r : run_ok r -> r_done r = true ->
  exists r', areach execute cfg issueID attempt startDir r r' /\ ended (r_pc r') = true.
Proof.
  remember (Z.to_nat (rank r)) as n eqn:En. revert r En.
  induction n as [n IH] using lt_wf_ind. intros r En H Hd.
  destruct (ended (r_pc r)) eqn:He; [exists r; split; [constructor|done]|].
  destruct (progress r H Hd He) as (r' & Hs & Hr & Hd'). pose proof (step_ok r r' Hs H) as H'.
  destruct (IH (Z.to_nat (rank r'))) with r' as (r'' & Hreach & Hend); [|done..|].
  - pose proof (rank_nonneg r H). pose proof (rank_nonneg r' H'). lia.
  - exists r''. split; [|done]. eapply areach_trans; [|exact Hreach]. eapply AR_step; [constructor|done].
Qed.

End loop.

(** ** Why a run ends *)

Section outcomes.
Context (execute : option (string -> RawMessage -> option lineargql.Result)).
Context (cfg : Config) (issueID : string) (attempt : Z) (startDir : string).

Definition res_ok (res : turnResult) : Prop := cancelled res = false /\ (failed res = true -> tr_err res <> None).
Definition handler_ok (h : turnHandler) : Prop := forall res, turnDone h = Some res -> res_ok res.

Lemma offer_ok (slot : option turnResult) x :
  (forall res, slot = Some res -> res_ok res) -> res_ok x -> forall res, offer slot x = Some res -> res_ok res.
Proof. intros Hs Hx res. destruct slot; cbn; intros [= <-]; auto. Qed.

Lemma notified_ok h method params now : handler_ok h ->
  handler_ok (OnNotification issueID h method params now).1.
Proof.
  intros H. unfold OnNotification, sessionNotification.
  repeat case_match; simplify_eq; cbn; try done; unfold handler_ok; cbn; try done; by apply offer_ok.
Qed.

Lemma requested_ok h id method params now : handler_ok h ->
  handler_ok (out_handler (OnServerRequest execute issueID h id method params now)).
Proof.
  intros H. unfold OnServerRequest. repeat case_match; cbn; try done. unfold handler_ok. cbn. by apply offer_ok.
Qed.

(** What justifies a run that ends without an error. *)
Definition excused (r : Run) : Prop :=
  exists e, e ∈ r_events r /\
    (Ev_Kind e = EventTurnCompleted \/ (Ev_Kind e = EventTurnCancelled /\ r_graceful r = true)).

Record outcome_ok (r : Run) : Prop := {
  oo_handler : handler_ok (r_handler r);
  oo_excused : r_pc r = PTeardown None \/ r_pc r = PExited None -> excused r;
}.

Lemma outcome_aside r r' :
  r_pc r' = r_pc r -> handler_ok (r_handler r') ->
  (exists more, r_events r' = r_events r ++ more) -> (r_graceful r = true -> r_graceful r' = true) ->
  outcome_ok r -> outcome_ok r'.
Proof.
  intros Hp Hh [more He] Hg H. split; [done|]. rewrite Hp. intros Hpc.
  destruct (oo_excused _ H Hpc) as (e & Hin & Hk). exists e. rewrite He. split; [set_solver|].
  destruct Hk as [?|[? ?]]; [by left|right; auto].
Qed.

Lemma afterTurn_outcome r turn result refreshed startErr :
  handler_ok (r_handler r) -> (cancelled result = true -> r_graceful r = true) ->
  (failed result = true -> tr_err result <> None) ->
  outcome_ok (afterTurn cfg startDir r turn result refreshed startErr).
Proof.
  intros Hh Hc Hf. unfold afterTurn.
  assert (forall kind e err, outcome_ok (leave (log r kind e) (Some err))) as Herr.
  { intros. split; [done|]. by intros [|]. }
  destruct (cancelled result).
  - split; [done|]. intros _. eexists. cbn. split; [apply elem_of_app; right; by apply list_elem_of_singleton|].
    right. split; [done|]. by apply Hc.
  - destruct (failed result).
    + destruct (tr_err result) as [err|]; [apply Herr|]. by destruct Hf.
    + assert (outcome_ok (leave (log r EventTurnCompleted None) None)) as Hok.
      { split; [done|]. intros _. eexists. cbn. split; [apply elem_of_app; right; by apply list_elem_of_singleton|by left]. }
      destruct (negb _); [done|]. destruct startErr; [apply Herr|]. split; [done|]. by intros [|].
Qed.

Lemma exitResult_ok r : handler_ok (r_handler r) ->
  (cancelled (exitResult r) = true -> r_graceful r = true) /\
  (failed (exitResult r) = true -> tr_err (exitResult r) <> None).
Proof.
  intros H. unfold exitResult. destruct (r_graceful r); [done|].
  destruct (turnDone (r_handler r)) as [res|] eqn:E; [|done]. destruct (H _ E) as [-> ?]. done.
Qed.

Lemma takeDone_ok r : handler_ok (r_handler (takeDone r)).
Proof. by intros res. Qed.

Lemma cleanup_outcome r : let q := runCleanup r in
  r_pc q = r_pc r /\ r_handler q = r_handler r /\ r_events q = r_events r /\ r_graceful q = r_graceful r.
Proof. unfold runCleanup. by repeat case_match. Qed.

Lemma torn_outcome err r :
  let q := sendWorkerExit issueID attempt err (runCleanup r <| r_afterRuns := r_afterRuns r + 1 |>) in
  r_handler q = r_handler r /\ r_events q = r_events r /\ r_graceful q = r_graceful r.
Proof.
  destruct (cleanup_outcome r) as (_ & <- & <- & <-). unfold sendWorkerExit. by repeat case_match.
Qed.

Lemma step_outcome r r' : astep execute cfg issueID attempt startDir r r' -> outcome_ok r -> outcome_ok r'.
Proof.
  intros Hs H. pose proof (oo_handler _ H) as Hh.
  destruct Hs as [r method params now Hd|r id method params now Hd|r|r reason|r Hk Hd
    |r turn result refreshed startErr Hp Ht|r turn Hp Htm|r turn refreshed startErr Hp Hd
    |r turn refreshed startErr Hp Hd|r turn ids Hp Hr|r turn Hp|r turn Hp Hd|r turn Hp Hc|r err Hp Hd|r queue queue' Hq Hu].
  - apply (outcome_aside r); try done; [by apply notified_ok|]. exists []. cbn. by rewrite app_nil_r.
  - apply (outcome_aside r); try done; [by apply requested_ok|]. by eexists.
  - apply (outcome_aside r); try done. exists []. cbn. by rewrite app_nil_r.
  - apply (outcome_aside r); try done; [exists []; cbn; by rewrite app_nil_r|]. cbn. by intros ->.
  - destruct (cleanup_outcome r) as (Ep & Eh & Ee & Eg). apply (outcome_aside r); cbn; rewrite ?Ep, ?Eh, ?Ee, ?Eg; try done.
    exists []. by rewrite app_nil_r.
  - destruct (Hh _ Ht) as [Hc Hf]. apply afterTurn_outcome; [apply takeDone_ok|by rewrite Hc|done].
  - split; [done|]. by intros [|].
  - by apply afterTurn_outcome.
  - destruct (exitResult_ok r Hh) as [Hc Hf].
    apply afterTurn_outcome; [destruct (r_graceful r); [done|apply takeDone_ok]|intros Hx%Hc; by rewrite Hx|done].
  - split; [done|]. by intros [|].
  - split; [done|]. by intros [|].
  - split; [done|]. by intros [|].
  - split; [done|]. by intros [|].
  - destruct (torn_outcome err r) as (Eh & Ee & Eg).
    set (q := sendWorkerExit _ _ _ _) in *. clearbody q.
    split; [cbn; by rewrite Eh|]. cbn. intros [|[= ->]]; [done|].
    destruct (oo_excused _ H) as (e & Hin & He); [by left|]. exists e. cbn. by rewrite Ee, Eg.
  - apply (outcome_aside r); try done. exists []. cbn. by rewrite app_nil_r.
Qed.

Lemma areach_outcome ids h cleanup chan r : handler_ok h ->
  areach execute cfg issueID attempt startDir (startedRun ids h cleanup chan) r -> outcome_ok r.
Proof.
  intros Hh. induction 1 as [|r r' _ IH Hs]; [|by eapply step_outcome].
  split; [done|by intros [|]].
Qed.
End outcomes.

(** ** Sessions that start, and sessions that do not

    The landmarks among the calls of [spawnWith]. *)

Inductive landmark := LBefore | LAfter | LWrap | LSpawn | LCleanup | LLoop | LFailed.

Definition mark (c : Call) : option landmark :=
  match c with
  | CWorkspace (workspace.CHook name _ _ _ _) =>
    if decide (name = "before_run"%string) then Some LBefore
    else if decide (name = "after_run"%string) then Some LAfter else None
  | CWrap _ _ => Some LWrap
  | CSpawn => Some LSpawn
  | CCleanup => Some LCleanup
  | CStartLoop => Some LLoop
  | CEvent e => if decide (Ev_Kind e = EventStartupFailed) then Some LFailed else None
  | _ => None
  end.

(** What [m] returns and the landmarks it passes. *)
Definition passes {A} (Q : A -> list landmark -> Prop) (m : M A) : Prop :=
  forall w h, exists calls, (m w h).2 = h ++ calls /\ Q (m w h).1 (omap mark calls).

Lemma passes_ret {A} (Q : A -> list landmark -> Prop) x : Q x [] -> passes Q (mret x).
Proof. intros H w h. exists []. split; [by rewrite app_nil_r|done]. Qed.

Lemma passes_call (Q : Reply -> list landmark -> Prop) c :
  (forall r, Q r (option_list (mark c))) -> passes Q (call c).
Proof.
  intros H w h. exists [c]. split; [done|]. cbn. specialize (H (w h c)). by destruct (mark c).
Qed.

Lemma passes_bind {A B} (P : A -> list landmark -> Prop) (Q : B -> list landmark -> Prop) (m : M A) (f : A -> M B) :
  passes P m -> (forall x ls, P x ls -> passes (fun y ls' => Q y (ls ++ ls')) (f x)) -> passes Q (m ≫= f).
Proof.
  intros Hm Hf w h. unfold mbind, Eff_bind. destruct (Hm w h) as (c1 & E1 & H1).
  destruct (m w h) as [x h']. cbn [fst snd] in *. subst h'.
  destruct (Hf _ _ H1 w (h ++ c1)) as (c2 & E2 & H2). exists (c1 ++ c2).
  split; [by rewrite E2, app_assoc|]. by rewrite omap_app.
Qed.

Lemma bind_run {A B} (m : M A) (f : A -> M B) w h : (m ≫= f) w h = f (m w h).1 w (m w h).2.
Proof. unfold mbind, Eff_bind. by destruct (m w h). Qed.

Lemma passes_weaken {A} (P Q : A -> list landmark -> Prop) m :
  (forall x ls, P x ls -> Q x ls) -> passes P m -> passes Q m.
Proof. intros H Hm w h. destruct (Hm w h) as (c & E & Hc). exists c. auto. Qed.

(** A workspace operation: the hooks it runs. *)
Lemma passes_lift {A} (Q : A -> list landmark -> Prop) (m : workspace.MOs A) :
  (forall w, Q (m w []).1 (omap mark (map CWorkspace (m w []).2))) -> passes Q (liftWs m).
Proof.
  intros H w h. unfold liftWs. set (ask := fun hs c => _). specialize (H ask). destruct (m ask []) as [x hs].
  exists (map CWorkspace hs). done.
Qed.

Lemma tryCall_passes c : mark c = None -> passes (fun _ ls => ls = []) (tryCall c).
Proof.
  intros H. unfold tryCall. eapply passes_bind; [apply (passes_call (fun _ ls => ls = [])); by rewrite H|].
  intros x ls ->. by apply passes_ret.
Qed.

Section spawn.
Context (yaml : string -> option yvalue).
Context (liquid : string -> list (string * prompt.binding) -> option string).
Context (absOf evalSymlinks : string -> option string).
Context (splitArgs : string -> option (list string)).
Context (ws : workspace.Manager) (cfg : Config) (template : string) (linear : bool).

(** The hook that is configured, if any. *)
Definition hookMark (script : string) (l : landmark) : list landmark :=
  if decide (script = EmptyString) then [] else [l].

Lemma Ensure_passes id branch : passes (fun _ ls => ls = []) (liftWs (workspace.Ensure ws id branch)).
Proof.
  apply passes_lift. intros w. unfold workspace.Ensure, workspace.ensureDir, workspace.runHook.
  unfold mret, mbind, Eff_ret, Eff_bind, call.
  repeat (case_match; simplify_eq; cbn); done.
Qed.

Lemma Ensure_path id branch w p : (workspace.Ensure ws id branch w []).1 = inl p -> workspace.Path ws id = inl p.
Proof.
  unfold workspace.Ensure, workspace.ensureDir, workspace.runHook.
  unfold mret, mbind, Eff_ret, Eff_bind, call.
  repeat (case_match; simplify_eq; cbn); try done; by intros [= <-].
Qed.

Lemma BeforeRun_passes id branch p : workspace.Path ws id = inl p ->
  passes (fun _ ls => ls = hookMark (Hooks_BeforeRun (workspace.M_hooks ws)) LBefore)
    (liftWs (workspace.BeforeRun ws id branch)).
Proof.
  intros Hp. apply passes_lift. intros w. unfold workspace.BeforeRun, workspace.runHook, hookMark. rewrite Hp.
  case_decide; done.
Qed.

Lemma AfterRun_passes id branch p : workspace.Path ws id = inl p ->
  passes (fun _ ls => ls = hookMark (Hooks_AfterRun (workspace.M_hooks ws)) LAfter)
    (liftWs (workspace.AfterRun ws id branch)).
Proof.
  intros Hp. apply passes_lift. intros w. unfold workspace.AfterRun, workspace.runHook, hookMark. rewrite Hp.
  unfold mret, mbind, Eff_ret, Eff_bind, call. case_decide; done.
Qed.

Lemma ensureWorkspace_passes id branch :
  passes (fun r ls => ls = [] /\ forall p, r = inl p -> workspace.Path ws id = inl p)
    (ensureWorkspace absOf evalSymlinks ws id branch).
Proof.
  unfold ensureWorkspace.
  eapply (passes_bind (fun r ls => ls = [] /\ forall p, r = inl p -> workspace.Path ws id = inl p)).
  - intros w h. destruct (Ensure_passes id branch w h) as (calls & E & Hc). exists calls. split; [exact E|]. split; [exact Hc|].
    intros p. unfold liftWs. set (ask := fun hs c => _). pose proof (Ensure_path id branch ask p) as Hp.
    destruct (workspace.Ensure ws id branch ask []) as [x hs]. exact Hp.
  - intros r ls [-> Hr]. destruct r as [p|err]; [|by apply passes_ret].
    destruct (workspace.VerifyCWD ws absOf evalSymlinks id p); [by apply passes_ret|]. apply passes_ret.
    split; [done|]. intros p' [= <-]. by apply Hr.
Qed.

(** The launch: the process runs, or what was wrapped is cleaned up. *)
Lemma launchConn_passes frameID wsPath :
  passes (fun r ls => match r with
    | inl _ => ls = [LWrap; LSpawn]
    | inr _ => ls = [] \/ ls = [LWrap] \/ ls = [LWrap; LSpawn] \/ ls = [LWrap; LSpawn; LCleanup]
    end) (launchConn splitArgs cfg frameID wsPath).
Proof.
  unfold launchConn. destruct (splitArgs _) as [argv|]; [|apply passes_ret; by left].
  eapply (passes_bind (fun _ ls => ls = [LWrap])); [by apply passes_call|]. intros r ls ->.
  destruct r as [| startDir cleanup| | | |]; try (apply passes_ret; by right; left).
  eapply (passes_bind (fun _ ls => ls = [LSpawn])).
  - unfold tryCall. eapply (passes_bind (fun _ ls => ls = [LSpawn])); [by apply passes_call|].
    intros r ls ->. by apply passes_ret.
  - intros [err|] ls ->; [|by apply passes_ret].
    eapply (passes_bind (fun _ ls => ls = [] \/ ls = [LCleanup])).
    + destruct cleanup; [|apply passes_ret; by left]. unfold tryCall.
      eapply (passes_bind (fun _ ls => ls = [LCleanup])); [by apply passes_call|].
      intros r ls ->. apply passes_ret. by right.
    + intros x ls [->| ->]; apply passes_ret; cbn; auto.
Qed.

Lemma initSession_passes startDir rendered issue :
  passes (fun _ ls => ls = []) (initSession cfg linear startDir rendered issue).
Proof.
  unfold initSession, Initialize, StartThread.
  eapply (passes_bind (fun _ ls => ls = [])).
  { eapply (passes_bind (fun _ ls => ls = [])); [by apply tryCall_passes|].
    intros [err|] ls ->; [by apply passes_ret|by apply tryCall_passes]. }
  intros [err|] ls ->; [by apply passes_ret|].
  eapply (passes_bind (fun _ ls => ls = [])).
  { eapply (passes_bind (fun _ ls => ls = [])); [by apply passes_call|]. intros r ls ->. by apply passes_ret. }
  intros [session|err] ls ->; [|by apply passes_ret].
  eapply (passes_bind (fun _ ls => ls = [])); [by apply tryCall_passes|].
  intros [err|] ls ->; [by apply passes_ret|].
  eapply (passes_bind (fun _ ls => ls = [])); [by apply passes_call|]. intros r ls ->. by apply passes_ret.
Qed.

(** The middle of a spawn that fails. *)
Definition failedMiddle (ls : list landmark) : Prop :=
  ls = [] \/ ls = [LWrap] \/ ls = [LWrap; LSpawn] \/ ls = [LWrap; LSpawn; LCleanup] \/ ls = [LWrap; LSpawn; LFailed].

Lemma startSession_passes issue attempt meta wsPath p :
  workspace.Path ws (Issue_Identifier issue) = inl p ->
  let before := hookMark (Hooks_BeforeRun (workspace.M_hooks ws)) LBefore in
  passes (fun r ls => match r with
    | inl _ => ls = before ++ [LWrap; LSpawn; LLoop]
    | inr _ => exists mid, ls = before ++ mid /\ failedMiddle mid
    end) (startSession liquid splitArgs ws cfg template linear issue attempt meta wsPath).
Proof.
  intros Hp before. unfold startSession, failedMiddle.
  eapply passes_bind; [by apply (BeforeRun_passes _ _ p)|]. intros hookErr ls ->. fold before.
  destruct hookErr; [apply passes_ret; exists []; auto|].
  destruct (renderPrompt _ _ _ _ _) as [rendered|]; [|apply passes_ret; exists []; auto].
  eapply passes_bind; [apply launchConn_passes|]. intros [[startDir cleanup]|err] ls.
  - intros ->. eapply passes_bind; [apply initSession_passes|]. intros [ids|err] ls ->.
    + eapply (passes_bind (fun _ ls => ls = [LLoop])); [by apply passes_call|]. intros r ls ->.
      eapply (passes_bind (fun _ ls => ls = [])).
      * unfold emit. eapply (passes_bind (fun _ ls => ls = [])); [by apply passes_call|]. intros r' ls ->. by apply passes_ret.
      * intros _ ls ->. by apply passes_ret.
    + eapply (passes_bind (fun _ ls => ls = [])); [by apply passes_call|]. intros r ls ->.
      eapply (passes_bind (fun _ ls => ls = [])); [by apply passes_call|]. intros r' ls ->.
      eapply (passes_bind (fun _ ls => ls = [LFailed])).
      * unfold emit. eapply (passes_bind (fun _ ls => ls = [LFailed])); [by apply passes_call|]. intros r'' ls ->. by apply passes_ret.
      * intros _ ls ->. apply passes_ret. exists [LWrap; LSpawn; LFailed]. rewrite app_nil_r. auto 10.
  - intros Hls. eapply (passes_bind (fun _ ls => ls = [])); [by apply passes_call|]. intros r ls' ->. apply passes_ret.
    exists ls. rewrite !app_nil_r. split; [done|]. tauto.
Qed.

(** What follows the workspace. *)
Lemma spawned_passes issue attempt meta wsPath p :
  workspace.Path ws (Issue_Identifier issue) = inl p ->
  let before := hookMark (Hooks_BeforeRun (workspace.M_hooks ws)) LBefore in
  let after := hookMark (Hooks_AfterRun (workspace.M_hooks ws)) LAfter in
  passes (fun r ls => match r with
    | inl _ => ls = before ++ [LWrap; LSpawn; LLoop]
    | inr _ => exists mid, failedMiddle mid /\ ls = before ++ mid ++ after
    end)
    (r ← startSession liquid splitArgs ws cfg template linear issue attempt meta wsPath;
     match r with
     | inl ids => mret (inl ids)
     | inr err => _ ← liftWs (workspace.AfterRun ws (Issue_Identifier issue) (Meta_Branch meta)); mret (inr err)
     end).
Proof.
  intros Hp before after. eapply passes_bind; [by apply (startSession_passes _ _ _ _ p)|]. intros [ids|err] ls.
  - intros ->. apply passes_ret. by rewrite app_nil_r.
  - intros (mid & -> & Hm). eapply passes_bind; [by apply (AfterRun_passes _ _ p)|]. intros x ls ->.
    apply passes_ret. exists mid. split; [done|]. rewrite !app_nil_r. cbn. by rewrite app_assoc.
Qed.

Lemma spawnWith_passes issue attempt w h :
  let before := hookMark (Hooks_BeforeRun (workspace.M_hooks ws)) LBefore in
  let after := hookMark (Hooks_AfterRun (workspace.M_hooks ws)) LAfter in
  let branch := Meta_Branch (resolveProjectMeta yaml (Issue_Project issue)) in
  let place := ensureWorkspace absOf evalSymlinks ws (Issue_Identifier issue) branch w h in
  let res := spawnWith yaml liquid absOf evalSymlinks splitArgs ws cfg template linear issue attempt w h in
  (exists calls, place.2 = h ++ calls /\ omap mark calls = []) /\
  match place.1 with
  | inr err => res = (inr err, place.2)
  | inl _ => exists calls, res.2 = place.2 ++ calls /\
    match res.1 with
    | inl _ => omap mark calls = before ++ [LWrap; LSpawn; LLoop]
    | inr _ => exists mid, failedMiddle mid /\ omap mark calls = before ++ mid ++ after
    end
  end.
Proof.
  intros before after branch place res. subst res.
  unfold spawnWith. cbv zeta. rewrite bind_run. fold branch. fold place.
  destruct (ensureWorkspace_passes (Issue_Identifier issue) branch w h) as (calls & E & Hm & Hp). fold place in E, Hp.
  clearbody place. split; [by exists calls|]. destruct place as [[p|err] h']; cbn [fst snd] in *; [|reflexivity].
  by apply (spawned_passes issue attempt _ p p), Hp.
Qed.
End spawn.
