(* ===== verification/AgentWire.v ===== *)
(** * The app-server and the agent at the two ends of the wire

    A turn that starts ends with exactly one turn/completed or error, its last
    message, and which of the two is decided by the last result claude printed;
    what the app-server says is what the agent understands; token usage adds up
    from claude's result lines to the accumulator. *)

From S2P Require Import Prelude GoStd GoText GoJson GoMarshal GoIO Metrics Tracker WfConfig WfResolve SchedState.
From S2P Require Import CodexConn StreamJson AppServer LinearGql Agent.
Open Scope Z_scope.

Import json marshal codexclient appserver.

(** The message that ends a turn, and the error it carries. *)
Inductive verdict : rpcMessage -> option string -> Prop :=
| turn_completed threadID turnID sessionID text :
    verdict (Notify MethodTurnCompleted
      (mapAny [("threadId", AStr threadID); ("turnId", AStr turnID); ("sessionId", AStr sessionID);
               ("text", AStr text)]%string)) None
| turn_failed threadID message : verdict (EmitTurnFailed threadID message) (Some message).

(** The messages of a turn that runs. *)
Definition streamedMethods : list string := [MethodItemAgentMessageDelta; MethodItemStarted; MethodItemCompleted].
Definition streamed (m : rpcMessage) : Prop :=
  exists method params, m = Notify method params /\ method ∈ streamedMethods.
Definition quiet (m : rpcMessage) : Prop :=
  streamed m \/ exists params, m = Notify MethodThreadTokenUsageUpdated params.

(** A turn's messages after its start. *)
Definition concluded (ms : list rpcMessage) (err : option string) : Prop :=
  exists pre v, ms = pre ++ [v] /\ Forall quiet pre /\ verdict v err.

(** The last result among the events of a process: what it makes of the turn,
    and the usage of a turn that completes. *)
Definition resultOf (ev : streamjson.Event) : option (bool * string * streamjson.Usage) :=
  match ev with streamjson.Result _ text isErr u => Some (isErr, text, u) | _ => None end.
Definition lastResult (stdout : string) : option (bool * string * streamjson.Usage) :=
  last (omap resultOf (streamjson.Scan stdout).1).
Definition outcomeOf (p : (string * option string) + string) : option string :=
  match p with
  | inr err => Some err
  | inl (stdout, werr) =>
    match lastResult stdout, werr with
    | None, Some err => Some ("claude exited: " +:+ err)
    | None, None => Some "claude exited without emitting a result"%string
    | Some (true, text, _), _ => Some text
    | Some (false, _, _), _ => None
    end
  end.
Definition spendOf (p : (string * option string) + string) : option streamjson.Usage :=
  match p with
  | inl (stdout, _) => match lastResult stdout with Some (false, _, u) => Some u | _ => None end
  | inr _ => None
  end.

Section turns.
Context (wok : rpcMessage -> bool).

Lemma emit_streamed method params : method ∈ streamedMethods -> Forall streamed (emit wok (Notify method params)).
Proof. intros H. unfold emit. case_match; repeat constructor. by exists method, params. Qed.

Lemma streamed_join {A} (f : A -> list rpcMessage) l : (forall x, Forall streamed (f x)) -> Forall streamed (mjoin (map f l)).
Proof.
  intros H. induction l as [|x l IH]; [constructor|]. cbn. apply Forall_app_2; [apply H|exact IH].
Qed.

Lemma toolResult_streamed threadID turnID names tr : Forall streamed (emitToolResult wok threadID turnID names tr).
Proof. apply emit_streamed. set_solver. Qed.

Lemma scanEvents_streamed threadID turnID evs : forall names r out,
  Forall streamed (scanEvents wok threadID turnID evs names r out).2.
Proof.
  induction evs as [|ev evs IH]; intros names r out; cbn [scanEvents]; [constructor|].
  destruct ev as [sid|text tus|tr|trs|sub text isErr u|ty]; cbv beta iota zeta;
    match goal with |- context [scanEvents wok threadID turnID evs ?n ?r ?o] => pose proof (IH n r o) as E end;
    destruct (scanEvents _ _ _ _ _ _ _) as [[r1 out1] more]; cbn [snd] in *;
    try exact E; apply Forall_app_2; try exact E.
  - apply Forall_app_2.
    + case_decide; [constructor|]. apply emit_streamed. set_solver.
    + apply streamed_join. intros tu. apply emit_streamed. set_solver.
  - apply toolResult_streamed.
  - apply streamed_join. intros. apply toolResult_streamed.
Qed.

(** What the scan remembers is the last result. *)
Definition scanOf (out : turnScanResult) : option (bool * string * streamjson.Usage) :=
  if resultReceived out then Some (isError out, resultText out, usage out) else None.
Lemma scanEvents_result threadID turnID evs : forall names r out,
  scanOf (scanEvents wok threadID turnID evs names r out).1.2
    = match last (omap resultOf evs) with Some x => Some x | None => scanOf out end.
Proof.
  induction evs as [|ev evs IH]; intros names r out; cbn [scanEvents]; [done|].
  destruct ev as [sid|text tus|tr|trs|sub text isErr u|ty]; cbv beta iota zeta;
    match goal with |- context [scanEvents wok threadID turnID evs ?n ?r ?o] => pose proof (IH n r o) as E end;
    destruct (scanEvents _ _ _ _ _ _ _) as [[r1 out1] more]; cbn [fst snd omap list_omap resultOf] in *;
    try exact E. rewrite E. fold (omap resultOf evs). rewrite last_cons.
  by destruct (last (omap resultOf evs)).
Qed.
End turns.

(** When writes succeed, a turn's messages end with its verdict. *)
Section verdicts.
Context (newID : Z -> string).
Context (launch : string -> string -> string -> string -> list string -> (string * option string) + string).
Context (listen : string -> option string).
Abbreviation ok := (fun _ : rpcMessage => true).

Lemma concluded_app a b e : Forall quiet a -> concluded b e -> concluded (a ++ b) e.
Proof.
  intros Ha (pre & v & -> & Hp & Hv). exists (a ++ pre), v. rewrite app_assoc. split_and!; [done| |done].
  by apply Forall_app_2.
Qed.

Lemma failed_concluded threadID msg : concluded (emit ok (EmitTurnFailed threadID msg)) (Some msg).
Proof. exists [], (EmitTurnFailed threadID msg). split_and!; [done|constructor|constructor]. Qed.

Lemma runTurnLoop_concluded threadID turnID sessionID cwd prompt sys bridge r :
  concluded (runTurnLoop launch ok threadID turnID sessionID cwd prompt sys bridge r).2
    (outcomeOf (launch cwd (default EmptyString (threads r !! threadID)) sys prompt
      (match bridge with Some sock => ["TOOL_BRIDGE_SOCKET=" +:+ sock] | None => [] end))).
Proof.
  unfold runTurnLoop. cbv zeta. destruct (launch _ _ _ _ _) as [[stdout werr]|err]; [|apply failed_concluded].
  unfold scanStream, outcomeOf, lastResult.
  pose proof (scanEvents_streamed ok threadID turnID (streamjson.Scan stdout).1 ∅ r zeroScan) as Hq.
  pose proof (scanEvents_result ok threadID turnID (streamjson.Scan stdout).1 ∅ r zeroScan) as Hr.
  destruct (scanEvents _ _ _ _ _ _ _) as [[r1 scan] sent]. cbn [fst snd] in *.
  apply (Forall_impl _ quiet) in Hq; [|intros m Hm; by left].
  unfold scanOf, zeroScan in Hr. cbn [resultReceived] in Hr.
  destruct (last _) as [[[isErr text] u]|], (resultReceived scan); try done; cbn [negb].
  - injection Hr as -> -> ->. destruct isErr.
    + apply concluded_app; [done|apply failed_concluded].
    + unfold completeTurn. cbn [snd]. apply concluded_app; [done|]. apply concluded_app.
      * constructor; [|constructor]. right. eexists. reflexivity.
      * eexists [], _. split_and!; [done|constructor|constructor].
  - apply concluded_app; [done|]. destruct werr; apply failed_concluded.
Qed.

(** The ids a turn runs under, and how it ends. *)
Definition turnThread (r : turnRunner) (req : turnReq) : string :=
  if decide (TR_threadID req = EmptyString) then newID (issued r) else TR_threadID req.
Definition turnCount (r : turnRunner) (req : turnReq) : Z :=
  if decide (TR_threadID req = EmptyString) then issued r + 1 else issued r.
Definition turnId (r : turnRunner) (req : turnReq) : string := newID (turnCount r req).
Definition turnProcess (r : turnRunner) (req : turnReq) : (string * option string) + string :=
  let tools := default [] (dynTools r !! turnThread r req) in
  let sock := socketPathFor (newID (turnCount r req + 1)) in
  let run := launch (TR_cwd req) (default EmptyString (threads r !! turnThread r req))
    (buildCLISystemPrompt tools) (TR_prompt req) in
  match tools with
  | [] => run []
  | _ => match listen sock with
         | Some err => inr ("tool bridge listen: " +:+ err)
         | None => run ["TOOL_BRIDGE_SOCKET=" +:+ sock]
         end
  end.

Definition turnStarted (threadID turnID : string) : rpcMessage :=
  Notify MethodTurnStarted (mapAny [("threadId", AStr threadID); ("turnId", AStr turnID);
    ("sessionId", AStr (threadID +:+ "-" +:+ turnID))]%string).

Lemma runTurn_concluded r req :
  exists rest, (runTurn newID launch listen ok r req).2
      = (if decide (TR_threadID req = EmptyString) then [EmitThreadStarted (turnThread r req) (TR_cwd req)] else [])
        ++ turnStarted (turnThread r req) (turnId r req) :: rest /\
    concluded rest (outcomeOf (turnProcess r req)).
Proof.
  unfold runTurn, turnProcess, turnId, turnThread, turnCount, freshID. cbn [negb]. rewrite andb_false_r.
  case_decide as Ef; [rewrite bool_decide_eq_true_2 by done|rewrite bool_decide_eq_false_2 by done]; cbv zeta;
  destruct r as [th cum dt n]; cbn;
  match goal with |- context [default [] (dt !! ?tid)] =>
    pose proof (fun uid sid => runTurnLoop_concluded tid uid sid (TR_cwd req) (TR_prompt req)) as Hc;
    destruct (default [] (dt !! tid)) as [|t ts]
  end.
  all: try (match goal with |- context [listen ?sock] => destruct (listen sock) as [err|] end;
    [by eexists; split; [reflexivity|apply failed_concluded]|]).
  all: match goal with |- context [runTurnLoop _ _ _ ?uid ?sid _ _ ?sys ?b ?r'] => specialize (Hc uid sid sys b r') end;
    destruct (runTurnLoop _ _ _ _ _ _ _ _ _ _) as [r3 more]; by exists more.
Qed.
End verdicts.

(** ** What one says and the other understands *)

Open Scope Z_scope.

Import json marshal codexclient appserver.

(** ** Parameters read by key *)

(** [extractString] on marshalled parameters: the last member of that name. *)
Lemma extract_text n ms key :
  wf n (AObj ms) -> (n <= maxNestingDepth)%nat ->
  agent.extractString (text (AObj ms)) key
    = (Unmarshal dString (default EmptyString
        (foldl (fun m km => <[km.1 := (dRaw km.2 EmptyString).1]> m) (∅ : gmap string RawMessage) (enc ms) !! key))
        EmptyString).1.
Proof.
  intros Hw Hn. unfold agent.extractString, Unmarshal at 1. rewrite (parse_text n) by done.
  cbn [valueOf dMap snd]. fold (enc ms).
  match goal with |- context [existsb ?f ?l] => assert (existsb f l = false) as -> end; [|done].
  clear Hw. induction ms as [|m ms IH]; [done|]. exact IH.
Qed.

Lemma read_quote s : Unmarshal dString (quote s) EmptyString = (ToValid s, false).
Proof.
  unfold Unmarshal. change (quote s) with (text (AStr s)). rewrite (parse_text 0); [done|constructor|lia].
Qed.

(** The key occurs once. *)
Lemma extract_once n ms ms' key s :
  wf n (AObj (ms ++ (key, AStr s) :: ms')) -> (n <= maxNestingDepth)%nat ->
  ToValid key = key -> Forall (fun m => ToValid m.1 <> key) ms' ->
  agent.extractString (text (AObj (ms ++ (key, AStr s) :: ms'))) key = ToValid s.
Proof.
  intros Hw Hn Hk Hms. rewrite (extract_text n) by done. rewrite enc_app, foldl_app.
  cbn [enc map foldl fst snd]. rewrite Hk. fold (enc ms').
  assert (forall g : gmap string RawMessage, foldl (fun m km => <[km.1 := (dRaw km.2 EmptyString).1]> m) g (enc ms') !! key
    = g !! key) as Hrest.
  { clear Hw. induction Hms as [|m ms' Hm _ IH]; intros g; [done|]. cbn [enc map foldl]. fold (enc ms').
    rewrite IH. by rewrite lookup_insert_ne. }
  rewrite Hrest, lookup_insert_eq. cbn [default dRaw fst text]. unfold id. by rewrite read_quote.
Qed.

(** The parameters of a notification that are a map of strings. *)
Definition strings (l : list (string * string)) : list (string * any) := map (fun m => (m.1, AStr m.2)) l.

Lemma strings_wf l : wf 1 (AObj (strings l)).
Proof. constructor. induction l; repeat constructor; done. Qed.

Lemma extract_mustJSON a l l' key s :
  a = AObj (strings l ++ (key, AStr s) :: strings l') ->
  ToValid key = key -> Forall (fun m => ToValid m.1 <> key) (strings l') ->
  agent.extractString (mustJSON a) key = ToValid s.
Proof.
  intros -> Hk Hl. assert (strings l ++ (key, AStr s) :: strings l' = strings (l ++ (key, s) :: l')) as E.
  { unfold strings. by rewrite map_app. }
  pose proof (strings_wf (l ++ (key, s) :: l')) as Hw. rewrite <- E in Hw.
  pose proof (mustJSON_wf 1 _ Hw) as [_ ->]; [unfold maxNestingDepth; lia|].
  apply (extract_once 1); [done|unfold maxNestingDepth; lia|done|done].
Qed.

(** ** The client's read loop *)

Section reading.
Context (issueID : string) (now : Time).

(** What a notification does to the handler. *)
Definition noticed (h : agent.turnHandler) (m : rpcMessage) : agent.turnHandler :=
  (agent.OnNotification issueID h (Msg_Method m) (Msg_Params m) now).1.

(** What a line of the server does. *)
Definition hear (h : agent.turnHandler) (data : string) : agent.turnHandler :=
  match classify data with
  | InNotification method params => (agent.OnNotification issueID h method params now).1
  | _ => h
  end.
Definition hearAll (h : agent.turnHandler) (stream : string) : agent.turnHandler :=
  foldl hear h (readMessages stream).

Definition plain (m : rpcMessage) : Prop :=
  Msg_ID m = None /\ Msg_Method m <> EmptyString /\ ToValid (Msg_Method m) = Msg_Method m.

Lemma hear_written h m data : sendable m -> plain m -> writeMsg m = Some data -> hear h data = noticed h m.
Proof.
  intros Hs (Hid & Hm & Hv) Hw. unfold hear. rewrite (classify_written m) by done. rewrite Hid, Hv.
  by rewrite decide_False.
Qed.

Lemma hearAll_written h ms datas :
  Forall sendable ms -> Forall plain ms -> Forall2 (fun m d => writeMsg m = Some d) ms datas ->
  Forall (fun d => bufio.len d < maxStdioMessage) datas ->
  hearAll h (written datas) = foldl noticed h ms.
Proof.
  intros Hs Hp Hw Hl. unfold hearAll. rewrite read_written.
  - clear Hl. revert h. induction Hw as [|m d ms datas Hm _ IH]; intros h; [done|].
    apply Forall_cons in Hs as [Hs1 Hs], Hp as [Hp1 Hp]. cbn [foldl].
    rewrite (hear_written h m) by done. by apply IH.
  - by apply (framed_written ms).
Qed.

(** Messages of a running turn leave the handler's channels alone. *)
Lemma noticed_quiet h m : quiet m ->
  agent.turnDone (noticed h m) = agent.turnDone h /\ agent.sessionReady (noticed h m) = agent.sessionReady h.
Proof.
  intros [(method & params & -> & Hm)|[params ->]]; [|split; reflexivity].
  apply list_elem_of_In in Hm. destruct Hm as [<-|[<-|[<-|[]]]]; split; reflexivity.
Qed.

Lemma noticed_quiets ms : forall h, Forall quiet ms ->
  agent.turnDone (foldl noticed h ms) = agent.turnDone h /\
  agent.sessionReady (foldl noticed h ms) = agent.sessionReady h.
Proof.
  induction ms as [|m ms IH]; intros h H; [done|]. apply Forall_cons in H as [Hm H]. cbn [foldl].
  destruct (IH (noticed h m) H) as [-> ->]. by apply noticed_quiet.
Qed.

Definition resultFor (err : option string) : agent.turnResult :=
  agent.mkTurnResult (bool_decide (is_Some err)) false (ToValid <$> err).

Lemma noticed_verdict h v err : verdict v err ->
  agent.turnDone (noticed h v) = agent.offer (agent.turnDone h) (resultFor err) /\
  agent.sessionReady (noticed h v) = agent.sessionReady h.
Proof.
  intros [tid uid sid txt|tid msg]; [split; reflexivity|]. split; [|reflexivity].
  change (agent.offer (agent.turnDone h) (agent.mkTurnResult true false (Some (agent.extractString
    (mustJSON (mapAny [("threadId", AStr tid); ("message", AStr msg)]%string)) "message")))
    = agent.offer (agent.turnDone h) (resultFor (Some msg))).
  unfold resultFor. cbn [fmap option_fmap option_map]. rewrite bool_decide_eq_true_2 by eauto. do 3 f_equal.
  by apply (extract_mustJSON _ [] [("threadId"%string, tid)]); [reflexivity| |repeat constructor].
Qed.

Lemma noticed_threadStarted h tid cwd :
  agent.turnDone (noticed h (EmitThreadStarted tid cwd)) = agent.turnDone h /\
  agent.sessionReady (noticed h (EmitThreadStarted tid cwd)) = agent.sessionReady h.
Proof. split; reflexivity. Qed.

Lemma noticed_turnStarted h tid uid : ToValid tid <> EmptyString ->
  agent.turnDone (noticed h (turnStarted tid uid)) = agent.turnDone h /\
  agent.sessionReady (noticed h (turnStarted tid uid))
    = agent.offer (agent.sessionReady h) (agent.mkSessionIDs (ToValid tid) (ToValid uid)).
Proof.
  intros Ht. unfold noticed, agent.OnNotification, agent.sessionNotification, turnStarted. cbn [Msg_Method Msg_Params Notify].
  rewrite decide_False by done. rewrite decide_True by done. cbv zeta.
  set (params := mapAny _).
  rewrite (extract_mustJSON params [("sessionId"%string, tid +:+ "-" +:+ uid); ("threadId"%string, tid)] []
    "turnId" uid); [|reflexivity|reflexivity|constructor].
  rewrite (extract_mustJSON params [("sessionId"%string, tid +:+ "-" +:+ uid)] [("turnId"%string, uid)]
    "threadId" tid); [|reflexivity|reflexivity|by repeat constructor].
  rewrite decide_False by done. split; reflexivity.
Qed.

(** *** A whole turn *)

Lemma quiet_plain m : quiet m -> plain m.
Proof.
  intros [(method & params & -> & Hm)|[params ->]]; [|split_and!; done].
  apply list_elem_of_In in Hm. destruct Hm as [<-|[<-|[<-|[]]]]; split_and!; done.
Qed.

Lemma concluded_plain ms err : concluded ms err -> Forall plain ms.
Proof.
  intros (pre & v & -> & Hq & Hv). apply Forall_app_2.
  - eapply Forall_impl; [exact Hq|]. intros. by apply quiet_plain.
  - constructor; [|constructor]. destruct Hv; split_and!; done.
Qed.

Lemma concluded_heard h ms err : concluded ms err ->
  agent.turnDone (foldl noticed h ms) = agent.offer (agent.turnDone h) (resultFor err) /\
  agent.sessionReady (foldl noticed h ms) = agent.sessionReady h.
Proof.
  intros (pre & v & -> & Hq & Hv). rewrite foldl_app. cbn [foldl].
  destruct (noticed_verdict (foldl noticed h pre) v err Hv) as [-> ->].
  by destruct (noticed_quiets pre h Hq) as [-> ->].
Qed.

Section turn.
Context (newID : Z -> string).
Context (launch : string -> string -> string -> string -> list string -> (string * option string) + string).
Context (listen : string -> option string).

Lemma runTurn_heard r req h :
  let sent := (runTurn newID launch listen (fun _ => true) r req).2 in
  ToValid (turnThread newID r req) <> EmptyString ->
  Forall plain sent /\
  agent.turnDone (foldl noticed h sent)
    = agent.offer (agent.turnDone h) (resultFor (outcomeOf (turnProcess newID launch listen r req))) /\
  agent.sessionReady (foldl noticed h sent)
    = agent.offer (agent.sessionReady h)
        (agent.mkSessionIDs (ToValid (turnThread newID r req)) (ToValid (turnId newID r req))).
Proof.
  intros sent Ht. destruct (runTurn_concluded newID launch listen r req) as (rest & E & Hc).
  subst sent. rewrite E. clear E. split.
  - apply Forall_app_2; [case_decide; repeat constructor; done|].
    constructor; [split_and!; done|]. by eapply concluded_plain.
  - rewrite foldl_app. cbn [foldl].
    destruct (concluded_heard (noticed (foldl noticed h (if decide (TR_threadID req = EmptyString)
      then [EmitThreadStarted (turnThread newID r req) (TR_cwd req)] else []))
      (turnStarted (turnThread newID r req) (turnId newID r req))) rest _ Hc) as [-> ->].
    destruct (noticed_turnStarted (foldl noticed h (if decide (TR_threadID req = EmptyString)
      then [EmitThreadStarted (turnThread newID r req) (TR_cwd req)] else []))
      (turnThread newID r req) (turnId newID r req) Ht) as [-> ->].
    case_decide; [|done]. cbn [foldl]. by destruct (noticed_threadStarted h (turnThread newID r req) (TR_cwd req)) as [-> ->].
Qed.
End turn.
End reading.

(** * Token usage, from claude's result lines to the accumulator

    The app-server reports a thread's usage so far after each turn; the agent
    hands the reports to the scheduler, whose accumulator takes differences.
    What comes out is what the turns spent. *)

Open Scope Z_scope.

Import json marshal codexclient agent appserver.

(** ** One report, over the wire *)

(** The usage a notification carries, by the second switch of OnNotification. *)
Definition reportOf (m : rpcMessage) : option Metrics.Usage :=
  agent.Act_Usage (agent.enrich (Msg_Method m) (Msg_Params m)
    (agent.mkActivity EmptyString EmptyString EmptyString 0 None None None false)).

Lemma OnNotification_usage issueID h m now :
  agent.Act_Usage (agent.OnNotification issueID h (Msg_Method m) (Msg_Params m) now).2 = reportOf m.
Proof.
  unfold agent.OnNotification, reportOf.
  destruct (agent.sessionNotification _ _ _ _ _) as [h' act] eqn:E. cbn [snd].
  assert (agent.Act_Usage act = None) as Ha.
  { revert E. unfold agent.sessionNotification. repeat case_decide; intros [= _ <-]; try done.
    by destruct (agent.h_turnStartedAt h). }
  unfold agent.enrich. repeat case_decide; try exact Ha.
  - by destruct (Unmarshal _ _ _) as [n []].
  - by destruct (Unmarshal agent.dRateNotification _ _) as [n []].
Qed.

Record intUsage (u : streamjson.Usage) : Prop := {
  iu_in : in_int64 (streamjson.InputTokens u);
  iu_out : in_int64 (streamjson.OutputTokens u);
  iu_total : in_int64 (streamjson.TotalTokens u);
}.

Lemma Total_int u : intUsage u -> in_int64 (streamjson.Total u).
Proof. intros H. unfold streamjson.Total. case_match; [apply H|apply wrap64_range]. Qed.

Definition breakdownOf (u : streamjson.Usage) : agent.breakdown :=
  agent.mkBreakdown (streamjson.InputTokens u) (streamjson.OutputTokens u) (streamjson.Total u) 0 0.

Definition usageMembers (u : streamjson.Usage) : list (string * any) :=
  [("cachedInputTokens", AInt 0); ("inputTokens", AInt (streamjson.InputTokens u));
   ("outputTokens", AInt (streamjson.OutputTokens u)); ("reasoningOutputTokens", AInt 0);
   ("totalTokens", AInt (streamjson.Total u))]%string.

Lemma usageBreakdown_members u : usageBreakdown u = AObj (usageMembers u).
Proof. reflexivity. Qed.

Lemma dBreakdown_read u x : intUsage u ->
  agent.dBreakdown (text (usageBreakdown u), valueOf (usageBreakdown u)) x = (breakdownOf u, false).
Proof.
  intros H. pose proof (Total_int u H) as Ht. rewrite usageBreakdown_members.
  unfold agent.dBreakdown, dStruct. cbn [snd valueOf]. fold (enc (usageMembers u)).
  unfold usageMembers.
  erewrite store_first; [|by apply (store_int _ _ agent.TB_Cached)].
  erewrite store_first; [|apply (store_int _ _ agent.TB_Input); [done|apply H]].
  erewrite store_first; [|apply (store_int _ _ agent.TB_Output); [done|apply H]].
  erewrite store_first; [|by apply (store_int _ _ agent.TB_Reasoning)].
  erewrite (store_int _ _ agent.TB_Total); [|done|exact Ht]. by destruct x.
Qed.

Definition reportFor (threadID : string) (cum : streamjson.Usage) : Metrics.Usage :=
  mkUsage (ToValid threadID) (streamjson.InputTokens cum) (streamjson.OutputTokens cum) (streamjson.Total cum).

Definition tokenMembers (u cum : streamjson.Usage) : list (string * any) :=
  [("last", usageBreakdown u); ("modelContextWindow", ANull); ("total", usageBreakdown cum)]%string.
Definition reportMembers (threadID turnID : string) (u cum : streamjson.Usage) : list (string * any) :=
  [("threadId", AStr threadID); ("tokenUsage", AObj (tokenMembers u cum)); ("turnId", AStr turnID)]%string.

Lemma EmitTokenUsage_members threadID turnID u cum :
  EmitTokenUsage threadID turnID (usageBreakdown u) (usageBreakdown cum)
    = Notify MethodThreadTokenUsageUpdated (AObj (reportMembers threadID turnID u cum)).
Proof. reflexivity. Qed.

Lemma usageMembers_wf u : wf 1 (AObj (usageMembers u)).
Proof. repeat constructor. Qed.

Lemma reportMembers_wf threadID turnID u cum : wf 3 (AObj (reportMembers threadID turnID u cum)).
Proof.
  unfold reportMembers, tokenMembers. rewrite !usageBreakdown_members.
  repeat first [apply usageMembers_wf | constructor].
Qed.

Lemma dThreadUsage_read u cum x : intUsage u -> intUsage cum ->
  agent.dThreadUsage (text (AObj (tokenMembers u cum)), valueOf (AObj (tokenMembers u cum))) x
    = (agent.mkThreadUsage (breakdownOf u) None (breakdownOf cum), false).
Proof.
  intros Hu Hc. unfold agent.dThreadUsage, dStruct. cbn [snd valueOf]. fold (enc (tokenMembers u cum)).
  unfold tokenMembers.
  erewrite store_first; [|apply (store_member _ _ agent.TU_Last agent.dBreakdown); [done|by apply dBreakdown_read]].
  erewrite store_first; [|by apply (store_member _ _ agent.TU_Window (dPtr 0 dInt))].
  erewrite (store_member _ _ agent.TU_Total agent.dBreakdown); [|done|by apply dBreakdown_read]. by destruct x.
Qed.

(** A report is heard as it was made. *)
Lemma reportOf_token threadID turnID u cum : intUsage u -> intUsage cum ->
  reportOf (EmitTokenUsage threadID turnID (usageBreakdown u) (usageBreakdown cum)) = Some (reportFor threadID cum).
Proof.
  intros Hu Hc. rewrite EmitTokenUsage_members. unfold reportOf, agent.enrich. cbn [Msg_Method Msg_Params Notify].
  rewrite decide_False by done. rewrite decide_True by done.
  pose proof (reportMembers_wf threadID turnID u cum) as Hw.
  destruct (mustJSON_wf 3 _ Hw) as [_ ->]; [unfold maxNestingDepth; lia|].
  unfold agent.dUsageNotification. rewrite (Unmarshal_obj 3); [|done|unfold maxNestingDepth; lia].
  unfold reportMembers.
  erewrite store_first; [|by apply (store_str _ _ agent.UN_ThreadID)].
  erewrite store_first; [|apply (store_member _ _ agent.UN_Usage agent.dThreadUsage); [done|by apply dThreadUsage_read]].
  by erewrite (store_str _ _ agent.UN_TurnID).
Qed.

Lemma reportOf_streamed m : streamed m -> reportOf m = None.
Proof.
  intros (method & params & -> & Hm). apply list_elem_of_In in Hm. by destruct Hm as [<-|[<-|[<-|[]]]].
Qed.

Lemma reports_streamed ms : Forall streamed ms -> omap reportOf ms = [].
Proof. induction 1 as [|m ms Hm _ IH]; [done|]. cbn. by rewrite (reportOf_streamed m Hm). Qed.

(** ** One turn *)

Section turns.
Context (newID : Z -> string).
Context (launch : string -> string -> string -> string -> list string -> (string * option string) + string).
Context (listen : string -> option string).
Abbreviation ok := (fun _ : rpcMessage => true).

Lemma scanEvents_cumUsage threadID turnID evs : forall names r out,
  cumUsage (scanEvents ok threadID turnID evs names r out).1.1 = cumUsage r.
Proof.
  induction evs as [|ev evs IH]; intros names r out; cbn [scanEvents]; [done|].
  destruct ev as [sid|text tus|tr|trs|sub text isErr u|ty]; cbv beta iota zeta;
    match goal with |- context [scanEvents ok threadID turnID evs ?n ?r ?o] => pose proof (IH n r o) as E end;
    destruct (scanEvents _ _ _ _ _ _ _) as [[r1 out1] more]; exact E.
Qed.

(** The usage of a thread after a turn, and what is reported. *)
Definition spent (r : turnRunner) (threadID : string) (u : streamjson.Usage) : streamjson.Usage :=
  addUsage (default streamjson.zeroUsage (cumUsage r !! threadID)) u.
Definition accounts (r : turnRunner) (threadID : string) (u : option streamjson.Usage)
    (res : turnRunner * list rpcMessage) : Prop :=
  match u with
  | Some u => cumUsage res.1 = <[threadID := spent r threadID u]> (cumUsage r) /\
      omap reportOf res.2 = [reportFor threadID (spent r threadID u)]
  | None => cumUsage res.1 = cumUsage r /\ omap reportOf res.2 = []
  end.

Lemma spent_int r threadID u : intUsage (spent r threadID u).
Proof. split; apply wrap64_range. Qed.

Lemma failed_report threadID msg : reportOf (EmitTurnFailed threadID msg) = None.
Proof. reflexivity. Qed.

Lemma runTurnLoop_accounts threadID turnID sessionID cwd prompt sys bridge r :
  let p := launch cwd (default EmptyString (threads r !! threadID)) sys prompt
      (match bridge with Some sock => ["TOOL_BRIDGE_SOCKET=" +:+ sock] | None => [] end) in
  (forall u, spendOf p = Some u -> intUsage u) ->
  accounts r threadID (spendOf p) (runTurnLoop launch ok threadID turnID sessionID cwd prompt sys bridge r).
Proof.
  unfold runTurnLoop. cbv zeta. destruct (launch _ _ _ _ _) as [[stdout werr]|err]; [|done].
  unfold scanStream, spendOf, lastResult. intros Hint.
  pose proof (scanEvents_streamed ok threadID turnID (streamjson.Scan stdout).1 ∅ r zeroScan) as Hq.
  pose proof (scanEvents_result ok threadID turnID (streamjson.Scan stdout).1 ∅ r zeroScan) as Hr.
  pose proof (scanEvents_cumUsage threadID turnID (streamjson.Scan stdout).1 ∅ r zeroScan) as Hu.
  destruct (scanEvents _ _ _ _ _ _ _) as [[r1 scan] sent]. cbn [fst snd] in *.
  apply reports_streamed in Hq. unfold scanOf, zeroScan in Hr. cbn [resultReceived] in Hr.
  destruct (last _) as [[[isErr text] u]|], (resultReceived scan); try done; cbn [negb].
  - injection Hr as -> -> ->. destruct isErr.
    + split; [done|]. cbn [snd]. by rewrite omap_app, Hq.
    + unfold completeTurn, accounts, spent. cbn [fst snd]. rewrite Hu. split; [done|].
      rewrite omap_app, Hq. cbn [app emit omap list_omap]. rewrite reportOf_token; [done|by apply Hint|apply spent_int].
  - split; [done|]. cbn [snd]. rewrite omap_app, Hq. by destruct werr.
Qed.

Lemma runTurn_accounts r req :
  (forall u, spendOf (turnProcess newID launch listen r req) = Some u -> intUsage u) ->
  accounts r (turnThread newID r req) (spendOf (turnProcess newID launch listen r req))
    (runTurn newID launch listen ok r req).
Proof.
  unfold runTurn, turnProcess, turnThread, turnCount, freshID. cbn [negb]. rewrite andb_false_r.
  case_decide as Ef; [rewrite bool_decide_eq_true_2 by done|rewrite bool_decide_eq_false_2 by done]; cbv zeta;
  destruct r as [th cum dt n]; cbn;
  match goal with |- context [default [] (dt !! ?tid)] =>
    pose proof (fun uid sid => runTurnLoop_accounts tid uid sid (TR_cwd req) (TR_prompt req)) as Hc;
    destruct (default [] (dt !! tid)) as [|t ts]
  end; intros Hint.
  all: try (match goal with |- context [listen ?sock] => destruct (listen sock) as [err|] end; [done|]).
  all: match goal with |- context [runTurnLoop _ _ _ ?uid ?sid _ _ ?sys ?b ?r'] =>
    specialize (Hc uid sid sys b r' Hint) end;
    destruct (runTurnLoop _ _ _ _ _ _ _ _ _ _) as [r3 more]; exact Hc.
Qed.

(** ** Any sequence of turns, on any threads *)

Fixpoint runTurns (r : turnRunner) (reqs : list turnReq) : turnRunner * list rpcMessage :=
  match reqs with
  | [] => (r, [])
  | req :: reqs =>
    let '(r, sent) := runTurn newID launch listen ok r req in
    let '(r, more) := runTurns r reqs in (r, sent ++ more)
  end.

(** What claude reported for the turns that completed. *)
Fixpoint spends (r : turnRunner) (reqs : list turnReq) : list streamjson.Usage :=
  match reqs with
  | [] => []
  | req :: reqs => option_list (spendOf (turnProcess newID launch listen r req))
      ++ spends (runTurn newID launch listen ok r req).1 reqs
  end.
Definition sumOf (f : streamjson.Usage -> Z) (us : list streamjson.Usage) : Z := foldr (fun u n => f u + n) 0 us.

(** The accumulator has seen what the runner has counted. *)
Record accounted (acc : Accumulator) (r : turnRunner) (si so : Z) : Prop := {
  ac_last : forall tid, lastSeen acc !! tid = reportFor tid <$> cumUsage r !! tid;
  ac_totals : totals acc = mkTotals si so (si + so);
  ac_cum : forall tid c, cumUsage r !! tid = Some c ->
    0 <= streamjson.InputTokens c <= si /\ 0 <= streamjson.OutputTokens c <= so /\
    streamjson.TotalTokens c = streamjson.InputTokens c + streamjson.OutputTokens c;
  ac_pos : 0 <= si /\ 0 <= so;
}.

Lemma Total_sum c : 0 <= streamjson.InputTokens c -> 0 <= streamjson.OutputTokens c ->
  streamjson.TotalTokens c = streamjson.InputTokens c + streamjson.OutputTokens c ->
  streamjson.Total c = streamjson.InputTokens c + streamjson.OutputTokens c.
Proof.
  intros Hi Ho E. unfold streamjson.Total. case (Z.ltb_spec 0 (streamjson.TotalTokens c)); [done|].
  intros. rewrite wrap64_id; unfold in_int64, int64_min, int64_max; lia.
Qed.

(** What the accumulator adds when a counter grows by [d]. *)
Lemma clamp_step t p d : 0 <= p -> 0 <= d -> 0 <= t -> p <= t -> t + d <= int64_max ->
  (t + clampPos (p + d - p)%i64)%i64 = t + d.
Proof.
  intros. replace (p + d - p) with d by lia. unfold int64_max in *.
  rewrite (wrap64_id d) by (unfold in_int64, int64_min, int64_max; lia).
  unfold clampPos. destruct (Z.ltb_spec d 0); [lia|].
  apply wrap64_id. unfold in_int64, int64_min, int64_max; lia.
Qed.

Lemma Observe_accounted acc r tid u si so r' :
  accounted acc r si so -> ToValid tid = tid ->
  0 <= streamjson.InputTokens u -> 0 <= streamjson.OutputTokens u ->
  si + streamjson.InputTokens u + (so + streamjson.OutputTokens u) <= int64_max ->
  cumUsage r' = <[tid := spent r tid u]> (cumUsage r) ->
  accounted (Observe acc (reportFor tid (spent r tid u))) r'
    (si + streamjson.InputTokens u) (so + streamjson.OutputTokens u).
Proof.
  intros [Hl Ht Hc [Hsi Hso]] Hv Hi Ho Hmax Hr.
  set (prev := default streamjson.zeroUsage (cumUsage r !! tid)).
  assert (0 <= streamjson.InputTokens prev <= si /\ 0 <= streamjson.OutputTokens prev <= so /\
    streamjson.TotalTokens prev = streamjson.InputTokens prev + streamjson.OutputTokens prev) as (Hpi & Hpo & Hpt).
  { subst prev. destruct (cumUsage r !! tid) as [c|] eqn:E; [by apply (Hc tid)|]. cbn. lia. }
  assert (spent r tid u = streamjson.mkUsage (streamjson.InputTokens prev + streamjson.InputTokens u)
    (streamjson.OutputTokens prev + streamjson.OutputTokens u)
    (streamjson.InputTokens prev + streamjson.InputTokens u + (streamjson.OutputTokens prev + streamjson.OutputTokens u)))
    as Es.
  { unfold spent, addUsage. fold prev. rewrite !wrap64_id; try done; unfold in_int64, int64_min, int64_max in *; lia. }
  assert (default zeroUsage (lastSeen acc !! tid) = mkUsage (if decide (cumUsage r !! tid = None) then EmptyString else tid)
    (streamjson.InputTokens prev) (streamjson.OutputTokens prev) (streamjson.InputTokens prev + streamjson.OutputTokens prev))
    as Ep.
  { rewrite Hl. subst prev. destruct (cumUsage r !! tid) as [c|]; [|done]. cbn in *. unfold reportFor.
    rewrite Hv, Total_sum by lia. done. }
  rewrite Es in *. split.
  - intros t. rewrite Hr. unfold Observe, reportFor. cbn [lastSeen Usage_ThreadID]. rewrite Hv.
    destruct (decide (t = tid)) as [->|Hne]; [|by rewrite !lookup_insert_ne].
    rewrite !lookup_insert_eq. cbn. unfold reportFor. by rewrite Hv.
  - unfold Observe, reportFor. cbn [totals Usage_ThreadID Usage_Input Usage_Output Usage_Total]. rewrite Hv, Ep, Ht.
    cbn [Totals_Input Totals_Output Totals_Total Usage_Input Usage_Output Usage_Total].
    rewrite Total_sum by (cbn; lia). cbn [streamjson.InputTokens streamjson.OutputTokens].
    rewrite !clamp_step by lia. f_equal.
    replace (streamjson.InputTokens prev + streamjson.InputTokens u + (streamjson.OutputTokens prev + streamjson.OutputTokens u))
      with (streamjson.InputTokens prev + streamjson.OutputTokens prev + (streamjson.InputTokens u + streamjson.OutputTokens u)) by lia.
    rewrite clamp_step by lia. lia.
  - intros t c. rewrite Hr. destruct (decide (t = tid)) as [->|Hne].
    + rewrite lookup_insert_eq. intros [= <-]. cbn. lia.
    + rewrite lookup_insert_ne by done. intros Hlk. apply Hc in Hlk. lia.
  - lia.
Qed.

Record goodUsage (u : streamjson.Usage) : Prop := {
  gu_int : intUsage u;
  gu_in : 0 <= streamjson.InputTokens u;
  gu_out : 0 <= streamjson.OutputTokens u;
}.

Lemma sumOf_cons f u us : sumOf f (u :: us) = f u + sumOf f us.
Proof. done. Qed.

Lemma sumOf_nonneg f us : Forall goodUsage us ->
  (forall u, goodUsage u -> 0 <= f u) -> 0 <= sumOf f us.
Proof. intros H Hf. induction H as [|u us Hu _ IH]; [done|]. rewrite sumOf_cons. specialize (Hf u Hu). lia. Qed.

Context (newID_valid : forall n, ToValid (newID n) = newID n).

Lemma runTurns_accounted reqs : forall acc r si so,
  Forall (fun req => ToValid (TR_threadID req) = TR_threadID req) reqs ->
  accounted acc r si so -> Forall goodUsage (spends r reqs) ->
  si + sumOf streamjson.InputTokens (spends r reqs) + (so + sumOf streamjson.OutputTokens (spends r reqs)) <= int64_max ->
  accounted (observe_all acc (omap reportOf (runTurns r reqs).2)) (runTurns r reqs).1
    (si + sumOf streamjson.InputTokens (spends r reqs)) (so + sumOf streamjson.OutputTokens (spends r reqs)).
Proof.
  induction reqs as [|req reqs IH]; intros acc r si so Hv Ha Hg Hmax.
  { cbn. by rewrite !Z.add_0_r. }
  apply Forall_cons in Hv as [Hv1 Hv]. cbn [runTurns spends] in *.
  assert (ToValid (turnThread newID r req) = turnThread newID r req) as Hvt by (unfold turnThread; case_decide; done).
  apply Forall_app in Hg as [Hg1 Hg].
  pose proof (runTurn_accounts r req) as Hr.
  destruct (runTurn newID launch listen ok r req) as [r1 sent]. cbn [fst] in *.
  specialize (IH (observe_all acc (omap reportOf sent)) r1).
  destruct (runTurns r1 reqs) as [r2 more]. cbn [fst snd] in *.
  rewrite omap_app. unfold observe_all. rewrite fold_left_app. fold (observe_all acc (omap reportOf sent)).
  destruct (spendOf (turnProcess newID launch listen r req)) as [u|].
  - apply Forall_cons in Hg1 as [Hu _]. change (option_list (Some u) ++ spends r1 reqs) with (u :: spends r1 reqs) in *.
    rewrite !sumOf_cons in Hmax |- *.
    destruct Hr as [Hc Hr]; [intros ? [= <-]; apply Hu|]. cbn [fst snd] in *. rewrite Hr in *.
    pose proof (sumOf_nonneg streamjson.InputTokens _ Hg gu_in) as Hsi.
    pose proof (sumOf_nonneg streamjson.OutputTokens _ Hg gu_out) as Hso.
    rewrite !Z.add_assoc. apply IH; [done| |done|lia].
    apply (Observe_accounted _ r); [done|done|apply Hu|apply Hu|lia|done].
  - destruct Hr as [Hc Hr]; [done|]. cbn [fst snd] in *. rewrite Hr in *. apply IH; [done| |done|exact Hmax].
    destruct Ha as [A1 A2 A3 A4]. by split; cbn; rewrite ?Hc.
Qed.
End turns.
