(* ===== verification/AgentProps.v ===== *)
(** * Properties of the agent runner, the app-server and the linear tool *)

From S2P Require Import Prelude GoStd GoText GoJson GoMarshal GoIO GoPath Metrics Tracker WfConfig WfResolve.
From S2P Require Import Workspace SchedState SchedReduce SchedShell CodexConn StreamJson AppServer AgentWire.
From S2P Require Import LinearGql Agent AgentRun AgentInv.
Open Scope Z_scope.

Import json marshal codexclient.

(** ** The connection *)

(** What a message is for the side that reads it. *)
Definition seen (m : rpcMessage) : inbound :=
  let method := ToValid (Msg_Method m) in
  match Msg_ID m with
  | Some id => if decide (method = EmptyString) then InResponse id (received m) else InRequest id method (Msg_Params m)
  | None => if decide (method = EmptyString) then InDropped else InNotification method (Msg_Params m)
  end.

(** C18: Messages written one after the other are read back, in order, each as what
    it is: requests, responses and notifications, with their ids, parameters,
    results and errors; only invalid UTF-8 in a method is replaced. *)
Theorem message_round_trip ms datas :
  Forall sendable ms -> Forall2 (fun m d => writeMsg m = Some d) ms datas ->
  Forall (fun d => bufio.len d < maxStdioMessage) datas ->
  map classify (readMessages (written datas)) = map seen ms.
Proof.
  intros Hs Hw Hl. rewrite read_written.
  - clear Hl. induction Hw as [|m d ms datas Hm _ IH]; [done|]. apply Forall_cons in Hs as [Hs1 Hs].
    cbn [map]. rewrite (classify_written m d) by done. by rewrite IH.
  - by apply (framed_written ms).
Qed.

Definition exampleMessages : list rpcMessage :=
  [Notify MethodTurnStarted (AObj [("threadId"%string, AStr "t"%string)]); Reply 7 (ABool true);
   mkMessage (Some 3) "initialize" EmptyString EmptyString EmptyString].

Lemma exampleMessages_sendable : Forall sendable exampleMessages.
Proof.
  unfold exampleMessages. repeat apply Forall_cons_2; [..|apply Forall_nil_2].
  - apply (Notify_sendable 1); [repeat constructor|unfold maxNestingDepth; lia].
  - apply (Reply_sendable 0); [done|constructor|unfold maxNestingDepth; lia].
  - split; cbn; [done|by left..].
Qed.

Lemma message_round_trip_witness : exists datas,
  map classify (readMessages (written datas)) = map seen exampleMessages.
Proof.
  exists (map (fun m => text (messageAny m)) exampleMessages). apply message_round_trip.
  - exact exampleMessages_sendable.
  - repeat constructor; vm_compute; reflexivity.
  - repeat constructor; vm_compute; reflexivity.
Defined.

(** C31: A response in an inbox came over the wire while its request was waiting,
    the id was handed out before, and nothing that comes later replaces it. *)
Theorem response_reaches_request ops op more id msg :
  requests (ops ++ op :: more) <= int64_max ->
  inbox (connRun ops) !! id = None -> inbox (connRun (ops ++ [op])) !! id = Some msg ->
  1 <= id <= requests ops /\ id ∈ pending (connRun ops) /\
  (exists data, op = OpReceive data /\ classify data = InResponse id msg) /\
  inbox (connRun (ops ++ op :: more)) !! id = Some msg /\ id ∉ pending (connRun (ops ++ op :: more)).
Proof.
  intros Hmax Hn Hi. unfold connRun in *. rewrite foldl_app in Hi. cbn [foldl] in Hi.
  destruct (connStep_delivers _ _ _ _ Hi Hn) as (data & -> & Hc & Hp).
  assert (requests (ops ++ OpReceive data :: more) = requests ops + requests more) as Er by (by rewrite requests_app).
  pose proof (requests_nonneg more). pose proof (requests_nonneg ops).
  pose proof (connSteps_ok ops 0 NewConn NewConn_ok) as H1.
  pose proof (connSteps_ok (ops ++ OpReceive data :: more) 0 NewConn NewConn_ok) as H2.
  assert (inbox (foldl connStep NewConn (ops ++ OpReceive data :: more)) !! id = Some msg) as Hf.
  { rewrite foldl_app. cbn [foldl]. eapply (connSteps_inbox more (0 + requests ops)); [|lia|lia|exact Hi].
    replace (0 + requests ops) with (0 + requests ops + requests [OpReceive data]) by (cbn; lia).
    apply connStep_ok; [apply H1; lia|lia|cbn; lia]. }
  split_and!; try done.
  - apply (co_pending _ _ (H1 ltac:(lia) ltac:(lia)) id Hp).
  - apply (co_pending _ _ (H1 ltac:(lia) ltac:(lia)) id Hp).
  - by exists data.
  - apply (co_once _ _ (H2 ltac:(lia) ltac:(lia))). by rewrite Hf.
Qed.

Definition pingAnswer : string := text (messageAny (Reply 1 (ABool true))).

Lemma response_reaches_request_witness :
  let ops := [OpRequest "ping" ANull] in
  1 ∈ pending (connRun ops) /\
  is_Some (inbox (connRun (ops ++ OpReceive pingAnswer :: [OpReceive pingAnswer; OpForget 1])) !! 1).
Proof.
  destruct (response_reaches_request [OpRequest "ping" ANull] (OpReceive pingAnswer)
    [OpReceive pingAnswer; OpForget 1] 1 (Reply 1 (ABool true))) as (_ & Hp & _ & Hi & _).
  - vm_compute. discriminate.
  - vm_compute. reflexivity.
  - vm_compute. reflexivity.
  - split; [exact Hp|]. eexists. exact Hi.
Defined.

(** ** A turn, from claude to the scheduler's worker *)

Import appserver.

(** C4: The lines the app-server writes for a turn leave the worker's handler with
    the outcome of the turn and the ids it ran under: completed when the last
    result claude printed is a success, and otherwise failed, with claude's
    error, or the reason claude gave no result, or why it did not run. *)
Theorem turn_outcome_delivered newID launch listen issueID now r req h datas :
  let sent := (runTurn newID launch listen (fun _ => true) r req).2 in
  let h' := hearAll issueID now h (written datas) in
  ToValid (turnThread newID r req) <> EmptyString ->
  Forall sendable sent -> Forall2 (fun m d => writeMsg m = Some d) sent datas ->
  Forall (fun d => bufio.len d < maxStdioMessage) datas ->
  agent.turnDone h = None -> agent.sessionReady h = None ->
  agent.turnDone h' = Some (resultFor (outcomeOf (turnProcess newID launch listen r req))) /\
  agent.sessionReady h' = Some (agent.mkSessionIDs (ToValid (turnThread newID r req)) (ToValid (turnId newID r req))).
Proof.
  intros sent h' Ht Hs Hw Hl Hd Hr.
  destruct (runTurn_heard issueID now newID launch listen r req h Ht) as (Hp & E1 & E2).
  subst h'. rewrite (hearAll_written _ _ h sent datas) by done. subst sent. by rewrite E1, E2, Hd, Hr.
Qed.

(** A process that says one word and succeeds. *)
Definition helloStream : string :=
  "{'type':'system','subtype':'init','session_id':'s1'}
{'type':'result','subtype':'success','result':'hi','is_error':false,'usage':{'input_tokens':3,'output_tokens':4}}
".
Definition unquote (s : string) : string :=
  string_of_list_ascii (map (fun c => if decide (c = "'"%char) then lineargql.dquote else c) (list_ascii_of_string s)).
Definition hello (cwd resume sys prompt : string) (env : list string) : (string * option string) + string :=
  inl (unquote helloStream, None).
Definition exampleID (n : Z) : string := "id" +:+ strconv.Itoa n.
Definition freshRunner : turnRunner := mkTurnRunner ∅ ∅ ∅ 0.
Definition exampleTurn : turnReq := mkTurnReq EmptyString "/w" "do it" EmptyString EmptyString.
Definition exampleSent : list rpcMessage := (runTurn exampleID hello (fun _ => None) (fun _ => true) freshRunner exampleTurn).2.

Lemma exampleSent_sendable : Forall sendable exampleSent.
Proof.
  assert (exampleSent = [EmitThreadStarted "id0" "/w"; turnStarted "id0" "id1";
    EmitTokenUsage "id0" "id1" (usageBreakdown (streamjson.mkUsage 3 4 0)) (usageBreakdown (streamjson.mkUsage 3 4 7));
    Notify MethodTurnCompleted (mapAny [("threadId", AStr "id0"); ("turnId", AStr "id1"); ("sessionId", AStr "id0-id1");
      ("text", AStr "hi")]%string)]) as -> by (vm_compute; reflexivity).
  repeat apply Forall_cons_2; [..|apply Forall_nil_2]; apply (Notify_sendable 3);
    try (unfold maxNestingDepth; lia); cbn; repeat constructor.
Qed.

Lemma turn_outcome_delivered_witness : exists datas,
  agent.turnDone (hearAll "i" 0 agent.newHandler (written datas)) = Some (agent.mkTurnResult false false None).
Proof.
  exists (map (fun m => text (messageAny m)) exampleSent).
  apply (turn_outcome_delivered exampleID hello (fun _ => None) "i" 0 freshRunner exampleTurn agent.newHandler).
  - vm_compute. discriminate.
  - exact exampleSent_sendable.
  - pose proof exampleSent_sendable as H. fold exampleSent. induction H as [|m ms Hm _ IH]; constructor; [|exact IH].
    by apply writeMsg_sendable.
  - repeat constructor; vm_compute; reflexivity.
  - reflexivity.
  - reflexivity.
Defined.

(** What the worker sends to the scheduler for a list of messages. *)
Fixpoint activities (issueID : string) (now : Time) (h : agent.turnHandler) (ms : list rpcMessage)
    : list agent.CodexActivity :=
  match ms with
  | [] => []
  | m :: ms =>
    let '(h, act) := agent.OnNotification issueID h (Msg_Method m) (Msg_Params m) now in
    act :: activities issueID now h ms
  end.

Lemma activities_usage issueID now ms : forall h,
  omap agent.Act_Usage (activities issueID now h ms) = omap reportOf ms.
Proof.
  induction ms as [|m ms IH]; intros h; [done|]. cbn [activities].
  pose proof (OnNotification_usage issueID h m now) as E. destruct (agent.OnNotification _ _ _ _ _) as [h' act].
  cbn [snd] in E. cbn [omap list_omap]. rewrite E. by rewrite <- (IH h').
Qed.

(** C11: Whatever turns a server runs, on whatever threads, in whatever order: the
    totals of an accumulator that observes the usage in the activities of the
    worker are the sums of what claude reported for the turns that completed. *)
Theorem usage_accounted newID launch listen issueID now h reqs :
  let us := spends newID launch listen freshRunner reqs in
  let acts := activities issueID now h (runTurns newID launch listen freshRunner reqs).2 in
  let input := sumOf streamjson.InputTokens us in
  let output := sumOf streamjson.OutputTokens us in
  (forall n, ToValid (newID n) = newID n) ->
  Forall (fun req => ToValid (TR_threadID req) = TR_threadID req) reqs ->
  Forall goodUsage us -> input + output <= int64_max ->
  AccTotals (observe_all NewAccumulator (omap agent.Act_Usage acts)) = mkTotals input output (input + output).
Proof.
  intros us acts input output Hid Hv Hg Hmax. subst acts. rewrite activities_usage.
  pose proof (runTurns_accounted newID launch listen Hid reqs NewAccumulator freshRunner 0 0 Hv) as H.
  apply H; [|done|done]. split; [|done| |lia].
  - intros tid. cbn. by rewrite !lookup_empty.
  - intros tid c Hc. cbn in Hc. by rewrite lookup_empty in Hc.
Qed.

Definition exampleTurns : list turnReq :=
  [mkTurnReq "t1" "/w" "a" EmptyString EmptyString; mkTurnReq "t2" "/w" "b" EmptyString EmptyString;
   mkTurnReq "t1" "/w" "c" EmptyString EmptyString].

Lemma usage_accounted_witness :
  AccTotals (observe_all NewAccumulator (omap agent.Act_Usage
    (activities "i" 0 agent.newHandler
      (runTurns (fun _ => "id"%string) hello (fun _ => None) freshRunner exampleTurns).2))) = mkTotals 9 12 21.
Proof.
  apply (usage_accounted (fun _ => "id"%string) hello (fun _ => None) "i" 0 agent.newHandler exampleTurns).
  - intros n. reflexivity.
  - repeat constructor.
  - assert (spends (fun _ => "id"%string) hello (fun _ => None) freshRunner exampleTurns
      = replicate 3 (streamjson.mkUsage 3 4 0)) as -> by (vm_compute; reflexivity).
    repeat constructor; done.
  - vm_compute. discriminate.
Defined.

(** ** Sessions *)

Import agent agentrun.

(** C5: Whatever the process, the scheduler, the other workers and the clock do, in
    any interleaving: a session asks for at most [MaxTurns] turns (one, if that
    is less); the launch is cleaned up at most once and only when the process is
    gone; before the end after_run has not run and no exit was sent.  At the end
    after_run has run once, the cleanup, if the launch has one, has run once,
    and the exit, with the issue, the attempt and the error of the run, was put
    once into the scheduler's channel, or was dropped once, and only because the
    64 slots of the channel were taken. *)
Theorem session_torn_down execute cfg issueID attempt startDir ids h cleanup queue r :
  in_int64 (MaxTurns (Config_Agent cfg)) ->
  areach execute cfg issueID attempt startDir (startedRun ids h cleanup (Some queue)) r ->
  0 <= r_turns r < Z.max 1 (MaxTurns (Config_Agent cfg)) /\
  (r_cleanups r = 0 \/ r_cleanups r = 1 /\ r_done r = true) /\
  match r_pc r with
  | PExited err =>
    let exit := mkWorkerExit issueID err attempt in
    r_afterRuns r = 1 /\ r_cleanups r = (if cleanup then 1 else 0) /\ r_done r = true /\
    ((r_exits r = [exit] /\ r_dropped r = []) \/
     (r_exits r = [] /\ exists full, r_dropped r = [(exit, full)] /\ 64 <= Z.of_nat (length full)))
  | _ => r_afterRuns r = 0 /\ r_exits r = [] /\ r_dropped r = []
  end.
Proof.
  intros Hm Hr. destruct (areach_ok _ _ _ _ _ Hm _ _ _ _ _ Hr) as (H & Hc & Hw). split; [apply H|]. split.
  - destruct (ro_cleanups _ _ _ _ H) as [|(? & ? & _)]; auto.
  - destruct (r_pc r) as [| | | |err] eqn:E; [apply (ro_live _ _ _ _ H); by rewrite E..|].
    destruct (ro_ended _ _ _ _ H err E) as (Ha & Hk & Hd & Hx). rewrite Hc in Hk. split_and!; try done.
    unfold reported in Hx. destruct (r_workerDone r); [done|]. by discriminate (proj1 Hw).
Qed.

Definition exampleConfig : Config := zeroConfig <| Config_Agent := (Config_Agent zeroConfig) <| MaxTurns := 3 |> |>.
Definition exampleRun : Run := startedRun (mkSessionIDs "t" "u") newHandler true (Some []).

(** The process dies; the loop notices and tears down. *)
Lemma exampleRun_exits : exists err r, areach None exampleConfig "i" 2 "/w" exampleRun r /\ r_pc r = PExited (Some err).
Proof.
  eexists _, _. split.
  - eapply AR_step; [eapply AR_step; [eapply AR_step; [constructor|apply A_exit]|]|].
    + by apply (A_exited _ _ _ _ _ _ 1 None None).
    + by eapply (A_teardown _ _ _ _ _ _).
  - reflexivity.
Qed.

Lemma session_torn_down_witness : exists r, areach None exampleConfig "i" 2 "/w" exampleRun r /\
  r_afterRuns r = 1 /\ r_cleanups r = 1 /\ length (r_exits r ++ (r_dropped r).*1) = 1%nat.
Proof.
  destruct exampleRun_exits as (err & r & Hr & Hp). exists r. split; [exact Hr|].
  pose proof (session_torn_down None exampleConfig "i" 2 "/w" (mkSessionIDs "t" "u") newHandler true [] r) as H.
  destruct H as (_ & _ & H); [vm_compute; split; discriminate|exact Hr|]. rewrite Hp in H.
  destruct H as (? & ? & _ & Hx). split_and!; [done..|]. by destruct Hx as [[-> ->]|(-> & full & -> & _)].
Defined.

(** C30: A run cannot go on for ever or get stuck: every step of the loop itself
    lowers [rank], which the steps of the others leave alone, and from any
    reachable state in which the process is gone the loop reaches its end. *)
Theorem run_loop_ends execute cfg issueID attempt startDir ids h cleanup chan r :
  in_int64 (MaxTurns (Config_Agent cfg)) ->
  areach execute cfg issueID attempt startDir (startedRun ids h cleanup chan) r ->
  (forall r', astep execute cfg issueID attempt startDir r r' -> r_pc r' = r_pc r /\ rank cfg r' = rank cfg r \/ rank cfg r' < rank cfg r) /\
  0 <= rank cfg r /\
  (r_done r = true -> exists r' err, areach execute cfg issueID attempt startDir r r' /\ r_pc r' = PExited err).
Proof.
  intros Hm Hr. destruct (areach_ok _ _ _ _ _ Hm _ _ _ _ _ Hr) as [H _]. split_and!.
  - intros r' Hs. by apply (step_rank execute cfg issueID attempt startDir Hm).
  - by eapply rank_nonneg.
  - intros Hd. destruct (gone_ends execute cfg issueID attempt startDir Hm r H Hd) as (r' & Hr' & He).
    destruct (r_pc r') as [| | | |err] eqn:E; try done. by exists r', err.
Qed.

Lemma run_loop_ends_witness : exists r' err,
  areach None exampleConfig "i" 2 "/w" (exampleRun <| r_done := true |>) r' /\ r_pc r' = PExited err.
Proof.
  apply (run_loop_ends None exampleConfig "i" 2 "/w" (mkSessionIDs "t" "u") newHandler true (Some [])).
  - vm_compute; split; discriminate.
  - eapply AR_step; [constructor|apply A_exit].
  - reflexivity.
Defined.

(** A run that ends without an error completed a turn, or was stopped for a
    reason that makes it graceful. *)
Theorem clean_exit_excused execute cfg issueID attempt startDir ids cleanup chan r :
  areach execute cfg issueID attempt startDir (startedRun ids newHandler cleanup chan) r -> r_pc r = PExited None ->
  exists e, e ∈ r_events r /\
    (Ev_Kind e = EventTurnCompleted \/ (Ev_Kind e = EventTurnCancelled /\ r_graceful r = true)).
Proof.
  intros Hr Hp. apply (oo_excused r); [|by right].
  apply (areach_outcome execute cfg issueID attempt startDir ids newHandler cleanup chan); [by intros res|done].
Qed.

Lemma clean_exit_excused_witness : exists r e, r_pc r = PExited None /\ e ∈ r_events r /\
  (Ev_Kind e = EventTurnCompleted \/ (Ev_Kind e = EventTurnCancelled /\ r_graceful r = true)).
Proof.
  assert (exists r, areach None exampleConfig "i" 2 "/w" exampleRun r /\ r_pc r = PExited None) as (r & Hr & Hp).
  { eexists. split.
    - eapply AR_step; [eapply AR_step; [eapply AR_step; [eapply AR_step; [constructor|apply (A_kill _ _ _ _ _ _ "terminal")]|apply A_exit]|]|].
      + by apply (A_exited _ _ _ _ _ _ 1 None None).
      + by eapply (A_teardown _ _ _ _ _ _).
    - reflexivity. }
  destruct (clean_exit_excused None exampleConfig "i" 2 "/w" (mkSessionIDs "t" "u") true (Some []) r Hr Hp) as (e & He & Hk).
  exists r, e. done.
Defined.


(** C38: Every request of the server is answered once, with its id, by either side of
    the protocol; and none of the answers is taken for a request. *)
Theorem server_requests_answered execute issueID h id method params now newID graphic response r :
  (exists m, out_replies (agent.OnServerRequest execute issueID h id method params now) = [m] /\
     Msg_ID m = Some id /\ Msg_Method m = EmptyString) /\
  (exists before m, (appserver.OnServerRequest newID (fun _ => true) graphic response r id method params).2 = before ++ [m] /\
     Forall (fun n => Msg_ID n = None) before /\ Msg_ID m = Some id /\ Msg_Method m = EmptyString).
Proof.
  split.
  - unfold agent.OnServerRequest, handleToolCall.
    repeat (case_match; simplify_eq; cbn); eexists; (split; [reflexivity|]); done.
  - unfold appserver.OnServerRequest, appserver.emit, startThread.
    case_decide; [by eexists [], _|]. case_decide; [by eexists [_], _; repeat constructor|].
    case_decide; by eexists [], _.
Qed.

(** ** The linear tool *)

(** C20: A document in which comments end with a line feed and no block string holds
    an escaped triple quote: the scanner counts its operations, so a query goes
    to Linear exactly when it has at most one. *)
Theorem operations_counted src n :
  LinearGql.document src n -> unambiguous src = true -> Z.of_nat (String.length src) <= int64_max ->
  lineargql.countOperations src = n /\ (lineargql.validateSingleOperation src = None <-> n <= 1).
Proof.
  intros Hd Hu Hl. assert (lineargql.countOperations src = n) as E.
  { unfold lineargql.countOperations. apply (final_document src n Hd lineargql.newScanner); done. }
  split; [done|]. unfold lineargql.validateSingleOperation. rewrite E. destruct (Z.ltb_spec 1 n); split; done || lia.
Qed.

Ltac ordinary := apply (bool_decide_eq_false_1 (special _)); vm_compute; reflexivity.
Ltac brackets := repeat (apply B_char; [ordinary|]); first
  [ apply B_nil | eapply B_brace; [brackets|brackets] | eapply B_paren; [brackets|brackets] ].
Ltac heading := repeat (apply H_char; [ordinary|]); first [ apply H_nil | eapply H_paren; [brackets|heading] ].

Definition exampleQuery : string := "query A($x: T = {y: 1}) { b(c: $x) { d } } fragment F on T { e }".

Lemma exampleQuery_document : LinearGql.document exampleQuery 1.
Proof.
  unfold exampleQuery. change 1 with (0 + 1).
  apply (D_operation "query" " A($x: T = {y: 1}) { b(c: $x) { d } } fragment F on T { e }"
    " b(c: $x) { d } } fragment F on T { e }" " fragment F on T { e }"); [reflexivity|reflexivity|heading|brackets|].
  apply D_ignored; [ordinary|reflexivity|].
  apply (D_fragment " F on T { e }" " e }" ""); [reflexivity|heading|brackets|constructor].
Qed.

Lemma operations_counted_witness : lineargql.countOperations exampleQuery = 1.
Proof.
  apply (operations_counted exampleQuery 1).
  - exact exampleQuery_document.
  - reflexivity.
  - vm_compute. discriminate.
Defined.

(** The scanner does not end a comment at a carriage return, as GraphQL does: a
    mutation behind one is not counted, and the document passes as one
    operation. *)
Theorem second_operation_hidden : exists src,
  LinearGql.document src 2 /\ lineargql.validateSingleOperation src = None.
Proof.
  exists ("{a}#" +:+ String.String CR "mutation{b}"). split; [|reflexivity]. change 2 with (0 + 1 + 1).
  apply (D_shorthand ("a}#" +:+ String.String CR "mutation{b}") ("#" +:+ String.String CR "mutation{b}")); [brackets|].
  apply (D_comment (String.String CR "mutation{b}") "mutation{b}"); [apply C_end; by right|].
  apply (D_operation "mutation" "{b}" "b}" ""); [reflexivity|reflexivity|heading|brackets|constructor].
Qed.

(** A session that fails to start after its process was launched leaves the
    launch behind: the frame that [Wrap] acquired is never cleaned up. *)
Theorem failed_startup_leaks : exists yaml liquid absOf evalSymlinks splitArgs ws issue world err calls,
  spawnWith yaml liquid absOf evalSymlinks splitArgs ws zeroConfig EmptyString false issue 1 world [] = (inr err, calls) /\
  omap mark calls = [LWrap; LSpawn; LFailed] /\
  (forall past frame dir, world past (CWrap frame dir) = RWrapped dir true).
Proof.
  exists (fun _ => None), (fun _ _ => Some "p"%string), Some, Some, (fun _ => Some []).
  exists (workspace.mkManager "/w" (mkHooksConfig 0 EmptyString EmptyString EmptyString EmptyString)).
  exists (mkIssue "i" "A-1" "" "" None "Todo" "" "" [] [] (mkProject "" "") 0 0)%string.
  exists (fun _ c => match c with
    | CWorkspace (workspace.CStat _) => RWorkspace workspace.RDir
    | CWorkspace _ => RWorkspace workspace.ROk
    | CWrap _ dir => RWrapped dir true
    | CRequest _ _ => agentrun.RErr "initialize failed"
    | _ => ROk
    end).
  eexists _, _. split_and!; [vm_compute; reflexivity|reflexivity|reflexivity].
Qed.
