(* ===== verification/ClientView.v ===== *)
(** * client/state/view: what a driver reports about a session

    [Status] and the view payload a driver's [Step] returns. *)

From S2P Require Import Prelude GoStd.
Open Scope Z_scope.

(** [type Status int]: a closed enumeration, but any int is representable. *)
Abbreviation Status := Z (only parsing).
Definition StatusRunning : Status := 0.
Definition StatusWaiting : Status := 1.
Definition StatusIdle : Status := 2.
Definition StatusStopped : Status := 3.
Definition StatusPending : Status := 4.

Definition Status_String (s : Status) : string :=
  if s =? StatusRunning then "running"
  else if s =? StatusWaiting then "waiting"
  else if s =? StatusIdle then "idle"
  else if s =? StatusStopped then "stopped"
  else if s =? StatusPending then "pending"
  else "unknown".

Definition SymbolKey (s : Status) : string :=
  if s =? StatusRunning then "status.running"
  else if s =? StatusWaiting then "status.waiting"
  else if s =? StatusIdle then "status.idle"
  else if s =? StatusStopped then "status.stopped"
  else if s =? StatusPending then "status.pending"
  else "".

Definition ParseStatus (name : string) : Status * bool :=
  if String.eqb name "running" then (StatusRunning, true)
  else if String.eqb name "waiting" then (StatusWaiting, true)
  else if String.eqb name "idle" then (StatusIdle, true)
  else if String.eqb name "stopped" then (StatusStopped, true)
  else if String.eqb name "pending" then (StatusPending, true)
  else (0, false).

Record StatusInfo := mkStatusInfo {
  SI_Status : Status;
  SI_ChangedAt : Time;
}.

Record Tag := mkTag {
  Tag_Text : string;
  Tag_Foreground : string;
  Tag_Background : string;
}.

Definition HostTag : Tag := mkTag "host" "#FFFFFF" "#7C5CBF".

Record Card := mkCard {
  Card_Title : string;
  Card_Tags : list Tag;
  Card_BorderTitle : Tag;
  Card_BorderTitleSecondary : Tag;
  Card_BorderBadge : string;
}.

Abbreviation TabKind := string (only parsing).
Definition TabKindText : TabKind := "text".

(** [json.RawMessage] is a byte string. *)
Record LogTab := mkLogTab {
  Tab_Label : string;
  Tab_Path : string;
  Tab_Kind : TabKind;
  Tab_RendererCfg : string;
}.

Record InfoLine := mkInfoLine {
  Info_Label : string;
  Info_Value : string;
}.

Record View := mkView {
  View_Card : Card;
  View_DisplayName : string;
  View_LogTabs : list LogTab;
  View_InfoExtras : list InfoLine;
  View_SuppressInfo : bool;
  View_StatusLine : string;
  View_Status : Status;
  View_StatusChangedAt : Time;
}.

(** The defined statuses. *)
Definition known_status (s : Status) : bool := (StatusRunning <=? s) && (s <=? StatusPending).

Lemma ParseStatus_String s : ParseStatus (Status_String s) = if known_status s then (s, true) else (0, false).
Proof.
  unfold Status_String, known_status, StatusRunning, StatusWaiting, StatusIdle, StatusStopped,
    StatusPending.
  destruct (Z.leb_spec 0 s), (Z.leb_spec s 4); simpl;
    try (assert (s = 0 \/ s = 1 \/ s = 2 \/ s = 3 \/ s = 4) as [->|[->|[->|[->| ->]]]] by lia; done);
    repeat (case Z.eqb_spec; intros; [lia|]); done.
Qed.

Lemma String_ParseStatus name s : ParseStatus name = (s, true) -> Status_String s = name /\ known_status s = true.
Proof.
  unfold ParseStatus. repeat (case String.eqb_spec; [intros -> [= <-]; done|intros _]). done.
Qed.
