(* ===== verification/ClientState.v ===== *)
(** * client/state: the domain state, events, effects and drivers

    [state.go], [event.go], [effect.go] and [driver_iface.go].  Identifiers are
    strings, connection and job ids are uint64 values.

    A driver plugin is a record of functions with its optional capabilities.
    Its private state, the inputs and results of its jobs, and payloads of type
    [any] are opaque to the reducer: they are the types of [ClientTypes]. *)

From S2P Require Import Prelude GoStd ClientView.
Open Scope Z_scope.

Abbreviation SessionID := string (only parsing).
Abbreviation FrameID := string (only parsing).
Abbreviation SubsystemID := string (only parsing).
Abbreviation TargetID := string (only parsing).
Abbreviation ConnID := Z (only parsing).
Abbreviation JobID := Z (only parsing).
Abbreviation error := string (only parsing).

Class ClientTypes := {
  DState : Type;    (** concrete driver states *)
  JobInput : Type;
  JobResult : Type;
  AnyValue : Type;  (** values of type [any] the reducer only passes on *)
  Float64 : Type;
}.

(** An interface value of type [DriverState]; [None] is nil. *)
Definition DriverState `{ClientTypes} : Type := option DState.

(** ** Launch data (driver_iface.go) *)

Inductive LaunchMode := LaunchModeCreate | LaunchModeColdStart | LaunchModeWarmStart.

Record WorktreeOption := mkWorktreeOption { Worktree_Enabled : bool }.

Abbreviation SandboxOverride := Z (only parsing).
Definition SandboxOverrideAuto : SandboxOverride := 0.
Definition SandboxOverrideHost : SandboxOverride := 1.

(** Byte slices are strings. *)
Record LaunchOptions := mkLaunchOptions {
  Opt_Worktree : WorktreeOption;
  Opt_InitialInput : string;
  Opt_Cols : Z;
  Opt_Rows : Z;
}.

#[export] Instance eta_LaunchOptions : Eta LaunchOptions := fun r =>
  mkLaunchOptions (Opt_Worktree r) (Opt_InitialInput r) (Opt_Cols r) (Opt_Rows r).

Definition zeroLaunchOptions : LaunchOptions := mkLaunchOptions (mkWorktreeOption false) "" 0 0.

Abbreviation LaunchSubsystem := string (only parsing).
Definition LaunchSubsystemCLI : LaunchSubsystem := "cli".
Definition LaunchSubsystemStream : LaunchSubsystem := "stream".

Abbreviation StreamSandboxPolicy := string (only parsing).
Abbreviation StreamApprovalPolicy := string (only parsing).

Record ResumeTarget := mkResumeTarget {
  Resume_ThreadID : string;
  Resume_RolloutPath : string;
}.

Record StreamLaunchOptions := mkStreamLaunchOptions {
  Stream_SandboxPolicy : StreamSandboxPolicy;
  Stream_ApprovalPolicy : StreamApprovalPolicy;
  Stream_ResumeTarget : ResumeTarget;
  Stream_ColdStartSessionID : string;
}.

Record LaunchPlan := mkLaunchPlan {
  Plan_Command : string;
  Plan_StartDir : string;
  Plan_Project : string;
  Plan_Sandbox : SandboxOverride;
  Plan_Options : LaunchOptions;
  Plan_Subsystem : LaunchSubsystem;
  Plan_Stream : StreamLaunchOptions;
  Plan_Stdin : string;
}.

#[export] Instance eta_LaunchPlan : Eta LaunchPlan := fun r =>
  mkLaunchPlan (Plan_Command r) (Plan_StartDir r) (Plan_Project r) (Plan_Sandbox r)
    (Plan_Options r) (Plan_Subsystem r) (Plan_Stream r) (Plan_Stdin r).

Record CreateLaunch := mkCreateLaunch {
  Create_Command : string;
  Create_StartDir : string;
  Create_Options : LaunchOptions;
}.

(** ** Subsystem payloads *)

Record SubsystemTurn := mkSubsystemTurn { Turn_Role : string; Turn_Text : string }.

Record SubsystemTool := mkSubsystemTool {
  Tool_ID : string;
  Tool_Name : string;
  Tool_Command : string;
  Tool_Path : string;
  Tool_Error : string;
  Tool_PermissionMode : string;
  Tool_IsInterrupt : bool;
}.

Record SubsystemApproval := mkSubsystemApproval {
  Approval_ID : string;
  Approval_Kind : string;
  Approval_Command : string;
  Approval_Path : string;
  Approval_Reason : string;
  Approval_AutoApprove : bool;
  Approval_Resolved : bool;
  Approval_Denied : bool;
}.

Record SubsystemPlan := mkSubsystemPlan { SPlan_Summary : string }.

Record SubsystemDiff := mkSubsystemDiff { Diff_Summary : string; Diff_Paths : list string }.

Record SubsystemMessage := mkSubsystemMessage { Msg_RecentTurns : list SubsystemTurn }.

Record SubsystemPayload := mkSubsystemPayload {
  Sub_SessionID : string;
  Sub_ColdStartSessionID : string;
  Sub_TurnID : string;
  Sub_TargetID : string;
  Sub_RequestedTargetID : string;
  Sub_ObservedTargetID : string;
  Sub_ResumePhase : string;
  Sub_Prompt : string;
  Sub_Error : string;
  Sub_LastAssistantMessage : string;
  Sub_StatusLine : string;
  Sub_TranscriptPath : string;
  Sub_Tool : option SubsystemTool;
  Sub_Approval : option SubsystemApproval;
  Sub_Plan : option SubsystemPlan;
  Sub_Diff : option SubsystemDiff;
  Sub_Message : option SubsystemMessage;
}.

Abbreviation SubsystemKind := string (only parsing).
Abbreviation SubsystemEventKind := string (only parsing).

(** [PromptPhase]: OSC 133 phases; any other int is "none". *)
Abbreviation PromptPhase := Z (only parsing).
Definition PromptPhaseNone : PromptPhase := 0.
Definition PromptPhaseStart : PromptPhase := 1.
Definition PromptPhaseInput : PromptPhase := 2.
Definition PromptPhaseCommand : PromptPhase := 3.
Definition PromptPhaseComplete : PromptPhase := 4.

Section types.
Context `{T : ClientTypes}.

(** ** Domain state (state.go) *)

Record SessionFrame := mkSessionFrame {
  Frame_ID : FrameID;
  Frame_SubsystemID : SubsystemID;
  Frame_TargetID : TargetID;
  Frame_Project : string;
  Frame_Command : string;
  Frame_LaunchOptions : LaunchOptions;
  Frame_CreatedAt : Time;
  Frame_Driver : DriverState;
}.

Record Session := mkSession {
  Session_ID : SessionID;
  Session_Project : string;
  Session_CreatedAt : Time;
  Session_Frames : list SessionFrame;
  Session_HeadFrameID : FrameID;
  Session_MRUFrameIDs : list FrameID;
  Session_Command : string;
  Session_Sandbox : SandboxOverride;
  Session_LaunchOptions : LaunchOptions;
  Session_Driver : DriverState;
}.

Record Subscriber := mkSubscriber {
  Subscriber_ConnID : ConnID;
  Subscriber_Filters : list string;
}.

Record JobMeta := mkJobMeta {
  Job_SessionID : SessionID;
  Job_FrameID : FrameID;
  Job_StartedAt : Time;
}.

Record State := mkState {
  Sessions : gmap string Session;
  Subscribers : gmap Z Subscriber;
  SurfaceSubs : gmap Z (gset string);
  Jobs : gmap Z JobMeta;
  NextJobID : JobID;
  NextConnID : ConnID;
  Now : Time;
  Aliases : gmap string string;
  DefaultCommand : string;
  SandboxedProject : option (string -> bool);
  Features : gmap string bool;
}.

#[export] Instance eta_SessionFrame : Eta SessionFrame := fun r =>
  mkSessionFrame (Frame_ID r) (Frame_SubsystemID r) (Frame_TargetID r) (Frame_Project r)
    (Frame_Command r) (Frame_LaunchOptions r) (Frame_CreatedAt r) (Frame_Driver r).

#[export] Instance eta_Session : Eta Session := fun r =>
  mkSession (Session_ID r) (Session_Project r) (Session_CreatedAt r) (Session_Frames r)
    (Session_HeadFrameID r) (Session_MRUFrameIDs r) (Session_Command r) (Session_Sandbox r)
    (Session_LaunchOptions r) (Session_Driver r).

#[export] Instance eta_State : Eta State := fun r =>
  mkState (Sessions r) (Subscribers r) (SurfaceSubs r) (Jobs r) (NextJobID r) (NextConnID r)
    (Now r) (Aliases r) (DefaultCommand r) (SandboxedProject r) (Features r).

Definition New : State := mkState ∅ ∅ ∅ ∅ 0 0 0 ∅ "" None ∅.

(** ** Events (event.go) *)

Inductive Event :=
| EvCmdSubscribe (conn : ConnID) (req : string) (filters : list string)
| EvCmdUnsubscribe (conn : ConnID) (req : string)
| EvEvent (conn : ConnID) (req : string) (event : string) (payload : string)
| EvCmdSurfaceReadText (conn : ConnID) (req : string) (sid : SessionID) (lines : Z)
| EvCmdSurfaceSendText (conn : ConnID) (req : string) (sid : SessionID) (text : string)
| EvCmdSurfaceSendKey (conn : ConnID) (req : string) (sid : SessionID) (key : string)
| EvCmdSurfaceSubscribe (conn : ConnID) (req : string) (sid : SessionID)
| EvCmdSurfaceUnsubscribe (conn : ConnID) (req : string) (sid : SessionID)
| EvCmdSurfaceResize (conn : ConnID) (req : string) (sid : SessionID) (cols rows : Z)
| EvCmdSurfaceWriteRaw (conn : ConnID) (req : string) (sid : SessionID) (data : string)
| EvCmdDriverList (conn : ConnID) (req : string)
| EvDriverEvent (conn : ConnID) (req : string) (event : string) (timestamp : Time)
    (sender : FrameID) (payload : string)
| EvSubsystem (conn : ConnID) (req : string) (fid : FrameID) (source : SubsystemKind)
    (kind : SubsystemEventKind) (timestamp : Time) (payload : SubsystemPayload)
| EvConnOpened (conn : ConnID)
| EvConnClosed (conn : ConnID)
| EvTick (now : Time) (n : Z)
| EvFileChanged (fid : FrameID) (path : string)
| EvJobResult (job : JobID) (result : JobResult) (err : option error)
| EvFrameVanished (fid : FrameID)
| EvFrameCommandExited (fid : FrameID) (exitCode : Z)
| EvFrameSpawned (sid : SessionID) (fid : FrameID) (subsystem : SubsystemID)
    (worktreeStartDir worktreeName : string) (replyConn : ConnID) (replyReq : string)
| EvSpawnFailed (sid : SessionID) (fid : FrameID) (err : string) (replyConn : ConnID)
    (replyReq : string)
| EvFrameOsc (fid : FrameID) (cmd : Z) (title body : string) (now : Time)
| EvFramePrompt (fid : FrameID) (phase : PromptPhase) (exitCode : option Z) (now : Time).

Definition EventCreateSession := "create-session"%string.
Definition EventStopSession := "stop-session"%string.
Definition EventListSessions := "list-sessions"%string.
Definition EventShutdown := "shutdown"%string.
Definition EventPushDriver := "push-driver"%string.
Definition EventForkSession := "fork-session"%string.
Definition EventSetHeadFrame := "set-head-frame"%string.

(** ** Effects (effect.go) *)

(** Response bodies the reducer builds; [BodyAny] is a driver's own. *)
Inductive Body :=
| BodyNil
| BodyCreateSessionReply (sid : string)
| BodySessionsReply
| BodySurfaceReadTextReply (sid : SessionID) (lines : Z)
| BodyDriverListReply
| BodyAny (v : AnyValue).

Inductive Effect :=
| EffSpawnFrame (sid : SessionID) (fid : FrameID) (mode : LaunchMode) (project command startDir : string)
    (sandbox : SandboxOverride) (options : LaunchOptions) (subsystem : LaunchSubsystem)
    (stream : StreamLaunchOptions) (stdin : string) (env : gmap string string)
    (replyConn : ConnID) (replyReq : string)
| EffKillFrame (fid : FrameID)
| EffRegisterFrame (fid : FrameID) (tap : bool)
| EffUnregisterFrame (fid : FrameID)
| EffSetSessionEnv (key value : string)
| EffUnsetSessionEnv (key : string)
| EffReleaseFrameSandboxes
| EffReleaseFrameSandbox (fid : FrameID)
| EffSendResponse (conn : ConnID) (req : string) (body : Body)
| EffSendResponseSync (conn : ConnID) (req : string) (body : Body)
| EffSendError (conn : ConnID) (req code message : string) (details : gmap string AnyValue)
| EffBroadcastSessionsChanged
| EffBroadcastEvent (name : string) (payload : AnyValue) (filterTag : string)
| EffCloseConn (conn : ConnID)
| EffSendFrameKeys (conn : ConnID) (req : string) (sid : SessionID) (text key : string)
    (withEnter : bool)
| EffPersistSnapshot
| EffWatchFile (fid : FrameID) (path kind : string)
| EffUnwatchFile (fid : FrameID)
| EffEventLogAppend (fid : FrameID) (line : string)
| EffToolLogAppend (namespace project line : string)
| EffReconcileWindows
| EffRecordNotification (sid : SessionID) (fid : FrameID) (cmd : Z) (title body : string)
| EffPushDriver (sid : SessionID) (command : string)
| EffStartJob (job : JobID) (input : JobInput)
| EffSurfaceSubscribeStart (conn : ConnID) (sid : SessionID)
| EffSurfaceSubscribeStop (conn : ConnID) (sid : SessionID)
| EffSurfaceResize (sid : SessionID) (cols rows : Z)
| EffSurfaceWriteRaw (sid : SessionID) (data : string)
| EffBroadcastSurfaceOutput (sid : SessionID) (data : string) (timeSec : Float64)
| EffBroadcastPromptEvent (fid : FrameID) (phase : string) (exitCode : Z).

(** ** Drivers (driver_iface.go) *)

Record FrameContext := mkFrameContext {
  Ctx_ID : FrameID;
  Ctx_Project : string;
  Ctx_Command : string;
  Ctx_LaunchOptions : LaunchOptions;
  Ctx_CreatedAt : Time;
  Ctx_IsRoot : bool;
}.

Inductive DriverEvent :=
| DEvHook (event : string) (timestamp : Time) (roostSessionID payload : string)
| DEvSubsystem (source : SubsystemKind) (kind : SubsystemEventKind) (timestamp : Time)
    (payload : SubsystemPayload)
| DEvTick (now : Time) (watched : bool) (project : string) (n seq : Z)
| DEvJobResult (result : JobResult) (err : option error) (now : Time)
| DEvFileChanged (path : string)
| DEvFrameOsc (cmd : Z) (title body : string) (now : Time)
| DEvFramePrompt (phase : PromptPhase) (exitCode : option Z) (now : Time)
| DEvStatusLineClick (range : string) (now : Time)
| DEvWorktreeResolved (startDir name : string)
| DEvCommandExited (exitCode : Z) (timestamp : Time).

Record CreateSessionPlanner := mkCreateSessionPlanner {
  PrepareCreate : DriverState -> SessionID -> string -> string -> LaunchOptions ->
    (DriverState * CreateLaunch) + error;
}.

Record Forkable := mkForkable {
  ForkCommand : DriverState -> string -> string * bool;
  ForkChildState : DriverState -> Time -> DriverState;
}.

Record StartDirAware := mkStartDirAware {
  StartDir : DriverState -> string;
  WithStartDir : DriverState -> string -> DriverState;
}.

(** The [Driver] interface and the optional interfaces a driver may satisfy.
    The reducer does not call [View] and the persistence and recovery methods;
    the runtime does.  A nil bag is [None]. *)
Record Driver := mkDriver {
  Driver_Name : string;
  Driver_DisplayName : string;
  Driver_NewState : Time -> DriverState;
  Driver_Step : DriverState -> FrameContext -> DriverEvent -> DriverState * list Effect * View;
  Driver_Status : DriverState -> Status;
  Driver_PrepareLaunch : DriverState -> LaunchMode -> string -> string -> LaunchOptions ->
    bool -> LaunchPlan + error;
  Driver_CreateSessionPlanner : option CreateSessionPlanner;
  Driver_Forkable : option Forkable;
  Driver_StartDirAware : option StartDirAware;
  Driver_BootstrapSessionStart : option
    (DriverState -> FrameContext -> Time -> DriverState * list Effect);
  Driver_View : DriverState -> View;
  Driver_Persist : DriverState -> option (gmap string string);
  Driver_Restore : gmap string string -> Time -> DriverState;
  Driver_WarmStartRecoverer : option (DriverState -> Time -> DriverState * list Effect);
  Driver_ColdStartRecoverer : option (DriverState -> bool);
}.

(** The registry, filled at init time, and the factory for other commands. *)
Record Registry := mkRegistry {
  driverRegistry : gmap string Driver;
  defaultFactory : option (string -> option Driver);
}.

(** [Register]: duplicate names panic ([None]). *)
Definition Register (r : Registry) (d : Driver) : option Registry :=
  match driverRegistry r !! Driver_Name d with
  | Some _ => None
  | None => Some (mkRegistry (<[Driver_Name d := d]> (driverRegistry r)) (defaultFactory r))
  end.

Definition RegisterDefaultFactory (r : Registry) (f : string -> option Driver) : Registry :=
  mkRegistry (driverRegistry r) (Some f).

(** The command up to the first space or tab. *)
Fixpoint FirstToken (command : string) : string :=
  match command with
  | EmptyString => EmptyString
  | String.String c rest =>
      if Ascii.eqb c " " || Ascii.eqb c "009" then EmptyString
      else String.String c (FirstToken rest)
  end.

Definition GetDriver (r : Registry) (command : string) : option Driver :=
  match driverRegistry r !! FirstToken command with
  | Some d => Some d
  | None =>
      match defaultFactory r with
      | Some f => f command
      | None => driverRegistry r !! ""%string
      end
  end.

End types.
