(* ===== verification/ClientReduce.v ===== *)
(** * client/state: the pure reducer

    [reduce*.go] and [event_dispatch.go].  [Reduce] folds one event into the
    next state and the effects the runtime must perform.

    Random ids (crypto/rand) are drawn from a supply: [idAt n] is the outcome of
    the [n]-th draw, and operations that allocate thread the number of draws.
    [None] as the result of [Reduce] is a panic.  Go's iteration over the
    session map is the order of [map_to_list]; the invariant of [ClientInv]
    makes every search over it independent of the order. *)

From S2P Require Import Prelude GoStd ClientView ClientState.
From stdpp Require Import pretty.
Open Scope Z_scope.

(** [uint64] counters. *)
Definition wrapu64 (z : Z) : Z := z mod 2 ^ 64.

(** ** Error codes (reduce_frame_evict.go) *)

Definition ErrCodeNotFound := "not_found"%string.
Definition ErrCodeInvalidArgument := "invalid_argument"%string.
Definition ErrCodeInternal := "internal"%string.
Definition ErrCodeAlreadyExists := "already_exists"%string.
Definition ErrCodeUnsupported := "unsupported"%string.
Definition ErrCodeResourceExhausted := "resource_exhausted"%string.
Definition ErrCodeFrameNotReady := "frame_not_ready"%string.

(** ** Payloads of registered events *)

Record SetHeadFrameParams := mkSetHeadFrameParams {
  SetHead_SessionID : string;
  SetHead_FrameID : string;
}.

Record CreateSessionParams := mkCreateSessionParams {
  CreateP_Project : string;
  CreateP_Command : string;
  CreateP_Sandbox : SandboxOverride;
  CreateP_Options : LaunchOptions;
}.

Record PushDriverParams := mkPushDriverParams {
  Push_SessionID : string;
  Push_Project : string;
  Push_Command : string;
  Push_Options : LaunchOptions;
  Push_Input : string;
}.

Record ForkSessionParams := mkForkSessionParams { Fork_SessionID : string }.

Record StopSessionParams := mkStopSessionParams { Stop_SessionID : string }.

(** [json.Unmarshal] into each payload type: the decoded value or the error. *)
Record Json := mkJson {
  unmarshalSetHead : string -> SetHeadFrameParams + error;
  unmarshalCreate : string -> CreateSessionParams + error;
  unmarshalPush : string -> PushDriverParams + error;
  unmarshalFork : string -> ForkSessionParams + error;
  unmarshalStop : string -> StopSessionParams + error;
  unmarshalUnit : string -> unit + error;
}.

Section reduce.
Context `{T : ClientTypes}.
Context (reg : Registry) (idAt : nat -> string) (json : Json).

(** The result of an operation that may allocate ids. *)
Abbreviation result := (State * list Effect * nat)%type.

(** ** Helpers (reduce_helpers.go) *)

Definition errResp (conn : ConnID) (req code message : string) : Effect :=
  EffSendError conn req code message ∅.

Definition okResp (conn : ConnID) (req : string) (body : Body) : Effect :=
  EffSendResponse conn req body.

Definition allocSessionID (rng : nat) : SessionID * nat := (idAt rng, S rng).
Definition allocFrameID (rng : nat) : FrameID * nat := allocSessionID rng.

Definition isSandboxed (s : State) (project : string) (override : SandboxOverride) : bool :=
  match SandboxedProject s with
  | Some f => f project && negb (override =? SandboxOverrideHost)
  | None => false
  end.

Definition spawnEffect (sessID : SessionID) (frameID : FrameID) (plan : LaunchPlan)
    (conn : ConnID) (req : string) : Effect :=
  EffSpawnFrame sessID frameID LaunchModeCreate (Plan_Project plan) (Plan_Command plan)
    (Plan_StartDir plan) (Plan_Sandbox plan) (Plan_Options plan) (Plan_Subsystem plan)
    (Plan_Stream plan) (Plan_Stdin plan)
    (<["ROOST_SESSION_ID"%string := sessID]> {["ROOST_FRAME_ID"%string := frameID]}) conn req.

Definition rootFrame (sess : Session) : option SessionFrame :=
  match Session_Frames sess with
  | [] =>
      if String.eqb (Session_Command sess) "" || negb (is_some (Session_Driver sess)) then None
      else Some (mkSessionFrame (Session_ID sess) "" "" (Session_Project sess)
                   (Session_Command sess) (Session_LaunchOptions sess)
                   (Session_CreatedAt sess) (Session_Driver sess))
  | f :: _ => Some f
  end.

Definition headFrame (sess : Session) : option SessionFrame :=
  match Session_Frames sess with
  | [] => rootFrame sess
  | _ :: _ =>
      let found := if String.eqb (Session_HeadFrameID sess) "" then None
        else List.find (λ f, String.eqb (Frame_ID f) (Session_HeadFrameID sess))
               (Session_Frames sess) in
      match found with
      | Some f => Some f
      | None => last (Session_Frames sess)
      end
  end.

Definition pushMRU (sess : Session) (frameID : FrameID) : Session :=
  if String.eqb frameID "" then sess
  else
    let mru := frameID ::
      List.filter (λ id, negb (String.eqb id frameID)) (Session_MRUFrameIDs sess) in
    sess <| Session_MRUFrameIDs := take 16 mru |>.

(** The first MRU entry that still exists and the entries after it. *)
Fixpoint firstExisting (frames : list SessionFrame) (mru : list FrameID)
    : option (FrameID * list FrameID) :=
  match mru with
  | [] => None
  | id :: rest =>
      if existsb (λ f, String.eqb (Frame_ID f) id) frames then Some (id, rest)
      else firstExisting frames rest
  end.

Definition popMRU (sess : Session) : FrameID * Session :=
  match firstExisting (Session_Frames sess) (Session_MRUFrameIDs sess) with
  | Some (id, rest) => (id, sess <| Session_MRUFrameIDs := rest |>)
  | None => (""%string, sess <| Session_MRUFrameIDs := [] |>)
  end.

(** The frames without the one at position [i]. *)
Definition removeFrameByIndex (sess : Session) (i : nat) : Session :=
  sess <| Session_Frames := take i (Session_Frames sess) ++ drop (S i) (Session_Frames sess) |>.

(** [-1] is [None]. *)
Fixpoint frameIndex (frames : list SessionFrame) (frameID : FrameID) : option nat :=
  match frames with
  | [] => None
  | f :: rest =>
      if String.eqb (Frame_ID f) frameID then Some 0%nat
      else S <$> frameIndex rest frameID
  end.

Definition findFrameIndex (sess : Session) (frameID : FrameID) : option nat :=
  frameIndex (Session_Frames sess) frameID.

Fixpoint findFrameIn (l : list (string * Session)) (frameID : FrameID)
    : option (SessionID * Session * nat) :=
  match l with
  | [] => None
  | (sessID, sess) :: rest =>
      match findFrameIndex sess frameID with
      | Some idx => Some (sessID, sess, idx)
      | None => findFrameIn rest frameID
      end
  end.

Definition findFrame (s : State) (frameID : FrameID) : option (SessionID * Session * nat) :=
  findFrameIn (map_to_list (Sessions s)) frameID.

Definition truncateFrames (sess : Session) (from : nat) : list SessionFrame :=
  drop from (Session_Frames sess).

(** Fills in what a driver left blank; a started job gets an id. *)
Definition postProcessEffect (s : State) (sessID : SessionID) (frameID : FrameID) (eff : Effect)
    : Effect * State :=
  match eff with
  | EffStartJob _ input =>
      let jobID := wrapu64 (NextJobID s + 1) in
      (EffStartJob jobID input,
       s <| NextJobID := jobID |>
         <| Jobs := <[jobID := mkJobMeta sessID frameID (Now s)]> (Jobs s) |>)
  | EffEventLogAppend fid line =>
      (EffEventLogAppend (if String.eqb fid "" then frameID else fid) line, s)
  | EffWatchFile fid path kind =>
      (EffWatchFile (if String.eqb fid "" then frameID else fid) path kind, s)
  | EffUnwatchFile fid => (EffUnwatchFile (if String.eqb fid "" then frameID else fid), s)
  | EffPushDriver sid command =>
      (EffPushDriver (if String.eqb sid "" then sessID else sid) command, s)
  | EffRecordNotification sid fid cmd title body =>
      (EffRecordNotification (if String.eqb sid "" then sessID else sid)
         (if String.eqb fid "" then frameID else fid) cmd title body, s)
  | _ => (eff, s)
  end.

Fixpoint postProcessAll (s : State) (sessID : SessionID) (frameID : FrameID)
    (effs : list Effect) : State * list Effect :=
  match effs with
  | [] => (s, [])
  | eff :: rest =>
      let '(patched, s) := postProcessEffect s sessID frameID eff in
      let '(s, out) := postProcessAll s sessID frameID rest in
      (s, patched :: out)
  end.

Definition frameContext (frame : SessionFrame) (isRoot : bool) : FrameContext :=
  mkFrameContext (Frame_ID frame) (Frame_Project frame) (Frame_Command frame)
    (Frame_LaunchOptions frame) (Frame_CreatedAt frame) isRoot.

(** Stores [frame] at position [idx] of the session. *)
Definition putFrame (s : State) (sessID : SessionID) (sess : Session) (idx : nat)
    (frame : SessionFrame) : State :=
  s <| Sessions := <[sessID := sess <| Session_Frames := <[idx := frame]> (Session_Frames sess) |>]>
         (Sessions s) |>.

(** [None]: the frame or its driver is unknown. *)
Definition stepDriver (s : State) (frameID : FrameID) (ev : DriverEvent)
    : option (State * list Effect) :=
  match findFrame s frameID with
  | None => None
  | Some (sessID, sess, frameIdx) =>
      match Session_Frames sess !! frameIdx with
      | None => None
      | Some frame =>
          match GetDriver reg (Frame_Command frame) with
          | None => None
          | Some drv =>
              let ctx := frameContext frame (frameIdx =? 0)%nat in
              let prev := match Frame_Driver frame with
                | None => Driver_NewState drv (Now s)
                | ds => ds
                end in
              let '(nextDS, rawEffs, _) := Driver_Step drv prev ctx ev in
              let s := putFrame s sessID sess frameIdx (frame <| Frame_Driver := nextDS |>) in
              Some (postProcessAll s sessID frameID rawEffs)
          end
      end
  end.

Definition bootstrapDriverSessionStart (s : State) (frameID : FrameID)
    : option (State * list Effect) :=
  match findFrame s frameID with
  | None => None
  | Some (sessID, sess, frameIdx) =>
      if negb (frameIdx =? 0)%nat then None
      else match Session_Frames sess !! frameIdx with
      | None => None
      | Some frame =>
          match GetDriver reg (Frame_Command frame) with
          | None => None
          | Some drv =>
              match Driver_BootstrapSessionStart drv with
              | None => None
              | Some bootstrap =>
                  let '(nextDS, rawEffs) :=
                    bootstrap (Frame_Driver frame) (frameContext frame true) (Now s) in
                  let s := putFrame s sessID sess frameIdx (frame <| Frame_Driver := nextDS |>) in
                  Some (postProcessAll s sessID frameID rawEffs)
              end
          end
      end
  end.

Definition sessionWatched (s : State) (sid : SessionID) : bool :=
  existsb (λ subs, bool_decide (sid ∈ subs)) ((map_to_list (SurfaceSubs s)).*2).

(** Loop state of [stepActiveSessions]; [st_calls] counts the calls of
    [makeEv]. *)
Record Stepping := mkStepping {
  st_state : State;
  st_effs : list Effect;
  st_changed : bool;
  st_calls : Z;
}.

Definition stepSession (makeEv : Z -> SessionID -> Session -> bool -> DriverEvent)
    (acc : Stepping) (sessID : SessionID) : Stepping :=
  let s := st_state acc in
  match Sessions s !! sessID with
  | None => acc (* the zero Session has no root frame *)
  | Some sess =>
      match rootFrame sess with
      | None => acc
      | Some frame =>
          match GetDriver reg (Frame_Command frame) with
          | None => acc
          | Some _ =>
              let watched := sessionWatched s sessID in
              let ev := makeEv (st_calls acc) sessID sess watched in
              let calls := wrapu64 (st_calls acc + 1) in
              match stepDriver s (Frame_ID frame) ev with
              | None => mkStepping s (st_effs acc) (st_changed acc) calls
              | Some (next, sessEffs) =>
                  mkStepping next (st_effs acc ++ sessEffs)
                    (st_changed acc || (0 <? length sessEffs)%nat) calls
              end
          end
      end
  end.

Definition stepActiveSessions (makeEv : Z -> SessionID -> Session -> bool -> DriverEvent)
    (s : State) : Stepping :=
  fold_left (stepSession makeEv) (sort.Strings ((map_to_list (Sessions s)).*1))
    (mkStepping s [] false 0).

(** ** Sessions (reduce_session.go) *)

Definition resolveCreateCommand (s : State) (command : string) : string :=
  let command := if String.eqb command "" then DefaultCommand s else command in
  let command := if String.eqb command "" then "shell"%string else command in
  match Aliases s !! command with
  | Some expanded => expanded
  | None => command
  end.

Definition prepareSessionDriver (s : State) (drv : Driver) (sessID : SessionID)
    (project command : string) (options : LaunchOptions)
    : (DriverState * CreateLaunch) + error :=
  let driverState := Driver_NewState drv (Now s) in
  match Driver_CreateSessionPlanner drv with
  | Some planner => PrepareCreate planner driverState sessID project command options
  | None => inl (driverState, mkCreateLaunch command project options)
  end.

Definition reduceCreateSession (rng : nat) (s : State) (conn : ConnID) (req : string)
    (p : CreateSessionParams) : result :=
  if String.eqb (CreateP_Project p) "" then
    (s, [errResp conn req ErrCodeInvalidArgument "project arg required"], rng)
  else
  let command := resolveCreateCommand s (CreateP_Command p) in
  let '(sessID, rng) := allocSessionID rng in
  match GetDriver reg command with
  | None =>
      (s, [errResp conn req ErrCodeUnsupported ("no driver registered for command " +:+ command)],
       rng)
  | Some drv =>
      match prepareSessionDriver s drv sessID (CreateP_Project p) command (CreateP_Options p) with
      | inr err => (s, [errResp conn req ErrCodeInvalidArgument err], rng)
      | inl (driverState, createLaunch) =>
          let '(rootFrameID, rng) := allocFrameID rng in
          match Driver_PrepareLaunch drv driverState LaunchModeCreate (CreateP_Project p)
                  (Create_Command createLaunch) (Create_Options createLaunch)
                  (isSandboxed s (CreateP_Project p) (CreateP_Sandbox p)) with
          | inr err => (s, [errResp conn req ErrCodeInvalidArgument err], rng)
          | inl launch =>
              let launch := launch <| Plan_Project := CreateP_Project p |>
                                   <| Plan_Sandbox := CreateP_Sandbox p |> in
              let frame := mkSessionFrame rootFrameID "" rootFrameID (CreateP_Project p) command
                (Plan_Options launch) (Now s) driverState in
              let session := mkSession sessID (CreateP_Project p) (Now s) [frame] rootFrameID []
                command (CreateP_Sandbox p) (CreateP_Options p) driverState in
              (s <| Sessions := <[sessID := session]> (Sessions s) |>,
               [spawnEffect sessID rootFrameID launch conn req], rng)
          end
      end
  end.

(** The root frame's working directory, inherited by a child driver that can
    hold one. *)
Definition inheritStartDir (rootDrv drv : option Driver) (rootState driverState : DriverState)
    : DriverState :=
  match rootDrv ≫= Driver_StartDirAware with
  | None => driverState
  | Some rp =>
      let parentDir := StartDir rp rootState in
      if String.eqb parentDir "" then driverState
      else match drv ≫= Driver_StartDirAware with
      | Some wp => WithStartDir wp driverState parentDir
      | None => driverState
      end
  end.

Definition pushDriverInternal (rng : nat) (s : State) (sid : SessionID)
    (project rawCommand : string) (options : LaunchOptions) (input : string)
    (conn : ConnID) (req : string) : (State * list Effect + error) * nat :=
  match Sessions s !! sid with
  | None => (inr "session not found"%string, rng)
  | Some sess =>
      let project := if String.eqb project "" then Session_Project sess else project in
      let options := options <| Opt_InitialInput := input |> in
      let command := resolveCreateCommand s rawCommand in
      match GetDriver reg command with
      | None => (inr ("no driver registered for command " +:+ command), rng)
      | Some drv =>
          match prepareSessionDriver s drv sid project command options with
          | inr err => (inr err, rng)
          | inl (driverState, createLaunch) =>
              let driverState := match rootFrame sess with
                | Some rootF => inheritStartDir (GetDriver reg (Frame_Command rootF)) (Some drv)
                                  (Frame_Driver rootF) driverState
                | None => driverState
                end in
              let '(frameID, rng) := allocFrameID rng in
              match Driver_PrepareLaunch drv driverState LaunchModeCreate project
                      (Create_Command createLaunch) (Create_Options createLaunch)
                      (isSandboxed s project (Session_Sandbox sess)) with
              | inr err => (inr err, rng)
              | inl launch =>
                  let launch := launch <| Plan_Project := project |>
                                       <| Plan_Sandbox := Session_Sandbox sess |> in
                  let frame := mkSessionFrame frameID "" frameID project command
                    (Plan_Options launch) (Now s) driverState in
                  let sess := pushMRU sess (Session_HeadFrameID sess)
                    <| Session_HeadFrameID := frameID |>
                    <| Session_Frames := Session_Frames sess ++ [frame] |> in
                  (inl (s <| Sessions := <[sid := sess]> (Sessions s) |>,
                        [spawnEffect sid frameID launch conn req]), rng)
              end
          end
      end
  end.

Definition reducePushDriver (rng : nat) (s : State) (conn : ConnID) (req : string)
    (p : PushDriverParams) : result :=
  let sid := Push_SessionID p in
  if String.eqb sid "" then
    (s, [errResp conn req ErrCodeInvalidArgument "session_id required"], rng)
  else match Sessions s !! sid with
  | None => (s, [errResp conn req ErrCodeNotFound "session not found"], rng)
  | Some _ =>
      match pushDriverInternal rng s sid (Push_Project p) (Push_Command p) (Push_Options p)
              (Push_Input p) conn req with
      | (inr err, rng) => (s, [errResp conn req ErrCodeInvalidArgument err], rng)
      | (inl (s, effs), rng) => (s, effs, rng)
      end
  end.

(** A failed push is dropped. *)
Fixpoint resolvePushDriverEffects (rng : nat) (s : State) (rawEffs : list Effect) : result :=
  match rawEffs with
  | [] => (s, [], rng)
  | EffPushDriver sid command :: rest =>
      match pushDriverInternal rng s sid "" command zeroLaunchOptions "" 0 "" with
      | (inr _, rng) => resolvePushDriverEffects rng s rest
      | (inl (s, pushEffs), rng) =>
          let '(s, effs, rng) := resolvePushDriverEffects rng s rest in
          (s, pushEffs ++ effs, rng)
      end
  | eff :: rest =>
      let '(s, effs, rng) := resolvePushDriverEffects rng s rest in
      (s, eff :: effs, rng)
  end.

(** [inr]: the error reply. *)
Definition resolveForkDrv (s : State) (conn : ConnID) (req : string) (rootF : SessionFrame)
    : (Driver * Forkable * Driver * string) + Effect :=
  match GetDriver reg (Frame_Command rootF) with
  | None => inr (errResp conn req ErrCodeUnsupported
                   ("no driver for command " +:+ Frame_Command rootF))
  | Some rootDrv =>
      match Driver_Forkable rootDrv with
      | None => inr (errResp conn req ErrCodeUnsupported
                       (Driver_Name rootDrv +:+ " driver does not support fork"))
      | Some forkable =>
          let '(forkCmd, ok) := ForkCommand forkable (Frame_Driver rootF) (Frame_Command rootF) in
          if negb ok then
            inr (errResp conn req ErrCodeUnsupported
                   "fork not available (session ID not yet established)")
          else
            let forkCommand := resolveCreateCommand s forkCmd in
            match GetDriver reg forkCommand with
            | None => inr (errResp conn req ErrCodeUnsupported
                             ("no driver for fork command " +:+ forkCommand))
            | Some forkDrv => inl (rootDrv, forkable, forkDrv, forkCommand)
            end
      end
  end.

Definition makeForkSession (s : State) (src : Session) (newSessID : SessionID)
    (rootFrameID : FrameID) (durableCommand : string) (opts : LaunchOptions)
    (driverState : DriverState) : Session :=
  mkSession newSessID (Session_Project src) (Now s)
    [mkSessionFrame rootFrameID "" "" (Session_Project src) durableCommand zeroLaunchOptions
       (Now s) driverState]
    rootFrameID [] durableCommand (Session_Sandbox src) opts driverState.

Definition spawnForkSession (rng : nat) (s : State) (conn : ConnID) (req : string)
    (sess : Session) (forkDrv : Driver) (driverState : DriverState)
    (durableCommand launchCommand : string) (opts : LaunchOptions) : result :=
  let '(newSessID, rng) := allocSessionID rng in
  let '(rootFrameID, rng) := allocFrameID rng in
  match Driver_PrepareLaunch forkDrv driverState LaunchModeCreate (Session_Project sess)
          launchCommand opts (isSandboxed s (Session_Project sess) (Session_Sandbox sess)) with
  | inr err => (s, [errResp conn req ErrCodeInvalidArgument err], rng)
  | inl launch =>
      let launch := launch <| Plan_Project := Session_Project sess |>
                           <| Plan_Sandbox := Session_Sandbox sess |> in
      let newSess := makeForkSession s sess newSessID rootFrameID durableCommand opts driverState in
      let newSess := newSess <| Session_Frames :=
        alter (λ f, f <| Frame_LaunchOptions := Plan_Options launch |>) 0%nat
          (Session_Frames newSess) |> in
      (s <| Sessions := <[newSessID := newSess]> (Sessions s) |>,
       [spawnEffect newSessID rootFrameID launch conn req], rng)
  end.

Definition buildForkSession (rng : nat) (s : State) (conn : ConnID) (req : string)
    (sess : Session) (rootF : SessionFrame) (rootDrv : Driver) (forkable : Forkable)
    (forkDrv : Driver) (forkCommand : string) : result :=
  let driverState := ForkChildState forkable (Frame_Driver rootF) (Now s) in
  let driverState := inheritStartDir (Some rootDrv) (Some forkDrv) (Frame_Driver rootF) driverState in
  spawnForkSession rng s conn req sess forkDrv driverState (Frame_Command rootF) forkCommand
    zeroLaunchOptions.

Definition reduceForkSession (rng : nat) (s : State) (conn : ConnID) (req : string)
    (p : ForkSessionParams) : result :=
  let sid := Fork_SessionID p in
  if String.eqb sid "" then
    (s, [errResp conn req ErrCodeInvalidArgument "session_id required"], rng)
  else match Sessions s !! sid with
  | None => (s, [errResp conn req ErrCodeNotFound "session not found"], rng)
  | Some sess =>
      match rootFrame sess with
      | None => (s, [errResp conn req ErrCodeInvalidArgument "session has no root frame"], rng)
      | Some rootF =>
          match resolveForkDrv s conn req rootF with
          | inr errEff => (s, [errEff], rng)
          | inl (rootDrv, forkable, forkDrv, forkCommand) =>
              buildForkSession rng s conn req sess rootF rootDrv forkable forkDrv forkCommand
          end
      end
  end.

(** ** Eviction (reduce_frame_evict.go) *)

Definition frameTeardownEffects (frameID : FrameID) (killWindow : bool) : list Effect :=
  (if killWindow then [EffKillFrame frameID] else []) ++
  [EffReleaseFrameSandbox frameID; EffUnregisterFrame frameID; EffUnwatchFile frameID].

Definition evictRootFrame (s : State) (sessID : SessionID) (sess : Session) (killWindow : bool)
    : State * list Effect :=
  (s <| Sessions := delete sessID (Sessions s) |>,
   (truncateFrames sess 0 ≫= λ frame, frameTeardownEffects (Frame_ID frame) killWindow)
   ++ [EffPersistSnapshot; EffBroadcastSessionsChanged]).

(** [idx] is positive, so the session keeps a first frame. *)
Definition evictChildFrame (s : State) (sessID : SessionID) (sess : Session) (idx : nat)
    (frameID : FrameID) (killWindow : bool) : State * list Effect :=
  let wasActive := String.eqb (Session_HeadFrameID sess) frameID in
  let removedID := default ""%string (Frame_ID <$> Session_Frames sess !! idx) in
  let sess := removeFrameByIndex sess idx in
  let sess :=
    if wasActive then
      let '(fallback, sess) := popMRU sess in
      let fallback := if String.eqb fallback ""
        then default ""%string (Frame_ID <$> head (Session_Frames sess)) else fallback in
      sess <| Session_HeadFrameID := fallback |>
    else sess in
  (s <| Sessions := <[sessID := sess]> (Sessions s) |>,
   frameTeardownEffects removedID killWindow
   ++ [EffPersistSnapshot; EffBroadcastSessionsChanged]).

(** [None]: no such frame. *)
Definition evictFrame (s : State) (frameID : FrameID) (killWindow : bool)
    : option (State * list Effect) :=
  match findFrame s frameID with
  | None => None
  | Some (sessID, sess, idx) =>
      if (idx =? 0)%nat then Some (evictRootFrame s sessID sess killWindow)
      else Some (evictChildFrame s sessID sess idx frameID killWindow)
  end.

Definition reduceStopSession (s : State) (conn : ConnID) (req : string) (p : StopSessionParams)
    : State * list Effect :=
  let sid := Stop_SessionID p in
  match Sessions s !! sid with
  | None => (s, [errResp conn req ErrCodeNotFound "session not found"])
  | Some sess =>
      (s <| Sessions := delete sid (Sessions s) |>,
       EffBroadcastSessionsChanged ::
       (truncateFrames sess 0 ≫= λ frame, frameTeardownEffects (Frame_ID frame) true)
       ++ [okResp conn req BodyNil; EffPersistSnapshot])
  end.

(** ** Navigation and spawn results (reduce_session_nav.go, reduce_frame.go) *)

(** Records the backend identity the subsystem chose on the frame; returns the
    frame's subsystem id after it. *)
Definition recordSubsystem (s : State) (sid : SessionID) (sess : Session) (frameIdx : nat)
    (subsystem : SubsystemID) : State * SubsystemID :=
  let old := default ""%string (Frame_SubsystemID <$> Session_Frames sess !! frameIdx) in
  if negb (String.eqb subsystem "") && negb (String.eqb old subsystem) then
    (s <| Sessions := <[sid := sess <| Session_Frames :=
           alter (λ f, f <| Frame_SubsystemID := subsystem |>) frameIdx (Session_Frames sess) |>]>
           (Sessions s) |>, subsystem)
  else (s, old).

(** Tells the driver the path of a managed worktree. *)
Definition resolveWorktree (s : State) (fid : FrameID) (startDir name : string) : State :=
  if String.eqb startDir "" then s
  else match stepDriver s fid (DEvWorktreeResolved startDir name) with
  | Some (next, _) => next
  | None => s
  end.

Definition reduceFrameSpawned (s : State) (sid : SessionID) (fid : FrameID)
    (subsystem : SubsystemID) (worktreeStartDir worktreeName : string)
    (replyConn : ConnID) (replyReq : string) : State * list Effect :=
  match Sessions s !! sid with
  | None => (s, [])
  | Some sess =>
      match findFrameIndex sess fid with
      | None => (s, [])
      | Some frameIdx =>
          let '(s, subID) := recordSubsystem s sid sess frameIdx subsystem in
          let s := resolveWorktree s fid worktreeStartDir worktreeName in
          let '(s, bootstrapEffs) :=
            if (frameIdx =? 0)%nat then default (s, []) (bootstrapDriverSessionStart s fid)
            else (s, []) in
          (s, bootstrapEffs
              ++ [EffRegisterFrame fid ((frameIdx =? 0)%nat || negb (String.eqb subID ""));
                  EffPersistSnapshot; EffBroadcastSessionsChanged]
              ++ (if replyConn =? 0 then []
                  else [okResp replyConn replyReq (BodyCreateSessionReply sid)]))
      end
  end.

Definition reduceSpawnFailed (s : State) (fid : FrameID) (err : string) (replyConn : ConnID)
    (replyReq : string) : State * list Effect :=
  let '(s, effs) := default (s, []) (evictFrame s fid false) in
  if replyConn =? 0 then (s, effs)
  else (s, effs ++ [errResp replyConn replyReq ErrCodeInternal
                      ("frame spawn failed: " +:+ err)]).

Definition reduceListSessions (s : State) (conn : ConnID) (req : string) : State * list Effect :=
  (s, [okResp conn req BodySessionsReply]).

Definition reduceSetHeadFrame (s : State) (conn : ConnID) (req : string) (p : SetHeadFrameParams)
    : State * list Effect :=
  let sid := SetHead_SessionID p in
  let fid := SetHead_FrameID p in
  match Sessions s !! sid with
  | None => (s, [errResp conn req ErrCodeNotFound "session not found"])
  | Some sess =>
      match findFrameIndex sess fid with
      | None => (s, [errResp conn req ErrCodeNotFound "frame not found"])
      | Some _ =>
          if String.eqb (Session_HeadFrameID sess) fid then (s, [okResp conn req BodyNil])
          else
            let sess := pushMRU sess (Session_HeadFrameID sess)
              <| Session_HeadFrameID := fid |> in
            (s <| Sessions := <[sid := sess]> (Sessions s) |>,
             [okResp conn req BodyNil; EffPersistSnapshot; EffBroadcastSessionsChanged])
      end
  end.

Definition reduceShutdown (s : State) (conn : ConnID) (req : string) : State * list Effect :=
  (s, [EffPersistSnapshot; EffSendResponseSync conn req BodyNil; EffReleaseFrameSandboxes]).

(** ** Driver events (reduce_event.go) *)

Definition reduceDriverHook (rng : nat) (s : State) (conn : ConnID) (req event : string)
    (timestamp : Time) (sender : FrameID) (payload : string) : result :=
  if String.eqb sender "" then
    (s, [errResp conn req ErrCodeInvalidArgument ("driver event requires sender_id: " +:+ event)],
     rng)
  else match findFrame s sender with
  | None => (s, [errResp conn req ErrCodeNotFound "unknown session"], rng)
  | Some _ =>
      match stepDriver s sender (DEvHook event timestamp sender payload) with
      | None => (s, [errResp conn req ErrCodeInternal "no driver for session"], rng)
      | Some (s, rawEffs) =>
          let '(s, effs, rng) := resolvePushDriverEffects rng s rawEffs in
          (s, effs ++ [EffPersistSnapshot; EffBroadcastSessionsChanged]
              ++ (if conn =? 0 then [] else [okResp conn req BodyNil]), rng)
      end
  end.

(** The frame's target id follows the one the subsystem reports. *)
Definition updateTarget (s : State) (sessID : SessionID) (sess : Session) (frameIdx : nat)
    (targetID : TargetID) : State :=
  let old := default ""%string (Frame_TargetID <$> Session_Frames sess !! frameIdx) in
  if negb (String.eqb targetID "") && negb (String.eqb targetID old) then
    s <| Sessions := <[sessID := sess <| Session_Frames :=
           alter (λ f, f <| Frame_TargetID := targetID |>) frameIdx (Session_Frames sess) |>]>
           (Sessions s) |>
  else s.

Definition reduceSubsystem (rng : nat) (s : State) (conn : ConnID) (req : string) (fid : FrameID)
    (source : SubsystemKind) (kind : SubsystemEventKind) (timestamp : Time)
    (payload : SubsystemPayload) : result :=
  if String.eqb fid "" then
    (s, [errResp conn req ErrCodeInvalidArgument "subsystem event requires frame_id"], rng)
  else match findFrame s fid with
  | None => (s, [errResp conn req ErrCodeNotFound "unknown session"], rng)
  | Some (sessID, sess, frameIdx) =>
      let s := updateTarget s sessID sess frameIdx (Sub_TargetID payload) in
      match stepDriver s fid (DEvSubsystem source kind timestamp payload) with
      | None => (s, [errResp conn req ErrCodeInternal "no driver for session"], rng)
      | Some (s, rawEffs) =>
          let '(s, effs, rng) := resolvePushDriverEffects rng s rawEffs in
          (s, effs ++ [EffPersistSnapshot; EffBroadcastSessionsChanged]
              ++ (if conn =? 0 then [] else [okResp conn req BodyNil]), rng)
      end
  end.

(** ** Jobs and watched files (reduce_job.go) *)

Definition reduceJobResult (s : State) (job : JobID) (result : JobResult) (err : option error)
    : State * list Effect :=
  match Jobs s !! job with
  | None => (s, [])
  | Some meta =>
      let s := s <| Jobs := delete job (Jobs s) |> in
      match stepDriver s (Job_FrameID meta) (DEvJobResult result err (Now s)) with
      | None => (s, [])
      | Some (s, effs) => (s, effs ++ [EffPersistSnapshot; EffBroadcastSessionsChanged])
      end
  end.

Definition reduceFileChanged (s : State) (fid : FrameID) (path : string) : State * list Effect :=
  match findFrame s fid with
  | None => (s, [])
  | Some _ =>
      match stepDriver s fid (DEvFileChanged path) with
      | None => (s, [])
      | Some (s, effs) =>
          (s, if (0 <? length effs)%nat
              then effs ++ [EffPersistSnapshot; EffBroadcastSessionsChanged] else effs)
      end
  end.

(** ** OSC sequences (reduce_osc.go) *)

Definition isPersist (eff : Effect) : bool :=
  match eff with EffPersistSnapshot => true | _ => false end.
Definition isBroadcast (eff : Effect) : bool :=
  match eff with EffBroadcastSessionsChanged => true | _ => false end.

Definition appendMissingSessionRefreshEffects (effs : list Effect) : list Effect :=
  let hasPersist := existsb isPersist effs in
  let hasBroadcast := existsb isBroadcast effs in
  let effs := if hasPersist then effs else effs ++ [EffPersistSnapshot] in
  if hasBroadcast then effs else effs ++ [EffBroadcastSessionsChanged].

Definition reduceFrameOsc (s : State) (fid : FrameID) (cmd : Z) (title body : string) (now : Time)
    : State * list Effect :=
  if (cmd =? 0) || (cmd =? 2) then
    if String.eqb title "" then (s, [])
    else match findFrame s fid with
    | None => (s, [])
    | Some _ =>
        let log := EffEventLogAppend fid ("[osc" +:+ pretty cmd +:+ "] " +:+ title) in
        let '(next, dEffs) := default (s, []) (stepDriver s fid (DEvFrameOsc cmd title "" now)) in
        (next, appendMissingSessionRefreshEffects (log :: dEffs))
    end
  else if String.eqb title "" && String.eqb body "" then (s, [])
  else match findFrame s fid with
  | None => (s, [])
  | Some (sessID, _, _) => (s, [EffRecordNotification sessID fid cmd title body])
  end.

Definition promptPhaseName (p : PromptPhase) : string :=
  if (p =? PromptPhaseStart)%Z then "start"
  else if (p =? PromptPhaseInput)%Z then "input"
  else if (p =? PromptPhaseCommand)%Z then "command"
  else if (p =? PromptPhaseComplete)%Z then "complete"
  else "none".

Definition promptEventLogLine (phase : PromptPhase) (exitCode : option Z) : string :=
  let name := promptPhaseName phase in
  match (phase =? PromptPhaseComplete)%Z, exitCode with
  | true, Some code => "[osc133] phase=" +:+ name +:+ " exit=" +:+ pretty code
  | _, _ => "[osc133] phase=" +:+ name
  end.

Definition reduceFramePrompt (s : State) (fid : FrameID) (phase : PromptPhase)
    (exitCode : option Z) (now : Time) : State * list Effect :=
  let s := s <| Now := now |> in
  match findFrame s fid with
  | None => (s, [])
  | Some _ =>
      let log := EffEventLogAppend fid (promptEventLogLine phase exitCode) in
      let '(next, dEffs) := default (s, []) (stepDriver s fid (DEvFramePrompt phase exitCode now)) in
      (next, appendMissingSessionRefreshEffects (log :: dEffs))
  end.

(** ** Connections (reduce_conn.go) *)

Definition reduceConnOpened (s : State) (conn : ConnID) : State * list Effect :=
  ((if NextConnID s <? conn then s <| NextConnID := conn |> else s), []).

Definition reduceConnClosed (s : State) (conn : ConnID) : State * list Effect :=
  let s' := match Subscribers s !! conn with
    | Some _ => s <| Subscribers := delete conn (Subscribers s) |>
    | None => s
    end in
  match SurfaceSubs s !! conn with
  | None => (s', [])
  | Some inner =>
      (s' <| SurfaceSubs := delete conn (SurfaceSubs s) |>,
       (λ sid, EffSurfaceSubscribeStop conn sid) <$> elements inner)
  end.

Definition reduceSubscribe (s : State) (conn : ConnID) (req : string) (filters : list string)
    : State * list Effect :=
  (s <| Subscribers := <[conn := mkSubscriber conn filters]> (Subscribers s) |>,
   [okResp conn req BodyNil; EffBroadcastSessionsChanged]).

Definition reduceUnsubscribe (s : State) (conn : ConnID) (req : string) : State * list Effect :=
  (match Subscribers s !! conn with
   | Some _ => s <| Subscribers := delete conn (Subscribers s) |>
   | None => s
   end, [okResp conn req BodyNil]).

(** ** Surfaces (reduce_surface.go) *)

Definition noSession (conn : ConnID) (req : string) (sid : SessionID) : Effect :=
  EffSendError conn req ErrCodeNotFound ("session not found: " +:+ sid) ∅.

Definition reduceSurfaceReadText (s : State) (conn : ConnID) (req : string) (sid : SessionID)
    (lines : Z) : State * list Effect :=
  match Sessions s !! sid with
  | None => (s, [noSession conn req sid])
  | Some _ =>
      let lines := if lines <=? 0 then 30 else lines in
      (s, [EffSendResponseSync conn req (BodySurfaceReadTextReply sid lines)])
  end.

Definition reduceSurfaceSendText (s : State) (conn : ConnID) (req : string) (sid : SessionID)
    (text : string) : State * list Effect :=
  match Sessions s !! sid with
  | None => (s, [noSession conn req sid])
  | Some _ => (s, [EffSendFrameKeys conn req sid text "" true])
  end.

Definition reduceSurfaceSendKey (s : State) (conn : ConnID) (req : string) (sid : SessionID)
    (key : string) : State * list Effect :=
  match Sessions s !! sid with
  | None => (s, [noSession conn req sid])
  | Some _ => (s, [EffSendFrameKeys conn req sid "" key false])
  end.

Definition reduceDriverList (s : State) (conn : ConnID) (req : string) : State * list Effect :=
  (s, [EffSendResponseSync conn req BodyDriverListReply]).

Definition surfaceSubCap : nat := 8.

Definition reduceSurfaceSubscribe (s : State) (conn : ConnID) (req : string) (sid : SessionID)
    : State * list Effect :=
  match Sessions s !! sid with
  | None => (s, [errResp conn req ErrCodeNotFound ("session not found: " +:+ sid)])
  | Some sess =>
      match headFrame sess with
      | None => (s, [errResp conn req ErrCodeFrameNotReady ("frame-not-ready: " +:+ sid)])
      | Some _ =>
          let existing := default ∅ (SurfaceSubs s !! conn) in
          let already := bool_decide (sid ∈ existing) in
          if negb already && (surfaceSubCap <=? size existing)%nat then
            (s, [errResp conn req ErrCodeResourceExhausted
                   "per-conn surface subscribe cap (8) exceeded"])
          else if already then (s, [okResp conn req BodyNil])
          else
            (s <| SurfaceSubs := <[conn := {[sid]} ∪ existing]> (SurfaceSubs s) |>,
             [EffSurfaceSubscribeStart conn sid; okResp conn req BodyNil])
      end
  end.

Definition reduceSurfaceUnsubscribe (s : State) (conn : ConnID) (req : string) (sid : SessionID)
    : State * list Effect :=
  let existing := default ∅ (SurfaceSubs s !! conn) in
  if negb (bool_decide (sid ∈ existing)) then (s, [okResp conn req BodyNil])
  else
    let inner := existing ∖ {[sid]} in
    (s <| SurfaceSubs := if (size inner =? 0)%nat then delete conn (SurfaceSubs s)
                         else <[conn := inner]> (SurfaceSubs s) |>,
     [EffSurfaceSubscribeStop conn sid; okResp conn req BodyNil]).

Definition reduceSurfaceResize (s : State) (conn : ConnID) (req : string) (sid : SessionID)
    (cols rows : Z) : State * list Effect :=
  match Sessions s !! sid with
  | None => (s, [errResp conn req ErrCodeNotFound ("session not found: " +:+ sid)])
  | Some _ => (s, [EffSurfaceResize sid cols rows; okResp conn req BodyNil])
  end.

Definition reduceSurfaceWriteRaw (s : State) (conn : ConnID) (req : string) (sid : SessionID)
    (data : string) : State * list Effect :=
  match Sessions s !! sid with
  | None => (s, [errResp conn req ErrCodeNotFound ("session not found: " +:+ sid)])
  | Some _ => (s, [EffSurfaceWriteRaw sid data; okResp conn req BodyNil])
  end.

(** ** Tick and frame exits (reduce_tick.go) *)

Definition tickEvent (now : Time) (n seq : Z) (sess : Session) (watched : bool) : DriverEvent :=
  DEvTick now watched (default ""%string (Frame_Project <$> rootFrame sess)) n seq.

Definition reduceTick (s : State) (now : Time) (n : Z) : State * list Effect :=
  let s := s <| Now := now |> in
  let st := stepActiveSessions (λ seq _ sess watched, tickEvent now n seq sess watched) s in
  let effs := st_effs st ++ (if n mod 5 =? 0 then [EffReconcileWindows] else []) in
  (st_state st,
   effs ++ (if st_changed st then [EffPersistSnapshot; EffBroadcastSessionsChanged] else [])).

Definition reduceFrameVanished (s : State) (fid : FrameID) : State * list Effect :=
  default (s, []) (evictFrame s fid false).

Definition isIntentionalExit (code : Z) : bool :=
  (code =? 0) || (code =? 129) || (code =? 130) || (code =? 137) || (code =? 143).

Definition reduceFrameCommandExited (s : State) (fid : FrameID) (exitCode : Z)
    : State * list Effect :=
  match findFrame s fid with
  | None => (s, [])
  | Some (_, sess, idx) =>
      if isIntentionalExit exitCode then default (s, []) (evictFrame s fid true)
      else match Session_Frames sess !! idx with
      | None => (s, [])
      | Some frame =>
          let stopped := match GetDriver reg (Frame_Command frame), Frame_Driver frame with
            | Some drv, Some _ => Driver_Status drv (Frame_Driver frame) =? StatusStopped
            | _, _ => false
            end in
          if stopped then (s, [])
          else
            let '(next, rawEffs) :=
              default (s, []) (stepDriver s fid (DEvCommandExited exitCode (Now s))) in
            (next, rawEffs ++ [EffReleaseFrameSandbox fid])
      end
  end.

(** ** Registered events (event_dispatch.go) *)

(** The handler [RegisterEvent] installs: decode the payload, if any. *)
Definition RegisterEvent {A} (zero : A) (unmarshal : string -> A + error)
    (handler : nat -> State -> ConnID -> string -> A -> result)
    (rng : nat) (s : State) (conn : ConnID) (req payload : string) : result :=
  if String.eqb payload "" then handler rng s conn req zero
  else match unmarshal payload with
  | inr err => (s, [errResp conn req ErrCodeInvalidArgument ("invalid payload: " +:+ err)], rng)
  | inl p => handler rng s conn req p
  end.

(** A handler that allocates no ids. *)
Definition pureHandler {A} (h : State -> ConnID -> string -> A -> State * list Effect)
    (rng : nat) (s : State) (conn : ConnID) (req : string) (p : A) : result :=
  let '(s, effs) := h s conn req p in (s, effs, rng).

Definition eventHandlers (name : string)
    : option (nat -> State -> ConnID -> string -> string -> result) :=
  if String.eqb name EventCreateSession then
    Some (RegisterEvent (mkCreateSessionParams "" "" 0 zeroLaunchOptions) (unmarshalCreate json)
            reduceCreateSession)
  else if String.eqb name EventPushDriver then
    Some (RegisterEvent (mkPushDriverParams "" "" "" zeroLaunchOptions "") (unmarshalPush json)
            reducePushDriver)
  else if String.eqb name EventForkSession then
    Some (RegisterEvent (mkForkSessionParams "") (unmarshalFork json) reduceForkSession)
  else if String.eqb name EventStopSession then
    Some (RegisterEvent (mkStopSessionParams "") (unmarshalStop json)
            (pureHandler reduceStopSession))
  else if String.eqb name EventListSessions then
    Some (RegisterEvent tt (unmarshalUnit json)
            (pureHandler (λ s conn req _, reduceListSessions s conn req)))
  else if String.eqb name EventShutdown then
    Some (RegisterEvent tt (unmarshalUnit json)
            (pureHandler (λ s conn req _, reduceShutdown s conn req)))
  else if String.eqb name EventSetHeadFrame then
    Some (RegisterEvent (mkSetHeadFrameParams "" "") (unmarshalSetHead json)
            (pureHandler reduceSetHeadFrame))
  else None.

Definition IsRegisteredEvent (name : string) : bool := is_some (eventHandlers name).

(** Calling the nil handler of an unregistered event panics. *)
Definition reduceEvent (rng : nat) (s : State) (conn : ConnID) (req event payload : string)
    : option result :=
  match eventHandlers event with
  | Some fn => Some (fn rng s conn req payload)
  | None => None
  end.

(** ** Reduce (reduce.go) *)

Definition Reduce (rng : nat) (s : State) (ev : Event) : option result :=
  let pure (r : State * list Effect) : option result := Some (r.1, r.2, rng) in
  match ev with
  | EvEvent conn req event payload => reduceEvent rng s conn req event payload
  | EvDriverEvent conn req event ts sender payload =>
      Some (reduceDriverHook rng s conn req event ts sender payload)
  | EvSubsystem conn req fid source kind ts payload =>
      Some (reduceSubsystem rng s conn req fid source kind ts payload)
  | EvFrameSpawned sid fid sub dir name conn req =>
      pure (reduceFrameSpawned s sid fid sub dir name conn req)
  | EvSpawnFailed _ fid err conn req => pure (reduceSpawnFailed s fid err conn req)
  | EvFrameVanished fid => pure (reduceFrameVanished s fid)
  | EvFrameCommandExited fid code => pure (reduceFrameCommandExited s fid code)
  | EvTick now n => pure (reduceTick s now n)
  | EvJobResult job res err => pure (reduceJobResult s job res err)
  | EvFileChanged fid path => pure (reduceFileChanged s fid path)
  | EvFrameOsc fid cmd title body now => pure (reduceFrameOsc s fid cmd title body now)
  | EvFramePrompt fid phase code now => pure (reduceFramePrompt s fid phase code now)
  | EvConnOpened conn => pure (reduceConnOpened s conn)
  | EvConnClosed conn => pure (reduceConnClosed s conn)
  | EvCmdSubscribe conn req filters => pure (reduceSubscribe s conn req filters)
  | EvCmdUnsubscribe conn req => pure (reduceUnsubscribe s conn req)
  | EvCmdSurfaceReadText conn req sid lines => pure (reduceSurfaceReadText s conn req sid lines)
  | EvCmdSurfaceSendText conn req sid text => pure (reduceSurfaceSendText s conn req sid text)
  | EvCmdSurfaceSendKey conn req sid key => pure (reduceSurfaceSendKey s conn req sid key)
  | EvCmdDriverList conn req => pure (reduceDriverList s conn req)
  | EvCmdSurfaceSubscribe conn req sid => pure (reduceSurfaceSubscribe s conn req sid)
  | EvCmdSurfaceUnsubscribe conn req sid => pure (reduceSurfaceUnsubscribe s conn req sid)
  | EvCmdSurfaceResize conn req sid cols rows => pure (reduceSurfaceResize s conn req sid cols rows)
  | EvCmdSurfaceWriteRaw conn req sid data => pure (reduceSurfaceWriteRaw s conn req sid data)
  end.

End reduce.
