(* ===== verification/ClientInv.v ===== *)
(** * client/state: well-formed states

    The invariant speaks of the shape of the session graph: which frames each
    session has, which is its head, and the fallback stack.  Drivers never
    change the shape, and the shape operations below mirror the reducer's. *)

From S2P Require Import Prelude GoStd ClientView ClientState ClientReduce.
Open Scope Z_scope.

(** ** Shapes *)

Record Shape := mkShape {
  sh_id : string;
  sh_frames : list string;
  sh_head : string;
  sh_mru : list string;
}.

Record wf_shape (sid : string) (sh : Shape) : Prop := {
  wfs_id : sh_id sh = sid;
  wfs_nonempty : sh_frames sh ≠ [];
  wfs_nodup : NoDup (sh_frames sh);
  wfs_head : sh_head sh ∈ sh_frames sh;
  wfs_mru : (length (sh_mru sh) <= 16)%nat;
  wfs_named : ""%string ∉ sh_frames sh;
}.

(** Every session is well formed and a frame belongs to one session. *)
Record wf_shapes (m : gmap string Shape) : Prop := {
  wfm_shape sid sh : m !! sid = Some sh -> wf_shape sid sh;
  wfm_unique sid1 sh1 sid2 sh2 fid :
    m !! sid1 = Some sh1 -> m !! sid2 = Some sh2 ->
    fid ∈ sh_frames sh1 -> fid ∈ sh_frames sh2 -> sid1 = sid2;
}.

Definition has_frame (m : gmap string Shape) (fid : string) : Prop :=
  ∃ sid sh, m !! sid = Some sh /\ fid ∈ sh_frames sh.

Lemma wf_shapes_insert m sid sh :
  wf_shapes m -> wf_shape sid sh ->
  (∀ sid' sh' fid, m !! sid' = Some sh' -> fid ∈ sh_frames sh' -> fid ∈ sh_frames sh -> sid' = sid) ->
  wf_shapes (<[sid := sh]> m).
Proof.
  intros [Hs Hu] Hsh Hd. split.
  - intros sid' sh'. rewrite lookup_insert_Some. intros [[<- <-]|[_ ?]]; auto.
  - intros sid1 sh1 sid2 sh2 fid. rewrite !lookup_insert_Some.
    intros [[<- <-]|[? ?]] [[<- <-]|[? ?]] ? ?; eauto. symmetry. eauto.
Qed.

Lemma wf_shapes_delete m sid : wf_shapes m -> wf_shapes (delete sid m).
Proof.
  intros [Hs Hu]. split.
  - intros ? ? [_ ?]%lookup_delete_Some. auto.
  - intros ? ? ? ? ? [_ ?]%lookup_delete_Some [_ ?]%lookup_delete_Some. eauto.
Qed.

(** *** Shape operations *)

Definition sh_push_mru (sh : Shape) : list string :=
  if String.eqb (sh_head sh) "" then sh_mru sh
  else take 16 (sh_head sh :: List.filter (λ id, negb (String.eqb id (sh_head sh))) (sh_mru sh)).

Definition sh_set_head (fid : string) (sh : Shape) : Shape :=
  mkShape (sh_id sh) (sh_frames sh) fid (sh_push_mru sh).

Definition sh_push (fid : string) (sh : Shape) : Shape :=
  mkShape (sh_id sh) (sh_frames sh ++ [fid]) fid (sh_push_mru sh).

(** The first surviving MRU entry and those after it. *)
Fixpoint sh_first_existing (frames mru : list string) : option (string * list string) :=
  match mru with
  | [] => None
  | id :: rest => if bool_decide (id ∈ frames) then Some (id, rest)
                  else sh_first_existing frames rest
  end.

Definition sh_remove (idx : nat) (fid : string) (sh : Shape) : Shape :=
  let frames := take idx (sh_frames sh) ++ drop (S idx) (sh_frames sh) in
  if String.eqb (sh_head sh) fid then
    match sh_first_existing frames (sh_mru sh) with
    | Some (id, rest) =>
        mkShape (sh_id sh) frames
          (if String.eqb id "" then default ""%string (head frames) else id) rest
    | None => mkShape (sh_id sh) frames (default ""%string (head frames)) []
    end
  else mkShape (sh_id sh) frames (sh_head sh) (sh_mru sh).

Lemma sh_push_mru_length sh : (length (sh_mru sh) <= 16)%nat -> (length (sh_push_mru sh) <= 16)%nat.
Proof.
  intros. unfold sh_push_mru. destruct (String.eqb _ _); [done|]. rewrite length_take. lia.
Qed.

Lemma wf_sh_set_head sid sh fid :
  wf_shape sid sh -> fid ∈ sh_frames sh -> wf_shape sid (sh_set_head fid sh).
Proof. intros [] Hf. split; simpl; auto using sh_push_mru_length. Qed.

Lemma wf_sh_push sid sh fid :
  wf_shape sid sh -> fid ∉ sh_frames sh -> fid ≠ ""%string -> wf_shape sid (sh_push fid sh).
Proof.
  intros [] Hf Hn. split; simpl; auto using sh_push_mru_length.
  - intros E. by apply app_eq_nil in E as [_ ?].
  - apply NoDup_app. split; [done|]. split; [|apply NoDup_singleton]. set_solver.
  - set_solver.
  - set_solver.
Qed.

Lemma elem_of_sh_remove idx fid sh x :
  NoDup (sh_frames sh) -> sh_frames sh !! idx = Some fid ->
  x ∈ sh_frames (sh_remove idx fid sh) <-> x ∈ sh_frames sh /\ x ≠ fid.
Proof.
  intros Hnd Hi. assert (sh_frames (sh_remove idx fid sh)
    = take idx (sh_frames sh) ++ drop (S idx) (sh_frames sh)) as ->.
  { unfold sh_remove. by repeat case_match. }
  rewrite <- (take_drop_middle _ _ _ Hi) in Hnd at 1.
  rewrite <- (take_drop_middle _ _ _ Hi) at 3.
  apply NoDup_app in Hnd as (_ & Hd & [Hn _]%NoDup_cons).
  rewrite !elem_of_app, elem_of_cons. split; [|naive_solver].
  intros [H|H]; (split; [by auto|]); intros ->; [|done]. apply (Hd fid H). left.
Qed.

Lemma sh_first_existing_elem frames mru id rest :
  sh_first_existing frames mru = Some (id, rest) ->
  id ∈ frames /\ (length rest <= length mru)%nat.
Proof.
  induction mru as [|x mru IH]; simpl; [done|]. case_bool_decide.
  - intros [= <- <-]. split; [done|lia].
  - intros [? ?]%IH. split; [done|lia].
Qed.

Lemma head_default_elem (l : list string) : l ≠ [] -> default ""%string (head l) ∈ l.
Proof. destruct l; [done|]. left. Qed.

Lemma wf_sh_remove sid sh idx fid :
  wf_shape sid sh -> sh_frames sh !! S idx = Some fid -> wf_shape sid (sh_remove (S idx) fid sh).
Proof.
  intros [Hid Hne Hnd Hh Hm Hnm] Hi.
  set (frames := take (S idx) (sh_frames sh) ++ drop (S (S idx)) (sh_frames sh)).
  assert (frames ≠ []) as Hne'.
  { unfold frames. destruct (sh_frames sh); [done|]. simpl. done. }
  assert (NoDup frames) as Hnd'.
  { unfold frames. rewrite <- (take_drop_middle _ _ _ Hi) in Hnd.
    apply NoDup_app in Hnd as (? & Hd & [? ?]%NoDup_cons).
    apply NoDup_app. split; [done|]. split; [|done]. intros x Hx1 Hx2. apply (Hd x Hx1). by right. }
  assert (""%string ∉ frames) as Hnm'.
  { intros [H|H]%elem_of_app; apply Hnm;
      (eapply elem_of_sublist; [exact H|]); auto using sublist_take, sublist_drop. }
  unfold sh_remove. fold frames. destruct (String.eqb_spec (sh_head sh) fid) as [E|E].
  - destruct (sh_first_existing frames (sh_mru sh)) as [[id rest]|] eqn:Ef; split; simpl; auto.
    + apply sh_first_existing_elem in Ef as [? ?].
      destruct (String.eqb id ""); [by apply head_default_elem|done].
    + apply sh_first_existing_elem in Ef as [? ?]. lia.
    + by apply head_default_elem.
    + lia.
  - split; simpl; auto.
    assert (sh_head sh ∈ sh_frames (sh_remove (S idx) fid sh)) as H
      by (by apply elem_of_sh_remove).
    unfold sh_remove in H. fold frames in H. by destruct (String.eqb_spec (sh_head sh) fid).
Qed.

(** ** Shapes of a state *)

Section shapes.
Context `{T : ClientTypes}.

Definition frame_ids (sess : Session) : list string := Frame_ID <$> Session_Frames sess.

Definition shape (sess : Session) : Shape :=
  mkShape (Session_ID sess) (frame_ids sess) (Session_HeadFrameID sess)
    (Session_MRUFrameIDs sess).

Definition shapes (s : State) : gmap string Shape := shape <$> Sessions s.

Lemma shapes_lookup s sid sh :
  shapes s !! sid = Some sh <-> ∃ sess, Sessions s !! sid = Some sess /\ shape sess = sh.
Proof.
  unfold shapes. rewrite lookup_fmap_Some. naive_solver.
Qed.

(** *** The reducer's session operations on shapes *)

Lemma shape_pushMRU sess :
  Session_MRUFrameIDs (pushMRU sess (Session_HeadFrameID sess)) = sh_push_mru (shape sess) /\
  shape (pushMRU sess (Session_HeadFrameID sess))
  = mkShape (Session_ID sess) (frame_ids sess) (Session_HeadFrameID sess)
      (sh_push_mru (shape sess)).
Proof. unfold pushMRU, sh_push_mru. simpl. by destruct (String.eqb _ _). Qed.

Lemma existsb_frame_ids sess id :
  existsb (λ f, String.eqb (Frame_ID f) id) (Session_Frames sess) = bool_decide (id ∈ frame_ids sess).
Proof.
  unfold frame_ids. apply eq_bool_prop_intro. rewrite bool_decide_spec.
  rewrite Is_true_true, existsb_exists, list_elem_of_fmap. split.
  - intros (f & Hf & E). exists f. apply String.eqb_eq in E. by rewrite list_elem_of_In.
  - intros (f & -> & Hf). exists f. rewrite <- list_elem_of_In. by rewrite String.eqb_refl.
Qed.

Lemma firstExisting_shape sess mru :
  firstExisting (Session_Frames sess) mru = sh_first_existing (frame_ids sess) mru.
Proof.
  induction mru as [|id mru IH]; simpl; [done|]. rewrite existsb_frame_ids.
  case_bool_decide; auto.
Qed.

Lemma frame_ids_remove sess idx :
  frame_ids (removeFrameByIndex sess idx)
  = take idx (frame_ids sess) ++ drop (S idx) (frame_ids sess).
Proof. unfold frame_ids, removeFrameByIndex. simpl. by rewrite fmap_app, fmap_take, fmap_drop. Qed.

Lemma frameIndex_spec frames fid idx :
  NoDup (Frame_ID <$> frames) ->
  frameIndex frames fid = Some idx <-> (Frame_ID <$> frames) !! idx = Some fid.
Proof.
  revert idx. induction frames as [|f frames IH]; simpl; intros idx Hnd.
  { by rewrite lookup_nil. }
  apply NoDup_cons in Hnd as [Hn Hnd]. case (String.eqb_spec (Frame_ID f) fid); intros E.
  - split.
    + intros [= <-]. simpl. by f_equal.
    + destruct idx; [done|]. simpl. intros Hl. destruct Hn. rewrite E.
      by eapply list_elem_of_lookup_2.
  - rewrite fmap_Some. destruct idx as [|idx]; simpl.
    + split; [intros (? & _ & ?); done|congruence].
    + rewrite <- IH by done. naive_solver.
Qed.

Lemma frameIndex_None frames fid :
  frameIndex frames fid = None <-> fid ∉ (Frame_ID <$> frames).
Proof.
  induction frames as [|f frames IH]; simpl; [set_solver|].
  case (String.eqb_spec (Frame_ID f) fid); intros E; [set_solver|].
  rewrite fmap_None, IH. set_solver.
Qed.

Lemma frameIndex_elem frames fid idx :
  frameIndex frames fid = Some idx -> (Frame_ID <$> frames) !! idx = Some fid.
Proof.
  revert idx. induction frames as [|f frames IH]; simpl; intros idx; [done|].
  case (String.eqb_spec (Frame_ID f) fid); intros E.
  - intros [= <-]. simpl. by f_equal.
  - rewrite fmap_Some. intros (j & Hj & ->). simpl. auto.
Qed.

(** *** Searching for a frame *)

Lemma findFrameIn_Some l fid sid sess idx :
  findFrameIn l fid = Some (sid, sess, idx) ->
  (sid, sess) ∈ l /\ frame_ids sess !! idx = Some fid.
Proof.
  induction l as [|[sid' sess'] l IH]; simpl; [done|].
  unfold findFrameIndex. destruct (frameIndex _ fid) as [j|] eqn:E.
  - intros [= -> -> ->]. split; [left|]. by apply frameIndex_elem.
  - intros [? ?]%IH. split; [by right|done].
Qed.

Lemma findFrameIn_None l fid :
  findFrameIn l fid = None <-> ∀ sid sess, (sid, sess) ∈ l -> fid ∉ frame_ids sess.
Proof.
  induction l as [|[sid' sess'] l IH]; simpl; [set_solver|].
  unfold findFrameIndex. destruct (frameIndex _ fid) as [j|] eqn:E.
  - split; [done|]. intros H. apply frameIndex_elem in E. exfalso.
    apply (H sid' sess'); [left|]. by eapply list_elem_of_lookup_2.
  - apply frameIndex_None in E. rewrite IH. setoid_rewrite elem_of_cons. naive_solver.
Qed.

Lemma findFrame_Some s fid sid sess idx :
  findFrame s fid = Some (sid, sess, idx) ->
  Sessions s !! sid = Some sess /\ frame_ids sess !! idx = Some fid.
Proof. intros [H ?]%findFrameIn_Some. by rewrite elem_of_map_to_list in H. Qed.

Lemma findFrame_None s fid : findFrame s fid = None <-> ¬ has_frame (shapes s) fid.
Proof.
  unfold findFrame. rewrite findFrameIn_None. unfold has_frame.
  setoid_rewrite elem_of_map_to_list. setoid_rewrite shapes_lookup. split.
  - intros H (sid & sh & (sess & Hs & <-) & Hf). by eapply H.
  - intros H sid sess Hs Hf. apply H. exists sid, (shape sess). naive_solver.
Qed.

(** In a well-formed state the search finds the one session of the frame,
    whatever the iteration order of the map. *)
Lemma findFrame_unique s fid sid sess idx :
  wf_shapes (shapes s) ->
  Sessions s !! sid = Some sess -> frame_ids sess !! idx = Some fid ->
  findFrame s fid = Some (sid, sess, idx).
Proof.
  intros [Hs Hu] Hl Hi.
  assert (∀ sid0 sess0, Sessions s !! sid0 = Some sess0 -> shapes s !! sid0 = Some (shape sess0)) as Hsh
    by (intros; apply shapes_lookup; eauto).
  destruct (findFrame s fid) as [[[sid' sess'] idx']|] eqn:E.
  - apply findFrame_Some in E as [Hl' Hi'].
    assert (sid' = sid) as -> by (eapply Hu; [by apply Hsh|by apply Hsh| |];
      by eapply list_elem_of_lookup_2).
    simplify_eq. pose proof (wfs_nodup _ _ (Hs _ _ (Hsh _ _ Hl))) as Hnd.
    by rewrite (NoDup_lookup _ _ _ _ Hnd Hi Hi').
  - apply findFrame_None in E. destruct E. exists sid, (shape sess).
    split; [by apply Hsh|]. by eapply list_elem_of_lookup_2.
Qed.

Lemma findFrame_frame s fid sid sess idx :
  findFrame s fid = Some (sid, sess, idx) ->
  ∃ frame, Session_Frames sess !! idx = Some frame /\ Frame_ID frame = fid.
Proof.
  intros [_ Hi]%findFrame_Some. unfold frame_ids in Hi.
  apply list_lookup_fmap_Some in Hi. naive_solver.
Qed.
End shapes.
