(* ===== verification/ClientGraph.v ===== *)
(** * client/state: how the reducer changes the session graph

    Whatever the drivers do, an event changes the shape of the session graph
    only by creating a session, pushing a frame, moving the head, or evicting
    a frame or session; every such step keeps the graph well formed. *)

From S2P Require Import Prelude GoStd ClientView ClientState ClientReduce ClientInv.
Open Scope Z_scope.

(** ** Abstract steps *)

(** What the 24 hex digits from crypto/rand provide: no id is drawn twice, and
    none is empty. *)
Record supply_ok (idAt : nat -> string) : Prop := {
  supply_inj n m : idAt n = idAt m -> n = m;
  supply_named n : idAt n ≠ ""%string;
}.

Section graph.
Context (idAt : nat -> string).

(** A graph together with the number of ids drawn so far.  Steps that keep
    every frame: *)
Inductive grow_step : nat * gmap string Shape -> nat * gmap string Shape -> Prop :=
| G_draw rng rng' m : (rng <= rng')%nat -> grow_step (rng, m) (rng', m)
| G_create rng m :
    grow_step (rng, m)
      (S (S rng), <[idAt rng := mkShape (idAt rng) [idAt (S rng)] (idAt (S rng)) []]> m)
| G_push rng m sid sh :
    m !! sid = Some sh -> grow_step (rng, m) (S rng, <[sid := sh_push (idAt rng) sh]> m)
| G_set_head rng m sid sh fid :
    m !! sid = Some sh -> fid ∈ sh_frames sh ->
    grow_step (rng, m) (rng, <[sid := sh_set_head fid sh]> m).

Inductive graph_step : nat * gmap string Shape -> nat * gmap string Shape -> Prop :=
| G_grow c c' : grow_step c c' -> graph_step c c'
| G_evict_session rng m sid sh :
    m !! sid = Some sh -> graph_step (rng, m) (rng, delete sid m)
| G_evict_child rng m sid sh idx fid :
    m !! sid = Some sh -> sh_frames sh !! S idx = Some fid ->
    graph_step (rng, m) (rng, <[sid := sh_remove (S idx) fid sh]> m).

Record wf_graph (c : nat * gmap string Shape) : Prop := {
  wfg_shapes : wf_shapes c.2;
  wfg_fresh_sid n : (c.1 <= n)%nat -> c.2 !! idAt n = None;
  wfg_fresh_fid n : (c.1 <= n)%nat -> ¬ has_frame c.2 (idAt n);
}.

Lemma has_frame_insert m sid sh fid :
  has_frame (<[sid := sh]> m) fid -> fid ∈ sh_frames sh \/ has_frame m fid.
Proof.
  intros (sid' & sh' & H & Hf). apply lookup_insert_Some in H as [[_ <-]|[_ H]]; [by left|right].
  by exists sid', sh'.
Qed.

Lemma wf_graph_update rng rng' m sid sh sh' :
  wf_graph (rng, m) -> (rng <= rng')%nat -> m !! sid = Some sh -> wf_shape sid sh' ->
  (∀ fid, fid ∈ sh_frames sh' -> fid ∈ sh_frames sh \/ fid = idAt rng /\ rng' = S rng) ->
  supply_ok idAt ->
  wf_graph (rng', <[sid := sh']> m).
Proof.
  intros [Hwf Hsid Hfid] Hle Hl Hsh Hin Hinj. simpl in *. split; simpl.
  - apply wf_shapes_insert; [done|done|]. intros sid' s' fid Hl' Hf Hf'.
    destruct (Hin _ Hf') as [?|[-> _]]; [by eapply (wfm_unique _ Hwf)|].
    destruct (Hfid rng); [lia|]. by exists sid', s'.
  - intros n Hn. rewrite lookup_insert_None. split; [apply Hsid; lia|].
    intros ->. rewrite Hsid in Hl by lia. done.
  - intros n Hn [Hf|Hf]%has_frame_insert; [|by apply (Hfid n); [lia|]].
    destruct (Hin _ Hf) as [?|[E ->]].
    + apply (Hfid n); [lia|]. by exists sid, sh.
    + apply (supply_inj _ Hinj) in E. lia.
Qed.

Lemma grow_step_wf c c' : supply_ok idAt -> grow_step c c' -> wf_graph c -> wf_graph c'.
Proof.
  intros Hinj Hs Hwf. pose proof Hwf as [Hm Hsid Hfid]. simpl in *.
  destruct Hs as [rng rng' m Hle|rng m|rng m sid sh Hl|rng m sid sh fid Hl Hf]; simpl in *.
  - split; simpl; auto; intros; [apply Hsid|apply Hfid]; lia.
  - split; simpl.
    + apply wf_shapes_insert; [done| |].
      * split; simpl; [done|done|apply NoDup_singleton|left|lia|].
        intros E%list_elem_of_singleton. by eapply supply_named.
      * intros sid' sh' fid Hl Hf ->%list_elem_of_singleton.
        destruct (Hfid (S rng)); [lia|]. by exists sid', sh'.
    + intros n Hn. rewrite lookup_insert_None. split; [apply Hsid; lia|].
      intros E%(supply_inj _ Hinj). lia.
    + intros n Hn [Hf|Hf]%has_frame_insert; [|by apply (Hfid n); [lia|]].
      simpl in Hf. apply list_elem_of_singleton, (supply_inj _ Hinj) in Hf. lia.
  - eapply wf_graph_update; [exact Hwf|lia|exact Hl| | |done].
    + apply wf_sh_push; [by apply Hm| |by apply supply_named]. intros Hf. apply (Hfid rng); [lia|]. by exists sid, sh.
    + simpl. intros fid [?| ->%list_elem_of_singleton]%elem_of_app; auto.
  - eapply wf_graph_update; [exact Hwf|lia|exact Hl| |by left|done].
    apply wf_sh_set_head; [by apply Hm|done].
Qed.

Lemma graph_step_wf c c' : supply_ok idAt -> graph_step c c' -> wf_graph c -> wf_graph c'.
Proof.
  intros Hinj Hs Hwf. pose proof Hwf as [Hm Hsid Hfid]. simpl in *.
  destruct Hs as [c c' Hs|rng m sid sh Hl|rng m sid sh idx fid Hl Hi]; simpl in *.
  - by eapply grow_step_wf.
  - split; simpl.
    + by apply wf_shapes_delete.
    + intros n Hn. rewrite lookup_delete_None. auto.
    + intros n Hn (sid' & sh' & [_ ?]%lookup_delete_Some & ?). apply (Hfid n); [lia|].
      by exists sid', sh'.
  - eapply wf_graph_update; [exact Hwf|lia|exact Hl| | |done].
    + apply wf_sh_remove; [by apply Hm|done].
    + intros x Hx. left. apply elem_of_sh_remove in Hx as [? _]; [done| |done].
      by apply (wfs_nodup _ _ (wfm_shape _ Hm _ _ Hl)).
Qed.

(** Growth keeps every frame of a well-formed graph. *)
Lemma grow_step_frames c c' fid :
  wf_graph c -> grow_step c c' -> has_frame c.2 fid -> has_frame c'.2 fid.
Proof.
  intros [_ Hsid _] Hs (sid & sh & Hl & Hf).
  destruct Hs as [rng rng' m Hle|rng m|rng m sid' sh' Hl'|rng m sid' sh' fid' Hl' Hf']; simpl in *.
  - by exists sid, sh.
  - exists sid, sh. split; [|done]. rewrite lookup_insert_ne; [done|].
    intros <-. rewrite Hsid in Hl; [done|lia].
  - exists sid. destruct (decide (sid = sid')) as [->|].
    + exists (sh_push (idAt rng) sh'). rewrite lookup_insert_eq. split; [done|].
      simplify_eq. simpl. apply elem_of_app. by left.
    + exists sh. by rewrite lookup_insert_ne.
  - exists sid. destruct (decide (sid = sid')) as [->|].
    + exists (sh_set_head fid' sh'). rewrite lookup_insert_eq. split; [done|]. by simplify_eq.
    + exists sh. by rewrite lookup_insert_ne.
Qed.

Lemma grow_steps_frames c c' fid :
  supply_ok idAt -> wf_graph c -> rtc grow_step c c' -> has_frame c.2 fid -> has_frame c'.2 fid.
Proof.
  intros Hinj Hwf Hs. induction Hs as [|c c1 c' Hs _ IH]; [done|].
  intros Hf. eapply IH; [by eapply grow_step_wf|by eapply grow_step_frames].
Qed.

Lemma grow_graph_steps c c' : rtc grow_step c c' -> rtc graph_step c c'.
Proof. induction 1; [done|]. eapply rtc_l; [by apply G_grow|done]. Qed.

Lemma graph_steps_wf c c' : supply_ok idAt -> rtc graph_step c c' -> wf_graph c -> wf_graph c'.
Proof. intros Hinj. induction 1; eauto using graph_step_wf. Qed.

Lemma graph_steps_mono c c' : rtc graph_step c c' -> (c.1 <= c'.1)%nat.
Proof. induction 1 as [|c c1 c' Hs _ IH]; [done|].
  destruct Hs as [? ? []| |]; simpl in *; lia.
Qed.
End graph.

(** ** Operations that keep the graph *)

Section ops.
Context `{T : ClientTypes}.
Context (reg : Registry) (idAt : nat -> string) (json : Json).

(** The session graph and the surface subscriptions are unchanged. *)
Definition kept (s s' : State) : Prop :=
  shapes s' = shapes s /\ SurfaceSubs s' = SurfaceSubs s.

#[export] Instance kept_PreOrder : PreOrder kept.
Proof. split; [done|]. intros s1 s2 s3 [? ?] [? ?]. split; congruence. Qed.

Lemma kept_sessions s s' : Sessions s' = Sessions s -> SurfaceSubs s' = SurfaceSubs s -> kept s s'.
Proof. unfold kept, shapes. by intros -> ->. Qed.

Lemma shapes_insert s sid sess :
  shapes (s <| Sessions := <[sid := sess]> (Sessions s) |>) = <[sid := shape sess]> (shapes s).
Proof. unfold shapes. simpl. by rewrite fmap_insert. Qed.

Lemma shapes_delete s sid :
  shapes (s <| Sessions := delete sid (Sessions s) |>) = delete sid (shapes s).
Proof. unfold shapes. simpl. by rewrite fmap_delete. Qed.

(** Replacing the frames of a session by frames with the same ids. *)
Lemma kept_update_frames s sid sess frames :
  Sessions s !! sid = Some sess -> Frame_ID <$> frames = frame_ids sess ->
  kept s (s <| Sessions := <[sid := sess <| Session_Frames := frames |>]> (Sessions s) |>).
Proof.
  intros Hl E. split; [|done]. rewrite shapes_insert. apply insert_id.
  apply shapes_lookup. exists sess. split; [done|]. unfold shape. f_equal. by symmetry.
Qed.

Lemma kept_putFrame s sid sess idx frame frame' :
  Sessions s !! sid = Some sess -> Session_Frames sess !! idx = Some frame ->
  Frame_ID frame' = Frame_ID frame -> kept s (putFrame s sid sess idx frame').
Proof.
  intros Hl Hi E. unfold putFrame. apply kept_update_frames; [done|].
  rewrite list_fmap_insert, E. apply list_insert_id. unfold frame_ids.
  by rewrite list_lookup_fmap, Hi.
Qed.

Lemma kept_alter_frame s sid sess idx f :
  Sessions s !! sid = Some sess -> (∀ x, Frame_ID (f x) = Frame_ID x) ->
  kept s (s <| Sessions := <[sid := sess <| Session_Frames := alter f idx (Session_Frames sess) |>]>
            (Sessions s) |>).
Proof.
  intros Hl Hf. apply kept_update_frames; [done|]. unfold frame_ids.
  apply list_eq. intros i. rewrite !list_lookup_fmap.
  destruct (decide (i = idx)) as [->|].
  - rewrite list_lookup_alter_eq. destruct (Session_Frames sess !! idx); simpl; [by rewrite Hf|done].
  - by rewrite list_lookup_alter_ne.
Qed.

Lemma postProcessEffect_kept s sid fid eff :
  Sessions (postProcessEffect s sid fid eff).2 = Sessions s /\
  SurfaceSubs (postProcessEffect s sid fid eff).2 = SurfaceSubs s /\
  Now (postProcessEffect s sid fid eff).2 = Now s.
Proof. by destruct eff. Qed.

Lemma postProcessAll_frame sid fid effs : forall s,
  Sessions (postProcessAll s sid fid effs).1 = Sessions s /\
  SurfaceSubs (postProcessAll s sid fid effs).1 = SurfaceSubs s /\
  Now (postProcessAll s sid fid effs).1 = Now s.
Proof.
  induction effs as [|eff effs IH]; simpl; intros s; [done|].
  pose proof (postProcessEffect_kept s sid fid eff) as (E1 & E2 & E3).
  destruct (postProcessEffect s sid fid eff) as [p s1]. simpl in *.
  destruct (IH s1) as (E4 & E5 & E6). destruct (postProcessAll s1 sid fid effs) as [s2 out].
  simpl in *. split_and!; congruence.
Qed.

Lemma postProcessAll_kept s sid fid effs : kept s (postProcessAll s sid fid effs).1.
Proof. destruct (postProcessAll_frame sid fid effs s) as (? & ? & _). by apply kept_sessions. Qed.

Lemma stepDriver_kept s fid ev s' effs :
  stepDriver reg s fid ev = Some (s', effs) -> kept s s'.
Proof.
  unfold stepDriver. destruct (findFrame s fid) as [[[sid sess] idx]|] eqn:Ef; [|done].
  destruct (Session_Frames sess !! idx) as [frame|] eqn:Ei; [|done].
  destruct (GetDriver reg _) as [drv|]; [|done].
  destruct (Driver_Step drv _ _ _) as [[ds raw] v]. intros E%(inj Some).
  apply findFrame_Some in Ef as [Hl _].
  pose proof (kept_putFrame s sid sess idx frame (frame <| Frame_Driver := ds |>) Hl Ei eq_refl) as Hk.
  pose proof (postProcessAll_kept (putFrame s sid sess idx (frame <| Frame_Driver := ds |>)) sid fid raw) as Hp.
  rewrite E in Hp. etrans; [exact Hk|exact Hp].
Qed.

Lemma bootstrap_kept s fid s' effs :
  bootstrapDriverSessionStart reg s fid = Some (s', effs) -> kept s s'.
Proof.
  unfold bootstrapDriverSessionStart.
  destruct (findFrame s fid) as [[[sid sess] idx]|] eqn:Ef; [|done].
  destruct (negb _); [done|]. destruct (Session_Frames sess !! idx) as [frame|] eqn:Ei; [|done].
  destruct (GetDriver reg _) as [drv|]; [|done].
  destruct (Driver_BootstrapSessionStart drv) as [bs|]; [|done].
  destruct (bs _ _ _) as [ds raw]. intros E%(inj Some). apply findFrame_Some in Ef as [Hl _].
  pose proof (kept_putFrame s sid sess idx frame (frame <| Frame_Driver := ds |>) Hl Ei eq_refl) as Hk.
  pose proof (postProcessAll_kept (putFrame s sid sess idx (frame <| Frame_Driver := ds |>)) sid fid raw) as Hp.
  rewrite E in Hp. etrans; [exact Hk|exact Hp].
Qed.

Lemma stepDriver_default_kept s fid ev : kept s (default (s, []) (stepDriver reg s fid ev)).1.
Proof.
  destruct (stepDriver reg s fid ev) as [[s' effs]|] eqn:E; simpl; [|done].
  by eapply stepDriver_kept.
Qed.

Lemma stepSession_kept makeEv acc sid : kept (st_state acc) (st_state (stepSession reg makeEv acc sid)).
Proof.
  unfold stepSession. destruct (Sessions _ !! sid) as [sess|]; [|done].
  destruct (rootFrame sess) as [frame|]; [|done]. destruct (GetDriver reg _); [|done].
  destruct (stepDriver reg _ _ _) as [[s' effs]|] eqn:E; simpl; [|done].
  by eapply stepDriver_kept.
Qed.

Lemma stepActiveSessions_kept makeEv s : kept s (st_state (stepActiveSessions reg makeEv s)).
Proof.
  unfold stepActiveSessions. generalize (sort.Strings (map_to_list (Sessions s)).*1). intros l.
  assert (∀ acc, kept (st_state acc) (st_state (fold_left (stepSession reg makeEv) l acc))) as H.
  { induction l as [|sid l IH]; simpl; intros acc; [done|].
    etrans; [apply (stepSession_kept makeEv acc sid)|apply IH]. }
  apply (H (mkStepping s [] false 0)).
Qed.

Lemma updateTarget_kept s sid sess idx tid :
  Sessions s !! sid = Some sess -> kept s (updateTarget s sid sess idx tid).
Proof.
  intros Hl. unfold updateTarget. destruct (_ && _); [|done]. by apply kept_alter_frame.
Qed.

(** ** Operations that change the graph *)

Abbreviation grows := (rtc (grow_step idAt)).
Abbreviation gsteps := (rtc (graph_step idAt)).

Lemma grows_kept rng rng' s s' :
  (rng <= rng')%nat -> kept s s' -> grows (rng, shapes s) (rng', shapes s').
Proof. intros Hle [-> _]. apply rtc_once. by constructor. Qed.

Lemma shape_push sess frame fid :
  Frame_ID frame = fid ->
  shape (pushMRU sess (Session_HeadFrameID sess)
    <| Session_HeadFrameID := fid |> <| Session_Frames := Session_Frames sess ++ [frame] |>)
  = sh_push fid (shape sess).
Proof.
  intros <-. destruct (shape_pushMRU sess) as [E1 E2]. unfold shape, sh_push. simpl.
  rewrite E1. f_equal.
  - unfold pushMRU. by destruct (String.eqb _ _).
  - unfold frame_ids. simpl. by rewrite fmap_app.
Qed.

Lemma pushDriverInternal_steps rng s sid project cmd opts input conn req r rng' :
  pushDriverInternal reg idAt rng s sid project cmd opts input conn req = (r, rng') ->
  (rng <= rng')%nat /\
  match r with
  | inl (s', effs) => grows (rng, shapes s) (rng', shapes s') /\ SurfaceSubs s' = SurfaceSubs s
  | inr _ => True
  end.
Proof.
  unfold pushDriverInternal, allocFrameID, allocSessionID.
  destruct (Sessions s !! sid) as [sess|] eqn:Hl; [|intros [= <- <-]; auto].
  destruct (GetDriver reg _) as [drv|]; [|intros [= <- <-]; auto].
  destruct (prepareSessionDriver _ _ _ _ _ _) as [[ds cl]|err]; [|intros [= <- <-]; auto].
  destruct (Driver_PrepareLaunch drv _ _ _ _ _ _) as [launch|err]; [|intros [= <- <-]; auto].
  intros [<- <-]%pair_equal_spec. split; [lia|]. split; [|done].
  apply rtc_once. rewrite shapes_insert.
  erewrite shape_push by reflexivity. apply G_push. apply shapes_lookup. eauto.
Qed.

Lemma reducePushDriver_steps rng s conn req p :
  let '(s', _, rng') := reducePushDriver reg idAt rng s conn req p in
  grows (rng, shapes s) (rng', shapes s') /\ SurfaceSubs s' = SurfaceSubs s.
Proof.
  unfold reducePushDriver. destruct (String.eqb _ ""); [split; [by constructor|done]|].
  destruct (Sessions s !! _) eqn:Hl; [|split; [by constructor|done]].
  destruct (pushDriverInternal _ _ _ _ _ _ _ _ _ _ _) as [[[s' effs]|err] rng'] eqn:E;
    apply pushDriverInternal_steps in E as [Hle H]; [done|].
  split; [|done]. by apply grows_kept.
Qed.

Lemma resolvePushDriverEffects_steps raw : forall rng s,
  let '(s', _, rng') := resolvePushDriverEffects reg idAt rng s raw in
  grows (rng, shapes s) (rng', shapes s') /\ SurfaceSubs s' = SurfaceSubs s.
Proof.
  induction raw as [|eff raw IH]; intros rng s; [split; [by constructor|done]|].
  assert (let '(s', _, rng') :=
    let '(s, effs, rng) := resolvePushDriverEffects reg idAt rng s raw in (s, eff :: effs, rng) in
    grows (rng, shapes s) (rng', shapes s') /\ SurfaceSubs s' = SurfaceSubs s) as Hpass.
  { specialize (IH rng s). by destruct (resolvePushDriverEffects reg idAt rng s raw) as [[? ?] ?]. }
  destruct eff; try exact Hpass. clear Hpass. simpl.
  destruct (pushDriverInternal _ _ _ _ _ _ _ _ _ _ _) as [[[s1 effs]|err] rng1] eqn:E;
    apply pushDriverInternal_steps in E as [Hle H].
  - specialize (IH rng1 s1). destruct (resolvePushDriverEffects reg idAt rng1 s1 raw) as [[s2 ?] rng2].
    destruct IH as [IH1 IH2], H as [H1 H2]. split; [by etrans|congruence].
  - specialize (IH rng1 s). destruct (resolvePushDriverEffects reg idAt rng1 s raw) as [[s2 ?] rng2].
    destruct IH as [IH1 IH2]. split; [|done]. etrans; [by apply (grows_kept rng rng1 s s)|done].
Qed.

Lemma reduceCreateSession_steps rng s conn req p :
  let '(s', _, rng') := reduceCreateSession reg idAt rng s conn req p in
  grows (rng, shapes s) (rng', shapes s') /\ SurfaceSubs s' = SurfaceSubs s.
Proof.
  assert (∀ n, grows (rng, shapes s) ((n + rng)%nat, shapes s)) as Hd
    by (intros; apply grows_kept; [lia|done]).
  unfold reduceCreateSession, allocFrameID, allocSessionID.
  destruct (String.eqb _ ""); [split; [by constructor|done]|].
  destruct (GetDriver reg _) as [drv|]; [|split; [apply (Hd 1%nat)|done]].
  destruct (prepareSessionDriver _ _ _ _ _ _) as [[ds cl]|err]; [|split; [apply (Hd 1%nat)|done]].
  destruct (Driver_PrepareLaunch drv _ _ _ _ _ _) as [launch|err]; [|split; [apply (Hd 2%nat)|done]].
  split; [|done]. rewrite shapes_insert. apply rtc_once, G_create.
Qed.

Lemma reduceForkSession_steps rng s conn req p :
  let '(s', _, rng') := reduceForkSession reg idAt rng s conn req p in
  grows (rng, shapes s) (rng', shapes s') /\ SurfaceSubs s' = SurfaceSubs s.
Proof.
  unfold reduceForkSession. destruct (String.eqb _ ""); [split; [by constructor|done]|].
  destruct (Sessions s !! _) as [sess|]; [|split; [by constructor|done]].
  destruct (rootFrame sess) as [rootF|]; [|split; [by constructor|done]].
  destruct (resolveForkDrv _ _ _ _ _) as [[[[rd fk] fd] fc]|err]; [|split; [by constructor|done]].
  unfold buildForkSession, spawnForkSession, allocFrameID, allocSessionID.
  destruct (Driver_PrepareLaunch fd _ _ _ _ _ _) as [launch|err].
  - split; [|done]. rewrite shapes_insert. apply rtc_once, G_create.
  - split; [|done]. apply grows_kept; [lia|done].
Qed.

Lemma reduceSetHeadFrame_steps rng s conn req p :
  let '(s', _) := reduceSetHeadFrame s conn req p in
  grows (rng, shapes s) (rng, shapes s') /\ SurfaceSubs s' = SurfaceSubs s.
Proof.
  unfold reduceSetHeadFrame. destruct (Sessions s !! _) as [sess|] eqn:Hl; [|split; [by constructor|done]].
  destruct (findFrameIndex sess _) as [idx|] eqn:Hi; [|split; [by constructor|done]].
  destruct (String.eqb _ _); [split; [by constructor|done]|]. split; [|done].
  rewrite shapes_insert. apply rtc_once.
  assert (shape (pushMRU sess (Session_HeadFrameID sess)
    <| Session_HeadFrameID := SetHead_FrameID p |>) = sh_set_head (SetHead_FrameID p) (shape sess)) as ->.
  { destruct (shape_pushMRU sess) as [E1 E2]. unfold shape, sh_set_head. simpl. rewrite E1.
    f_equal; unfold pushMRU, frame_ids; by destruct (String.eqb _ _). }
  apply G_set_head; [apply shapes_lookup; eauto|].
  apply frameIndex_elem in Hi. by eapply list_elem_of_lookup_2.
Qed.

(** The session [evictChildFrame] stores. *)
Definition evictedSession (sess : Session) (idx : nat) (fid : string) : Session :=
  let wasActive := String.eqb (Session_HeadFrameID sess) fid in
  let sess := removeFrameByIndex sess idx in
  if wasActive then
    let '(fallback, sess) := popMRU sess in
    let fallback := if String.eqb fallback ""
      then default ""%string (Frame_ID <$> head (Session_Frames sess)) else fallback in
    sess <| Session_HeadFrameID := fallback |>
  else sess.

Lemma evictChildFrame_eq s sid sess idx fid kill :
  (evictChildFrame s sid sess idx fid kill).1
  = s <| Sessions := <[sid := evictedSession sess idx fid]> (Sessions s) |>.
Proof. unfold evictChildFrame, evictedSession. by destruct (String.eqb _ _). Qed.

Lemma shape_evicted sess idx fid :
  shape (evictedSession sess idx fid) = sh_remove idx fid (shape sess).
Proof.
  unfold evictedSession, sh_remove. simpl. rewrite <- frame_ids_remove.
  destruct (String.eqb (Session_HeadFrameID sess) fid); [|done].
  unfold popMRU. rewrite firstExisting_shape.
  change (Session_MRUFrameIDs (removeFrameByIndex sess idx)) with (Session_MRUFrameIDs sess).
  assert (∀ mru, default ""%string (Frame_ID <$> head (Session_Frames
    (removeFrameByIndex sess idx <| Session_MRUFrameIDs := mru |>)))
    = default ""%string (head (frame_ids (removeFrameByIndex sess idx)))) as Hh.
  { intros mru. unfold frame_ids. simpl. by destruct (take _ _ ++ drop _ _). }
  destruct (sh_first_existing _ _) as [[id rest]|].
  - rewrite Hh. unfold shape. simpl. destruct (String.eqb id ""); done.
  - rewrite Hh. done.
Qed.

(** A session or a child frame leaves the graph, and the effects tear down
    every frame that leaves with it. *)
Inductive evicts (s s' : State) (effs : list Effect) (kill : bool) : Prop :=
| Evict_session sid sess :
    Sessions s !! sid = Some sess -> s' = s <| Sessions := delete sid (Sessions s) |> ->
    (∀ fid, fid ∈ frame_ids sess -> frameTeardownEffects fid kill ⊆ effs) ->
    evicts s s' effs kill
| Evict_child sid sess idx fid :
    Sessions s !! sid = Some sess -> frame_ids sess !! S idx = Some fid ->
    s' = s <| Sessions := <[sid := evictedSession sess (S idx) fid]> (Sessions s) |> ->
    frameTeardownEffects fid kill ⊆ effs -> evicts s s' effs kill.

Lemma evicts_steps rng s s' effs kill :
  evicts s s' effs kill ->
  gsteps (rng, shapes s) (rng, shapes s') /\ SurfaceSubs s' = SurfaceSubs s.
Proof.
  intros [sid sess Hl -> _|sid sess idx fid Hl Hi -> _]; (split; [|done]); apply rtc_once.
  - rewrite shapes_delete. eapply G_evict_session. apply shapes_lookup. eauto.
  - rewrite shapes_insert, shape_evicted. apply G_evict_child; [apply shapes_lookup; eauto|done].
Qed.

Lemma evicts_app s s' effs effs' kill : evicts s s' effs kill -> evicts s s' (effs ++ effs') kill.
Proof.
  intros [sid sess Hl E H|sid sess idx fid Hl Hi E H].
  - eapply Evict_session; [done|done|]. intros fid Hf x Hx. apply elem_of_app. left. by apply (H fid).
  - eapply Evict_child; [done..|]. intros x Hx. apply elem_of_app. left. by apply H.
Qed.

Lemma bind_teardown sess fid kill (l1 l2 : list Effect) :
  fid ∈ frame_ids sess ->
  frameTeardownEffects fid kill
  ⊆ l1 ++ (truncateFrames sess 0 ≫= λ frame, frameTeardownEffects (Frame_ID frame) kill) ++ l2.
Proof.
  intros (f & -> & Hf)%list_elem_of_fmap x Hx. rewrite !elem_of_app. right. left.
  apply list_elem_of_bind. exists f. split; [done|]. unfold truncateFrames. by rewrite drop_0.
Qed.

Lemma reduceStopSession_evicts s conn req p :
  let '(s', effs) := reduceStopSession s conn req p in s' = s \/ evicts s s' effs true.
Proof.
  unfold reduceStopSession. destruct (Sessions s !! _) as [sess|] eqn:Hl; [|by left]. right.
  eapply Evict_session; [done|done|]. intros fid Hf. by apply (bind_teardown sess fid true [_]).
Qed.

Lemma evictFrame_evicts s fid kill s' effs :
  evictFrame s fid kill = Some (s', effs) -> evicts s s' effs kill.
Proof.
  unfold evictFrame. destruct (findFrame s fid) as [[[sid sess] idx]|] eqn:Ef; [|done].
  pose proof Ef as (frame & Hfr & Hid)%findFrame_frame. apply findFrame_Some in Ef as [Hl Hi].
  destruct idx as [|idx]; simpl.
  - intros [<- <-]%(inj Some)%pair_equal_spec. eapply Evict_session; [done|done|].
    intros fid' Hf. by apply (bind_teardown sess fid' kill []).
  - intros E%(inj Some). pose proof (f_equal fst E) as E1. pose proof (f_equal snd E) as E2.
    cbn [snd] in E2. rewrite evictChildFrame_eq in E1. eapply Evict_child; [done|done|by symmetry|].
    rewrite <- E2. unfold evictChildFrame. destruct (String.eqb _ _); cbn [snd];
      rewrite Hfr; simpl; rewrite Hid; intros x Hx; apply elem_of_app; by left.
Qed.

Lemma evictFrame_default_evicts s fid kill :
  let r := default (s, []) (evictFrame s fid kill) in r.1 = s \/ evicts s r.1 r.2 kill.
Proof.
  destruct (evictFrame s fid kill) as [[s' effs]|] eqn:E; simpl; [|by left]. right.
  by eapply evictFrame_evicts.
Qed.

Lemma reduceFrameSpawned_kept s sid fid sub dir name conn req :
  kept s (reduceFrameSpawned reg s sid fid sub dir name conn req).1.
Proof.
  unfold reduceFrameSpawned. destruct (Sessions s !! sid) as [sess|] eqn:Hl; [|done].
  destruct (findFrameIndex sess fid) as [idx|]; [|done].
  assert (kept s (recordSubsystem s sid sess idx sub).1) as H1.
  { unfold recordSubsystem. destruct (_ && _); [|done]. by apply kept_alter_frame. }
  destruct (recordSubsystem s sid sess idx sub) as [s1 subID]. simpl in H1.
  assert (kept s1 (resolveWorktree reg s1 fid dir name)) as H2.
  { unfold resolveWorktree. destruct (String.eqb dir ""); [done|].
    destruct (stepDriver reg s1 fid _) as [[? ?]|] eqn:E; [by eapply stepDriver_kept|done]. }
  set (s2 := resolveWorktree reg s1 fid dir name) in *.
  assert (kept s2 (if (idx =? 0)%nat then default (s2, []) (bootstrapDriverSessionStart reg s2 fid)
    else (s2, [])).1) as H3.
  { destruct (idx =? 0)%nat; [|done].
    destruct (bootstrapDriverSessionStart reg s2 fid) as [[? ?]|] eqn:E; [by eapply bootstrap_kept|done]. }
  cbv zeta. destruct (if (idx =? 0)%nat then _ else _) as [s3 effs].
  etrans; [exact H1|]. etrans; [exact H2|exact H3].
Qed.

Lemma reduceDriverHook_steps rng s conn req event ts sender payload :
  let '(s', _, rng') := reduceDriverHook reg idAt rng s conn req event ts sender payload in
  grows (rng, shapes s) (rng', shapes s') /\ SurfaceSubs s' = SurfaceSubs s.
Proof.
  unfold reduceDriverHook. destruct (String.eqb _ _); [split; [by constructor|done]|].
  destruct (findFrame s sender); [|split; [by constructor|done]].
  destruct (stepDriver reg s sender _) as [[s1 raw]|] eqn:E; [|split; [by constructor|done]].
  apply stepDriver_kept in E as [E1 E2]. pose proof (resolvePushDriverEffects_steps raw rng s1) as H.
  destruct (resolvePushDriverEffects reg idAt rng s1 raw) as [[s2 effs] rng2].
  rewrite E1 in H. destruct H. split; [done|congruence].
Qed.

Lemma reduceSubsystem_steps rng s conn req fid source kind ts payload :
  let '(s', _, rng') := reduceSubsystem reg idAt rng s conn req fid source kind ts payload in
  grows (rng, shapes s) (rng', shapes s') /\ SurfaceSubs s' = SurfaceSubs s.
Proof.
  unfold reduceSubsystem. destruct (String.eqb _ _); [split; [by constructor|done]|].
  destruct (findFrame s fid) as [[[sid sess] idx]|] eqn:Ef; [|split; [by constructor|done]].
  apply findFrame_Some in Ef as [Hl _].
  destruct (updateTarget_kept s sid sess idx (Sub_TargetID payload) Hl) as [K1 K2].
  destruct (stepDriver reg _ fid _) as [[s1 raw]|] eqn:E.
  - apply stepDriver_kept in E as [E1 E2]. pose proof (resolvePushDriverEffects_steps raw rng s1) as H.
    destruct (resolvePushDriverEffects reg idAt rng s1 raw) as [[s2 effs] rng2].
    rewrite E1, K1 in H. destruct H. split; [done|congruence].
  - rewrite K1. split; [by constructor|done].
Qed.

Lemma reduceJobResult_kept s job res err : kept s (reduceJobResult reg s job res err).1.
Proof.
  unfold reduceJobResult. destruct (Jobs s !! job); [|done].
  destruct (stepDriver reg _ _ _) as [[s1 effs]|] eqn:E; [|by apply kept_sessions].
  apply stepDriver_kept in E. etrans; [|exact E]. by apply kept_sessions.
Qed.

Lemma reduceFileChanged_kept s fid path : kept s (reduceFileChanged reg s fid path).1.
Proof.
  unfold reduceFileChanged. destruct (findFrame s fid); [|done].
  destruct (stepDriver reg _ _ _) as [[s1 effs]|] eqn:E; [|done]. by apply stepDriver_kept in E.
Qed.

Lemma reduceFrameOsc_kept s fid cmd title body now :
  kept s (reduceFrameOsc reg s fid cmd title body now).1.
Proof.
  unfold reduceFrameOsc. destruct (_ || _).
  - destruct (String.eqb _ _); [done|]. destruct (findFrame s fid); [|done].
    pose proof (stepDriver_default_kept s fid (DEvFrameOsc cmd title "" now)) as H.
    by destruct (default _ _).
  - destruct (_ && _); [done|]. by destruct (findFrame s fid) as [[[? ?] ?]|].
Qed.

Lemma reduceFramePrompt_kept s fid phase code now :
  kept s (reduceFramePrompt reg s fid phase code now).1.
Proof.
  unfold reduceFramePrompt. destruct (findFrame _ fid); [|by apply kept_sessions].
  pose proof (stepDriver_default_kept (s <| Now := now |>) fid (DEvFramePrompt phase code now)) as H.
  destruct (default _ _) as [s1 effs]. etrans; [|exact H]. by apply kept_sessions.
Qed.

Lemma reduceTick_kept s now n : kept s (reduceTick reg s now n).1.
Proof.
  unfold reduceTick. cbn [fst]. etrans; [|apply stepActiveSessions_kept]. by apply kept_sessions.
Qed.

Lemma reduceFrameCommandExited_evicts s fid code :
  let r := reduceFrameCommandExited reg s fid code in kept s r.1 \/ evicts s r.1 r.2 true.
Proof.
  unfold reduceFrameCommandExited.
  destruct (findFrame s fid) as [[[sid sess] idx]|]; [|by left].
  destruct (isIntentionalExit code).
  { destruct (evictFrame_default_evicts s fid true) as [E|?]; [left|by right]. by rewrite E. }
  left. destruct (Session_Frames sess !! idx); [|done].
  match goal with |- context [if ?b then (s, []) else _] => destruct b end; [done|].
  pose proof (stepDriver_default_kept s fid (DEvCommandExited code (Now s))) as H.
  by destruct (default _ _) as [s1 effs].
Qed.

(** ** Every event *)

(** Events that change subscriptions leave the graph alone. *)
Definition surface_event (ev : Event) : bool :=
  match ev with
  | EvCmdSurfaceSubscribe _ _ _ | EvCmdSurfaceUnsubscribe _ _ _ | EvConnClosed _ => true
  | _ => false
  end.

(** Evictions on other events kill the frame's window. *)
Definition window_gone (ev : Event) : bool :=
  match ev with
  | EvFrameVanished _ | EvSpawnFailed _ _ _ _ _ => true
  | _ => false
  end.

(** The graph grows, or one eviction happens. *)
Definition outcome (rng : nat) (s s' : State) (effs : list Effect) (rng' : nat) (kill : bool) : Prop :=
  (grows (rng, shapes s) (rng', shapes s') /\ SurfaceSubs s' = SurfaceSubs s) \/
  (rng' = rng /\ evicts s s' effs kill).

Lemma outcome_kept rng s s' effs kill : kept s s' -> outcome rng s s' effs rng kill.
Proof. intros [E1 E2]. left. rewrite E1. split; [by constructor|done]. Qed.

Lemma RegisterEvent_outcome {A} (zero : A) unm h rng s conn req payload :
  (∀ p, let '(s', effs, rng') := h rng s conn req p in outcome rng s s' effs rng' true) ->
  let '(s', effs, rng') := RegisterEvent zero unm h rng s conn req payload in
  outcome rng s s' effs rng' true.
Proof.
  intros Hh. unfold RegisterEvent. destruct (String.eqb payload ""); [apply Hh|].
  destruct (unm payload); [apply Hh|by apply outcome_kept].
Qed.

Lemma reduceEvent_outcome rng s conn req event payload s' effs rng' :
  reduceEvent reg idAt json rng s conn req event payload = Some (s', effs, rng') ->
  outcome rng s s' effs rng' true.
Proof.
  intros E. assert (∀ fn, eventHandlers reg idAt json event = Some fn ->
    let '(s', effs, rng') := fn rng s conn req payload in outcome rng s s' effs rng' true) as H.
  { intros fn. unfold eventHandlers.
    repeat (destruct (String.eqb event _); [intros [= <-]; apply RegisterEvent_outcome; intros p|]).
    - pose proof (reduceCreateSession_steps rng s conn req p) as H.
      destruct (reduceCreateSession _ _ _ _ _ _ _) as [[? ?] ?]. by left.
    - pose proof (reducePushDriver_steps rng s conn req p) as H.
      destruct (reducePushDriver _ _ _ _ _ _ _) as [[? ?] ?]. by left.
    - pose proof (reduceForkSession_steps rng s conn req p) as H.
      destruct (reduceForkSession _ _ _ _ _ _ _) as [[? ?] ?]. by left.
    - unfold pureHandler. pose proof (reduceStopSession_evicts s conn req p) as H.
      destruct (reduceStopSession s conn req p). destruct H as [->|?]; [by apply outcome_kept|by right].
    - by apply outcome_kept.
    - by apply outcome_kept.
    - unfold pureHandler. pose proof (reduceSetHeadFrame_steps rng s conn req p) as H.
      destruct (reduceSetHeadFrame s conn req p). by left.
    - done. }
  unfold reduceEvent in E. destruct (eventHandlers reg idAt json event) as [fn|]; [|done].
  specialize (H fn eq_refl). injection E as E. by rewrite E in H.
Qed.

Lemma surface_event_shapes rng s ev s' effs rng' :
  surface_event ev = true -> Reduce reg idAt json rng s ev = Some (s', effs, rng') ->
  rng' = rng /\ shapes s' = shapes s.
Proof.
  destruct ev; try done; intros _; cbn [Reduce]; intros [= <- _ <-]; (split; [done|]).
  - unfold reduceSurfaceSubscribe. repeat case_match; done.
  - unfold reduceSurfaceUnsubscribe. repeat case_match; done.
  - unfold reduceConnClosed. repeat case_match; done.
Qed.

Lemma Reduce_outcome rng s ev s' effs rng' :
  surface_event ev = false -> Reduce reg idAt json rng s ev = Some (s', effs, rng') ->
  outcome rng s s' effs rng' (negb (window_gone ev)).
Proof.
  intros Hev. assert (∀ r : State * list Effect, kept s r.1 ->
    Some (r.1, r.2, rng) = Some (s', effs, rng') ->
    outcome rng s s' effs rng' (negb (window_gone ev))) as Hkept.
  { intros r Hk [= <- _ <-]. by apply outcome_kept. }
  assert (∀ r : State * list Effect,
    kept s r.1 \/ evicts s r.1 r.2 (negb (window_gone ev)) ->
    Some (r.1, r.2, rng) = Some (s', effs, rng') ->
    outcome rng s s' effs rng' (negb (window_gone ev))) as Hpure.
  { intros r [Hk|Hk] [= <- <- <-]; [by apply outcome_kept|by right]. }
  destruct ev; try done; cbn [Reduce].
  - apply Hkept. by apply kept_sessions.
  - apply Hkept. unfold reduceUnsubscribe. cbn [fst]. by case_match; apply kept_sessions.
  - apply reduceEvent_outcome.
  - apply Hkept. unfold reduceSurfaceReadText. by case_match.
  - apply Hkept. unfold reduceSurfaceSendText. by case_match.
  - apply Hkept. unfold reduceSurfaceSendKey. by case_match.
  - apply Hkept. unfold reduceSurfaceResize. by case_match.
  - apply Hkept. unfold reduceSurfaceWriteRaw. by case_match.
  - by apply Hkept.
  - intros [= E]. pose proof (reduceDriverHook_steps rng s conn req event timestamp sender payload) as H.
    rewrite E in H. by left.
  - intros [= E].
    pose proof (reduceSubsystem_steps rng s conn req fid source kind timestamp payload) as H.
    rewrite E in H. by left.
  - apply Hkept. unfold reduceConnOpened. cbn [fst]. case_match; by apply kept_sessions.
  - apply Hkept, reduceTick_kept.
  - apply Hkept, reduceFileChanged_kept.
  - apply Hkept, reduceJobResult_kept.
  - apply Hpure. destruct (evictFrame_default_evicts s fid false) as [E|?]; [left|by right].
    unfold reduceFrameVanished. by rewrite E.
  - apply Hpure, reduceFrameCommandExited_evicts.
  - apply Hkept, reduceFrameSpawned_kept.
  - apply Hpure. unfold reduceSpawnFailed.
    pose proof (evictFrame_default_evicts s fid false) as H.
    destruct (default _ _) as [s1 effs1]. simpl in H.
    case_match; (destruct H as [->|?]; [by left|right; eauto using evicts_app]).
  - apply Hkept, reduceFrameOsc_kept.
  - apply Hkept, reduceFramePrompt_kept.
Qed.

Lemma Reduce_steps rng s ev s' effs rng' :
  Reduce reg idAt json rng s ev = Some (s', effs, rng') ->
  gsteps (rng, shapes s) (rng', shapes s') /\
  (surface_event ev = false -> SurfaceSubs s' = SurfaceSubs s).
Proof.
  intros E. destruct (surface_event ev) eqn:Hev.
  - destruct (surface_event_shapes _ _ _ _ _ _ Hev E) as [-> ->]. split; [by constructor|done].
  - destruct (Reduce_outcome _ _ _ _ _ _ Hev E) as [[H1 H2]|[-> H]].
    + split; [by apply grow_graph_steps|done].
    + destruct (evicts_steps rng _ _ _ _ H). auto.
Qed.

(** ** Surface subscriptions *)

(** Each connection with subscriptions has between one and eight. *)
Definition subs_ok (m : gmap Z (gset string)) : Prop :=
  ∀ conn inner, m !! conn = Some inner -> (1 <= size inner <= surfaceSubCap)%nat.

Lemma subs_ok_insert m conn inner :
  subs_ok m -> (1 <= size inner <= surfaceSubCap)%nat -> subs_ok (<[conn := inner]> m).
Proof. intros H Hi c i. rewrite lookup_insert_Some. intros [[_ <-]|[_ ?]]; eauto. Qed.

Lemma subs_ok_delete m conn : subs_ok m -> subs_ok (delete conn m).
Proof. intros H c i [_ ?]%lookup_delete_Some. eauto. Qed.

Lemma reduceSurfaceSubscribe_subs s conn req sid :
  subs_ok (SurfaceSubs s) -> subs_ok (SurfaceSubs (reduceSurfaceSubscribe s conn req sid).1).
Proof.
  intros H. unfold reduceSurfaceSubscribe. destruct (Sessions s !! sid); [|done].
  destruct (headFrame _); [|done]. case_bool_decide as Hin; [done|]. cbn [negb andb].
  case Nat.leb_spec; intros Hsz; [done|]. simpl. apply subs_ok_insert; [done|].
  rewrite size_union by set_solver. rewrite size_singleton. unfold surfaceSubCap in *. lia.
Qed.

Lemma reduceSurfaceUnsubscribe_subs s conn req sid :
  subs_ok (SurfaceSubs s) -> subs_ok (SurfaceSubs (reduceSurfaceUnsubscribe s conn req sid).1).
Proof.
  intros H. unfold reduceSurfaceUnsubscribe. case_bool_decide as Hin; [|done]. simpl.
  destruct (SurfaceSubs s !! conn) as [inner|] eqn:E; [|set_solver]. simpl in *.
  case Nat.eqb_spec; intros Hsz; [by apply subs_ok_delete|]. apply subs_ok_insert; [done|].
  pose proof (H _ _ E). assert (size (inner ∖ {[sid]}) <= size inner)%nat
    by (apply subseteq_size; set_solver). lia.
Qed.

Lemma Reduce_subs rng s ev s' effs rng' :
  Reduce reg idAt json rng s ev = Some (s', effs, rng') ->
  subs_ok (SurfaceSubs s) -> subs_ok (SurfaceSubs s').
Proof.
  intros E H. pose proof (Reduce_steps _ _ _ _ _ _ E) as [_ Hsubs].
  destruct (surface_event ev) eqn:Hev; [|by rewrite Hsubs].
  destruct ev; try done; cbn [Reduce] in E; injection E as <- _ _.
  - by apply reduceSurfaceSubscribe_subs.
  - by apply reduceSurfaceUnsubscribe_subs.
  - unfold reduceConnClosed. destruct (SurfaceSubs s !! conn) eqn:Es; [|by case_match].
    by apply subs_ok_delete.
Qed.
(** ** Runs *)

(** The event loop: events are reduced one after the other. *)
Fixpoint run (rng : nat) (s : State) (evs : list Event) : option (State * list Effect * nat) :=
  match evs with
  | [] => Some (s, [], rng)
  | ev :: rest =>
      '(s, effs, rng) ← Reduce reg idAt json rng s ev;
      '(s, effs', rng) ← run rng s rest;
      Some (s, effs ++ effs', rng)
  end.

Lemma run_cons rng s ev evs s' effs rng' :
  run rng s (ev :: evs) = Some (s', effs, rng') ->
  ∃ s1 effs1 rng1 effs2, Reduce reg idAt json rng s ev = Some (s1, effs1, rng1) /\
    run rng1 s1 evs = Some (s', effs2, rng') /\ effs = effs1 ++ effs2.
Proof.
  cbn [run]. destruct (Reduce reg idAt json rng s ev) as [[[s1 effs1] rng1]|]; [|done].
  cbn. destruct (run rng1 s1 evs) as [[[s2 effs2] rng2]|] eqn:E; [|done].
  intros H. simplify_eq/=. by exists s1, effs1, rng1, effs2.
Qed.

Lemma run_steps evs : forall rng s s' effs rng',
  run rng s evs = Some (s', effs, rng') ->
  gsteps (rng, shapes s) (rng', shapes s') /\
  (subs_ok (SurfaceSubs s) -> subs_ok (SurfaceSubs s')).
Proof.
  induction evs as [|ev evs IH]; intros rng s s' effs rng'; [intros [= <- _ <-]; split; [by constructor|done]|].
  intros (s1 & effs1 & rng1 & effs2 & E1 & E2 & _)%run_cons.
  destruct (IH _ _ _ _ _ E2) as [H1 H2]. destruct (Reduce_steps _ _ _ _ _ _ E1) as [H3 _].
  split; [by etrans|]. intros. by eapply H2, Reduce_subs.
Qed.

Lemma run_wf evs rng s s' effs rng' :
  supply_ok idAt -> wf_graph idAt (rng, shapes s) -> run rng s evs = Some (s', effs, rng') ->
  wf_graph idAt (rng', shapes s').
Proof. intros Hid Hwf [H _]%run_steps. by eapply graph_steps_wf. Qed.

Lemma wf_graph_New : wf_graph idAt (0%nat, shapes New).
Proof.
  unfold shapes. simpl. rewrite fmap_empty. split; simpl.
  - split; [intros ? ? H|intros ? ? ? ? ? H]; by rewrite lookup_empty in H.
  - intros. apply lookup_empty.
  - intros n _ (? & ? & H & _). by rewrite lookup_empty in H.
Qed.
End ops.
