(* ===== verification/ClientSteps.v ===== *)
(** * client/state: driver steps, jobs and ticks

    What a driver step may change ([stepDriver]): the state of one driver and
    the job table.  Jobs get consecutive fresh ids, and a tick steps the root
    driver of every session once, in the order of the session ids. *)

From S2P Require Import Prelude GoStd ClientView ClientState ClientReduce ClientInv ClientGraph.
Open Scope Z_scope.

Section steps.
Context `{T : ClientTypes}.
Context (reg : Registry).

(** ** Jobs *)

(** The ids of the jobs a list of effects starts. *)
Definition startedJobs (effs : list Effect) : list Z :=
  omap (λ eff, match eff with EffStartJob job _ => Some job | _ => None end) effs.

(** Job ids in use are those handed out so far. *)
Record jobs_ok (s : State) : Prop := {
  jobs_ok_next : 0 <= NextJobID s;
  jobs_ok_range job meta : Jobs s !! job = Some meta -> 1 <= job <= NextJobID s;
}.

(** The jobs [job1 .. job2] (exclusive of the first) are registered for a frame. *)
Definition jobs_added (s s' : State) (sid fid : string) : Prop :=
  ∀ job, Jobs s' !! job =
    if bool_decide (NextJobID s < job <= NextJobID s') then Some (mkJobMeta sid fid (Now s))
    else Jobs s !! job.

Lemma wrapu64_small z : 0 <= z < 2 ^ 64 -> wrapu64 z = z.
Proof. apply Z.mod_small. Qed.

Lemma jobs_added_refl s sid fid : jobs_added s s sid fid.
Proof. intros job. rewrite bool_decide_false by lia. done. Qed.

Lemma postProcessEffect_jobs s sid fid eff :
  0 <= NextJobID s -> NextJobID s + 1 < 2 ^ 64 ->
  let '(eff', s') := postProcessEffect s sid fid eff in
  jobs_added s s' sid fid /\
  startedJobs [eff'] = seqZ (NextJobID s + 1) (Z.of_nat (length (startedJobs [eff]))) /\
  NextJobID s' = NextJobID s + Z.of_nat (length (startedJobs [eff])).
Proof.
  intros H0 H1. destruct eff; simpl;
    try (split; [apply jobs_added_refl|split; [done|lia]]).
  rewrite wrapu64_small by lia. split_and!; [|done|done].
  intros j. simpl. case_bool_decide.
  - replace j with (NextJobID s + 1) by lia. by rewrite lookup_insert_eq.
  - by rewrite lookup_insert_ne by lia.
Qed.

Lemma startedJobs_cons eff effs : startedJobs (eff :: effs) = startedJobs [eff] ++ startedJobs effs.
Proof. unfold startedJobs. simpl. by destruct eff. Qed.

Lemma startedJobs_one eff : (length (startedJobs [eff]) <= 1)%nat.
Proof. destruct eff; cbv; lia. Qed.

Lemma startedJobs_length effs : (length (startedJobs effs) <= length effs)%nat.
Proof.
  induction effs as [|eff effs IH]; [done|]. rewrite startedJobs_cons, length_app.
  pose proof (startedJobs_one eff). cbn [length]. lia.
Qed.

Lemma postProcessAll_jobs sid fid raw : forall s,
  0 <= NextJobID s -> NextJobID s + Z.of_nat (length raw) < 2 ^ 64 ->
  let '(s', out) := postProcessAll s sid fid raw in
  jobs_added s s' sid fid /\
  startedJobs out = seqZ (NextJobID s + 1) (Z.of_nat (length (startedJobs raw))) /\
  NextJobID s' = NextJobID s + Z.of_nat (length (startedJobs raw)).
Proof.
  induction raw as [|eff raw IH]; intros s H0 H1.
  { simpl. split; [apply jobs_added_refl|split; [done|lia]]. }
  cbn [postProcessAll]. cbn [length] in H1.
  pose proof (postProcessEffect_jobs s sid fid eff ltac:(lia) ltac:(lia)) as HE.
  pose proof (postProcessEffect_kept s sid fid eff) as (_ & _ & Hnow).
  pose proof (startedJobs_one eff).
  destruct (postProcessEffect s sid fid eff) as [p s1]. destruct HE as (A1 & S1 & N1). simpl in Hnow.
  specialize (IH s1 ltac:(lia) ltac:(lia)).
  destruct (postProcessAll s1 sid fid raw) as [s2 out]. destruct IH as (A2 & S2 & N2).
  rewrite (startedJobs_cons eff raw), (startedJobs_cons p out), length_app. split_and!.
  - intros j. rewrite (A2 j), (A1 j), Hnow. repeat case_bool_decide; done || lia.
  - rewrite S1, S2, N1, Nat2Z.inj_add, seqZ_app by lia.
    f_equal. f_equal. lia.
  - lia.
Qed.

Lemma postProcessAll_length sid fid raw : forall s,
  length (postProcessAll s sid fid raw).2 = length raw.
Proof.
  induction raw as [|eff raw IH]; simpl; intros s; [done|].
  destruct (postProcessEffect s sid fid eff) as [p s1]. specialize (IH s1).
  destruct (postProcessAll s1 sid fid raw). simpl in *. by rewrite IH.
Qed.

(** ** One driver step *)

(** The driver state a step starts from. *)
Definition driverOf (drv : Driver) (now : Time) (frame : SessionFrame) : DriverState :=
  match Frame_Driver frame with
  | None => Driver_NewState drv now
  | ds => ds
  end.

(** The driver state after it. *)
Definition stepped (drv : Driver) (now : Time) (frame : SessionFrame) (isRoot : bool)
    (ev : DriverEvent) : DriverState :=
  (Driver_Step drv (driverOf drv now frame) (frameContext frame isRoot) ev).1.1.

Lemma stepDriver_eq s fid ev sid sess idx frame drv :
  findFrame s fid = Some (sid, sess, idx) -> Session_Frames sess !! idx = Some frame ->
  GetDriver reg (Frame_Command frame) = Some drv ->
  stepDriver reg s fid ev =
  Some (postProcessAll
    (putFrame s sid sess idx
       (frame <| Frame_Driver := stepped drv (Now s) frame (idx =? 0)%nat ev |>))
    sid fid
    (Driver_Step drv (driverOf drv (Now s) frame) (frameContext frame (idx =? 0)%nat) ev).1.2).
Proof.
  intros Ef Ei Ed. unfold stepDriver, stepped, driverOf. rewrite Ef, Ei, Ed.
  by destruct (Driver_Step _ _ _ _) as [[ds raw] v].
Qed.

Lemma stepDriver_inv s fid ev s' effs :
  stepDriver reg s fid ev = Some (s', effs) ->
  ∃ sid sess idx frame drv,
    findFrame s fid = Some (sid, sess, idx) /\ Session_Frames sess !! idx = Some frame /\
    Frame_ID frame = fid /\ GetDriver reg (Frame_Command frame) = Some drv.
Proof.
  unfold stepDriver. destruct (findFrame s fid) as [[[sid sess] idx]|] eqn:Ef; [|done].
  destruct (findFrame_frame _ _ _ _ _ Ef) as (frame & Hi & Hid). rewrite Hi.
  destruct (GetDriver reg _) as [drv|] eqn:Hd; [|done]. intros _.
  by exists sid, sess, idx, frame, drv.
Qed.

(** Fields no driver step touches. *)
Record same_rest (s s' : State) : Prop := {
  sr_subscribers : Subscribers s' = Subscribers s;
  sr_surface : SurfaceSubs s' = SurfaceSubs s;
  sr_conn : NextConnID s' = NextConnID s;
  sr_now : Now s' = Now s;
  sr_aliases : Aliases s' = Aliases s;
  sr_default : DefaultCommand s' = DefaultCommand s;
  sr_sandboxed : SandboxedProject s' = SandboxedProject s;
  sr_features : Features s' = Features s;
}.

Lemma same_rest_trans s1 s2 s3 : same_rest s1 s2 -> same_rest s2 s3 -> same_rest s1 s3.
Proof. intros [] []. split; congruence. Qed.

Lemma postProcessAll_rest sid fid raw : forall s,
  same_rest s (postProcessAll s sid fid raw).1 /\
  Sessions (postProcessAll s sid fid raw).1 = Sessions s.
Proof.
  induction raw as [|eff raw IH]; simpl; intros s; [done|].
  assert (same_rest s (postProcessEffect s sid fid eff).2 /\
    Sessions (postProcessEffect s sid fid eff).2 = Sessions s) as [H1 H2] by (by destruct eff).
  destruct (postProcessEffect s sid fid eff) as [p s1]. destruct (IH s1) as [H3 H4].
  destruct (postProcessAll s1 sid fid raw) as [s2 out]. simpl in *.
  split; [by eapply same_rest_trans|congruence].
Qed.

Lemma stepDriver_sessions s fid ev sid sess idx frame drv s' effs :
  stepDriver reg s fid ev = Some (s', effs) ->
  findFrame s fid = Some (sid, sess, idx) -> Session_Frames sess !! idx = Some frame ->
  GetDriver reg (Frame_Command frame) = Some drv ->
  same_rest s s' /\
  Sessions s' = <[sid := sess <| Session_Frames := <[idx :=
    frame <| Frame_Driver := stepped drv (Now s) frame (idx =? 0)%nat ev |>]>
    (Session_Frames sess) |>]> (Sessions s).
Proof.
  intros E Ef Ei Ed. rewrite (stepDriver_eq _ _ _ _ _ _ _ _ Ef Ei Ed) in E.
  apply (inj Some) in E. apply (f_equal fst) in E. simpl in E. rewrite <- E.
  destruct (postProcessAll_rest sid fid
    (Driver_Step drv (driverOf drv (Now s) frame) (frameContext frame (idx =? 0)%nat) ev).1.2
    (putFrame s sid sess idx
       (frame <| Frame_Driver := stepped drv (Now s) frame (idx =? 0)%nat ev |>))) as [H1 H2].
  split; [|exact H2]. by eapply same_rest_trans; [|exact H1].
Qed.

(** Started jobs are registered under consecutive fresh ids. *)
Lemma stepDriver_jobs s fid ev s' effs :
  stepDriver reg s fid ev = Some (s', effs) ->
  0 <= NextJobID s -> NextJobID s + Z.of_nat (length effs) < 2 ^ 64 ->
  ∃ sid sess idx, findFrame s fid = Some (sid, sess, idx) /\ jobs_added s s' sid fid /\
    startedJobs effs = seqZ (NextJobID s + 1) (Z.of_nat (length (startedJobs effs))) /\
    NextJobID s' = NextJobID s + Z.of_nat (length (startedJobs effs)).
Proof.
  intros E H0 H1. destruct (stepDriver_inv _ _ _ _ _ E) as (sid & sess & idx & frame & drv & Hf & Hi & _ & Hd).
  rewrite (stepDriver_eq _ _ _ _ _ _ _ _ Hf Hi Hd) in E. apply (inj Some) in E.
  set (raw := (Driver_Step _ _ _ _).1.2) in E.
  set (s0 := putFrame _ _ _ _ _) in E.
  assert (length raw = length effs) as Hlen by (by rewrite <- (postProcessAll_length sid fid raw s0), E).
  pose proof (postProcessAll_jobs sid fid raw s0 H0 ltac:(rewrite Hlen; exact H1)) as H.
  rewrite E in H. destruct H as (Ha & Hs & Hn).
  assert (length (startedJobs effs) = length (startedJobs raw)) as El.
  { rewrite Hs, length_seqZ. lia. }
  exists sid, sess, idx. rewrite El. split_and!; [done|exact Ha|exact Hs|exact Hn].
Qed.

Lemma jobs_ok_delete s job : jobs_ok s -> jobs_ok (s <| Jobs := delete job (Jobs s) |>).
Proof. intros [H0 H1]. split; [done|]. simpl. intros j meta [_ ?]%lookup_delete_Some. eauto. Qed.

(** A result is consumed: its job is no longer registered. *)
Lemma reduceJobResult_consumes s job result err s' effs :
  jobs_ok s -> reduceJobResult reg s job result err = (s', effs) ->
  NextJobID s + Z.of_nat (length effs) < 2 ^ 64 -> Jobs s' !! job = None.
Proof.
  intros Hok. unfold reduceJobResult. destruct (Jobs s !! job) as [meta|] eqn:Ej.
  2: { intros [<- _]%pair_equal_spec _. done. }
  pose proof (jobs_ok_range _ Hok _ _ Ej) as Hr. set (s0 := s <| Jobs := _ |>).
  destruct (stepDriver reg s0 _ _) as [[s1 effs1]|] eqn:E; intros [<- <-]%pair_equal_spec Hlen.
  - rewrite length_app in Hlen. simpl in Hlen.
    destruct (stepDriver_jobs _ _ _ _ _ E) as (sid & sess & idx & _ & Ha & _); [apply Hok|simpl; lia|].
    rewrite (Ha job), bool_decide_false by (simpl; lia). apply lookup_delete_eq.
  - apply lookup_delete_eq.
Qed.

(** The frame at a position of a session. *)
Definition frameAt (s : State) (sid : string) (idx : nat) : option SessionFrame :=
  Sessions s !! sid ≫= λ sess, Session_Frames sess !! idx.

(** A session without its frames. *)
Definition bare (sess : Session) : Session := sess <| Session_Frames := [] |>.

(** A step changes one driver state and the job table. *)
Lemma stepDriver_isolation s fid ev s' effs :
  stepDriver reg s fid ev = Some (s', effs) ->
  same_rest s s' /\ bare <$> Sessions s' = bare <$> Sessions s /\
  ∃ sid sess idx, findFrame s fid = Some (sid, sess, idx) /\
  ∀ sid' idx' frame, frameAt s sid' idx' = Some frame ->
  ∃ ds, frameAt s' sid' idx' = Some (frame <| Frame_Driver := ds |>) /\
    ((sid', idx') ≠ (sid, idx) -> ds = Frame_Driver frame).
Proof.
  intros E. destruct (stepDriver_inv _ _ _ _ _ E) as (sid & sess & idx & frame & drv & Hf & Hi & _ & Hd).
  destruct (stepDriver_sessions _ _ _ _ _ _ _ _ _ _ E Hf Hi Hd) as [Hr Hs].
  pose proof Hf as [Hl _]%findFrame_Some. split; [done|]. split.
  { rewrite Hs, fmap_insert. apply insert_id. by rewrite lookup_fmap, Hl. }
  exists sid, sess, idx. split; [done|]. intros sid' idx' frame'. unfold frameAt. rewrite Hs.
  destruct (decide (sid' = sid)) as [->|Hne].
  - rewrite Hl, lookup_insert_eq. simpl. intros Hfr. destruct (decide (idx' = idx)) as [->|Hni].
    + rewrite list_lookup_insert_eq by (by eapply lookup_lt_Some). simplify_eq.
      eexists. split; [reflexivity|]. intros []. done.
    + rewrite list_lookup_insert_ne by done. exists (Frame_Driver frame'). split; [|done].
      rewrite Hfr. by destruct frame'.
  - rewrite lookup_insert_ne by done. intros ->. exists (Frame_Driver frame'). split; [|done].
    by destruct frame'.
Qed.

(** ** Ticks *)

Definition hasDriver (s : State) (sid : string) : bool :=
  match Sessions s !! sid ≫= rootFrame with
  | Some frame => is_some (GetDriver reg (Frame_Command frame))
  | None => false
  end.

Lemma findFrame_root s sid sess f rest :
  wf_shapes (shapes s) -> Sessions s !! sid = Some sess -> Session_Frames sess = f :: rest ->
  findFrame s (Frame_ID f) = Some (sid, sess, 0%nat).
Proof.
  intros Hwf Hl Hf. apply findFrame_unique; [done|done|]. unfold frame_ids. by rewrite Hf.
Qed.

Lemma wf_frames s sid sess :
  wf_shapes (shapes s) -> Sessions s !! sid = Some sess ->
  ∃ f rest, Session_Frames sess = f :: rest.
Proof.
  intros Hwf Hl. assert (shapes s !! sid = Some (shape sess)) as Hs by (apply shapes_lookup; eauto).
  pose proof (wfs_nonempty _ _ (wfm_shape _ Hwf _ _ Hs)) as Hne. simpl in Hne. unfold frame_ids in Hne.
  destruct (Session_Frames sess); [done|eauto].
Qed.

Section tick.
Context (makeEv : Z -> string -> Session -> bool -> DriverEvent).

(** The session after its root driver has seen [ev]. *)
Definition tickedSession (drv : Driver) (now : Time) (sess : Session) (f : SessionFrame)
    (rest : list SessionFrame) (ev : DriverEvent) : Session :=
  sess <| Session_Frames := (f <| Frame_Driver := stepped drv now f true ev |>) :: rest |>.

(** One iteration of the loop, by whether the session's root has a driver. *)
Lemma stepSession_spec acc sid :
  wf_shapes (shapes (st_state acc)) ->
  let acc' := stepSession reg makeEv acc sid in
  same_rest (st_state acc) (st_state acc') /\
  if hasDriver (st_state acc) sid then
    ∃ sess f rest drv,
      Sessions (st_state acc) !! sid = Some sess /\ Session_Frames sess = f :: rest /\
      GetDriver reg (Frame_Command f) = Some drv /\
      st_calls acc' = wrapu64 (st_calls acc + 1) /\
      Sessions (st_state acc') = <[sid := tickedSession drv (Now (st_state acc)) sess f rest
        (makeEv (st_calls acc) sid sess (sessionWatched (st_state acc) sid))]>
        (Sessions (st_state acc))
  else acc' = acc.
Proof.
  intros Hwf. unfold stepSession, hasDriver. destruct (Sessions _ !! sid) as [sess|] eqn:Hl; [|done].
  destruct (wf_frames _ _ _ Hwf Hl) as (f & rest & Hf). simpl. unfold rootFrame. rewrite Hf.
  destruct (GetDriver reg (Frame_Command f)) as [drv|] eqn:Hd; [|done]. simpl.
  pose proof (findFrame_root _ _ _ _ _ Hwf Hl Hf) as Hff.
  set (ev := makeEv _ _ _ _).
  destruct (stepDriver reg _ _ ev) as [[s' effs]|] eqn:E.
  - edestruct stepDriver_sessions as [Hr Hs]; [exact E|exact Hff|by rewrite Hf|exact Hd|].
    split; [done|]. exists sess, f, rest, drv. simpl. split_and!; [done..|]. rewrite Hs, Hf. done.
  - exfalso. erewrite stepDriver_eq in E; [done|exact Hff|by rewrite Hf|exact Hd].
Qed.

Lemma stepSession_other acc sid sid' :
  wf_shapes (shapes (st_state acc)) -> sid' ≠ sid ->
  Sessions (st_state (stepSession reg makeEv acc sid)) !! sid' = Sessions (st_state acc) !! sid'.
Proof.
  intros Hwf Hne. destruct (stepSession_spec acc sid Hwf) as [_ H].
  destruct (hasDriver _ sid); [|by rewrite H].
  destruct H as (sess & f & rest & drv & _ & _ & _ & _ & ->). by rewrite lookup_insert_ne.
Qed.

Lemma sessionWatched_rest s s' sid : same_rest s s' -> sessionWatched s' sid = sessionWatched s sid.
Proof. intros H. unfold sessionWatched. by rewrite (sr_surface _ _ H). Qed.

Lemma stepSession_wf acc sid :
  wf_shapes (shapes (st_state acc)) ->
  wf_shapes (shapes (st_state (stepSession reg makeEv acc sid))).
Proof. by destruct (stepSession_kept reg makeEv acc sid) as [-> _]. Qed.

Lemma hasDriver_other acc sid sid' :
  wf_shapes (shapes (st_state acc)) -> sid' ≠ sid ->
  hasDriver (st_state (stepSession reg makeEv acc sid)) sid' = hasDriver (st_state acc) sid'.
Proof. intros. unfold hasDriver. by rewrite stepSession_other. Qed.

Lemma filter_hasDriver_step acc sid l :
  wf_shapes (shapes (st_state acc)) -> sid ∉ l ->
  List.filter (hasDriver (st_state (stepSession reg makeEv acc sid))) l
  = List.filter (hasDriver (st_state acc)) l.
Proof.
  intros Hwf Hni. apply filter_ext_in. intros x Hx%list_elem_of_In. apply hasDriver_other; [done|].
  by intros ->.
Qed.

(** The whole loop: a session outside the list is untouched. *)
Lemma steps_other l : forall acc sid',
  wf_shapes (shapes (st_state acc)) -> sid' ∉ l ->
  Sessions (st_state (fold_left (stepSession reg makeEv) l acc)) !! sid'
  = Sessions (st_state acc) !! sid'.
Proof.
  induction l as [|sid l IH]; simpl; intros acc sid' Hwf Hni; [done|].
  apply not_elem_of_cons in Hni as [? ?].
  rewrite IH, stepSession_other; auto using stepSession_wf.
Qed.

(** A session of the list with a driver is stepped once, and the number of
    calls before it is its position among the sessions with a driver. *)
Lemma steps_member l : forall acc sid sess f rest drv,
  wf_shapes (shapes (st_state acc)) -> NoDup l -> sid ∈ l ->
  0 <= st_calls acc -> st_calls acc + Z.of_nat (length l) < 2 ^ 64 ->
  Sessions (st_state acc) !! sid = Some sess -> Session_Frames sess = f :: rest ->
  GetDriver reg (Frame_Command f) = Some drv ->
  ∃ pos : nat,
    List.filter (hasDriver (st_state acc)) l !! pos = Some sid /\
    Sessions (st_state (fold_left (stepSession reg makeEv) l acc)) !! sid
    = Some (tickedSession drv (Now (st_state acc)) sess f rest
        (makeEv (st_calls acc + Z.of_nat pos) sid sess (sessionWatched (st_state acc) sid))).
Proof.
  induction l as [|x l IH]; intros acc sid sess f rest drv Hwf Hnd Hin Hc0 Hc1 Hl Hf Hd;
    [by apply elem_of_nil in Hin|].
  apply NoDup_cons in Hnd as [Hx Hnd]. simpl in Hc1.
  destruct (stepSession_spec acc x Hwf) as [Hr Hs]. simpl in Hs.
  assert (Hself : hasDriver (st_state acc) sid = true).
  { unfold hasDriver. rewrite Hl. simpl. unfold rootFrame. by rewrite Hf, Hd. }
  simpl. destruct (decide (sid = x)) as [->|Hne].
  - exists 0%nat. rewrite Hself in *. split; [done|].
    destruct Hs as (sess' & f' & rest' & drv' & Hl' & Hf' & Hd' & _ & Hs).
    rewrite steps_other by auto using stepSession_wf. rewrite Hs, lookup_insert_eq.
    rewrite Z.add_0_r. congruence.
  - apply elem_of_cons in Hin as [?|Hin]; [done|].
    assert (st_calls (stepSession reg makeEv acc x) = st_calls acc
      + (if hasDriver (st_state acc) x then 1 else 0)) as Hcalls.
    { destruct (hasDriver _ x); [|rewrite Hs; lia].
      destruct Hs as (? & ? & ? & ? & _ & _ & _ & -> & _). rewrite wrapu64_small; lia. }
    destruct (IH (stepSession reg makeEv acc x) sid sess f rest drv) as (pos & Hpos & HE);
      auto using stepSession_wf.
    + rewrite Hcalls. case_match; lia.
    + rewrite Hcalls. case_match; lia.
    + by rewrite stepSession_other.
    + rewrite filter_hasDriver_step in Hpos by done.
      rewrite Hcalls, (sr_now _ _ Hr), (sessionWatched_rest _ _ _ Hr) in HE.
      destruct (hasDriver (st_state acc) x).
      * exists (S pos). split; [done|]. rewrite HE. do 3 f_equal. lia.
      * exists pos. split; [done|]. rewrite HE. do 3 f_equal. lia.
Qed.
End tick.
End steps.

(** * client/state: replies and teardown

    Lemmas about the effects of an event: what answers a command or a driver
    event, and what is torn down with a frame. *)

Open Scope Z_scope.

Section outcome.
Context `{T : ClientTypes}.
Context (reg : Registry) (idAt : nat -> string) (json : Json).

(** ** Replies *)

(** The request an effect answers, or hands to the runtime to answer: the
    runtime replies to a spawn when it completes and to key input when it is
    sent. *)
Definition answers (eff : Effect) : option (Z * string) :=
  match eff with
  | EffSendResponse conn req _ | EffSendResponseSync conn req _
  | EffSendError conn req _ _ _ | EffSendFrameKeys conn req _ _ _ _
  | EffSpawnFrame _ _ _ _ _ _ _ _ _ _ _ _ conn req => Some (conn, req)
  | _ => None
  end.

Definition isError (eff : Effect) : bool :=
  match eff with EffSendError _ _ _ _ _ => true | _ => false end.

(** The commands of clients and the request they carry. *)
Definition command (ev : Event) : option (Z * string) :=
  match ev with
  | EvCmdSubscribe conn req _ | EvCmdUnsubscribe conn req | EvEvent conn req _ _
  | EvCmdSurfaceReadText conn req _ _ | EvCmdSurfaceSendText conn req _ _
  | EvCmdSurfaceSendKey conn req _ _ | EvCmdSurfaceSubscribe conn req _
  | EvCmdSurfaceUnsubscribe conn req _ | EvCmdSurfaceResize conn req _ _ _
  | EvCmdSurfaceWriteRaw conn req _ _ | EvCmdDriverList conn req => Some (conn, req)
  | _ => None
  end.

(** A single error and no change, or one answer that is not an error. *)
Definition replied (s : State) (conn : Z) (req : string) (s' : State) (effs : list Effect) : Prop :=
  (s' = s /\ ∃ code msg, effs = [errResp conn req code msg]) \/
  (omap answers effs = [(conn, req)] /\ existsb isError effs = false).

Lemma replied_error s conn req code msg : replied s conn req s [errResp conn req code msg].
Proof. left. eauto. Qed.

Lemma replied_ok s conn req s' effs :
  omap answers effs = [(conn, req)] -> existsb isError effs = false -> replied s conn req s' effs.
Proof. by right. Qed.

#[local] Hint Resolve replied_error : core.
#[local] Hint Extern 2 (replied _ _ _ _ _) => apply replied_ok; reflexivity : core.

Lemma reduceCreateSession_replied rng s conn req p :
  let '(s', effs, _) := reduceCreateSession reg idAt rng s conn req p in replied s conn req s' effs.
Proof.
  unfold reduceCreateSession, allocFrameID, allocSessionID.
  destruct (String.eqb _ ""); [auto|]. destruct (GetDriver reg _) as [drv|]; [|auto].
  destruct (prepareSessionDriver _ _ _ _ _ _) as [[ds cl]|err]; [|auto].
  destruct (Driver_PrepareLaunch drv _ _ _ _ _ _) as [launch|err]; auto.
Qed.

Lemma pushDriverInternal_effs rng s sid project cmd opts input conn req s' effs rng' :
  pushDriverInternal reg idAt rng s sid project cmd opts input conn req = (inl (s', effs), rng') ->
  ∃ fid plan, effs = [spawnEffect sid fid plan conn req].
Proof.
  unfold pushDriverInternal, allocFrameID, allocSessionID.
  destruct (Sessions s !! sid) as [sess|]; [|done]. destruct (GetDriver reg _) as [drv|]; [|done].
  destruct (prepareSessionDriver _ _ _ _ _ _) as [[ds cl]|err]; [|done].
  destruct (Driver_PrepareLaunch drv _ _ _ _ _ _) as [launch|err]; [|done].
  intros [E _]%pair_equal_spec. apply (inj inl) in E. apply pair_equal_spec in E as [_ <-]. eauto.
Qed.

Lemma reducePushDriver_replied rng s conn req p :
  let '(s', effs, _) := reducePushDriver reg idAt rng s conn req p in replied s conn req s' effs.
Proof.
  unfold reducePushDriver. destruct (String.eqb _ ""); [auto|].
  destruct (Sessions s !! _); [|auto].
  destruct (pushDriverInternal _ _ _ _ _ _ _ _ _ _ _) as [[[s' effs]|err] rng'] eqn:E; [|auto].
  apply pushDriverInternal_effs in E as (fid & plan & ->). auto.
Qed.

Lemma resolveForkDrv_error s conn req rootF eff :
  resolveForkDrv reg s conn req rootF = inr eff -> ∃ code msg, eff = errResp conn req code msg.
Proof.
  unfold resolveForkDrv. destruct (GetDriver reg _) as [rd|]; [|intros [= <-]; eauto].
  destruct (Driver_Forkable rd) as [fk|]; [|intros [= <-]; eauto].
  destruct (ForkCommand fk _ _) as [cmd ok]. destruct (negb ok); [intros [= <-]; eauto|].
  destruct (GetDriver reg _); [done|]. intros [= <-]; eauto.
Qed.

Lemma reduceForkSession_replied rng s conn req p :
  let '(s', effs, _) := reduceForkSession reg idAt rng s conn req p in replied s conn req s' effs.
Proof.
  unfold reduceForkSession. destruct (String.eqb _ ""); [auto|].
  destruct (Sessions s !! _) as [sess|]; [|auto]. destruct (rootFrame sess) as [rootF|]; [|auto].
  destruct (resolveForkDrv _ _ _ _ _) as [[[[rd fk] fd] fc]|err] eqn:E.
  - unfold buildForkSession, spawnForkSession, allocFrameID, allocSessionID.
    destruct (Driver_PrepareLaunch fd _ _ _ _ _ _); auto.
  - apply resolveForkDrv_error in E as (code & msg & ->). auto.
Qed.

(** Teardown effects answer nothing. *)
Lemma answers_teardown frames kill (l : list Effect) :
  omap answers ((frames ≫= λ frame, frameTeardownEffects (Frame_ID frame) kill) ++ l)
  = omap answers l /\
  existsb isError ((frames ≫= λ frame, frameTeardownEffects (Frame_ID frame) kill) ++ l)
  = existsb isError l.
Proof.
  induction frames as [|f frames IH]; [done|]. rewrite bind_cons, <- app_assoc.
  unfold frameTeardownEffects at 1 3. by destruct kill.
Qed.

Lemma reduceStopSession_replied s conn req p :
  let '(s', effs) := reduceStopSession s conn req p in replied s conn req s' effs.
Proof.
  unfold reduceStopSession. destruct (Sessions s !! _) as [sess|]; [|auto].
  destruct (answers_teardown (truncateFrames sess 0) true [okResp conn req BodyNil; EffPersistSnapshot])
    as [H1 H2].
  apply replied_ok; [exact H1|exact H2].
Qed.

Lemma reduceSetHeadFrame_replied s conn req p :
  let '(s', effs) := reduceSetHeadFrame s conn req p in replied s conn req s' effs.
Proof.
  unfold reduceSetHeadFrame. destruct (Sessions s !! _) as [sess|]; [|auto].
  destruct (findFrameIndex sess _); [|auto]. destruct (String.eqb _ _); auto.
Qed.

Lemma RegisterEvent_replied {A} (zero : A) unm h rng s conn req payload :
  (∀ p, let '(s', effs, _) := h rng s conn req p in replied s conn req s' effs) ->
  let '(s', effs, _) := RegisterEvent zero unm h rng s conn req payload in
  replied s conn req s' effs.
Proof.
  intros Hh. unfold RegisterEvent. destruct (String.eqb payload ""); [apply Hh|].
  destruct (unm payload); [apply Hh|auto].
Qed.

Lemma pureHandler_replied {A} (h : State -> Z -> string -> A -> State * list Effect) rng s conn req p :
  (let '(s', effs) := h s conn req p in replied s conn req s' effs) ->
  let '(s', effs, _) := pureHandler h rng s conn req p in replied s conn req s' effs.
Proof. unfold pureHandler. by destruct (h s conn req p). Qed.

Lemma eventHandlers_replied event fn rng s conn req payload :
  eventHandlers reg idAt json event = Some fn ->
  let '(s', effs, _) := fn rng s conn req payload in replied s conn req s' effs.
Proof.
  unfold eventHandlers.
  repeat (destruct (String.eqb event _); [intros [= <-]; apply RegisterEvent_replied; intros p|]).
  - apply reduceCreateSession_replied.
  - apply reducePushDriver_replied.
  - apply reduceForkSession_replied.
  - apply pureHandler_replied, reduceStopSession_replied.
  - apply pureHandler_replied. unfold reduceListSessions. auto.
  - apply pureHandler_replied. unfold reduceShutdown. auto.
  - apply pureHandler_replied, reduceSetHeadFrame_replied.
  - done.
Qed.

(** The events registered by the [init] functions. *)
Definition registeredEvents : list string :=
  [EventCreateSession; EventPushDriver; EventForkSession; EventStopSession;
   EventListSessions; EventShutdown; EventSetHeadFrame].

Lemma eventHandlers_None name : eventHandlers reg idAt json name = None <-> name ∉ registeredEvents.
Proof.
  unfold eventHandlers, registeredEvents.
  repeat match goal with
  | |- context [String.eqb name ?x] =>
      destruct (String.eqb_spec name x) as [->|]; [split; [done|intros []; set_solver]|]
  end.
  set_solver.
Qed.

Lemma Reduce_replied rng s ev conn req s' effs rng' :
  command ev = Some (conn, req) -> Reduce reg idAt json rng s ev = Some (s', effs, rng') ->
  replied s conn req s' effs.
Proof.
  assert (∀ r : State * list Effect, replied s conn req r.1 r.2 ->
    Some (r.1, r.2, rng) = Some (s', effs, rng') -> replied s conn req s' effs) as Hpure.
  { by intros r Hr [= <- <- _]. }
  destruct ev; try done; intros [= -> ->]; cbn [Reduce]; try apply Hpure.
  - unfold reduceSubscribe. cbn [fst snd]. auto.
  - unfold reduceUnsubscribe. cbn [fst snd]. auto.
  - unfold reduceEvent. destruct (eventHandlers reg idAt json event) as [fn|] eqn:E; [|done].
    intros [= E']. pose proof (eventHandlers_replied _ _ rng s conn req payload E) as H.
    by rewrite E' in H.
  - unfold reduceSurfaceReadText, noSession. case_match; cbn [fst snd]; [auto|apply replied_error].
  - unfold reduceSurfaceSendText, noSession. case_match; cbn [fst snd]; [auto|apply replied_error].
  - unfold reduceSurfaceSendKey, noSession. case_match; cbn [fst snd]; [auto|apply replied_error].
  - unfold reduceSurfaceSubscribe. destruct (Sessions s !! sid); [|cbn [fst snd]; auto].
    destruct (headFrame _); [|cbn [fst snd]; auto]. destruct (_ && _); [cbn [fst snd]; auto|].
    destruct (bool_decide _); cbn [fst snd]; auto.
  - unfold reduceSurfaceUnsubscribe. destruct (negb _); cbn [fst snd]; auto.
  - unfold reduceSurfaceResize. case_match; cbn [fst snd]; auto.
  - unfold reduceSurfaceWriteRaw. case_match; cbn [fst snd]; auto.
  - unfold reduceDriverList. cbn [fst snd]. auto.
Qed.

(** ** Driver events *)

Definition isPush (eff : Effect) : bool :=
  match eff with EffPushDriver _ _ => true | _ => false end.

(** Drivers leave replies to the reducer. *)
Definition quiet_drivers : Prop :=
  ∀ cmd drv, GetDriver reg cmd = Some drv ->
  ∀ ds ctx ev, omap answers (Driver_Step drv ds ctx ev).1.2 = [].

Lemma answers_postProcess sid fid raw : forall s,
  omap answers (postProcessAll s sid fid raw).2 = omap answers raw.
Proof.
  induction raw as [|eff raw IH]; simpl; intros s; [done|].
  destruct (postProcessEffect s sid fid eff) as [p s1] eqn:E. specialize (IH s1).
  assert (answers p = answers eff) as Hp.
  { by destruct eff; simpl in E; injection E as <- _. }
  destruct (postProcessAll s1 sid fid raw) as [s2 out]. simpl in *. rewrite Hp.
  by destruct (answers eff); [f_equal|].
Qed.

Lemma stepDriver_quiet s fid ev s' effs :
  quiet_drivers -> stepDriver reg s fid ev = Some (s', effs) -> omap answers effs = [].
Proof.
  intros Hq E. destruct (stepDriver_inv _ _ _ _ _ _ E) as (sid & sess & idx & frame & drv & Hf & Hi & _ & Hd).
  rewrite (stepDriver_eq _ _ _ _ _ _ _ _ _ Hf Hi Hd) in E. apply (inj Some) in E.
  apply (f_equal snd) in E. simpl in E. rewrite <- E, answers_postProcess. by eapply Hq.
Qed.

(** Pushes answer nobody (connection 0) and leave no push request behind. *)
Lemma resolvePush_answers raw : forall rng s,
  omap answers raw = [] ->
  let '(_, effs, _) := resolvePushDriverEffects reg idAt rng s raw in
  Forall (λ a, a = (0, ""%string)) (omap answers effs) /\ existsb isPush effs = false.
Proof.
  induction raw as [|eff raw IH]; intros rng s Hq; [done|].
  assert (answers eff = None /\ omap answers raw = []) as [Hq1 Hq2].
  { simpl in Hq. by destruct (answers eff). }
  destruct (isPush eff) eqn:Hp.
  - destruct eff; try done. simpl.
    destruct (pushDriverInternal _ _ _ _ _ _ _ _ _ _ _) as [[[s1 effs]|err] rng1] eqn:E.
    + apply pushDriverInternal_effs in E as (fid & plan & ->). specialize (IH rng1 s1 Hq2).
      destruct (resolvePushDriverEffects reg idAt rng1 s1 raw) as [[s2 effs] rng2].
      destruct IH as [IH1 IH2]. simpl. split; [by constructor|done].
    + by apply IH.
  - assert (resolvePushDriverEffects reg idAt rng s (eff :: raw) =
      let '(s, effs, rng) := resolvePushDriverEffects reg idAt rng s raw in (s, eff :: effs, rng)) as ->
      by (by destruct eff).
    specialize (IH rng s Hq2). destruct (resolvePushDriverEffects reg idAt rng s raw) as [[s2 effs] rng2].
    simpl. by rewrite Hq1, Hp.
Qed.

Lemma filter_zero_answers l :
  Forall (λ a : Z * string, a = (0, ""%string)) l -> List.filter (λ a, negb (a.1 =? 0)) l = [].
Proof. induction 1 as [|a l -> _ IH]; [done|]. exact IH. Qed.

(** The common tail of hook and subsystem events. *)
Lemma driver_event_reply rng s conn req raw :
  omap answers raw = [] -> conn ≠ 0 ->
  let '(_, effs, _) := resolvePushDriverEffects reg idAt rng s raw in
  let all := effs ++ [EffPersistSnapshot; EffBroadcastSessionsChanged]
                ++ (if conn =? 0 then [] else [okResp conn req BodyNil]) in
  List.filter (λ a, negb (a.1 =? 0)) (omap answers all) = [(conn, req)] /\
  existsb isPush all = false.
Proof.
  intros Hq Hc. pose proof (resolvePush_answers raw rng s Hq) as H.
  destruct (resolvePushDriverEffects reg idAt rng s raw) as [[s2 effs] rng2].
  destruct H as [H1 H2]. apply Z.eqb_neq in Hc as Hc'. rewrite Hc'. split.
  - rewrite omap_app, List.filter_app, filter_zero_answers by done. simpl. by rewrite Hc'.
  - rewrite existsb_app, H2. done.
Qed.

(** ** Teardown *)

Lemma evicts_teardown s s' effs kill fid :
  wf_shapes (shapes s) -> evicts s s' effs kill ->
  has_frame (shapes s) fid -> ¬ has_frame (shapes s') fid ->
  frameTeardownEffects fid kill ⊆ effs.
Proof.
  intros Hwf Hev (sid0 & sh & Hsh & Hf) Hno.
  destruct Hev as [sid sess Hl -> Ht|sid sess idx fid' Hl Hi -> Ht].
  - rewrite shapes_delete in Hno. destruct (decide (sid0 = sid)) as [->|Hne].
    + apply shapes_lookup in Hsh as (sess' & Hl' & <-). apply Ht. simpl in Hf. congruence.
    + destruct Hno. exists sid0, sh. by rewrite lookup_delete_ne.
  - rewrite shapes_insert, shape_evicted in Hno. destruct (decide (sid0 = sid)) as [->|Hne].
    + assert (sh = shape sess) as -> by (apply shapes_lookup in Hsh as (? & ? & <-); congruence).
      destruct (decide (fid = fid')) as [->|Hne]; [done|]. destruct Hno.
      exists sid, (sh_remove (S idx) fid' (shape sess)). rewrite lookup_insert_eq. split; [done|].
      apply elem_of_sh_remove; [by apply (wfs_nodup _ _ (wfm_shape _ Hwf _ _ Hsh))|done|done].
    + destruct Hno. exists sid0, sh. by rewrite lookup_insert_ne.
Qed.

Lemma Reduce_teardown rng s ev s' effs rng' fid :
  supply_ok idAt -> wf_graph idAt (rng, shapes s) ->
  Reduce reg idAt json rng s ev = Some (s', effs, rng') ->
  has_frame (shapes s) fid -> ¬ has_frame (shapes s') fid ->
  frameTeardownEffects fid (negb (window_gone ev)) ⊆ effs.
Proof.
  intros Hid Hwf E Hf Hno. destruct (surface_event ev) eqn:Hev.
  { destruct (surface_event_shapes _ _ _ _ _ _ _ _ _ Hev E) as [_ Es]. by rewrite Es in Hno. }
  destruct (Reduce_outcome _ _ _ _ _ _ _ _ _ Hev E) as [[H _]|[_ H]].
  - destruct Hno. eapply (grow_steps_frames _ _ _ _ Hid Hwf H). done.
  - eapply evicts_teardown; [apply (wfg_shapes _ _ Hwf)|done..].
Qed.

(** The frame an eviction names is gone afterwards. *)
Lemma evictFrame_gone s fid kill s' effs :
  wf_shapes (shapes s) -> evictFrame s fid kill = Some (s', effs) -> ¬ has_frame (shapes s') fid.
Proof.
  intros Hwf. unfold evictFrame. destruct (findFrame s fid) as [[[sid sess] idx]|] eqn:Ef; [|done].
  apply findFrame_Some in Ef as [Hl Hi].
  assert (shapes s !! sid = Some (shape sess)) as Hsh by (apply shapes_lookup; eauto).
  assert (∀ sid' sh, shapes s !! sid' = Some sh -> fid ∈ sh_frames sh -> sid' = sid) as Hu.
  { intros sid' sh H1 H2. eapply (wfm_unique _ Hwf); [done..|]. by eapply list_elem_of_lookup_2. }
  destruct idx as [|idx]; simpl.
  - intros [<- _]%(inj Some)%pair_equal_spec. rewrite shapes_delete.
    intros (sid' & sh & [Hne H]%lookup_delete_Some & Hf). apply Hne. symmetry. eauto.
  - intros E%(inj Some). apply (f_equal fst) in E. rewrite evictChildFrame_eq in E.
    cbn [fst] in E. rewrite <- E, shapes_insert, shape_evicted.
    intros (sid' & sh & [[<- <-]|[Hne H]]%lookup_insert_Some & Hf).
    + apply elem_of_sh_remove in Hf as [_ ?]; [done| |done].
      by apply (wfs_nodup _ _ (wfm_shape _ Hwf _ _ Hsh)).
    + apply Hne. symmetry. eauto.
Qed.

Lemma has_frame_findFrame s fid :
  has_frame (shapes s) fid -> ∃ sid sess idx, findFrame s fid = Some (sid, sess, idx).
Proof.
  intros H. destruct (findFrame s fid) as [[[sid sess] idx]|] eqn:E; [eauto|].
  by apply findFrame_None in E.
Qed.
End outcome.
