(* ===== verification/ClientRollback.v ===== *)
(** * client/state: failed spawns, exits, heads and surface relays

    A failed spawn undoes the command that started it; a crash is handled once;
    the head of a session is one of its frames; and the relays the runtime is
    told to run are the recorded subscriptions. *)

From S2P Require Import Prelude GoStd ClientView ClientState ClientReduce ClientInv ClientGraph ClientSteps.
Open Scope Z_scope.

Section rollback.
Context `{T : ClientTypes}.
Context (reg : Registry) (idAt : nat -> string) (json : Json).

(** ** Failed spawns *)

(** The frame a spawn effect starts. *)
Definition spawns (eff : Effect) : option (string * string) :=
  match eff with
  | EffSpawnFrame sid fid _ _ _ _ _ _ _ _ _ _ _ _ => Some (sid, fid)
  | _ => None
  end.

(** A session with one frame, just added to [s]. *)
Definition added (s s1 : State) (sid fid : string) : Prop :=
  ∃ sess frame, Session_Frames sess = [frame] /\ Frame_ID frame = fid /\
    s1 = s <| Sessions := <[sid := sess]> (Sessions s) |>.

Lemma reduceCreateSession_added rng s conn req p s1 effs rng1 sid fid :
  reduceCreateSession reg idAt rng s conn req p = (s1, effs, rng1) ->
  (sid, fid) ∈ omap spawns effs -> sid = idAt rng /\ added s s1 sid fid.
Proof.
  unfold reduceCreateSession, allocFrameID, allocSessionID. intros E Hin.
  destruct (String.eqb _ ""); [injection E as _ <- _; by apply elem_of_nil in Hin|].
  destruct (GetDriver reg _) as [drv|]; [|injection E as _ <- _; by apply elem_of_nil in Hin].
  destruct (prepareSessionDriver _ _ _ _ _ _) as [[ds cl]|err];
    [|injection E as _ <- _; by apply elem_of_nil in Hin].
  destruct (Driver_PrepareLaunch drv _ _ _ _ _ _) as [launch|err];
    [|injection E as _ <- _; by apply elem_of_nil in Hin].
  apply pair_equal_spec in E as [E _]. apply pair_equal_spec in E as [<- <-].
  apply list_elem_of_singleton in Hin. injection Hin as -> ->. split; [done|].
  eexists _, _. split_and!; [| |reflexivity]; reflexivity.
Qed.

Lemma reduceForkSession_added rng s conn req p s1 effs rng1 sid fid :
  reduceForkSession reg idAt rng s conn req p = (s1, effs, rng1) ->
  (sid, fid) ∈ omap spawns effs -> sid = idAt rng /\ added s s1 sid fid.
Proof.
  unfold reduceForkSession. intros E Hin.
  destruct (String.eqb _ ""); [injection E as _ <- _; by apply elem_of_nil in Hin|].
  destruct (Sessions s !! _) as [sess|]; [|injection E as _ <- _; by apply elem_of_nil in Hin].
  destruct (rootFrame sess) as [rootF|]; [|injection E as _ <- _; by apply elem_of_nil in Hin].
  destruct (resolveForkDrv _ _ _ _ _) as [[[[rd fk] fd] fc]|err] eqn:Ef.
  - unfold buildForkSession, spawnForkSession, allocFrameID, allocSessionID in E.
    destruct (Driver_PrepareLaunch fd _ _ _ _ _ _) as [launch|err];
      [|injection E as _ <- _; by apply elem_of_nil in Hin].
    apply pair_equal_spec in E as [E _]. apply pair_equal_spec in E as [<- <-].
    apply list_elem_of_singleton in Hin. injection Hin as -> ->. split; [done|].
    eexists _, _. split_and!; [| |reflexivity]; reflexivity.
  - apply resolveForkDrv_error in Ef as (code & msg & ->).
    injection E as _ <- _. by apply elem_of_nil in Hin.
Qed.

(** The same through the registered handlers. *)
Lemma create_added rng s conn req payload s1 effs rng1 sid fid :
  Reduce reg idAt json rng s (EvEvent conn req EventCreateSession payload) = Some (s1, effs, rng1) ->
  (sid, fid) ∈ omap spawns effs -> sid = idAt rng /\ added s s1 sid fid.
Proof.
  intros E%(inj Some) Hin. cbn in E. unfold RegisterEvent in E.
  destruct (String.eqb payload ""); [by eapply reduceCreateSession_added|].
  destruct (unmarshalCreate json payload); [by eapply reduceCreateSession_added|].
  injection E as _ <- _. by apply elem_of_nil in Hin.
Qed.

Lemma fork_added rng s conn req payload s1 effs rng1 sid fid :
  Reduce reg idAt json rng s (EvEvent conn req EventForkSession payload) = Some (s1, effs, rng1) ->
  (sid, fid) ∈ omap spawns effs -> sid = idAt rng /\ added s s1 sid fid.
Proof.
  intros E%(inj Some) Hin. cbn in E. unfold RegisterEvent in E.
  destruct (String.eqb payload ""); [by eapply reduceForkSession_added|].
  destruct (unmarshalFork json payload); [by eapply reduceForkSession_added|].
  injection E as _ <- _. by apply elem_of_nil in Hin.
Qed.

Lemma spawn_failed_added s s1 sid fid err conn req :
  wf_shapes (shapes s1) -> Sessions s !! sid = None -> added s s1 sid fid ->
  (reduceSpawnFailed s1 fid err conn req).1 = s.
Proof.
  intros Hwf Hno (sess & frame & Hfr & Hid & E).
  assert (findFrame s1 fid = Some (sid, sess, 0%nat)) as Hf.
  { rewrite <- Hid. eapply findFrame_root; [done| |done]. rewrite E. simpl. by rewrite lookup_insert_eq. }
  unfold reduceSpawnFailed, evictFrame. rewrite Hf. cbn [Nat.eqb default]. unfold evictRootFrame.
  assert (s1 <| Sessions := delete sid (Sessions s1) |> = s) as ->; [|by destruct (conn =? 0)].
  rewrite E. simpl. rewrite delete_insert_id by done. by destruct s.
Qed.

(** The state up to the order in which frames were last used. *)
Definition forgetMRU (s : State) : State :=
  s <| Sessions := (λ sess, sess <| Session_MRUFrameIDs := [] |>) <$> Sessions s |>.

Lemma forgetMRU_update s sid sess sess' :
  Sessions s !! sid = Some sess ->
  sess' <| Session_MRUFrameIDs := [] |> = sess <| Session_MRUFrameIDs := [] |> ->
  forgetMRU (s <| Sessions := <[sid := sess']> (Sessions s) |>) = forgetMRU s.
Proof.
  intros Hl E. unfold forgetMRU.
  assert ((λ x : Session, x <| Session_MRUFrameIDs := [] |>) <$> <[sid := sess']> (Sessions s)
    = (λ x : Session, x <| Session_MRUFrameIDs := [] |>) <$> Sessions s) as H.
  { rewrite fmap_insert, E. apply insert_id. by rewrite lookup_fmap, Hl. }
  change (Sessions (s <| Sessions := <[sid := sess']> (Sessions s) |>))
    with (<[sid := sess']> (Sessions s)).
  by rewrite H.
Qed.

(** The session [pushDriverInternal] stores. *)
Definition pushedSession (sess : Session) (frame : SessionFrame) : Session :=
  pushMRU sess (Session_HeadFrameID sess)
    <| Session_HeadFrameID := Frame_ID frame |>
    <| Session_Frames := Session_Frames sess ++ [frame] |>.

Lemma pushDriverInternal_inv rng s sid project cmd opts input conn req s1 effs rng1 :
  pushDriverInternal reg idAt rng s sid project cmd opts input conn req = (inl (s1, effs), rng1) ->
  ∃ sess frame plan, Sessions s !! sid = Some sess /\ Frame_ID frame = idAt rng /\
    s1 = s <| Sessions := <[sid := pushedSession sess frame]> (Sessions s) |> /\
    effs = [spawnEffect sid (idAt rng) plan conn req].
Proof.
  unfold pushDriverInternal, allocFrameID, allocSessionID.
  destruct (Sessions s !! sid) as [sess|]; [|done]. destruct (GetDriver reg _) as [drv|]; [|done].
  destruct (prepareSessionDriver _ _ _ _ _ _) as [[ds cl]|err]; [|done].
  destruct (Driver_PrepareLaunch drv _ _ _ _ _ _) as [launch|err]; [|done].
  intros [E _]%pair_equal_spec. apply (inj inl) in E. apply pair_equal_spec in E as [<- <-].
  lazymatch goal with |- context [Session_Frames sess ++ [?fr]] => eexists sess, fr, _ end.
  split_and!; reflexivity.
Qed.

Lemma reducePushDriver_pushed rng s conn req payload s1 effs1 rng1 sid fid :
  Reduce reg idAt json rng s (EvEvent conn req EventPushDriver payload) = Some (s1, effs1, rng1) ->
  (sid, fid) ∈ omap spawns effs1 ->
  ∃ sess frame, Sessions s !! sid = Some sess /\ Frame_ID frame = idAt rng /\ fid = idAt rng /\
    s1 = s <| Sessions := <[sid := pushedSession sess frame]> (Sessions s) |>.
Proof.
  intros E%(inj Some) Hin. cbn in E.
  assert (∀ p, reducePushDriver reg idAt rng s conn req p = (s1, effs1, rng1) ->
    ∃ sess frame, Sessions s !! sid = Some sess /\ Frame_ID frame = idAt rng /\ fid = idAt rng /\
    s1 = s <| Sessions := <[sid := pushedSession sess frame]> (Sessions s) |>) as H.
  { clear E. intros p. unfold reducePushDriver. intros E.
    destruct (String.eqb _ ""); [injection E as _ <- _; by apply elem_of_nil in Hin|].
    destruct (Sessions s !! Push_SessionID p); [|injection E as _ <- _; by apply elem_of_nil in Hin].
    destruct (pushDriverInternal _ _ _ _ _ _ _ _ _ _ _) as [[[s' effs]|err] rng'] eqn:Ep;
      [|injection E as _ <- _; by apply elem_of_nil in Hin].
    apply pushDriverInternal_inv in Ep as (sess & frame & plan & Hl & Hid & Es & ->).
    injection E as -> <- _. apply list_elem_of_singleton in Hin. injection Hin as -> ->.
    by exists sess, frame. }
  unfold RegisterEvent in E. destruct (String.eqb payload ""); [eauto|].
  destruct (unmarshalPush json payload); [eauto|].
  injection E as _ <- _. by apply elem_of_nil in Hin.
Qed.

Lemma existsb_head sess :
  Session_HeadFrameID sess ∈ frame_ids sess ->
  existsb (λ f, String.eqb (Frame_ID f) (Session_HeadFrameID sess)) (Session_Frames sess) = true.
Proof. intros H. rewrite existsb_frame_ids. by rewrite bool_decide_true. Qed.

(** Evicting the frame just pushed restores the frames and the head. *)
Lemma evicted_pushed sess frame :
  Session_HeadFrameID sess ∈ frame_ids sess -> Session_HeadFrameID sess ≠ ""%string ->
  evictedSession (pushedSession sess frame) (length (Session_Frames sess)) (Frame_ID frame)
    <| Session_MRUFrameIDs := [] |>
  = sess <| Session_MRUFrameIDs := [] |>.
Proof.
  intros Hin Hne%String.eqb_neq. unfold evictedSession.
  change (Session_HeadFrameID (pushedSession sess frame)) with (Frame_ID frame).
  rewrite String.eqb_refl.
  assert (Session_Frames (removeFrameByIndex (pushedSession sess frame) (length (Session_Frames sess)))
    = Session_Frames sess) as Hfr.
  { simpl. rewrite take_app_length, drop_ge, app_nil_r; [done|]. rewrite length_app. simpl. lia. }
  unfold popMRU. rewrite Hfr.
  assert (∃ rest, Session_MRUFrameIDs (removeFrameByIndex (pushedSession sess frame)
    (length (Session_Frames sess))) = Session_HeadFrameID sess :: rest) as [rest Hm].
  { simpl. unfold pushMRU. rewrite Hne. simpl. eauto. }
  rewrite Hm. cbn [firstExisting]. rewrite existsb_head, Hne by done.
  destruct sess. unfold pushedSession, pushMRU in *. simpl in *. rewrite Hne in *.
  simpl in *. by rewrite Hfr.
Qed.

Lemma spawn_failed_pushed rng s sid sess frame err conn req :
  wf_shapes (shapes s) -> Sessions s !! sid = Some sess ->
  let s1 := s <| Sessions := <[sid := pushedSession sess frame]> (Sessions s) |> in
  wf_shapes (shapes s1) -> Frame_ID frame = idAt rng ->
  forgetMRU (reduceSpawnFailed s1 (idAt rng) err conn req).1 = forgetMRU s.
Proof.
  intros Hwf Hl s1 Hwf1 Hid.
  assert (shapes s !! sid = Some (shape sess)) as Hsh by (apply shapes_lookup; eauto).
  pose proof (wfm_shape _ Hwf _ _ Hsh) as [_ Hne _ Hh _ Hnm]. simpl in *.
  assert (findFrame s1 (idAt rng) = Some (sid, pushedSession sess frame, length (Session_Frames sess))) as Hf.
  { apply findFrame_unique; [done|by apply lookup_insert_eq|]. unfold frame_ids. simpl.
    rewrite fmap_app, lookup_app_r; rewrite length_fmap; [|lia]. by rewrite Nat.sub_diag, <- Hid. }
  unfold reduceSpawnFailed, evictFrame. rewrite Hf.
  assert ((length (Session_Frames sess) =? 0)%nat = false) as ->.
  { apply Nat.eqb_neq. unfold frame_ids in Hne. by destruct (Session_Frames sess). }
  cbn [default].
  pose proof (evictChildFrame_eq s1 sid (pushedSession sess frame) (length (Session_Frames sess))
    (idAt rng) false) as E.
  destruct (evictChildFrame _ _ _ _ _ _) as [s2 effs]. simpl in E.
  assert (s2 = s <| Sessions := <[sid := evictedSession (pushedSession sess frame)
    (length (Session_Frames sess)) (idAt rng)]> (Sessions s) |>) as E2.
  { rewrite E. unfold s1. simpl. by rewrite insert_insert_eq. }
  assert (forgetMRU s2 = forgetMRU s); [|by destruct (conn =? 0)].
  rewrite E2. eapply forgetMRU_update; [done|]. rewrite <- Hid. apply evicted_pushed; [done|].
  intros E0. by rewrite E0 in Hh.
Qed.

(** ** Exits *)

Lemma commandExited_intentional s fid code :
  wf_shapes (shapes s) -> isIntentionalExit code = true -> has_frame (shapes s) fid ->
  ¬ has_frame (shapes (reduceFrameCommandExited reg s fid code).1) fid.
Proof.
  intros Hwf Hc (sid & sess & idx & Hf)%has_frame_findFrame.
  unfold reduceFrameCommandExited. rewrite Hf, Hc.
  destruct (evictFrame s fid true) as [[s' effs]|] eqn:E; [by eapply evictFrame_gone|].
  unfold evictFrame in E. rewrite Hf in E. by destruct (idx =? 0)%nat.
Qed.

Lemma commandExited_abnormal s fid code :
  isIntentionalExit code = false -> kept s (reduceFrameCommandExited reg s fid code).1.
Proof.
  intros Hc. unfold reduceFrameCommandExited. rewrite Hc.
  destruct (findFrame s fid) as [[[sid sess] idx]|]; [|done].
  destruct (Session_Frames sess !! idx); [|done].
  match goal with |- context [if ?b then (s, []) else _] => destruct b end; [done|].
  pose proof (stepDriver_default_kept reg s fid (DEvCommandExited code (Now s))) as H.
  by destruct (default _ _) as [s1 effs].
Qed.

(** A driver is stopped by a crash of the command of a root frame. *)
Definition stops_on_exit (drv : Driver) : Prop :=
  ∀ ds ctx code ts, Ctx_IsRoot ctx = true -> code ≠ 0 ->
    ∃ x, (Driver_Step drv ds ctx (DEvCommandExited code ts)).1.1 = Some x /\
    Driver_Status drv (Some x) = StatusStopped.

(** A frame whose driver is stopped is left alone. *)
Lemma commandExited_stopped s fid code sid sess idx frame drv x :
  isIntentionalExit code = false -> findFrame s fid = Some (sid, sess, idx) ->
  Session_Frames sess !! idx = Some frame -> GetDriver reg (Frame_Command frame) = Some drv ->
  Frame_Driver frame = Some x -> Driver_Status drv (Some x) = StatusStopped ->
  reduceFrameCommandExited reg s fid code = (s, []).
Proof.
  intros Hc Hf Hi Hd Hx Hst. unfold reduceFrameCommandExited. by rewrite Hf, Hc, Hi, Hd, Hx, Hst.
Qed.

Lemma commandExited_crash s fid code sid sess frame drv :
  wf_shapes (shapes s) -> isIntentionalExit code = false ->
  findFrame s fid = Some (sid, sess, 0%nat) -> Session_Frames sess !! 0%nat = Some frame ->
  GetDriver reg (Frame_Command frame) = Some drv -> stops_on_exit drv ->
  ∃ sess' frame' x, let s1 := (reduceFrameCommandExited reg s fid code).1 in
    findFrame s1 fid = Some (sid, sess', 0%nat) /\ Session_Frames sess' !! 0%nat = Some frame' /\
    Frame_Command frame' = Frame_Command frame /\ Frame_Driver frame' = Some x /\
    Driver_Status drv (Some x) = StatusStopped.
Proof.
  intros Hwf Hc Hf Hi Hd Hs.
  pose proof (commandExited_abnormal s fid code Hc) as [Hsh _].
  unfold reduceFrameCommandExited in *. rewrite Hf, Hc, Hi, Hd in *.
  destruct (match Frame_Driver frame with Some _ => _ | None => _ end) eqn:Hst.
  - destruct (Frame_Driver frame) as [x|] eqn:Hx; [|done].
    exists sess, frame, x. split_and!; try done. by apply Z.eqb_eq.
  - set (ev := DEvCommandExited code (Now s)) in *.
    destruct (stepDriver reg s fid ev) as [[s1 effs]|] eqn:E;
      [|by rewrite (stepDriver_eq _ _ _ _ _ _ _ _ _ Hf Hi Hd) in E].
    cbn [from_option Datatypes.id fst] in *.
    destruct (stepDriver_sessions _ _ _ _ _ _ _ _ _ _ _ E Hf Hi Hd) as [_ Es].
    destruct (Hs (driverOf drv (Now s) frame) (frameContext frame true) code (Now s) eq_refl)
      as (x & Hx & Hstop); [by intros ->|].
    eexists _, (frame <| Frame_Driver := stepped drv (Now s) frame true ev |>), x.
    cbv zeta. split.
    { apply findFrame_unique; [by rewrite Hsh|rewrite Es; apply lookup_insert_eq|].
      unfold frame_ids. cbn. rewrite list_lookup_fmap, list_lookup_insert_eq
        by (by eapply lookup_lt_Some). simpl. f_equal.
      destruct (findFrame_frame _ _ _ _ _ Hf) as (fr & Hi' & <-). congruence. }
    split_and!; [|reflexivity| |done].
    + apply list_lookup_insert_eq. by eapply lookup_lt_Some.
    + exact Hx.
Qed.

(** After a crash of a root frame, further reports of crashes change nothing. *)
Lemma root_crash_once s fid code code' sid sess frame drv s1 effs1 :
  wf_shapes (shapes s) -> isIntentionalExit code = false -> isIntentionalExit code' = false ->
  findFrame s fid = Some (sid, sess, 0%nat) -> Session_Frames sess !! 0%nat = Some frame ->
  GetDriver reg (Frame_Command frame) = Some drv -> stops_on_exit drv ->
  reduceFrameCommandExited reg s fid code = (s1, effs1) ->
  reduceFrameCommandExited reg s1 fid code' = (s1, []).
Proof.
  intros Hwf Hc Hc' Hf Hi Hd Hs E.
  destruct (commandExited_crash _ _ _ _ _ _ _ Hwf Hc Hf Hi Hd Hs) as (sess' & frame' & x & H).
  rewrite E in H. cbn [fst] in H. destruct H as (Hf' & Hi' & Hcmd & Hx & Hst).
  eapply commandExited_stopped; [done..| |done|done]. by rewrite Hcmd.
Qed.

(** A driver that ignores the crash of a child frame. *)
Lemma child_crash_ignored s fid code sid sess idx frame drv ds :
  isIntentionalExit code = false -> findFrame s fid = Some (sid, sess, S idx) ->
  Session_Frames sess !! S idx = Some frame -> Sessions s !! sid = Some sess ->
  GetDriver reg (Frame_Command frame) = Some drv -> Frame_Driver frame = Some ds ->
  Driver_Status drv (Some ds) ≠ StatusStopped ->
  (Driver_Step drv (Some ds) (frameContext frame false) (DEvCommandExited code (Now s))).1
    = (Some ds, []) ->
  reduceFrameCommandExited reg s fid code = (s, [EffReleaseFrameSandbox fid]).
Proof.
  intros Hc Hf Hi Hs Hd Hx Hst Hstep. unfold reduceFrameCommandExited.
  rewrite Hf, Hc, Hi, Hd, Hx. apply Z.eqb_neq in Hst. rewrite Hst.
  rewrite (stepDriver_eq _ _ _ _ _ _ _ _ _ Hf Hi Hd). unfold stepped, driverOf. rewrite Hx.
  cbn [Nat.eqb]. rewrite Hstep. cbn [fst snd postProcessAll from_option Datatypes.id app].
  enough (putFrame s sid sess (S idx) (frame <| Frame_Driver := Some ds |>) = s) as -> by done.
  unfold putFrame.
  replace (frame <| Frame_Driver := Some ds |>) with frame by (destruct frame; cbn in *; congruence).
  rewrite list_insert_id by done.
  replace (sess <| Session_Frames := Session_Frames sess |>) with sess by (by destruct sess).
  rewrite insert_id by done. by destruct s.
Qed.

(** ** Heads *)

Lemma headFrame_in sess :
  frame_ids sess ≠ [] -> Session_HeadFrameID sess ∈ frame_ids sess -> ""%string ∉ frame_ids sess ->
  ∃ f, headFrame sess = Some f /\ f ∈ Session_Frames sess /\ Frame_ID f = Session_HeadFrameID sess.
Proof.
  intros Hne Hin Hnm. unfold headFrame. unfold frame_ids in *.
  destruct (String.eqb_spec (Session_HeadFrameID sess) "") as [E|_]; [by rewrite E in Hin|].
  destruct (List.find _ _) as [f|] eqn:Ef.
  - apply find_some in Ef as [Hf E%String.eqb_eq]. exists f. destruct (Session_Frames sess); [done|].
    split_and!; [done|by apply list_elem_of_In|done].
  - apply list_elem_of_fmap in Hin as (f & E & Hf%list_elem_of_In).
    pose proof (find_none _ _ Ef f Hf) as Hn. simpl in Hn. by rewrite <- E, String.eqb_refl in Hn.
Qed.

(** ** Surface relays *)

(** The relays a runtime has running, as effects start and stop them. *)
Definition relay_apply (on : Z -> string -> bool) (eff : Effect) : Z -> string -> bool :=
  match eff with
  | EffSurfaceSubscribeStart conn sid => λ c x, ((c =? conn) && String.eqb x sid) || on c x
  | EffSurfaceSubscribeStop conn sid => λ c x, negb ((c =? conn) && String.eqb x sid) && on c x
  | _ => on
  end.

Definition subscribed (m : gmap Z (gset string)) (conn : Z) (sid : string) : bool :=
  bool_decide (sid ∈ default ∅ (m !! conn)).

Definition isStart (eff : Effect) : bool :=
  match eff with EffSurfaceSubscribeStart _ _ => true | _ => false end.

Definition stopsRelay (c : Z) (x : string) (eff : Effect) : bool :=
  match eff with
  | EffSurfaceSubscribeStop conn sid => (c =? conn) && String.eqb x sid
  | _ => false
  end.

Lemma relay_stops effs : forall on c x,
  existsb isStart effs = false ->
  fold_left relay_apply effs on c x = on c x && negb (existsb (stopsRelay c x) effs).
Proof.
  induction effs as [|eff effs IH]; intros on c x H; [by rewrite andb_true_r|].
  simpl in *. apply orb_false_iff in H as [H1 H2]. rewrite IH by done.
  destruct eff; try done. cbn [relay_apply stopsRelay].
  by destruct ((c =? conn) && String.eqb x sid), (on c x).
Qed.

Lemma existsb_perm {A} (f : A -> bool) l1 l2 : l1 ≡ₚ l2 -> existsb f l1 = existsb f l2.
Proof.
  induction 1 as [|x l1 l2 _ IH|x y l|l1 l2 l3 _ IH1 _ IH2]; simpl; [done|by rewrite IH| |congruence].
  by destruct (f x), (f y).
Qed.

Lemma relay_stops_perm effs effs' on c x :
  effs' ≡ₚ effs -> existsb isStart effs = false ->
  fold_left relay_apply effs' on c x = on c x && negb (existsb (stopsRelay c x) effs).
Proof.
  intros Hp H. rewrite relay_stops by (by rewrite (existsb_perm _ _ _ Hp)).
  by rewrite (existsb_perm _ _ _ Hp).
Qed.

Lemma reduceSurfaceSubscribe_relays s conn req sid effs' c x :
  let r := reduceSurfaceSubscribe s conn req sid in
  effs' ≡ₚ r.2 ->
  fold_left relay_apply effs' (subscribed (SurfaceSubs s)) c x = subscribed (SurfaceSubs r.1) c x.
Proof.
  assert (∀ eff, relay_apply (subscribed (SurfaceSubs s)) eff = subscribed (SurfaceSubs s) ->
    effs' ≡ₚ [eff] -> fold_left relay_apply effs' (subscribed (SurfaceSubs s)) c x
    = subscribed (SurfaceSubs s) c x) as H1.
  { intros eff He ->%Permutation_singleton_r. simpl. by rewrite He. }
  unfold reduceSurfaceSubscribe. destruct (Sessions s !! sid) as [sess|]; [|by apply H1].
  destruct (headFrame sess); [|by apply H1]. case_bool_decide as Hin; [by apply H1|].
  cbn [negb andb]. destruct (_ <=? _)%nat; [by apply H1|]. cbn [fst snd]. intros Hp.
  assert (fold_left relay_apply effs' (subscribed (SurfaceSubs s)) c x
    = ((c =? conn) && String.eqb x sid) || subscribed (SurfaceSubs s) c x) as ->.
  { symmetry in Hp. by apply Permutation_length_2_inv in Hp as [->| ->]. }
  unfold subscribed. simpl. destruct (Z.eqb_spec c conn) as [->|Hne].
  - rewrite lookup_insert_eq. simpl. destruct (String.eqb_spec x sid) as [->|]; simpl;
      [symmetry; apply bool_decide_true; set_solver|apply bool_decide_ext; set_solver].
  - by rewrite lookup_insert_ne.
Qed.

Lemma reduceSurfaceUnsubscribe_relays s conn req sid effs' c x :
  let r := reduceSurfaceUnsubscribe s conn req sid in
  effs' ≡ₚ r.2 ->
  fold_left relay_apply effs' (subscribed (SurfaceSubs s)) c x = subscribed (SurfaceSubs r.1) c x.
Proof.
  unfold reduceSurfaceUnsubscribe. case_bool_decide as Hin; cbn [negb fst snd]; intros Hp.
  2: { apply Permutation_singleton_r in Hp as ->. done. }
  rewrite (relay_stops_perm _ _ _ _ _ Hp) by done. simpl. rewrite orb_false_r. unfold subscribed.
  set (m := SurfaceSubs s) in *. destruct (Z.eqb_spec c conn) as [->|Hne]; simpl.
  2: { rewrite andb_true_r. destruct (_ =? _)%nat; [by rewrite lookup_delete_ne|by rewrite lookup_insert_ne]. }
  set (inner := default ∅ (m !! conn)) in *.
  assert (default ∅ ((if (size (inner ∖ {[sid]}) =? 0)%nat then delete conn m
    else <[conn := inner ∖ {[sid]}]> m) !! conn) = inner ∖ {[sid]}) as ->.
  { case Nat.eqb_spec; intros Hsz; [|by rewrite lookup_insert_eq].
    apply size_empty_inv in Hsz. rewrite lookup_delete_eq. simpl. symmetry. by apply leibniz_equiv. }
  destruct (String.eqb_spec x sid) as [->|]; simpl.
  - rewrite andb_false_r. symmetry. apply bool_decide_false. set_solver.
  - rewrite andb_true_r. apply bool_decide_ext. set_solver.
Qed.

Lemma stops_elements conn (l : list string) c x :
  existsb (stopsRelay c x) ((λ sid, EffSurfaceSubscribeStop conn sid) <$> l)
  = (c =? conn) && bool_decide (x ∈ l).
Proof.
  induction l as [|y l IH]; [simpl; by rewrite andb_false_r|].
  rewrite fmap_cons. cbn [existsb stopsRelay]. rewrite IH.
  destruct (c =? conn); simpl; [|done]. destruct (String.eqb_spec x y) as [->|]; simpl;
    [symmetry; apply bool_decide_true; left|apply bool_decide_ext; set_solver].
Qed.

Lemma reduceConnClosed_relays s conn effs' c x :
  let r := reduceConnClosed s conn in
  effs' ≡ₚ r.2 ->
  fold_left relay_apply effs' (subscribed (SurfaceSubs s)) c x = subscribed (SurfaceSubs r.1) c x.
Proof.
  unfold reduceConnClosed. destruct (SurfaceSubs s !! conn) as [inner|] eqn:E; cbn [fst snd]; intros Hp.
  - rewrite (relay_stops_perm _ _ _ _ _ Hp), stops_elements.
    2: { clear. induction (elements inner); [done|]. simpl. done. }
    unfold subscribed. simpl. destruct (Z.eqb_spec c conn) as [->|Hne].
    + rewrite E, lookup_delete_eq. simpl. rewrite bool_decide_false with (P := x ∈ ∅) by set_solver.
      destruct (decide (x ∈ inner)).
      * rewrite (bool_decide_true (x ∈ elements inner)) by set_solver. apply andb_false_r.
      * by rewrite (bool_decide_false (x ∈ inner)).
    + rewrite lookup_delete_ne by done. apply andb_true_r.
  - apply Permutation_nil_r in Hp as ->. by destruct (Subscribers s !! conn).
Qed.
End rollback.

(** * client/state: effects that only some events have

    [f] picks effects that the housekeeping of the reducer does not produce,
    such as spawns and answers. *)

Section silent.
Context `{T : ClientTypes}.
Context (reg : Registry) {X : Type} (f : Effect -> option X).

(** Drivers do not produce them. *)
Definition silent_drivers : Prop :=
  ∀ cmd drv, GetDriver reg cmd = Some drv ->
  (∀ ds ctx ev, omap f (Driver_Step drv ds ctx ev).1.2 = []) /\
  (∀ boot, Driver_BootstrapSessionStart drv = Some boot ->
   ∀ ds ctx now, omap f (boot ds ctx now).2 = []).

Hypothesis f_answers : ∀ eff, answers eff = None -> f eff = None.
Hypothesis f_post : ∀ s sid fid eff, f (postProcessEffect s sid fid eff).1 = f eff.
Hypothesis Hq : silent_drivers.

Lemma omap_silent effs : omap answers effs = [] -> omap f effs = [].
Proof.
  induction effs as [|eff effs IH]; [done|]. cbn. destruct (answers eff) eqn:E; [done|].
  rewrite (f_answers _ E). exact IH.
Qed.

Lemma postProcess_silent sid fid raw : forall s,
  omap f (postProcessAll s sid fid raw).2 = omap f raw.
Proof.
  induction raw as [|eff raw IH]; simpl; intros s; [done|].
  pose proof (f_post s sid fid eff) as Hp.
  destruct (postProcessEffect s sid fid eff) as [p s1]. specialize (IH s1).
  destruct (postProcessAll s1 sid fid raw) as [s2 out]. simpl in *. rewrite Hp.
  by destruct (f eff); [f_equal|].
Qed.

Lemma stepDriver_silent s fid ev s' effs :
  stepDriver reg s fid ev = Some (s', effs) -> omap f effs = [].
Proof.
  intros E. destruct (stepDriver_inv _ _ _ _ _ _ E) as (sid & sess & idx & frame & drv & Hf & Hi & _ & Hd).
  rewrite (stepDriver_eq _ _ _ _ _ _ _ _ _ Hf Hi Hd) in E. apply (inj Some) in E.
  apply (f_equal snd) in E. simpl in E. rewrite <- E, postProcess_silent.
  by apply (proj1 (Hq _ _ Hd)).
Qed.

Lemma stepDriver_default_silent s fid ev : omap f (default (s, []) (stepDriver reg s fid ev)).2 = [].
Proof.
  destruct (stepDriver reg s fid ev) as [[s' effs]|] eqn:E; [|done]. by apply stepDriver_silent in E.
Qed.

Lemma bootstrap_silent s fid : omap f (default (s, []) (bootstrapDriverSessionStart reg s fid)).2 = [].
Proof.
  unfold bootstrapDriverSessionStart.
  destruct (findFrame s fid) as [[[sid sess] idx]|]; [|done].
  destruct (negb _); [done|]. destruct (_ !! idx) as [frame|]; [|done].
  destruct (GetDriver reg _) as [drv|] eqn:Hd; [|done].
  destruct (Driver_BootstrapSessionStart drv) as [boot|] eqn:Hb; [|done].
  pose proof (proj2 (Hq _ _ Hd) _ Hb (Frame_Driver frame) (frameContext frame true) (Now s)) as H.
  destruct (boot _ _ _) as [ds raw]. etrans; [apply postProcess_silent|exact H].
Qed.

Lemma stepActiveSessions_silent makeEv s : omap f (st_effs (stepActiveSessions reg makeEv s)) = [].
Proof.
  unfold stepActiveSessions.
  assert (∀ l acc, omap f (st_effs acc) = [] ->
    omap f (st_effs (fold_left (stepSession reg makeEv) l acc)) = []) as H; [|by apply H].
  induction l as [|sid l IH]; intros acc Ha; [done|]. cbn [fold_left]. apply IH.
  unfold stepSession. repeat (case_match; try done). cbn.
  rewrite omap_app, Ha. by eapply stepDriver_silent.
Qed.

Lemma teardown_silent frames kill :
  omap f (frames ≫= λ frame : SessionFrame, frameTeardownEffects (Frame_ID frame) kill) = [].
Proof.
  apply omap_silent. induction frames as [|fr frames IH]; [done|]. rewrite bind_cons, omap_app, IH. by destruct kill.
Qed.

Lemma evictFrame_silent s fid kill : omap f (default (s, []) (evictFrame s fid kill)).2 = [].
Proof.
  unfold evictFrame. destruct (findFrame s fid) as [[[sid sess] idx]|]; [|done].
  destruct (idx =? 0)%nat; cbn [from_option]; unfold id.
  - unfold evictRootFrame. cbn [snd]. rewrite omap_app, teardown_silent. by apply omap_silent.
  - unfold evictChildFrame. cbn [snd]. apply omap_silent. by destruct kill.
Qed.

Lemma refresh_silent effs : omap f (appendMissingSessionRefreshEffects effs) = omap f effs.
Proof.
  assert (∀ eff, answers eff = None -> omap f (effs ++ [eff]) = omap f effs) as H.
  { intros eff E. rewrite omap_app. cbn. by rewrite (f_answers _ E), app_nil_r. }
  assert (∀ e1 e2, answers e1 = None -> answers e2 = None -> omap f (effs ++ [e1; e2]) = omap f effs) as H2.
  { intros e1 e2 E1 E2. rewrite omap_app. cbn. by rewrite (f_answers _ E1), (f_answers _ E2), app_nil_r. }
  unfold appendMissingSessionRefreshEffects.
  repeat case_match; rewrite <- ?app_assoc; cbn [app]; rewrite ?app_nil_r; auto.
Qed.

(** Is there such a frame? *)
Definition spawnTarget (s : State) (sid fid : string) : bool :=
  match Sessions s !! sid with Some sess => is_some (findFrameIndex sess fid) | None => false end.

Lemma frameSpawned_silent s sid fid sub dir name conn req :
  omap f (reduceFrameSpawned reg s sid fid sub dir name conn req).2
  = if spawnTarget s sid fid && negb (conn =? 0)
    then omap f [okResp conn req (BodyCreateSessionReply sid)] else [].
Proof.
  unfold reduceFrameSpawned, spawnTarget.
  destruct (Sessions s !! sid) as [sess|]; [|done]. destruct (findFrameIndex sess fid) as [idx|]; [|done].
  destruct (recordSubsystem s sid sess idx sub) as [s1 subID]. cbn [is_some andb].
  assert (∀ b, omap f (if b : bool then default (resolveWorktree reg s1 fid dir name, [])
    (bootstrapDriverSessionStart reg (resolveWorktree reg s1 fid dir name) fid)
    else (resolveWorktree reg s1 fid dir name, [])).2 = []) as H.
  { intros []; [apply bootstrap_silent|done]. }
  specialize (H (idx =? 0)%nat). destruct (if (idx =? 0)%nat then _ else _) as [s2 effs]. cbn [snd] in H |- *.
  rewrite omap_app, H, omap_app, (omap_silent [_; _; _]) by done. by destruct (conn =? 0).
Qed.

Lemma spawnFailed_silent s fid err conn req :
  omap f (reduceSpawnFailed s fid err conn req).2
  = if conn =? 0 then [] else omap f [errResp conn req ErrCodeInternal ("frame spawn failed: " +:+ err)].
Proof.
  unfold reduceSpawnFailed. pose proof (evictFrame_silent s fid false) as H.
  destruct (default _ _) as [s1 effs1]. cbn [snd] in H. destruct (conn =? 0); cbn [snd]; [done|].
  by rewrite omap_app, H.
Qed.

Lemma frameCommandExited_silent s fid code : omap f (reduceFrameCommandExited reg s fid code).2 = [].
Proof.
  unfold reduceFrameCommandExited.
  destruct (findFrame s fid) as [[[sid sess] idx]|]; [|done].
  destruct (isIntentionalExit code); [apply evictFrame_silent|].
  destruct (Session_Frames sess !! idx) as [frame|]; [|done]. cbv zeta.
  destruct (match GetDriver reg _ with Some _ => _ | None => _ end); [done|].
  pose proof (stepDriver_default_silent s fid (DEvCommandExited code (Now s))) as H.
  destruct (default _ _) as [s1 raw]. cbn [snd] in *. rewrite omap_app, H. by apply omap_silent.
Qed.

Lemma frameOsc_silent s fid cmd title body now : omap f (reduceFrameOsc reg s fid cmd title body now).2 = [].
Proof.
  unfold reduceFrameOsc. destruct (_ || _).
  - destruct (String.eqb title ""); [done|]. destruct (findFrame s fid); [|done].
    pose proof (stepDriver_default_silent s fid (DEvFrameOsc cmd title "" now)) as H.
    destruct (default _ _) as [s1 raw]. cbn [snd] in *. rewrite refresh_silent. cbn. by rewrite f_answers.
  - apply omap_silent. repeat case_match; done.
Qed.

Lemma framePrompt_silent s fid phase code now : omap f (reduceFramePrompt reg s fid phase code now).2 = [].
Proof.
  unfold reduceFramePrompt. destruct (findFrame _ fid); [|by apply omap_silent].
  pose proof (stepDriver_default_silent (s <| Now := now |>) fid (DEvFramePrompt phase code now)) as H.
  destruct (default _ _) as [s1 raw]. cbn [snd] in *. rewrite refresh_silent. cbn. by rewrite f_answers.
Qed.

(** Neither from a client nor about a spawn. *)
Definition ordinary (ev : Event) : bool :=
  match ev with
  | EvConnOpened _ | EvConnClosed _ | EvTick _ _ | EvFileChanged _ _ | EvJobResult _ _ _
  | EvFrameVanished _ | EvFrameCommandExited _ _ | EvFrameOsc _ _ _ _ _ | EvFramePrompt _ _ _ _ => true
  | _ => false
  end.

Lemma Reduce_silent idAt json rng s ev s' effs rng' : ordinary ev = true ->
  Reduce reg idAt json rng s ev = Some (s', effs, rng') -> omap f effs = [].
Proof.
  intros Ho. assert (∀ r : State * list Effect, omap f r.2 = [] ->
    Some (r.1, r.2, rng) = Some (s', effs, rng') -> omap f effs = []) as Hpure.
  { by intros r Hr [= _ <- _]. }
  destruct ev; try done; cbn [Reduce]; apply Hpure.
  - by apply omap_silent.
  - apply omap_silent. unfold reduceConnClosed. case_match; [|done]. cbn [snd].
    by induction (elements _) as [|sid l IH].
  - unfold reduceTick. cbn [snd]. rewrite !omap_app, stepActiveSessions_silent.
    rewrite !omap_silent by (by case_match). done.
  - unfold reduceFileChanged. destruct (findFrame s fid); [|done].
    destruct (stepDriver reg s fid _) as [[s1 effs1]|] eqn:E; [|done]. cbn [snd].
    apply stepDriver_silent in E. case_match; [|done]. rewrite omap_app, E. by apply omap_silent.
  - unfold reduceJobResult. destruct (Jobs s !! job) as [meta|]; [|done]. cbv zeta.
    destruct (stepDriver reg _ _ _) as [[s1 effs1]|] eqn:E; [|done]. cbn [snd].
    apply stepDriver_silent in E. rewrite omap_app, E. by apply omap_silent.
  - apply evictFrame_silent.
  - apply frameCommandExited_silent.
  - apply frameOsc_silent.
  - apply framePrompt_silent.
Qed.
End silent.

(** * client/state: the frames that are spawned

    The frames an event asks the runtime to spawn are new: their ids were drawn
    while the event was reduced, and no two are the same. *)

Open Scope Z_scope.

Section spawns.
Context `{T : ClientTypes}.
Context (reg : Registry) (idAt : nat -> string) (json : Json).

(** Drivers ask for frames with [EffPushDriver] only. *)
Definition drivers_push : Prop := silent_drivers reg spawns.

Lemma spawns_answers eff : answers eff = None -> spawns eff = None.
Proof. by destruct eff. Qed.

Lemma spawns_post s sid fid eff : spawns (postProcessEffect s sid fid eff).1 = spawns eff.
Proof. by destruct eff. Qed.

(** Ids drawn from position [a] up to position [b], each once. *)
Definition drawn (a b : nat) (ids : list string) : Prop :=
  ∃ ns, ids = idAt <$> ns /\ NoDup ns /\ Forall (λ n, (a <= n < b)%nat) ns.

Definition spawnedIDs (effs : list Effect) : list string := (omap spawns effs).*2.

Lemma drawn_nil a b : drawn a b [].
Proof. exists []. split_and!; [done|constructor|constructor]. Qed.

Lemma drawn_one n b : (n < b)%nat -> drawn n b [idAt n].
Proof. intros H. exists [n]. split_and!; [done|apply NoDup_singleton|by apply Forall_singleton]. Qed.

Lemma drawn_app a b c l1 l2 :
  (a <= b)%nat -> (b <= c)%nat -> drawn a b l1 -> drawn b c l2 -> drawn a c (l1 ++ l2).
Proof.
  intros Hab Hbc (n1 & -> & Hd1 & H1) (n2 & -> & Hd2 & H2). exists (n1 ++ n2). split_and!.
  - by rewrite fmap_app.
  - apply NoDup_app. split_and!; [done| |done]. intros n E1 E2.
    rewrite Forall_forall in H1, H2. apply H1 in E1. apply H2 in E2. lia.
  - apply Forall_app. split; eapply Forall_impl; eauto; simpl; intros; lia.
Qed.

Lemma drawn_later a a' b l : (a <= a')%nat -> drawn a' b l -> drawn a b l.
Proof.
  intros Ha (ns & -> & Hd & H). exists ns. split_and!; [done..|].
  eapply Forall_impl; [exact H|]. simpl. intros; lia.
Qed.

Lemma spawnedIDs_app l1 l2 : spawnedIDs (l1 ++ l2) = spawnedIDs l1 ++ spawnedIDs l2.
Proof. unfold spawnedIDs. by rewrite omap_app, fmap_app. Qed.

Lemma spawnedIDs_none effs : omap spawns effs = [] -> spawnedIDs effs = [].
Proof. unfold spawnedIDs. by intros ->. Qed.

(** ** Pushes *)

Lemma pushDriverInternal_spawns rng s sid project cmd opts input conn req :
  let '(r, rng') := pushDriverInternal reg idAt rng s sid project cmd opts input conn req in
  (rng <= rng')%nat /\
  match r with inl (_, effs) => drawn rng rng' (spawnedIDs effs) | inr _ => True end.
Proof.
  unfold pushDriverInternal, allocFrameID, allocSessionID.
  repeat (case_match; simplify_eq; try (split; [lia|done])).
  all: split; [lia|]; cbn; apply drawn_one; lia.
Qed.

Lemma resolvePush_spawns raw : forall rng s,
  omap spawns raw = [] ->
  let '(_, effs, rng') := resolvePushDriverEffects reg idAt rng s raw in
  (rng <= rng')%nat /\ drawn rng rng' (spawnedIDs effs).
Proof.
  induction raw as [|eff raw IH]; intros rng s Hq; [split; [done|apply drawn_nil]|].
  assert (spawns eff = None /\ omap spawns raw = []) as [Hq1 Hq2].
  { simpl in Hq. by destruct (spawns eff). }
  destruct (isPush eff) eqn:Hp.
  - destruct eff; try done. simpl.
    pose proof (pushDriverInternal_spawns rng s sid "" command zeroLaunchOptions "" 0 "") as Hpush.
    destruct (pushDriverInternal _ _ _ _ _ _ _ _ _ _ _) as [[[s1 effs]|err] rng1];
      destruct Hpush as [Hle Hpush].
    + specialize (IH rng1 s1 Hq2).
      destruct (resolvePushDriverEffects reg idAt rng1 s1 raw) as [[s2 effs2] rng2].
      destruct IH as [IH1 IH2]. split; [lia|]. rewrite spawnedIDs_app. by eapply drawn_app.
    + specialize (IH rng1 s Hq2).
      destruct (resolvePushDriverEffects reg idAt rng1 s raw) as [[s2 effs2] rng2].
      destruct IH as [IH1 IH2]. split; [lia|]. by eapply drawn_later.
  - assert (resolvePushDriverEffects reg idAt rng s (eff :: raw) =
      let '(s, effs, rng) := resolvePushDriverEffects reg idAt rng s raw in (s, eff :: effs, rng)) as ->
      by (by destruct eff).
    specialize (IH rng s Hq2). destruct (resolvePushDriverEffects reg idAt rng s raw) as [[s2 effs] rng2].
    unfold spawnedIDs in *. simpl. by rewrite Hq1.
Qed.

(** ** Reducers *)

Lemma reduceDriverHook_spawns rng s conn req event ts sender payload : drivers_push ->
  let '(_, effs, rng') := reduceDriverHook reg idAt rng s conn req event ts sender payload in
  drawn rng rng' (spawnedIDs effs).
Proof.
  intros Hq. unfold reduceDriverHook. destruct (String.eqb sender ""); [apply drawn_nil|].
  destruct (findFrame s sender) as [[[sid0 sess0] idx0]|]; [|apply drawn_nil].
  destruct (stepDriver reg s sender _) as [[s1 raw]|] eqn:E; [|apply drawn_nil].
  pose proof (resolvePush_spawns raw rng s1 (stepDriver_silent reg spawns spawns_post Hq _ _ _ _ _ E)) as H.
  destruct (resolvePushDriverEffects reg idAt rng s1 raw) as [[s2 effs] rng2].
  rewrite spawnedIDs_app, (spawnedIDs_none (_ ++ _)), app_nil_r by (by destruct (conn =? 0)). by destruct H.
Qed.

Lemma reduceSubsystem_spawns rng s conn req fid source kind ts payload : drivers_push ->
  let '(_, effs, rng') := reduceSubsystem reg idAt rng s conn req fid source kind ts payload in
  drawn rng rng' (spawnedIDs effs).
Proof.
  intros Hq. unfold reduceSubsystem. destruct (String.eqb fid ""); [apply drawn_nil|].
  destruct (findFrame s fid) as [[[sid0 sess0] idx0]|]; [|apply drawn_nil].
  destruct (stepDriver reg _ fid _) as [[s1 raw]|] eqn:E; [|apply drawn_nil].
  pose proof (resolvePush_spawns raw rng s1 (stepDriver_silent reg spawns spawns_post Hq _ _ _ _ _ E)) as H.
  destruct (resolvePushDriverEffects reg idAt rng s1 raw) as [[s2 effs] rng2].
  rewrite spawnedIDs_app, (spawnedIDs_none (_ ++ _)), app_nil_r by (by destruct (conn =? 0)). by destruct H.
Qed.

Lemma reduceCreateSession_spawns rng s conn req p :
  let '(_, effs, rng') := reduceCreateSession reg idAt rng s conn req p in drawn rng rng' (spawnedIDs effs).
Proof.
  unfold reduceCreateSession, allocFrameID, allocSessionID.
  repeat (case_match; simplify_eq; try apply drawn_nil).
  all: apply (drawn_later _ (S rng)); [lia|]; cbn; apply drawn_one; lia.
Qed.

Lemma reduceForkSession_spawns rng s conn req p :
  let '(_, effs, rng') := reduceForkSession reg idAt rng s conn req p in drawn rng rng' (spawnedIDs effs).
Proof.
  unfold reduceForkSession. destruct (String.eqb _ ""); [apply drawn_nil|].
  destruct (Sessions s !! _) as [sess|]; [|apply drawn_nil].
  destruct (rootFrame sess) as [rootF|]; [|apply drawn_nil].
  destruct (resolveForkDrv _ _ _ _ _) as [[[[rd fk] fd] fc]|err] eqn:Ef.
  - unfold buildForkSession, spawnForkSession, allocFrameID, allocSessionID.
    destruct (Driver_PrepareLaunch fd _ _ _ _ _ _) as [launch|err]; [|apply drawn_nil].
    apply (drawn_later _ (S rng)); [lia|]; cbn; apply drawn_one; lia.
  - apply resolveForkDrv_error in Ef as (code & msg & ->). apply drawn_nil.
Qed.

Lemma reducePushDriver_spawns rng s conn req p :
  let '(_, effs, rng') := reducePushDriver reg idAt rng s conn req p in drawn rng rng' (spawnedIDs effs).
Proof.
  unfold reducePushDriver. destruct (String.eqb _ ""); [apply drawn_nil|].
  destruct (Sessions s !! _) as [sess|]; [|apply drawn_nil].
  pose proof (pushDriverInternal_spawns rng s (Push_SessionID p) (Push_Project p) (Push_Command p)
    (Push_Options p) (Push_Input p) conn req) as H.
  destruct (pushDriverInternal _ _ _ _ _ _ _ _ _ _ _) as [[[s1 effs]|err] rng1];
    destruct H as [_ H]; [exact H|apply drawn_nil].
Qed.

Lemma RegisterEvent_spawns {A} (zero : A) unm h rng s conn req payload :
  (∀ p, let '(_, effs, rng') := h rng s conn req p in drawn rng rng' (spawnedIDs effs)) ->
  let '(_, effs, rng') := RegisterEvent zero unm h rng s conn req payload in
  drawn rng rng' (spawnedIDs effs).
Proof.
  intros Hh. unfold RegisterEvent. destruct (String.eqb payload ""); [apply Hh|].
  destruct (unm payload); [apply Hh|apply drawn_nil].
Qed.

Lemma pureHandler_spawns {A} (h : State -> ConnID -> string -> A -> State * list Effect) rng s conn req p :
  omap spawns (h s conn req p).2 = [] ->
  let '(_, effs, rng') := pureHandler h rng s conn req p in drawn rng rng' (spawnedIDs effs).
Proof.
  unfold pureHandler. destruct (h s conn req p) as [s1 effs]. intros H. cbn in H.
  rewrite spawnedIDs_none by done. apply drawn_nil.
Qed.

Lemma reduceEvent_spawns rng s conn req event payload s' effs rng' :
  reduceEvent reg idAt json rng s conn req event payload = Some (s', effs, rng') ->
  drawn rng rng' (spawnedIDs effs).
Proof.
  intros E. assert (∀ fn, eventHandlers reg idAt json event = Some fn ->
    let '(_, effs, rng') := fn rng s conn req payload in drawn rng rng' (spawnedIDs effs)) as H.
  { intros fn. unfold eventHandlers.
    repeat (destruct (String.eqb event _); [intros [= <-]; apply RegisterEvent_spawns; intros p|]).
    - apply reduceCreateSession_spawns.
    - apply reducePushDriver_spawns.
    - apply reduceForkSession_spawns.
    - apply pureHandler_spawns. unfold reduceStopSession. case_match; [|done].
      cbn [snd]. match goal with |- omap spawns (_ :: ?l) = _ => change (omap spawns l = []) end.
      by rewrite omap_app, (teardown_silent spawns spawns_answers).
    - by apply pureHandler_spawns.
    - by apply pureHandler_spawns.
    - apply pureHandler_spawns. unfold reduceSetHeadFrame. repeat case_match; done.
    - done. }
  unfold reduceEvent in E. destruct (eventHandlers reg idAt json event) as [fn|]; [|done].
  specialize (H fn eq_refl). injection E as E. by rewrite E in H.
Qed.

(** The frames that are spawned have ids drawn by this event. *)
Lemma Reduce_spawns rng s ev s' effs rng' :
  drivers_push -> Reduce reg idAt json rng s ev = Some (s', effs, rng') ->
  drawn rng rng' (spawnedIDs effs).
Proof.
  intros Hq. destruct (ordinary ev) eqn:Ho.
  { intros E. pose proof (Reduce_silent reg spawns spawns_answers spawns_post Hq _ _ _ _ _ _ _ _ Ho E) as Hs.
    rewrite spawnedIDs_none by done. apply drawn_nil. }
  assert (∀ r : State * list Effect, omap spawns r.2 = [] ->
    Some (r.1, r.2, rng) = Some (s', effs, rng') -> drawn rng rng' (spawnedIDs effs)) as Hpure.
  { intros r Hr [= _ <- <-]. rewrite spawnedIDs_none by done. apply drawn_nil. }
  destruct ev; try discriminate Ho; cbn [Reduce]; try (apply Hpure; done).
  all: try (apply Hpure; unfold reduceSurfaceReadText, reduceSurfaceSendText, reduceSurfaceSendKey,
    reduceSurfaceSubscribe, reduceSurfaceUnsubscribe, reduceSurfaceResize, reduceSurfaceWriteRaw;
    repeat case_match; done).
  - apply reduceEvent_spawns.
  - intros [= E]. pose proof (reduceDriverHook_spawns rng s conn req event timestamp sender payload Hq) as H.
    by rewrite E in H.
  - intros [= E]. pose proof (reduceSubsystem_spawns rng s conn req fid source kind timestamp payload Hq) as H.
    by rewrite E in H.
  - apply Hpure. rewrite (frameSpawned_silent reg spawns spawns_answers spawns_post Hq). by case_match.
  - apply Hpure. rewrite (spawnFailed_silent spawns spawns_answers). by case_match.
Qed.
End spawns.
