(* ===== verification/ClientFrames.v ===== *)
(** * client/state: invariants of driver states

    A predicate on (command, driver state) that the methods of the registered
    drivers preserve holds of every frame in every reachable state: the reducer
    stores only driver states that its driver made from states of the same
    frame, or from those of the frame it was forked from.  [DriverInvariant] is
    what a set of drivers has to show. *)

From S2P Require Import Prelude GoStd ClientView ClientState ClientReduce ClientInv ClientGraph ClientSteps.
Open Scope Z_scope.

Section frames.
Context `{T : ClientTypes}.

(** [P cmd ds]: [ds] is a proper driver state for a frame running [cmd]. *)
Class DriverInvariant (reg : Registry) (P : string -> DriverState -> Prop) : Prop := {
  di_new cmd drv now : GetDriver reg cmd = Some drv -> P cmd (Driver_NewState drv now);
  di_step cmd drv ds ctx ev :
    GetDriver reg cmd = Some drv -> P cmd ds -> P cmd (Driver_Step drv ds ctx ev).1.1;
  di_create cmd drv planner ds sid project command options ds' launch :
    GetDriver reg cmd = Some drv -> Driver_CreateSessionPlanner drv = Some planner ->
    P cmd ds -> PrepareCreate planner ds sid project command options = inl (ds', launch) ->
    P cmd ds';
  di_start_dir cmd cmd' drv wp ds dir :
    GetDriver reg cmd' = Some drv -> Driver_StartDirAware drv = Some wp ->
    P cmd ds -> P cmd (WithStartDir wp ds dir);
  di_fork cmd drv fk ds now :
    GetDriver reg cmd = Some drv -> Driver_Forkable drv = Some fk ->
    P cmd ds -> P cmd (ForkChildState fk ds now);
  di_boot cmd drv boot ds ctx now :
    GetDriver reg cmd = Some drv -> Driver_BootstrapSessionStart drv = Some boot ->
    P cmd ds -> P cmd (boot ds ctx now).1;
}.

Context (reg : Registry) (idAt : nat -> string) (json : Json).
Context (P : string -> DriverState -> Prop) `{HP : !DriverInvariant reg P}.

Definition frame_ok (f : SessionFrame) : Prop := P (Frame_Command f) (Frame_Driver f).
(** A session without frames is run by its own command and driver state. *)
Definition session_ok (sess : Session) : Prop :=
  Forall frame_ok (Session_Frames sess) /\ P (Session_Command sess) (Session_Driver sess).
Definition frames_ok (s : State) : Prop :=
  ∀ sid sess, Sessions s !! sid = Some sess -> session_ok sess.

Lemma frames_ok_sessions s s' : Sessions s' = Sessions s -> frames_ok s -> frames_ok s'.
Proof. intros E H sid sess. rewrite E. apply H. Qed.

Lemma frames_ok_insert s s' sid sess :
  Sessions s' = <[sid := sess]> (Sessions s) -> frames_ok s -> session_ok sess -> frames_ok s'.
Proof.
  intros E H Hs sid' sess'. rewrite E, lookup_insert_Some. intros [[_ <-]|[_ Hl]]; [done|].
  by eapply H.
Qed.

(** Storing a session with other frames but the same command and state. *)
Lemma frames_ok_update s s' sid sess sess' :
  Sessions s' = <[sid := sess']> (Sessions s) -> frames_ok s -> Sessions s !! sid = Some sess ->
  Session_Command sess' = Session_Command sess -> Session_Driver sess' = Session_Driver sess ->
  (Forall frame_ok (Session_Frames sess) -> Forall frame_ok (Session_Frames sess')) -> frames_ok s'.
Proof.
  intros E H Hl Hc Hd Hf. eapply frames_ok_insert; [exact E|done|].
  destruct (H _ _ Hl) as [H1 H2]. split; [auto|by rewrite Hc, Hd].
Qed.

Lemma frames_ok_delete s s' sid :
  Sessions s' = delete sid (Sessions s) -> frames_ok s -> frames_ok s'.
Proof. intros E H sid' sess'. rewrite E. intros [_ ?]%lookup_delete_Some. by eapply H. Qed.

(** Changing a frame's bookkeeping keeps its command and driver state. *)
Lemma alter_frames_ok l idx f :
  (∀ x, frame_ok x -> frame_ok (f x)) -> Forall frame_ok l -> Forall frame_ok (alter f idx l).
Proof.
  intros Hf Hl. apply Forall_lookup. intros i x Hi. rewrite Forall_lookup in Hl.
  destruct (decide (i = idx)) as [->|Hne].
  - rewrite list_lookup_alter_eq in Hi. apply fmap_Some in Hi as (y & Hy & ->). eauto.
  - rewrite list_lookup_alter_ne in Hi by done. eauto.
Qed.

(** ** Driver steps *)

Lemma stepped_ok frame drv now isRoot ev :
  GetDriver reg (Frame_Command frame) = Some drv -> frame_ok frame ->
  P (Frame_Command frame) (stepped drv now frame isRoot ev).
Proof.
  intros Hd Hf. unfold stepped. apply (di_step _ _ _ _ _ Hd). unfold driverOf.
  unfold frame_ok in Hf. destruct (Frame_Driver frame) eqn:E; [done|by apply di_new].
Qed.

Lemma stepDriver_ok s fid ev s' effs :
  frames_ok s -> stepDriver reg s fid ev = Some (s', effs) -> frames_ok s'.
Proof.
  intros H E.
  destruct (stepDriver_inv _ _ _ _ _ _ E) as (sid & sess & idx & frame & drv & Hf & Hi & _ & Hd).
  destruct (stepDriver_sessions _ _ _ _ _ _ _ _ _ _ _ E Hf Hi Hd) as [_ Es].
  destruct (findFrame_Some _ _ _ _ _ Hf) as [Hl _].
  eapply frames_ok_update; [exact Es|done..|]. cbn [Session_Frames]. intros Hfs.
  apply Forall_insert; [done|]. apply (stepped_ok _ _ _ _ _ Hd). by eapply Forall_lookup_1.
Qed.

Lemma stepDriver_default_ok s fid ev :
  frames_ok s -> frames_ok (default (s, []) (stepDriver reg s fid ev)).1.
Proof.
  intros H. destruct (stepDriver reg s fid ev) as [[s' effs]|] eqn:E; [|done].
  by eapply stepDriver_ok.
Qed.

Lemma bootstrap_ok s fid s' effs :
  frames_ok s -> bootstrapDriverSessionStart reg s fid = Some (s', effs) -> frames_ok s'.
Proof.
  intros H. unfold bootstrapDriverSessionStart.
  destruct (findFrame s fid) as [[[sid sess] idx]|] eqn:Ef; [|done].
  destruct (negb _); [done|]. destruct (Session_Frames sess !! idx) as [frame|] eqn:Ei; [|done].
  destruct (GetDriver reg _) as [drv|] eqn:Hd; [|done].
  destruct (Driver_BootstrapSessionStart drv) as [bs|] eqn:Hb; [|done].
  apply findFrame_Some in Ef as [Hl _].
  assert (frame_ok frame) as Hf by (eapply Forall_lookup_1; [by eapply (H sid)|done]).
  pose proof (di_boot _ _ _ _ (frameContext frame true) (Now s) Hd Hb Hf) as Hb'.
  destruct (bs _ _ _) as [ds raw]. intros E%(inj Some). apply (f_equal fst) in E. cbn [fst] in E, Hb'.
  subst s'. eapply frames_ok_sessions; [apply (proj2 (postProcessAll_rest sid fid raw _))|].
  eapply frames_ok_update; [reflexivity|done..|]. cbn [Session_Frames]. intros Hfs.
  apply Forall_insert; [done|exact Hb'].
Qed.

Lemma stepSession_ok makeEv acc sid :
  frames_ok (st_state acc) -> frames_ok (st_state (stepSession reg makeEv acc sid)).
Proof.
  intros H. unfold stepSession. destruct (Sessions _ !! sid) as [sess|]; [|done].
  destruct (rootFrame sess) as [frame|]; [|done]. destruct (GetDriver reg _); [|done].
  destruct (stepDriver reg _ _ _) as [[s' effs]|] eqn:E; [|done]. by eapply stepDriver_ok.
Qed.

Lemma stepActiveSessions_ok makeEv s :
  frames_ok s -> frames_ok (st_state (stepActiveSessions reg makeEv s)).
Proof.
  unfold stepActiveSessions. generalize (sort.Strings (map_to_list (Sessions s)).*1). intros l H.
  assert (∀ acc, frames_ok (st_state acc) ->
    frames_ok (st_state (fold_left (stepSession reg makeEv) l acc))) as Hl.
  { induction l as [|sid l IH]; intros acc Ha; [done|]. simpl. by apply IH, stepSession_ok. }
  by apply Hl.
Qed.

(** ** New frames *)

Lemma prepareSessionDriver_ok s drv sid project command options ds launch :
  GetDriver reg command = Some drv ->
  prepareSessionDriver s drv sid project command options = inl (ds, launch) -> P command ds.
Proof.
  intros Hd. unfold prepareSessionDriver.
  destruct (Driver_CreateSessionPlanner drv) as [pl|] eqn:Hp.
  - by apply (di_create _ _ _ _ _ _ _ _ _ _ Hd Hp), di_new.
  - intros [= <- _]. by apply di_new.
Qed.

Lemma inheritStartDir_ok rootDrv cmd cmd' drv rootState ds :
  GetDriver reg cmd' = Some drv -> P cmd ds ->
  P cmd (inheritStartDir rootDrv (Some drv) rootState ds).
Proof.
  intros Hd H. unfold inheritStartDir. destruct (rootDrv ≫= _) as [rp|]; [|done].
  destruct (String.eqb _ _); [done|]. simpl.
  destruct (Driver_StartDirAware drv) as [wp|] eqn:Hw; [|done]. by eapply di_start_dir.
Qed.

Lemma pushDriverInternal_ok rng s sid project cmd opts input conn req s' effs rng' :
  frames_ok s ->
  pushDriverInternal reg idAt rng s sid project cmd opts input conn req = (inl (s', effs), rng') ->
  frames_ok s'.
Proof.
  intros H. unfold pushDriverInternal, allocFrameID.
  destruct (Sessions s !! sid) as [sess|] eqn:Hl; [|done].
  destruct (GetDriver reg _) as [drv|] eqn:Hd; [|done].
  destruct (prepareSessionDriver _ _ _ _ _ _) as [[ds cl]|err] eqn:Hp; [|done].
  destruct (Driver_PrepareLaunch drv _ _ _ _ _ _) as [launch|err]; [|done].
  intros [E _]%pair_equal_spec. apply (inj inl) in E. apply (f_equal fst) in E. cbn [fst] in E.
  assert (Session_Command (pushMRU sess (Session_HeadFrameID sess)) = Session_Command sess /\
    Session_Driver (pushMRU sess (Session_HeadFrameID sess)) = Session_Driver sess) as [Ec Ed]
    by (unfold pushMRU; clear; destruct (String.eqb _ _); split; reflexivity).
  eapply frames_ok_update; [by rewrite <- E|done|done|exact Ec|exact Ed|]. cbn [Session_Frames].
  intros Hfs. apply Forall_app. split; [done|]. constructor; [|constructor].
  unfold frame_ok. cbn [Frame_Command Frame_Driver].
  pose proof (prepareSessionDriver_ok _ _ _ _ _ _ _ _ Hd Hp) as Hds.
  destruct (rootFrame sess); [|done]. by eapply inheritStartDir_ok.
Qed.

Lemma resolvePush_ok raw : forall rng s,
  frames_ok s -> frames_ok (resolvePushDriverEffects reg idAt rng s raw).1.1.
Proof.
  induction raw as [|eff raw IH]; intros rng s H; [done|].
  assert (frames_ok (let '(s, effs, rng) := resolvePushDriverEffects reg idAt rng s raw in
    (s, eff :: effs, rng)).1.1) as Hpass.
  { specialize (IH rng s H). by destruct (resolvePushDriverEffects reg idAt rng s raw) as [[? ?] ?]. }
  destruct eff; try exact Hpass. clear Hpass. simpl.
  destruct (pushDriverInternal _ _ _ _ _ _ _ _ _ _ _) as [[[s1 effs]|err] rng1] eqn:E.
  - apply (pushDriverInternal_ok _ _ _ _ _ _ _ _ _ _ _ _ H) in E. specialize (IH rng1 s1 E).
    by destruct (resolvePushDriverEffects reg idAt rng1 s1 raw) as [[? ?] ?].
  - by apply IH.
Qed.

Lemma reduceCreateSession_ok rng s conn req p :
  frames_ok s -> frames_ok (reduceCreateSession reg idAt rng s conn req p).1.1.
Proof.
  intros H. unfold reduceCreateSession, allocFrameID, allocSessionID.
  destruct (String.eqb _ ""); [done|]. destruct (GetDriver reg _) as [drv|] eqn:Hd; [|done].
  destruct (prepareSessionDriver _ _ _ _ _ _) as [[ds cl]|err] eqn:Hp; [|done].
  destruct (Driver_PrepareLaunch drv _ _ _ _ _ _) as [launch|err]; [|done].
  eapply frames_ok_insert; [reflexivity|done|].
  pose proof (prepareSessionDriver_ok _ _ _ _ _ _ _ _ Hd Hp).
  split; [|done]. by constructor.
Qed.

Lemma reducePushDriver_ok rng s conn req p :
  frames_ok s -> frames_ok (reducePushDriver reg idAt rng s conn req p).1.1.
Proof.
  intros H. unfold reducePushDriver. destruct (String.eqb _ ""); [done|].
  destruct (Sessions s !! _); [|done].
  destruct (pushDriverInternal _ _ _ _ _ _ _ _ _ _ _) as [[[s' effs]|err] rng'] eqn:E; [|done].
  by eapply pushDriverInternal_ok.
Qed.

Lemma rootFrame_ok sess rootF : rootFrame sess = Some rootF -> session_ok sess -> frame_ok rootF.
Proof.
  intros Hr [Hf Hs]. unfold rootFrame in Hr. destruct (Session_Frames sess) as [|f l].
  - case_match; simplify_eq/=. done.
  - simplify_eq/=. by apply Forall_cons in Hf as [? _].
Qed.

Lemma reduceForkSession_ok rng s conn req p :
  frames_ok s -> frames_ok (reduceForkSession reg idAt rng s conn req p).1.1.
Proof.
  intros H. unfold reduceForkSession. destruct (String.eqb _ ""); [done|].
  destruct (Sessions s !! _) as [sess|] eqn:Hl; [|done].
  destruct (rootFrame sess) as [rootF|] eqn:Hr; [|done].
  unfold resolveForkDrv. destruct (GetDriver reg (Frame_Command rootF)) as [rootDrv|] eqn:Hd; [|done].
  destruct (Driver_Forkable rootDrv) as [fk|] eqn:Hfk; [|done].
  destruct (ForkCommand _ _ _) as [forkCmd ok]. destruct (negb ok); [done|].
  destruct (GetDriver reg (resolveCreateCommand s forkCmd)) as [forkDrv|] eqn:Hfd; [|done].
  unfold buildForkSession, spawnForkSession, allocFrameID, allocSessionID.
  destruct (Driver_PrepareLaunch forkDrv _ _ _ _ _ _) as [launch|err]; [|done].
  assert (P (Frame_Command rootF) (inheritStartDir (Some rootDrv) (Some forkDrv) (Frame_Driver rootF)
    (ForkChildState fk (Frame_Driver rootF) (Now s)))) as Hds.
  { eapply inheritStartDir_ok; [exact Hfd|]. apply (di_fork _ _ _ _ _ Hd Hfk).
    by apply (rootFrame_ok sess), (H _ _ Hl). }
  eapply frames_ok_insert; [reflexivity|done|]. split; [|exact Hds]. by constructor.
Qed.

Lemma evictedSession_ok sess idx fid : session_ok sess -> session_ok (evictedSession sess idx fid).
Proof.
  intros [H1 H2]. assert (session_ok (removeFrameByIndex sess idx)) as Hr.
  { split; [|done]. unfold removeFrameByIndex. cbn [Session_Frames]. apply Forall_app.
    split; [by apply Forall_take|by apply Forall_drop]. }
  unfold evictedSession, popMRU. repeat case_match; simplify_eq/=; exact Hr.
Qed.

Lemma evictFrame_ok s fid kill :
  frames_ok s -> frames_ok (default (s, []) (evictFrame s fid kill)).1.
Proof.
  intros H. unfold evictFrame.
  destruct (findFrame s fid) as [[[sid sess] idx]|] eqn:Ef; [|done].
  apply findFrame_Some in Ef as [Hl _]. destruct (idx =? 0)%nat.
  - eapply frames_ok_delete; [reflexivity|done].
  - cbn [default from_option Datatypes.id]. rewrite evictChildFrame_eq.
    eapply frames_ok_insert; [reflexivity|done|]. by apply evictedSession_ok, (H sid).
Qed.

Lemma reduceFrameSpawned_ok s sid fid sub dir name conn req :
  frames_ok s -> frames_ok (reduceFrameSpawned reg s sid fid sub dir name conn req).1.
Proof.
  intros H. unfold reduceFrameSpawned. destruct (Sessions s !! sid) as [sess|] eqn:Hl; [|done].
  destruct (findFrameIndex sess fid) as [idx|]; [|done].
  assert (frames_ok (recordSubsystem s sid sess idx sub).1) as H1.
  { unfold recordSubsystem. destruct (_ && _); [|done].
    eapply frames_ok_update; [reflexivity|done..|]. by apply alter_frames_ok. }
  destruct (recordSubsystem s sid sess idx sub) as [s1 subID]. cbn [fst] in H1.
  assert (frames_ok (resolveWorktree reg s1 fid dir name)) as H2.
  { unfold resolveWorktree. destruct (String.eqb dir ""); [done|].
    destruct (stepDriver reg s1 fid _) as [[? ?]|] eqn:E; [by eapply stepDriver_ok|done]. }
  set (s2 := resolveWorktree reg s1 fid dir name) in *.
  assert (frames_ok (if (idx =? 0)%nat then default (s2, []) (bootstrapDriverSessionStart reg s2 fid)
    else (s2, [])).1) as H3.
  { destruct (idx =? 0)%nat; [|done].
    destruct (bootstrapDriverSessionStart reg s2 fid) as [[? ?]|] eqn:E; [by eapply bootstrap_ok|done]. }
  cbv zeta. by destruct (if (idx =? 0)%nat then _ else _) as [s3 effs].
Qed.

Lemma reduceSetHeadFrame_ok s conn req p :
  frames_ok s -> frames_ok (reduceSetHeadFrame s conn req p).1.
Proof.
  intros H. unfold reduceSetHeadFrame. destruct (Sessions s !! _) as [sess|] eqn:Hl; [|done].
  destruct (findFrameIndex sess _); [|done]. destruct (String.eqb _ _); [done|].
  eapply frames_ok_insert; [reflexivity|done|]. destruct (H _ _ Hl).
  unfold pushMRU. case_match; by split.
Qed.

(** ** Every event *)

Lemma RegisterEvent_ok {A} (zero : A) unm h rng s conn req payload :
  frames_ok s -> (∀ p, frames_ok (h rng s conn req p).1.1) ->
  frames_ok (RegisterEvent zero unm h rng s conn req payload).1.1.
Proof.
  intros H Hh. unfold RegisterEvent. destruct (String.eqb payload ""); [apply Hh|].
  destruct (unm payload); [apply Hh|done].
Qed.

Lemma pureHandler_ok {A} (h : State -> ConnID -> string -> A -> State * list Effect) rng s conn req p :
  frames_ok (h s conn req p).1 -> frames_ok (pureHandler h rng s conn req p).1.1.
Proof. unfold pureHandler. by destruct (h s conn req p). Qed.

Lemma reduceEvent_ok rng s conn req event payload r :
  frames_ok s -> reduceEvent reg idAt json rng s conn req event payload = Some r ->
  frames_ok r.1.1.
Proof.
  intros H. unfold reduceEvent.
  destruct (eventHandlers reg idAt json event) as [fn|] eqn:E; [|done]. intros [= <-].
  unfold eventHandlers in E.
  repeat (destruct (String.eqb event _);
    [injection E as <-; apply RegisterEvent_ok; [done|]; intros p|]); [..|done].
  - by apply reduceCreateSession_ok.
  - by apply reducePushDriver_ok.
  - by apply reduceForkSession_ok.
  - apply pureHandler_ok. unfold reduceStopSession. destruct (Sessions s !! _); [|done].
    eapply frames_ok_delete; [reflexivity|done].
  - done.
  - done.
  - by apply pureHandler_ok, reduceSetHeadFrame_ok.
Qed.

Lemma reduceDriverHook_ok rng s conn req event ts sender payload :
  frames_ok s -> frames_ok (reduceDriverHook reg idAt rng s conn req event ts sender payload).1.1.
Proof.
  intros H. unfold reduceDriverHook. destruct (String.eqb _ _); [done|].
  destruct (findFrame s sender); [|done].
  destruct (stepDriver reg s sender _) as [[s1 raw]|] eqn:E; [|done].
  apply (stepDriver_ok _ _ _ _ _ H) in E. pose proof (resolvePush_ok raw rng s1 E) as Hr.
  by destruct (resolvePushDriverEffects reg idAt rng s1 raw) as [[s2 effs] rng2].
Qed.

Lemma reduceSubsystem_ok rng s conn req fid source kind ts payload :
  frames_ok s -> frames_ok (reduceSubsystem reg idAt rng s conn req fid source kind ts payload).1.1.
Proof.
  intros H. unfold reduceSubsystem. destruct (String.eqb _ _); [done|].
  destruct (findFrame s fid) as [[[sid sess] idx]|] eqn:Ef; [|done].
  apply findFrame_Some in Ef as [Hl _].
  assert (frames_ok (updateTarget s sid sess idx (Sub_TargetID payload))) as H1.
  { unfold updateTarget. destruct (_ && _); [|done].
    eapply frames_ok_update; [reflexivity|done..|]. by apply alter_frames_ok. }
  destruct (stepDriver reg _ fid _) as [[s1 raw]|] eqn:E; [|done].
  apply (stepDriver_ok _ _ _ _ _ H1) in E. pose proof (resolvePush_ok raw rng s1 E) as Hr.
  by destruct (resolvePushDriverEffects reg idAt rng s1 raw) as [[s2 effs] rng2].
Qed.

Lemma reduceFrameCommandExited_ok s fid code :
  frames_ok s -> frames_ok (reduceFrameCommandExited reg s fid code).1.
Proof.
  intros H. unfold reduceFrameCommandExited.
  destruct (findFrame s fid) as [[[sid sess] idx]|]; [|done].
  destruct (isIntentionalExit code); [by apply evictFrame_ok|].
  destruct (Session_Frames sess !! idx); [|done].
  match goal with |- context [if ?b then (s, []) else _] => destruct b end; [done|].
  pose proof (stepDriver_default_ok s fid (DEvCommandExited code (Now s)) H) as Hs.
  by destruct (default _ _) as [s1 effs].
Qed.

Lemma Reduce_frames_ok rng s ev s' effs rng' :
  frames_ok s -> Reduce reg idAt json rng s ev = Some (s', effs, rng') -> frames_ok s'.
Proof.
  intros H. assert (∀ r : State * list Effect, frames_ok r.1 ->
    Some (r.1, r.2, rng) = Some (s', effs, rng') -> frames_ok s') as Hpure.
  { by intros r Hr [= <- _ _]. }
  assert (∀ r : State * list Effect, Sessions r.1 = Sessions s ->
    Some (r.1, r.2, rng) = Some (s', effs, rng') -> frames_ok s') as Hsame.
  { intros r Hr [= <- _ _]. by eapply frames_ok_sessions. }
  destruct ev; cbn [Reduce]; try (apply Hsame;
    unfold reduceUnsubscribe, reduceSurfaceReadText, reduceSurfaceSendText, reduceSurfaceSendKey,
      reduceSurfaceResize, reduceSurfaceWriteRaw, reduceConnOpened, reduceSurfaceSubscribe,
      reduceSurfaceUnsubscribe, reduceConnClosed; repeat case_match; done).
  - by intros E%reduceEvent_ok.
  - intros [= E]. pose proof (reduceDriverHook_ok rng s conn req event timestamp sender payload H) as Hr.
    by rewrite E in Hr.
  - intros [= E].
    pose proof (reduceSubsystem_ok rng s conn req fid source kind timestamp payload H) as Hr.
    by rewrite E in Hr.
  - apply Hpure. unfold reduceTick. cbn [fst]. by apply stepActiveSessions_ok.
  - apply Hpure. unfold reduceFileChanged. destruct (findFrame s fid); [|done].
    destruct (stepDriver reg _ _ _) as [[s1 ?]|] eqn:E; [by eapply stepDriver_ok|done].
  - apply Hpure. unfold reduceJobResult. destruct (Jobs s !! job); [|done].
    destruct (stepDriver reg _ _ _) as [[s1 ?]|] eqn:E; [|done]. by eapply stepDriver_ok in E.
  - apply Hpure. by apply evictFrame_ok.
  - by apply Hpure, reduceFrameCommandExited_ok.
  - by apply Hpure, reduceFrameSpawned_ok.
  - apply Hpure. unfold reduceSpawnFailed. pose proof (evictFrame_ok s fid false H) as He.
    destruct (default _ _) as [s1 effs1]. by case_match.
  - apply Hpure. unfold reduceFrameOsc. repeat case_match; try done;
      match goal with E : default _ _ = (?s1, _) |- _ =>
        apply (f_equal fst) in E; cbn [fst] in E; cbn [fst]; rewrite <- E;
        by apply stepDriver_default_ok end.
  - apply Hpure. unfold reduceFramePrompt. destruct (findFrame _ fid); [|done].
    pose proof (stepDriver_default_ok (s <| Now := now |>) fid (DEvFramePrompt phase exitCode now)
      H) as Hs. by destruct (default _ _).
Qed.

(** The invariant of every reachable state. *)
Lemma run_frames_ok evs : forall rng s s' effs rng',
  frames_ok s -> run reg idAt json rng s evs = Some (s', effs, rng') -> frames_ok s'.
Proof.
  induction evs as [|ev evs IH]; intros rng s s' effs rng' H; [by intros [= <- _ _]|].
  intros (s1 & effs1 & rng1 & effs2 & E1 & E2 & _)%run_cons.
  eapply IH; [|exact E2]. by eapply Reduce_frames_ok.
Qed.

Lemma frames_ok_New : frames_ok New.
Proof. intros sid sess H. cbn in H. by rewrite lookup_empty in H. Qed.
End frames.
