(* ===== verification/ClientProps.v ===== *)
(** * client/state: the properties

    The theorems about the session reducer, for every driver registry, id
    supply and JSON decoder; the witnesses evaluate them on a small registry
    with one driver. *)

From S2P Require Import Prelude GoStd ClientView ClientState ClientReduce ClientInv ClientGraph ClientSteps ClientRollback.
Open Scope Z_scope.

Section props.
Context `{T : ClientTypes}.
Context (reg : Registry) (idAt : nat -> string) (json : Json).

(** C2: the session graph stays well formed over any run of events, whatever
    the drivers do: every session is stored under its own id and has at least
    one frame, its frames have distinct non-empty ids that no other session
    uses, its head is one of its frames, it remembers at most 16 recently used
    frames, and ids not drawn yet are unused.  Hypothesis: crypto/rand ids do
    not repeat. *)
Theorem run_well_formed evs rng s s' effs rng' :
  supply_ok idAt -> wf_graph idAt (rng, shapes s) ->
  run reg idAt json rng s evs = Some (s', effs, rng') -> wf_graph idAt (rng', shapes s').
Proof. apply run_wf. Qed.

(** C17: each event refines the abstract session graph: seen through its ids,
    heads and recently used lists, the reducer only creates a one-frame
    session, pushes a frame, moves a head to an existing frame, or evicts a
    session or a child frame. *)
Theorem Reduce_refines_graph rng s ev s' effs rng' :
  Reduce reg idAt json rng s ev = Some (s', effs, rng') ->
  rtc (graph_step idAt) (rng, shapes s) (rng', shapes s').
Proof. intros H. apply (Reduce_steps _ _ _ _ _ _ _ _ _ H). Qed.

(** C15: no frame leaves the graph without its teardown: if an event removes a
    frame, its effects release the frame's sandbox, unregister it and unwatch
    its file, and also kill its window unless the event says that the window
    is already gone. *)
Theorem evicted_frame_torn_down rng s ev s' effs rng' fid :
  supply_ok idAt -> wf_graph idAt (rng, shapes s) ->
  Reduce reg idAt json rng s ev = Some (s', effs, rng') ->
  has_frame (shapes s) fid -> ¬ has_frame (shapes s') fid ->
  EffReleaseFrameSandbox fid ∈ effs /\ EffUnregisterFrame fid ∈ effs /\
  EffUnwatchFile fid ∈ effs /\ (window_gone ev = false -> EffKillFrame fid ∈ effs).
Proof.
  intros Hid Hwf E Hf Hno. pose proof (Reduce_teardown _ _ _ _ _ _ _ _ _ _ Hid Hwf E Hf Hno) as H.
  unfold frameTeardownEffects in H.
  split_and!; [..|intros Hw; rewrite Hw in H]; apply H; set_solver.
Qed.

(** C39: a client command that fails changes nothing: when its effects contain
    an error reply, the state is unchanged and the reply is the only effect. *)
Theorem command_error_atomic rng s ev conn req s' effs rng' :
  command ev = Some (conn, req) -> Reduce reg idAt json rng s ev = Some (s', effs, rng') ->
  existsb isError effs = true -> s' = s /\ length effs = 1%nat.
Proof.
  intros Hc E He. destruct (Reduce_replied _ _ _ _ _ _ _ _ _ _ _ Hc E) as [(-> & ? & ? & ->)|[_ H]]; [done|].
  congruence.
Qed.

(** A hook or subsystem event from a connected client is answered exactly
    once, whatever frames its driver pushes, and no push request reaches the
    runtime, which could not perform it.  Hypothesis: drivers send no replies
    of their own. *)
Lemma driver_event_replied rng s ev conn req s' effs rng' :
  quiet_drivers reg -> conn ≠ 0 ->
  (∃ event ts sender payload, ev = EvDriverEvent conn req event ts sender payload) \/
  (∃ fid source kind ts payload, ev = EvSubsystem conn req fid source kind ts payload) ->
  Reduce reg idAt json rng s ev = Some (s', effs, rng') ->
  List.filter (λ a, negb (a.1 =? 0)) (omap answers effs) = [(conn, req)] /\
  existsb isPush effs = false.
Proof.
  intros Hq Hc Hev. assert (∀ code msg, List.filter (λ a : Z * string, negb (a.1 =? 0))
    (omap answers [errResp conn req code msg]) = [(conn, req)]) as Herr.
  { intros. simpl. apply Z.eqb_neq in Hc. by rewrite Hc. }
  destruct Hev as [(event & ts & sender & payload & ->)|(fid & source & kind & ts & payload & ->)];
    cbn [Reduce]; intros E%(inj Some).
  - unfold reduceDriverHook in E. destruct (String.eqb _ _); [by injection E as _ <- _|].
    destruct (findFrame s sender); [|by injection E as _ <- _].
    destruct (stepDriver reg _ _ _) as [[s1 raw]|] eqn:Es; [|by injection E as _ <- _].
    apply stepDriver_quiet in Es; [|done].
    pose proof (driver_event_reply reg idAt rng s1 conn req raw Es Hc) as H.
    destruct (resolvePushDriverEffects _ _ _ _ _) as [[s2 effs2] rng2]. by injection E as _ <- _.
  - unfold reduceSubsystem in E. destruct (String.eqb _ _); [by injection E as _ <- _|].
    destruct (findFrame s fid) as [[[sid sess] idx]|]; [|by injection E as _ <- _].
    destruct (stepDriver reg _ _ _) as [[s1 raw]|] eqn:Es; [|by injection E as _ <- _].
    apply stepDriver_quiet in Es; [|done].
    pose proof (driver_event_reply reg idAt rng s1 conn req raw Es Hc) as H.
    destruct (resolvePushDriverEffects _ _ _ _ _) as [[s2 effs2] rng2]. by injection E as _ <- _.
Qed.

(** A tick steps the root driver of each session exactly once.  The event
    carries whether a client watches the session, the root's project and the
    session's position among the sessions with a driver, in the order of their
    ids; nothing else of the session changes. *)
Theorem tick_steps_each_root s now n sid sess f rest drv :
  wf_shapes (shapes s) -> Z.of_nat (size (Sessions s)) < 2 ^ 64 ->
  Sessions s !! sid = Some sess -> Session_Frames sess = f :: rest ->
  GetDriver reg (Frame_Command f) = Some drv ->
  ∃ seq : nat,
    List.filter (hasDriver reg s) (sort.Strings ((map_to_list (Sessions s)).*1)) !! seq = Some sid /\
    Sessions (reduceTick reg s now n).1 !! sid = Some (sess <| Session_Frames :=
      (f <| Frame_Driver := stepped drv now f true
              (DEvTick now (sessionWatched s sid) (Frame_Project f) n (Z.of_nat seq)) |>) :: rest |>).
Proof.
  intros Hwf Hsz Hl Hf Hd. unfold reduceTick. cbn [fst].
  destruct (steps_member reg (λ seq _ sess watched, tickEvent now n seq sess watched)
    (sort.Strings ((map_to_list (Sessions s)).*1)) (mkStepping (s <| Now := now |>) [] false 0)
    sid sess f rest drv) as (pos & Hpos & HE); [done| | |done| |done..|].
  - rewrite sort.Strings_Permutation. apply NoDup_fst_map_to_list.
  - rewrite sort.Strings_Permutation. apply list_elem_of_fmap. exists (sid, sess).
    split; [done|]. by apply elem_of_map_to_list.
  - rewrite sort.Strings_Permutation, length_fmap, length_map_to_list. cbn [st_calls]. lia.
  - exists pos. split; [exact Hpos|]. unfold stepActiveSessions. cbn [Sessions].
    unfold tickEvent, rootFrame in HE. rewrite Hf in HE. exact HE.
Qed.

(** The jobs a driver step starts get consecutive ids after the last one
    handed out, exactly those are registered, each for the stepped frame, and
    no other registration changes (as long as the 64-bit counter does not wrap
    around). *)
Theorem started_jobs_registered s fid ev s' effs :
  stepDriver reg s fid ev = Some (s', effs) ->
  0 <= NextJobID s -> NextJobID s + Z.of_nat (length effs) < 2 ^ 64 ->
  ∃ sid sess idx, findFrame s fid = Some (sid, sess, idx) /\
    startedJobs effs = seqZ (NextJobID s + 1) (Z.of_nat (length (startedJobs effs))) /\
    NextJobID s' = NextJobID s + Z.of_nat (length (startedJobs effs)) /\
    ∀ job, Jobs s' !! job =
      if bool_decide (NextJobID s < job <= NextJobID s') then Some (mkJobMeta sid fid (Now s))
      else Jobs s !! job.
Proof.
  intros E H0 H1. destruct (stepDriver_jobs _ _ _ _ _ _ E H0 H1) as (sid & sess & idx & H2 & H3 & H4 & H5).
  by exists sid, sess, idx.
Qed.

(** The result of a job is delivered at most once: delivering it again is
    a no-op, even if the first delivery made the driver start other jobs. *)
Theorem job_result_once s job result err result' err' s1 effs1 :
  jobs_ok s -> reduceJobResult reg s job result err = (s1, effs1) ->
  NextJobID s + Z.of_nat (length effs1) < 2 ^ 64 ->
  reduceJobResult reg s1 job result' err' = (s1, []).
Proof.
  intros Hok E Hlen. pose proof (reduceJobResult_consumes _ _ _ _ _ _ _ Hok E Hlen) as H.
  unfold reduceJobResult. by rewrite H.
Qed.

(** On subscribe, unsubscribe and disconnect, the relays the runtime is
    told to start and stop are those of the recorded subscriptions: performing
    the effects in any order on the relays of the old state gives the relays of
    the new state. *)
Theorem surface_relays_match rng s ev s' effs rng' effs' conn sid :
  surface_event ev = true -> Reduce reg idAt json rng s ev = Some (s', effs, rng') ->
  effs' ≡ₚ effs ->
  fold_left relay_apply effs' (subscribed (SurfaceSubs s)) conn sid
  = subscribed (SurfaceSubs s') conn sid.
Proof.
  destruct ev; try done; intros _; cbn [Reduce]; intros [= <- <- _].
  - apply reduceSurfaceSubscribe_relays.
  - apply reduceSurfaceUnsubscribe_relays.
  - apply reduceConnClosed_relays.
Qed.

(** Over any run, a connection with surface subscriptions has between one
    and eight of them. *)
Theorem surface_subscriptions_bounded evs rng s s' effs rng' :
  subs_ok (SurfaceSubs s) -> run reg idAt json rng s evs = Some (s', effs, rng') ->
  ∀ conn inner, SurfaceSubs s' !! conn = Some inner -> (1 <= size inner <= surfaceSubCap)%nat.
Proof. intros H E. apply (proj2 (run_steps _ _ _ _ _ _ _ _ _ E) H). Qed.

(** Drivers are isolated: a driver step changes no session, frame or
    connection data other than the state of that driver and the job table. *)
Theorem stepDriver_isolated s fid ev s' effs :
  stepDriver reg s fid ev = Some (s', effs) ->
  same_rest s s' /\ bare <$> Sessions s' = bare <$> Sessions s /\
  ∃ sid sess idx, findFrame s fid = Some (sid, sess, idx) /\
  ∀ sid' idx' frame, frameAt s sid' idx' = Some frame ->
  ∃ ds, frameAt s' sid' idx' = Some (frame <| Frame_Driver := ds |>) /\
    ((sid', idx') ≠ (sid, idx) -> ds = Frame_Driver frame).
Proof. apply stepDriver_isolation. Qed.

(** C40: a failed spawn undoes the creation or fork of a session: after the
    failure of the spawn the command asked for, the state is the one before the
    command. *)
Theorem create_rolled_back rng s conn req name payload s1 effs1 rng1 sid fid err conn' req' s2 effs2 rng2 :
  supply_ok idAt -> wf_graph idAt (rng, shapes s) ->
  name = EventCreateSession \/ name = EventForkSession ->
  Reduce reg idAt json rng s (EvEvent conn req name payload) = Some (s1, effs1, rng1) ->
  (sid, fid) ∈ omap spawns effs1 ->
  Reduce reg idAt json rng1 s1 (EvSpawnFailed sid fid err conn' req') = Some (s2, effs2, rng2) ->
  s2 = s.
Proof.
  intros Hid Hwf Hname E Hin E2.
  assert (wf_shapes (shapes s1)) as Hwf1.
  { destruct (Reduce_steps _ _ _ _ _ _ _ _ _ E) as [H _]. by apply (graph_steps_wf _ _ _ Hid H Hwf). }
  assert (sid = idAt rng /\ added s s1 sid fid) as [-> Ha].
  { destruct Hname as [-> | ->]; [by eapply create_added|by eapply fork_added]. }
  cbn [Reduce] in E2. injection E2 as <- _ _. eapply spawn_failed_added; [done| |done].
  pose proof (wfg_fresh_sid _ _ Hwf rng ltac:(simpl; lia)) as Hno. simpl in Hno.
  unfold shapes in Hno. rewrite lookup_fmap in Hno. by apply fmap_None in Hno.
Qed.

(** A failed spawn undoes a pushed frame: the session has its frames and
    its head back, and nothing else has changed except the order in which
    frames were last used. *)
Theorem push_rolled_back rng s conn req payload s1 effs1 rng1 sid fid err conn' req' s2 effs2 rng2 :
  supply_ok idAt -> wf_graph idAt (rng, shapes s) ->
  Reduce reg idAt json rng s (EvEvent conn req EventPushDriver payload) = Some (s1, effs1, rng1) ->
  (sid, fid) ∈ omap spawns effs1 ->
  Reduce reg idAt json rng1 s1 (EvSpawnFailed sid fid err conn' req') = Some (s2, effs2, rng2) ->
  forgetMRU s2 = forgetMRU s.
Proof.
  intros Hid Hwf E Hin E2.
  assert (wf_shapes (shapes s1)) as Hwf1.
  { destruct (Reduce_steps _ _ _ _ _ _ _ _ _ E) as [H _]. by apply (graph_steps_wf _ _ _ Hid H Hwf). }
  destruct (reducePushDriver_pushed reg idAt json _ _ _ _ _ _ _ _ _ _ E Hin)
    as (sess & frame & Hl & Hfr & -> & ->).
  cbn [Reduce] in E2. injection E2 as <- _ _.
  apply (spawn_failed_pushed _ _ _ _ sess frame); [apply Hwf|done..].
Qed.

(** When the command of a frame exits, the frame is evicted exactly for
    the exit codes 0 (clean exit), 129, 130, 137 and 143 (hangup, interrupt,
    kill and termination); for any other code it is kept. *)
Theorem command_exit_policy s fid code :
  wf_shapes (shapes s) -> has_frame (shapes s) fid ->
  has_frame (shapes (reduceFrameCommandExited reg s fid code).1) fid
  <-> code ∉ [0; 129; 130; 137; 143].
Proof.
  intros Hwf Hf. assert (isIntentionalExit code = bool_decide (code ∈ [0; 129; 130; 137; 143])) as Hc.
  { unfold isIntentionalExit. apply eq_bool_prop_intro. rewrite bool_decide_spec, Is_true_true,
      !orb_true_iff, !Z.eqb_eq, !elem_of_cons, elem_of_nil. tauto. }
  destruct (decide (code ∈ [0; 129; 130; 137; 143])) as [Hin|Hin].
  - rewrite bool_decide_true in Hc by done.
    split; [by intros []%(commandExited_intentional _ _ _ _ Hwf Hc Hf)|done].
  - rewrite bool_decide_false in Hc by done.
    destruct (commandExited_abnormal reg s fid code Hc) as [-> _]. done.
Qed.

(** The search for a frame does not depend on the order in which the
    session map is iterated. *)
Theorem findFrame_any_order s fid l :
  wf_shapes (shapes s) -> l ≡ₚ map_to_list (Sessions s) -> findFrameIn l fid = findFrame s fid.
Proof.
  intros Hwf Hp. destruct (findFrameIn l fid) as [[[sid sess] idx]|] eqn:E.
  - apply findFrameIn_Some in E as [Hin Hi]. rewrite Hp, elem_of_map_to_list in Hin.
    symmetry. by apply findFrame_unique.
  - symmetry. apply findFrame_None. rewrite findFrameIn_None in E.
    intros (sid & sh & (sess & Hl & <-)%shapes_lookup & Hf).
    apply (E sid sess); [|done]. by rewrite Hp, elem_of_map_to_list.
Qed.

(** The head frame of a session of a well-formed graph is the frame its
    head id names, never a fallback. *)
Theorem headFrame_named s sid sess :
  wf_shapes (shapes s) -> Sessions s !! sid = Some sess ->
  ∃ f, headFrame sess = Some f /\ f ∈ Session_Frames sess /\ Frame_ID f = Session_HeadFrameID sess.
Proof.
  intros Hwf Hl. assert (shapes s !! sid = Some (shape sess)) as Hs by (apply shapes_lookup; eauto).
  destruct (wfm_shape _ Hwf _ _ Hs). by apply headFrame_in.
Qed.

(** The reducer panics only on a registered-event message whose name is
    not one of the seven registered ones. *)
Theorem Reduce_panics_iff rng s ev :
  Reduce reg idAt json rng s ev = None <->
  ∃ conn req name payload, ev = EvEvent conn req name payload /\ name ∉ registeredEvents.
Proof.
  split.
  - destruct ev; try done. cbn [Reduce]. unfold reduceEvent. intros H. eexists _, _, _, _. split; [done|].
    apply (eventHandlers_None reg idAt json). by destruct (eventHandlers reg idAt json event).
  - intros (conn & req & name & payload & -> & H%(eventHandlers_None reg idAt json)).
    cbn [Reduce]. unfold reduceEvent. by rewrite H.
Qed.
End props.

(** The names of session statuses are parsed back: a name is accepted with
    a status exactly when that status is one of the five defined ones and the
    name is the one it prints as. *)
Theorem status_round_trip name st :
  ParseStatus name = (st, true) <-> known_status st = true /\ Status_String st = name.
Proof.
  split; [by intros [? ?]%String_ParseStatus|]. intros [Hk <-]. by rewrite ParseStatus_String, Hk.
Qed.

(** ** An example: one driver that counts its steps *)

#[local] Instance exampleTypes : ClientTypes :=
  {| DState := Z; JobInput := unit; JobResult := unit; AnyValue := unit; Float64 := unit |}.

Definition exampleView : View :=
  mkView (mkCard "" [] (mkTag "" "" "") (mkTag "" "" "") "") "" [] [] false "" StatusIdle 0.

(** Counts up, starts a job on a tick, asks for a child frame on a hook, and
    is stopped ([-1]) by the exit of its command. *)
Definition exampleStep (ds : DriverState) (ctx : FrameContext) (ev : DriverEvent)
    : DriverState * list Effect * View :=
  match ev with
  | DEvCommandExited _ _ => (Some (-1), [], exampleView)
  | DEvTick _ _ _ _ _ => (Some (default 0 ds + 1), [EffStartJob 0 tt], exampleView)
  | DEvHook _ _ _ _ => (Some (default 0 ds + 1), [EffPushDriver "" "shell"], exampleView)
  | _ => (Some (default 0 ds + 1), [], exampleView)
  end.

Definition exampleDriver : Driver :=
  mkDriver "shell" "Shell" (λ _, Some 0) exampleStep
    (λ ds, if default 0 ds =? -1 then StatusStopped else StatusRunning)
    (λ ds _ project command opts _, inl (mkLaunchPlan command project project 0 opts
       LaunchSubsystemCLI (mkStreamLaunchOptions "" "" (mkResumeTarget "" "") "") ""))
    None None None None (λ _, exampleView)
    (λ ds, Some (if default 0 ds =? -1 then {["status"%string := "stopped"%string]} else ∅))
    (λ bag _, Some (if decide (bag !! "status"%string = Some "stopped"%string) then -1 else 0))
    None None.

Definition exampleRegistry : Registry := mkRegistry {["shell"%string := exampleDriver]} None.

(** The id of the [n]-th draw: [n + 1] letters. *)
Fixpoint exampleId (n : nat) : string :=
  String.String "x" match n with O => EmptyString | S n => exampleId n end.

Lemma exampleId_length n : String.length (exampleId n) = S n.
Proof. induction n as [|n IH]; simpl; [done|]. by rewrite IH. Qed.

Lemma exampleId_ok : supply_ok exampleId.
Proof.
  split; [|by intros []]. intros n m E%(f_equal String.length). rewrite !exampleId_length in E. lia.
Qed.

(** Every payload names the first session and its frames. *)
Definition exampleJson : Json :=
  mkJson (λ _, inl (mkSetHeadFrameParams (exampleId 0) (exampleId 1)))
    (λ _, inl (mkCreateSessionParams "proj" "shell" 0 zeroLaunchOptions))
    (λ _, inl (mkPushDriverParams (exampleId 0) "" "shell" zeroLaunchOptions ""))
    (λ _, inl (mkForkSessionParams (exampleId 0)))
    (λ _, inl (mkStopSessionParams (exampleId 0)))
    (λ _, inl tt).

Abbreviation exampleRun := (run exampleRegistry exampleId exampleJson).
Abbreviation exampleReduce := (Reduce exampleRegistry exampleId exampleJson).

(** One session with one frame, and the same with a second frame. *)
Definition createEv : Event := EvEvent 1 "r1" EventCreateSession "{}".
Definition pushEv : Event := EvEvent 1 "r2" EventPushDriver "{}".

Definition runState (r : option (State * list Effect * nat)) : State :=
  match r with Some (s, _, _) => s | None => New end.
Definition runEffs (r : option (State * list Effect * nat)) : list Effect :=
  match r with Some (_, effs, _) => effs | None => [] end.

Definition oneFrame : State := Eval vm_compute in runState (exampleRun 0 New [createEv]).
Definition twoFrames : State := Eval vm_compute in runState (exampleRun 0 New [createEv; pushEv]).

Lemma oneFrame_wf : wf_graph exampleId (2%nat, shapes oneFrame).
Proof.
  apply (run_wf exampleRegistry exampleId exampleJson [createEv] 0 New oneFrame
    (runEffs (exampleRun 0 New [createEv])) 2).
  - apply exampleId_ok.
  - apply wf_graph_New.
  - vm_compute. reflexivity.
Qed.

Lemma twoFrames_wf : wf_graph exampleId (3%nat, shapes twoFrames).
Proof.
  apply (run_wf exampleRegistry exampleId exampleJson [createEv; pushEv] 0 New twoFrames
    (runEffs (exampleRun 0 New [createEv; pushEv])) 3).
  - apply exampleId_ok.
  - apply wf_graph_New.
  - vm_compute. reflexivity.
Qed.

Lemma oneFrame_has : has_frame (shapes oneFrame) (exampleId 1).
Proof.
  exists (exampleId 0), (mkShape (exampleId 0) [exampleId 1] (exampleId 1) []).
  split; [vm_compute; reflexivity|left].
Qed.

(** ** Witnesses *)

Lemma run_well_formed_witness : ∃ s effs rng,
  exampleRun 0 New [createEv; pushEv] = Some (s, effs, rng) /\ wf_graph exampleId (rng, shapes s).
Proof.
  eexists _, _, _. split; [vm_compute; reflexivity|].
  apply (run_well_formed exampleRegistry exampleId exampleJson [createEv; pushEv] 0 New twoFrames
    (runEffs (exampleRun 0 New [createEv; pushEv])) 3).
  - apply exampleId_ok.
  - apply wf_graph_New.
  - vm_compute. reflexivity.
Defined.

Lemma Reduce_refines_graph_witness :
  rtc (graph_step exampleId) (2%nat, shapes oneFrame) (3%nat, shapes twoFrames).
Proof.
  apply (Reduce_refines_graph exampleRegistry exampleId exampleJson 2 oneFrame pushEv twoFrames
    (runEffs (exampleReduce 2 oneFrame pushEv)) 3).
  vm_compute. reflexivity.
Defined.

Definition stopEv : Event := EvEvent 1 "r3" EventStopSession "{}".

Lemma evicted_frame_torn_down_witness :
  EffKillFrame (exampleId 1) ∈ runEffs (exampleReduce 2 oneFrame stopEv).
Proof.
  apply (evicted_frame_torn_down exampleRegistry exampleId exampleJson 2 oneFrame stopEv New
    (runEffs (exampleReduce 2 oneFrame stopEv)) 2 (exampleId 1)).
  - apply exampleId_ok.
  - apply oneFrame_wf.
  - vm_compute. reflexivity.
  - apply oneFrame_has.
  - intros (sid & sh & H & _). unfold shapes in H. simpl in H. by rewrite fmap_empty in H.
  - reflexivity.
Defined.

(** Stopping a session that does not exist. *)
Lemma command_error_atomic_witness :
  runState (exampleReduce 0 New stopEv) = New /\ length (runEffs (exampleReduce 0 New stopEv)) = 1%nat.
Proof.
  apply (command_error_atomic exampleRegistry exampleId exampleJson 0 New stopEv 1 "r3"
    (runState (exampleReduce 0 New stopEv)) (runEffs (exampleReduce 0 New stopEv)) 0).
  - reflexivity.
  - vm_compute. reflexivity.
  - vm_compute. reflexivity.
Defined.

(** The session of [oneFrame] and its root frame. *)
Definition theFrame : SessionFrame :=
  mkSessionFrame (exampleId 1) "" (exampleId 1) "proj" "shell" zeroLaunchOptions 0 (Some 0).
Definition theSession : Session :=
  mkSession (exampleId 0) "proj" 0 [theFrame] (exampleId 1) [] "shell" 0 zeroLaunchOptions (Some 0).

Lemma tick_steps_each_root_witness : ∃ seq : nat,
  Sessions (reduceTick exampleRegistry oneFrame 9 1).1 !! exampleId 0 = Some (theSession
    <| Session_Frames := [theFrame <| Frame_Driver := stepped exampleDriver 9 theFrame true
         (DEvTick 9 false "proj" 1 (Z.of_nat seq)) |>] |>).
Proof.
  edestruct (tick_steps_each_root exampleRegistry oneFrame 9 1 (exampleId 0) theSession theFrame []
    exampleDriver) as (seq & _ & H).
  - apply oneFrame_wf.
  - vm_compute. reflexivity.
  - vm_compute. reflexivity.
  - reflexivity.
  - vm_compute. reflexivity.
  - exists seq. exact H.
Defined.

(** A tick starts one job. *)
Definition tickedState : State := Eval vm_compute in
  runState (exampleReduce 2 oneFrame (EvTick 9 1)).

Definition tickDEv : DriverEvent := DEvTick 9 false "proj" 1 0.

Lemma started_jobs_registered_witness : ∃ s' effs,
  stepDriver exampleRegistry oneFrame (exampleId 1) tickDEv = Some (s', effs) /\
  startedJobs effs = [1] /\ NextJobID s' = 1 /\
  Jobs s' !! 1 = Some (mkJobMeta (exampleId 0) (exampleId 1) 0).
Proof.
  eexists _, _. split; [vm_compute; reflexivity|].
  edestruct (started_jobs_registered exampleRegistry oneFrame (exampleId 1) tickDEv)
    as (sid & sess & idx & Hf & Hs & Hn & Hj).
  - vm_compute. reflexivity.
  - vm_compute. congruence.
  - vm_compute. reflexivity.
  - vm_compute in Hf. injection Hf as <- _ _.
    split; [exact Hs|]. split; [exact Hn|]. exact (Hj 1).
Defined.

Lemma job_result_once_witness :
  let s1 := (reduceJobResult exampleRegistry tickedState 1 tt None).1 in
  reduceJobResult exampleRegistry s1 1 tt None = (s1, []).
Proof.
  apply (job_result_once exampleRegistry tickedState 1 tt None tt None
    (reduceJobResult exampleRegistry tickedState 1 tt None).1
    (reduceJobResult exampleRegistry tickedState 1 tt None).2).
  - split; [vm_compute; congruence|]. intros job meta H.
    assert (Jobs tickedState = {[1 := mkJobMeta (exampleId 0) (exampleId 1) 9]}) as E
      by (vm_compute; reflexivity).
    rewrite E in H. apply lookup_singleton_Some in H as [<- _]. vm_compute. split; congruence.
  - apply surjective_pairing.
  - vm_compute. reflexivity.
Defined.

(** Two subscriptions of one connection end with it. *)
Definition watchedState : State := oneFrame <| SurfaceSubs := {[5 := {["a"%string; "b"%string]}]} |>.

Lemma surface_relays_match_witness :
  let effs := rev (runEffs (exampleReduce 2 watchedState (EvConnClosed 5))) in
  length effs = 2%nat /\
  fold_left relay_apply effs (subscribed (SurfaceSubs watchedState)) 5 "a" = false.
Proof.
  split; [vm_compute; reflexivity|].
  rewrite (surface_relays_match exampleRegistry exampleId exampleJson 2 watchedState (EvConnClosed 5)
    (runState (exampleReduce 2 watchedState (EvConnClosed 5)))
    (runEffs (exampleReduce 2 watchedState (EvConnClosed 5))) 2).
  - vm_compute. reflexivity.
  - reflexivity.
  - vm_compute. reflexivity.
  - symmetry. apply Permutation_rev.
Defined.

Definition subscribeEv : Event := EvCmdSurfaceSubscribe 5 "r5" (exampleId 0).

Lemma surface_subscriptions_bounded_witness : ∃ s effs rng inner,
  exampleRun 0 New [createEv; subscribeEv] = Some (s, effs, rng) /\
  SurfaceSubs s !! 5 = Some inner /\ (1 <= size inner <= surfaceSubCap)%nat.
Proof.
  eexists _, _, _, {[exampleId 0]}. split; [vm_compute; reflexivity|]. split; [vm_compute; reflexivity|].
  apply (surface_subscriptions_bounded exampleRegistry exampleId exampleJson [createEv; subscribeEv] 0 New
    (runState (exampleRun 0 New [createEv; subscribeEv]))
    (runEffs (exampleRun 0 New [createEv; subscribeEv])) 2) with (conn := 5).
  - intros conn inner H. cbn in H. by rewrite lookup_empty in H.
  - vm_compute. reflexivity.
  - vm_compute. reflexivity.
Defined.

(** The child frame steps; the root does not change. *)
Lemma stepDriver_isolated_witness : ∃ s' effs ds,
  stepDriver exampleRegistry twoFrames (exampleId 2) tickDEv = Some (s', effs) /\
  frameAt s' (exampleId 0) 0 = Some (theFrame <| Frame_Driver := ds |>) /\ ds = Some 0.
Proof.
  eexists _, _. edestruct (stepDriver_isolated exampleRegistry twoFrames (exampleId 2) tickDEv)
    as (_ & _ & sid & sess & idx & Hf & H).
  - vm_compute. reflexivity.
  - destruct (H (exampleId 0) 0%nat theFrame) as (ds & H1 & H2); [vm_compute; reflexivity|].
    exists ds. split; [vm_compute; reflexivity|]. split; [exact H1|]. apply H2.
    vm_compute in Hf. injection Hf as <- _ <-. congruence.
Defined.

Definition failEv (fid : string) : Event := EvSpawnFailed (exampleId 0) fid "no pty" 1 "r1".

Lemma create_rolled_back_witness : runState (exampleReduce 2 oneFrame (failEv (exampleId 1))) = New.
Proof.
  apply (create_rolled_back exampleRegistry exampleId exampleJson 0 New 1 "r1" EventCreateSession "{}"
    oneFrame (runEffs (exampleReduce 0 New createEv)) 2 (exampleId 0) (exampleId 1) "no pty" 1 "r1"
    (runState (exampleReduce 2 oneFrame (failEv (exampleId 1))))
    (runEffs (exampleReduce 2 oneFrame (failEv (exampleId 1)))) 2).
  - apply exampleId_ok.
  - apply wf_graph_New.
  - by left.
  - vm_compute. reflexivity.
  - vm_compute. left.
  - vm_compute. reflexivity.
Defined.

Lemma push_rolled_back_witness :
  forgetMRU (runState (exampleReduce 3 twoFrames (failEv (exampleId 2)))) = forgetMRU oneFrame.
Proof.
  apply (push_rolled_back exampleRegistry exampleId exampleJson 2 oneFrame 1 "r2" "{}"
    twoFrames (runEffs (exampleReduce 2 oneFrame pushEv)) 3 (exampleId 0) (exampleId 2) "no pty" 1 "r1"
    (runState (exampleReduce 3 twoFrames (failEv (exampleId 2))))
    (runEffs (exampleReduce 3 twoFrames (failEv (exampleId 2)))) 3).
  - apply exampleId_ok.
  - apply oneFrame_wf.
  - vm_compute. reflexivity.
  - vm_compute. left.
  - vm_compute. reflexivity.
Defined.

(** An interrupt (130) evicts. *)
Lemma command_exit_policy_witness :
  ¬ has_frame (shapes (reduceFrameCommandExited exampleRegistry oneFrame (exampleId 1) 130).1) (exampleId 1).
Proof.
  intros H. apply (command_exit_policy exampleRegistry oneFrame (exampleId 1) 130) in H.
  - apply H. set_solver.
  - apply oneFrame_wf.
  - apply oneFrame_has.
Defined.

Lemma findFrame_any_order_witness :
  findFrameIn (rev (map_to_list (Sessions twoFrames))) (exampleId 2) = findFrame twoFrames (exampleId 2).
Proof.
  apply (findFrame_any_order twoFrames).
  - apply twoFrames_wf.
  - symmetry. apply Permutation_rev.
Defined.

Lemma headFrame_named_witness : ∃ f,
  headFrame theSession = Some f /\ f ∈ Session_Frames theSession /\ Frame_ID f = exampleId 1.
Proof.
  apply (headFrame_named oneFrame (exampleId 0) theSession).
  - apply oneFrame_wf.
  - vm_compute. reflexivity.
Defined.
