(* ===== verification/Worktree.v ===== *)
(** * Worktrees: platform/lib/git, client/runtime/subsystem and its CLI backend

    [git.go], [plastic.go] and [vcs.go] (branch detection), [worktree.go] of
    the subsystem package and [cli/backend.go], which owns the worktrees of the
    frames of one project.  Files and subprocesses are calls answered by the
    world; [gitFound] and [plasticCmd] are what the one-time lookups found. *)

From S2P Require Import Prelude GoStd GoText GoPath GoIO Workspace ClientView ClientState.
Open Scope Z_scope.

Import filepath.

Module worktree.

(** ** Calls *)

Inductive Call :=
| CLstat (path : string)
| CStat (path : string)
| CMkdirAll (path : string)
| CGit (dir : string) (args : list string)
| CPlastic (cmd dir : string)
| CReadDir (path : string).

(** A regular file or another kind of entry; output; an error; directory
    entries with whether they are directories. *)
Inductive Reply :=
| RFound (regular : bool)
| ROutput (out : string)
| RFailed (err : string)
| REntries (entries : list (string * bool)).

Abbreviation Git := (Eff Call Reply).

Definition succeeded (r : Reply) : bool := match r with RFailed _ => false | _ => true end.

(** ** platform/lib/git *)

(** The walk up the directory tree of [findGitRoot] and [findPlasticRoot];
    [None] only if the fuel runs out. *)
Fixpoint findRoot_go (fuel : nat) (entry d : string) : Git (option string) :=
  match fuel with
  | O => mret None
  | S fuel =>
    r ← call (CLstat (Join [d; entry]));
    if succeeded r then mret (Some d)
    else
      let parent := Dir d in
      if decide (parent = d) then mret (Some EmptyString) else findRoot_go fuel entry parent
  end.

Definition findFuel (dir : string) : nat := String.length dir + 3.

Definition findRoot (entry dir : string) : Git string :=
  r ← findRoot_go (findFuel dir) entry dir; mret (default EmptyString r).

Definition findGitRoot (dir : string) : Git string := findRoot ".git" dir.
Definition findPlasticRoot (dir : string) : Git string := findRoot ".plastic" dir.

Definition IsRepo (dir : string) : Git bool :=
  root ← findGitRoot dir; mret (bool_decide (root <> EmptyString)).

Section env.
Context (gitFound : bool) (plasticCmd : string) (urlHostname : string -> option string).

(** [git -C dir args] when git and a repository are there. *)
Definition gitOutput (dir : string) (args : list string) : Git (option string) :=
  if negb gitFound then mret None
  else
    root ← findGitRoot dir;
    if decide (root = EmptyString) then mret None
    else
      r ← call (CGit dir args);
      mret (match r with ROutput out => Some out | _ => None end).

Definition DetectBranch (dir : string) : Git string :=
  out ← gitOutput dir ["branch"; "--show-current"]%string;
  mret (match out with Some out => Strings.TrimSpace out | None => EmptyString end).

(** The text between an [@] and the colon after it, or the host of a URL. *)
Definition parseHost (raw : string) : string :=
  if Strings.Contains raw "://" then
    match urlHostname raw with Some h => strings.ToLower h | None => EmptyString end
  else
    match Strings.Cut raw "@" with
    | Some (_, rest) =>
      match Strings.Cut rest ":" with
      | Some (host, _) => strings.ToLower host
      | None => EmptyString
      end
    | None => EmptyString
    end.

Definition DetectRemoteHost (dir : string) : Git string :=
  out ← gitOutput dir ["remote"; "get-url"; "origin"]%string;
  mret (match out with Some out => parseHost (Strings.TrimSpace out) | None => EmptyString end).

Definition IsWorktree (dir : string) : Git bool :=
  root ← findGitRoot dir;
  if decide (root = EmptyString) then mret false
  else
    r ← call (CLstat (Join [root; ".git"%string]));
    mret (match r with RFound regular => regular | _ => false end).

Definition branchPrefix : string := "branch refs/heads/".

Fixpoint mainBranch_go (lines : list string) : string :=
  match lines with
  | [] => EmptyString
  | l :: lines =>
    if decide (l = EmptyString) then EmptyString
    else if Strings.HasPrefix l branchPrefix then Strings.str_drop (String.length branchPrefix) l
    else mainBranch_go lines
  end.
Definition newline : ascii := "010"%char.
Definition parseMainBranch (output : string) : string := mainBranch_go (Strings.Split output newline).

Definition DetectMainBranch (dir : string) : Git string :=
  out ← gitOutput dir ["worktree"; "list"; "--porcelain"]%string;
  mret (match out with Some out => parseMainBranch out | None => EmptyString end).

Definition RepoRoot (dir : string) : Git (string + string) :=
  if negb gitFound then mret (inr (dir +:+ " is not a git repository"))
  else
    root ← findGitRoot dir;
    if decide (root = EmptyString) then mret (inr (dir +:+ " is not a git repository"))
    else
      r ← call (CGit dir ["rev-parse"; "--show-toplevel"]%string);
      mret (match r with
            | ROutput out => inl (Strings.TrimSpace out)
            | RFailed err => inr ("resolve git root: " +:+ err)
            | _ => inr "resolve git root: "%string
            end).

Definition commonGitRoot (dir : string) : Git (string + string) :=
  if negb gitFound then mret (inr (dir +:+ " is not a git repository"))
  else
    root ← findGitRoot dir;
    if decide (root = EmptyString) then mret (inr (dir +:+ " is not a git repository"))
    else
      r ← call (CGit dir ["rev-parse"; "--path-format=absolute"; "--git-common-dir"]%string);
      mret (match r with
            | ROutput out => inl (Dir (Strings.TrimSpace out))
            | RFailed err => inr ("resolve git common dir: " +:+ err)
            | _ => inr "resolve git common dir: "%string
            end).

(** [appid.DotDir]. *)
Definition DotDir : string := ".agent-reactor".

Definition worktreesDir (root : string) : string := Join [root; DotDir; "worktrees"%string].
Definition worktreeDir (root name : string) : string := Join [root; DotDir; "worktrees"%string; name].

Definition git_CreateWorktree (dir name : string) : Git (string + string) :=
  root ← RepoRoot dir;
  match root with
  | inr err => mret (inr err)
  | inl root =>
    if decide (name = EmptyString) then mret (inr "worktree name required"%string)
    else
      let path := worktreeDir root name in
      r ← call (CStat path);
      if succeeded r then mret (inr ("worktree already exists: " +:+ path))
      else
        r ← call (CMkdirAll (Dir path));
        match r with
        | RFailed err => mret (inr err)
        | _ =>
          r ← call (CGit root ["worktree"; "add"; "-b"; name; path]%string);
          mret (match r with
                | RFailed out => inr ("git worktree add failed: " +:+ Strings.TrimSpace out)
                | _ => inl path
                end)
        end
  end.

(** [git worktree remove --force clean]. *)
Definition removeArgs (clean : string) : list string := ["worktree"; "remove"; "--force"; clean]%string.

Definition git_RemoveWorktree (path : string) : Git (option string) :=
  let clean := Clean path in
  root ← commonGitRoot clean;
  match root with
  | inr err => mret (Some err)
  | inl root =>
    if decide (Dir clean <> worktreesDir root) then
      mret (Some ("not a managed worktree path: " +:+ clean))
    else
      r ← call (CGit root (removeArgs clean));
      mret (match r with
            | RFailed out => Some ("git worktree remove failed: " +:+ Strings.TrimSpace out)
            | _ => None
            end)
  end.

(** ** platform/lib/plastic *)

Definition branchOfLine (line : string) : option string :=
  let line := Strings.TrimSpace line in
  if Strings.HasPrefix line "BR " then
    let rest := Strings.str_drop 3 line in
    Some (match Strings.Cut rest " " with Some (b, _) => b | None => rest end)
  else None.

Definition ParseBranchFromWorkspaceInfo (output : string) : string :=
  default EmptyString (head (omap branchOfLine (Strings.Split output newline))).

Definition plastic_DetectBranch (dir : string) : Git string :=
  if decide (plasticCmd = EmptyString) then mret EmptyString
  else
    root ← findPlasticRoot dir;
    if decide (root = EmptyString) then mret EmptyString
    else
      r ← call (CPlastic plasticCmd dir);
      mret (match r with ROutput out => ParseBranchFromWorkspaceInfo out | _ => EmptyString end).

(** ** platform/lib/vcs *)

Record Result := mkResult {
  Res_Branch : string; Res_Background : string; Res_Foreground : string; Res_IsWorktree : bool;
  Res_ParentBranch : string }.

Definition gitBG : string := "#F05032".
Definition plasticBG : string := "#00ADEF".
Definition defaultFG : string := "#FFFFFF".

Definition hostColors : list (string * string) :=
  [("github.com", "#24292F"); ("gitlab.com", "#FC6D26"); ("bitbucket.org", "#0052CC");
   ("codeberg.org", "#2185D0"); ("sr.ht", "#888888")]%string.

Definition resolveGitBackground (dir : string) : Git string :=
  host ← DetectRemoteHost dir;
  mret (match List.find (fun hc => String.eqb hc.1 host) hostColors with
        | Some hc => hc.2
        | None => gitBG
        end).

Definition vcs_DetectBranch (dir : string) : Git Result :=
  b ← DetectBranch dir;
  if decide (b <> EmptyString) then
    bg ← resolveGitBackground dir;
    linked ← IsWorktree dir;
    if linked : bool then
      parent ← DetectMainBranch dir; mret (mkResult b bg defaultFG true parent)
    else mret (mkResult b bg defaultFG false EmptyString)
  else
    b ← plastic_DetectBranch dir;
    mret (if decide (b <> EmptyString) then mkResult b plasticBG defaultFG false EmptyString
          else mkResult "" "" "" false "").

(** ** client/runtime/subsystem/worktree.go *)

Record WorktreeResult := mkWorktreeResult { WR_StartDir : string; WR_Name : string }.

Fixpoint tryNames (root repoDir : string) (names : list string) : Git (option WorktreeResult) :=
  match names with
  | [] => mret None
  | name :: names =>
    if decide (name = EmptyString) then tryNames root repoDir names
    else
      let path := worktreeDir root name in
      r ← call (CStat path);
      if succeeded r then mret (Some (mkWorktreeResult path name))
      else
        dir ← git_CreateWorktree repoDir name;
        match dir with
        | inl dir => mret (Some (mkWorktreeResult dir name))
        | inr _ => tryNames root repoDir names
        end
  end.

Definition CreateWorktree (repoDir : string) (candidateNames : list string)
    : Git (WorktreeResult + string) :=
  root ← RepoRoot repoDir;
  match root with
  | inr err => mret (inr err)
  | inl root =>
    res ← tryNames root repoDir candidateNames;
    mret (match res with
          | Some res => inl res
          | None => inr "failed to create managed worktree after all candidates"%string
          end)
  end.

Definition IsManagedWorktreePath (path : string) : bool :=
  let clean := Clean path in
  bool_decide (Base (Dir clean) = "worktrees"%string) && bool_decide (Base (Dir (Dir clean)) = DotDir).

Fixpoint cleanupEntries (dir : string) (tracked : gset string) (entries : list (string * bool)) : Git () :=
  match entries with
  | [] => mret ()
  | (name, isDir) :: entries =>
    let path := Clean (Join [dir; name]) in
    _ ← (if (isDir : bool) && negb (bool_decide (path ∈ tracked)) then
           _ ← git_RemoveWorktree path; mret ()
         else mret ());
    cleanupEntries dir tracked entries
  end.

Fixpoint CleanupUntracked (projects : list string) (tracked : gset string) : Git () :=
  match projects with
  | [] => mret ()
  | project :: projects =>
    let dir := worktreesDir project in
    r ← call (CReadDir dir);
    _ ← match r with REntries es => cleanupEntries dir tracked es | _ => mret () end;
    CleanupUntracked projects tracked
  end.
End env.

(** ** client/runtime/subsystem/cli *)

(** [Backend.frames]: the worktree a frame owns, empty if it owns none. *)
Record Backend := mkBackend { B_project : string; B_frames : gmap FrameID string }.
#[export] Instance eta_Backend : Eta Backend := fun r => mkBackend (B_project r) (B_frames r).

Definition NewBackend (project : string) : Backend := mkBackend project ∅.

Record BindResult := mkBindResult {
  Bind_Plan : LaunchPlan; Bind_WorktreeStartDir : string; Bind_WorktreeName : string }.

Section backend.
Context (gitFound : bool).

Definition worktreeEnabled (plan : LaunchPlan) : bool :=
  Worktree_Enabled (Opt_Worktree (Plan_Options plan)).

(** [names] are the generated candidates. *)
Definition BindFrame (b : Backend) (frameID : FrameID) (plan : LaunchPlan) (names : list string)
    : Git ((Backend * BindResult) + string) :=
  let bound (path : string) (res : BindResult) : Git ((Backend * BindResult) + string) :=
    mret (inl (b <| B_frames := <[frameID := path]> (B_frames b) |>, res)) in
  if IsManagedWorktreePath (Plan_StartDir plan) then
    bound (if worktreeEnabled plan then Plan_StartDir plan else EmptyString)
      (mkBindResult plan (Plan_StartDir plan) EmptyString)
  else if worktreeEnabled plan then
    wt ← CreateWorktree gitFound (Plan_StartDir plan) names;
    match wt with
    | inr err => mret (inr err)
    | inl wt =>
      bound (WR_StartDir wt)
        (mkBindResult (plan <| Plan_StartDir := WR_StartDir wt |>) (WR_StartDir wt) (WR_Name wt))
    end
  else bound EmptyString (mkBindResult plan EmptyString EmptyString).

(** The backend, and the worktree it removes in the background. *)
Definition ReleaseFrame (b : Backend) (frameID : FrameID) : Backend * option string :=
  let path := default EmptyString (B_frames b !! frameID) in
  let frames := delete frameID (B_frames b) in
  let stillUsed := bool_decide (map_Exists (fun _ p => p = path) frames) in
  (b <| B_frames := frames |>,
   if bool_decide (path <> EmptyString) && negb stillUsed then Some path else None).
End backend.

(** [Factory.backends], by project. *)
Definition EnsureBackend (backends : gmap string Backend) (project : string)
    : gmap string Backend * string :=
  let id := "cli:" +:+ project in
  (match backends !! id with
   | Some _ => backends
   | None => <[id := NewBackend project]> backends
   end, id).
End worktree.

(** * Worktrees: termination, containment, ownership

    The walk up to the repository ends; worktrees are removed only right below
    a [.agent-reactor/worktrees] directory and never when tracked; a worktree
    that was created is recognized and accepted for removal; who owns what. *)

Open Scope Z_scope.

Import filepath worktree.

(** ** The walk ends *)

Lemma clean_go_length r l : forall out, (length (clean_go r out l) <= length out + length l)%nat.
Proof.
  induction l as [|x l IH]; intros out; cbn [clean_go length]; [rewrite length_rev; lia|].
  case_decide; [specialize (IH out); lia|]. case_decide; [|specialize (IH (x :: out)); cbn [length] in IH; lia].
  destruct out as [|y out]; [specialize (IH (if r then [] else [x])); destruct r; cbn [length] in *; lia|].
  case_decide; [specialize (IH (x :: y :: out))|specialize (IH out)]; cbn [length] in *; lia.
Qed.

Lemma split_length p : (length (Strings.Split p "/") <= String.length p + 1)%nat.
Proof.
  induction p as [|c p IH]; cbn [Strings.Split String.length]; [done|].
  case_decide; cbn [length]; [lia|]. destruct (Strings.Split p "/"); cbn [length] in *; lia.
Qed.

Lemma comps_length p : (length (comps p) <= String.length p + 1)%nat.
Proof.
  unfold comps. pose proof (clean_go_length (rooted p) (Strings.Split p "/") []).
  pose proof (split_length p). cbn [length] in *. lia.
Qed.

(** A clean path is its own parent, or its parent has an element less. *)
Lemma Dir_shrinks d : Clean d = d -> Dir d = d \/ (length (comps (Dir d)) < length (comps d))%nat.
Proof.
  intros Hd. destruct (comps d) as [|x l _] eqn:E using rev_ind.
  - left. assert (d = render (rooted d) []) as H by by rewrite <- Hd at 1; rewrite Clean_render, E.
    destruct (rooted d); rewrite H; reflexivity.
  - right. destruct (Dir_comps d l x Hd E) as [_ ->]. rewrite length_app. cbn [length]. lia.
Qed.

Lemma findRoot_clean entry w fuel : forall d h, Clean d = d -> (length (comps d) < fuel)%nat ->
  (findRoot_go fuel entry d w h).1 <> None.
Proof.
  induction fuel as [|fuel IH]; intros d h Hd Hf; [lia|]. cbn [findRoot_go].
  unfold mbind, Eff_bind, call, mret, Eff_ret. destruct (succeeded _); [done|].
  destruct (Dir_shrinks d Hd) as [Hf'|Hs]; [by rewrite decide_True|].
  case_decide; [done|]. apply IH; [apply Dir_clean|]. lia.
Qed.

Lemma dirPrefix_length p : (String.length (dirPrefix p) <= String.length p)%nat.
Proof.
  induction p as [|c p IH]; cbn [dirPrefix String.length]; [done|].
  destruct (dirPrefix p); [case_decide|]; cbn [String.length] in *; lia.
Qed.

(** The walk from any directory returns: [findFuel] is enough. *)
Lemma findRoot_returns entry dir w h : (findRoot_go (findFuel dir) entry dir w h).1 <> None.
Proof.
  unfold findFuel. replace (String.length dir + 3)%nat with (S (String.length dir + 2)) by lia.
  cbn [findRoot_go]. unfold mbind, Eff_bind, call, mret, Eff_ret. destruct (succeeded _); [done|].
  case_decide; [done|]. apply findRoot_clean; [apply Dir_clean|].
  unfold Dir. destruct (Clean_comps (dirPrefix dir)) as [_ ->].
  pose proof (comps_length (dirPrefix dir)). pose proof (dirPrefix_length dir). lia.
Qed.

(** ** What is removed *)

Section removal.
Context (gitFound : bool).

(** A removal is of a clean path right below the worktrees of the repository
    it is run in, and [ok] holds of the path. *)
Definition removesOnly (ok : string -> Prop) (c : Call) : Prop :=
  forall root x, c = CGit root (removeArgs x) -> Clean x = x /\ Dir x = worktreesDir root /\ ok x.

Lemma findRoot_only ok entry fuel : forall d, only (removesOnly ok) (findRoot_go fuel entry d).
Proof.
  induction fuel as [|fuel IH]; intros d; cbn [findRoot_go]; [apply only_ret|].
  apply only_bind; [by apply only_call|]. intros r. case_match; [apply only_ret|].
  case_decide; [apply only_ret|apply IH].
Qed.

Lemma commonGitRoot_only ok dir : only (removesOnly ok) (commonGitRoot gitFound dir).
Proof.
  unfold commonGitRoot, findGitRoot, findRoot. case_match; [apply only_ret|].
  apply only_bind; [apply only_bind; [apply findRoot_only|intros; apply only_ret]|]. intros root.
  case_decide; [apply only_ret|]. apply only_bind; [by apply only_call|]. intros; apply only_ret.
Qed.

Lemma RemoveWorktree_only (ok : string -> Prop) path : ok (Clean path) ->
  only (removesOnly ok) (git_RemoveWorktree gitFound path).
Proof.
  intros Hok. unfold git_RemoveWorktree. apply only_bind; [apply commonGitRoot_only|].
  intros [root|err]; [|apply only_ret]. case_decide as E; [apply only_ret|].
  apply only_bind; [|intros; apply only_ret]. apply only_call. intros root' x H.
  injection H as <- <-. split_and!; [apply Clean_idem| |done]. exact E.
Qed.

Lemma cleanupEntries_only dir tracked es :
  only (removesOnly (fun x => x ∉ tracked)) (cleanupEntries gitFound dir tracked es).
Proof.
  induction es as [|[name isDir] es IH]; cbn [cleanupEntries]; [apply only_ret|].
  apply only_bind; [|intros; exact IH]. destruct isDir; cbn [andb]; [|apply only_ret].
  case_bool_decide as Hin; cbn [negb]; [apply only_ret|].
  apply only_bind; [|intros; apply only_ret]. apply RemoveWorktree_only. by rewrite Clean_idem.
Qed.

Lemma CleanupUntracked_only projects tracked :
  only (removesOnly (fun x => x ∉ tracked)) (CleanupUntracked gitFound projects tracked).
Proof.
  induction projects as [|p projects IH]; cbn [CleanupUntracked]; [apply only_ret|].
  apply only_bind; [by apply only_call|]. intros r.
  apply only_bind; [|intros; exact IH]. case_match; try apply only_ret. apply cleanupEntries_only.
Qed.
End removal.

(** ** Created worktrees *)

Lemma plain_DotDir : plain DotDir /\ plain "worktrees".
Proof. split; (split_and!; [done..|vm_compute; reflexivity]). Qed.

(** The path of a worktree: its parent, and that it is recognized. *)
Lemma worktreeDir_managed root name : root <> EmptyString -> plain name ->
  Clean (worktreeDir root name) = worktreeDir root name /\
  Dir (worktreeDir root name) = worktreesDir root /\
  IsManagedWorktreePath (worktreeDir root name) = true.
Proof.
  intros Hr Hn. destruct plain_DotDir as [Hd Hw].
  destruct (Join_plains root [DotDir; "worktrees"%string; name]) as (R1 & C1 & K1);
    [done|by repeat (apply Forall_cons; split; [done|])|done|].
  destruct (Join_plains root [DotDir; "worktrees"%string]) as (R2 & C2 & K2);
    [done|by repeat (apply Forall_cons; split; [done|])|done|].
  fold (worktreeDir root name) in R1, C1, K1. fold (worktreesDir root) in R2, C2, K2.
  assert (comps (worktreeDir root name) = (comps root ++ [DotDir; "worktrees"%string]) ++ [name]) as E1
    by by rewrite C1, <- app_assoc.
  destruct (Dir_comps _ _ _ K1 E1) as [D1 D2].
  assert (Dir (worktreeDir root name) = worktreesDir root) as ED
    by (apply clean_ext; [apply Dir_clean|done|congruence|congruence]).
  split_and!; [done|done|]. unfold IsManagedWorktreePath. rewrite K1, ED.
  assert (comps (worktreesDir root) = (comps root ++ [DotDir]) ++ ["worktrees"%string]) as E2
    by by rewrite C2, <- app_assoc.
  rewrite (Base_comps _ _ _ K2 E2). destruct (Dir_comps _ _ _ K2 E2) as [_ D3].
  rewrite (Base_comps _ (comps root) DotDir (Dir_clean _) D3). by rewrite !bool_decide_eq_true_2.
Qed.

(** git prints the top level of a repository. *)
Definition printsRoot (w : World Call Reply) : Prop :=
  forall h dir out, w h (CGit dir ["rev-parse"; "--show-toplevel"]%string) = ROutput out ->
    Strings.TrimSpace out <> EmptyString.

(** A managed worktree under one of the names. *)
Definition managedAs (names : list string) (wt : WorktreeResult) : Prop :=
  exists root, root <> EmptyString /\ WR_Name wt ∈ names /\ WR_StartDir wt = worktreeDir root (WR_Name wt).

Section created.
Context (gitFound : bool) (w : World Call Reply) (Hw : printsRoot w).

Lemma RepoRoot_yields dir :
  yields w (fun r => forall root, r = inl root -> root <> EmptyString) (RepoRoot gitFound dir).
Proof.
  unfold RepoRoot. destruct gitFound; [|by apply yields_ret].
  eapply yields_bind; [apply yields_any|]. intros root _. case_decide; [by apply yields_ret|].
  eapply (yields_bind _ (fun r => forall out, r = ROutput out -> Strings.TrimSpace out <> EmptyString));
    [apply yields_call; intros h out; apply Hw|].
  intros r Hr. apply yields_ret. destruct r; try done. intros ? [= <-]. by apply Hr.
Qed.

Lemma git_CreateWorktree_yields dir name :
  yields w (fun r => forall path, r = inl path -> managedAs [name] (mkWorktreeResult path name))
    (git_CreateWorktree gitFound dir name).
Proof.
  unfold git_CreateWorktree. eapply yields_bind; [apply RepoRoot_yields|].
  intros [root|err] Hr; [|by apply yields_ret]. case_decide; [by apply yields_ret|].
  eapply yields_bind; [apply yields_any|]. intros s _. case_match; [by apply yields_ret|].
  eapply yields_bind; [apply yields_any|]. intros m _.
  assert (yields w (fun r => forall path, r = inl path -> managedAs [name] (mkWorktreeResult path name))
    (r ← call (CGit root ["worktree"; "add"; "-b"; name; worktreeDir root name]%string);
     mret (match r with
           | RFailed out => inr ("git worktree add failed: " +:+ Strings.TrimSpace out)
           | _ => inl (worktreeDir root name)
           end))) as Hadd.
  { eapply yields_bind; [apply yields_any|]. intros r _. apply yields_ret. intros path E.
    exists root. split; [by apply Hr|]. cbn [WR_Name WR_StartDir]. split; [set_solver|].
    destruct r; by simplify_eq. }
  destruct m; try exact Hadd. by apply yields_ret.
Qed.

Lemma tryNames_yields root dir names : root <> EmptyString ->
  yields w (fun r => forall wt, r = Some wt -> managedAs names wt) (tryNames gitFound root dir names).
Proof.
  intros Hroot. induction names as [|name names IH]; cbn [tryNames]; [by apply yields_ret|].
  assert (yields w (fun r => forall wt, r = Some wt -> managedAs (name :: names) wt)
    (tryNames gitFound root dir names)) as Hrest.
  { intros h wt E. destruct (IH h wt E) as (r & ? & ? & ?). exists r. set_solver. }
  case_decide; [exact Hrest|].
  eapply yields_bind; [apply yields_any|]. intros s _. case_match.
  { apply yields_ret. intros wt [= <-]. exists root. cbn. set_solver. }
  eapply yields_bind; [apply git_CreateWorktree_yields|]. intros [path|err] Hp; [|exact Hrest].
  apply yields_ret. intros wt [= <-]. destruct (Hp path eq_refl) as (r & ? & ? & ?). exists r. set_solver.
Qed.

Lemma CreateWorktree_yields dir names :
  yields w (fun r => forall wt, r = inl wt -> managedAs names wt) (CreateWorktree gitFound dir names).
Proof.
  unfold CreateWorktree. eapply yields_bind; [apply RepoRoot_yields|].
  intros [root|err] Hr; [|by apply yields_ret].
  eapply yields_bind; [by apply tryNames_yields, Hr|]. intros [wt|] Hwt; apply yields_ret; [|done].
  intros ? [= <-]. by apply Hwt.
Qed.
End created.

(** ** Ownership *)

Lemma ReleaseFrame_spec b f p :
  (ReleaseFrame b f).2 = Some p <->
  B_frames b !! f = Some p /\ p <> EmptyString /\ forall g, g <> f -> B_frames b !! g <> Some p.
Proof.
  unfold ReleaseFrame. cbn [snd].
  destruct (bool_decide_reflect (default EmptyString (B_frames b !! f) <> EmptyString)) as [Hne|He]; cbn [andb].
  - destruct (B_frames b !! f) as [q|] eqn:Ef; [|by destruct Hne].
    cbn [default from_option id] in *.
    destruct (bool_decide_reflect (map_Exists (fun _ p => p = q) (delete f (B_frames b)))) as [Hex|Hex]; cbn [negb].
    + split; [done|]. intros ([= ->] & _ & Hno). destruct Hex as (g & r & Hg & ->).
      apply lookup_delete_Some in Hg as [Hgf Hg]. exfalso. by apply (Hno g).
    + split.
      * intros [= <-]. split_and!; [done..|]. intros g Hg Hb. apply Hex. exists g, q.
        split; [|done]. by rewrite lookup_delete_ne.
      * by intros ([= ->] & _ & _).
  - split; [done|]. intros (Hf & Hp & _). rewrite Hf in He. cbn in He. by apply dec_stable in He.
Qed.

(** Binding to an existing worktree makes no call; only a frame launched with
    a worktree of its own becomes an owner. *)
Lemma BindFrame_managed gitFound b f plan names w h :
  IsManagedWorktreePath (Plan_StartDir plan) = true ->
  BindFrame gitFound b f plan names w h
  = (inl (b <| B_frames := <[f := if worktreeEnabled plan then Plan_StartDir plan else EmptyString]> (B_frames b) |>,
          mkBindResult plan (Plan_StartDir plan) EmptyString), h).
Proof. intros H. unfold BindFrame. by rewrite H. Qed.
