(* ===== verification/ClaudeTool.v ===== *)
(** * client/lib/claude/transcript: entries, tool inputs and tool results

    [transcript_model.go], [transcript_tool.go], [transcript_tool_results.go],
    [tool_bash.go], [tool_edit.go], [tool_read.go]: what a transcript line
    becomes, and the summaries of what a tool was given and returned. *)

From S2P Require Import Prelude GoStd GoText GoJson GoIO.
From stdpp Require Import pretty.
Open Scope Z_scope.

Module claudetx.
Import json.

(** ** Entries *)

Inductive Kind :=
| KindUser | KindAssistantText | KindAssistantThinking | KindToolUse | KindToolResult
| KindSystem | KindAttachment | KindFileSnapshot | KindCustomTitle | KindAgentName
| KindLastPrompt | KindSubagentBegin | KindSubagentEnd | KindUnknown.

#[export] Instance Kind_eq_dec : EqDecision Kind.
Proof. solve_decision. Defined.

Record ToolInput := mkToolInput { TI_Primary : string; TI_Detail : string }.

Definition zeroToolInput : ToolInput := mkToolInput "" "".

Record BashResult := mkBashResult {
  Bash_StdoutLines : Z; Bash_StderrLines : Z; Bash_StdoutHead : list string;
  Bash_Interrupted : bool }.
Record EditResult := mkEditResult {
  Edit_FilePath : string; Edit_AddedLines : Z; Edit_RemovedLines : Z; Edit_Hunks : Z }.
Record ReadResult := mkReadResult {
  Read_FilePath : string; Read_StartLine : Z; Read_NumLines : Z; Read_TotalLines : Z }.
Record GlobGrepResult := mkGlobGrepResult { GG_NumFiles : Z; GG_NumLines : Z; GG_Mode : string }.
Record AgentResult := mkAgentResult {
  Agent_ID : string; Agent_Type : string; Agent_Status : string; Agent_DurationMs : Z;
  Agent_Tokens : Z }.
Record WebResult := mkWebResult { Web_URL : string; Web_Chars : Z; Web_Query : string }.

(** The implementations of the interface [ToolResult]. *)
Inductive ToolResult :=
| TRGeneric (chars : Z)
| TRBash (r : BashResult)
| TREdit (r : EditResult)
| TRRead (r : ReadResult)
| TRGlobGrep (r : GlobGrepResult)
| TRAgent (r : AgentResult)
| TRTodo (text : string)
| TRWeb (r : WebResult)
| TRExitPlan (head : string).

Record Entry := mkEntry {
  Entry_Kind : Kind;
  Entry_Depth : Z;
  Entry_Text : string;
  Entry_ToolName : string;
  Entry_ToolUseID : string;
  Entry_ToolInput : ToolInput;
  Entry_ToolResult : option ToolResult;
  Entry_IsError : bool;
  Entry_UUID : string;
  Entry_ParentUUID : string;
  Entry_Synthetic : bool;
}.
#[export] Instance eta_Entry : Eta Entry := fun r =>
  mkEntry (Entry_Kind r) (Entry_Depth r) (Entry_Text r) (Entry_ToolName r) (Entry_ToolUseID r)
    (Entry_ToolInput r) (Entry_ToolResult r) (Entry_IsError r) (Entry_UUID r)
    (Entry_ParentUUID r) (Entry_Synthetic r).

(** [Entry{Kind: k}] and [Entry{Kind: k, Text: text}]. *)
Definition entryOf (k : Kind) : Entry :=
  mkEntry k 0 "" "" "" zeroToolInput None false "" "" false.
Definition textEntry (k : Kind) (text : string) : Entry := entryOf k <| Entry_Text := text |>.

(** ** Text helpers *)

Definition firstLine (s : string) : string :=
  match Strings.Cut s bufio.newline with Some (l, _) => l | None => s end.

Definition truncate (s : string) (max : nat) : string :=
  let r := utf8.runes s in
  if (length r <=? max)%nat then s else utf8.of_runes (take max r) +:+ "…".

Definition plural (n : Z) (noun : string) : string :=
  if n =? 0 then ""
  else if n =? 1 then "1 " +:+ noun
  else strconv.Itoa n +:+ " " +:+ noun +:+ "s".

(** [strings.Count(s, "\n")]. *)
Fixpoint countNewlines (s : string) : Z :=
  match s with
  | EmptyString => 0
  | String.String c s =>
    (if decide (c = bufio.newline) then 1 else 0) + countNewlines s
  end.

Definition countLines (s : string) : Z :=
  if decide (s = EmptyString) then 0
  else
    let n := countNewlines s in
    if Strings.HasSuffix s (String.String bufio.newline EmptyString) then n else n + 1.

Definition carriageReturn : ascii := "013"%char.

(** The loop of [leadingLines] with [room] lines to go. *)
Fixpoint leading_go (room : nat) (maxLen : nat) (lines : list string) : list string :=
  match lines with
  | [] => []
  | l :: lines =>
    let l := Strings.TrimRight l [carriageReturn] in
    if decide (l = EmptyString) then leading_go room maxLen lines
    else
      let l := if (maxLen <? length (utf8.runes l))%nat
               then utf8.of_runes (take maxLen (utf8.runes l)) +:+ "…" else l in
      match room with
      | O | S O => [l]
      | S room => l :: leading_go room maxLen lines
      end
  end.

Definition leadingLines (s : string) (maxLines maxLen : nat) : list string :=
  if decide (s = EmptyString) then []
  else leading_go maxLines maxLen (Strings.Split s bufio.newline).

Definition maxInt (a b : Z) : Z := if b <? a then a else b.

Definition humanThousands (n : Z) : string :=
  if 1000000 <=? n then float.sprintf1 n 1000000 +:+ "M"
  else if 1000 <=? n then float.sprintf1 n 1000 +:+ "k"
  else strconv.Itoa n.

(** ** Todo lists *)

Definition countStatus (statuses : list string) (s : string) : Z :=
  Z.of_nat (length (filter (fun x => x = s) statuses)).

(** The counts by status, or the number of todos if none has a known one. *)
Definition todoCounts (statuses : list string) : string :=
  let parts := omap (fun s => if 0 <? countStatus statuses s
                              then Some (strconv.Itoa (countStatus statuses s) +:+ " " +:+ s)
                              else None)
                    ["pending"; "in_progress"; "completed"]%string in
  match parts with
  | [] => strconv.Itoa (Z.of_nat (length statuses)) +:+ " todos"
  | _ => Strings.Join parts ", "
  end.

(** [[]struct{Status string}]. *)
Definition dStatuses : Decoder (list string) := dSlice "" (dStruct [("status", dString)]).

Definition summarizeTodos (raw : RawMessage) : string :=
  if decide (raw = EmptyString) then ""
  else
    let '(todos, err) := Unmarshal dStatuses raw [] in
    if err then ""
    else match todos with [] => "" | _ => todoCounts todos end.

(** ** Tool inputs *)

(** [fieldGetter]. *)
Definition fieldGetter : Type := gmap string RawMessage.

Definition raw (g : fieldGetter) (key : string) : RawMessage := default EmptyString (g !! key).

(** A string, or the empty one if the text is not a string. *)
Definition stringOf (raw : RawMessage) : string :=
  let '(s, err) := Unmarshal dString raw EmptyString in if err then EmptyString else s.

Definition str (g : fieldGetter) (key : string) : string :=
  match g !! key with Some raw => stringOf raw | None => EmptyString end.

Definition rawLen (g : fieldGetter) (key : string) : Z :=
  match g !! key with
  | Some raw =>
    let '(arr, err) := Unmarshal (dSlice EmptyString dRaw) raw [] in
    if err then 0 else Z.of_nat (length arr)
  | None => 0
  end.

Definition firstQuestion (raw : RawMessage) : string :=
  if decide (raw = EmptyString) then ""
  else
    let '(qs, err) := Unmarshal (dSlice "" (dStruct [("question", dString)])) raw [] in
    if err then "" else match qs with q :: _ => q | [] => "" end.

Definition filePathInput (g : fieldGetter) : ToolInput := mkToolInput (str g "file_path") "".
Definition multiEditInput (g : fieldGetter) : ToolInput :=
  mkToolInput (str g "file_path") (plural (rawLen g "edits") "edit").
Definition notebookInput (g : fieldGetter) : ToolInput :=
  mkToolInput (str g "notebook_path") (str g "cell_id").
Definition patternPathInput (g : fieldGetter) : ToolInput :=
  mkToolInput (str g "pattern") (str g "path").
Definition bashInput (g : fieldGetter) : ToolInput :=
  mkToolInput (str g "command") (str g "description").
Definition webFetchInput (g : fieldGetter) : ToolInput := mkToolInput (str g "url") (str g "prompt").
Definition webSearchInput (g : fieldGetter) : ToolInput := mkToolInput (str g "query") "".
Definition agentInput (g : fieldGetter) : ToolInput :=
  let primary := str g "description" in
  let primary := if decide (primary = EmptyString) then str g "subject" else primary in
  mkToolInput primary (str g "subagent_type").
Definition taskCreateInput (g : fieldGetter) : ToolInput := mkToolInput (str g "subject") "".
Definition taskUpdateInput (g : fieldGetter) : ToolInput :=
  mkToolInput (str g "taskId") (str g "status").
Definition taskIDInput (g : fieldGetter) : ToolInput := mkToolInput (str g "taskId") "".
Definition todoWriteInput (g : fieldGetter) : ToolInput :=
  mkToolInput (summarizeTodos (raw g "todos")) "".
Definition exitPlanInput (g : fieldGetter) : ToolInput :=
  let plan := firstLine (str g "plan") in
  mkToolInput (if decide (plan = EmptyString) then "(plan)" else plan) "".
Definition askQuestionInput (g : fieldGetter) : ToolInput :=
  mkToolInput (firstQuestion (raw g "questions")) "".

Definition toolInputHandlers : list (string * (fieldGetter -> ToolInput)) :=
  [("Read", filePathInput); ("Write", filePathInput); ("Edit", filePathInput);
   ("MultiEdit", multiEditInput); ("NotebookEdit", notebookInput);
   ("Glob", patternPathInput); ("Grep", patternPathInput); ("Bash", bashInput);
   ("WebFetch", webFetchInput); ("WebSearch", webSearchInput);
   ("Agent", agentInput); ("Task", agentInput);
   ("TaskCreate", taskCreateInput); ("TaskUpdate", taskUpdateInput);
   ("TaskGet", taskIDInput); ("TaskList", taskIDInput); ("TaskOutput", taskIDInput);
   ("TaskStop", taskIDInput); ("TodoWrite", todoWriteInput);
   ("ExitPlanMode", exitPlanInput); ("AskUserQuestion", askQuestionInput)]%string.

(** The part of an MCP tool name between [mcp__] and the next [__]. *)
Fixpoint beforeDoubleUnderscore (s : string) : string :=
  match s with
  | EmptyString => EmptyString
  | String.String c t =>
    if Strings.HasPrefix s "__" then EmptyString else String.String c (beforeDoubleUnderscore t)
  end.

Definition shortenMcpName (name : string) : string :=
  beforeDoubleUnderscore (Strings.TrimPrefix name "mcp__").

Definition mcpKeys : list string :=
  ["path"; "url"; "uri"; "query"; "id"; "name"; "command"]%string.

Section tools.
Context `{MR : MapRange}.

Definition mcpToolInput (name : string) (g : fieldGetter) : ToolInput :=
  match List.find (fun k => bool_decide (str g k <> EmptyString)) mcpKeys with
  | Some k => mkToolInput (str g k) (shortenMcpName name)
  | None =>
    match List.find (fun kr => bool_decide (stringOf kr.2 <> EmptyString)) (mapRange g) with
    | Some (k, raw) => mkToolInput (stringOf raw) k
    | None => mkToolInput "" (shortenMcpName name)
    end
  end.

Definition ParseToolInput (name : string) (input : RawMessage) : ToolInput :=
  if decide (input = EmptyString) then zeroToolInput
  else
    let '(g, err) := Unmarshal (dMap EmptyString dRaw) input ∅ in
    if err then zeroToolInput
    else if Strings.HasPrefix name "mcp__" then mcpToolInput name g
    else match List.find (fun h => String.eqb h.1 name) toolInputHandlers with
         | Some h => h.2 g
         | None => zeroToolInput
         end.
End tools.

(** ** Tool results *)

(** [var v T; _ = json.Unmarshal(raw, &v)]. *)
Definition decodeInto {T} (d : Decoder T) (raw : RawMessage) (zero : T) : T :=
  (Unmarshal d raw zero).1.

Record bashPayload := mkBashPayload { BP_Stdout : string; BP_Stderr : string; BP_Interrupted : bool }.
#[export] Instance eta_bashPayload : Eta bashPayload := fun r =>
  mkBashPayload (BP_Stdout r) (BP_Stderr r) (BP_Interrupted r).

Definition parseBashResult (raw : RawMessage) : BashResult :=
  let v := decodeInto (dStruct [fld "stdout" BP_Stdout dString; fld "stderr" BP_Stderr dString;
                                fld "interrupted" BP_Interrupted dBool])
             raw (mkBashPayload "" "" false) in
  mkBashResult (countLines (BP_Stdout v)) (countLines (BP_Stderr v))
    (leadingLines (BP_Stdout v) 3 160) (BP_Interrupted v).

Record editPayload := mkEditPayload { EP_FilePath : string; EP_StructuredPatch : list (list string) }.
#[export] Instance eta_editPayload : Eta editPayload := fun r =>
  mkEditPayload (EP_FilePath r) (EP_StructuredPatch r).

Definition countSign (sign : ascii) (lines : list string) : Z :=
  Z.of_nat (length (List.filter
    (fun l => match l with String.String c _ => Ascii.eqb c sign | EmptyString => false end) lines)).

Definition parseEditResult (raw : RawMessage) : EditResult :=
  let v := decodeInto (dStruct [fld "filePath" EP_FilePath dString;
             fld "structuredPatch" EP_StructuredPatch
               (dSlice [] (dStruct [("lines"%string, dSlice EmptyString dString)]))])
             raw (mkEditPayload "" []) in
  let lines := concat (EP_StructuredPatch v) in
  mkEditResult (EP_FilePath v) (countSign "+" lines) (countSign "-" lines)
    (Z.of_nat (length (EP_StructuredPatch v))).

#[export] Instance eta_ReadResult : Eta ReadResult := fun r =>
  mkReadResult (Read_FilePath r) (Read_StartLine r) (Read_NumLines r) (Read_TotalLines r).

(** The payload's [file] object has the fields of the result. *)
Definition parseReadResult (raw : RawMessage) : ReadResult :=
  decodeInto (dStruct [("file"%string,
      dStruct [fld "filePath" Read_FilePath dString; fld "startLine" Read_StartLine dInt;
               fld "numLines" Read_NumLines dInt; fld "totalLines" Read_TotalLines dInt])])
    raw (mkReadResult "" 0 0 0).

#[export] Instance eta_GlobGrepResult : Eta GlobGrepResult := fun r =>
  mkGlobGrepResult (GG_NumFiles r) (GG_NumLines r) (GG_Mode r).

Definition parseGlobGrepResult (raw : RawMessage) : GlobGrepResult :=
  decodeInto (dStruct [fld "numFiles" GG_NumFiles dInt; fld "numLines" GG_NumLines dInt;
                       fld "mode" GG_Mode dString])
    raw (mkGlobGrepResult 0 0 "").

#[export] Instance eta_AgentResult : Eta AgentResult := fun r =>
  mkAgentResult (Agent_ID r) (Agent_Type r) (Agent_Status r) (Agent_DurationMs r) (Agent_Tokens r).

Definition parseAgentResult (raw : RawMessage) : AgentResult :=
  decodeInto (dStruct [fld "agentId" Agent_ID dString; fld "agentType" Agent_Type dString;
                       fld "status" Agent_Status dString; fld "totalDurationMs" Agent_DurationMs dInt;
                       fld "totalTokens" Agent_Tokens dInt])
    raw (mkAgentResult "" "" "" 0 0).

Definition parseTodoResult (raw : RawMessage) : string :=
  let statuses := decodeInto (dStruct [("newTodos"%string, dStatuses)]) raw [] in
  match statuses with [] => "" | _ => todoCounts statuses end.

Record webPayload := mkWebPayload { WP_URL : string; WP_Query : string; WP_Content : string;
  WP_Result : string }.
#[export] Instance eta_webPayload : Eta webPayload := fun r =>
  mkWebPayload (WP_URL r) (WP_Query r) (WP_Content r) (WP_Result r).

Definition parseWebResult (raw : RawMessage) : WebResult :=
  let v := decodeInto (dStruct [fld "url" WP_URL dString; fld "query" WP_Query dString;
                                fld "content" WP_Content dString; fld "result" WP_Result dString])
             raw (mkWebPayload "" "" "" "") in
  let body := if decide (WP_Content v = EmptyString) then WP_Result v else WP_Content v in
  mkWebResult (WP_URL v) (bufio.len body) (WP_Query v).

Definition parseExitPlanResult (raw : RawMessage) : string :=
  firstLine (decodeInto (dStruct [("plan"%string, dString)]) raw EmptyString).

Definition genericChars (raw : RawMessage) : Z :=
  let '(s, err) := Unmarshal dString raw EmptyString in
  if err then bufio.len raw else bufio.len s.

Definition ParseToolUseResult (name : string) (raw : RawMessage) : option ToolResult :=
  let named (names : list string) := existsb (String.eqb name) names in
  if decide (raw = EmptyString) then None
  else Some (
    if named ["Bash"] then TRBash (parseBashResult raw)
    else if named ["Edit"; "Write"; "MultiEdit"] then TREdit (parseEditResult raw)
    else if named ["Read"] then TRRead (parseReadResult raw)
    else if named ["Glob"; "Grep"] then TRGlobGrep (parseGlobGrepResult raw)
    else if named ["Agent"; "Task"] then TRAgent (parseAgentResult raw)
    else if named ["TodoWrite"] then TRTodo (parseTodoResult raw)
    else if named ["WebFetch"; "WebSearch"] then TRWeb (parseWebResult raw)
    else if named ["ExitPlanMode"] then TRExitPlan (parseExitPlanResult raw)
    else TRGeneric (genericChars raw))%string.

(** *** Summaries *)

Definition GenericResult_Summary (chars : Z) : string :=
  if chars =? 0 then "ok" else "(" +:+ strconv.Itoa chars +:+ " chars)".

Definition BashResult_Summary (r : BashResult) : string :=
  let parts := if Bash_Interrupted r then ["interrupted"%string] else [] in
  let parts := parts ++
    (if 0 <? Bash_StdoutLines r then [strconv.Itoa (Bash_StdoutLines r) +:+ " lines stdout"]
     else if (Bash_StderrLines r =? 0) && negb (Bash_Interrupted r) then ["ok"%string] else []) in
  let parts := parts ++
    (if 0 <? Bash_StderrLines r then [strconv.Itoa (Bash_StderrLines r) +:+ " lines stderr"] else []) in
  match parts with [] => "ok" | _ => Strings.Join parts ", " end.

Definition EditResult_Summary (r : EditResult) : string :=
  if (Edit_Hunks r =? 0) && (Edit_AddedLines r =? 0) && (Edit_RemovedLines r =? 0) then "written"
  else "+" +:+ strconv.Itoa (Edit_AddedLines r) +:+ " -" +:+ strconv.Itoa (Edit_RemovedLines r)
       +:+ " (" +:+ strconv.Itoa (Edit_Hunks r) +:+ " hunks)".

Definition ReadResult_Summary (r : ReadResult) : string :=
  if (Read_NumLines r =? 0) && (Read_TotalLines r =? 0) then "read"
  else if (0 <? Read_TotalLines r) && (0 <? Read_NumLines r) then
    let end_ := (Read_StartLine r + Read_NumLines r - 1)%i64 in
    let end_ := if Read_StartLine r =? 0 then Read_NumLines r else end_ in
    "lines " +:+ strconv.Itoa (maxInt (Read_StartLine r) 1) +:+ "-" +:+ strconv.Itoa end_
    +:+ " / " +:+ strconv.Itoa (Read_TotalLines r)
  else strconv.Itoa (Read_NumLines r) +:+ " lines".

Definition GlobGrepResult_Summary (r : GlobGrepResult) : string :=
  if (GG_NumFiles r =? 0) && (GG_NumLines r =? 0) then "no matches"
  else if 0 <? GG_NumLines r then
    strconv.Itoa (GG_NumFiles r) +:+ " files, " +:+ strconv.Itoa (GG_NumLines r) +:+ " hits"
  else strconv.Itoa (GG_NumFiles r) +:+ " files".

Definition AgentResult_Summary (r : AgentResult) : string :=
  let label := if decide (Agent_Status r = EmptyString) then "done"%string else Agent_Status r in
  let label := if decide (Agent_Type r = EmptyString) then label
               else "[" +:+ Agent_Type r +:+ "] " +:+ label in
  let label := if 0 <? Agent_DurationMs r
               then label +:+ " " +:+ float.sprintf1 (Agent_DurationMs r) 1000 +:+ "s" else label in
  if 0 <? Agent_Tokens r then label +:+ " " +:+ humanThousands (Agent_Tokens r) +:+ " tok" else label.

Definition TodoResult_Summary (text : string) : string :=
  if decide (text = EmptyString) then "updated" else text.

Definition WebResult_Summary (r : WebResult) : string :=
  if bool_decide (Web_URL r <> EmptyString) && (0 <? Web_Chars r)
  then strconv.Itoa (Web_Chars r) +:+ " chars"
  else if decide (Web_Query r = EmptyString) then "fetched" else Web_Query r.

Definition ExitPlanResult_Summary (head : string) : string :=
  if decide (head = EmptyString) then "plan submitted" else head.

Definition Summary (t : ToolResult) : string :=
  match t with
  | TRGeneric chars => GenericResult_Summary chars
  | TRBash r => BashResult_Summary r
  | TREdit r => EditResult_Summary r
  | TRRead r => ReadResult_Summary r
  | TRGlobGrep r => GlobGrepResult_Summary r
  | TRAgent r => AgentResult_Summary r
  | TRTodo text => TodoResult_Summary text
  | TRWeb r => WebResult_Summary r
  | TRExitPlan head => ExitPlanResult_Summary head
  end.
End claudetx.
