(* ===== verification/ClaudeParser.v ===== *)
(** * client/lib/claude/transcript: the parser and the subagent loader

    [transcript.go], [transcript_event.go], [transcript_subagent.go].  A parser
    holds the names of the tool uses it has seen; its loader, if it has one,
    inlines the transcripts of subagents, which are parsed by parsers that
    share the loader.  [load_go] ties the knot with fuel: [None] is a load that
    does not return. *)

From S2P Require Import Prelude GoStd GoText GoJson GoIO ClaudeTool.
From stdpp Require Import pretty.
Open Scope Z_scope.

Module claudeparse.
Import json claudetx.

(** [toolUseNames] of the parser and [cache] of the loader. *)
Record Parser := mkParser {
  P_toolUseNames : gmap string string;
  P_cache : gmap string (list Entry);
}.
#[export] Instance eta_Parser : Eta Parser := fun p => mkParser (P_toolUseNames p) (P_cache p).

(** Computations of the parser: they may not return. *)
Definition M (A : Type) : Type := Parser -> option (A * Parser).
#[export] Instance M_ret : MRet M := fun A x p => Some (x, p).
#[export] Instance M_bind : MBind M := fun A B f m p =>
  match m p with Some (x, p) => f x p | None => None end.
Definition modify (f : Parser -> Parser) : M () := fun p => Some ((), f p).
Definition gets {A} (f : Parser -> A) : M A := fun p => Some (f p, p).

(** ** Lines without state *)

Record systemLine := mkSystemLine { Sys_Subtype : string; Sys_Level : string; Sys_Content : string }.
#[export] Instance eta_systemLine : Eta systemLine := fun r =>
  mkSystemLine (Sys_Subtype r) (Sys_Level r) (Sys_Content r).

Definition parseSystemEntry (line : string) : list Entry :=
  let '(v, err) := Unmarshal (dStruct [fld "subtype" Sys_Subtype dString;
      fld "level" Sys_Level dString; fld "content" Sys_Content dString])
    line (mkSystemLine "" "" "") in
  if err then []
  else
    let text := if decide (Sys_Subtype v = EmptyString) then "system"%string else Sys_Subtype v in
    let text := if bool_decide (Sys_Level v <> EmptyString) && bool_decide (Sys_Level v <> "info"%string)
                then Sys_Level v +:+ ":" +:+ text else text in
    let snippet := firstLine (Strings.TrimSpace (Sys_Content v)) in
    let text := if decide (snippet = EmptyString) then text
                else text +:+ "  " +:+ truncate snippet 120 in
    [textEntry KindSystem text].

Definition summarizeNameList (prefix : string) (names : list string) : string :=
  prefix +:+ Strings.Join (take 3 names) ","
  +:+ (if (3 <? length names)%nat
       then " +" +:+ strconv.Itoa (Z.of_nat (length names) - 3) +:+ " more" else "").

Record attachmentLine := mkAttachmentLine {
  Att_Type : string; Att_AddedNames : list string; Att_RemovedNames : list string }.
#[export] Instance eta_attachmentLine : Eta attachmentLine := fun r =>
  mkAttachmentLine (Att_Type r) (Att_AddedNames r) (Att_RemovedNames r).

Definition parseAttachmentEntry (line : string) : list Entry :=
  let '(v, err) := Unmarshal (dStruct [("attachment"%string,
      dStruct [fld "type" Att_Type dString;
               fld "addedNames" Att_AddedNames (dSlice EmptyString dString);
               fld "removedNames" Att_RemovedNames (dSlice EmptyString dString)])])
    line (mkAttachmentLine "" [] []) in
  if err then []
  else
    let part (prefix : string) names :=
      match names with [] => [] | _ => [summarizeNameList prefix names] end in
    match part "+"%string (Att_AddedNames v) ++ part "-"%string (Att_RemovedNames v) with
    | [] => []
    | parts =>
      let text := Strings.Join parts "  " in
      let text := if decide (Att_Type v = EmptyString) then text else Att_Type v +:+ "  " +:+ text in
      [textEntry KindAttachment text]
    end.

Definition parseFileSnapshotEntry (line : string) : list Entry :=
  let '(backups, err) := Unmarshal (dStruct [("snapshot"%string,
      dStruct [("trackedFileBackups"%string,
        dSlice EmptyString (dStruct [("backupFileName"%string, dString)]))])]) line [] in
  if err then []
  else [textEntry KindFileSnapshot (strconv.Itoa (Z.of_nat (length backups)) +:+ " tracked")].

Fixpoint firstNonEmptyTitle (candidates : list string) : string :=
  match candidates with
  | [] => EmptyString
  | s :: candidates => if decide (s = EmptyString) then firstNonEmptyTitle candidates else s
  end.

Record titleLine := mkTitleLine { Title_CustomTitle : string; Title_AITitle : string }.
#[export] Instance eta_titleLine : Eta titleLine := fun r =>
  mkTitleLine (Title_CustomTitle r) (Title_AITitle r).

Definition parseTitleEntry (line : string) : list Entry :=
  let '(v, err) := Unmarshal (dStruct [fld "customTitle" Title_CustomTitle dString;
      fld "aiTitle" Title_AITitle dString]) line (mkTitleLine "" "") in
  if err then []
  else
    let title := firstNonEmptyTitle [Title_AITitle v; Title_CustomTitle v] in
    if decide (title = EmptyString) then [] else [textEntry KindCustomTitle title].

Definition parseAgentNameEntry (line : string) : list Entry :=
  let '(name, err) := Unmarshal (dStruct [("agentName"%string, dString)]) line EmptyString in
  if err then [] else if decide (name = EmptyString) then [] else [textEntry KindAgentName name].

Definition parseLastPromptEntry (line : string) : list Entry :=
  let '(prompt, err) := Unmarshal (dStruct [("lastPrompt"%string, dString)]) line EmptyString in
  if err then [] else [textEntry KindLastPrompt prompt].

(** ** User and assistant lines *)

Definition systemTagPrefixes : list string :=
  ["<local-command-caveat>"; "<command-name>"; "<system-reminder>"; "<bash-input>";
   "<bash-stdout>"; "<bash-stderr>"]%string.

Definition stripSystemTags (s : string) : string :=
  if existsb (Strings.HasPrefix s) systemTagPrefixes then EmptyString else s.

Definition contentLen (raw : RawMessage) : Z :=
  let '(s, err) := Unmarshal dString raw EmptyString in
  if negb err then bufio.len s
  else
    let '(texts, err) :=
      Unmarshal (dSlice EmptyString (dStruct [("text"%string, dString)])) raw [] in
    if err then 0 else foldl (fun n t => (n + bufio.len t)%i64) 0 texts.

Record userBlock := mkUserBlock {
  UB_Type : string; UB_Text : string; UB_Content : RawMessage; UB_IsError : bool;
  UB_ToolUseID : string }.
#[export] Instance eta_userBlock : Eta userBlock := fun r =>
  mkUserBlock (UB_Type r) (UB_Text r) (UB_Content r) (UB_IsError r) (UB_ToolUseID r).

Definition dUserBlock : Decoder userBlock :=
  dStruct [fld "type" UB_Type dString; fld "text" UB_Text dString; fld "content" UB_Content dRaw;
           fld "is_error" UB_IsError dBool; fld "tool_use_id" UB_ToolUseID dString].

(** The entry, and whether the line's [toolUseResult] is used up. *)
Definition buildToolResultEntry (names : gmap string string) (b : userBlock)
    (topToolUseResult : RawMessage) (consumed : bool) : Entry * bool :=
  let e := entryOf KindToolResult <| Entry_ToolUseID := UB_ToolUseID b |>
                                  <| Entry_IsError := UB_IsError b |> in
  let '(e, consumed) :=
    match names !! UB_ToolUseID b with
    | Some name =>
      let e := e <| Entry_ToolName := name |> in
      if negb consumed && bool_decide (topToolUseResult <> EmptyString) then
        match ParseToolUseResult name topToolUseResult with
        | Some tr => (e <| Entry_ToolResult := Some tr |>, true)
        | None => (e, consumed)
        end
      else (e, consumed)
    | None => (e, consumed)
    end in
  match Entry_ToolResult e with
  | Some _ => (e, consumed)
  | None => (e <| Entry_ToolResult := Some (TRGeneric (contentLen (UB_Content b))) |>, consumed)
  end.

Record assistantBlock := mkAssistantBlock {
  AB_Type : string; AB_Text : string; AB_Thinking : string; AB_Name : string; AB_ID : string;
  AB_Input : RawMessage }.
#[export] Instance eta_assistantBlock : Eta assistantBlock := fun r =>
  mkAssistantBlock (AB_Type r) (AB_Text r) (AB_Thinking r) (AB_Name r) (AB_ID r) (AB_Input r).

Definition dAssistantBlock : Decoder assistantBlock :=
  dStruct [fld "type" AB_Type dString; fld "text" AB_Text dString;
           fld "thinking" AB_Thinking dString; fld "name" AB_Name dString; fld "id" AB_ID dString;
           fld "input" AB_Input dRaw].

(** [jsonMessage]: its [Content]. *)
Definition dMessage : Decoder (option RawMessage) :=
  dPtr EmptyString (dStruct [("content"%string, dRaw)]).

Record lineHead := mkLineHead { Head_Type : string; Head_UUID : string; Head_ParentUUID : string }.
#[export] Instance eta_lineHead : Eta lineHead := fun r =>
  mkLineHead (Head_Type r) (Head_UUID r) (Head_ParentUUID r).

Definition dHead : Decoder lineHead :=
  dStruct [fld "type" Head_Type dString; fld "uuid" Head_UUID dString;
           fld "parentUuid" Head_ParentUUID dString].

Record userLine := mkUserLine { UL_Message : option RawMessage; UL_ToolUseResult : RawMessage }.
#[export] Instance eta_userLine : Eta userLine := fun r =>
  mkUserLine (UL_Message r) (UL_ToolUseResult r).

Definition dUserLine : Decoder userLine :=
  dStruct [fld "message" UL_Message dMessage; fld "toolUseResult" UL_ToolUseResult dRaw].

(** The stamp of a line with a uuid; a line without entries leaves a stub. *)
Definition stamp (head : lineHead) (entries : list Entry) : list Entry :=
  if decide (Head_UUID head = EmptyString) then entries
  else
    map (fun e => e <| Entry_UUID := Head_UUID head |>
                    <| Entry_ParentUUID := Head_ParentUUID head |>)
      (match entries with [] => [entryOf KindUnknown] | _ => entries end).

Section parser.
Context `{MR : MapRange}.
(** [opts.ShowThinking], and [Load] of the loader; [None] if there is none. *)
Context (showThinking : bool) (load : option (string -> Z -> M (list Entry))).

Definition assistantBlockEntry (b : assistantBlock) : M (list Entry) :=
  if decide (AB_Type b = "text"%string) then
    let t := Strings.TrimSpace (AB_Text b) in
    mret (if decide (t = EmptyString) then [] else [textEntry KindAssistantText t])
  else if decide (AB_Type b = "thinking"%string) then
    if negb showThinking then mret []
    else
      let t := Strings.TrimSpace (AB_Thinking b) in
      let t := if decide (t = EmptyString) then Strings.TrimSpace (AB_Text b) else t in
      mret (if decide (t = EmptyString) then [] else [textEntry KindAssistantThinking t])
  else if decide (AB_Type b = "tool_use"%string) then
    _ ← (if bool_decide (AB_ID b <> EmptyString) && bool_decide (AB_Name b <> EmptyString)
         then modify (fun p => p <| P_toolUseNames := <[AB_ID b := AB_Name b]> (P_toolUseNames p) |>)
         else mret ());
    mret [entryOf KindToolUse <| Entry_ToolName := AB_Name b |> <| Entry_ToolUseID := AB_ID b |>
            <| Entry_ToolInput := ParseToolInput (AB_Name b) (AB_Input b) |>]
  else mret [].

Fixpoint assistantBlocks (blocks : list assistantBlock) : M (list Entry) :=
  match blocks with
  | [] => mret []
  | b :: blocks =>
    es ← assistantBlockEntry b; rest ← assistantBlocks blocks; mret (es ++ rest)
  end.

Definition parseAssistantEntry (msg : option RawMessage) : M (list Entry) :=
  match msg with
  | None => mret []
  | Some content =>
    let '(blocks, err) :=
      Unmarshal (dSlice (mkAssistantBlock "" "" "" "" "" "") dAssistantBlock) content [] in
    if err then mret [] else assistantBlocks blocks
  end.

Definition maybeInlineSubagent (e : Entry) : M (list Entry) :=
  match load with
  | None => mret []
  | Some load =>
    if bool_decide (Entry_ToolName e <> "Task"%string)
       && bool_decide (Entry_ToolName e <> "Agent"%string) then mret []
    else match Entry_ToolResult e with
         | Some (TRAgent ar) =>
           if decide (Agent_ID ar = EmptyString) then mret [] else load (Agent_ID ar) 0
         | _ => mret []
         end
  end.

Fixpoint userBlocks (top : RawMessage) (consumed : bool) (blocks : list userBlock)
    : M (list Entry) :=
  match blocks with
  | [] => mret []
  | b :: blocks =>
    if decide (UB_Type b = "text"%string) then
      let t := Strings.TrimSpace (UB_Text b) in
      rest ← userBlocks top consumed blocks;
      mret (if decide (t = EmptyString) then rest
            else (textEntry KindUser t <| Entry_Synthetic := true |>) :: rest)
    else if decide (UB_Type b = "tool_result"%string) then
      names ← gets P_toolUseNames;
      let '(e, consumed) := buildToolResultEntry names b top consumed in
      sub ← maybeInlineSubagent e;
      rest ← userBlocks top consumed blocks;
      mret (e :: sub ++ rest)
    else userBlocks top consumed blocks
  end.

Definition parseUserEntry (msg : option RawMessage) (topToolUseResult : RawMessage)
    : M (list Entry) :=
  match msg with
  | None => mret []
  | Some content =>
    let '(s, err) := Unmarshal dString content EmptyString in
    if negb err then
      let s := stripSystemTags (Strings.TrimSpace s) in
      mret (if decide (s = EmptyString) then [] else [textEntry KindUser s])
    else
      let '(blocks, err) :=
        Unmarshal (dSlice (mkUserBlock "" "" "" false "") dUserBlock) content [] in
      if err then mret [] else userBlocks topToolUseResult false blocks
  end.

(** The entries of a line before they are stamped; [None]: the line is
    dropped. *)
Definition lineEntries (head : lineHead) (line : string) : M (option (list Entry)) :=
  let kind := Head_Type head in
  if decide (kind = "user"%string) then
    let '(u, err) := Unmarshal dUserLine line (mkUserLine None EmptyString) in
    if err then mret None
    else es ← parseUserEntry (UL_Message u) (UL_ToolUseResult u); mret (Some es)
  else if decide (kind = "assistant"%string) then
    let '(m, err) := Unmarshal (dStruct [("message"%string, dMessage)]) line None in
    if err then mret None
    else es ← parseAssistantEntry m; mret (Some es)
  else if decide (kind = "system"%string) then mret (Some (parseSystemEntry line))
  else if decide (kind = "attachment"%string) then mret (Some (parseAttachmentEntry line))
  else if decide (kind = "file-history-snapshot"%string) then
    mret (Some (parseFileSnapshotEntry line))
  else if decide (kind = "custom-title"%string \/ kind = "ai-title"%string) then
    mret (Some (parseTitleEntry line))
  else if decide (kind = "agent-name"%string) then mret (Some (parseAgentNameEntry line))
  else if decide (kind = "last-prompt"%string) then mret (Some (parseLastPromptEntry line))
  else mret None.

Definition parseLine (line : string) : M (list Entry) :=
  if decide (line = EmptyString) then mret []
  else
    let '(head, err) := Unmarshal dHead line (mkLineHead "" "" "") in
    if err then mret []
    else
      es ← lineEntries head line;
      mret (match es with Some es => stamp head es | None => [] end).

Fixpoint parseEach (lines : list string) : M (list Entry) :=
  match lines with
  | [] => mret []
  | l :: lines => es ← parseLine l; rest ← parseEach lines; mret (es ++ rest)
  end.

(** A chunk of JSONL, and a whole reader. *)
Definition ParseLines (raw : string) : M (list Entry) :=
  if decide (raw = EmptyString) then mret [] else parseEach (Strings.Split raw bufio.newline).

Definition ParseAll (data : string) : M (list Entry) :=
  parseEach (bufio.scan (16 * 1024 * 1024) data).1.1.
End parser.

(** [NewParser] and [Reset]. *)
Definition newParser (cache : gmap string (list Entry)) : Parser := mkParser ∅ cache.
Definition Reset (p : Parser) : Parser := p <| P_toolUseNames := ∅ |>.

(** ** Subagents *)

Record subagentMeta := mkSubagentMeta { Meta_AgentType : string; Meta_Description : string }.
#[export] Instance eta_subagentMeta : Eta subagentMeta := fun r =>
  mkSubagentMeta (Meta_AgentType r) (Meta_Description r).

Definition formatSubagentLabel (m : subagentMeta) (agentID : string) : string :=
  if bool_decide (Meta_AgentType m <> EmptyString) && bool_decide (Meta_Description m <> EmptyString)
  then Meta_AgentType m +:+ ": " +:+ Meta_Description m
  else if bool_decide (Meta_AgentType m <> EmptyString) then Meta_AgentType m
  else if bool_decide (Meta_Description m <> EmptyString) then Meta_Description m
  else agentID.

Section loader.
Context `{MR : MapRange}.
(** The files under [fsys], the [root] in it, and [opts.ShowThinking]. *)
Context (fsys : string -> option string) (root : string) (showThinking : bool).

Definition readSubagentMeta (path : string) : subagentMeta :=
  match fsys path with
  | None => mkSubagentMeta "" ""
  | Some data =>
    decodeInto (dStruct [fld "agentType" Meta_AgentType dString;
                         fld "description" Meta_Description dString])
      data (mkSubagentMeta "" "")
  end.

Definition jsonlPath (agentID : string) : string :=
  filepath.Join [root; "agent-" +:+ agentID +:+ ".jsonl"].
Definition metaPath (agentID : string) : string :=
  filepath.Join [root; "agent-" +:+ agentID +:+ ".meta.json"].

Definition deepen (n : Z) (e : Entry) : Entry := e <| Entry_Depth := Entry_Depth e + n |>.

(** The transcript with the markers around it. *)
Definition bracket (meta : subagentMeta) (agentID : string) (body : list Entry) : list Entry :=
  (textEntry KindSubagentBegin (formatSubagentLabel meta agentID) <| Entry_Depth := 1 |>)
  :: map (deepen 1) body
  ++ [textEntry KindSubagentEnd (Meta_AgentType meta) <| Entry_Depth := 1 |>].

(** [loadFromDisk]: a parser of its own, the loader shared. *)
Definition loadFromDisk (load : string -> Z -> M (list Entry)) (agentID : string)
    : M (list Entry) := fun p =>
  match fsys (jsonlPath agentID) with
  | None => Some ([], p)
  | Some data =>
    match ParseAll showThinking (Some load) data (newParser (P_cache p)) with
    | None => None
    | Some (body, inner) =>
      Some (bracket (readSubagentMeta (metaPath agentID)) agentID body,
            p <| P_cache := P_cache inner |>)
    end
  end.

(** [Load]: the cache is filled after the file is parsed. *)
Definition Load (disk : string -> M (list Entry)) (agentID : string) (baseDepth : Z)
    : M (list Entry) :=
  if decide (agentID = EmptyString) then mret []
  else
    cache ← gets P_cache;
    cached ← match cache !! agentID with
             | Some cached => mret cached
             | None =>
               cached ← disk agentID;
               _ ← modify (fun p => p <| P_cache := <[agentID := cached]> (P_cache p) |>);
               mret cached
             end;
    mret (map (deepen baseDepth) cached).

Fixpoint load_go (fuel : nat) (agentID : string) (baseDepth : Z) : M (list Entry) :=
  match fuel with
  | O => fun _ => None
  | S fuel => Load (loadFromDisk (load_go fuel)) agentID baseDepth
  end.
End loader.
End claudeparse.
