(* ===== verification/ClaudeTracker.v ===== *)
(** * client/lib/claude/transcript: insight, usage and the tracker

    [transcript_insight.go], [transcript_usage.go], [transcript_tracker.go].
    The tracker folds what was appended to a transcript file since the last
    update into a state per session.  The file is the argument [file] of an
    update: its content, or [None] when it cannot be opened. *)

From S2P Require Import Prelude GoStd GoText GoJson GoIO ClaudeTool ClaudeParser.
From stdpp Require Import pretty.
Open Scope Z_scope.

Module claudetrack.
Import json claudetx claudeparse.

(** ** transcript_insight.go *)

Record SessionInsight := mkSessionInsight {
  SI_CurrentTool : string;
  SI_RecentCommands : list string;
  SI_SubagentCounts : gmap string Z;
  SI_TouchedFiles : list string;
  SI_AgentName : string;
  SI_PlanFile : string;
}.
#[export] Instance eta_SessionInsight : Eta SessionInsight := fun r =>
  mkSessionInsight (SI_CurrentTool r) (SI_RecentCommands r) (SI_SubagentCounts r)
    (SI_TouchedFiles r) (SI_AgentName r) (SI_PlanFile r).
Definition zeroInsight : SessionInsight := mkSessionInsight "" [] ∅ [] "" "".

Definition maxRecentCommands : nat := 5.
Definition maxTouchedFiles : nat := 10.

(** The first occurrence of [v] is dropped. *)
Fixpoint removeFirst (v : string) (l : list string) : list string :=
  match l with
  | [] => []
  | s :: l => if decide (s = v) then l else s :: removeFirst v l
  end.

Definition appendBoundedUnique (l : list string) (v : string) (max : nat) : list string :=
  let l := removeFirst v l ++ [v] in
  drop (length l - max) l.

Definition isPlanFilePath (path : string) : bool :=
  Strings.Contains path "/.claude/plans/" && Strings.HasSuffix path ".md".

Definition touchesFile (tool : string) : bool :=
  existsb (String.eqb tool) ["Read"; "Write"; "Edit"; "MultiEdit"]%string.

Definition applyEntryToInsight (i : SessionInsight) (e : Entry) : SessionInsight :=
  match Entry_Kind e with
  | KindAgentName => i <| SI_AgentName := Entry_Text e |>
  | KindToolUse =>
    let i := i <| SI_CurrentTool := Entry_ToolName e |> in
    let primary := TI_Primary (Entry_ToolInput e) in
    if decide (primary = EmptyString) then i
    else if decide (Entry_ToolName e = "Bash"%string) then
      i <| SI_RecentCommands := appendBoundedUnique (SI_RecentCommands i) primary maxRecentCommands |>
    else if touchesFile (Entry_ToolName e) then
      let i := i <| SI_TouchedFiles :=
        appendBoundedUnique (SI_TouchedFiles i) primary maxTouchedFiles |> in
      if bool_decide (Entry_ToolName e = "Write"%string) && isPlanFilePath primary
      then i <| SI_PlanFile := primary |> else i
    else i
  | KindToolResult =>
    let i := i <| SI_CurrentTool := EmptyString |> in
    if decide (Entry_ToolName e = "Task"%string \/ Entry_ToolName e = "Agent"%string) then
      match Entry_ToolResult e with
      | Some (TRAgent ar) =>
        if decide (Agent_Type ar = EmptyString) then i
        else i <| SI_SubagentCounts :=
               <[Agent_Type ar := (default 0%Z (SI_SubagentCounts i !! Agent_Type ar) + 1)%i64]>
                 (SI_SubagentCounts i) |>
      | _ => i
      end
    else i
  | _ => i
  end.

Definition UpdateInsight (i : SessionInsight) (entries : list Entry) : SessionInsight :=
  foldl applyEntryToInsight i entries.

Record MetaSnapshot := mkMetaSnapshot {
  Snap_Title : string; Snap_LastPrompt : string; Snap_Insight : SessionInsight }.
#[export] Instance eta_MetaSnapshot : Eta MetaSnapshot := fun r =>
  mkMetaSnapshot (Snap_Title r) (Snap_LastPrompt r) (Snap_Insight r).

Definition applyEntryToMeta (snap : MetaSnapshot) (e : Entry) : MetaSnapshot :=
  let snap :=
    match Entry_Kind e with
    | KindCustomTitle => snap <| Snap_Title := Entry_Text e |>
    | KindUser =>
      if bool_decide (Entry_Text e <> EmptyString) && negb (Entry_Synthetic e)
      then snap <| Snap_LastPrompt := Entry_Text e |> else snap
    | _ => snap
    end in
  snap <| Snap_Insight := applyEntryToInsight (Snap_Insight snap) e |>.

Definition AggregateMeta (entries : list Entry) : MetaSnapshot :=
  foldl applyEntryToMeta (mkMetaSnapshot "" "" zeroInsight) entries.

(** Sums wrap, so the order in which the map is visited does not matter. *)
Definition SubagentTotal (i : SessionInsight) : Z :=
  wrap64 (map_fold (fun _ v n => v + n) 0 (SI_SubagentCounts i)).

(** ** transcript_usage.go *)

Record TurnUsage := mkTurnUsage {
  TU_Model : string; TU_InputTokens : Z; TU_CacheCreationInputTokens : Z;
  TU_CacheReadInputTokens : Z; TU_OutputTokens : Z }.

Definition TotalInputTokens (u : TurnUsage) : Z :=
  (TU_InputTokens u + TU_CacheCreationInputTokens u + TU_CacheReadInputTokens u)%i64.

(** [strings.LastIndex(s, sub)]. *)
Fixpoint LastIndex (s sub : string) : option nat :=
  match s with
  | EmptyString => if Strings.HasPrefix s sub then Some 0%nat else None
  | String.String _ t =>
    match LastIndex t sub with
    | Some i => Some (S i)
    | None => if Strings.HasPrefix s sub then Some 0%nat else None
    end
  end.

Definition shortenModel (v : value) : string :=
  let id := match v with
            | Object ms => default EmptyString (v ← mapGet ms "id"; asString v)
            | Str s => s
            | _ => EmptyString
            end in
  if decide (id = EmptyString) then EmptyString
  else
    let id := Strings.TrimPrefix id "claude-" in
    match LastIndex id "-20" with
    | Some (S _ as i) => Strings.str_take i id
    | _ => id
    end.

Definition formatTokens (n : Z) : string :=
  if n <? 1000 then strconv.Itoa n else strconv.Itoa (n / 1000) +:+ "k".

Record usageFields := mkUsageFields {
  UF_Input : Z; UF_CacheCreation : Z; UF_CacheRead : Z; UF_Output : Z }.
#[export] Instance eta_usageFields : Eta usageFields := fun r =>
  mkUsageFields (UF_Input r) (UF_CacheCreation r) (UF_CacheRead r) (UF_Output r).
Record usageMessage := mkUsageMessage { UM_Model : value; UM_Usage : option usageFields }.
#[export] Instance eta_usageMessage : Eta usageMessage := fun r =>
  mkUsageMessage (UM_Model r) (UM_Usage r).
Record usageLine := mkUsageLine { ULn_Type : string; ULn_Message : option usageMessage }.
#[export] Instance eta_usageLine : Eta usageLine := fun r =>
  mkUsageLine (ULn_Type r) (ULn_Message r).

Definition dUsageLine : Decoder usageLine :=
  dStruct [fld "type" ULn_Type dString;
           fld "message" ULn_Message (dPtr (mkUsageMessage Null None)
             (dStruct [fld "model" UM_Model dAny;
                       fld "usage" UM_Usage (dPtr (mkUsageFields 0 0 0 0)
                         (dStruct [fld "input_tokens" UF_Input dInt;
                                   fld "cache_creation_input_tokens" UF_CacheCreation dInt;
                                   fld "cache_read_input_tokens" UF_CacheRead dInt;
                                   fld "output_tokens" UF_Output dInt]))]))].

Definition ParseTurnUsage (line : string) : option TurnUsage :=
  let '(entry, err) := Unmarshal dUsageLine line (mkUsageLine "" None) in
  if err then None
  else if decide (ULn_Type entry <> "assistant"%string) then None
  else
    m ← ULn_Message entry; u ← UM_Usage m;
    Some (mkTurnUsage (shortenModel (UM_Model m)) (UF_Input u) (UF_CacheCreation u)
            (UF_CacheRead u) (UF_Output u)).

(** ** transcript_tracker.go *)

Record TurnText := mkTurnText { Turn_Role : string; Turn_Text : string }.

Record trackerState := mkTrackerState {
  T_parser : gmap string string;
  T_offset : Z;
  T_buf : string;
  T_title : string;
  T_parentOf : gmap string string;
  T_userPrompts : gmap string string;
  T_tailUUID : string;
  T_recentTurns : list TurnText;
  T_insight : SessionInsight;
  T_model : string;
  T_inputTokens : Z;
  T_outputTokens : Z;
  T_formattedLine : string;
}.
#[export] Instance eta_trackerState : Eta trackerState := fun r =>
  mkTrackerState (T_parser r) (T_offset r) (T_buf r) (T_title r) (T_parentOf r) (T_userPrompts r)
    (T_tailUUID r) (T_recentTurns r) (T_insight r) (T_model r) (T_inputTokens r)
    (T_outputTokens r) (T_formattedLine r).

Definition newTrackerState : trackerState :=
  mkTrackerState ∅ 0 "" "" ∅ ∅ "" [] zeroInsight "" 0 0 "".

(** [Tracker.sessions]. *)
Abbreviation Tracker := (gmap string trackerState).
Definition NewTracker : Tracker := ∅.

Definition recentTurnsCap : nat := 64.

Definition appendRecentTurn (st : trackerState) (t : TurnText) : trackerState :=
  let turns := T_recentTurns st in
  let turns := if (recentTurnsCap <=? length turns)%nat then tail turns else turns in
  st <| T_recentTurns := turns ++ [t] |>.

Definition applyMetaEntry (st : trackerState) (e : Entry) : trackerState :=
  if decide (Entry_Kind e = KindCustomTitle) then st <| T_title := Entry_Text e |> else st.

Definition applyChainEntry (st : trackerState) (e : Entry) : trackerState :=
  if decide (Entry_UUID e = EmptyString) then st
  else
    let st := st <| T_parentOf := <[Entry_UUID e := Entry_ParentUUID e]> (T_parentOf st) |> in
    let st :=
      if decide (Entry_Kind e = KindUser /\ Entry_Text e <> EmptyString /\ Entry_Synthetic e = false)
      then appendRecentTurn (st <| T_userPrompts := <[Entry_UUID e := Entry_Text e]> (T_userPrompts st) |>)
             (mkTurnText "user" (Entry_Text e))
      else if decide (Entry_Kind e = KindAssistantText /\ Entry_Text e <> EmptyString)
      then appendRecentTurn st (mkTurnText "assistant" (Entry_Text e))
      else st in
    st <| T_tailUUID := Entry_UUID e |>.

Definition resetForRescan (st : trackerState) : trackerState :=
  newTrackerState <| T_formattedLine := T_formattedLine st |>.

(** [activeLastPrompt]: at most [steps] hops up the chain. *)
Fixpoint walk (st : trackerState) (steps : nat) (cur : string) : string :=
  match steps with
  | O => EmptyString
  | S steps =>
    if decide (cur = EmptyString) then EmptyString
    else match T_userPrompts st !! cur with
         | Some text => text
         | None => walk st steps (default EmptyString (T_parentOf st !! cur))
         end
  end.

Definition maxWalk : nat := Z.to_nat 100000.
Definition activeLastPrompt (st : trackerState) : string := walk st maxWalk (T_tailUUID st).

Record StatusSnapshot := mkStatusSnapshot {
  SS_Model : string; SS_InputTokens : Z; SS_OutputTokens : Z; SS_Insight : SessionInsight }.

Definition FormatStatusLine (snap : StatusSnapshot) : string :=
  let parts := if decide (SS_Model snap = EmptyString) then [] else [SS_Model snap] in
  let parts := parts ++
    (if (0 <? SS_InputTokens snap) || (0 <? SS_OutputTokens snap)
     then [formatTokens (SS_InputTokens snap) +:+ "↓ " +:+ formatTokens (SS_OutputTokens snap) +:+ "↑"]
     else []) in
  let parts := parts ++
    (if decide (SI_CurrentTool (SS_Insight snap) = EmptyString) then []
     else ["▸ " +:+ SI_CurrentTool (SS_Insight snap)]) in
  let n := SubagentTotal (SS_Insight snap) in
  let parts := parts ++ (if 0 <? n then [strconv.Itoa n +:+ " subs"] else []) in
  Strings.Join parts " | ".

Definition snapshot (st : trackerState) : StatusSnapshot :=
  mkStatusSnapshot (T_model st) (T_inputTokens st) (T_outputTokens st) (T_insight st).

(** The last [userTurns] rounds: the position of the user turn they start at. *)
Fixpoint roundStart (seen : nat) (userTurns : Z) (rev : list TurnText) : nat :=
  match rev with
  | [] => 0
  | t :: older =>
    if decide (Turn_Role t = "user"%string) then
      if userTurns <=? Z.of_nat (S seen) then length older
      else roundStart (S seen) userTurns older
    else roundStart seen userTurns older
  end.

Definition RecentRounds (t : Tracker) (agentSessionID : string) (userTurns : Z) : list TurnText :=
  if userTurns <=? 0 then []
  else match t !! agentSessionID with
       | None => []
       | Some st => drop (roundStart 0 userTurns (reverse (T_recentTurns st))) (T_recentTurns st)
       end.

Definition Snapshot (t : Tracker) (agentSessionID : string) : MetaSnapshot :=
  match t !! agentSessionID with
  | None => mkMetaSnapshot "" "" zeroInsight
  | Some st => mkMetaSnapshot (T_title st) (activeLastPrompt st) (T_insight st)
  end.

Definition StatusLine (t : Tracker) (agentSessionID : string) : string :=
  match t !! agentSessionID with Some st => T_formattedLine st | None => EmptyString end.

Definition Forget (t : Tracker) (agentSessionID : string) : Tracker := delete agentSessionID t.

Section tracker.
Context `{MR : MapRange}.

(** [st.parser.ParseLines(line)]: the tracker's parser has no loader, so it
    always returns. *)
Definition parseNames (names : gmap string string) (line : string)
    : list Entry * gmap string string :=
  match ParseLines false None line (mkParser names ∅) with
  | Some (es, p) => (es, P_toolUseNames p)
  | None => ([], names)
  end.

Definition applyUsage (st : trackerState) (u : TurnUsage) : trackerState :=
  st <| T_model := TU_Model u |>
     <| T_inputTokens := (T_inputTokens st + TotalInputTokens u)%i64 |>
     <| T_outputTokens := (T_outputTokens st + TU_OutputTokens u)%i64 |>.

Definition applyEntry (st : trackerState) (e : Entry) : trackerState :=
  applyChainEntry (applyMetaEntry st e) e.

Definition applyParsed (st : trackerState) (entries : list Entry) (names : gmap string string)
    : trackerState :=
  let st := foldl applyEntry (st <| T_parser := names |>) entries in
  st <| T_insight := UpdateInsight (T_insight st) entries |>.

Definition applyLine (st : trackerState) (line : string) : trackerState :=
  let st := match ParseTurnUsage line with Some u => applyUsage st u | None => st end in
  let '(entries, names) := parseNames (T_parser st) line in applyParsed st entries names.

Definition scannerMax : Z := 1024 * 1024.

(** The tokens; a pending [buf] goes in front of the first. *)
Definition runScanner (st : trackerState) (tokens : list string) : trackerState :=
  match tokens with
  | [] => st
  | line :: tokens =>
    let '(line, st) :=
      if decide (T_buf st = EmptyString) then (line, st)
      else (T_buf st +:+ line, st <| T_buf := EmptyString |>) in
    foldl applyLine (applyLine st line) tokens
  end.

Definition scanNewLines (st : trackerState) (file : option string) : trackerState * bool :=
  match file with
  | None => (st, true)
  | Some content =>
    let st := if bufio.len content <? T_offset st then resetForRescan st else st in
    let '(tokens, n, _) :=
      bufio.scan scannerMax (Strings.str_drop (Z.to_nat (T_offset st)) content) in
    let st := runScanner st tokens in
    (st <| T_offset := T_offset st + n |>, false)
  end.

Definition stateFor (t : Tracker) (id : string) : trackerState := default newTrackerState (t !! id).

(** The tracker, whether the line changed, and whether there was an error. *)
Definition Update (t : Tracker) (agentSessionID transcriptPath : string) (file : option string)
    : Tracker * bool * bool :=
  if decide (transcriptPath = EmptyString \/ agentSessionID = EmptyString) then (t, false, false)
  else
    let '(st, err) := scanNewLines (stateFor t agentSessionID) file in
    if err then (<[agentSessionID := st]> t, false, true)
    else
      let newLine := FormatStatusLine (snapshot st) in
      (<[agentSessionID := st <| T_formattedLine := newLine |>]> t,
       bool_decide (newLine <> T_formattedLine st), false).
End tracker.
End claudetrack.
