(* ===== verification/ClaudeFollow.v ===== *)
(** * client/lib/claude/transcript: following a transcript file

    A parser without a loader always returns.  Updates at line boundaries add
    up to one update of the whole file; the bounds of the rolling windows; the
    prompt found by walking the chain; the loading of subagents. *)

From S2P Require Import Prelude GoStd GoText GoJson GoIO ClaudeTool ClaudeParser ClaudeTracker.
Open Scope Z_scope.

Import json claudetx claudeparse claudetrack.

Section follow.
Context `{MR : MapRange}.

(** ** Parsers that return *)

(** [m] returns in every state; [total] is closed under the monad. *)
Definition total {A} (m : M A) : Prop := forall p, is_Some (m p).

Lemma total_ret {A} (x : A) : total (mret x).
Proof. intros p. by eexists. Qed.
Lemma total_bind {A B} (m : M A) (f : A -> M B) : total m -> (forall x, total (f x)) -> total (m ≫= f).
Proof.
  intros Hm Hf p. unfold mbind, M_bind. destruct (Hm p) as [[x p'] ->]. apply Hf.
Qed.
Lemma total_gets {A} (f : Parser -> A) : total (gets f).
Proof. intros p. by eexists. Qed.
Lemma total_modify f : total (modify f).
Proof. intros p. by eexists. Qed.

Ltac total :=
  repeat first
    [ apply total_ret | apply total_gets | apply total_modify | assumption
    | apply total_bind; [|intros ?] | case_match ].

Lemma assistantBlocks_total show blocks : total (assistantBlocks show blocks).
Proof.
  induction blocks as [|b blocks IH]; cbn [assistantBlocks]; [total|].
  apply total_bind; [unfold assistantBlockEntry; total|]. intros es. total.
Qed.

Lemma maybeInlineSubagent_total e : total (maybeInlineSubagent None e).
Proof. unfold maybeInlineSubagent. total. Qed.

Lemma userBlocks_total top consumed blocks : total (userBlocks None top consumed blocks).
Proof.
  revert consumed. induction blocks as [|b blocks IH]; intros consumed; cbn [userBlocks]; [total|].
  case_decide; [total; apply IH|]. case_decide; [|apply IH].
  apply total_bind; [total|]. intros names. case_match.
  apply total_bind; [apply maybeInlineSubagent_total|]. intros sub.
  apply total_bind; [apply IH|]. intros rest. total.
Qed.

Lemma lineEntries_total show head line : total (lineEntries show None head line).
Proof.
  unfold lineEntries, parseUserEntry, parseAssistantEntry.
  repeat (case_decide || case_match || apply total_ret);
    (apply total_bind; [|intros ?; apply total_ret]);
    repeat (case_match || apply total_ret);
    auto using userBlocks_total, assistantBlocks_total, total_ret.
Qed.

Lemma parseLine_total show line : total (parseLine show None line).
Proof.
  unfold parseLine. case_decide; [total|]. case_match. case_match; [total|].
  apply total_bind; [apply lineEntries_total|]. intros es. total.
Qed.

Lemma parseEach_total show lines : total (parseEach show None lines).
Proof.
  induction lines as [|l lines IH]; cbn [parseEach]; [total|].
  apply total_bind; [apply parseLine_total|]. intros es. total.
Qed.

Lemma ParseLines_total show chunk : total (ParseLines show None chunk).
Proof. unfold ParseLines. case_decide; [total|]. apply parseEach_total. Qed.

(** ** Lines at a time

    [reframe] changes what folding lines neither reads nor writes. *)

Definition reframe (o : Z) (line : string) (st : trackerState) : trackerState :=
  st <| T_offset := o |> <| T_formattedLine := line |>.

Lemma appendRecentTurn_reframe o x st t :
  appendRecentTurn (reframe o x st) t = reframe o x (appendRecentTurn st t).
Proof. done. Qed.

Lemma applyEntry_reframe o x st e : applyEntry (reframe o x st) e = reframe o x (applyEntry st e).
Proof. unfold applyEntry, applyChainEntry, applyMetaEntry. repeat case_decide; reflexivity. Qed.

Lemma applyEntries_reframe o x es st :
  foldl applyEntry (reframe o x st) es = reframe o x (foldl applyEntry st es).
Proof.
  revert st. induction es as [|e es IH]; intros st; [done|]. cbn [foldl].
  by rewrite applyEntry_reframe, IH.
Qed.

Lemma applyParsed_reframe o x st es names :
  applyParsed (reframe o x st) es names = reframe o x (applyParsed st es names).
Proof.
  unfold applyParsed.
  change (reframe o x st <| T_parser := names |>) with (reframe o x (st <| T_parser := names |>)).
  by rewrite applyEntries_reframe.
Qed.

Lemma applyLine_reframe o x st line :
  applyLine (reframe o x st) line = reframe o x (applyLine st line).
Proof.
  unfold applyLine.
  assert ((match ParseTurnUsage line with Some u => applyUsage (reframe o x st) u | None => reframe o x st end)
    = reframe o x (match ParseTurnUsage line with Some u => applyUsage st u | None => st end)) as ->
    by by destruct (ParseTurnUsage line).
  set (st1 := match ParseTurnUsage line with Some u => applyUsage st u | None => st end).
  change (T_parser (reframe o x st1)) with (T_parser st1).
  destruct (parseNames (T_parser st1) line) as [es names]. apply applyParsed_reframe.
Qed.

Lemma applyLines_reframe o x lines st :
  foldl applyLine (reframe o x st) lines = reframe o x (foldl applyLine st lines).
Proof.
  revert st. induction lines as [|l lines IH]; intros st; [done|]. cbn [foldl].
  by rewrite applyLine_reframe, IH.
Qed.

Lemma walk_offset st o steps cur : walk (st <| T_offset := o |>) steps cur = walk st steps cur.
Proof.
  revert cur. induction steps as [|steps IH]; intros cur; [done|]. cbn [walk]. case_decide; [done|].
  change (T_userPrompts (st <| T_offset := o |>)) with (T_userPrompts st).
  change (T_parentOf (st <| T_offset := o |>)) with (T_parentOf st). by rewrite IH.
Qed.

(** Folding lines moves neither the offset nor the pending text. *)
Lemma applyEntry_keeps st e : T_offset (applyEntry st e) = T_offset st /\ T_buf (applyEntry st e) = T_buf st.
Proof. unfold applyEntry, applyChainEntry, applyMetaEntry. repeat case_decide; done. Qed.

Lemma applyLine_keeps st line :
  T_offset (applyLine st line) = T_offset st /\ T_buf (applyLine st line) = T_buf st.
Proof.
  unfold applyLine. destruct (ParseTurnUsage line) as [u|];
    destruct (parseNames _ line) as [es names]; unfold applyParsed;
    cbn [T_offset T_buf field_set];
    match goal with |- context [foldl applyEntry ?s es] => assert (T_offset s = T_offset st) as Ho by done;
      assert (T_buf s = T_buf st) as Hb by done; revert Ho Hb; generalize s end;
    (induction es as [|e es IH]; intros s Ho Hb; [done|]); cbn [foldl];
    destruct (applyEntry_keeps s e) as [E1 E2]; apply IH; congruence.
Qed.

Lemma applyLines_keeps lines st :
  T_offset (foldl applyLine st lines) = T_offset st /\ T_buf (foldl applyLine st lines) = T_buf st.
Proof.
  revert st. induction lines as [|l lines IH]; intros st; [done|]. cbn [foldl].
  destruct (applyLine_keeps st l), (IH (applyLine st l)). split; congruence.
Qed.

(** ** Updates at line boundaries *)

(** The state of a session that has read the lines [lines] of its file. *)
Definition caughtUp (lines : list string) (shown : string) : trackerState :=
  reframe (bufio.len (bufio.unlines lines)) shown
    (foldl applyLine newTrackerState (map bufio.dropCR lines)).

Lemma runScanner_plain st tokens : T_buf st = EmptyString -> runScanner st tokens = foldl applyLine st tokens.
Proof. intros Hb. destruct tokens as [|l ts]; [done|]. cbn [runScanner]. by rewrite Hb. Qed.

Lemma unlines_app a b : bufio.unlines (a ++ b) = bufio.unlines a +:+ bufio.unlines b.
Proof.
  induction a as [|l a IH]; [done|]. cbn [app bufio.unlines]. by rewrite IH, str_app_assoc, str_app_cons.
Qed.

Lemma scanNewLines_lines lines more shown :
  Forall (bufio.fits scannerMax) more ->
  scanNewLines (caughtUp lines shown) (Some (bufio.unlines (lines ++ more)))
  = (caughtUp (lines ++ more) shown, false).
Proof.
  intros Hf. unfold scanNewLines.
  assert (T_offset (caughtUp lines shown) = bufio.len (bufio.unlines lines)) as Ho by done.
  rewrite Ho, unlines_app, bufio.len_app.
  rewrite (proj2 (Z.ltb_ge _ _)) by (unfold bufio.len; lia). rewrite Ho.
  replace (Z.to_nat (bufio.len (bufio.unlines lines))) with (String.length (bufio.unlines lines))
    by (unfold bufio.len; lia).
  rewrite str_drop_app, bufio.scan_lines by done.
  assert (T_buf (caughtUp lines shown) = EmptyString) as Hb.
  { unfold caughtUp. by apply (applyLines_keeps (map bufio.dropCR lines) newTrackerState). }
  rewrite runScanner_plain by done. f_equal.
  unfold caughtUp. rewrite applyLines_reframe, <- foldl_app, <- map_app, unlines_app, bufio.len_app.
  reflexivity.
Qed.

(** The state with its status line up to date. *)
Definition settled (lines : list string) : trackerState :=
  caughtUp lines
    (FormatStatusLine (snapshot (foldl applyLine newTrackerState (map bufio.dropCR lines)))).

(** The files of successive updates: one more batch of lines each time. *)
Fixpoint growing (seen : list string) (batches : list (list string)) : list (option string) :=
  match batches with
  | [] => []
  | b :: batches => Some (bufio.unlines (seen ++ b)) :: growing (seen ++ b) batches
  end.

Definition updates (t : Tracker) (id path : string) (files : list (option string)) : Tracker :=
  foldl (fun t f => (Update t id path f).1.1) t files.

Lemma Update_lines t id path lines more shown :
  id <> EmptyString -> path <> EmptyString -> Forall (bufio.fits scannerMax) more ->
  stateFor t id = caughtUp lines shown ->
  (Update t id path (Some (bufio.unlines (lines ++ more)))).1.1 = <[id := settled (lines ++ more)]> t.
Proof.
  intros Hi Hp Hf Hs. unfold Update. rewrite decide_False by tauto.
  rewrite Hs, scanNewLines_lines by done. reflexivity.
Qed.

Lemma updates_growing id path batches : forall t seen shown,
  id <> EmptyString -> path <> EmptyString -> Forall (Forall (bufio.fits scannerMax)) batches ->
  stateFor t id = caughtUp seen shown -> batches <> [] ->
  updates t id path (growing seen batches) = <[id := settled (seen ++ concat batches)]> t.
Proof.
  induction batches as [|b batches IH]; intros t seen shown Hi Hp Hf Hs Hne; [done|].
  apply Forall_cons in Hf as [Hb Hf]. unfold updates. cbn [growing foldl concat].
  rewrite (Update_lines t id path seen b shown) by done.
  destruct batches as [|b' batches]; [by rewrite app_nil_r|].
  fold (updates (<[id := settled (seen ++ b)]> t) id path (growing (seen ++ b) (b' :: batches))).
  rewrite (IH _ _ (FormatStatusLine (snapshot (foldl applyLine newTrackerState (map bufio.dropCR (seen ++ b)))))); try done.
  - by rewrite insert_insert_eq, app_assoc.
  - unfold stateFor. by rewrite lookup_insert_eq.
Qed.

Lemma stateFor_new id : stateFor NewTracker id = caughtUp [] EmptyString.
Proof. done. Qed.

Lemma Update_first id path lines :
  id <> EmptyString -> path <> EmptyString -> Forall (bufio.fits scannerMax) lines ->
  (Update NewTracker id path (Some (bufio.unlines lines))).1.1 = {[id := settled lines]}.
Proof. intros Hi Hp Hf. by apply (Update_lines NewTracker id path [] lines EmptyString). Qed.

(** A file that became shorter is read from its start. *)
Lemma scanNewLines_shrunk st lines :
  bufio.len (bufio.unlines lines) < T_offset st -> Forall (bufio.fits scannerMax) lines ->
  scanNewLines st (Some (bufio.unlines lines)) = (caughtUp lines (T_formattedLine st), false).
Proof.
  intros Hs Hf.
  pose proof (scanNewLines_lines [] lines (T_formattedLine st) Hf) as H. cbn [app] in H.
  rewrite <- H. unfold scanNewLines. rewrite (proj2 (Z.ltb_lt _ _) Hs).
  rewrite (proj2 (Z.ltb_ge _ _)); [done|].
  change (0 <= bufio.len (bufio.unlines lines)). unfold bufio.len. lia.
Qed.

(** ** Lines read in two pieces *)

Lemma split_piece piece :
  Strings.ContainsByte piece bufio.newline = false -> Strings.Split piece bufio.newline = [piece].
Proof.
  induction piece as [|c s IH]; [done|]. cbn [Strings.Split Strings.ContainsByte].
  intros [Hc%bool_decide_eq_false Hs]%orb_false_iff.
  rewrite decide_False by congruence. by rewrite IH.
Qed.

(** A piece that is no JSON leaves no trace. *)
Lemma applyLine_garbage st piece :
  Strings.ContainsByte piece bufio.newline = false -> parse piece = None -> applyLine st piece = st.
Proof.
  intros Hn Hp. unfold applyLine, ParseTurnUsage, Unmarshal. rewrite Hp.
  assert (parseNames (T_parser st) piece = ([], T_parser st)) as ->; [|by destruct st].
  unfold parseNames, ParseLines. case_decide as E; [done|].
  rewrite split_piece by done.
  cbn [parseEach]. unfold parseLine. rewrite decide_False by done. unfold Unmarshal. rewrite Hp.
  reflexivity.
Qed.

Lemma dropCR_newline piece :
  Strings.ContainsByte piece bufio.newline = false ->
  Strings.ContainsByte (bufio.dropCR piece) bufio.newline = false.
Proof.
  unfold bufio.dropCR, Strings.TrimSuffix. destruct (Strings.HasSuffix _ _); [|done].
  generalize (String.length piece - String.length (String.String "013"%char EmptyString))%nat.
  induction piece as [|c s IH]; intros [|n]; try done. cbn [Strings.str_take Strings.ContainsByte].
  intros [-> Hs]%orb_false_iff. by apply IH.
Qed.

Lemma scan_partial max piece :
  piece <> EmptyString -> bufio.fits max piece ->
  bufio.scan max piece = ([bufio.dropCR piece], bufio.len piece, false).
Proof.
  intros Hne [Hn Hl]. unfold bufio.scan.
  rewrite split_piece by done.
  cbn [bufio.scanPieces]. rewrite decide_False by done. by rewrite (proj2 (Z.ltb_lt _ _) Hl).
Qed.

(** What an update reads from the offset on. *)
Lemma scanNewLines_rest st seen rest tokens n tooLong :
  T_offset st = bufio.len seen -> bufio.scan scannerMax rest = (tokens, n, tooLong) ->
  scanNewLines st (Some (seen +:+ rest))
  = (let st := runScanner st tokens in st <| T_offset := T_offset st + n |>, false).
Proof.
  intros Ho Hs. unfold scanNewLines. rewrite Ho, bufio.len_app.
  rewrite (proj2 (Z.ltb_ge _ _)) by (unfold bufio.len; lia). rewrite Ho.
  replace (Z.to_nat (bufio.len seen)) with (String.length seen) by (unfold bufio.len; lia).
  by rewrite str_drop_app, Hs.
Qed.

(** The first piece: only the offset moves. *)
Lemma split_first lines shown a :
  a <> EmptyString -> bufio.fits scannerMax a -> parse (bufio.dropCR a) = None ->
  scanNewLines (caughtUp lines shown) (Some (bufio.unlines lines +:+ a))
  = (caughtUp lines shown <| T_offset := bufio.len (bufio.unlines lines +:+ a) |>, false).
Proof.
  intros Hne Ha Pa.
  assert (T_buf (caughtUp lines shown) = EmptyString) as Hbuf
    by apply (applyLines_keeps (map bufio.dropCR lines) newTrackerState).
  rewrite (scanNewLines_rest _ (bufio.unlines lines) a [bufio.dropCR a] (bufio.len a) false)
    by (done || by apply scan_partial).
  rewrite runScanner_plain by done. cbn [foldl].
  rewrite applyLine_garbage by (destruct Ha; auto using dropCR_newline).
  cbn zeta. rewrite !bufio.len_app. f_equal.
Qed.

(** The second piece: no JSON either, so the line is lost, although the file
    has it. *)
Lemma split_second lines shown a b :
  bufio.fits scannerMax b -> parse (bufio.dropCR b) = None ->
  scanNewLines (caughtUp lines shown <| T_offset := bufio.len (bufio.unlines lines +:+ a) |>)
    (Some (bufio.unlines (lines ++ [a +:+ b])))
  = (caughtUp lines shown <| T_offset := bufio.len (bufio.unlines (lines ++ [a +:+ b])) |>, false).
Proof.
  intros Hb Pb.
  assert (T_buf (caughtUp lines shown) = EmptyString) as Hbuf
    by apply (applyLines_keeps (map bufio.dropCR lines) newTrackerState).
  rewrite unlines_app. cbn [bufio.unlines]. rewrite !str_app_assoc.
  rewrite <- (str_app_assoc (bufio.unlines lines) a).
  change (b +:+ String.String bufio.newline EmptyString) with (bufio.unlines [b]).
  erewrite (scanNewLines_rest _ (bufio.unlines lines +:+ a));
    [| done | by apply bufio.scan_lines; constructor].
  rewrite runScanner_plain by done. cbn [map foldl].
  rewrite applyLine_garbage by (destruct Hb; auto using dropCR_newline).
  cbn zeta. rewrite !bufio.len_app. f_equal.
Qed.

(** An update that only moves the offset of a settled session. *)
Lemma Update_quiet t id path file lines o o' :
  id <> EmptyString -> path <> EmptyString ->
  stateFor t id = settled lines <| T_offset := o |> ->
  scanNewLines (settled lines <| T_offset := o |>) file = (settled lines <| T_offset := o' |>, false) ->
  (Update t id path file).1.1 = <[id := settled lines <| T_offset := o' |>]> t.
Proof.
  intros Hi Hp Hs Hf. unfold Update. rewrite decide_False by tauto. rewrite Hs, Hf. reflexivity.
Qed.

(** Three updates, the second one in the middle of the line. *)
Lemma split_line id path lines a b :
  id <> EmptyString -> path <> EmptyString -> Forall (bufio.fits scannerMax) lines ->
  a <> EmptyString -> bufio.fits scannerMax a -> bufio.fits scannerMax b ->
  parse (bufio.dropCR a) = None -> parse (bufio.dropCR b) = None ->
  updates NewTracker id path
    [Some (bufio.unlines lines); Some (bufio.unlines lines +:+ a);
     Some (bufio.unlines (lines ++ [a +:+ b]))]
  = {[id := settled lines <| T_offset := bufio.len (bufio.unlines (lines ++ [a +:+ b])) |>]}.
Proof.
  intros Hi Hp Hl Hne Ha Hb Pa Pb. unfold updates. cbn [foldl].
  rewrite Update_first by done.
  rewrite (Update_quiet _ id path (Some (bufio.unlines lines +:+ a)) lines (bufio.len (bufio.unlines lines))
             (bufio.len (bufio.unlines lines +:+ a))); try done.
  - rewrite (Update_quiet _ id path _ lines (bufio.len (bufio.unlines lines +:+ a))
             (bufio.len (bufio.unlines (lines ++ [a +:+ b])))); try done.
    + by rewrite insert_insert_eq, insert_singleton_eq.
    + unfold stateFor. by rewrite lookup_insert_eq.
    + by apply split_second.
  - unfold stateFor. by rewrite lookup_singleton_eq.
  - by apply split_first.
Qed.

(** ** Rolling windows *)

Record insight_ok (i : SessionInsight) : Prop := {
  io_commands : NoDup (SI_RecentCommands i) /\ (length (SI_RecentCommands i) <= maxRecentCommands)%nat;
  io_files : NoDup (SI_TouchedFiles i) /\ (length (SI_TouchedFiles i) <= maxTouchedFiles)%nat;
}.

Lemma removeFirst_elem v x l : x ∈ removeFirst v l -> x ∈ l.
Proof.
  induction l as [|s l IH]; [done|]. cbn [removeFirst]. case_decide; set_solver.
Qed.

Lemma removeFirst_NoDup v l : NoDup l -> NoDup (removeFirst v l) /\ v ∉ removeFirst v l.
Proof.
  induction 1 as [|s l Hs Hl [IH1 IH2]]; cbn [removeFirst]; [split; [constructor|set_solver]|].
  case_decide as E; [by subst|]. split; [|set_solver].
  constructor; [|done]. intros ?%removeFirst_elem. done.
Qed.

(** The list has no duplicates, at most [max] elements, and ends with [v]. *)
Lemma appendBoundedUnique_spec l v max :
  NoDup l -> (0 < max)%nat ->
  let l' := appendBoundedUnique l v max in
  NoDup l' /\ (length l' <= max)%nat /\ last l' = Some v /\ forall x, x ∈ l' -> x ∈ l \/ x = v.
Proof.
  intros Hl Hm. unfold appendBoundedUnique. destruct (removeFirst_NoDup v l Hl) as [H1 H2].
  rewrite length_app, drop_app_le by (simpl; lia). cbn [length].
  set (i := (length (removeFirst v l) + 1 - max)%nat). cbn zeta. split_and!.
  - apply NoDup_app. split_and!; [|intros x Hx Hv|apply NoDup_singleton].
    + by eapply sublist_NoDup, sublist_drop.
    + apply list_elem_of_singleton in Hv as ->. apply H2. by eapply elem_of_sublist, sublist_drop.
  - rewrite length_app, length_drop. simpl. lia.
  - by rewrite last_snoc.
  - intros x [Hx|Hx]%elem_of_app; [left|right; by apply list_elem_of_singleton in Hx].
    eapply removeFirst_elem, elem_of_sublist, sublist_drop. exact Hx.
Qed.

Lemma applyEntryToInsight_ok i e : insight_ok i -> insight_ok (applyEntryToInsight i e).
Proof.
  intros [[Hc Hcl] [Hf Hfl]].
  assert (forall l v m, (0 < m)%nat -> NoDup l ->
    NoDup (appendBoundedUnique l v m) /\ (length (appendBoundedUnique l v m) <= m)%nat) as Happ
    by (intros l v m Hm Hl; destruct (appendBoundedUnique_spec l v m Hl Hm) as (? & ? & _); done).
  unfold applyEntryToInsight.
  repeat case_match; try done; (split; cbn -[appendBoundedUnique maxRecentCommands maxTouchedFiles]);
    try done; apply Happ; unfold maxRecentCommands, maxTouchedFiles; (lia || done).
Qed.

Lemma UpdateInsight_ok es i : insight_ok i -> insight_ok (UpdateInsight i es).
Proof.
  revert i. induction es as [|e es IH]; intros i Hi; [done|]. cbn. by apply IH, applyEntryToInsight_ok.
Qed.

(** What holds of every session state. *)
Record tracker_ok (st : trackerState) : Prop := {
  to_turns : (length (T_recentTurns st) <= recentTurnsCap)%nat;
  to_roles : Forall (fun t => (Turn_Role t = "user" \/ Turn_Role t = "assistant")%string
                              /\ Turn_Text t <> EmptyString) (T_recentTurns st);
  to_insight : insight_ok (T_insight st);
  to_buf : T_buf st = EmptyString;
}.

Lemma appendRecentTurn_ok st t :
  tracker_ok st -> (Turn_Role t = "user" \/ Turn_Role t = "assistant")%string ->
  Turn_Text t <> EmptyString -> tracker_ok (appendRecentTurn st t).
Proof.
  intros [H1 H2 H3 H4] Hr Ht. split; cbn -[recentTurnsCap]; try done.
  - rewrite length_app. cbn [length].
    destruct (Nat.leb_spec recentTurnsCap (length (T_recentTurns st))) as [Hc|Hc]; [|lia].
    destruct (T_recentTurns st) as [|t0 ts]; cbn [length tail] in *; [unfold recentTurnsCap|]; lia.
  - apply Forall_app. split; [|by apply Forall_singleton]. case_match; [|done].
    by destruct H2; simpl.
Qed.

Lemma applyEntry_ok st e : tracker_ok st -> tracker_ok (applyEntry st e).
Proof.
  intros Hst. unfold applyEntry, applyChainEntry, applyMetaEntry.
  assert (tracker_ok (if decide (Entry_Kind e = KindCustomTitle)
    then st <| T_title := Entry_Text e |> else st)) as Ht
    by (case_decide; [destruct Hst; by split|done]).
  revert Ht. generalize (if decide (Entry_Kind e = KindCustomTitle)
    then st <| T_title := Entry_Text e |> else st). clear st Hst. intros st Hst.
  case_decide; [done|]. set (st1 := st <| T_parentOf := _ |>).
  assert (tracker_ok st1) as H1 by (destruct Hst; by split).
  assert (forall st', tracker_ok st' -> tracker_ok (st' <| T_tailUUID := Entry_UUID e |>)) as Htl
    by (intros st' []; by split).
  apply Htl. case_decide as Hu; [|case_decide as Ha; [|done]].
  - destruct Hu as (_ & Hu & _). apply appendRecentTurn_ok; [|by left|done].
    destruct H1; by split.
  - destruct Ha as [_ Ha]. apply appendRecentTurn_ok; [done|by right|done].
Qed.

Lemma applyLine_ok st line : tracker_ok st -> tracker_ok (applyLine st line).
Proof.
  intros Hst. unfold applyLine.
  assert (tracker_ok (match ParseTurnUsage line with Some u => applyUsage st u | None => st end)) as H
    by (destruct (ParseTurnUsage line); [destruct Hst; by split|done]).
  revert H. generalize (match ParseTurnUsage line with Some u => applyUsage st u | None => st end).
  clear st Hst. intros st Hst. destruct (parseNames (T_parser st) line) as [es names].
  unfold applyParsed.
  assert (tracker_ok (foldl applyEntry (st <| T_parser := names |>) es)) as Hf.
  { assert (tracker_ok (st <| T_parser := names |>)) as Hs by (destruct Hst; by split).
    revert Hs. generalize (st <| T_parser := names |>).
    induction es as [|e es IH]; intros s Hs; [done|]. cbn [foldl]. by apply IH, applyEntry_ok. }
  destruct Hf as [H1 H2 H3 H4]. split; try done. cbn. by apply UpdateInsight_ok.
Qed.

Lemma newTrackerState_ok : tracker_ok newTrackerState.
Proof.
  split; cbn; [unfold recentTurnsCap; lia|constructor| |done].
  split; cbn; (split; [constructor|lia]).
Qed.

Lemma scanNewLines_ok st file : tracker_ok st -> tracker_ok (scanNewLines st file).1.
Proof.
  intros Hst. unfold scanNewLines. destruct file as [content|]; [|done].
  assert (tracker_ok (if bufio.len content <? T_offset st then resetForRescan st else st)) as H.
  { case_match; [|done]. destruct newTrackerState_ok. by split. }
  revert H. generalize (if bufio.len content <? T_offset st then resetForRescan st else st).
  clear st Hst. intros st Hst. destruct (bufio.scan _ _) as [[ts n] tl]. cbn [fst].
  rewrite runScanner_plain by apply Hst.
  assert (tracker_ok (foldl applyLine st ts)) as [H1 H2 H3 H4]; [|by split].
  revert st Hst. induction ts as [|l ts IH]; intros st Hst; [done|]. cbn [foldl].
  by apply IH, applyLine_ok.
Qed.

Lemma Update_ok t id path file :
  (forall k st, t !! k = Some st -> tracker_ok st) ->
  forall k st, (Update t id path file).1.1 !! k = Some st -> tracker_ok st.
Proof.
  intros Ht k st. unfold Update. case_decide; [apply Ht|].
  assert (tracker_ok (stateFor t id)) as Hs.
  { unfold stateFor. destruct (t !! id) eqn:E; [by eapply Ht|apply newTrackerState_ok]. }
  pose proof (scanNewLines_ok _ file Hs) as Hn.
  destruct (scanNewLines (stateFor t id) file) as [st' err]. cbn [fst] in Hn.
  destruct err; cbn [fst].
  - destruct (decide (k = id)) as [->|]; [rewrite lookup_insert_eq; by intros [= <-]|].
    rewrite lookup_insert_ne by done. apply Ht.
  - destruct (decide (k = id)) as [->|]; [rewrite lookup_insert_eq; intros [= <-]; destruct Hn; by split|].
    rewrite lookup_insert_ne by done. apply Ht.
Qed.
End follow.

(** * client/lib/claude/transcript: the conversation chain and subagents

    Which prompt [activeLastPrompt] finds, what [RecentRounds] cuts off, and
    when loading a subagent returns. *)

Open Scope Z_scope.

Import json claudetx claudeparse claudetrack.

(** ** The last prompt *)

(** A prompt of the user: not injected, not empty. *)
Definition isPrompt (e : Entry) : Prop :=
  Entry_Kind e = KindUser /\ Entry_Text e <> EmptyString /\ Entry_Synthetic e = false.

(** Entries [es] that go on from the conversation [path], newest first: each
    belongs to the newest message or answers it. *)
Inductive follows_on (prompts : gmap string string) : list string -> list Entry -> Prop :=
| fo_nil path : follows_on prompts path []
| fo_same x y path e es :
    Entry_UUID e = x -> Entry_ParentUUID e = y -> ~ isPrompt e ->
    follows_on prompts (x :: y :: path) es -> follows_on prompts (x :: y :: path) (e :: es)
| fo_next x path e es :
    Entry_UUID e <> EmptyString -> Entry_ParentUUID e = x -> Entry_UUID e ∉ x :: path ->
    prompts !! Entry_UUID e = None -> ~ isPrompt e ->
    follows_on prompts (Entry_UUID e :: x :: path) es -> follows_on prompts (x :: path) (e :: es).

(** The chain of [st] leads along [path] to a prompt with the text [text]. *)
Inductive leads (st : trackerState) (text : string) : list string -> Prop :=
| leads_prompt u : u <> EmptyString -> T_userPrompts st !! u = Some text -> leads st text [u]
| leads_hop x y path :
    x <> EmptyString -> T_userPrompts st !! x = None -> T_parentOf st !! x = Some y ->
    leads st text (y :: path) -> leads st text (x :: y :: path).

Lemma walk_leads st text path :
  leads st text path -> forall x steps, head path = Some x -> (length path <= steps)%nat ->
  walk st steps x = text.
Proof.
  induction 1 as [u Hu Hp|x y path Hx Hn Hp Hl IH]; intros z steps [= ->] Hs;
    destruct steps as [|steps]; cbn [length] in Hs; try lia; cbn [walk]; rewrite decide_False by done.
  - by rewrite Hp.
  - rewrite Hn, Hp. apply IH; [done|]. cbn [length]. lia.
Qed.

(** What an entry with a uuid that is no prompt does to the chain. *)
Lemma applyEntry_chain st e :
  Entry_UUID e <> EmptyString -> ~ isPrompt e ->
  T_parentOf (applyEntry st e) = <[Entry_UUID e := Entry_ParentUUID e]> (T_parentOf st) /\
  T_userPrompts (applyEntry st e) = T_userPrompts st /\ T_tailUUID (applyEntry st e) = Entry_UUID e.
Proof.
  intros Hu Hp. unfold applyEntry, applyChainEntry, applyMetaEntry.
  repeat case_decide; try done; unfold isPrompt in *; tauto.
Qed.

Lemma leads_extend st st' text path :
  T_userPrompts st' = T_userPrompts st ->
  (forall x, x ∈ path -> T_parentOf st' !! x = T_parentOf st !! x) ->
  leads st text path -> leads st' text path.
Proof.
  intros Hu Hp Hl. induction Hl as [u Hne Hq|x y path Hx Hn Hq Hl IH].
  - constructor; [done|congruence].
  - constructor; [done|congruence| |apply IH; set_solver].
    rewrite Hp by set_solver. done.
Qed.

Lemma follows_leads text es : forall st prompts path,
  follows_on prompts path es -> T_userPrompts st = prompts -> leads st text path ->
  head path = Some (T_tailUUID st) ->
  exists path', leads (foldl applyEntry st es) text path' /\
    head path' = Some (T_tailUUID (foldl applyEntry st es)) /\
    (length path' <= length path + length es)%nat.
Proof.
  induction es as [|e es IH]; intros st prompts path Hf Hp Hl Ht.
  { exists path. cbn [foldl length]. split_and!; [done..|lia]. }
  cbn [foldl]. inversion Hf as [|x y p e' es' Hx Hy Hn Hf'|x p e' es' Hne Hx Hin Hfr Hn Hf']; subst.
  - inversion Hl as [|x' y' p' Hx' Hn' Hp' Hl']; subst.
    destruct (applyEntry_chain st e Hx' Hn) as (E1 & E2 & E3).
    destruct (IH (applyEntry st e) _ _ Hf') as (path' & H1 & H2 & H3); [done| |by rewrite E3|].
    + eapply leads_extend; [done| |exact Hl]. intros x _. rewrite E1.
      destruct (decide (x = Entry_UUID e)) as [->|]; [by rewrite lookup_insert_eq|].
      by rewrite lookup_insert_ne.
    + exists path'. split_and!; [done..|]. cbn [length] in *. lia.
  - destruct (applyEntry_chain st e Hne Hn) as (E1 & E2 & E3).
    destruct (IH (applyEntry st e) _ _ Hf') as (path' & H1 & H2 & H3); [done| |by rewrite E3|].
    + constructor; [done|by rewrite E2|rewrite E1; by rewrite lookup_insert_eq|].
      eapply leads_extend; [done| |exact Hl]. intros x Hx'. rewrite E1.
      by rewrite lookup_insert_ne by set_solver.
    + exists path'. split_and!; [done..|]. cbn [length] in *. lia.
Qed.

Lemma prompt_leads st e :
  isPrompt e -> Entry_UUID e <> EmptyString ->
  T_userPrompts (applyEntry st e) = <[Entry_UUID e := Entry_Text e]> (T_userPrompts st) /\
  leads (applyEntry st e) (Entry_Text e) [Entry_UUID e] /\ T_tailUUID (applyEntry st e) = Entry_UUID e.
Proof.
  intros (Hk & Ht & Hs) Hu. unfold applyEntry, applyChainEntry, applyMetaEntry.
  rewrite (decide_False (P := Entry_UUID e = EmptyString)) by done.
  rewrite (decide_True (P := Entry_Kind e = KindUser /\ _)) by done.
  case_decide; cbn; (split_and!; [done| |done]);
    (constructor; [done|cbn; by rewrite lookup_insert_eq]).
Qed.

Lemma current_prompt st e es :
  isPrompt e -> Entry_UUID e <> EmptyString -> (length es < maxWalk)%nat ->
  follows_on (<[Entry_UUID e := Entry_Text e]> (T_userPrompts st)) [Entry_UUID e] es ->
  activeLastPrompt (foldl applyEntry st (e :: es)) = Entry_Text e.
Proof.
  intros Hp Hu Hl Hf. cbn [foldl]. destruct (prompt_leads st e Hp Hu) as (E1 & E2 & E3).
  destruct (follows_leads (Entry_Text e) es (applyEntry st e) _ _ Hf E1 E2) as (path & H1 & H2 & H3).
  { by rewrite E3. }
  unfold activeLastPrompt. eapply walk_leads; [exact H1|exact H2|]. cbn [length] in H3. lia.
Qed.

(** ** Recent rounds *)

Definition users (l : list TurnText) : Z :=
  Z.of_nat (length (filter (fun t => Turn_Role t = "user"%string) l)).

Lemma users_app a b : users (a ++ b) = users a + users b.
Proof. unfold users. rewrite filter_app, length_app. lia. Qed.
Lemma users_reverse l : users (reverse l) = users l.
Proof. unfold users. by rewrite (reverse_Permutation l). Qed.

Lemma roundStart_spec n rev : forall seen,
  Z.of_nat seen < n ->
  (users rev < n - Z.of_nat seen -> roundStart seen n rev = 0%nat) /\
  (n - Z.of_nat seen <= users rev -> exists newer t older, rev = newer ++ t :: older /\
     Turn_Role t = "user"%string /\ users newer = n - Z.of_nat seen - 1 /\
     roundStart seen n rev = length older).
Proof.
  induction rev as [|t rev IH]; intros seen Hs.
  { split; [done|]. unfold users. rewrite filter_nil. cbn [length]. lia. }
  cbn [roundStart]. unfold users. rewrite filter_cons. case_decide as Hr.
  - cbn [length]. destruct (Z.leb_spec n (Z.of_nat (S seen))) as [Hn|Hn].
    + split; [lia|]. intros _. exists [], t, rev. rewrite filter_nil. split_and!; try done. cbn [length]. lia.
    + destruct (IH (S seen) Hn) as [H1 H2]. unfold users in *. split; intros H.
      * apply H1. lia.
      * destruct H2 as (newer & t' & older & -> & Ht & Hu & ->); [lia|].
        exists (t :: newer), t', older. split_and!; try done.
        rewrite filter_cons, decide_True by done. cbn [length]. lia.
  - destruct (IH seen Hs) as [H1 H2]. unfold users in *. split; intros H; [by apply H1|].
    destruct (H2 H) as (newer & t' & older & -> & Ht & Hu & ->).
    exists (t :: newer), t', older. split_and!; try done.
    by rewrite filter_cons, decide_False by done.
Qed.

(** Too few rounds: all turns.  Otherwise the turns from the user turn on that
    starts the [n]th round from the end. *)
Lemma RecentRounds_spec t id n st :
  t !! id = Some st -> 0 < n ->
  (users (T_recentTurns st) < n -> RecentRounds t id n = T_recentTurns st) /\
  (n <= users (T_recentTurns st) -> exists before first rest,
     T_recentTurns st = before ++ first :: rest /\ Turn_Role first = "user"%string /\
     RecentRounds t id n = first :: rest /\ users (first :: rest) = n).
Proof.
  intros Ht Hn. unfold RecentRounds. rewrite (proj2 (Z.leb_gt _ _)) by lia. rewrite Ht.
  destruct (roundStart_spec n (reverse (T_recentTurns st)) 0) as [H1 H2]; [lia|].
  rewrite users_reverse in H1, H2. split; intros H.
  - rewrite H1 by lia. done.
  - destruct H2 as (newer & f & older & Er & Hf & Hu & ->); [lia|].
    assert (T_recentTurns st = reverse older ++ f :: reverse newer) as E.
    { rewrite <- (reverse_involutive (T_recentTurns st)), Er, reverse_app, reverse_cons.
      by rewrite <- app_assoc. }
    exists (reverse older), f, (reverse newer). rewrite E. split_and!; try done.
    + by rewrite <- (length_reverse older), drop_app_length.
    + change (f :: reverse newer) with ([f] ++ reverse newer). rewrite users_app, users_reverse, Hu.
      unfold users. rewrite filter_cons, decide_True, filter_nil by done. cbn [length]. lia.
Qed.

(** ** Subagents *)

(** The agent a line can inline: the one its [toolUseResult] names. *)
Definition lineAgent (line : string) : string :=
  Agent_ID (parseAgentResult
    (UL_ToolUseResult (Unmarshal dUserLine line (mkUserLine None EmptyString)).1)).

Lemma build_agent names b top consumed e consumed' ar :
  buildToolResultEntry names b top consumed = (e, consumed') ->
  Entry_ToolResult e = Some (TRAgent ar) -> ar = parseAgentResult top.
Proof.
  unfold buildToolResultEntry, ParseToolUseResult. intros H Ha.
  repeat (case_match; simplify_eq; cbn in *; try done).
Qed.

Section loading.
Context `{MR : MapRange}.

Section line.
Context (show : bool) (load : string -> Z -> M (list Entry)).

Lemma inline_total e :
  (forall ar, Entry_ToolResult e = Some (TRAgent ar) -> Agent_ID ar <> EmptyString ->
     total (load (Agent_ID ar) 0)) ->
  total (maybeInlineSubagent (Some load) e).
Proof.
  intros H. unfold maybeInlineSubagent. destruct (_ && _); [apply total_ret|].
  destruct (Entry_ToolResult e) as [[]|]; try apply total_ret.
  case_decide; [apply total_ret|]. by apply H.
Qed.

Lemma userBlocks_loads top blocks : forall consumed,
  (Agent_ID (parseAgentResult top) <> EmptyString ->
     total (load (Agent_ID (parseAgentResult top)) 0)) ->
  total (userBlocks (Some load) top consumed blocks).
Proof.
  induction blocks as [|b blocks IH]; intros consumed H; cbn [userBlocks]; [apply total_ret|].
  case_decide; [apply total_bind; [by apply IH|intros; apply total_ret]|].
  case_decide; [|by apply IH].
  apply total_bind; [apply total_gets|]. intros names.
  destruct (buildToolResultEntry names b top consumed) as [e c'] eqn:E.
  apply total_bind; [|intros; apply total_bind; [by apply IH|intros; apply total_ret]].
  apply inline_total. intros ar Ha. rewrite (build_agent _ _ _ _ _ _ _ E Ha). exact H.
Qed.

Lemma parseLine_loads line :
  (lineAgent line <> EmptyString -> total (load (lineAgent line) 0)) ->
  total (parseLine show (Some load) line).
Proof.
  intros H. unfold parseLine. case_decide; [apply total_ret|].
  destruct (Unmarshal dHead line _) as [head err]. destruct err; [apply total_ret|].
  apply total_bind; [|intros; apply total_ret]. unfold lineEntries, parseUserEntry, parseAssistantEntry.
  unfold lineAgent in H. repeat case_decide; try apply total_ret.
  - destruct (Unmarshal dUserLine line _) as [u ue]. cbn [fst] in H. destruct ue; [apply total_ret|].
    apply total_bind; [|intros; apply total_ret]. repeat case_match; try apply total_ret.
    by apply userBlocks_loads.
  - case_match. case_match; [apply total_ret|].
    apply total_bind; [|intros; apply total_ret]. repeat case_match; try apply total_ret.
    apply assistantBlocks_total.
Qed.

Lemma parseEach_loads lines :
  (forall line, line ∈ lines -> lineAgent line <> EmptyString -> total (load (lineAgent line) 0)) ->
  total (parseEach show (Some load) lines).
Proof.
  induction lines as [|l lines IH]; intros H; cbn [parseEach]; [apply total_ret|].
  apply total_bind; [apply parseLine_loads; apply H; set_solver|]. intros es.
  apply total_bind; [apply IH; set_solver|intros; apply total_ret].
Qed.
End line.

Context (fsys : string -> option string) (root : string) (show : bool).

(** Every agent is ranked above the agents its transcript names. *)
Definition ranked (rank : string -> nat) : Prop :=
  forall id data line, fsys (jsonlPath root id) = Some data ->
    line ∈ (bufio.scan (16 * 1024 * 1024) data).1.1 -> lineAgent line <> EmptyString ->
    (rank (lineAgent line) < rank id)%nat.

Lemma load_returns rank : ranked rank -> forall fuel id base, (rank id < fuel)%nat ->
  total (load_go fsys root show fuel id base).
Proof.
  intros Hr. induction fuel as [|fuel IH]; intros id base Hid; [lia|]. cbn [load_go].
  unfold Load. case_decide; [apply total_ret|].
  apply total_bind; [apply total_gets|]. intros cache.
  apply total_bind; [|intros; apply total_ret]. case_match; [apply total_ret|].
  apply total_bind; [|intros; apply total_bind; [apply total_modify|intros; apply total_ret]].
  intros p. unfold loadFromDisk. destruct (fsys (jsonlPath root id)) as [data|] eqn:Ef; [|by eexists].
  destruct (parseEach_loads show (load_go fsys root show fuel) (bufio.scan (16 * 1024 * 1024) data).1.1)
    with (newParser (P_cache p)) as [[body inner] Hb].
  { intros line Hl Hne. apply IH. specialize (Hr id data line Ef Hl Hne). lia. }
  unfold ParseAll. rewrite Hb. by eexists.
Qed.

(** The transcript [data] of the agent [id] inlines that agent, before any
    other has put it into the cache. *)
Definition inlines (id data : string) : Prop :=
  forall load cache, cache !! id = None ->
    (forall base p, P_cache p !! id = None -> load id base p = None) ->
    ParseAll show (Some load) data (newParser cache) = None.

Lemma load_diverges id data :
  id <> EmptyString -> fsys (jsonlPath root id) = Some data -> inlines id data ->
  forall fuel base p, P_cache p !! id = None -> load_go fsys root show fuel id base p = None.
Proof.
  intros Hne Hf Hi. induction fuel as [|fuel IH]; intros base p Hc; [done|].
  cbn [load_go]. unfold Load. rewrite decide_False by done.
  unfold mbind, M_bind, gets. cbn. rewrite Hc. unfold loadFromDisk at 1. rewrite Hf.
  by rewrite Hi.
Qed.
End loading.
