(* ===== verification/CodexTranscript.v ===== *)
(** * client/lib/codex/transcript

    [transcript.go], [transcript_render.go], [summary.go]: the rollout file of
    a codex thread, line by line.  An entry is its text; a line may leave no
    entry ([None]) and still change what the parser knows. *)

From S2P Require Import Prelude GoStd GoText GoJson GoIO.
From stdpp Require Import pretty.
Open Scope Z_scope.

Module codextx.
Import json.

Record TurnText := mkTurnText { Turn_Role : string; Turn_Text : string }.

Definition recentTurnsCap : nat := 64.

Definition appendRecentTurn (turns : list TurnText) (role text : string) : list TurnText :=
  if decide (text = EmptyString) then turns
  else
    let turns := turns ++ [mkTurnText role text] in
    if (length turns <=? recentTurnsCap)%nat then turns
    else drop (length turns - recentTurnsCap) turns.

Record Parser := mkParser {
  P_title : string;
  P_lastPrompt : string;
  P_lastAssistantMessage : string;
  P_model : string;
  P_totalTokens : Z;
  P_contextWindow : Z;
  P_currentTurnID : string;
  P_recentTurns : list TurnText;
}.
#[export] Instance eta_Parser : Eta Parser := fun r =>
  mkParser (P_title r) (P_lastPrompt r) (P_lastAssistantMessage r) (P_model r) (P_totalTokens r)
    (P_contextWindow r) (P_currentTurnID r) (P_recentTurns r).

(** [NewParser]; [Reset] gives the same. *)
Definition NewParser : Parser := mkParser "" "" "" "" 0 0 "" [].
Definition Reset (p : Parser) : Parser := NewParser.

(** ** transcript_render.go *)

Definition previewText (text : string) : string :=
  let text := Strings.Join (Strings.Fields (Strings.TrimSpace text)) " " in
  let runes := utf8.runes text in
  if (length runes <=? 80)%nat then text else utf8.of_runes (take 77 runes) +:+ "...".

Definition quote : string := String.String "034"%char EmptyString.

Definition appendPromptContext (label prompt : string) : string :=
  let prompt := previewText prompt in
  if decide (prompt = EmptyString) then label
  else label +:+ " <- " +:+ quote +:+ prompt +:+ quote.

(** [strings.Index(s, sub)]. *)
Fixpoint Index (s sub : string) : option nat :=
  if Strings.HasPrefix s sub then Some 0%nat
  else match s with
       | EmptyString => None
       | String.String _ t => match Index t sub with Some i => Some (S i) | None => None end
       end.

Definition requestPrefix : string := "## My request for Codex:".

Definition stripUserMessagePrefix (text : string) : string :=
  let text := Strings.TrimSpace text in
  match Index text requestPrefix with
  | Some idx => Strings.TrimSpace (Strings.str_drop (idx + String.length requestPrefix) text)
  | None => text
  end.

Fixpoint firstNonEmpty (values : list string) : string :=
  match values with
  | [] => EmptyString
  | v :: values => if decide (Strings.TrimSpace v = EmptyString) then firstNonEmpty values else v
  end.

(** Groups of three digits, each after a comma. *)
Fixpoint commaGroups (fuel : nat) (s : string) : string :=
  match fuel, s with
  | S fuel, String.String _ _ =>
    "," +:+ Strings.str_take 3 s +:+ commaGroups fuel (Strings.str_drop 3 s)
  | _, _ => EmptyString
  end.

Definition comma (n : Z) : string :=
  let s := strconv.Itoa n in
  if (String.length s <=? 3)%nat then s
  else
    let '(sign, s) := if Strings.HasPrefix s "-" then ("-"%string, Strings.str_drop 1 s)
                      else (EmptyString, s) in
    let pre := (String.length s mod 3)%nat in
    let pre := if Nat.eqb pre 0 then 3%nat else pre in
    sign +:+ Strings.str_take pre s +:+ commaGroups (String.length s) (Strings.str_drop pre s).

Definition RenderEntries (entries : list string) : string :=
  Strings.Join (List.filter (fun t => bool_decide (t <> EmptyString)) (map Strings.TrimSpace entries))
    (String.String bufio.newline EmptyString).

Definition statusLine (p : Parser) : string :=
  Strings.Join
    ((if decide (P_model p = EmptyString) then [] else [P_model p])
     ++ (if 0 <? P_totalTokens p then [comma (P_totalTokens p) +:+ " tok"] else [])
     ++ (if 0 <? P_contextWindow p then [comma (P_contextWindow p) +:+ " ctx"] else []))
    " | ".

(** ** transcript.go *)

Record Snapshot := mkSnapshot {
  Snap_Title : string; Snap_LastPrompt : string; Snap_LastAssistantMessage : string;
  Snap_StatusLine : string; Snap_RecentTurns : list TurnText }.

Definition snapshot (p : Parser) : Snapshot :=
  mkSnapshot (P_title p) (P_lastPrompt p) (P_lastAssistantMessage p) (statusLine p) (P_recentTurns p).

(** [_ = json.Unmarshal(payload, &v)] of a struct with one string field. *)
Definition oneField (name : string) (payload : RawMessage) : string :=
  (Unmarshal (dStruct [(name, dString)]) payload EmptyString).1.

Definition parseTurnContext (p : Parser) (payload : RawMessage) : Parser :=
  let model := oneField "model" payload in
  if decide (model = EmptyString) then p else p <| P_model := model |>.

Record turnContext := mkTurnContext { TC_Model : string; TC_Cwd : string; TC_ApprovalPolicy : string }.
#[export] Instance eta_turnContext : Eta turnContext := fun r =>
  mkTurnContext (TC_Model r) (TC_Cwd r) (TC_ApprovalPolicy r).

(** The fields of type [any] are not used; what they hold is never a reason
    not to store the others. *)
Definition renderTurnContext (payload : RawMessage) : option string :=
  let ctx := (Unmarshal (dStruct [fld "model" TC_Model dString; fld "cwd" TC_Cwd dString;
                                  fld "approval_policy" TC_ApprovalPolicy dString])
                payload (mkTurnContext "" "" "")).1 in
  let part (label v : string) := if decide (v = EmptyString) then [] else [label +:+ v] in
  match part "model="%string (TC_Model ctx) ++ part "approval="%string (TC_ApprovalPolicy ctx)
        ++ part "cwd="%string (TC_Cwd ctx) with
  | [] => None
  | parts => Some ("[turn] " +:+ Strings.Join parts " ")
  end.

Definition parseUserMessage (p : Parser) (payload : RawMessage) : Parser * option string :=
  let text := Strings.TrimSpace (stripUserMessagePrefix (oneField "message" payload)) in
  if decide (text = EmptyString) then (p, None)
  else
    let p := if decide (P_title p = EmptyString) then p <| P_title := text |> else p in
    let p := p <| P_lastPrompt := text |>
               <| P_recentTurns := appendRecentTurn (P_recentTurns p) "user" text |> in
    (p, Some ("[context] " +:+ text)).

Definition parseAgentMessage (p : Parser) (payload : RawMessage) : Parser * option string :=
  let text := Strings.TrimSpace (oneField "message" payload) in
  if decide (text = EmptyString) then (p, None)
  else (p <| P_lastAssistantMessage := text |>, Some text).

Definition parseThreadNameUpdated (p : Parser) (payload : RawMessage) : Parser * option string :=
  let name := Strings.TrimSpace (oneField "thread_name" payload) in
  if decide (name = EmptyString) then (p, None)
  else (p <| P_title := name |>, Some ("[title] " +:+ name)).

Record tokenInfo := mkTokenInfo { Info_TotalTokenUsage : option Z; Info_ModelContextWindow : Z }.
#[export] Instance eta_tokenInfo : Eta tokenInfo := fun r =>
  mkTokenInfo (Info_TotalTokenUsage r) (Info_ModelContextWindow r).

Definition dTokenInfo : Decoder tokenInfo :=
  dStruct [fld "total_token_usage" Info_TotalTokenUsage (dPtr 0 (dStruct [("total_tokens"%string, dInt)]));
           fld "model_context_window" Info_ModelContextWindow dInt].

Definition parseTokenCount (p : Parser) (payload : RawMessage) : Parser * option string :=
  match (Unmarshal (dStruct [("info"%string, dPtr (mkTokenInfo None 0) dTokenInfo)]) payload None).1 with
  | None => (p, None)
  | Some info =>
    let p := match Info_TotalTokenUsage info with
             | Some total => if 0 <? total then p <| P_totalTokens := total |> else p
             | None => p
             end in
    let p := if 0 <? Info_ModelContextWindow info
             then p <| P_contextWindow := Info_ModelContextWindow info |> else p in
    (p, Some ("[tokens] " +:+ statusLine p))
  end.

Definition parseTurnStarted (p : Parser) (payload : RawMessage) : Parser * option string :=
  let turnID := oneField "turn_id" payload in
  let p := p <| P_currentTurnID := turnID |> in
  let label := if decide (turnID = EmptyString) then "[turn] started"%string
               else "[turn] started" +:+ " " +:+ turnID in
  (p, Some (appendPromptContext label (P_lastPrompt p))).

Record turnEvent := mkTurnEvent { TE_TurnID : string; TE_Other : string }.
#[export] Instance eta_turnEvent : Eta turnEvent := fun r => mkTurnEvent (TE_TurnID r) (TE_Other r).

(** The turn that ends is no longer the current one. *)
Definition endTurn (p : Parser) (turnID : string) : Parser :=
  if bool_decide (turnID <> EmptyString) && bool_decide (turnID = P_currentTurnID p)
  then p <| P_currentTurnID := EmptyString |> else p.

Definition parseTurnComplete (p : Parser) (payload : RawMessage) : Parser * option string :=
  let ev := (Unmarshal (dStruct [fld "turn_id" TE_TurnID dString;
                                 fld "last_agent_message" TE_Other dString])
               payload (mkTurnEvent "" "")).1 in
  let msg := Strings.TrimSpace (TE_Other ev) in
  let p := if decide (msg = EmptyString) then p else p <| P_lastAssistantMessage := msg |> in
  let label := if decide (TE_TurnID ev = EmptyString) then "[turn] complete"%string
               else "[turn] complete" +:+ " " +:+ TE_TurnID ev in
  let p := endTurn p (TE_TurnID ev) in
  (p, Some (appendPromptContext label (P_lastPrompt p))).

Definition parseTurnAborted (p : Parser) (payload : RawMessage) : Parser * option string :=
  let ev := (Unmarshal (dStruct [fld "turn_id" TE_TurnID dString; fld "reason" TE_Other dString])
               payload (mkTurnEvent "" "")).1 in
  let parts := (if decide (TE_TurnID ev = EmptyString) then [] else [TE_TurnID ev])
               ++ (if decide (TE_Other ev = EmptyString) then [] else ["reason=" +:+ TE_Other ev]) in
  let label := match parts with
               | [] => "[turn] aborted"%string
               | _ => "[turn] aborted" +:+ " " +:+ Strings.Join parts " "
               end in
  let p := endTurn p (TE_TurnID ev) in
  (p, Some (appendPromptContext label (P_lastPrompt p))).

Definition parseThreadRolledBack (p : Parser) (payload : RawMessage) : Parser * option string :=
  let n := (Unmarshal (dStruct [("num_turns"%string, dInt)]) payload 0).1 in
  if n <=? 0 then (p, Some "[rollback]"%string)
  else (p, Some (appendPromptContext ("[rollback] " +:+ strconv.Itoa n +:+ " turn(s)") (P_lastPrompt p))).

Definition parseAgentReasoning (p : Parser) (payload : RawMessage) : Parser * option string :=
  let text := Strings.TrimSpace (oneField "text" payload) in
  if decide (text = EmptyString) then (p, None) else (p, Some ("[reasoning] " +:+ text)).

Definition parseEvent (p : Parser) (payload : RawMessage) : Parser * option string :=
  let '(kind, err) := Unmarshal (dStruct [("type"%string, dString)]) payload EmptyString in
  if err then (p, None)
  else if decide (kind = "user_message"%string) then parseUserMessage p payload
  else if decide (kind = "agent_message"%string) then parseAgentMessage p payload
  else if decide (kind = "thread_name_updated"%string) then parseThreadNameUpdated p payload
  else if decide (kind = "token_count"%string) then parseTokenCount p payload
  else if decide (kind = "turn_started"%string) then parseTurnStarted p payload
  else if decide (kind = "turn_complete"%string) then parseTurnComplete p payload
  else if decide (kind = "turn_aborted"%string) then parseTurnAborted p payload
  else if decide (kind = "thread_rolled_back"%string) then parseThreadRolledBack p payload
  else if decide (kind = "agent_reasoning"%string) then parseAgentReasoning p payload
  else (p, Some ("[event] " +:+ kind)).

Record contentPart := mkContentPart { Part_Type : string; Part_Text : string }.
#[export] Instance eta_contentPart : Eta contentPart := fun r =>
  mkContentPart (Part_Type r) (Part_Text r).

Definition parseMessageItem (p : Parser) (payload : RawMessage) (role : string)
    : Parser * option string :=
  let '(content, err) := Unmarshal (dStruct [("content"%string,
      dSlice (mkContentPart "" "") (dStruct [fld "type" Part_Type dString; fld "text" Part_Text dString]))])
    payload [] in
  if err then (p, None)
  else
    let texts := List.filter (fun t => bool_decide (t <> EmptyString))
      (map (fun c => Strings.TrimSpace (Part_Text c))
        (List.filter (fun c => bool_decide (Part_Type c = "output_text"%string)
                               || bool_decide (Part_Type c = "input_text"%string)) content)) in
    match texts with
    | [] => (p, None)
    | _ =>
      let text := Strings.Join texts (String.String bufio.newline EmptyString) in
      if decide (role = "assistant"%string) then
        (p <| P_lastAssistantMessage := text |>
           <| P_recentTurns := appendRecentTurn (P_recentTurns p) "assistant" text |>, None)
      else if decide (role = "user"%string) then (p, None)
      else (p, Some text)
    end.

Record toolAction := mkToolAction { Act_Type : string; Act_Query : string; Act_Command : string }.
#[export] Instance eta_toolAction : Eta toolAction := fun r =>
  mkToolAction (Act_Type r) (Act_Query r) (Act_Command r).
Record toolCall := mkToolCall {
  Call_Type : string; Call_Name : string; Call_CallID : string; Call_Arguments : string;
  Call_Action : toolAction; Call_Command : string; Call_Query : string }.
#[export] Instance eta_toolCall : Eta toolCall := fun r =>
  mkToolCall (Call_Type r) (Call_Name r) (Call_CallID r) (Call_Arguments r) (Call_Action r)
    (Call_Command r) (Call_Query r).

Definition dToolCall : Decoder toolCall :=
  dStruct [fld "type" Call_Type dString; fld "name" Call_Name dString;
           fld "call_id" Call_CallID dString; fld "arguments" Call_Arguments dString;
           fld "action" Call_Action (dStruct [fld "type" Act_Type dString;
             fld "query" Act_Query dString; fld "command" Act_Command dString]);
           fld "command" Call_Command dString; fld "query" Call_Query dString].

Definition renderToolCall (p : Parser) (payload : RawMessage) (fallback : string) : option string :=
  let item := (Unmarshal dToolCall payload (mkToolCall "" "" "" "" (mkToolAction "" "" "") "" "")).1 in
  let name := firstNonEmpty [Call_Name item; Call_Type item; fallback] in
  let detail := firstNonEmpty [previewText (Call_Command item); previewText (Call_Query item);
    previewText (Act_Command (Call_Action item)); previewText (Act_Query (Call_Action item));
    previewText (Call_Arguments item)] in
  Some (appendPromptContext
    (if decide (detail = EmptyString) then "▸ " +:+ name else "▸ " +:+ name +:+ " " +:+ detail)
    (P_lastPrompt p)).

Record toolOutput := mkToolOutput { Out_Type : string; Out_CallID : string; Out_Output : string }.
#[export] Instance eta_toolOutput : Eta toolOutput := fun r =>
  mkToolOutput (Out_Type r) (Out_CallID r) (Out_Output r).

Definition renderToolResult (p : Parser) (payload : RawMessage) (fallback : string) : option string :=
  let item := (Unmarshal (dStruct [fld "type" Out_Type dString; fld "call_id" Out_CallID dString;
                                   fld "output" Out_Output dString])
                 payload (mkToolOutput "" "" "")).1 in
  let name := firstNonEmpty [Out_Type item; fallback] in
  let detail := previewText (Out_Output item) in
  Some (appendPromptContext
    (if decide (detail = EmptyString) then "← " +:+ name else "← " +:+ name +:+ " " +:+ detail)
    (P_lastPrompt p)).

Record itemProbe := mkItemProbe { Probe_Type : string; Probe_Role : string }.
#[export] Instance eta_itemProbe : Eta itemProbe := fun r =>
  mkItemProbe (Probe_Type r) (Probe_Role r).

Definition parseResponseItem (p : Parser) (payload : RawMessage) : Parser * option string :=
  let '(probe, err) := Unmarshal (dStruct [fld "type" Probe_Type dString; fld "role" Probe_Role dString])
    payload (mkItemProbe "" "") in
  let named (names : list string) := existsb (String.eqb (Probe_Type probe)) names in
  if err then (p, None)
  else if named ["message"%string] then parseMessageItem p payload (Probe_Role probe)
  else if named ["function_call"; "custom_tool_call"; "web_search_call"; "local_shell_call"]%string
  then (p, renderToolCall p payload (Probe_Type probe))
  else if named ["function_call_output"; "custom_tool_call_output"; "local_shell_call_output"]%string
  then (p, renderToolResult p payload (Probe_Type probe))
  else (p, None).

Definition renderCompacted (payload : RawMessage) : option string :=
  let text := Strings.TrimSpace (oneField "message" payload) in
  Some (if decide (text = EmptyString) then "[compacted]"%string else "[compacted] " +:+ text).

Record rolloutLine := mkRolloutLine { Line_Timestamp : string; Line_Type : string;
  Line_Payload : RawMessage }.
#[export] Instance eta_rolloutLine : Eta rolloutLine := fun r =>
  mkRolloutLine (Line_Timestamp r) (Line_Type r) (Line_Payload r).

(** [session_meta] is decoded and dropped. *)
Definition parseLine (p : Parser) (line : string) : Parser * option string :=
  let '(item, err) := Unmarshal (dStruct [fld "timestamp" Line_Timestamp dString;
      fld "type" Line_Type dString; fld "payload" Line_Payload dRaw])
    line (mkRolloutLine "" "" "") in
  let kind := Line_Type item in
  if err then (p, None)
  else if decide (kind = "turn_context"%string) then
    (parseTurnContext p (Line_Payload item), renderTurnContext (Line_Payload item))
  else if decide (kind = "event_msg"%string) then parseEvent p (Line_Payload item)
  else if decide (kind = "response_item"%string) then parseResponseItem p (Line_Payload item)
  else if decide (kind = "compacted"%string) then (p, renderCompacted (Line_Payload item))
  else (p, None).

Definition stepLine (acc : Parser * list string) (line : string) : Parser * list string :=
  let line := Strings.TrimSpace line in
  if decide (line = EmptyString) then acc
  else
    let '(p, e) := parseLine acc.1 line in
    (p, acc.2 ++ match e with Some t => [t] | None => [] end).

Definition ParseLines (p : Parser) (raw : string) : Parser * list string :=
  if decide (raw = EmptyString) then (p, [])
  else foldl stepLine (p, []) (Strings.Split raw bufio.newline).

(** ** renderer.go *)

Definition Append (p : Parser) (data : string) : Parser * string :=
  let '(p, entries) := ParseLines p data in (p, RenderEntries entries).

(** ** Chunks *)

Lemma foldl_step_acc lines : forall p es,
  foldl stepLine (p, es) lines
  = ((foldl stepLine (p, []) lines).1, es ++ (foldl stepLine (p, []) lines).2).
Proof.
  induction lines as [|l lines IH]; intros p es; cbn [foldl]; [by rewrite app_nil_r|].
  assert (stepLine (p, es) l = ((stepLine (p, []) l).1, es ++ (stepLine (p, []) l).2)) as ->.
  { unfold stepLine. case_decide; [by cbn; rewrite app_nil_r|]. cbn. by destruct (parseLine p _). }
  destruct (stepLine (p, []) l) as [p' es']. cbn [fst snd].
  rewrite (IH p' (es ++ es')), (IH p' es'). cbn [fst snd]. by rewrite app_assoc.
Qed.

Lemma ParseLines_unlines p lines :
  Forall (fun l => Strings.ContainsByte l bufio.newline = false) lines ->
  ParseLines p (bufio.unlines lines) = foldl stepLine (p, []) lines.
Proof.
  intros Hl. unfold ParseLines. case_decide as E.
  { destruct lines as [|l lines]; [done|]. cbn in E. by destruct l. }
  rewrite <- (str_app_nil_r (bufio.unlines lines)), bufio.split_unlines by done.
  rewrite foldl_app. cbn [Strings.Split foldl]. by destruct (foldl stepLine (p, []) lines).
Qed.

(** A chunk that ends at a line can be parsed before the next. *)
Lemma ParseLines_app p a b :
  Forall (fun l => Strings.ContainsByte l bufio.newline = false) (a ++ b) ->
  let '(p1, es1) := ParseLines p (bufio.unlines a) in
  let '(p2, es2) := ParseLines p1 (bufio.unlines b) in
  ParseLines p (bufio.unlines (a ++ b)) = (p2, es1 ++ es2).
Proof.
  intros H. pose proof H as [Ha Hb]%Forall_app.
  rewrite !ParseLines_unlines by done. destruct (foldl stepLine (p, []) a) as [p1 es1] eqn:E.
  rewrite ParseLines_unlines by done. destruct (foldl stepLine (p1, []) b) as [p2 es2] eqn:E2.
  rewrite foldl_app, E, foldl_step_acc, E2. done.
Qed.
End codextx.
