(* ===== verification/ClaudeRender.v ===== *)
(** * client/lib/claude/transcript: rendering, and the tab renderers

    [transcript_render.go] and [renderer.go] of the claude and codex
    transcripts, and client/state/tab_renderer.go, which builds a renderer for
    a log tab from the configuration its driver attached.  The styles are
    drawn by a terminal library: [style] is what it makes of a text. *)

From S2P Require Import Prelude GoStd GoText GoJson GoIO ClaudeTool ClaudeParser CodexTranscript.
From stdpp Require Import pretty.
Open Scope Z_scope.

Module clauderender.
Import json claudetx claudeparse.

Inductive Style :=
| userStyle | toolStyle | toolErrStyle | toolDimStyle | thinkingStyle | titleStyle | agentStyle
| depthDimStyle.

Definition maxToolPrimaryLen : nat := 120.
Definition maxThinkingLines : nat := 8.

Definition formatToolUseHead (name : string) (inp : ToolInput) : string :=
  let primary := truncate (TI_Primary inp) maxToolPrimaryLen in
  let detail := TI_Detail inp in
  if bool_decide (primary = EmptyString) && bool_decide (detail = EmptyString) then name
  else if decide (primary = EmptyString) then name +:+ "  (" +:+ detail +:+ ")"
  else if decide (detail = EmptyString) then name +:+ "  " +:+ primary
  else name +:+ "  " +:+ primary +:+ "  (" +:+ detail +:+ ")".

Definition toolResultDetails (r : option ToolResult) : list string :=
  match r with Some (TRBash b) => Bash_StdoutHead b | _ => [] end.

Definition newlineStr : string := String.String bufio.newline EmptyString.

Section render.
Context (style : Style -> string -> string).

(** Line [i] and those after it, [total] in all. *)
Fixpoint thinking_go (i total : nat) (lines : list string) : list string :=
  match lines with
  | [] => []
  | l :: lines =>
    if (maxThinkingLines <=? i)%nat then
      [style thinkingStyle ("  ⋯ " +:+ "[+" +:+ strconv.Itoa (Z.of_nat (total - maxThinkingLines))
                            +:+ " more lines]")]
    else style thinkingStyle ("  ⋯ " +:+ Strings.TrimRight l [carriageReturn])
         :: thinking_go (S i) total lines
  end.

Definition renderThinking (text : string) : string :=
  if decide (text = EmptyString) then EmptyString
  else
    let lines := Strings.Split text bufio.newline in
    Strings.Join (thinking_go 0 (length lines) lines) newlineStr.

Definition renderToolUse (e : Entry) : string :=
  style toolStyle ("  ▸ " +:+ formatToolUseHead (Entry_ToolName e) (Entry_ToolInput e)).

Definition renderToolResult (e : Entry) : string :=
  let summary := match Entry_ToolResult e with
                 | Some r => if decide (Summary r = EmptyString) then "ok"%string else Summary r
                 | None => "ok"%string
                 end in
  let head := "    ← " +:+ (if Entry_IsError e then "error " +:+ summary else summary) in
  Strings.Join
    (style (if Entry_IsError e then toolErrStyle else toolStyle) head
     :: map (fun d => style toolDimStyle ("      " +:+ d)) (toolResultDetails (Entry_ToolResult e)))
    newlineStr.

Definition renderBody (e : Entry) : string :=
  match Entry_Kind e with
  | KindUser => style userStyle ("YOU> " +:+ Entry_Text e)
  | KindAssistantText => Entry_Text e
  | KindAssistantThinking => renderThinking (Entry_Text e)
  | KindToolUse => renderToolUse e
  | KindToolResult => renderToolResult e
  | KindSystem => style toolDimStyle ("  § " +:+ Entry_Text e)
  | KindAttachment => style toolDimStyle ("  ⊕ " +:+ Entry_Text e)
  | KindCustomTitle => style titleStyle ("  # " +:+ Entry_Text e)
  | KindAgentName => style agentStyle ("  @ " +:+ Entry_Text e)
  | KindSubagentBegin => style agentStyle ("┌─ " +:+ Entry_Text e)
  | KindSubagentEnd => style agentStyle "└─"
  | KindFileSnapshot | KindLastPrompt | KindUnknown => EmptyString
  end.

(** [strings.Repeat]; the depth of an entry is never negative. *)
Definition Repeat (s : string) (n : Z) : string :=
  foldr (fun a b => a +:+ b) EmptyString (replicate (Z.to_nat n) s).

Definition Render (e : Entry) : string :=
  let body := renderBody e in
  if bool_decide (body = EmptyString) || (Entry_Depth e =? 0) then body
  else
    let indent := Repeat "│ " (Entry_Depth e) in
    Strings.Join (map (fun l => style depthDimStyle indent +:+ l) (Strings.Split body bufio.newline))
      newlineStr.

Definition RenderEntries (entries : list Entry) : string :=
  Strings.Join (List.filter (fun t => bool_decide (t <> EmptyString)) (map Render entries)) newlineStr.
End render.

(** ** Tab renderers *)

Record RendererConfig := mkRendererConfig { RC_SubagentDir : string; RC_ShowThinking : bool }.
#[export] Instance eta_RendererConfig : Eta RendererConfig := fun r =>
  mkRendererConfig (RC_SubagentDir r) (RC_ShowThinking r).

Definition dRendererConfig : Decoder RendererConfig :=
  dStruct [fld "subagent_dir" RC_SubagentDir dString; fld "show_thinking" RC_ShowThinking dBool].

(** A renderer of either kind with its state. *)
Inductive TabRenderer :=
| ClaudeTab (cfg : RendererConfig) (p : Parser)
| CodexTab (p : codextx.Parser).

(** [NewTabRenderer]: the registered factory applied to the decoded
    configuration, the zero one if it does not decode. *)
Definition NewTabRenderer (kind : string) (cfg : RawMessage) : option TabRenderer :=
  if decide (kind = "transcript"%string) then
    let c := if decide (cfg = EmptyString) then mkRendererConfig "" false
             else decodeInto dRendererConfig cfg (mkRendererConfig "" false) in
    Some (ClaudeTab c (newParser ∅))
  else if decide (kind = "codex_transcript"%string) then Some (CodexTab codextx.NewParser)
  else None.

Definition HasTabRenderer (kind : string) : bool :=
  bool_decide (kind = "transcript"%string) || bool_decide (kind = "codex_transcript"%string).

Section tabs.
Context `{MR : MapRange} (style : Style -> string -> string).
(** The files under a directory, and the fuel for nested subagents. *)
Context (dirFS : string -> string -> option string) (fuel : nat).

(** [newParserWithDir]: a loader only if a directory is configured. *)
Definition loaderOf (cfg : RendererConfig) : option (string -> Z -> M (list Entry)) :=
  if decide (RC_SubagentDir cfg = EmptyString) then None
  else Some (load_go (dirFS (RC_SubagentDir cfg)) "." (RC_ShowThinking cfg) fuel).

(** [None]: the call does not return. *)
Definition Append (r : TabRenderer) (data : string) : option (TabRenderer * string) :=
  match r with
  | ClaudeTab cfg p =>
    match ParseLines (RC_ShowThinking cfg) (loaderOf cfg) data p with
    | Some (entries, p) => Some (ClaudeTab cfg p, RenderEntries style entries)
    | None => None
    end
  | CodexTab p => let '(p, out) := codextx.Append p data in Some (CodexTab p, out)
  end.

Definition ResetTab (r : TabRenderer) : TabRenderer :=
  match r with
  | ClaudeTab cfg p => ClaudeTab cfg (Reset p)
  | CodexTab p => CodexTab (codextx.Reset p)
  end.
End tabs.
End clauderender.
