(* ===== verification/DriverTypes.v ===== *)
(** * client/driver: states, jobs and surroundings of the shipped drivers

    The data of [common_state.go], [jobs.go], [generic.go], [shell.go],
    [claude.go], [codex.go] and [gemini.go], the instance of [ClientTypes]
    they give the reducer, and [DriverEnv]: the code the drivers call that is
    not part of the program (JSON encoding, the file system, the codex
    database, path abbreviation), a parameter of every definition using it. *)

From S2P Require Import Prelude GoStd ClientView ClientState.
Open Scope Z_scope.

(** Values of type [any] other than nil and strings, and the types the reducer
    only passes on. *)
Class DriverTypes := {
  JsonOther : Type;
  DriverAny : Type;
  DriverFloat : Type;
}.

(** A JSON value decoded into [any]. *)
Inductive anyval `{DriverTypes} :=
| AnyNil
| AnyString (s : string)
| AnyOther (v : JsonOther).

(** ** CommonState (common_state.go) *)

Record CommonState := mkCommonState {
  CS_RoostSessionID : string;
  CS_Project : string;
  CS_StartDir : string;
  CS_TranscriptPath : string;
  CS_WorktreeName : string;
  CS_Status : Status;
  CS_StatusChangedAt : Time;
  CS_BranchTag : string;
  CS_BranchBG : string;
  CS_BranchFG : string;
  CS_BranchTarget : string;
  CS_BranchAt : Time;
  CS_BranchIsWorktree : bool;
  CS_BranchParentBranch : string;
  CS_BranchInFlight : bool;
  CS_LastPrompt : string;
  CS_LastAssistantMessage : string;
  CS_LastHookEvent : string;
  CS_LastHookAt : Time;
  CS_Summary : string;
  CS_SummaryInFlight : bool;
  CS_Title : string;
}.

#[export] Instance eta_CommonState : Eta CommonState := fun r =>
  mkCommonState (CS_RoostSessionID r) (CS_Project r) (CS_StartDir r) (CS_TranscriptPath r)
    (CS_WorktreeName r) (CS_Status r) (CS_StatusChangedAt r) (CS_BranchTag r) (CS_BranchBG r)
    (CS_BranchFG r) (CS_BranchTarget r) (CS_BranchAt r) (CS_BranchIsWorktree r)
    (CS_BranchParentBranch r) (CS_BranchInFlight r) (CS_LastPrompt r)
    (CS_LastAssistantMessage r) (CS_LastHookEvent r) (CS_LastHookAt r) (CS_Summary r)
    (CS_SummaryInFlight r) (CS_Title r).

(** [CommonState{Status: st, StatusChangedAt: now}]. *)
Definition initCommon (st : Status) (now : Time) : CommonState :=
  mkCommonState "" "" "" "" "" st now "" "" "" "" 0 false "" false "" "" "" 0 "" false "".
Definition zeroCommon : CommonState := initCommon 0 0.

(** ** Jobs (jobs.go) *)

Record SummaryTurn := mkSummaryTurn { ST_Role : string; ST_Text : string }.

#[export] Instance SummaryTurn_eq : EqDecision SummaryTurn.
Proof. solve_decision. Defined.

Record TranscriptParseResult := mkTranscriptParseResult {
  TP_Title : string;
  TP_LastPrompt : string;
  TP_StatusLine : string;
  TP_CurrentTool : string;
  TP_Subagents : gmap string Z;
  TP_RecentTurns : list SummaryTurn;
  TP_PlanFile : string;
}.

Record CodexTranscriptParseResult := mkCodexTranscriptParseResult {
  CTP_Title : string;
  CTP_LastPrompt : string;
  CTP_LastAssistantMessage : string;
  CTP_StatusLine : string;
  CTP_RecentTurns : list SummaryTurn;
}.

Record GeminiTranscriptParseResult := mkGeminiTranscriptParseResult {
  GTP_Title : string;
  GTP_LastPrompt : string;
  GTP_LastAssistantMessage : string;
  GTP_StatusLine : string;
  GTP_CurrentTool : string;
  GTP_RecentTurns : list SummaryTurn;
}.

Record BranchDetectResult := mkBranchDetectResult {
  BD_Branch : string;
  BD_Background : string;
  BD_Foreground : string;
  BD_IsWorktree : bool;
  BD_ParentBranch : string;
}.

(** The job inputs drivers start and the results runners return, by kind;
    [ResultOther] is any other value of type [any], nil included. *)
Inductive DriverJobInput :=
| SummaryCommandInput (prompt : string)
| TranscriptParseInput (claudeUUID path : string)
| CodexTranscriptParseInput (path : string)
| GeminiTranscriptParseInput (path : string)
| BranchDetectInput (workingDir : string).

Inductive DriverJobResult `{DriverTypes} :=
| SummaryCommandResult (summary : string)
| ResultTranscript (r : TranscriptParseResult)
| ResultCodexTranscript (r : CodexTranscriptParseResult)
| ResultGeminiTranscript (r : GeminiTranscriptParseResult)
| ResultBranch (r : BranchDetectResult)
| ResultOther (v : DriverAny).

Definition JobKind (i : DriverJobInput) : string :=
  match i with
  | SummaryCommandInput _ => "summary_command"
  | TranscriptParseInput _ _ => "transcript_parse"
  | CodexTranscriptParseInput _ => "codex_transcript_parse"
  | GeminiTranscriptParseInput _ => "gemini_transcript_parse"
  | BranchDetectInput _ => "branch_detect"
  end.

(** ** Driver states *)

Record GenericState := mkGenericState {
  GS_Common : CommonState;
  GS_Name : string;
}.
#[export] Instance eta_GenericState : Eta GenericState := fun r =>
  mkGenericState (GS_Common r) (GS_Name r).

(** [LastExitCode] is a pointer; [None] is nil. *)
Record ShellState := mkShellState {
  SS_Common : CommonState;
  SS_SawPromptEvent : bool;
  SS_LastExitCode : option Z;
}.
#[export] Instance eta_ShellState : Eta ShellState := fun r =>
  mkShellState (SS_Common r) (SS_SawPromptEvent r) (SS_LastExitCode r).

Section states.
Context `{DT : DriverTypes}.

(** The pending-tool records of the three agent drivers; codex has no
    permission fields, gemini no mode. *)
Record pendingTool := mkPendingTool {
  PT_Name : string;
  PT_Input : gmap string anyval;
  PT_StartedAt : Time;
  PT_SawPrompt : bool;
  PT_PermMode : string;
}.

Record ClaudeState := mkClaudeState {
  CL_Common : CommonState;
  CL_ClaudeSessionID : string;
  CL_ForkParentID : string;
  CL_LastBridgeTS : Time;
  CL_StatusLine : string;
  CL_CurrentTool : string;
  CL_SubagentCounts : gmap string Z;
  CL_RecentTurns : list SummaryTurn;
  CL_PlanFile : string;
  CL_TranscriptInFlight : bool;
  CL_WatchedFile : string;
  CL_PendingTools : gmap string pendingTool;
  CL_LastWindowTitle : string;
}.

Record codexPendingTool := mkCodexPendingTool {
  XPT_Name : string;
  XPT_Input : gmap string anyval;
  XPT_StartedAt : Time;
}.

Record CodexState := mkCodexState {
  CX_Common : CommonState;
  CX_ThreadID : string;
  CX_SessionID : string;
  CX_RolloutPath : string;
  CX_RequestedThreadID : string;
  CX_ObservedThreadID : string;
  CX_ResumePhase : string;
  CX_FailureReason : string;
  CX_CurrentTool : string;
  CX_PendingApproval : bool;
  CX_TranscriptInFlight : bool;
  CX_WatchedFile : string;
  CX_StatusLine : string;
  CX_LastWindowTitle : string;
  CX_PlanSummary : string;
  CX_DiffSummary : string;
  CX_DiffPaths : list string;
  CX_RecentTurns : list SummaryTurn;
  CX_PendingTools : gmap string codexPendingTool;
}.

Record geminiPendingTool := mkGeminiPendingTool {
  GPT_Name : string;
  GPT_Input : gmap string anyval;
  GPT_StartedAt : Time;
  GPT_SawPrompt : bool;
}.

Record GeminiState := mkGeminiState {
  GM_Common : CommonState;
  GM_GeminiSessionID : string;
  GM_CurrentTool : string;
  GM_TranscriptInFlight : bool;
  GM_WatchedFile : string;
  GM_StatusLine : string;
  GM_RecentTurns : list SummaryTurn;
  GM_PendingTools : gmap string geminiPendingTool;
  GM_LastWindowTitle : string;
}.

#[export] Instance eta_pendingTool : Eta pendingTool := fun r =>
  mkPendingTool (PT_Name r) (PT_Input r) (PT_StartedAt r) (PT_SawPrompt r) (PT_PermMode r).
#[export] Instance eta_ClaudeState : Eta ClaudeState := fun r =>
  mkClaudeState (CL_Common r) (CL_ClaudeSessionID r) (CL_ForkParentID r) (CL_LastBridgeTS r)
    (CL_StatusLine r) (CL_CurrentTool r) (CL_SubagentCounts r) (CL_RecentTurns r)
    (CL_PlanFile r) (CL_TranscriptInFlight r) (CL_WatchedFile r) (CL_PendingTools r)
    (CL_LastWindowTitle r).
#[export] Instance eta_CodexState : Eta CodexState := fun r =>
  mkCodexState (CX_Common r) (CX_ThreadID r) (CX_SessionID r) (CX_RolloutPath r)
    (CX_RequestedThreadID r) (CX_ObservedThreadID r) (CX_ResumePhase r) (CX_FailureReason r)
    (CX_CurrentTool r) (CX_PendingApproval r) (CX_TranscriptInFlight r) (CX_WatchedFile r)
    (CX_StatusLine r) (CX_LastWindowTitle r) (CX_PlanSummary r) (CX_DiffSummary r)
    (CX_DiffPaths r) (CX_RecentTurns r) (CX_PendingTools r).
#[export] Instance eta_geminiPendingTool : Eta geminiPendingTool := fun r =>
  mkGeminiPendingTool (GPT_Name r) (GPT_Input r) (GPT_StartedAt r) (GPT_SawPrompt r).
#[export] Instance eta_GeminiState : Eta GeminiState := fun r =>
  mkGeminiState (GM_Common r) (GM_GeminiSessionID r) (GM_CurrentTool r)
    (GM_TranscriptInFlight r) (GM_WatchedFile r) (GM_StatusLine r) (GM_RecentTurns r)
    (GM_PendingTools r) (GM_LastWindowTitle r).

(** The concrete types behind the interface [state.DriverState]. *)
Inductive DriverStates :=
| DSGeneric (s : GenericState)
| DSShell (s : ShellState)
| DSClaude (s : ClaudeState)
| DSCodex (s : CodexState)
| DSGemini (s : GeminiState).

(** ** Hook payloads and tool-log entries *)

Record hookPayload := mkHookPayload {
  HP_SessionID : string;
  HP_HookEventName : string;
  HP_Prompt : string;
  HP_TranscriptPath : string;
  HP_NotificationType : string;
  HP_ToolName : string;
  HP_ToolInput : gmap string anyval;
  HP_Source : string;
  HP_ToolUseID : string;
  HP_PermissionMode : string;
  HP_Error : string;
  HP_IsInterrupt : bool;
}.
Definition zeroHookPayload : hookPayload :=
  mkHookPayload "" "" "" "" "" "" ∅ "" "" "" "" false.

Record geminiHookPayload := mkGeminiHookPayload {
  GHP_SessionID : string;
  GHP_HookEventName : string;
  GHP_NotificationType : string;
  GHP_TranscriptPath : string;
  GHP_Source : string;
  GHP_Prompt : string;
  GHP_ToolName : string;
  GHP_ToolInput : gmap string anyval;
  GHP_ToolUseID : string;
  GHP_PermissionMode : string;
  GHP_PromptResponse : string;
  GHP_StopReason : string;
}.
Definition zeroGeminiHookPayload : geminiHookPayload :=
  mkGeminiHookPayload "" "" "" "" "" "" "" ∅ "" "" "" "".

Record toolLogEntry := mkToolLogEntry {
  TL_TS : Time;
  TL_RoostSessionID : string;
  TL_ClaudeSessionID : string;
  TL_ToolUseID : string;
  TL_ToolName : string;
  TL_Kind : string;
  TL_PermissionMode : string;
  TL_DurationMs : Z;
  TL_ToolInput : gmap string anyval;
  TL_Error : string;
}.
End states.

#[export] Instance DriverClientTypes `{DriverTypes} : ClientTypes := {|
  DState := DriverStates;
  JobInput := DriverJobInput;
  JobResult := DriverJobResult;
  AnyValue := DriverAny;
  Float64 := DriverFloat;
|}.

(** ** Surroundings *)

(** The outcome of [os.Stat]. *)
Inductive FileStat := StatOk (size : Z) | StatNotExist (err : error) | StatErr (err : error).

(** What the drivers use of code outside the program:
    - [unmarshal…]: [json.Unmarshal] into a zero value, whose error the
      drivers ignore (fields decoded before it are kept);
    - [marshal…]: [json.Marshal];
    - [fishpath_Shorten]: package fishpath-go;
    - [os_Stat], [os_Getenv], [os_UserHomeDir];
    - [sql_threads db col key value]: the rows of
      [SELECT col FROM threads WHERE key = value LIMIT 2] in the sqlite file
      [db], or the error of opening, querying or scanning it. *)
Class DriverEnv `{DriverTypes} := {
  unmarshalHook : string -> hookPayload;
  unmarshalGeminiHook : string -> geminiHookPayload;
  marshalToolLog : toolLogEntry -> string + error;
  marshalClaudeRenderer : string -> bool -> string;
  marshalCodexRenderer : string;
  fishpath_Shorten : string -> string -> string;
  os_Stat : string -> FileStat;
  os_Getenv : string -> string;
  os_UserHomeDir : string + error;
  sql_threads : string -> string -> string -> string -> list string + error;
}.
