(* ===== verification/DriverText.v ===== *)
(** * client/driver: commands, prompts, tags and titles

    The pure text functions of the drivers: worktree and flag handling
    ([worktree.go], [flags.go], platform/lib/claude/cli), shell quoting
    ([claude_statusline.go]), tags and view pieces ([tags.go],
    [view_builder.go]). *)

From S2P Require Import Prelude GoStd GoText ClientView ClientState DriverTypes.
Open Scope Z_scope.

Definition nl : string := String.String "010" EmptyString.
Definition dquote : string := String.String "034" EmptyString.
Definition len (s : string) : Z := Z.of_nat (String.length s).

(** ** Worktree flags (worktree.go) *)

Record worktreeRequest := mkWorktreeRequest { WR_Enabled : bool; WR_Name : string }.

(** How a token matches the flags: exactly, or as [flag=value]. *)
Inductive flagMatch := MatchExact | MatchValue (v : string).

Fixpoint matchFlag (p : string) (flags : list string) : option flagMatch :=
  match flags with
  | [] => None
  | flag :: rest =>
    if decide (p = flag) then Some MatchExact
    else if Strings.HasPrefix p (flag +:+ "=")
    then Some (MatchValue (Strings.TrimPrefix p (flag +:+ "=")))
    else matchFlag p rest
  end.

Fixpoint parseWorktree_go (flags parts : list string) (req : worktreeRequest)
    (out : list string) : worktreeRequest * list string :=
  match parts with
  | [] => (req, out)
  | p :: rest =>
    match matchFlag p flags with
    | None => parseWorktree_go flags rest req (out ++ [p])
    | Some (MatchValue v) => parseWorktree_go flags rest (mkWorktreeRequest true v) out
    | Some MatchExact =>
      match rest with
      | next :: rest' =>
        if Strings.HasPrefix next "-"
        then parseWorktree_go flags rest (mkWorktreeRequest true (WR_Name req)) out
        else parseWorktree_go flags rest' (mkWorktreeRequest true next) out
      | [] => (mkWorktreeRequest true (WR_Name req), out)
      end
    end
  end.

Definition parseWorktreeFlags (command : string) (flags : list string) : worktreeRequest * string :=
  let '(req, out) := parseWorktree_go flags (Strings.Fields command) (mkWorktreeRequest false "") [] in
  (req, Strings.Join out " ").

Definition resolveWorktreeRequest (command : string) (options : LaunchOptions)
    (flags : list string) : worktreeRequest * string :=
  let '(req, stripped) := parseWorktreeFlags command flags in
  let req := if Worktree_Enabled (Opt_Worktree options)
             then mkWorktreeRequest true (WR_Name req) else req in
  (req, Strings.TrimSpace stripped).

Definition appendFlag (command flag : string) (enabled : bool) : string :=
  let command := Strings.TrimSpace command in
  if negb enabled || bool_decide (command = EmptyString) then command
  else Strings.TrimSpace (command +:+ " " +:+ flag).

(** [LaunchOptions{Worktree: WorktreeOption{Enabled: b}}]. *)
Definition worktreeOptions (b : bool) : LaunchOptions :=
  zeroLaunchOptions <| Opt_Worktree := mkWorktreeOption b |>.

Definition CommonPrepareCreate (project command : string) (options : LaunchOptions)
    (flags : list string) : CreateLaunch :=
  let '(req, stripped) := resolveWorktreeRequest command options flags in
  mkCreateLaunch (Strings.TrimSpace stripped) project (worktreeOptions (WR_Enabled req)).

(** ** Flags (flags.go, platform/lib/claude/cli) *)

Definition hasFlagToken (command flag : string) : bool :=
  existsb (fun p => bool_decide (p = flag) || Strings.HasPrefix p (flag +:+ "="))
    (Strings.Fields command).

Definition stripFlagToken (command flag : string) : string :=
  Strings.Join (filter (fun p => p <> flag) (Strings.Fields command)) " ".

Module claudecli.
Definition sandboxSkipFlag : string := "--allow-dangerously-skip-permissions".
Definition autoModeFlag : string := "--enable-auto-mode".

Definition hasToken (command flag : string) : bool :=
  existsb (fun f => bool_decide (f = flag)) (Strings.Fields command).

Definition stripToken (command flag : string) : string :=
  Strings.Join (filter (fun p => p <> flag) (Strings.Fields command)) " ".

Definition SandboxFlags (command : string) (sandboxed : bool) : string :=
  if negb sandboxed then command
  else
    let command := stripToken command autoModeFlag in
    if hasToken command sandboxSkipFlag then command
    else Strings.TrimSpace command +:+ " " +:+ sandboxSkipFlag.

Definition AppServerArgs (resumeSessionID appendSystemPrompt prompt : string) : list string :=
  (["-p"; "--output-format"; "stream-json"; "--verbose"]%string
   ++ (if decide (appendSystemPrompt = EmptyString) then []
       else ["--append-system-prompt"%string; appendSystemPrompt])
   ++ (if decide (resumeSessionID = EmptyString) then []
       else ["--resume"%string; resumeSessionID]))
  ++ [prompt].

Fixpoint stripWorktree_go (parts : list string) : list string :=
  match parts with
  | [] => []
  | p :: rest =>
    if decide (p = "--worktree"%string) then
      match rest with
      | next :: rest' =>
        if Strings.HasPrefix next "-" then stripWorktree_go rest else stripWorktree_go rest'
      | [] => []
      end
    else if Strings.HasPrefix p "--worktree=" then stripWorktree_go rest
    else p :: stripWorktree_go rest
  end.
Definition StripWorktreeFlag (command : string) : string :=
  Strings.Join (stripWorktree_go (Strings.Fields command)) " ".

Definition ResumeCommand (baseCommand sessionID : string) : string :=
  if decide (sessionID = EmptyString) then baseCommand
  else StripWorktreeFlag baseCommand +:+ " --resume " +:+ sessionID.

Definition ForkCommand (baseCommand parentID : string) : string :=
  if decide (parentID = EmptyString) then baseCommand
  else ResumeCommand baseCommand parentID +:+ " --fork-session".
End claudecli.

(** ** Identifiers and quoting *)

(** [isAlphanumHyphen]: every rune is a letter, digit, hyphen or underscore. *)
Definition alphanumRune (c : Z) : bool :=
  utf8.between 97 122 c || utf8.between 65 90 c || utf8.between 48 57 c
  || (c =? 45) || (c =? 95).
Definition isAlphanumHyphen (s : string) : bool :=
  forallb alphanumRune (utf8.runes s) && negb (bool_decide (s = EmptyString)).

(** [projectDir]: every slash and dot becomes a hyphen. *)
Fixpoint projectDir (p : string) : string :=
  match p with
  | EmptyString => EmptyString
  | String.String c p' =>
    String.String (if decide (c = "/"%char \/ c = "."%char) then "-"%char else c) (projectDir p')
  end.

Definition squote : ascii := "039".
(** [shellQuote]: single quotes around, an inner one written ['"'"']. *)
Definition quotedQuote : string := "'" +:+ dquote +:+ "'" +:+ dquote +:+ "'".
Definition shellQuote (s : string) : string :=
  "'" +:+ Strings.ReplaceAll s squote quotedQuote +:+ "'".

(** ** Tags (tags.go) *)

Definition commandTagBg : string := "#D97757".
Definition commandTagFg : string := "#FFFFFF".

Definition CommandTag (name : string) : Tag := mkTag name commandTagFg commandTagBg.

Definition ShellCommandTag (name : string) : Tag :=
  let key := strings.ToLower (filepath.Base name) in
  let '(bg, fg) :=
    if String.eqb key "bash" then ("#4EAA25", commandTagFg)
    else if String.eqb key "zsh" then ("#2D6DB5", commandTagFg)
    else if String.eqb key "fish" then ("#F57900", commandTagFg)
    else if String.eqb key "powershell" || String.eqb key "pwsh" then ("#012456", "#EEEDF0")
    else if String.eqb key "nu" || String.eqb key "nushell" then ("#3AA675", commandTagFg)
    else (commandTagBg, commandTagFg) in
  mkTag name fg bg.

Definition ClaudeDriverName : string := "claude".
Definition CodexDriverName : string := "codex".
Definition GeminiDriverName : string := "gemini".
Definition ShellDriverName : string := "shell".

Definition CodexCommandTag : Tag := mkTag CodexDriverName "#FFFFFF" "#10A37F".
Definition GeminiCommandTag : Tag := mkTag GeminiDriverName "#FFFFFF" "#1A73E8".

Definition zeroTag : Tag := mkTag "" "" "".

Definition BranchTag (branch bg fg parentBranch : string) : Tag :=
  if decide (branch = EmptyString) then zeroTag
  else
    let text := if decide (parentBranch = EmptyString) then branch
                else branch +:+ " → " +:+ parentBranch in
    mkTag text fg bg.

(** ** View pieces (view_builder.go) *)

Definition CommonTags (c : CommonState) : list Tag :=
  let t := BranchTag (CS_BranchTag c) (CS_BranchBG c) (CS_BranchFG c) (CS_BranchParentBranch c) in
  if decide (Tag_Text t = EmptyString) then [] else [t].

Definition EventLogTab (c : CommonState) (eventLogDir : string) : option LogTab :=
  if bool_decide (CS_RoostSessionID c <> EmptyString) && bool_decide (eventLogDir <> EmptyString)
  then Some (mkLogTab "EVENTS" (filepath.Join [eventLogDir; CS_RoostSessionID c +:+ ".log"])
               TabKindText "")
  else None.

Fixpoint firstNonEmpty (candidates : list string) : string :=
  match candidates with
  | [] => EmptyString
  | s :: rest => if decide (s = EmptyString) then firstNonEmpty rest else s
  end.

Definition isCRLF (r : Z) : bool := (r =? 13) || (r =? 10).

Definition collapseToSingleLine (s : string) : string :=
  if negb (Strings.ContainsAny s ["013"; "010"]%char) then Strings.TrimSpace s
  else
    let fields := Strings.TrimSpace <$> Strings.FieldsFunc isCRLF s in
    Strings.Join (filter (fun f => f <> EmptyString) fields) " ".

Definition resolveCardTitle (aiTitle summary : string) : string :=
  firstNonEmpty [aiTitle; collapseToSingleLine summary].

(** The first 80 bytes. *)
Definition previewText (text : string) : string :=
  if 80 <? len text then Strings.str_take 80 text +:+ "..." else text.

(** The [add] closure of the info panels: a line only for a non-empty value. *)
Definition infoLine (label value : string) : list InfoLine :=
  if decide (value = EmptyString) then [] else [mkInfoLine label value].

(** * client/driver: the summary prompt and terminal escape payloads

    [summary_prompt.go], [summary_job.go] and the pure parts of
    [summarize.go]: which turns reach the summarizer, how they are clipped and
    framed, and what is kept of its output.  [vt/parse.go] and [vt/terminal.go]:
    the OSC payloads a frame's output carries. *)

Open Scope Z_scope.

(** ** Turns (summary_prompt.go) *)

Definition summaryEntryTextCap : Z := 1500.
Definition summaryTotalCap : Z := 12000.
Definition summaryDisplayCap : Z := 30.

Definition appendHookPromptTurn (turns : list SummaryTurn) (hookPrompt : string) : list SummaryTurn :=
  if decide (hookPrompt = EmptyString) then turns
  else match last turns with
       | Some t => if decide (t = mkSummaryTurn "user" hookPrompt) then turns
                   else turns ++ [mkSummaryTurn "user" hookPrompt]
       | None => turns ++ [mkSummaryTurn "user" hookPrompt]
       end.

(** The loop over the turns from the last one: [rturns] is what is left of
    them, latest first. *)
Fixpoint userTurns_go (rturns out : list SummaryTurn) (n : Z) : list SummaryTurn :=
  match rturns with
  | [] => out
  | t :: rest =>
    if Z.of_nat (length out) <? n then
      userTurns_go rest (if decide (ST_Role t = "user"%string) then out ++ [t] else out) n
    else out
  end.

Definition userOnlyTurns (turns : list SummaryTurn) (n : Z) : list SummaryTurn :=
  if (n <=? 0) || bool_decide (turns = []) then []
  else rev (userTurns_go (rev turns) [] n).

Definition tailClip (s : string) (max : Z) : string :=
  let r := utf8.runes s in
  if Z.of_nat (length r) <=? max then s
  else "…" +:+ utf8.of_runes (drop (length r - Z.to_nat max) r).

(** [string(r[:n]) + "…"] for [0 < n]. *)
Definition clampGraphemes (s : string) (n : Z) : string :=
  if n <=? 0 then EmptyString
  else
    let r := utf8.runes s in
    if Z.of_nat (length r) <=? n then s
    else utf8.of_runes (take (Z.to_nat n) r) +:+ "…".

(** The builder loop of [renderRecentTurns]: current role, open block and
    finished blocks. *)
Fixpoint renderTurns_go (prevRole cur : string) (blocks : list string)
    (turns : list SummaryTurn) : list string :=
  let flushed := if decide (cur = EmptyString) then blocks else blocks ++ [cur] in
  match turns with
  | [] => flushed
  | t :: rest =>
    if decide (ST_Role t = prevRole) then
      renderTurns_go prevRole (cur +:+ nl +:+ ST_Text t +:+ nl) blocks rest
    else
      renderTurns_go (ST_Role t) ("[" +:+ ST_Role t +:+ "]" +:+ nl +:+ ST_Text t +:+ nl)
        flushed rest
  end.

(** Whole blocks are dropped from the front until the text fits. *)
Fixpoint dropBlocks (blocks : list string) : string :=
  let body := Strings.Join blocks nl in
  match blocks with
  | _ :: (_ :: _) as rest => if summaryTotalCap <? len body then dropBlocks rest else body
  | _ => body
  end.

Definition clipTurn (t : SummaryTurn) : SummaryTurn :=
  mkSummaryTurn (ST_Role t) (tailClip (ST_Text t) summaryEntryTextCap).

Definition renderRecentTurns (turns : list SummaryTurn) : string :=
  dropBlocks (renderTurns_go "" "" [] (clipTurn <$> turns)).

Definition tagged (tag body : string) : string :=
  if decide (body = EmptyString) then EmptyString
  else "<" +:+ tag +:+ ">" +:+ nl +:+ body +:+ nl +:+ "</" +:+ tag +:+ ">" +:+ nl +:+ nl.

Definition formatSummaryPrompt (prev : string) (turns : list SummaryTurn) : string :=
  "You are a session summarizer. From the user inputs and previous summary below, "
  +:+ "summarize the work or goal the user is driving in this AI coding session "
  +:+ "into a single concise line (about 25 characters). "
  +:+ "Use ONLY the user inputs below; never summarize assistant outputs, tool results, "
  +:+ "or any non-user content. "
  +:+ "Return only the body text, no headings, decoration, preamble, or quotes." +:+ nl +:+ nl
  +:+ tagged "previous_summary" prev
  +:+ "<user_inputs>" +:+ nl
  +:+ renderRecentTurns turns
  +:+ "</user_inputs>" +:+ nl.

Definition formatGenericSummaryPrompt (prev command workingDir content : string) : string :=
  "You are a terminal session summarizer. "
  +:+ "Describe in a single concise line (roughly 30 characters) what is being worked on "
  +:+ "in this terminal session. "
  +:+ "Ground your description in all three signals: the <command> tag (what program is running), "
  +:+ "the <working_directory> tag (where it is running), "
  +:+ "and the <terminal_output> tag (what is currently visible on screen). "
  +:+ "Combine them into a task-oriented summary of the activity in progress — "
  +:+ "for example " +:+ dquote +:+ "reviewing git log in the agent-reactor repo" +:+ dquote
  +:+ " or " +:+ dquote +:+ "running make build, tests in progress" +:+ dquote +:+ " — "
  +:+ "not a verbatim quote of the screen. "
  +:+ "Return only the body text, no headings, decoration, preamble, or quotes." +:+ nl +:+ nl
  +:+ tagged "previous_summary" prev
  +:+ tagged "command" command
  +:+ tagged "working_directory" workingDir
  +:+ "<terminal_output>" +:+ nl
  +:+ tailClip (Strings.TrimSpace content) summaryTotalCap
  +:+ nl +:+ "</terminal_output>" +:+ nl.

(** ** The summary job (summary_job.go) *)

Section job.
Context `{DT : DriverTypes}.

(** An effect a driver starts a job with: the reducer fills in the id. *)
Definition startJob (input : DriverJobInput) : Effect := EffStartJob 0 input.

Definition enqueueSummaryJob (effs : list Effect) (inFlight : bool) (prompt : string)
    : list Effect * bool :=
  if inFlight || bool_decide (Strings.TrimSpace prompt = EmptyString) then (effs, inFlight)
  else (effs ++ [startJob (SummaryCommandInput prompt)], true).

Definition applySummaryJobResult (summary : string) (inFlight : bool)
    (result : DriverJobResult) (err : option error) : string * bool * bool :=
  match result with
  | SummaryCommandResult r =>
    match err with
    | Some _ => (summary, false, true)
    | None =>
      (if decide (r = EmptyString) then summary else clampGraphemes r summaryDisplayCap,
       false, true)
    end
  | _ => (summary, inFlight, false)
  end.
End job.

(** ** Summarizer process (summarize.go) *)

Definition filteredRoostEnv (src : list string) : list string :=
  filter (fun kv => Strings.HasPrefix kv "ROOST_SOCKET=" = false) src.

Definition hookLineProducingPrefixes : list string :=
  ["Created execution plan for "; "Expanding hook command:"; "Hook execution for "].

(** The loop from the last line upwards. *)
Fixpoint stripHook_go (rlines : list string) : list string :=
  match rlines with
  | [] => []
  | l :: rest =>
    let last := Strings.TrimRight l [" "; "009"; "013"]%char in
    if bool_decide (last = EmptyString)
       || existsb (Strings.HasPrefix last) hookLineProducingPrefixes
    then stripHook_go rest else rlines
  end.
Definition stripHookLines (s : string) : string :=
  Strings.Join (rev (stripHook_go (rev (Strings.Split s "010")))) nl.

(** ** Escape sequences (vt/types.go, vt/parse.go, vt/terminal.go) *)

Module vt.
Record PromptEvent := mkPromptEvent { PE_Phase : PromptPhase; PE_ExitCode : option Z }.
Record OscNotification := mkOscNotification { Osc_Cmd : Z; Osc_Payload : string }.

(** The title and body after the parts seen so far: a later part overrides. *)
Fixpoint kitty_go (parts : list string) (title body : string) : string * string :=
  match parts with
  | [] => (title, body)
  | part :: rest =>
    match Strings.Cut part "=" with
    | None => kitty_go rest title body
    | Some (k, v) =>
      if String.eqb k "d" then kitty_go rest v body
      else if String.eqb k "p" then kitty_go rest title v
      else kitty_go rest title body
    end
  end.
Definition parseKittyPayload (payload : string) : string * string :=
  kitty_go (Strings.Split payload ":") "" "".

Definition ParseOscNotification (n : OscNotification) : string * string :=
  if Osc_Cmd n =? 9 then (Strings.TrimSpace (Osc_Payload n), ""%string)
  else if Osc_Cmd n =? 777 then
    match Strings.SplitN 3 (Osc_Payload n) ";" with
    | _ :: t :: b :: _ => (t, b)
    | [_; t] => (t, ""%string)
    | _ => (""%string, ""%string)
    end
  else if Osc_Cmd n =? 99 then
    let '(title, body) := parseKittyPayload (Osc_Payload n) in
    if bool_decide (title = EmptyString) && bool_decide (body = EmptyString)
    then (title, Osc_Payload n) else (title, body)
  else (""%string, ""%string).

Definition oscStripPrefix (data : string) : string :=
  match Strings.Cut data ";" with Some (_, rest) => rest | None => data end.

(** [handleOsc133]: the event given to the callback, if any. *)
Definition handleOsc133 (data : string) : option PromptEvent :=
  match Strings.SplitN 2 (oscStripPrefix data) ";" with
  | [] => None
  | p :: rest =>
    if String.eqb p "A" then Some (mkPromptEvent PromptPhaseStart None)
    else if String.eqb p "B" then Some (mkPromptEvent PromptPhaseInput None)
    else if String.eqb p "C" then Some (mkPromptEvent PromptPhaseCommand None)
    else if String.eqb p "D" then
      Some (mkPromptEvent PromptPhaseComplete
              match rest with [code] => strconv.Atoi code | _ => None end)
    else None
  end.
End vt.
