(* ===== verification/GeminiTranscript.v ===== *)
(** * client/driver/gemini_runners.go: the gemini transcript

    A chat file has one JSON object per line: session metadata, updates of it
    ([$set]), and messages, where a later message with the same id replaces
    the earlier one. *)

From S2P Require Import Prelude GoStd GoText GoJson GoIO ClientView ClientState DriverTypes DriverText.
Open Scope Z_scope.

Module geminitx.
Import json.

Record geminiTranscriptTool := mkTool {
  Tool_ID : string; Tool_Name : string; Tool_DisplayName : string; Tool_Status : string }.
#[export] Instance eta_geminiTranscriptTool : Eta geminiTranscriptTool := fun r =>
  mkTool (Tool_ID r) (Tool_Name r) (Tool_DisplayName r) (Tool_Status r).

Record geminiTranscriptMessage := mkMessage {
  Msg_ID : string; Msg_Type : string; Msg_Content : value; Msg_Display : value;
  Msg_ToolCalls : list geminiTranscriptTool; Msg_Model : string; Msg_Timestamp : string;
  Msg_Description : string; Msg_Result : string }.
#[export] Instance eta_geminiTranscriptMessage : Eta geminiTranscriptMessage := fun r =>
  mkMessage (Msg_ID r) (Msg_Type r) (Msg_Content r) (Msg_Display r) (Msg_ToolCalls r) (Msg_Model r)
    (Msg_Timestamp r) (Msg_Description r) (Msg_Result r).

Record geminiTranscriptMetadata := mkMetadata {
  Meta_SessionID : string; Meta_ProjectHash : string; Meta_Summary : string }.
#[export] Instance eta_geminiTranscriptMetadata : Eta geminiTranscriptMetadata := fun r =>
  mkMetadata (Meta_SessionID r) (Meta_ProjectHash r) (Meta_Summary r).

(** [map[string]any] and [[]map[string]any] as fields nothing reads: their
    shape is checked. *)
Definition dAnyMap : Decoder () := fun rv x =>
  match rv.2 with Null => ((), false) | Object ms => ((), anyErr rv.2) | _ => (x, true) end.
Definition ignored {S} (name : string) (d : Decoder ()) : Field S :=
  (name, fun rv s => (s, (d rv tt).2)).
Definition dAnyMaps : Decoder () := fun rv x =>
  match rv.2 with
  | Null => ((), false)
  | Array es => ((), existsb (fun e => (dAnyMap e tt).2) es)
  | _ => (x, true)
  end.

Definition dTool : Decoder geminiTranscriptTool :=
  dStruct [fld "id" Tool_ID dString; fld "name" Tool_Name dString;
           fld "displayName" Tool_DisplayName dString; ignored "args" dAnyMap;
           fld "status" Tool_Status dString].

Definition dGeminiMessage : Decoder geminiTranscriptMessage :=
  dStruct [fld "id" Msg_ID dString; fld "type" Msg_Type dString; fld "content" Msg_Content dAny;
           fld "displayContent" Msg_Display dAny;
           fld "toolCalls" Msg_ToolCalls (dSlice (mkTool "" "" "" "") dTool);
           ignored "thoughts" dAnyMaps; fld "model" Msg_Model dString;
           fld "timestamp" Msg_Timestamp dString; fld "description" Msg_Description dString;
           fld "resultDisplay" Msg_Result dString].

(** A value as [json.Marshal] writes it after [json.Unmarshal] into [any]: the
    members of an object sorted by key, one per key, the last of the input. *)
Definition sortedMembers (ms : list (string * (string * value))) : list (string * (string * value)) :=
  omap (fun k => match mapGet ms k with Some v => Some (k, (EmptyString, v)) | None => None end)
    (sort.Strings (remove_dups (map fst ms))).

Fixpoint marshalled (v : value) : value :=
  match v with
  | Array es => Array (map (fun e => (EmptyString, marshalled e.2)) es)
  | Object ms => Object (sortedMembers (map (fun m => (m.1, (EmptyString, marshalled m.2.2))) ms))
  | _ => v
  end.

Definition strOf (ms : list (string * (string * value))) (key : string) : string :=
  match mapGet ms key with Some (Str s) => s | _ => EmptyString end.

Definition isGeminiMetadata (ms : list (string * (string * value))) : bool :=
  is_some (mapGet ms "sessionId") && is_some (mapGet ms "projectHash").

Definition applyGeminiMetadataUpdate (meta : geminiTranscriptMetadata)
    (ms : list (string * (string * value))) : geminiTranscriptMetadata :=
  let pick (new old : string) := if decide (new = EmptyString) then old else new in
  mkMetadata (pick (strOf ms "sessionId") (Meta_SessionID meta))
    (pick (strOf ms "projectHash") (Meta_ProjectHash meta))
    (pick (strOf ms "summary") (Meta_Summary meta)).

(** [json.Marshal] of the map followed by [json.Unmarshal] into the struct. *)
Definition parseGeminiTranscriptMessage (ms : list (string * (string * value)))
    : option geminiTranscriptMessage :=
  if decide (strOf ms "id" = EmptyString) then None
  else
    let '(msg, err) := dGeminiMessage (EmptyString, marshalled (Object ms))
      (mkMessage "" "" Null Null [] "" "" "" "") in
    if err then None else Some msg.

Fixpoint upsertGeminiMessage (messages : list geminiTranscriptMessage) (msg : geminiTranscriptMessage)
    : list geminiTranscriptMessage :=
  match messages with
  | [] => [msg]
  | m :: messages =>
    if decide (Msg_ID m = Msg_ID msg) then msg :: messages
    else m :: upsertGeminiMessage messages msg
  end.

Definition geminiPartListToString (v : value) : string :=
  match v with
  | Str s => s
  | Array es =>
    Strings.Join
      (List.filter (fun t => bool_decide (t <> EmptyString))
        (map (fun e => match e.2 with Object ms => strOf ms "text" | _ => EmptyString end) es)) ""
  | _ => EmptyString
  end.

(** Newest call first; [newest] while none has been looked at. *)
Fixpoint currentTool_go (newest : bool) (rev : list geminiTranscriptTool) : string :=
  match rev with
  | [] => EmptyString
  | c :: older =>
    let name := Strings.TrimSpace (firstNonEmpty [Tool_DisplayName c; Tool_Name c]) in
    if decide (name = EmptyString) then currentTool_go false older
    else if existsb (String.eqb (Tool_Status c)) [""; "pending"; "running"]%string then name
    else if newest then name
    else currentTool_go false older
  end.
Definition lastGeminiCurrentTool (calls : list geminiTranscriptTool) : string :=
  currentTool_go true (reverse calls).

Definition appendGeminiRecentTurn (turns : list SummaryTurn) (role text : string) : list SummaryTurn :=
  if decide (text = EmptyString) then turns
  else
    let turns := turns ++ [mkSummaryTurn role text] in
    if (length turns <=? 64)%nat then turns else drop (length turns - 64) turns.

(** [lastPrompt], [lastAssistant], [currentTool], [recentTurns]. *)
Record geminiTurns := mkTurns {
  GT_LastPrompt : string; GT_LastAssistant : string; GT_CurrentTool : string;
  GT_RecentTurns : list SummaryTurn }.
#[export] Instance eta_geminiTurns : Eta geminiTurns := fun r =>
  mkTurns (GT_LastPrompt r) (GT_LastAssistant r) (GT_CurrentTool r) (GT_RecentTurns r).

Definition messageText (msg : geminiTranscriptMessage) : string :=
  let text := Strings.TrimSpace (geminiPartListToString (Msg_Display msg)) in
  if decide (text = EmptyString)
  then Strings.TrimSpace (geminiPartListToString (Msg_Content msg)) else text.

Definition processMessage (t : geminiTurns) (msg : geminiTranscriptMessage) : geminiTurns :=
  let text := messageText msg in
  if decide (Msg_Type msg = "user"%string) then
    if decide (text = EmptyString) then t
    else t <| GT_LastPrompt := text |>
           <| GT_RecentTurns := appendGeminiRecentTurn (GT_RecentTurns t) "user" text |>
  else if decide (Msg_Type msg = "gemini"%string) then
    let t := if decide (text = EmptyString) then t
             else t <| GT_LastAssistant := text |>
                    <| GT_RecentTurns := appendGeminiRecentTurn (GT_RecentTurns t) "assistant" text |> in
    let tool := lastGeminiCurrentTool (Msg_ToolCalls msg) in
    if decide (tool = EmptyString) then t else t <| GT_CurrentTool := tool |>
  else t.

Definition processGeminiMessages (messages : list geminiTranscriptMessage) : geminiTurns :=
  foldl processMessage (mkTurns "" "" "" []) messages.

Definition scanLine (acc : geminiTranscriptMetadata * list geminiTranscriptMessage) (token : string)
    : geminiTranscriptMetadata * list geminiTranscriptMessage :=
  let '(meta, messages) := acc in
  let line := Strings.TrimSpace token in
  if decide (line = EmptyString) then acc
  else
    match parse line with
    | Some (_, Object ms) =>
      if anyErr (Object ms) then acc
      else
        match mapGet ms "$set" with
        | Some (Object set) => (applyGeminiMetadataUpdate meta set, messages)
        | _ =>
          if isGeminiMetadata ms then (applyGeminiMetadataUpdate meta ms, messages)
          else match parseGeminiTranscriptMessage ms with
               | Some msg => (meta, upsertGeminiMessage messages msg)
               | None => acc
               end
        end
    | Some (_, Null) =>
      (* a nil map: no key, no message *)
      acc
    | _ => acc
    end.

Definition scannerMax : Z := 1024 * 1024.

(** A line too long for the buffer is an error. *)
Definition scanGeminiTranscript (data : string)
    : option (geminiTranscriptMetadata * list geminiTranscriptMessage) :=
  let '(tokens, _, tooLong) := bufio.scan scannerMax data in
  if tooLong then None else Some (foldl scanLine (mkMetadata "" "" "", []) tokens).

Definition geminiTranscriptParse (file : option string) : GeminiTranscriptParseResult + error :=
  match file with
  | None => inr "open"%string
  | Some data =>
    match scanGeminiTranscript data with
    | None => inr "bufio.Scanner: token too long"%string
    | Some (meta, messages) =>
      let t := processGeminiMessages messages in
      inl (mkGeminiTranscriptParseResult (Strings.TrimSpace (Meta_Summary meta)) (GT_LastPrompt t)
             (GT_LastAssistant t) "" (GT_CurrentTool t) (GT_RecentTurns t))
    end
  end.

(** ** Versions of a message *)

Definition ids (messages : list geminiTranscriptMessage) : list string := map Msg_ID messages.

(** The message a line holds. *)
Definition lineMessage (token : string) : option geminiTranscriptMessage :=
  match (scanLine (mkMetadata "" "" "", []) token).2 with msg :: _ => Some msg | [] => None end.

Lemma scanLine_message meta messages token :
  (scanLine (meta, messages) token).2
  = match lineMessage token with Some msg => upsertGeminiMessage messages msg | None => messages end.
Proof.
  unfold lineMessage, scanLine. case_decide; [done|].
  repeat (case_match; simplify_eq; cbn [snd upsertGeminiMessage] in *; try done).
Qed.

Lemma scan_messages tokens : forall meta messages,
  (foldl scanLine (meta, messages) tokens).2
  = foldl upsertGeminiMessage messages (omap lineMessage tokens).
Proof.
  induction tokens as [|t tokens IH]; intros meta messages; [done|]. cbn [foldl omap list_omap].
  destruct (scanLine (meta, messages) t) as [meta' ms'] eqn:E. rewrite IH.
  pose proof (scanLine_message meta messages t) as H. rewrite E in H. cbn [snd] in H. rewrite H.
  by destruct (lineMessage t).
Qed.

Lemma upsert_elem messages msg m :
  NoDup (ids messages) ->
  m ∈ upsertGeminiMessage messages msg <-> m = msg \/ (m ∈ messages /\ Msg_ID m <> Msg_ID msg).
Proof.
  induction messages as [|x messages IH]; intros Hn; cbn [upsertGeminiMessage]; [set_solver|].
  apply NoDup_cons in Hn as [Hx Hn]. case_decide as E.
  - rewrite !elem_of_cons. split; [|naive_solver].
    intros [->|Hm]; [by left|]. right. split; [by right|]. intros Hid.
    apply Hx. rewrite E, <- Hid. by apply list_elem_of_fmap_2.
  - rewrite !elem_of_cons, IH by done. naive_solver.
Qed.

Lemma upsert_NoDup messages msg : NoDup (ids messages) -> NoDup (ids (upsertGeminiMessage messages msg)).
Proof.
  induction messages as [|x messages IH]; intros Hn; cbn [upsertGeminiMessage];
    [apply NoDup_singleton|].
  pose proof Hn as [Hx Hn']%NoDup_cons. unfold ids in *. case_decide as E; cbn [map].
  - by rewrite <- E.
  - apply NoDup_cons. split; [|by apply IH]. intros (m & Hm & Hin)%list_elem_of_fmap.
    apply upsert_elem in Hin as [->|[Hin _]]; [done| |done].
    apply Hx. rewrite Hm. by apply list_elem_of_fmap_2.
Qed.

(** The last version of each message. *)
Lemma upserts_latest msgs :
  NoDup (ids (foldl upsertGeminiMessage [] msgs)) /\
  forall m, m ∈ foldl upsertGeminiMessage [] msgs <->
    exists l1 l2, msgs = l1 ++ m :: l2 /\ Msg_ID m ∉ ids l2.
Proof.
  induction msgs as [|x msgs [Hn IH]] using rev_ind.
  { split; [constructor|]. intros m. split; [set_solver|]. intros ([|] & ? & ? & _); done. }
  rewrite foldl_app. cbn [foldl]. split; [by apply upsert_NoDup|]. intros m.
  rewrite upsert_elem by done. rewrite IH. split.
  - intros [->|[(l1 & l2 & -> & Hl) Hne]]; [by exists msgs, []; set_solver|].
    exists l1, (l2 ++ [x]). split; [by rewrite <- app_assoc|].
    unfold ids. rewrite map_app. cbn [map]. set_solver.
  - intros (l1 & l2 & E & Hl). destruct l2 as [|y l2 _] using rev_ind.
    + apply app_inj_tail in E as [_ ->]. by left.
    + rewrite app_comm_cons, app_assoc in E. apply app_inj_tail in E as [-> <-].
      unfold ids in Hl. rewrite map_app in Hl. cbn [map] in Hl. right.
      split; [exists l1, l2|]; set_solver.
Qed.
End geminitx.
