(* ===== verification/DriverCommon.v ===== *)
(** * client/driver/common_state.go: what the drivers share

    The operations on [CommonState] that every driver embeds: ticks, branch
    results, exits, the hook preamble, and the persistence bag with its round
    trip; the tool-log helpers of [claude_tool_log.go] that the agent drivers
    share. *)

From S2P Require Import Prelude GoStd GoText GoTime ClientView ClientState DriverTypes DriverText.
Open Scope Z_scope.

Definition commonBranchRefreshInterval : Duration := 30 * time.Second.

(** [if s != "" { x = s }]. *)
Definition orElse (s x : string) : string := if decide (s = EmptyString) then x else s.

Definition statusTime (ts fallback : Time) : Time := if time.IsZero ts then fallback else ts.

Definition ApplyWorktreeResolved (c : CommonState) (startDir name : string) : CommonState :=
  c <| CS_StartDir := startDir |> <| CS_WorktreeName := orElse name (CS_WorktreeName c) |>.

Definition ApplyCommandExited (c : CommonState) (exitCode : Z) (ts : Time) : CommonState :=
  let c := if exitCode =? 0 then c else c <| CS_Status := StatusStopped |> in
  if time.IsZero ts then c else c <| CS_StatusChangedAt := ts |>.

Section common.
Context `{DT : DriverTypes}.

(** [HandleTick]; the argument [hasActiveSubagents] is not used. *)
Definition HandleTick (c : CommonState) (now : Time) (watched : bool) (project : string)
    : CommonState * list Effect :=
  let c := c <| CS_Project := project |> in
  let c := if decide (CS_StartDir c = EmptyString) then c <| CS_StartDir := project |> else c in
  if (CS_Status c =? StatusIdle) || (CS_Status c =? StatusStopped) then (c, [])
  else if negb watched then (c, [])
  else
    let target := orElse (CS_StartDir c) project in
    if bool_decide (target <> EmptyString) && negb (CS_BranchInFlight c)
       && (bool_decide (target <> CS_BranchTarget c)
           || (commonBranchRefreshInterval <=? time.Sub now (CS_BranchAt c)))
    then (c <| CS_BranchInFlight := true |> <| CS_BranchTarget := target |>,
          [startJob (BranchDetectInput target)])
    else (c, []).

Definition ApplyBranchResult (c : CommonState) (r : BranchDetectResult) (err : option error)
    (now : Time) : CommonState :=
  let c := c <| CS_BranchInFlight := false |> in
  match err with
  | Some _ => c
  | None =>
    if decide (BD_Branch r = EmptyString) then c
    else c <| CS_BranchTag := BD_Branch r |> <| CS_BranchBG := BD_Background r |>
           <| CS_BranchFG := BD_Foreground r |> <| CS_BranchAt := now |>
           <| CS_BranchIsWorktree := BD_IsWorktree r |>
           <| CS_BranchParentBranch := BD_ParentBranch r |>
  end.

(** The summary and branch cases every [handleJobResult] starts with; [None]
    when the result is of another kind. *)
Definition commonJobResult (c : CommonState) (result : DriverJobResult) (err : option error)
    (now : Time) : option CommonState :=
  let '(summary, inFlight, ok) :=
    applySummaryJobResult (CS_Summary c) (CS_SummaryInFlight c) result err in
  if ok then Some (c <| CS_Summary := summary |> <| CS_SummaryInFlight := inFlight |>)
  else match result with
       | ResultBranch r => Some (ApplyBranchResult c r err now)
       | _ => None
       end.
End common.

Record hookPreamble := mkHookPreamble {
  Pre_SessionID : string;
  Pre_HookEventName : string;
  Pre_TranscriptPath : string;
}.

(** [applyHookPreamble]: [None] when the hook is dropped. *)
Definition applyHookPreamble (c : CommonState) (p : hookPreamble) (ts : Time)
    (roostSessionID : string) : option CommonState :=
  if decide (Pre_SessionID p = EmptyString) then None
  else if negb (time.IsZero ts) && negb (CS_LastHookAt c <? ts) then None
  else
    Some (c <| CS_LastHookEvent := Pre_HookEventName p |>
            <| CS_LastHookAt := if time.IsZero ts then CS_LastHookAt c else ts |>
            <| CS_RoostSessionID := orElse roostSessionID (CS_RoostSessionID c) |>
            <| CS_TranscriptPath := orElse (Pre_TranscriptPath p) (CS_TranscriptPath c) |>).

Definition eventLogLine (name detail : string) : string :=
  if decide (detail = EmptyString) then "[event:" +:+ name +:+ "]"
  else "[event:" +:+ name +:+ "] " +:+ detail.

(** ** The persistence bag *)

Abbreviation Bag := (gmap string string) (only parsing).

(** [if v != "" { out[k] = v }] and [if !t.IsZero() { out[k] = … }]. *)
Definition putStr (k v : string) (out : Bag) : Bag :=
  if decide (v = EmptyString) then out else <[k := v]> out.
Definition putTime (k : string) (t : Time) (out : Bag) : Bag :=
  if time.IsZero t then out else <[k := rfc3339.Format t]> out.
Definition putFlag (k : string) (b : bool) (out : Bag) : Bag :=
  if b then <[k := "1"%string]> out else out.

Definition PersistCommon (c : CommonState) (out : Bag) : Bag :=
  let out := putStr "roost_session_id" (CS_RoostSessionID c) out in
  let out := putStr "start_dir" (CS_StartDir c) out in
  let out := putStr "transcript_path" (CS_TranscriptPath c) out in
  let out := putStr "worktree_name" (CS_WorktreeName c) out in
  let out := <["status"%string := Status_String (CS_Status c)]> out in
  let out := putTime "status_changed_at" (CS_StatusChangedAt c) out in
  let out := putStr "branch_tag" (CS_BranchTag c) out in
  let out := putStr "branch_bg" (CS_BranchBG c) out in
  let out := putStr "branch_fg" (CS_BranchFG c) out in
  let out := putStr "branch_target" (CS_BranchTarget c) out in
  let out := putTime "branch_at" (CS_BranchAt c) out in
  let out := putFlag "branch_is_worktree" (CS_BranchIsWorktree c) out in
  let out := putStr "branch_parent_branch" (CS_BranchParentBranch c) out in
  let out := putStr "summary" (CS_Summary c) out in
  let out := putStr "title" (CS_Title c) out in
  let out := putStr "last_prompt" (CS_LastPrompt c) out in
  let out := putStr "last_assistant_message" (CS_LastAssistantMessage c) out in
  let out := putStr "last_hook_event" (CS_LastHookEvent c) out in
  putTime "last_hook_at" (CS_LastHookAt c) out.

(** [bag[k]]: the zero value when the key is absent. *)
Definition getStr (bag : Bag) (k : string) : string := default EmptyString (bag !! k).
(** The time under [k], or [old] when it is absent or does not parse. *)
Definition getTime (bag : Bag) (k : string) (old : Time) : Time :=
  let v := getStr bag k in
  if decide (v = EmptyString) then old else default old (rfc3339.Parse v).

Definition RestoreCommon (c : CommonState) (bag : Bag) : CommonState :=
  if decide (bag = ∅) then c
  else
    mkCommonState (getStr bag "roost_session_id") (CS_Project c) (getStr bag "start_dir")
      (getStr bag "transcript_path") (getStr bag "worktree_name")
      (let v := getStr bag "status" in
       if decide (v = EmptyString) then CS_Status c
       else let '(status, ok) := ParseStatus v in if ok then status else CS_Status c)
      (getTime bag "status_changed_at" (CS_StatusChangedAt c))
      (getStr bag "branch_tag") (getStr bag "branch_bg") (getStr bag "branch_fg")
      (getStr bag "branch_target") (getTime bag "branch_at" (CS_BranchAt c))
      (bool_decide (getStr bag "branch_is_worktree" = "1"%string))
      (getStr bag "branch_parent_branch") (CS_BranchInFlight c)
      (getStr bag "last_prompt") (getStr bag "last_assistant_message")
      (getStr bag "last_hook_event") (getTime bag "last_hook_at" (CS_LastHookAt c))
      (getStr bag "summary") (CS_SummaryInFlight c) (getStr bag "title").

(** ** Tool-log helpers (claude_tool_log.go) *)

Section toollog.
Context {DT : DriverTypes} {DE : DriverEnv}.

Definition toolInputString (input : gmap string anyval) (key : string) : string :=
  match input !! key with Some (AnyString s) => s | _ => EmptyString end.

Definition truncValue (v : anyval) : anyval :=
  match v with
  | AnyString s =>
    let r := utf8.runes s in
    if (200 <? Z.of_nat (length r)) then AnyString (utf8.of_runes (take 200 r) +:+ "…")
    else AnyString s
  | _ => v
  end.

Fixpoint pickAndTrunc (input : gmap string anyval) (keys : list string) : gmap string anyval :=
  match keys with
  | [] => ∅
  | k :: rest =>
    match input !! k with
    | None | Some AnyNil => pickAndTrunc input rest
    | Some v => <[k := truncValue v]> (pickAndTrunc input rest)
    end
  end.

Definition truncStrings (input : gmap string anyval) : gmap string anyval := truncValue <$> input.

Definition summariseToolInput (name : string) (input : gmap string anyval) : gmap string anyval :=
  if decide (input = ∅) then ∅
  else if String.eqb name "Bash" then pickAndTrunc input ["command"; "description"]%string
  else if existsb (String.eqb name) ["Read"; "Write"; "Edit"; "Glob"]%string
  then pickAndTrunc input ["file_path"; "pattern"]%string
  else if String.eqb name "Grep" then pickAndTrunc input ["pattern"; "path"; "glob"]%string
  else if String.eqb name "Agent" then pickAndTrunc input ["description"; "subagent_type"]%string
  else truncStrings input.

Definition resolveProjectSlug (project : string) : string :=
  if decide (project = EmptyString) then EmptyString else projectDir project.

Definition buildToolLogLine (entry : toolLogEntry) : string :=
  match marshalToolLog entry with
  | inl b => b
  | inr _ => "{" +:+ dquote +:+ "kind" +:+ dquote +:+ ":" +:+ dquote +:+ TL_Kind entry
             +:+ dquote +:+ "," +:+ dquote +:+ "tool_name" +:+ dquote +:+ ":" +:+ dquote
             +:+ TL_ToolName entry +:+ dquote +:+ "}"
  end.

(** [parsePayload]: the zero value for an empty payload. *)
Definition parseHookPayload (payload : string) : hookPayload :=
  if decide (payload = EmptyString) then zeroHookPayload else unmarshalHook payload.
Definition parseGeminiHookPayload (payload : string) : geminiHookPayload :=
  if decide (payload = EmptyString) then zeroGeminiHookPayload else unmarshalGeminiHook payload.

(** [now.Sub(started).Milliseconds()], 0 unless both are set. *)
Definition toolDurationMs (now started : Time) : Z :=
  if negb (time.IsZero started) && negb (time.IsZero now)
  then Z.quot (time.Sub now started) time.Millisecond else 0.
End toollog.
