(* ===== verification/DriverShell.v ===== *)
(** * client/driver: the generic and the shell driver

    [generic.go], [generic_view.go], [shell.go], [shell_view.go].  A driver
    value is the record of its methods ([ClientState.Driver]); the methods the
    reducer does not call (view, persistence, warm start) are definitions next
    to it. *)

From S2P Require Import Prelude GoStd GoText ClientView ClientState DriverTypes DriverText DriverCommon.
Open Scope Z_scope.

(** The launch plan the generic and shell drivers return: the command without
    worktree flags, in the frame's directory when it has one. *)
Definition plainPlan (startDir project baseCommand : string) (options : LaunchOptions) : LaunchPlan :=
  let '(req, command) := resolveWorktreeRequest baseCommand options ["--worktree"%string] in
  mkLaunchPlan (Strings.TrimSpace command) (orElse startDir project) "" SandboxOverrideAuto
    (worktreeOptions (WR_Enabled req)) "" (mkStreamLaunchOptions "" "" (mkResumeTarget "" "") "")
    (Opt_InitialInput options).

(** ** Generic *)

Module Generic.
Section generic.
Context `{DT : DriverTypes}.

Record GenericDriver := mkGenericDriver {
  name : string;
  displayName : string;
  threshold : Duration;
}.

Definition zeroState : GenericState := mkGenericState zeroCommon "".

(** The type assertion [s.(GenericState)]. *)
Definition asState (s : DriverState) : option GenericState :=
  match s with Some (DSGeneric gs) => Some gs | _ => None end.
Definition toState (gs : GenericState) : DriverState := Some (DSGeneric gs).

Definition view (d : GenericDriver) (gs : GenericState) : View :=
  let c := GS_Common gs in
  mkView
    (mkCard (resolveCardTitle (CS_Title c) (CS_Summary c)) (CommonTags c)
       (if decide (displayName d = EmptyString) then zeroTag else CommandTag (displayName d))
       zeroTag "")
    (displayName d) [] [] false "" (CS_Status c) (CS_StatusChangedAt c).

Definition newState (d : GenericDriver) (now : Time) : GenericState :=
  mkGenericState (initCommon StatusWaiting now) (name d).

(** [Status] panics on a state of another type; here it is 0. *)
Definition Status (s : DriverState) : ClientView.Status :=
  default 0 (CS_Status ∘ GS_Common <$> asState s).

Definition StartDir (s : DriverState) : string :=
  match asState s with Some gs => CS_StartDir (GS_Common gs) | None => EmptyString end.
Definition WithStartDir (s : DriverState) (dir : string) : DriverState :=
  match asState s with
  | Some gs => toState (gs <| GS_Common := GS_Common gs <| CS_StartDir := dir |> |>)
  | None => s
  end.

Definition ViewOf (d : GenericDriver) (s : DriverState) : View :=
  view d (default zeroState (asState s)).

Definition PrepareLaunch (s : DriverState) (project baseCommand : string)
    (options : LaunchOptions) : LaunchPlan + error :=
  let gs := default zeroState (asState s) in
  inl (plainPlan (CS_StartDir (GS_Common gs)) project baseCommand options).

Definition PrepareCreate (s : DriverState) (project command : string) (options : LaunchOptions)
    : (DriverState * CreateLaunch) + error :=
  let gs := default zeroState (asState s) in
  inl (toState gs, CommonPrepareCreate project command options ["--worktree"%string]).

Definition Persist (s : DriverState) : option (gmap string string) :=
  match asState s with Some gs => Some (PersistCommon (GS_Common gs) ∅) | None => None end.

Definition Restore (d : GenericDriver) (bag : gmap string string) (now : Time) : GenericState :=
  let gs := mkGenericState (initCommon StatusWaiting now) (name d) in
  if decide (bag = ∅) then gs
  else gs <| GS_Common := RestoreCommon (GS_Common gs) bag |>.

(** The events of a root frame. *)
Definition stepRoot (gs : GenericState) (ev : DriverEvent) : GenericState * list Effect :=
  let c := GS_Common gs in
  match ev with
  | DEvTick now watched project _ _ =>
    if negb watched && negb (CS_Status c =? StatusRunning) then (gs, [])
    else let '(c, effs) := HandleTick c now watched project in (gs <| GS_Common := c |>, effs)
  | DEvJobResult result err now =>
    match commonJobResult c result err now with
    | Some c => (gs <| GS_Common := c |>, [])
    | None => (gs, [])
    end
  | DEvWorktreeResolved startDir name =>
    (gs <| GS_Common := ApplyWorktreeResolved c startDir name |>, [])
  | DEvCommandExited code ts => (gs <| GS_Common := ApplyCommandExited c code ts |>, [])
  | _ => (gs, [])
  end.

Definition Step (d : GenericDriver) (prev : DriverState) (ctx : FrameContext) (ev : DriverEvent)
    : DriverState * list Effect * View :=
  let gs := match asState prev with Some gs => gs | None => newState d 0 end in
  let '(gs, effs) := if Ctx_IsRoot ctx then stepRoot gs ev else (gs, []) in
  (toState gs, effs, view d gs).

Definition driver (d : GenericDriver) : Driver := {|
  Driver_Name := name d;
  Driver_DisplayName := displayName d;
  Driver_NewState := fun now => toState (newState d now);
  Driver_Step := Step d;
  Driver_Status := Status;
  Driver_PrepareLaunch := fun s _ project baseCommand options _ =>
    PrepareLaunch s project baseCommand options;
  Driver_CreateSessionPlanner := Some {| ClientState.PrepareCreate :=
    fun s _ project command options => PrepareCreate s project command options |};
  Driver_Forkable := None;
  Driver_StartDirAware := Some {| ClientState.StartDir := StartDir;
    ClientState.WithStartDir := WithStartDir |};
  Driver_BootstrapSessionStart := None;
  Driver_View := ViewOf d;
  Driver_Persist := Persist;
  Driver_Restore := fun bag now => toState (Restore d bag now);
  Driver_WarmStartRecoverer := None;
  Driver_ColdStartRecoverer := None;
|}.
End generic.
End Generic.

(** ** Shell *)

Module Shell.
Section shell.
Context `{DT : DriverTypes}.

Record ShellDriver := mkShellDriver {
  name : string;
  displayName : string;
  threshold : Duration;
}.

Definition zeroState : ShellState := mkShellState zeroCommon false None.
Definition asState (s : DriverState) : option ShellState :=
  match s with Some (DSShell ss) => Some ss | _ => None end.
Definition toState (ss : ShellState) : DriverState := Some (DSShell ss).

Definition shellTags (ss : ShellState) : list Tag :=
  CommonTags (SS_Common ss)
  ++ match SS_LastExitCode ss with
     | Some code => if code =? 0 then []
                    else [mkTag ("✘ " +:+ strconv.Itoa code) "#ffffff" "#cc3333"]
     | None => []
     end.

Definition view (d : ShellDriver) (ss : ShellState) : View :=
  let c := SS_Common ss in
  mkView
    (mkCard (resolveCardTitle (CS_Title c) (CS_Summary c)) (shellTags ss)
       (ShellCommandTag (displayName d)) zeroTag "")
    (displayName d) [] [] false "" (CS_Status c) (CS_StatusChangedAt c).

Definition newState (now : Time) : ShellState :=
  mkShellState (initCommon StatusWaiting now) false None.

Definition Status (s : DriverState) : ClientView.Status :=
  default 0 (CS_Status ∘ SS_Common <$> asState s).

Definition StartDir (s : DriverState) : string :=
  match asState s with Some ss => CS_StartDir (SS_Common ss) | None => EmptyString end.
Definition WithStartDir (s : DriverState) (dir : string) : DriverState :=
  match asState s with
  | Some ss => toState (ss <| SS_Common := SS_Common ss <| CS_StartDir := dir |> |>)
  | None => s
  end.
Definition ViewOf (d : ShellDriver) (s : DriverState) : View :=
  view d (default zeroState (asState s)).

Definition PrepareLaunch (s : DriverState) (project baseCommand : string)
    (options : LaunchOptions) : LaunchPlan + error :=
  let ss := default zeroState (asState s) in
  inl (plainPlan (CS_StartDir (SS_Common ss)) project baseCommand options).

Definition PrepareCreate (s : DriverState) (project command : string) (options : LaunchOptions)
    : (DriverState * CreateLaunch) + error :=
  let ss := default zeroState (asState s) in
  inl (toState ss, CommonPrepareCreate project command options ["--worktree"%string]).

Definition Persist (s : DriverState) : option (gmap string string) :=
  match asState s with
  | None => None
  | Some ss =>
    let out := PersistCommon (SS_Common ss) ∅ in
    let out := putFlag "shell_saw_prompt_event" (SS_SawPromptEvent ss) out in
    Some match SS_LastExitCode ss with
         | Some n => <["shell_last_exit_code"%string := strconv.Itoa n]> out
         | None => out
         end
  end.

Definition Restore (bag : gmap string string) (now : Time) : ShellState :=
  let ss := newState now in
  if decide (bag = ∅) then ss
  else
    mkShellState (RestoreCommon (SS_Common ss) bag)
      (bool_decide (getStr bag "shell_saw_prompt_event" = "1"%string))
      (let v := getStr bag "shell_last_exit_code" in
       if decide (v = EmptyString) then None else strconv.Atoi v).

Definition setShellStatus (ss : ShellState) (next : ClientView.Status) (now : Time) : ShellState :=
  if CS_Status (SS_Common ss) =? next then ss
  else ss <| SS_Common := SS_Common ss <| CS_Status := next |> <| CS_StatusChangedAt := now |> |>.

Definition applyShellPromptEvent (ss : ShellState) (phase : PromptPhase) (exitCode : option Z)
    (now : Time) : ShellState :=
  let ss := ss <| SS_SawPromptEvent := true |> in
  if phase =? PromptPhaseInput then setShellStatus ss StatusWaiting now
  else if phase =? PromptPhaseCommand then setShellStatus ss StatusRunning now
  else if phase =? PromptPhaseComplete
  then setShellStatus (ss <| SS_LastExitCode := exitCode |>) StatusWaiting now
  else ss.

Definition applyJobResult (ss : ShellState) (result : DriverJobResult) (err : option error)
    (now : Time) : ShellState :=
  match commonJobResult (SS_Common ss) result err now with
  | Some c => ss <| SS_Common := c |>
  | None => ss
  end.

Definition stepRoot (ss : ShellState) (ev : DriverEvent) : ShellState * list Effect :=
  let c := SS_Common ss in
  match ev with
  | DEvTick now watched project _ _ =>
    if negb watched && negb (CS_Status c =? StatusRunning) then (ss, [])
    else let '(c, effs) := HandleTick c now watched project in (ss <| SS_Common := c |>, effs)
  | DEvJobResult result err now => (applyJobResult ss result err now, [])
  | DEvFramePrompt phase exitCode now => (applyShellPromptEvent ss phase exitCode now, [])
  | DEvWorktreeResolved startDir name =>
    (ss <| SS_Common := ApplyWorktreeResolved c startDir name |>, [])
  | DEvCommandExited code ts => (ss <| SS_Common := ApplyCommandExited c code ts |>, [])
  | _ => (ss, [])
  end.

Definition Step (d : ShellDriver) (prev : DriverState) (ctx : FrameContext) (ev : DriverEvent)
    : DriverState * list Effect * View :=
  let ss := match asState prev with Some ss => ss | None => newState 0 end in
  let '(ss, effs) := if Ctx_IsRoot ctx then stepRoot ss ev else (ss, []) in
  (toState ss, effs, view d ss).

Definition driver (d : ShellDriver) : Driver := {|
  Driver_Name := name d;
  Driver_DisplayName := displayName d;
  Driver_NewState := fun now => toState (newState now);
  Driver_Step := Step d;
  Driver_Status := Status;
  Driver_PrepareLaunch := fun s _ project baseCommand options _ =>
    PrepareLaunch s project baseCommand options;
  Driver_CreateSessionPlanner := Some {| ClientState.PrepareCreate :=
    fun s _ project command options => PrepareCreate s project command options |};
  Driver_Forkable := None;
  Driver_StartDirAware := Some {| ClientState.StartDir := StartDir;
    ClientState.WithStartDir := WithStartDir |};
  Driver_BootstrapSessionStart := None;
  Driver_View := ViewOf d;
  Driver_Persist := Persist;
  Driver_Restore := fun bag now => toState (Restore bag now);
  Driver_WarmStartRecoverer := None;
  Driver_ColdStartRecoverer := None;
|}.
End shell.
End Shell.
