(* ===== verification/DriverClaude.v ===== *)
(** * client/driver: the Claude driver

    [claude.go], [claude_event.go], [claude_tick.go], [claude_tool_log.go],
    [claude_fork.go], [claude_persist.go], [claude_statusline.go],
    [claude_view.go], [claude_worktree.go].  Go maps of pending tools are
    updated in place; the previous driver state is not used after a step, so
    they are values here.  Where Go ranges over them for the oldest entry, the
    order of iteration shows only between entries started at the same time. *)

From S2P Require Import Prelude GoStd GoText ClientView ClientState DriverTypes DriverText DriverCommon.
Open Scope Z_scope.

Module Claude.
Section claude.
Context {DT : DriverTypes} {DE : DriverEnv}.

Record ClaudeDriver := mkClaudeDriver {
  home : string;
  eventLogDir : string;
  showThinking : bool;
  pager : string;
}.

Definition zeroStateOf (c : CommonState) : ClaudeState :=
  mkClaudeState c "" "" 0 "" "" ∅ [] "" false "" ∅ "".
Definition zeroState : ClaudeState := zeroStateOf zeroCommon.
Definition newState (now : Time) : ClaudeState := zeroStateOf (initCommon StatusIdle now).

Definition asState (s : DriverState) : option ClaudeState :=
  match s with Some (DSClaude cs) => Some cs | _ => None end.
Definition toState (cs : ClaudeState) : DriverState := Some (DSClaude cs).

(** [Status] panics on a state of another type; here it is 0. *)
Definition Status (s : DriverState) : ClientView.Status :=
  default 0 (CS_Status ∘ CL_Common <$> asState s).
Definition StartDir (s : DriverState) : string :=
  match asState s with Some cs => CS_StartDir (CL_Common cs) | None => EmptyString end.
Definition WithStartDir (s : DriverState) (dir : string) : DriverState :=
  match asState s with
  | Some cs => toState (cs <| CL_Common := CL_Common cs <| CS_StartDir := dir |> |>)
  | None => s
  end.

(** ** Transcript path *)

Definition resolveTranscriptPath (d : ClaudeDriver) (cs : ClaudeState) : string :=
  let c := CL_Common cs in
  if decide (CS_TranscriptPath c <> EmptyString) then CS_TranscriptPath c
  else if decide (home d = EmptyString \/ CL_ClaudeSessionID cs = EmptyString
                  \/ CS_StartDir c = EmptyString) then EmptyString
  else filepath.Join [home d; ".claude"; "projects"; projectDir (CS_StartDir c);
                      CL_ClaudeSessionID cs +:+ ".jsonl"].

Definition subagentDir (transcriptPath : string) : string :=
  if decide (transcriptPath = EmptyString) then EmptyString
  else if negb (Strings.HasSuffix transcriptPath ".jsonl") then EmptyString
  else Strings.TrimSuffix transcriptPath ".jsonl" +:+ "/" +:+ "subagents".

(** ** View *)

Definition claudeInfoExtras (cs : ClaudeState) : list InfoLine :=
  let c := CL_Common cs in
  infoLine "Title" (CS_Title c) ++ infoLine "Summary" (CS_Summary c)
  ++ infoLine "Last Prompt" (CS_LastPrompt c) ++ infoLine "Working Dir" (CS_StartDir c)
  ++ (if CS_BranchIsWorktree c then infoLine "Parent Branch" (CS_BranchParentBranch c) else [])
  ++ infoLine "Transcript" (CS_TranscriptPath c).

Definition planStatusLine (cs : ClaudeState) : string :=
  if decide (CL_PlanFile cs = EmptyString) then EmptyString
  else "#[range=user|plan]PLAN#[norange]".

Definition view (d : ClaudeDriver) (cs : ClaudeState) : View :=
  let c := CL_Common cs in
  let transcriptPath := resolveTranscriptPath d cs in
  let logTabs :=
    (if decide (transcriptPath = EmptyString) then []
     else [mkLogTab "TRANSCRIPT" transcriptPath "transcript"
             (marshalClaudeRenderer (subagentDir transcriptPath) (showThinking d))])
    ++ match EventLogTab c (eventLogDir d) with Some tab => [tab] | None => [] end in
  mkView
    (mkCard (resolveCardTitle (CS_Title c) (CS_Summary c)) (CommonTags c)
       (CommandTag ClaudeDriverName) zeroTag (fishpath_Shorten (CS_StartDir c) (home d)))
    ClaudeDriverName logTabs (claudeInfoExtras cs) false (planStatusLine cs)
    (CS_Status c) (CS_StatusChangedAt c).

Definition ViewOf (d : ClaudeDriver) (s : DriverState) : View :=
  view d (default zeroState (asState s)).

(** ** Launch *)

Definition simplePlan (command startDir stdin : string) (options : LaunchOptions) : LaunchPlan :=
  mkLaunchPlan command startDir "" SandboxOverrideAuto options ""
    (mkStreamLaunchOptions "" "" (mkResumeTarget "" "") "") stdin.

Definition PrepareLaunch (d : ClaudeDriver) (s : DriverState) (mode : LaunchMode)
    (project baseCommand : string) (options : LaunchOptions) (sandboxed : bool)
    : LaunchPlan + error :=
  let cs := default zeroState (asState s) in
  let startDir := orElse (CS_StartDir (CL_Common cs)) project in
  let '(req, command) := resolveWorktreeRequest baseCommand options ["--worktree"%string] in
  let command := claudecli.SandboxFlags (Strings.TrimSpace command) sandboxed in
  let stdin := Opt_InitialInput options in
  let fresh := simplePlan command startDir stdin (worktreeOptions (WR_Enabled req)) in
  let plain := simplePlan command startDir stdin zeroLaunchOptions in
  match mode with
  | LaunchModeColdStart =>
    if decide (CL_ClaudeSessionID cs = EmptyString) then
      if bool_decide (CL_ForkParentID cs <> EmptyString) && isAlphanumHyphen (CL_ForkParentID cs)
      then inl (simplePlan (claudecli.ForkCommand command (CL_ForkParentID cs)) startDir stdin
                  zeroLaunchOptions)
      else inl fresh
    else if Strings.Contains command "--resume" then inl plain
    else if negb (isAlphanumHyphen (CL_ClaudeSessionID cs)) then inl plain
    else
      let resume := simplePlan (command +:+ " --resume " +:+ CL_ClaudeSessionID cs) startDir stdin
                      zeroLaunchOptions in
      if sandboxed then inl resume
      else
        let path := resolveTranscriptPath d cs in
        if decide (path = EmptyString) then inl plain
        else match os_Stat path with
             | StatOk _ => inl resume
             | StatNotExist _ => inl plain
             | StatErr e => inr e
             end
  | _ => inl fresh
  end.

Definition PrepareCreate (s : DriverState) (project command : string) (options : LaunchOptions)
    : (DriverState * CreateLaunch) + error :=
  let cs := default zeroState (asState s) in
  inl (toState cs, CommonPrepareCreate project command options ["--worktree"%string]).

Definition ForkCommand (s : DriverState) (baseCommand : string) : string * bool :=
  match asState s with
  | Some cs =>
    if decide (CL_ClaudeSessionID cs = EmptyString) then (EmptyString, false)
    else if negb (isAlphanumHyphen (CL_ClaudeSessionID cs)) then (EmptyString, false)
    else (claudecli.ForkCommand baseCommand (CL_ClaudeSessionID cs), true)
  | None => (EmptyString, false)
  end.

Definition forkChild (parent : DriverState) (now : Time) : ClaudeState :=
  let cs := newState now in
  match asState parent with
  | Some p => if decide (CL_ClaudeSessionID p = EmptyString) then cs
              else cs <| CL_ForkParentID := CL_ClaudeSessionID p |>
  | None => cs
  end.

(** ** Persistence *)

Definition Persist (s : DriverState) : option (gmap string string) :=
  match asState s with
  | None => None
  | Some cs =>
    let out := PersistCommon (CL_Common cs) ∅ in
    let out := putStr "claude_session_id" (CL_ClaudeSessionID cs) out in
    Some (putStr "fork_parent_id" (CL_ForkParentID cs) out)
  end.

Definition Restore (bag : gmap string string) (now : Time) : ClaudeState :=
  let cs := newState now in
  if decide (bag = ∅) then cs
  else cs <| CL_Common := RestoreCommon (CL_Common cs) bag |>
          <| CL_ClaudeSessionID := getStr bag "claude_session_id" |>
          <| CL_ForkParentID := getStr bag "fork_parent_id" |>.

(** ** Hooks *)

Definition deriveState (hp : hookPayload) : string :=
  let ev := HP_HookEventName hp in
  if existsb (String.eqb ev) ["UserPromptSubmit"; "PreToolUse"; "PostToolUse"]%string then "running"
  else if String.eqb ev "Stop" then "waiting"
  else if String.eqb ev "StopFailure" then "stopped"
  else if String.eqb ev "SessionEnd" then "stopped"
  else if String.eqb ev "SessionStart" then "idle"
  else if String.eqb ev "Notification" then
    if String.eqb (HP_NotificationType hp) "permission_prompt" then "pending"
    else if existsb (String.eqb (HP_NotificationType hp)) ["idle_prompt"; "elicitation_dialog"]%string
    then "waiting" else ""
  else "".

Definition formatDetail (hp : hookPayload) : string :=
  let ev := HP_HookEventName hp in
  let tool := HP_ToolName hp in
  if existsb (String.eqb ev) ["PreToolUse"; "PostToolUse"; "PostToolUseFailure"]%string then
    if decide (tool = EmptyString) then ""
    else if String.eqb tool "Bash" then
      let cmd := toolInputString (HP_ToolInput hp) "command" in
      if decide (cmd = EmptyString) then tool else tool +:+ " " +:+ previewText cmd
    else if existsb (String.eqb tool) ["Read"; "Write"; "Edit"; "Glob"]%string then
      let fp := toolInputString (HP_ToolInput hp) "file_path" in
      let p := toolInputString (HP_ToolInput hp) "pattern" in
      if decide (fp <> EmptyString) then tool +:+ " " +:+ fp
      else if decide (p <> EmptyString) then tool +:+ " " +:+ p else tool
    else tool
  else if String.eqb ev "Notification" then HP_NotificationType hp
  else if String.eqb ev "SessionStart" then HP_Source hp
  else "".

Definition formatLog (hp : hookPayload) : string :=
  if decide (HP_HookEventName hp = EmptyString) then EmptyString
  else eventLogLine (HP_HookEventName hp) (formatDetail hp).

(** [EffEventLogAppend{Line: line}], [EffWatchFile{Path: path, …}]: the
    reducer fills in the frame. *)
Definition logEffects (hp : hookPayload) : list Effect :=
  let line := formatLog hp in
  if decide (line = EmptyString) then [] else [EffEventLogAppend "" line].
Definition watchTranscript (path : string) : Effect := EffWatchFile "" path "transcript".
Definition parseJob (cs : ClaudeState) (path : string) : Effect :=
  startJob (TranscriptParseInput (CL_ClaudeSessionID cs) path).

Definition absorbIdentityFromHP (cs : ClaudeState) (hp : hookPayload) : ClaudeState :=
  let cs :=
    if decide (HP_SessionID hp = EmptyString) then cs
    else if bool_decide (CL_ForkParentID cs <> EmptyString)
            && bool_decide (HP_SessionID hp = CL_ForkParentID cs) then cs
    else cs <| CL_ClaudeSessionID := HP_SessionID hp |> <| CL_ForkParentID := "" |> in
  if decide (HP_TranscriptPath hp = EmptyString) then cs
  else cs <| CL_Common := CL_Common cs <| CS_TranscriptPath := HP_TranscriptPath hp |> |>.

(** [if !cs.TranscriptInFlight { if path := …; path != "" { … } }]. *)
Definition startTranscriptParse (d : ClaudeDriver) (cs : ClaudeState) : ClaudeState * list Effect :=
  if CL_TranscriptInFlight cs then (cs, [])
  else
    let path := resolveTranscriptPath d cs in
    if decide (path = EmptyString) then (cs, [])
    else (cs <| CL_TranscriptInFlight := true |>, [parseJob cs path]).

Definition setStatus (cs : ClaudeState) (st : ClientView.Status) (at_ : Time) : ClaudeState :=
  cs <| CL_Common := CL_Common cs <| CS_Status := st |> <| CS_StatusChangedAt := at_ |> |>.

Definition handleSessionStart (d : ClaudeDriver) (cs : ClaudeState) (ctx : FrameContext)
    (hp : hookPayload) (now : Time) : ClaudeState * list Effect :=
  let cs := absorbIdentityFromHP cs hp in
  let now := statusTime now (CS_StatusChangedAt (CL_Common cs)) in
  let cs := setStatus cs StatusIdle now in
  let path := resolveTranscriptPath d cs in
  let '(cs, effs) :=
    if bool_decide (path <> EmptyString) && bool_decide (CL_WatchedFile cs <> path) then
      let cs := cs <| CL_WatchedFile := path |> in
      if CL_TranscriptInFlight cs then (cs, [watchTranscript path])
      else (cs <| CL_TranscriptInFlight := true |>, [watchTranscript path; parseJob cs path])
    else (cs, []) in
  let effs := effs ++ logEffects hp in
  let target := CS_StartDir (CL_Common cs) in
  if Ctx_IsRoot ctx && bool_decide (target <> EmptyString) && negb (CS_BranchInFlight (CL_Common cs))
  then (cs <| CL_Common := CL_Common cs <| CS_BranchInFlight := true |>
                                        <| CS_BranchTarget := target |> |>,
        effs ++ [startJob (BranchDetectInput target)])
  else (cs, effs).

Definition handleStateChange (d : ClaudeDriver) (cs : ClaudeState) (hp : hookPayload)
    (statusStr : string) (now : Time) : ClaudeState * list Effect :=
  let cs := absorbIdentityFromHP cs hp in
  let now := statusTime now (CS_StatusChangedAt (CL_Common cs)) in
  let '(status, ok) := ParseStatus statusStr in
  let cs := if ok then setStatus cs status now else cs in
  let '(cs, effs) := startTranscriptParse d cs in
  (cs, logEffects hp ++ effs).

(** The first assignment of [StatusChangedAt], guarded by [!now.IsZero()], is
    overwritten by the second, which is not. *)
Definition handleUserPromptSubmit (d : ClaudeDriver) (cs : ClaudeState) (hp : hookPayload)
    (now : Time) : ClaudeState * list Effect :=
  let cs := absorbIdentityFromHP cs hp in
  let cs := setStatus cs StatusRunning now in
  let cs := cs <| CL_Common := CL_Common cs
                <| CS_LastPrompt := orElse (HP_Prompt hp) (CS_LastPrompt (CL_Common cs)) |> |> in
  let effs := logEffects hp in
  let turns := userOnlyTurns (appendHookPromptTurn (CL_RecentTurns cs) (HP_Prompt hp)) 2 in
  let prompt := formatSummaryPrompt (CS_Summary (CL_Common cs)) turns in
  let '(effs, inFlight) := enqueueSummaryJob effs (CS_SummaryInFlight (CL_Common cs)) prompt in
  let cs := cs <| CL_Common := CL_Common cs <| CS_SummaryInFlight := inFlight |> |> in
  let '(cs, effs') := startTranscriptParse d cs in
  (cs, effs ++ effs').

(** ** Tool log *)

(** The loop over the pending tools for the oldest one without a prompt. *)
Definition olderPending (acc : string * Time) (kv : string * pendingTool) : string * Time :=
  let '(oldestID, oldestTS) := acc in
  let '(id, p) := kv in
  if negb (PT_SawPrompt p)
     && (bool_decide (oldestID = EmptyString) || time.Before (PT_StartedAt p) oldestTS)
  then (id, PT_StartedAt p) else acc.
Definition oldestPending (l : list (string * pendingTool)) : string :=
  fst (foldl olderPending (EmptyString, 0) l).

Definition markPrompt (tools : gmap string pendingTool) : gmap string pendingTool :=
  let oldestID := oldestPending (map_to_list tools) in
  if decide (oldestID = EmptyString) then tools
  else match tools !! oldestID with
       | Some entry => <[oldestID := entry <| PT_SawPrompt := true |>]> tools
       | None => tools
       end.

(** The kind, duration and input of a finished tool, and the tools still
    pending. *)
Definition finishTool (tools : gmap string pendingTool) (hp : hookPayload) (now : Time)
    (kindOverride : string) : string * Z * gmap string anyval * gmap string pendingTool :=
  if decide (HP_ToolUseID hp = EmptyString) then
    (orElse kindOverride "auto", 0, HP_ToolInput hp, tools)
  else match tools !! HP_ToolUseID hp with
  | Some entry =>
    (orElse kindOverride (if PT_SawPrompt entry then "approved" else "auto"),
     toolDurationMs now (PT_StartedAt entry), PT_Input entry,
     delete (HP_ToolUseID hp) tools)
  | None => (orElse kindOverride "orphan", 0, HP_ToolInput hp, tools)
  end.

Definition emitToolLog (cs : ClaudeState) (hp : hookPayload) (now : Time) (kindOverride : string)
    : ClaudeState * list Effect :=
  let '(kind, durationMs, toolInput, tools) :=
    finishTool (CL_PendingTools cs) hp now kindOverride in
  let cs := cs <| CL_PendingTools := tools |> in
  let slug := resolveProjectSlug (CS_Project (CL_Common cs)) in
  if decide (slug = EmptyString) then (cs, [])
  else
    let line := buildToolLogLine
      (mkToolLogEntry now (CS_RoostSessionID (CL_Common cs)) (CL_ClaudeSessionID cs)
         (HP_ToolUseID hp) (HP_ToolName hp) kind (HP_PermissionMode hp) durationMs
         (summariseToolInput (HP_ToolName hp) toolInput) (HP_Error hp)) in
    (cs, [EffToolLogAppend ClaudeDriverName slug line]).

Definition handleToolLog (cs : ClaudeState) (hp : hookPayload) (now : Time)
    : ClaudeState * list Effect :=
  let ev := HP_HookEventName hp in
  if String.eqb ev "PreToolUse" then
    if decide (HP_ToolUseID hp = EmptyString \/ HP_ToolName hp = EmptyString) then (cs, [])
    else (cs <| CL_PendingTools := <[HP_ToolUseID hp :=
            mkPendingTool (HP_ToolName hp) (HP_ToolInput hp) now false (HP_PermissionMode hp)]>
            (CL_PendingTools cs) |>, [])
  else if String.eqb ev "Notification" then
    if bool_decide (HP_NotificationType hp <> "permission_prompt"%string)
       || bool_decide (CL_PendingTools cs = ∅) then (cs, [])
    else (cs <| CL_PendingTools := markPrompt (CL_PendingTools cs) |>, [])
  else if String.eqb ev "PostToolUse" then emitToolLog cs hp now ""
  else if String.eqb ev "PostToolUseFailure" then
    emitToolLog cs hp now (if HP_IsInterrupt hp then "denied" else "failed")
  else (cs, []).

(** ** Hook dispatch *)

(** [!ts.IsZero() && !ts.After(last)]. *)
Definition staleHook (ts last : Time) : bool := negb (time.IsZero ts) && negb (last <? ts).

Definition bridgeTS (cs : ClaudeState) (ts : Time) : ClaudeState :=
  if time.IsZero ts then cs else cs <| CL_LastBridgeTS := ts |>.

(** A hook of a child frame: identity only. *)
Definition handleChildHook (cs : ClaudeState) (hp : hookPayload) (ts : Time) : ClaudeState :=
  if staleHook ts (CL_LastBridgeTS cs) then cs
  else bridgeTS (cs <| CL_ClaudeSessionID := HP_SessionID hp |>) ts.

(** A hook of a root frame other than SessionStart, in order. *)
Definition handleOrderedHook (d : ClaudeDriver) (cs : ClaudeState) (hp : hookPayload) (ts : Time)
    : ClaudeState * list Effect :=
  let ev := HP_HookEventName hp in
  if String.eqb ev "UserPromptSubmit" then handleUserPromptSubmit d cs hp ts
  else if String.eqb (HP_ToolName hp) "Agent" then (cs, logEffects hp)
  else if existsb (String.eqb ev) ["SubagentStart"; "SubagentStop"]%string then (cs, logEffects hp)
  else
    let '(cs, toolLogEffs) := handleToolLog cs hp ts in
    let cs := if String.eqb ev "SessionEnd" then cs <| CL_PendingTools := ∅ |> else cs in
    let status := deriveState hp in
    if decide (status = EmptyString) then (cs, logEffects hp ++ toolLogEffs)
    else
      let '(next, effs) := handleStateChange d cs hp status ts in
      (next, effs ++ toolLogEffs).

Definition handleHook (d : ClaudeDriver) (cs : ClaudeState) (ctx : FrameContext)
    (ts : Time) (roostSessionID payload : string) : ClaudeState * list Effect :=
  let hp := parseHookPayload payload in
  if decide (HP_SessionID hp = EmptyString) then (cs, [])
  else
    let cs := cs <| CL_Common := CL_Common cs
                 <| CS_RoostSessionID := orElse roostSessionID (CS_RoostSessionID (CL_Common cs)) |> |> in
    if negb (Ctx_IsRoot ctx) then (handleChildHook cs hp ts, [])
    else if String.eqb (HP_HookEventName hp) "SessionStart" then
      handleSessionStart d (cs <| CL_LastBridgeTS := ts |> <| CL_PendingTools := ∅ |>) ctx hp ts
    else if staleHook ts (CL_LastBridgeTS cs) then (cs, [])
    else handleOrderedHook d (bridgeTS cs ts) hp ts.

(** ** Window title, files, jobs, clicks *)

(** The rune of [firstRune]; 0 for the empty string. *)
Definition firstRune (s : string) : Z := default 0 (head (utf8.runes s)).

Definition handleWindowTitle (cs : ClaudeState) (title : string) (now : Time) : ClaudeState :=
  if decide (title = CL_LastWindowTitle cs) then cs
  else
    let cs := cs <| CL_LastWindowTitle := title |> in
    let r := firstRune title in
    if r =? 10035 then
      if CS_Status (CL_Common cs) =? StatusWaiting then cs else setStatus cs StatusWaiting now
    else if utf8.between 10240 10495 r then
      if CS_Status (CL_Common cs) =? StatusRunning then cs else setStatus cs StatusRunning now
    else cs.

Definition handleTranscriptChanged (cs : ClaudeState) (evPath : string)
    : ClaudeState * list Effect :=
  let path := orElse (CS_TranscriptPath (CL_Common cs)) evPath in
  if decide (path = EmptyString) then (cs, [])
  else
    let '(cs, effs) := if decide (CL_WatchedFile cs = path) then (cs, [])
                       else (cs <| CL_WatchedFile := path |>, [watchTranscript path]) in
    if CL_TranscriptInFlight cs then (cs, effs)
    else (cs <| CL_TranscriptInFlight := true |>, effs ++ [parseJob cs path]).

Definition handleJobResult (cs : ClaudeState) (result : DriverJobResult) (err : option error)
    (now : Time) : ClaudeState :=
  match commonJobResult (CL_Common cs) result err now with
  | Some c => cs <| CL_Common := c |>
  | None =>
    match result with
    | ResultTranscript r =>
      let cs := cs <| CL_TranscriptInFlight := false |> in
      match err with
      | Some _ => cs
      | None =>
        cs <| CL_Common := CL_Common cs
                <| CS_Title := orElse (TP_Title r) (CS_Title (CL_Common cs)) |>
                <| CS_LastPrompt := orElse (TP_LastPrompt r) (CS_LastPrompt (CL_Common cs)) |> |>
           <| CL_StatusLine := TP_StatusLine r |> <| CL_CurrentTool := TP_CurrentTool r |>
           <| CL_SubagentCounts := TP_Subagents r |> <| CL_RecentTurns := TP_RecentTurns r |>
           <| CL_PlanFile := TP_PlanFile r |>
      end
    | _ => cs
    end
  end.

Definition handleStatusLineClick (d : ClaudeDriver) (cs : ClaudeState) (range : string) : list Effect :=
  if bool_decide (range <> "plan"%string) || bool_decide (CL_PlanFile cs = EmptyString) then []
  else [EffPushDriver "" (pager d +:+ " " +:+ shellQuote (CL_PlanFile cs))].

(** ** Step *)

Definition stepRoot (d : ClaudeDriver) (cs : ClaudeState) (ctx : FrameContext) (ev : DriverEvent)
    : ClaudeState * list Effect :=
  match ev with
  | DEvHook _ ts roost payload => handleHook d cs ctx ts roost payload
  | DEvTick now watched project _ _ =>
    let '(c, effs) := HandleTick (CL_Common cs) now watched project in
    (cs <| CL_Common := c |>, effs)
  | DEvFileChanged path => handleTranscriptChanged cs path
  | DEvJobResult result err now => (handleJobResult cs result err now, [])
  | DEvFrameOsc _ title _ now => (handleWindowTitle cs title now, [])
  | DEvStatusLineClick range _ => (cs, handleStatusLineClick d cs range)
  | DEvWorktreeResolved startDir name =>
    (cs <| CL_Common := ApplyWorktreeResolved (CL_Common cs) startDir name |>, [])
  | DEvCommandExited code ts =>
    (cs <| CL_Common := ApplyCommandExited (CL_Common cs) code ts |>, [])
  | _ => (cs, [])
  end.

Definition Step (d : ClaudeDriver) (prev : DriverState) (ctx : FrameContext) (ev : DriverEvent)
    : DriverState * list Effect * View :=
  let cs := match asState prev with Some cs => cs | None => newState 0 end in
  let '(cs, effs) :=
    if Ctx_IsRoot ctx then stepRoot d cs ctx ev
    else match ev with
         | DEvHook _ ts roost payload => handleHook d cs ctx ts roost payload
         | _ => (cs, [])
         end in
  (toState cs, effs, view d cs).

Definition WarmStartRecover (d : ClaudeDriver) (s : DriverState) (now : Time)
    : ClaudeState * list Effect :=
  let cs := match asState s with Some cs => cs | None => newState now end in
  let path := resolveTranscriptPath d cs in
  if decide (path = EmptyString) then (cs, [])
  else
    let cs := cs <| CL_Common := CL_Common cs
                 <| CS_TranscriptPath := orElse (CS_TranscriptPath (CL_Common cs)) path |> |> in
    let '(cs, effs) := if decide (CL_WatchedFile cs = path) then (cs, [])
                       else (cs <| CL_WatchedFile := path |>, [watchTranscript path]) in
    if CL_TranscriptInFlight cs then (cs, effs)
    else (cs <| CL_TranscriptInFlight := true |>, effs ++ [parseJob cs path]).

Definition driver (d : ClaudeDriver) : Driver := {|
  Driver_Name := ClaudeDriverName;
  Driver_DisplayName := ClaudeDriverName;
  Driver_NewState := fun now => toState (newState now);
  Driver_Step := Step d;
  Driver_Status := Status;
  Driver_PrepareLaunch := PrepareLaunch d;
  Driver_CreateSessionPlanner := Some {| ClientState.PrepareCreate :=
    fun s _ project command options => PrepareCreate s project command options |};
  Driver_Forkable := Some {| ClientState.ForkCommand := ForkCommand;
    ClientState.ForkChildState := fun parent now => toState (forkChild parent now) |};
  Driver_StartDirAware := Some {| ClientState.StartDir := StartDir;
    ClientState.WithStartDir := WithStartDir |};
  Driver_BootstrapSessionStart := None;
  Driver_View := ViewOf d;
  Driver_Persist := Persist;
  Driver_Restore := fun bag now => toState (Restore bag now);
  Driver_WarmStartRecoverer := Some (fun s now =>
    let '(cs, effs) := WarmStartRecover d s now in (toState cs, effs));
  Driver_ColdStartRecoverer := None;
|}.
End claude.
End Claude.
