(* ===== verification/DriverCodex.v ===== *)
(** * client/driver: the codex driver

    [codex.go], [codex_event.go], [codex_resume.go], [codex_tool_log.go],
    [codex_persist.go], [codex_view.go], [codex_worktree.go].  Codex sessions
    are driven by the events of the stream subsystem; a cold start resumes the
    persisted thread through the rollout file and the codex database. *)

From S2P Require Import Prelude GoStd GoText ClientView ClientState DriverTypes DriverText DriverCommon.
Open Scope Z_scope.

Definition SubsystemSessionReady : SubsystemEventKind := "session_ready".
Definition SubsystemFailed : SubsystemEventKind := "failed".
Definition SubsystemPromptSubmitted : SubsystemEventKind := "prompt_submitted".
Definition SubsystemTurnStarted : SubsystemEventKind := "turn_started".
Definition SubsystemTurnCompleted : SubsystemEventKind := "turn_completed".
Definition SubsystemToolStarted : SubsystemEventKind := "tool_started".
Definition SubsystemToolCompleted : SubsystemEventKind := "tool_completed".
Definition SubsystemApprovalRequested : SubsystemEventKind := "approval_requested".
Definition SubsystemApprovalResolved : SubsystemEventKind := "approval_resolved".
Definition SubsystemPlanUpdated : SubsystemEventKind := "plan_updated".
Definition SubsystemDiffUpdated : SubsystemEventKind := "diff_updated".
Definition SubsystemMessageUpdated : SubsystemEventKind := "message_updated".

Module Codex.
Section codex.
Context {DT : DriverTypes} {DE : DriverEnv}.

Record CodexDriver := mkCodexDriver { eventLogDir : string }.

Definition zeroStateOf (c : CommonState) : CodexState :=
  mkCodexState c "" "" "" "" "" "" "" "" false false "" "" "" "" "" [] [] ∅.
Definition zeroState : CodexState := zeroStateOf zeroCommon.
Definition newState (now : Time) : CodexState := zeroStateOf (initCommon StatusIdle now).

Definition asState (s : DriverState) : option CodexState :=
  match s with Some (DSCodex cs) => Some cs | _ => None end.
Definition toState (cs : CodexState) : DriverState := Some (DSCodex cs).

(** [Status] panics on a state of another type; here it is 0. *)
Definition Status (s : DriverState) : ClientView.Status :=
  default 0 (CS_Status ∘ CX_Common <$> asState s).
Definition StartDir (s : DriverState) : string :=
  match asState s with Some cs => CS_StartDir (CX_Common cs) | None => EmptyString end.
Definition WithStartDir (s : DriverState) (dir : string) : DriverState :=
  match asState s with
  | Some cs => toState (cs <| CX_Common := CX_Common cs <| CS_StartDir := dir |> |>)
  | None => s
  end.

(** ** View (codex_view.go) *)

Definition codexInfoExtras (cs : CodexState) : list InfoLine :=
  let c := CX_Common cs in
  infoLine "Title" (CS_Title c) ++ infoLine "Thread" (CX_ThreadID cs)
  ++ infoLine "Requested Thread" (CX_RequestedThreadID cs)
  ++ infoLine "Observed Thread" (CX_ObservedThreadID cs)
  ++ infoLine "Resume Phase" (CX_ResumePhase cs) ++ infoLine "Working Dir" (CS_StartDir c)
  ++ infoLine "Worktree Name" (CS_WorktreeName c) ++ infoLine "Current Tool" (CX_CurrentTool cs)
  ++ (if CS_BranchIsWorktree c then infoLine "Parent Branch" (CS_BranchParentBranch c) else [])
  ++ infoLine "Transcript" (CS_TranscriptPath c) ++ infoLine "Summary" (CS_Summary c)
  ++ infoLine "Plan" (CX_PlanSummary cs) ++ infoLine "Diff" (CX_DiffSummary cs)
  ++ infoLine "Status Line" (CX_StatusLine cs) ++ infoLine "Last Prompt" (CS_LastPrompt c)
  ++ infoLine "Last Assistant" (CS_LastAssistantMessage c).

Definition view (d : CodexDriver) (cs : CodexState) : View :=
  let c := CX_Common cs in
  let tabs :=
    (if decide (CS_TranscriptPath c = EmptyString) then []
     else [mkLogTab "TRANSCRIPT" (CS_TranscriptPath c) "codex_transcript" marshalCodexRenderer])
    ++ match EventLogTab c (eventLogDir d) with Some tab => [tab] | None => [] end in
  mkView
    (mkCard (resolveCardTitle (CS_Title c) (CS_Summary c)) (CommonTags c) CodexCommandTag zeroTag
       (fishpath_Shorten (CS_StartDir c) ""))
    CodexDriverName tabs (codexInfoExtras cs) false (CX_StatusLine cs)
    (CS_Status c) (CS_StatusChangedAt c).

Definition ViewOf (d : CodexDriver) (s : DriverState) : View :=
  view d (default zeroState (asState s)).

(** ** Resume (codex_resume.go) *)

Definition setRolloutPath (cs : CodexState) (path : string) : CodexState :=
  let path := Strings.TrimSpace path in
  cs <| CX_RolloutPath := path |> <| CX_Common := CX_Common cs <| CS_TranscriptPath := path |> |>.

Definition resolvedRolloutPath (cs : CodexState) : string :=
  orElse (Strings.TrimSpace (CX_RolloutPath cs))
    (Strings.TrimSpace (CS_TranscriptPath (CX_Common cs))).

Definition usableRolloutPath (path : string) : string :=
  let path := Strings.TrimSpace path in
  if decide (path = EmptyString) then EmptyString
  else match os_Stat path with
       | StatOk size => if size =? 0 then EmptyString else path
       | _ => EmptyString
       end.

Definition codexHomeDir : string + error :=
  let home := Strings.TrimSpace (os_Getenv "CODEX_HOME") in
  if decide (home = EmptyString) then
    match os_UserHomeDir with
    | inl home => inl (filepath.Join [home; ".codex"%string])
    | inr err => inr ("codex cold-start resume could not determine CODEX_HOME: " +:+ err)
    end
  else inl home.

(** [lookupCodexThreadValue]; the error texts name the database and key. *)
Definition lookupCodexThreadValue (codexHome selectColumn whereColumn value : string)
    : string + error :=
  let dbPath := filepath.Join [codexHome; "state_5.sqlite"%string] in
  match os_Stat dbPath with
  | StatNotExist err | StatErr err =>
    inr ("codex cold-start resume local session source missing " +:+ dbPath +:+ ": " +:+ err)
  | StatOk _ =>
    match sql_threads dbPath selectColumn whereColumn value with
    | inr err => inr err
    | inl rows =>
      match Strings.TrimSpace <$> rows with
      | [] => inr ("codex cold-start resume local session source has no thread row for "
                   +:+ whereColumn +:+ " " +:+ value)
      | [m] =>
        if decide (m = EmptyString)
        then inr ("codex cold-start resume local session source returned empty "
                  +:+ selectColumn +:+ " for " +:+ whereColumn +:+ " " +:+ value)
        else inl m
      | _ => inr ("codex cold-start resume local session source returned multiple rows for "
                  +:+ whereColumn +:+ " " +:+ value)
      end
    end
  end.

Definition resolveCodexRolloutPath (threadID : string) : string :=
  match codexHomeDir with
  | inr _ => EmptyString
  | inl codexHome =>
    match lookupCodexThreadValue codexHome "rollout_path" "id" threadID with
    | inr _ => EmptyString
    | inl rolloutPath => usableRolloutPath rolloutPath
    end
  end.

Definition resolveCodexSessionID (rolloutPath persistedSessionID : string) : string :=
  if decide (rolloutPath = EmptyString \/ persistedSessionID <> EmptyString) then persistedSessionID
  else match codexHomeDir with
  | inr _ => EmptyString
  | inl codexHome =>
    match lookupCodexThreadValue codexHome "id" "rollout_path" rolloutPath with
    | inr _ => EmptyString
    | inl sessionID => sessionID
    end
  end.

(** [coldStartResumePlan]: nothing to resume, a target with its session id, or
    an error (ids are quoted in its text; [%q] would also escape). *)
Definition coldStartResumePlan (cs : CodexState) : option (ResumeTarget * string) + error :=
  let rawThreadID := Strings.TrimSpace (CX_ThreadID cs) in
  let sessionID := Strings.TrimSpace (CX_SessionID cs) in
  let rawRolloutPath := Strings.TrimSpace (resolvedRolloutPath cs) in
  let threadID := if isAlphanumHyphen rawThreadID then rawThreadID
                  else if isAlphanumHyphen sessionID then sessionID else EmptyString in
  let rolloutPath := usableRolloutPath rawRolloutPath in
  let rolloutPath := if bool_decide (rolloutPath = EmptyString)
                        && bool_decide (threadID <> EmptyString)
                     then resolveCodexRolloutPath threadID else rolloutPath in
  if bool_decide (threadID = EmptyString) && bool_decide (rawRolloutPath = EmptyString) then inl None
  else if decide (rolloutPath = EmptyString) then
    if bool_decide (rawThreadID <> EmptyString) && bool_decide (threadID = EmptyString)
    then inr ("codex cold-start resume requires a valid thread_id, got "
               +:+ dquote +:+ rawThreadID +:+ dquote)
    else inr ("codex cold-start resume requires a usable rollout_path for thread_id "
               +:+ dquote +:+ threadID +:+ dquote)
  else inl (Some (mkResumeTarget threadID rolloutPath, resolveCodexSessionID rolloutPath sessionID)).

(** ** Launch (codex.go) *)

Definition hasResumeToken (command : string) : bool :=
  existsb (String.eqb "resume") (Strings.Fields command).

Definition streamPlan (command startDir stdin : string) (worktree : bool)
    (stream : StreamLaunchOptions) : LaunchPlan :=
  mkLaunchPlan command startDir "" SandboxOverrideAuto (worktreeOptions worktree)
    LaunchSubsystemStream stream stdin.

Definition StreamSandboxPolicyExternal : StreamSandboxPolicy := "external".
Definition StreamApprovalPolicyAutoApprove : StreamApprovalPolicy := "auto_approve".

Definition PrepareLaunch (s : DriverState) (mode : LaunchMode) (project baseCommand : string)
    (options : LaunchOptions) (sandboxed : bool) : LaunchPlan + error :=
  let cs := default zeroState (asState s) in
  let startDir := orElse (CS_StartDir (CX_Common cs)) project in
  let stdin := Opt_InitialInput options in
  let '(req, stripped) := resolveWorktreeRequest baseCommand options ["--worktree"%string] in
  if bool_decide (head (Strings.Fields stripped) = Some CodexDriverName) then
    let base := Strings.TrimSpace stripped in
    let '(sandboxPolicy, approvalPolicy) :=
      if sandboxed then (StreamSandboxPolicyExternal, StreamApprovalPolicyAutoApprove)
      else (""%string, ""%string) in
    let stream resume session := mkStreamLaunchOptions sandboxPolicy approvalPolicy resume session in
    let noResume := streamPlan base startDir stdin (WR_Enabled req) (stream (mkResumeTarget "" "") "") in
    match mode with
    | LaunchModeColdStart =>
      if hasResumeToken base then inl noResume
      else match coldStartResumePlan cs with
           | inr err => inr err
           | inl (Some (resume, sessionID)) =>
             inl (streamPlan base startDir stdin (WR_Enabled req) (stream resume sessionID))
           | inl None => inl noResume
           end
    | _ => inl noResume
    end
  else
    inl (mkLaunchPlan (Strings.TrimSpace baseCommand) startDir "" SandboxOverrideAuto options ""
           (mkStreamLaunchOptions "" "" (mkResumeTarget "" "") "") stdin).

Definition PrepareCreate (s : DriverState) (project command : string) (options : LaunchOptions)
    : (DriverState * CreateLaunch) + error :=
  let cs := default zeroState (asState s) in
  inl (toState cs, CommonPrepareCreate project command options ["--worktree"%string]).

Definition RecoverableOnColdStart (s : DriverState) : bool :=
  match asState s with
  | None => false
  | Some cs =>
    bool_decide (Strings.TrimSpace (resolvedRolloutPath cs) <> EmptyString)
    || isAlphanumHyphen (CX_ThreadID cs) || isAlphanumHyphen (CX_SessionID cs)
  end.

(** ** Persistence (codex_persist.go) *)

Definition Persist (s : DriverState) : option (gmap string string) :=
  match asState s with
  | None => None
  | Some cs =>
    let out := PersistCommon (CX_Common cs) ∅ in
    let out := putStr "thread_id" (CX_ThreadID cs) out in
    let out := putStr "session_id" (CX_SessionID cs) out in
    let out := putStr "rollout_path" (CX_RolloutPath cs) out in
    let out := putStr "requested_thread_id" (CX_RequestedThreadID cs) out in
    let out := putStr "observed_thread_id" (CX_ObservedThreadID cs) out in
    Some (putStr "resume_phase" (CX_ResumePhase cs) out)
  end.

Definition Restore (bag : gmap string string) (now : Time) : CodexState :=
  let cs := newState now in
  if decide (bag = ∅) then cs
  else
    let c := RestoreCommon (CX_Common cs) bag in
    let rollout := orElse (getStr bag "rollout_path") (CS_TranscriptPath c) in
    let c := c <| CS_TranscriptPath := orElse (CS_TranscriptPath c) rollout |> in
    cs <| CX_Common := c |> <| CX_ThreadID := getStr bag "thread_id" |>
       <| CX_SessionID := getStr bag "session_id" |> <| CX_RolloutPath := rollout |>
       <| CX_RequestedThreadID := getStr bag "requested_thread_id" |>
       <| CX_ObservedThreadID := getStr bag "observed_thread_id" |>
       <| CX_ResumePhase := getStr bag "resume_phase" |>.

(** ** Transcript jobs *)

Definition startCodexTranscriptParse (cs : CodexState) : CodexState * list Effect :=
  let path := CS_TranscriptPath (CX_Common cs) in
  if CX_TranscriptInFlight cs || bool_decide (path = EmptyString) then (cs, [])
  else (cs <| CX_TranscriptInFlight := true |>, [startJob (CodexTranscriptParseInput path)]).

Definition watchCodexTranscript (cs : CodexState) : CodexState * list Effect :=
  let path := CS_TranscriptPath (CX_Common cs) in
  if decide (path = EmptyString \/ CX_WatchedFile cs = path) then (cs, [])
  else (cs <| CX_WatchedFile := path |>, [EffWatchFile "" path "transcript"]).

Definition watchAndParse (cs : CodexState) : CodexState * list Effect :=
  let '(cs, effs) := watchCodexTranscript cs in
  let '(cs, effs') := startCodexTranscriptParse cs in
  (cs, effs ++ effs').

(** ** Tool log (codex_tool_log.go) *)

Definition subsystemToolInput (tool : SubsystemTool) : gmap string anyval :=
  let input := if decide (Tool_Command tool = EmptyString) then ∅
               else {["command"%string := AnyString (Tool_Command tool)]} in
  if decide (Tool_Path tool = EmptyString) then input
  else <["file_path"%string := AnyString (Tool_Path tool)]> input.

Definition finishTool (tools : gmap string codexPendingTool) (tool : SubsystemTool) (now : Time)
    (kind : string) : string * Z * gmap string anyval * gmap string codexPendingTool :=
  if decide (Tool_ID tool = EmptyString) then (kind, 0, subsystemToolInput tool, tools)
  else match tools !! Tool_ID tool with
  | Some entry => (kind, toolDurationMs now (XPT_StartedAt entry), XPT_Input entry,
                   delete (Tool_ID tool) tools)
  | None => (if String.eqb kind "auto" then "orphan"%string else kind, 0,
             subsystemToolInput tool, tools)
  end.

Definition emitToolLog (cs : CodexState) (tool : SubsystemTool) (now : Time) (kind : string)
    : CodexState * list Effect :=
  let '(kind, durationMs, toolInput, tools) := finishTool (CX_PendingTools cs) tool now kind in
  let cs := cs <| CX_PendingTools := tools |> in
  let project := orElse (CS_Project (CX_Common cs)) (CS_StartDir (CX_Common cs)) in
  let slug := resolveProjectSlug project in
  if decide (slug = EmptyString \/ Tool_Name tool = EmptyString) then (cs, [])
  else
    let line := buildToolLogLine
      (mkToolLogEntry now (CS_RoostSessionID (CX_Common cs)) "" (Tool_ID tool) (Tool_Name tool)
         kind "" durationMs (summariseToolInput (Tool_Name tool) toolInput) (Tool_Error tool)) in
    (cs, [EffToolLogAppend CodexDriverName slug line]).

Definition handleSubsystemToolStarted (cs : CodexState) (tool : option SubsystemTool) (now : Time)
    : CodexState :=
  match tool with
  | Some tool =>
    if decide (Tool_ID tool = EmptyString \/ Tool_Name tool = EmptyString) then cs
    else cs <| CX_PendingTools := <[Tool_ID tool :=
                 mkCodexPendingTool (Tool_Name tool) (subsystemToolInput tool) now]>
                 (CX_PendingTools cs) |>
  | None => cs
  end.

Definition handleSubsystemToolCompleted (cs : CodexState) (tool : option SubsystemTool) (now : Time)
    : CodexState * list Effect :=
  match tool with
  | Some tool =>
    if decide (Tool_Name tool = EmptyString) then (cs, [])
    else
      let kind := if decide (Tool_Error tool = EmptyString) then "auto"
                  else if Tool_IsInterrupt tool then "denied" else "failed" in
      emitToolLog cs tool now kind
  | None => (cs, [])
  end.

(** ** Subsystem events (codex_event.go) *)

Definition applyHookStatus (cs : CodexState) (st : ClientView.Status) (ts : Time) : CodexState :=
  let c := CX_Common cs in
  cs <| CX_Common := c <| CS_Status := st |>
                       <| CS_StatusChangedAt := statusTime ts (CS_StatusChangedAt c) |> |>.

Definition codexTitleNeedsUserAction (title : string) : bool := Strings.Contains title "Action Required".

Definition handleWindowTitle (cs : CodexState) (title : string) (now : Time) : CodexState :=
  if decide (title = CX_LastWindowTitle cs) then cs
  else
    let cs := cs <| CX_LastWindowTitle := title |> in
    if codexTitleNeedsUserAction title && negb (CS_Status (CX_Common cs) =? StatusPending)
    then applyHookStatus cs StatusPending now else cs.

Definition applySessionStart (cs : CodexState) (ctx : FrameContext) (now : Time)
    : CodexState * list Effect :=
  let cs := cs <| CX_PendingTools := ∅ |> <| CX_CurrentTool := "" |>
               <| CX_PendingApproval := false |> <| CX_FailureReason := "" |> in
  let cs := applyHookStatus cs StatusIdle now in
  let '(cs, effs) := startCodexTranscriptParse cs in
  let target := CS_StartDir (CX_Common cs) in
  if Ctx_IsRoot ctx && bool_decide (target <> EmptyString) && negb (CS_BranchInFlight (CX_Common cs))
  then (cs <| CX_Common := CX_Common cs <| CS_BranchInFlight := true |>
                                        <| CS_BranchTarget := target |> |>,
        effs ++ [startJob (BranchDetectInput target)])
  else (cs, effs).

Definition subsystemToolName (tool : option SubsystemTool) : string :=
  match tool with Some t => Strings.TrimSpace (Tool_Name t) | None => EmptyString end.

Definition subsystemTurnsToSummaryTurns (turns : list SubsystemTurn) : list SummaryTurn :=
  filter (fun t => ST_Text t <> EmptyString /\ ST_Role t <> EmptyString)
    ((fun t => mkSummaryTurn (Strings.TrimSpace (Turn_Role t)) (Strings.TrimSpace (Turn_Text t)))
       <$> turns).

Definition assistantMessage (cs : CodexState) (msg : string) : CodexState :=
  cs <| CX_Common := CX_Common cs <| CS_LastAssistantMessage :=
          orElse (Strings.TrimSpace msg) (CS_LastAssistantMessage (CX_Common cs)) |> |>.

(** The SubsystemPromptSubmitted case. *)
Definition applyPrompt (cs : CodexState) (prompt : string) (ts : Time) : CodexState * list Effect :=
  let cs := cs <| CX_Common := CX_Common cs <| CS_LastPrompt := Strings.TrimSpace prompt |> |> in
  let cs := applyHookStatus cs StatusRunning ts in
  let turns := userOnlyTurns (appendHookPromptTurn (CX_RecentTurns cs) prompt) 2 in
  let '(effs, inFlight) :=
    enqueueSummaryJob [] (CS_SummaryInFlight (CX_Common cs))
      (formatSummaryPrompt (CS_Summary (CX_Common cs)) turns) in
  let cs := cs <| CX_Common := CX_Common cs <| CS_SummaryInFlight := inFlight |> |> in
  let '(cs, effs') := startCodexTranscriptParse cs in
  (cs, effs ++ effs').

Definition applySubsystemKind (cs : CodexState) (ctx : FrameContext) (kind : SubsystemEventKind)
    (ts : Time) (p : SubsystemPayload) : CodexState * list Effect :=
  if String.eqb kind SubsystemSessionReady then applySessionStart cs ctx ts
  else if String.eqb kind SubsystemFailed then
    (applyHookStatus
       (cs <| CX_PendingTools := ∅ |> <| CX_CurrentTool := "" |> <| CX_PendingApproval := false |>
           <| CX_FailureReason := Strings.TrimSpace (Sub_Error p) |>) StatusStopped ts, [])
  else if String.eqb kind SubsystemPromptSubmitted then applyPrompt cs (Sub_Prompt p) ts
  else if String.eqb kind SubsystemTurnStarted then (applyHookStatus cs StatusRunning ts, [])
  else if String.eqb kind SubsystemTurnCompleted then
    let cs := cs <| CX_CurrentTool := "" |> <| CX_PendingTools := ∅ |>
                 <| CX_PendingApproval := false |> in
    (applyHookStatus (assistantMessage cs (Sub_LastAssistantMessage p)) StatusWaiting ts, [])
  else if String.eqb kind SubsystemToolStarted then
    let cs := cs <| CX_PendingApproval := false |>
                 <| CX_CurrentTool := subsystemToolName (Sub_Tool p) |> in
    (handleSubsystemToolStarted (applyHookStatus cs StatusRunning ts) (Sub_Tool p) ts, [])
  else if String.eqb kind SubsystemToolCompleted then
    let cs := applyHookStatus (cs <| CX_CurrentTool := "" |>) StatusRunning ts in
    handleSubsystemToolCompleted cs (Sub_Tool p) ts
  else if String.eqb kind SubsystemApprovalRequested then
    (applyHookStatus (cs <| CX_PendingApproval := true |>) StatusPending ts, [])
  else if String.eqb kind SubsystemApprovalResolved then
    let cs := cs <| CX_PendingApproval := false |> in
    let denied := match Sub_Approval p with Some a => Approval_Denied a | None => false end in
    (applyHookStatus cs (if denied then StatusWaiting else StatusRunning) ts, [])
  else if String.eqb kind SubsystemPlanUpdated then
    (match Sub_Plan p with
     | Some pl => cs <| CX_PlanSummary := Strings.TrimSpace (SPlan_Summary pl) |>
     | None => cs
     end, [])
  else if String.eqb kind SubsystemDiffUpdated then
    (match Sub_Diff p with
     | Some df => cs <| CX_DiffSummary := Strings.TrimSpace (Diff_Summary df) |>
                     <| CX_DiffPaths := Diff_Paths df |>
     | None => cs
     end, [])
  else if String.eqb kind SubsystemMessageUpdated then
    let cs := assistantMessage cs (Sub_LastAssistantMessage p) in
    (match Sub_Message p with
     | Some m => cs <| CX_RecentTurns := subsystemTurnsToSummaryTurns (Msg_RecentTurns m) |>
     | None => cs
     end, [])
  else (cs, []).

(** The identifiers every subsystem event may carry. *)
Definition absorbTargets (cs : CodexState) (p : SubsystemPayload) : CodexState :=
  cs <| CX_RequestedThreadID := orElse (Sub_RequestedTargetID p) (CX_RequestedThreadID cs) |>
     <| CX_ObservedThreadID := orElse (Sub_ObservedTargetID p) (CX_ObservedThreadID cs) |>
     <| CX_ResumePhase := orElse (Sub_ResumePhase p) (CX_ResumePhase cs) |>
     <| CX_SessionID := orElse (Sub_ColdStartSessionID p) (CX_SessionID cs) |>
     <| CX_ThreadID := orElse (Sub_TargetID p) (CX_ThreadID cs) |>.

Definition handleSubsystem (cs : CodexState) (ctx : FrameContext) (kind : SubsystemEventKind)
    (ts : Time) (p : SubsystemPayload) : CodexState * list Effect :=
  let cs := absorbTargets cs p in
  if negb (Ctx_IsRoot ctx) then (cs, [])
  else
    let cs := if decide (Sub_TranscriptPath p = EmptyString) then cs
              else setRolloutPath cs (Sub_TranscriptPath p) in
    let cs := cs <| CX_StatusLine := orElse (Sub_StatusLine p) (CX_StatusLine cs) |> in
    let '(cs, effs) := watchCodexTranscript cs in
    let '(cs, effs') := applySubsystemKind cs ctx kind ts p in
    (cs, effs ++ effs').

Definition handleJobResult (cs : CodexState) (result : DriverJobResult) (err : option error)
    (now : Time) : CodexState :=
  match commonJobResult (CX_Common cs) result err now with
  | Some c => cs <| CX_Common := c |>
  | None =>
    match result with
    | ResultCodexTranscript r =>
      let cs := cs <| CX_TranscriptInFlight := false |> in
      match err with
      | Some _ => cs
      | None =>
        let c := CX_Common cs in
        let cs := cs <| CX_Common := c
                <| CS_Title := orElse (CTP_Title r) (CS_Title c) |>
                <| CS_LastPrompt := orElse (CTP_LastPrompt r) (CS_LastPrompt c) |>
                <| CS_LastAssistantMessage :=
                     orElse (CTP_LastAssistantMessage r) (CS_LastAssistantMessage c) |> |>
           <| CX_StatusLine := CTP_StatusLine r |> <| CX_RecentTurns := CTP_RecentTurns r |> in
        if CS_Status c =? StatusRunning then cs else cs <| CX_CurrentTool := "" |>
      end
    | _ => cs
    end
  end.

Definition handleTranscriptChanged (cs : CodexState) (evPath : string) : CodexState * list Effect :=
  let path := CS_TranscriptPath (CX_Common cs) in
  if decide (path <> EmptyString /\ evPath <> EmptyString /\ path <> evPath) then (cs, [])
  else watchAndParse cs.

(** ** Step *)

Definition stepRoot (cs : CodexState) (ctx : FrameContext) (ev : DriverEvent)
    : CodexState * list Effect :=
  match ev with
  | DEvSubsystem _ kind ts p => handleSubsystem cs ctx kind ts p
  | DEvTick now watched project _ _ =>
    let '(c, effs) := HandleTick (CX_Common cs) now watched project in
    (cs <| CX_Common := c |>, effs)
  | DEvFrameOsc _ title _ now => (handleWindowTitle cs title now, [])
  | DEvFileChanged path => handleTranscriptChanged cs path
  | DEvJobResult result err now => (handleJobResult cs result err now, [])
  | DEvWorktreeResolved startDir name =>
    (cs <| CX_Common := ApplyWorktreeResolved (CX_Common cs) startDir name |>, [])
  | DEvCommandExited code ts =>
    (cs <| CX_Common := ApplyCommandExited (CX_Common cs) code ts |>, [])
  | _ => (cs, [])
  end.

Definition Step (d : CodexDriver) (prev : DriverState) (ctx : FrameContext) (ev : DriverEvent)
    : DriverState * list Effect * View :=
  let cs := match asState prev with Some cs => cs | None => newState 0 end in
  let '(cs, effs) :=
    if Ctx_IsRoot ctx then stepRoot cs ctx ev
    else match ev with
         | DEvSubsystem _ kind ts p => handleSubsystem cs ctx kind ts p
         | _ => (cs, [])
         end in
  (toState cs, effs, view d cs).

Definition WarmStartRecover (s : DriverState) (now : Time) : CodexState * list Effect :=
  watchAndParse match asState s with Some cs => cs | None => newState now end.

Definition BootstrapSessionStart (s : DriverState) (ctx : FrameContext) (now : Time)
    : CodexState * list Effect :=
  let cs := match asState s with Some cs => cs | None => newState now end in
  let '(cs, effs) := watchCodexTranscript cs in
  let '(cs, effs') := applySessionStart cs ctx now in
  (cs, effs ++ effs').

Definition driver (d : CodexDriver) : Driver := {|
  Driver_Name := CodexDriverName;
  Driver_DisplayName := CodexDriverName;
  Driver_NewState := fun now => toState (newState now);
  Driver_Step := Step d;
  Driver_Status := Status;
  Driver_PrepareLaunch := PrepareLaunch;
  Driver_CreateSessionPlanner := Some {| ClientState.PrepareCreate :=
    fun s _ project command options => PrepareCreate s project command options |};
  Driver_Forkable := None;
  Driver_StartDirAware := Some {| ClientState.StartDir := StartDir;
    ClientState.WithStartDir := WithStartDir |};
  Driver_BootstrapSessionStart := Some (fun s ctx now =>
    let '(cs, effs) := BootstrapSessionStart s ctx now in (toState cs, effs));
  Driver_View := ViewOf d;
  Driver_Persist := Persist;
  Driver_Restore := fun bag now => toState (Restore bag now);
  Driver_WarmStartRecoverer := Some (fun s now =>
    let '(cs, effs) := WarmStartRecover s now in (toState cs, effs));
  Driver_ColdStartRecoverer := Some RecoverableOnColdStart;
|}.
End codex.
End Codex.
