(* ===== verification/DriverGemini.v ===== *)
(** * client/driver: the gemini driver

    [gemini.go], [gemini_event.go], [gemini_persist.go], [gemini_view.go],
    [gemini_worktree.go]. *)

From S2P Require Import Prelude GoStd GoText ClientView ClientState DriverTypes DriverText DriverCommon.
Open Scope Z_scope.

Module Gemini.
Section gemini.
Context {DT : DriverTypes} {DE : DriverEnv}.

Record GeminiDriver := mkGeminiDriver { eventLogDir : string }.

Definition zeroStateOf (c : CommonState) : GeminiState := mkGeminiState c "" "" false "" "" [] ∅ "".
Definition zeroState : GeminiState := zeroStateOf zeroCommon.
Definition newState (now : Time) : GeminiState := zeroStateOf (initCommon StatusIdle now).

Definition asState (s : DriverState) : option GeminiState :=
  match s with Some (DSGemini gs) => Some gs | _ => None end.
Definition toState (gs : GeminiState) : DriverState := Some (DSGemini gs).

(** [Status] panics on a state of another type; here it is 0. *)
Definition Status (s : DriverState) : ClientView.Status :=
  default 0 (CS_Status ∘ GM_Common <$> asState s).
Definition StartDir (s : DriverState) : string :=
  match asState s with Some gs => CS_StartDir (GM_Common gs) | None => EmptyString end.
Definition WithStartDir (s : DriverState) (dir : string) : DriverState :=
  match asState s with
  | Some gs => toState (gs <| GM_Common := GM_Common gs <| CS_StartDir := dir |> |>)
  | None => s
  end.

(** ** View *)

Definition geminiInfoExtras (gs : GeminiState) : list InfoLine :=
  let c := GM_Common gs in
  infoLine "Gemini Session" (GM_GeminiSessionID gs) ++ infoLine "Working Dir" (CS_StartDir c)
  ++ infoLine "Worktree Name" (CS_WorktreeName c) ++ infoLine "Current Tool" (GM_CurrentTool gs)
  ++ (if CS_BranchIsWorktree c then infoLine "Parent Branch" (CS_BranchParentBranch c) else [])
  ++ infoLine "Transcript" (CS_TranscriptPath c) ++ infoLine "Summary" (CS_Summary c)
  ++ infoLine "Status Line" (GM_StatusLine gs)
  ++ infoLine "Last Prompt" (previewText (CS_LastPrompt c))
  ++ infoLine "Last Assistant" (previewText (CS_LastAssistantMessage c))
  ++ infoLine "Last Hook" (CS_LastHookEvent c).

Definition view (d : GeminiDriver) (gs : GeminiState) : View :=
  let c := GM_Common gs in
  let tabs :=
    (if decide (CS_TranscriptPath c = EmptyString) then []
     else [mkLogTab "TRANSCRIPT" (CS_TranscriptPath c) TabKindText ""])
    ++ match EventLogTab c (eventLogDir d) with Some tab => [tab] | None => [] end in
  mkView
    (mkCard (resolveCardTitle (CS_Title c) (CS_Summary c)) (CommonTags c) GeminiCommandTag zeroTag
       (fishpath_Shorten (CS_StartDir c) ""))
    GeminiDriverName tabs (geminiInfoExtras gs) false (GM_StatusLine gs)
    (CS_Status c) (CS_StatusChangedAt c).

Definition ViewOf (d : GeminiDriver) (s : DriverState) : View :=
  view d (default zeroState (asState s)).

(** ** Launch *)

Definition PrepareLaunch (s : DriverState) (mode : LaunchMode) (project baseCommand : string)
    (options : LaunchOptions) (sandboxed : bool) : LaunchPlan + error :=
  let gs := default zeroState (asState s) in
  let startDir := orElse (CS_StartDir (GM_Common gs)) project in
  let '(req, command) :=
    resolveWorktreeRequest baseCommand options ["--worktree"; "--workspace"]%string in
  let command := Strings.TrimSpace command in
  let command := if sandboxed && negb (hasFlagToken command "--yolo")
                 then appendFlag command "--yolo" true else command in
  let plan command options' :=
    mkLaunchPlan command startDir "" SandboxOverrideAuto options' ""
      (mkStreamLaunchOptions "" "" (mkResumeTarget "" "") "") (Opt_InitialInput options) in
  let fresh := plan command (worktreeOptions (WR_Enabled req)) in
  match mode with
  | LaunchModeColdStart =>
    if negb (isAlphanumHyphen (GM_GeminiSessionID gs)) then inl fresh
    else if Strings.Contains command "--resume" || Strings.Contains command " -r"
    then inl (plan command zeroLaunchOptions)
    else inl (plan (command +:+ " --resume " +:+ GM_GeminiSessionID gs) zeroLaunchOptions)
  | _ => inl fresh
  end.

Definition PrepareCreate (s : DriverState) (project command : string) (options : LaunchOptions)
    : (DriverState * CreateLaunch) + error :=
  let gs := default zeroState (asState s) in
  inl (toState gs, CommonPrepareCreate project command options ["--worktree"; "--workspace"]%string).

(** ** Persistence *)

Definition Persist (s : DriverState) : option (gmap string string) :=
  match asState s with
  | None => None
  | Some gs =>
    Some (putStr "gemini_session_id" (GM_GeminiSessionID gs) (PersistCommon (GM_Common gs) ∅))
  end.

Definition Restore (bag : gmap string string) (now : Time) : GeminiState :=
  let gs := newState now in
  if decide (bag = ∅) then gs
  else gs <| GM_Common := RestoreCommon (GM_Common gs) bag |>
          <| GM_GeminiSessionID := getStr bag "gemini_session_id" |>.

(** ** Hooks *)

Definition formatDetail (hp : geminiHookPayload) : string :=
  let ev := GHP_HookEventName hp in
  let quoted s := dquote +:+ previewText s +:+ dquote in
  if String.eqb ev "SessionStart" then GHP_Source hp
  else if String.eqb ev "BeforeAgent" then
    if decide (GHP_Prompt hp = EmptyString) then "" else "prompt=" +:+ quoted (GHP_Prompt hp)
  else if existsb (String.eqb ev) ["BeforeTool"; "AfterTool"]%string then
    let detail := Strings.TrimSpace (GHP_ToolName hp) in
    let cmd := toolInputString (GHP_ToolInput hp) "command" in
    let path := toolInputString (GHP_ToolInput hp) "file_path" in
    if decide (cmd <> EmptyString) then Strings.TrimSpace (detail +:+ " cmd=" +:+ quoted cmd)
    else if decide (path <> EmptyString)
    then Strings.TrimSpace (detail +:+ " path=" +:+ quoted path) else detail
  else if String.eqb ev "Notification" then GHP_NotificationType hp
  else if String.eqb ev "AfterAgent" then
    Strings.Join
      ((if decide (GHP_StopReason hp = EmptyString) then []
        else ["reason=" +:+ previewText (GHP_StopReason hp)])
       ++ (if decide (GHP_PromptResponse hp = EmptyString) then []
           else ["resp=" +:+ quoted (GHP_PromptResponse hp)])) " "
  else "".
Definition formatLog (hp : geminiHookPayload) : string :=
  eventLogLine (GHP_HookEventName hp) (formatDetail hp).

Definition setStatus (gs : GeminiState) (st : ClientView.Status) (ts : Time) : GeminiState :=
  let c := GM_Common gs in
  gs <| GM_Common := c <| CS_Status := st |>
                       <| CS_StatusChangedAt := statusTime ts (CS_StatusChangedAt c) |> |>.

Definition handleWindowTitle (gs : GeminiState) (title : string) (now : Time) : GeminiState :=
  if decide (title = GM_LastWindowTitle gs) then gs
  else
    let gs := gs <| GM_LastWindowTitle := title |> in
    let st := CS_Status (GM_Common gs) in
    if (st =? StatusIdle) || (st =? StatusStopped) then gs
    else if Strings.Contains title "✋" || Strings.Contains title "Action Required"
    then setStatus gs StatusPending now
    else if Strings.Contains title "✦" then setStatus gs StatusRunning now
    else if Strings.Contains title "◇" then setStatus gs StatusWaiting now
    else gs.

Definition startGeminiTranscriptParse (gs : GeminiState) : GeminiState * list Effect :=
  let path := CS_TranscriptPath (GM_Common gs) in
  if GM_TranscriptInFlight gs || bool_decide (path = EmptyString) then (gs, [])
  else (gs <| GM_TranscriptInFlight := true |>, [startJob (GeminiTranscriptParseInput path)]).

Definition watchGeminiTranscript (gs : GeminiState) : GeminiState * list Effect :=
  let path := CS_TranscriptPath (GM_Common gs) in
  if decide (path = EmptyString \/ GM_WatchedFile gs = path) then (gs, [])
  else (gs <| GM_WatchedFile := path |>, [EffWatchFile "" path "transcript"]).

Definition watchAndParse (gs : GeminiState) : GeminiState * list Effect :=
  let '(gs, effs) := watchGeminiTranscript gs in
  let '(gs, effs') := startGeminiTranscriptParse gs in
  (gs, effs ++ effs').

Definition handleGeminiPendingTool (gs : GeminiState) (hp : geminiHookPayload) (now : Time) : GeminiState :=
  if decide (GHP_ToolUseID hp = EmptyString \/ GHP_ToolName hp = EmptyString) then gs
  else gs <| GM_PendingTools := <[GHP_ToolUseID hp :=
               mkGeminiPendingTool (GHP_ToolName hp) (GHP_ToolInput hp) now false]>
               (GM_PendingTools gs) |>.

Definition olderPending (acc : string * Time) (kv : string * geminiPendingTool) : string * Time :=
  let '(oldestID, oldestTS) := acc in
  let '(id, p) := kv in
  if negb (GPT_SawPrompt p)
     && (bool_decide (oldestID = EmptyString) || time.Before (GPT_StartedAt p) oldestTS)
  then (id, GPT_StartedAt p) else acc.

(** Of tools that started at the same time the code marks any one, in the
    order of the map; this is the first of [map_to_list]. *)
Definition markGeminiPermissionPrompt (gs : GeminiState) : GeminiState :=
  let tools := GM_PendingTools gs in
  let oldestID := fst (foldl olderPending (EmptyString, 0) (map_to_list tools)) in
  if decide (oldestID = EmptyString) then gs
  else match tools !! oldestID with
       | Some entry =>
         gs <| GM_PendingTools := <[oldestID := entry <| GPT_SawPrompt := true |>]> tools |>
       | None => gs
       end.

Definition finishTool (tools : gmap string geminiPendingTool) (hp : geminiHookPayload) (now : Time)
    : string * Z * gmap string anyval * gmap string geminiPendingTool :=
  if decide (GHP_ToolUseID hp = EmptyString) then ("auto"%string, 0, GHP_ToolInput hp, tools)
  else match tools !! GHP_ToolUseID hp with
  | Some entry =>
    ((if GPT_SawPrompt entry then "approved" else "auto")%string,
     toolDurationMs now (GPT_StartedAt entry), GPT_Input entry, delete (GHP_ToolUseID hp) tools)
  | None => ("orphan"%string, 0, GHP_ToolInput hp, tools)
  end.

Definition emitGeminiToolLog (gs : GeminiState) (hp : geminiHookPayload) (now : Time)
    : GeminiState * list Effect :=
  let '(kind, durationMs, toolInput, tools) := finishTool (GM_PendingTools gs) hp now in
  let gs := gs <| GM_PendingTools := tools |> in
  let project := orElse (CS_Project (GM_Common gs)) (CS_StartDir (GM_Common gs)) in
  let slug := resolveProjectSlug project in
  if decide (slug = EmptyString \/ GHP_ToolName hp = EmptyString) then (gs, [])
  else
    let line := buildToolLogLine
      (mkToolLogEntry now (CS_RoostSessionID (GM_Common gs)) "" (GHP_ToolUseID hp)
         (GHP_ToolName hp) kind (GHP_PermissionMode hp) durationMs
         (summariseToolInput (GHP_ToolName hp) toolInput) "") in
    (gs, [EffToolLogAppend GeminiDriverName slug line]).

(** The SessionStart and BeforeAgent cases of [handleGeminiHookEvent]. *)
Definition geminiSessionStart (gs : GeminiState) (ts : Time) : GeminiState * list Effect :=
  let gs := gs <| GM_PendingTools := ∅ |> <| GM_CurrentTool := "" |> in
  let '(gs, effs) := startGeminiTranscriptParse (setStatus gs StatusIdle ts) in
  let target := CS_StartDir (GM_Common gs) in
  if bool_decide (target <> EmptyString) && negb (CS_BranchInFlight (GM_Common gs))
  then (gs <| GM_Common := GM_Common gs <| CS_BranchInFlight := true |>
                                        <| CS_BranchTarget := target |> |>,
        effs ++ [startJob (BranchDetectInput target)])
  else (gs, effs).

Definition geminiBeforeAgent (gs : GeminiState) (prompt : string) (ts : Time)
    : GeminiState * list Effect :=
  let gs := gs <| GM_Common := GM_Common gs <| CS_LastPrompt := Strings.TrimSpace prompt |> |> in
  let gs := setStatus gs StatusRunning ts in
  let turns := userOnlyTurns (appendHookPromptTurn (GM_RecentTurns gs) prompt) 2 in
  let '(effs, inFlight) :=
    enqueueSummaryJob [] (CS_SummaryInFlight (GM_Common gs))
      (formatSummaryPrompt (CS_Summary (GM_Common gs)) turns) in
  (gs <| GM_Common := GM_Common gs <| CS_SummaryInFlight := inFlight |> |>, effs).

Definition handleGeminiHookEvent (gs : GeminiState) (hp : geminiHookPayload) (ts : Time)
    : GeminiState * list Effect :=
  let ev := GHP_HookEventName hp in
  if String.eqb ev "SessionStart" then geminiSessionStart gs ts
  else if String.eqb ev "BeforeAgent" then geminiBeforeAgent gs (GHP_Prompt hp) ts
  else if String.eqb ev "BeforeTool" then
    let gs := gs <| GM_CurrentTool := Strings.TrimSpace (GHP_ToolName hp) |> in
    (handleGeminiPendingTool (setStatus gs StatusRunning ts) hp ts, [])
  else if String.eqb ev "AfterTool" then emitGeminiToolLog (setStatus gs StatusRunning ts) hp ts
  else if String.eqb ev "AfterAgent" then
    let c := GM_Common gs in
    let gs := gs <| GM_Common := c <| CS_LastAssistantMessage :=
                      orElse (Strings.TrimSpace (GHP_PromptResponse hp)) (CS_LastAssistantMessage c) |> |>
                 <| GM_CurrentTool := "" |> <| GM_PendingTools := ∅ |> in
    startGeminiTranscriptParse (setStatus gs StatusWaiting ts)
  else if String.eqb ev "Notification" then
    if String.eqb (GHP_NotificationType hp) "ToolPermission"
    then (setStatus (markGeminiPermissionPrompt gs) StatusPending ts, [])
    else (gs, [])
  else if String.eqb ev "SessionEnd" then
    (setStatus (gs <| GM_CurrentTool := "" |> <| GM_PendingTools := ∅ |>) StatusStopped ts, [])
  else (gs, []).

Definition handleHook (gs : GeminiState) (ctx : FrameContext) (ts : Time)
    (roostSessionID payload : string) : GeminiState * list Effect :=
  let hp := parseGeminiHookPayload payload in
  let pre := mkHookPreamble (GHP_SessionID hp) (GHP_HookEventName hp)
               (if Ctx_IsRoot ctx then GHP_TranscriptPath hp else "") in
  match applyHookPreamble (GM_Common gs) pre ts roostSessionID with
  | None => (gs, [])
  | Some c =>
    let gs := gs <| GM_Common := c |> <| GM_GeminiSessionID := GHP_SessionID hp |> in
    if negb (Ctx_IsRoot ctx) then (gs, [])
    else
      let '(gs, effs) := watchGeminiTranscript gs in
      let '(gs, effs') := handleGeminiHookEvent gs hp ts in
      let line := Strings.TrimSpace (formatLog hp) in
      (gs, effs ++ effs' ++ (if decide (line = EmptyString) then [] else [EffEventLogAppend "" line]))
  end.

Definition handleJobResult (gs : GeminiState) (result : DriverJobResult) (err : option error)
    (now : Time) : GeminiState :=
  match commonJobResult (GM_Common gs) result err now with
  | Some c => gs <| GM_Common := c |>
  | None =>
    match result with
    | ResultGeminiTranscript r =>
      let gs := gs <| GM_TranscriptInFlight := false |> in
      match err with
      | Some _ => gs
      | None =>
        let c := GM_Common gs in
        gs <| GM_Common := c
                <| CS_Title := orElse (GTP_Title r) (CS_Title c) |>
                <| CS_LastPrompt := orElse (GTP_LastPrompt r) (CS_LastPrompt c) |>
                <| CS_LastAssistantMessage :=
                     orElse (GTP_LastAssistantMessage r) (CS_LastAssistantMessage c) |> |>
           <| GM_StatusLine := GTP_StatusLine r |> <| GM_RecentTurns := GTP_RecentTurns r |>
           <| GM_CurrentTool := GTP_CurrentTool r |>
      end
    | _ => gs
    end
  end.

Definition handleTranscriptChanged (gs : GeminiState) (evPath : string) : GeminiState * list Effect :=
  let path := CS_TranscriptPath (GM_Common gs) in
  if decide (path <> EmptyString /\ evPath <> EmptyString /\ path <> evPath) then (gs, [])
  else watchAndParse gs.

(** ** Step *)

Definition stepRoot (gs : GeminiState) (ctx : FrameContext) (ev : DriverEvent)
    : GeminiState * list Effect :=
  match ev with
  | DEvHook _ ts roost payload => handleHook gs ctx ts roost payload
  | DEvTick now watched project _ _ =>
    let '(c, effs) := HandleTick (GM_Common gs) now watched project in
    (gs <| GM_Common := c |>, effs)
  | DEvFrameOsc _ title _ now => (handleWindowTitle gs title now, [])
  | DEvFileChanged path => handleTranscriptChanged gs path
  | DEvJobResult result err now => (handleJobResult gs result err now, [])
  | DEvWorktreeResolved startDir name =>
    (gs <| GM_Common := ApplyWorktreeResolved (GM_Common gs) startDir name |>, [])
  | DEvCommandExited code ts =>
    (gs <| GM_Common := ApplyCommandExited (GM_Common gs) code ts |>, [])
  | _ => (gs, [])
  end.

Definition Step (d : GeminiDriver) (prev : DriverState) (ctx : FrameContext) (ev : DriverEvent)
    : DriverState * list Effect * View :=
  let gs := match asState prev with Some gs => gs | None => newState 0 end in
  let '(gs, effs) :=
    if Ctx_IsRoot ctx then stepRoot gs ctx ev
    else match ev with
         | DEvHook _ ts roost payload => handleHook gs ctx ts roost payload
         | _ => (gs, [])
         end in
  (toState gs, effs, view d gs).

Definition WarmStartRecover (s : DriverState) (now : Time) : GeminiState * list Effect :=
  watchAndParse match asState s with Some gs => gs | None => newState now end.

Definition driver (d : GeminiDriver) : Driver := {|
  Driver_Name := GeminiDriverName;
  Driver_DisplayName := GeminiDriverName;
  Driver_NewState := fun now => toState (newState now);
  Driver_Step := Step d;
  Driver_Status := Status;
  Driver_PrepareLaunch := PrepareLaunch;
  Driver_CreateSessionPlanner := Some {| ClientState.PrepareCreate :=
    fun s _ project command options => PrepareCreate s project command options |};
  Driver_Forkable := None;
  Driver_StartDirAware := Some {| ClientState.StartDir := StartDir;
    ClientState.WithStartDir := WithStartDir |};
  Driver_BootstrapSessionStart := None;
  Driver_View := ViewOf d;
  Driver_Persist := Persist;
  Driver_Restore := fun bag now => toState (Restore bag now);
  Driver_WarmStartRecoverer := Some (fun s now =>
    let '(gs, effs) := WarmStartRecover s now in (toState gs, effs));
  Driver_ColdStartRecoverer := None;
|}.
End gemini.
End Gemini.
