(* ===== verification/DriverRegistry.v ===== *)
(** * client/driver/register.go: the shipped drivers and their contract

    [RegisterDefaults] and the registration of the shell driver at boot
    (cmd/server/coordinator.go), and what the reducer may rely on of every
    driver they register: [DriverLaws], proved for each of the five. *)

From S2P Require Import Prelude GoStd GoText ClientView ClientState ClientReduce ClientInv ClientGraph ClientSteps ClientFrames DriverTypes DriverText DriverCommon DriverShell DriverClaude DriverCodex DriverGemini.
Open Scope Z_scope.

Section registry.
Context {DT : DriverTypes} {DE : DriverEnv}.

(** [RegisterOptions]; [ShowThinking] is decoded from [DriverConfigs]. *)
Record RegisterOptions := mkRegisterOptions {
  Opts_Home : string;
  Opts_EventLogDir : string;
  Opts_IdleThreshold : Duration;
  Opts_ShowThinking : bool;
  Opts_Pager : string;
}.

Definition claudeDriver (o : RegisterOptions) : Driver :=
  Claude.driver (Claude.mkClaudeDriver (Opts_Home o) (Opts_EventLogDir o) (Opts_ShowThinking o)
                   (Opts_Pager o)).
Definition codexDriver (o : RegisterOptions) : Driver :=
  Codex.driver (Codex.mkCodexDriver (Opts_EventLogDir o)).
Definition geminiDriver (o : RegisterOptions) : Driver :=
  Gemini.driver (Gemini.mkGeminiDriver (Opts_EventLogDir o)).
Definition genericDriver (o : RegisterOptions) (name : string) : Driver :=
  Generic.driver (Generic.mkGenericDriver name name (Opts_IdleThreshold o)).

(** The body of [registerOnce.Do]. *)
Definition RegisterDefaults (o : RegisterOptions) (r : Registry) : option Registry :=
  r ← Register r (claudeDriver o);
  r ← Register r (codexDriver o);
  r ← Register r (geminiDriver o);
  r ← Register r (genericDriver o "");
  Some (RegisterDefaultFactory r (fun command => Some (genericDriver o (FirstToken command)))).

Definition emptyRegistry : Registry := mkRegistry ∅ None.

(** [startSession]: the shell driver under its display name. *)
Definition shellDriver (o : RegisterOptions) (display : string) : Driver :=
  Shell.driver (Shell.mkShellDriver ShellDriverName display (Opts_IdleThreshold o)).

Definition bootRegistry (o : RegisterOptions) (display : string) : option Registry :=
  r ← RegisterDefaults o emptyRegistry; Register r (shellDriver o display).

(** ** Lookup *)

(** The registry that boot leaves behind. *)
Definition shippedRegistry (o : RegisterOptions) (display : string) : Registry :=
  mkRegistry
    (<[ShellDriverName := shellDriver o display]>
      (<[""%string := genericDriver o ""]>
        (<[GeminiDriverName := geminiDriver o]>
          (<[CodexDriverName := codexDriver o]>
            {[ClaudeDriverName := claudeDriver o]}))))
    (Some (fun command => Some (genericDriver o (FirstToken command)))).

Lemma bootRegistry_eq o display : bootRegistry o display = Some (shippedRegistry o display).
Proof.
  unfold bootRegistry, RegisterDefaults, Register, RegisterDefaultFactory, emptyRegistry.
  cbn [driverRegistry Driver_Name claudeDriver Claude.driver defaultFactory].
  rewrite lookup_empty. cbn [mbind option_bind].
  repeat (cbn [driverRegistry Driver_Name codexDriver geminiDriver genericDriver shellDriver
             Codex.driver Gemini.driver Generic.driver Shell.driver
             Generic.name Shell.name defaultFactory];
          rewrite ?lookup_insert_ne, lookup_empty by done; cbn [mbind option_bind]).
  unfold shippedRegistry. by rewrite insert_empty.
Qed.

(** Which driver serves a command. *)
Definition shippedDriver (o : RegisterOptions) (display command : string) : Driver :=
  let name := FirstToken command in
  if decide (name = ShellDriverName) then shellDriver o display
  else if decide (name = GeminiDriverName) then geminiDriver o
  else if decide (name = CodexDriverName) then codexDriver o
  else if decide (name = ClaudeDriverName) then claudeDriver o
  else genericDriver o name.

Lemma shipped_GetDriver o display command :
  GetDriver (shippedRegistry o display) command = Some (shippedDriver o display command).
Proof.
  unfold GetDriver, shippedRegistry, shippedDriver. cbn [driverRegistry defaultFactory].
  destruct (decide (FirstToken command = ShellDriverName)) as [->|H1].
  { by rewrite lookup_insert_eq. }
  rewrite lookup_insert_ne by congruence.
  destruct (decide (FirstToken command = ""%string)) as [->|H2].
  { by rewrite lookup_insert_eq. }
  rewrite lookup_insert_ne by congruence.
  destruct (decide (FirstToken command = GeminiDriverName)) as [->|H3].
  { by rewrite lookup_insert_eq. }
  rewrite lookup_insert_ne by congruence.
  destruct (decide (FirstToken command = CodexDriverName)) as [->|H4].
  { by rewrite lookup_insert_eq. }
  rewrite lookup_insert_ne by congruence.
  destruct (decide (FirstToken command = ClaudeDriverName)) as [->|H5].
  { by rewrite lookup_singleton_eq. }
  by rewrite lookup_singleton_ne by congruence.
Qed.

(** ** The contract *)

(** Effects a driver may return: it never answers a client, touches the
    session graph or a process. *)
Definition driverEffect (eff : Effect) : bool :=
  match eff with
  | EffStartJob _ _ | EffWatchFile _ _ _ | EffEventLogAppend _ _ | EffToolLogAppend _ _ _
  | EffPushDriver _ _ => true
  | _ => false
  end.

(** [owns ds]: [ds] has the driver's concrete state type. *)
Class DriverLaws (drv : Driver) (owns : DriverState -> Prop) : Prop := {
  dl_new now : owns (Driver_NewState drv now);
  dl_step ds ctx ev : owns (Driver_Step drv ds ctx ev).1.1;
  dl_effects ds ctx ev : forallb driverEffect (Driver_Step drv ds ctx ev).1.2 = true;
  dl_status ds ctx ev : owns ds -> View_Status (Driver_Step drv ds ctx ev).2
                                   = Driver_Status drv (Driver_Step drv ds ctx ev).1.1;
  dl_crash ds ctx code ts :
    Ctx_IsRoot ctx = true -> code <> 0 ->
    Driver_Status drv (Driver_Step drv ds ctx (DEvCommandExited code ts)).1.1 = StatusStopped;
  dl_child_crash ds ctx code ts :
    owns ds -> Ctx_IsRoot ctx = false ->
    (Driver_Step drv ds ctx (DEvCommandExited code ts)).1 = (ds, []);
  dl_create planner ds sid project command options ds' launch :
    Driver_CreateSessionPlanner drv = Some planner ->
    PrepareCreate planner ds sid project command options = inl (ds', launch) -> owns ds';
  dl_fork fk ds now : Driver_Forkable drv = Some fk -> owns (ForkChildState fk ds now);
  dl_boot boot ds ctx now :
    Driver_BootstrapSessionStart drv = Some boot -> owns (boot ds ctx now).1;
}.

(** *** Effects of the shared operations *)

Definition allowed (effs : list Effect) : Prop := forallb driverEffect effs = true.

Lemma allowed_app l1 l2 : allowed l1 -> allowed l2 -> allowed (l1 ++ l2).
Proof. unfold allowed. intros H1 H2. by rewrite forallb_app, H1, H2. Qed.

Lemma HandleTick_allowed c now watched project : allowed (HandleTick c now watched project).2.
Proof. unfold HandleTick. repeat case_match; done. Qed.

Lemma enqueueSummaryJob_allowed effs inFlight prompt :
  allowed effs -> allowed (enqueueSummaryJob effs inFlight prompt).1.
Proof. intros H. unfold enqueueSummaryJob. case_match; [done|]. by apply allowed_app. Qed.

Lemma ApplyCommandExited_status c code ts :
  code <> 0 -> CS_Status (ApplyCommandExited c code ts) = StatusStopped.
Proof.
  intros H. unfold ApplyCommandExited. destruct (Z.eqb_spec code 0); [done|]. by case_match.
Qed.

(** *** Generic and shell *)

Definition ownsGeneric (ds : DriverState) : Prop := is_Some (Generic.asState ds).
Definition ownsShell (ds : DriverState) : Prop := is_Some (Shell.asState ds).

Lemma generic_owned ds : ownsGeneric ds -> exists gs, ds = Some (DSGeneric gs).
Proof. intros [gs H]. destruct ds as [[]|]; try done. by eexists. Qed.
Lemma shell_owned ds : ownsShell ds -> exists ss, ds = Some (DSShell ss).
Proof. intros [ss H]. destruct ds as [[]|]; try done. by eexists. Qed.

#[export] Instance generic_laws d : DriverLaws (Generic.driver d) ownsGeneric.
Proof.
  split; cbn [Generic.driver Driver_NewState Driver_Step Driver_Status Driver_CreateSessionPlanner
    Driver_Forkable Driver_BootstrapSessionStart]; try done.
  - intros. by eexists.
  - intros. unfold Generic.Step. case_match. by eexists.
  - intros. unfold Generic.Step. destruct (if Ctx_IsRoot ctx then _ else _) as [gs effs] eqn:E.
    cbn. destruct (Ctx_IsRoot ctx); [|by simplify_eq].
    unfold Generic.stepRoot in E. destruct ev; simplify_eq/=; try done; case_match; simplify_eq/=; try done.
    pose proof (HandleTick_allowed (GS_Common (match Generic.asState ds with
      Some gs => gs | None => Generic.newState d 0 end)) now watched project) as HT.
    by destruct (HandleTick _ _ _ _); simplify_eq/=.
  - intros ds ctx ev _. unfold Generic.Step. by destruct (if Ctx_IsRoot ctx then _ else _) as [gs effs].
  - intros ds ctx code ts Hr Hc. unfold Generic.Step. rewrite Hr. cbn.
    by apply ApplyCommandExited_status.
  - intros ds ctx code ts [gs ->]%generic_owned Hr. unfold Generic.Step. by rewrite Hr.
  - intros planner ds sid project command options ds' launch [= <-]. cbn. intros [= <- _]. by eexists.
Qed.

#[export] Instance shell_laws d : DriverLaws (Shell.driver d) ownsShell.
Proof.
  split; cbn [Shell.driver Driver_NewState Driver_Step Driver_Status Driver_CreateSessionPlanner
    Driver_Forkable Driver_BootstrapSessionStart]; try done.
  - intros. by eexists.
  - intros. unfold Shell.Step. case_match. by eexists.
  - intros. unfold Shell.Step. destruct (if Ctx_IsRoot ctx then _ else _) as [ss effs] eqn:E.
    cbn. destruct (Ctx_IsRoot ctx); [|by simplify_eq].
    unfold Shell.stepRoot in E. destruct ev; simplify_eq/=; try done; case_match; simplify_eq/=; try done.
    pose proof (HandleTick_allowed (SS_Common (match Shell.asState ds with
      Some ss => ss | None => Shell.newState 0 end)) now watched project) as HT.
    by destruct (HandleTick _ _ _ _); simplify_eq/=.
  - intros ds ctx ev _. unfold Shell.Step. by destruct (if Ctx_IsRoot ctx then _ else _) as [ss effs].
  - intros ds ctx code ts Hr Hc. unfold Shell.Step. rewrite Hr. cbn.
    by apply ApplyCommandExited_status.
  - intros ds ctx code ts [ss ->]%shell_owned Hr. unfold Shell.Step. by rewrite Hr.
  - intros planner ds sid project command options ds' launch [= <-]. cbn. intros [= <- _]. by eexists.
Qed.

(** *** Claude *)

Definition ownsClaude (ds : DriverState) : Prop := is_Some (Claude.asState ds).
Lemma claude_owned ds : ownsClaude ds -> exists cs, ds = Some (DSClaude cs).
Proof. intros [cs H]. destruct ds as [[]|]; try done. by eexists. Qed.

Lemma claude_logEffects_allowed hp : allowed (Claude.logEffects hp).
Proof. unfold Claude.logEffects. by case_match. Qed.

Lemma claude_startTranscriptParse_allowed d cs : allowed (Claude.startTranscriptParse d cs).2.
Proof. unfold Claude.startTranscriptParse. repeat case_match; done. Qed.

Lemma claude_emitToolLog_allowed cs hp now kind : allowed (Claude.emitToolLog cs hp now kind).2.
Proof. unfold Claude.emitToolLog. by repeat case_match. Qed.

Lemma claude_handleToolLog_allowed cs hp now : allowed (Claude.handleToolLog cs hp now).2.
Proof.
  unfold Claude.handleToolLog. repeat case_match; try done; apply claude_emitToolLog_allowed.
Qed.

Lemma claude_handleStateChange_allowed d cs hp st now :
  allowed (Claude.handleStateChange d cs hp st now).2.
Proof.
  unfold Claude.handleStateChange. destruct (ParseStatus st) as [status ok].
  set (cs' := if ok then _ else _). pose proof (claude_startTranscriptParse_allowed d cs') as H.
  destruct (Claude.startTranscriptParse d cs'). cbn in *.
  apply allowed_app; [apply claude_logEffects_allowed|done].
Qed.

Lemma claude_handleUserPromptSubmit_allowed d cs hp now :
  allowed (Claude.handleUserPromptSubmit d cs hp now).2.
Proof.
  unfold Claude.handleUserPromptSubmit. cbv zeta.
  match goal with |- context [enqueueSummaryJob ?e ?b ?p] =>
    pose proof (enqueueSummaryJob_allowed e b p (claude_logEffects_allowed hp)) as H1;
    destruct (enqueueSummaryJob e b p) as [effs inFlight] end.
  match goal with |- context [Claude.startTranscriptParse ?d ?c] =>
    pose proof (claude_startTranscriptParse_allowed d c) as H2;
    destruct (Claude.startTranscriptParse d c) end.
  cbn [snd fst] in *. by apply allowed_app.
Qed.

Lemma claude_handleSessionStart_allowed d cs ctx hp now :
  allowed (Claude.handleSessionStart d cs ctx hp now).2.
Proof.
  unfold Claude.handleSessionStart. cbv zeta.
  match goal with |- context [let '(_, _) := ?x in _] => set (r := x) end.
  assert (allowed r.2) as H by (subst r; repeat case_match; done).
  destruct r as [cs' effs]. cbn [snd] in H.
  case_match; cbn [snd]; repeat apply allowed_app; done || apply claude_logEffects_allowed.
Qed.

Lemma claude_handleHook_allowed d cs ctx ts roost payload :
  allowed (Claude.handleHook d cs ctx ts roost payload).2.
Proof.
  unfold Claude.handleHook. case_decide; [done|]. destruct (negb _); [done|].
  destruct (String.eqb _ _); [apply claude_handleSessionStart_allowed|].
  destruct (Claude.staleHook _ _); [done|]. unfold Claude.handleOrderedHook.
  destruct (String.eqb _ _); [apply claude_handleUserPromptSubmit_allowed|].
  destruct (String.eqb _ _); [apply claude_logEffects_allowed|].
  destruct (existsb _ _); [apply claude_logEffects_allowed|].
  match goal with |- context [Claude.handleToolLog ?c ?h ?n] =>
    pose proof (claude_handleToolLog_allowed c h n) as H1;
    destruct (Claude.handleToolLog c h n) as [cs' effs] end. cbn [snd] in H1.
  case_decide; [by apply allowed_app; [apply claude_logEffects_allowed|]|].
  match goal with |- context [Claude.handleStateChange ?d ?c ?h ?s ?n] =>
    pose proof (claude_handleStateChange_allowed d c h s n) as H2;
    destruct (Claude.handleStateChange d c h s n) end. by apply allowed_app.
Qed.

Lemma claude_stepRoot_allowed d cs ctx ev : allowed (Claude.stepRoot d cs ctx ev).2.
Proof.
  destruct ev; cbn [Claude.stepRoot]; try done.
  - apply claude_handleHook_allowed.
  - pose proof (HandleTick_allowed (CL_Common cs) now watched project) as H.
    by destruct (HandleTick _ _ _ _).
  - unfold Claude.handleTranscriptChanged. repeat case_match; simplify_eq/=; done.
  - unfold Claude.handleStatusLineClick. by case_match.
Qed.

#[export] Instance claude_laws d : DriverLaws (Claude.driver d) ownsClaude.
Proof.
  split; cbn [Claude.driver Driver_NewState Driver_Step Driver_Status Driver_CreateSessionPlanner
    Driver_Forkable Driver_BootstrapSessionStart]; try done.
  - intros. by eexists.
  - intros. unfold Claude.Step. case_match. by eexists.
  - intros. unfold Claude.Step. set (cs := match Claude.asState ds with Some _ => _ | None => _ end).
    pose proof (claude_stepRoot_allowed d cs ctx ev) as H.
    destruct (Ctx_IsRoot ctx); [by destruct (Claude.stepRoot d cs ctx ev)|].
    destruct ev; try done. cbn [Claude.stepRoot] in H.
    by destruct (Claude.handleHook _ _ _ _ _ _).
  - intros ds ctx ev _. unfold Claude.Step.
    by destruct (if Ctx_IsRoot ctx then _ else _) as [cs effs].
  - intros ds ctx code ts Hr Hc. unfold Claude.Step. rewrite Hr. cbn.
    by apply ApplyCommandExited_status.
  - intros ds ctx code ts [cs ->]%claude_owned Hr. unfold Claude.Step. by rewrite Hr.
  - intros planner ds sid project command options ds' launch [= <-]. cbn. intros [= <- _]. by eexists.
  - intros fk ds now [= <-]. cbn. by eexists.
Qed.

(** *** Codex *)

Definition ownsCodex (ds : DriverState) : Prop := is_Some (Codex.asState ds).
Lemma codex_owned ds : ownsCodex ds -> exists cs, ds = Some (DSCodex cs).
Proof. intros [cs H]. destruct ds as [[]|]; try done. by eexists. Qed.

Lemma codex_startParse_allowed cs : allowed (Codex.startCodexTranscriptParse cs).2.
Proof. unfold Codex.startCodexTranscriptParse. by case_match. Qed.

Lemma codex_watch_allowed cs : allowed (Codex.watchCodexTranscript cs).2.
Proof. unfold Codex.watchCodexTranscript. by case_match. Qed.

Lemma codex_watchAndParse_allowed cs : allowed (Codex.watchAndParse cs).2.
Proof.
  unfold Codex.watchAndParse. pose proof (codex_watch_allowed cs) as H1.
  destruct (Codex.watchCodexTranscript cs) as [cs1 e1].
  pose proof (codex_startParse_allowed cs1) as H2.
  destruct (Codex.startCodexTranscriptParse cs1) as [cs2 e2]. by apply allowed_app.
Qed.

Lemma codex_applySessionStart_allowed cs ctx now : allowed (Codex.applySessionStart cs ctx now).2.
Proof.
  unfold Codex.applySessionStart. cbv zeta.
  match goal with |- context [Codex.startCodexTranscriptParse ?c] =>
    pose proof (codex_startParse_allowed c) as H1;
    destruct (Codex.startCodexTranscriptParse c) as [cs1 e1] end.
  case_match; [|done]. by apply allowed_app.
Qed.

Lemma codex_applyPrompt_allowed cs prompt ts : allowed (Codex.applyPrompt cs prompt ts).2.
Proof.
  unfold Codex.applyPrompt. cbv zeta.
  match goal with |- context [enqueueSummaryJob ?e ?b ?p] =>
    pose proof (enqueueSummaryJob_allowed e b p eq_refl) as H1;
    destruct (enqueueSummaryJob e b p) as [effs inFlight] end.
  match goal with |- context [Codex.startCodexTranscriptParse ?c] =>
    pose proof (codex_startParse_allowed c) as H2;
    destruct (Codex.startCodexTranscriptParse c) as [cs1 e1] end.
  by apply allowed_app.
Qed.

Lemma codex_toolCompleted_allowed cs tool ts :
  allowed (Codex.handleSubsystemToolCompleted cs tool ts).2.
Proof.
  unfold Codex.handleSubsystemToolCompleted, Codex.emitToolLog. repeat case_match; done.
Qed.

Lemma codex_applySubsystemKind_allowed cs ctx kind ts p :
  allowed (Codex.applySubsystemKind cs ctx kind ts p).2.
Proof.
  unfold Codex.applySubsystemKind.
  repeat (destruct (String.eqb kind _);
    [first [done | apply codex_applySessionStart_allowed | apply codex_applyPrompt_allowed
           | apply codex_toolCompleted_allowed]|]). done.
Qed.

Lemma codex_handleSubsystem_allowed cs ctx kind ts p :
  allowed (Codex.handleSubsystem cs ctx kind ts p).2.
Proof.
  unfold Codex.handleSubsystem. destruct (negb _); [done|]. cbv zeta.
  match goal with |- context [Codex.watchCodexTranscript ?c] =>
    pose proof (codex_watch_allowed c) as H1; destruct (Codex.watchCodexTranscript c) as [cs1 e1] end.
  match goal with |- context [Codex.applySubsystemKind ?c ?x ?k ?t ?q] =>
    pose proof (codex_applySubsystemKind_allowed c x k t q) as H2;
    destruct (Codex.applySubsystemKind c x k t q) as [cs2 e2] end.
  by apply allowed_app.
Qed.

Lemma codex_stepRoot_allowed cs ctx ev : allowed (Codex.stepRoot cs ctx ev).2.
Proof.
  destruct ev; cbn [Codex.stepRoot]; try done.
  - apply codex_handleSubsystem_allowed.
  - pose proof (HandleTick_allowed (CX_Common cs) now watched project) as HT.
    by destruct (HandleTick _ _ _ _).
  - unfold Codex.handleTranscriptChanged. case_match; [done|apply codex_watchAndParse_allowed].
Qed.

#[export] Instance codex_laws d : DriverLaws (Codex.driver d) ownsCodex.
Proof.
  split; cbn [Codex.driver Driver_NewState Driver_Step Driver_Status Driver_CreateSessionPlanner
    Driver_Forkable Driver_BootstrapSessionStart]; try done.
  - intros. by eexists.
  - intros. unfold Codex.Step. case_match. by eexists.
  - intros. unfold Codex.Step. set (cs := match Codex.asState ds with Some _ => _ | None => _ end).
    pose proof (codex_stepRoot_allowed cs ctx ev) as HA.
    destruct (Ctx_IsRoot ctx); [by destruct (Codex.stepRoot cs ctx ev)|].
    destruct ev; try done. cbn [Codex.stepRoot] in HA.
    by destruct (Codex.handleSubsystem _ _ _ _ _).
  - intros ds ctx ev _. unfold Codex.Step.
    by destruct (if Ctx_IsRoot ctx then _ else _) as [cs effs].
  - intros ds ctx code ts Hr Hc. unfold Codex.Step. rewrite Hr. cbn.
    by apply ApplyCommandExited_status.
  - intros ds ctx code ts [cs ->]%codex_owned Hr. unfold Codex.Step. by rewrite Hr.
  - intros planner ds sid project command options ds' launch [= <-]. cbn. intros [= <- _]. by eexists.
  - intros boot ds ctx now [= <-]. case_match. by eexists.
Qed.

(** *** Gemini *)

Definition ownsGemini (ds : DriverState) : Prop := is_Some (Gemini.asState ds).
Lemma gemini_owned ds : ownsGemini ds -> exists gs, ds = Some (DSGemini gs).
Proof. intros [gs H]. destruct ds as [[]|]; try done. by eexists. Qed.

Lemma gemini_startParse_allowed gs : allowed (Gemini.startGeminiTranscriptParse gs).2.
Proof. unfold Gemini.startGeminiTranscriptParse. by case_match. Qed.

Lemma gemini_watch_allowed gs : allowed (Gemini.watchGeminiTranscript gs).2.
Proof. unfold Gemini.watchGeminiTranscript. by case_match. Qed.

Lemma gemini_watchAndParse_allowed gs : allowed (Gemini.watchAndParse gs).2.
Proof.
  unfold Gemini.watchAndParse. pose proof (gemini_watch_allowed gs) as H1.
  destruct (Gemini.watchGeminiTranscript gs) as [gs1 e1].
  pose proof (gemini_startParse_allowed gs1) as H2.
  destruct (Gemini.startGeminiTranscriptParse gs1) as [gs2 e2]. by apply allowed_app.
Qed.

Lemma gemini_sessionStart_allowed gs ts : allowed (Gemini.geminiSessionStart gs ts).2.
Proof.
  unfold Gemini.geminiSessionStart. cbv zeta.
  match goal with |- context [Gemini.startGeminiTranscriptParse ?c] =>
    pose proof (gemini_startParse_allowed c) as H1;
    destruct (Gemini.startGeminiTranscriptParse c) as [gs1 e1] end.
  case_match; [|done]. by apply allowed_app.
Qed.

Lemma gemini_beforeAgent_allowed gs prompt ts : allowed (Gemini.geminiBeforeAgent gs prompt ts).2.
Proof.
  unfold Gemini.geminiBeforeAgent. cbv zeta.
  match goal with |- context [enqueueSummaryJob ?e ?b ?p] =>
    pose proof (enqueueSummaryJob_allowed e b p eq_refl) as H1;
    by destruct (enqueueSummaryJob e b p) as [effs inFlight] end.
Qed.

Lemma gemini_emitToolLog_allowed gs hp ts : allowed (Gemini.emitGeminiToolLog gs hp ts).2.
Proof. unfold Gemini.emitGeminiToolLog. by repeat case_match. Qed.

Lemma gemini_hookEvent_allowed gs hp ts : allowed (Gemini.handleGeminiHookEvent gs hp ts).2.
Proof.
  unfold Gemini.handleGeminiHookEvent.
  repeat (destruct (String.eqb (GHP_HookEventName hp) _);
    [first [done | apply gemini_sessionStart_allowed | apply gemini_beforeAgent_allowed
           | apply gemini_emitToolLog_allowed | apply gemini_startParse_allowed | by case_match]|]).
  done.
Qed.

Lemma gemini_handleHook_allowed gs ctx ts roost payload :
  allowed (Gemini.handleHook gs ctx ts roost payload).2.
Proof.
  unfold Gemini.handleHook. cbv zeta. destruct (applyHookPreamble _ _ _ _) as [c|]; [|done].
  destruct (negb _); [done|].
  match goal with |- context [Gemini.watchGeminiTranscript ?c] =>
    pose proof (gemini_watch_allowed c) as H1; destruct (Gemini.watchGeminiTranscript c) as [gs1 e1] end.
  match goal with |- context [Gemini.handleGeminiHookEvent ?c ?h ?t] =>
    pose proof (gemini_hookEvent_allowed c h t) as H2;
    destruct (Gemini.handleGeminiHookEvent c h t) as [gs2 e2] end.
  repeat apply allowed_app; [done..|]. by case_match.
Qed.

Lemma gemini_stepRoot_allowed gs ctx ev : allowed (Gemini.stepRoot gs ctx ev).2.
Proof.
  destruct ev; cbn [Gemini.stepRoot]; try done.
  - apply gemini_handleHook_allowed.
  - pose proof (HandleTick_allowed (GM_Common gs) now watched project) as HT.
    by destruct (HandleTick _ _ _ _).
  - unfold Gemini.handleTranscriptChanged. case_match; [done|apply gemini_watchAndParse_allowed].
Qed.

#[export] Instance gemini_laws d : DriverLaws (Gemini.driver d) ownsGemini.
Proof.
  split; cbn [Gemini.driver Driver_NewState Driver_Step Driver_Status Driver_CreateSessionPlanner
    Driver_Forkable Driver_BootstrapSessionStart]; try done.
  - intros. by eexists.
  - intros. unfold Gemini.Step. case_match. by eexists.
  - intros. unfold Gemini.Step. set (gs := match Gemini.asState ds with Some _ => _ | None => _ end).
    pose proof (gemini_stepRoot_allowed gs ctx ev) as HA.
    destruct (Ctx_IsRoot ctx); [by destruct (Gemini.stepRoot gs ctx ev)|].
    destruct ev; try done. cbn [Gemini.stepRoot] in HA.
    by destruct (Gemini.handleHook _ _ _ _ _).
  - intros ds ctx ev _. unfold Gemini.Step.
    by destruct (if Ctx_IsRoot ctx then _ else _) as [gs effs].
  - intros ds ctx code ts Hr Hc. unfold Gemini.Step. rewrite Hr. cbn.
    by apply ApplyCommandExited_status.
  - intros ds ctx code ts [gs ->]%gemini_owned Hr. unfold Gemini.Step. by rewrite Hr.
  - intros planner ds sid project command options ds' launch [= <-]. cbn. intros [= <- _]. by eexists.
Qed.

(** *** The registry *)

(** [ds] has the state type of the driver that serves [command]. *)
Definition typedFor (command : string) (ds : DriverState) : Prop :=
  let name := FirstToken command in
  if decide (name = ShellDriverName) then ownsShell ds
  else if decide (name = GeminiDriverName) then ownsGemini ds
  else if decide (name = CodexDriverName) then ownsCodex ds
  else if decide (name = ClaudeDriverName) then ownsClaude ds
  else ownsGeneric ds.

Lemma shipped_laws o display command :
  DriverLaws (shippedDriver o display command) (typedFor command).
Proof. unfold shippedDriver, typedFor. repeat case_decide; apply _. Qed.

(** Setting the start directory keeps the type, whichever driver does it. *)
Lemma shipped_WithStartDir o display command command' wp ds dir :
  Driver_StartDirAware (shippedDriver o display command') = Some wp ->
  typedFor command ds -> typedFor command (WithStartDir wp ds dir).
Proof.
  intros Hw Ht. assert (WithStartDir wp ds dir = ds \/
    match ds, WithStartDir wp ds dir with
    | Some (DSGeneric _), Some (DSGeneric _) | Some (DSShell _), Some (DSShell _)
    | Some (DSClaude _), Some (DSClaude _) | Some (DSCodex _), Some (DSCodex _)
    | Some (DSGemini _), Some (DSGemini _) => True
    | _, _ => False
    end) as Hk.
  { unfold shippedDriver in Hw. repeat case_decide; injection Hw as <-; cbn;
      destruct ds as [[]|]; cbn; auto. }
  destruct Hk as [->|Hk]; [done|]. unfold typedFor, ownsShell, ownsGemini, ownsCodex, ownsClaude,
    ownsGeneric in *.
  destruct ds as [[]|], (WithStartDir wp _ dir) as [[]|]; try done; repeat case_decide;
    try done; by eexists.
Qed.

#[export] Instance shipped_typed o display :
  DriverInvariant (shippedRegistry o display) typedFor.
Proof.
  pose proof (shipped_laws o display) as Hlaws.
  split; intros *; rewrite !shipped_GetDriver; intros [= <-]; try pose proof (Hlaws cmd).
  - apply dl_new.
  - intros _. apply dl_step.
  - intros Hp _. by apply dl_create.
  - apply shipped_WithStartDir.
  - intros Hf _. by apply dl_fork.
  - intros Hb _. by apply dl_boot.
Qed.

Lemma allowed_quiet effs : allowed effs -> omap answers effs = [].
Proof.
  unfold allowed. induction effs as [|eff l IH]; [done|]. cbn [forallb].
  intros [H1 H2]%andb_prop. destruct eff; try done; exact (IH H2).
Qed.

(** Shipped drivers leave replies to the reducer. *)
Lemma shipped_quiet o display : quiet_drivers (shippedRegistry o display).
Proof.
  intros cmd drv. rewrite shipped_GetDriver. intros [= <-] ds ctx ev.
  pose proof (shipped_laws o display cmd) as HL. apply allowed_quiet, dl_effects.
Qed.
End registry.
