(* ===== verification/DriverPersist.v ===== *)
(** * client/driver: persistence round trips

    Every driver writes its state into a bag of strings and reads it back at
    the next start.  What survives is the persistent part of the state: times
    to the second, the status if it is one of the defined ones, none of the
    in-flight flags or cached transcript data. *)

From S2P Require Import Prelude GoStd GoText GoTime ClientView ClientState DriverTypes DriverText DriverCommon DriverShell DriverClaude DriverCodex DriverGemini.
Open Scope Z_scope.

(** ** Bags *)

Definition commonKeys : list string :=
  ["roost_session_id"; "start_dir"; "transcript_path"; "worktree_name"; "status";
   "status_changed_at"; "branch_tag"; "branch_bg"; "branch_fg"; "branch_target"; "branch_at";
   "branch_is_worktree"; "branch_parent_branch"; "summary"; "title"; "last_prompt";
   "last_assistant_message"; "last_hook_event"; "last_hook_at"]%string.

Lemma putStr_lookup_ne k k' v out : k <> k' -> putStr k v out !! k' = out !! k'.
Proof. intros. unfold putStr. case_decide; [done|]. by rewrite lookup_insert_ne. Qed.
Lemma putTime_lookup_ne k k' t out : k <> k' -> putTime k t out !! k' = out !! k'.
Proof. intros. unfold putTime. case_match; [done|]. by rewrite lookup_insert_ne. Qed.
Lemma putFlag_lookup_ne k k' b out : k <> k' -> putFlag k b out !! k' = out !! k'.
Proof. intros. destruct b; [|done]. by apply lookup_insert_ne. Qed.

Lemma getStr_putStr k v out : out !! k = None -> getStr (putStr k v out) k = v.
Proof.
  intros E. unfold getStr, putStr. case_decide; [subst; by rewrite E|]. by rewrite lookup_insert_eq.
Qed.
Lemma getFlag_putFlag k b out :
  out !! k = None -> bool_decide (getStr (putFlag k b out) k = "1"%string) = b.
Proof. intros E. unfold getStr. destruct b; simpl; [by rewrite lookup_insert_eq|by rewrite E]. Qed.

Lemma fixed_digits_nonempty w n rest :
  rest <> EmptyString -> rfc3339.fixed_digits w n rest <> EmptyString.
Proof. revert n rest. induction w as [|w IH]; intros n rest H; [done|]. by apply IH. Qed.

Lemma appendInt_nonempty x w rest : rest <> EmptyString -> rfc3339.appendInt x w rest <> EmptyString.
Proof.
  intros H. unfold rfc3339.appendInt. case_match; [done|].
  case_match; [by apply fixed_digits_nonempty|]. by intros [_ E]%str_app_nil_inv.
Qed.

Lemma Format_nonempty t : rfc3339.Format t <> EmptyString.
Proof.
  unfold rfc3339.Format. destruct (calendar.date_of_days _) as [[y m] d].
  by apply appendInt_nonempty.
Qed.

(** A time read back from the bag, [old] being the value before. *)
Definition restoredTime (t old : Time) : Time :=
  if time.IsZero t then old else rfc3339.truncate_second t.

Lemma getTime_putTime k t out old :
  out !! k = None -> rfc3339.formattable t -> getTime (putTime k t out) k old = restoredTime t old.
Proof.
  intros E Hf. unfold getTime, getStr, putTime, restoredTime. destruct (time.IsZero t).
  - by rewrite E.
  - rewrite lookup_insert_eq. cbn [default from_option Datatypes.id].
    rewrite decide_False by apply Format_nonempty. by rewrite rfc3339.Parse_Format.
Qed.

Ltac bag_ne := repeat first [rewrite putStr_lookup_ne by done | rewrite putTime_lookup_ne by done
  | rewrite putFlag_lookup_ne by done | rewrite lookup_insert_ne by done]; try apply lookup_empty.

(** Reading a key past the entries of other keys. *)
Lemma getStr_eq bag bag' k : bag !! k = bag' !! k -> getStr bag k = getStr bag' k.
Proof. unfold getStr. by intros ->. Qed.
Lemma getTime_eq bag bag' k old : bag !! k = bag' !! k -> getTime bag k old = getTime bag' k old.
Proof. unfold getTime. intros E. by rewrite (getStr_eq _ _ _ E). Qed.

(** ** The common part *)

(** The instants a state persists are in the years RFC 3339 can write. *)
Definition timesFormattable (c : CommonState) : Prop :=
  rfc3339.formattable (CS_StatusChangedAt c) /\ rfc3339.formattable (CS_BranchAt c) /\
  rfc3339.formattable (CS_LastHookAt c).

(** What [RestoreCommon] brings back of [c] into the fresh state [c0]. *)
Definition survives (c0 c : CommonState) : CommonState :=
  c <| CS_Project := CS_Project c0 |>
    <| CS_Status := if known_status (CS_Status c) then CS_Status c else CS_Status c0 |>
    <| CS_StatusChangedAt := restoredTime (CS_StatusChangedAt c) (CS_StatusChangedAt c0) |>
    <| CS_BranchAt := restoredTime (CS_BranchAt c) (CS_BranchAt c0) |>
    <| CS_LastHookAt := restoredTime (CS_LastHookAt c) (CS_LastHookAt c0) |>
    <| CS_BranchInFlight := CS_BranchInFlight c0 |>
    <| CS_SummaryInFlight := CS_SummaryInFlight c0 |>.

(** [bag] agrees with what [c] writes. *)
Definition holdsCommon (c : CommonState) (bag : gmap string string) : Prop :=
  forall k, k ∈ commonKeys -> bag !! k = PersistCommon c ∅ !! k.

Lemma holdsCommon_put c bag bag' :
  holdsCommon c bag -> (forall k, k ∈ commonKeys -> bag' !! k = bag !! k) -> holdsCommon c bag'.
Proof. intros H E k Hk. rewrite (E _ Hk). by apply H. Qed.

Lemma status_lookup c : PersistCommon c ∅ !! "status"%string = Some (Status_String (CS_Status c)).
Proof. unfold PersistCommon. cbv zeta. bag_ne. apply lookup_insert_eq. Qed.

Lemma Status_String_nonempty s : Status_String s <> EmptyString.
Proof. unfold Status_String. repeat case_match; done. Qed.

Lemma holds_nonempty c bag : holdsCommon c bag -> bag <> ∅.
Proof.
  intros H E. assert ("status"%string ∈ commonKeys) as Hk by (vm_compute; repeat constructor).
  specialize (H _ Hk). rewrite status_lookup, E, lookup_empty in H. done.
Qed.

(** Each key of the bag [c] writes. *)
Lemma persisted_strings c :
  getStr (PersistCommon c ∅) "roost_session_id" = CS_RoostSessionID c /\
  getStr (PersistCommon c ∅) "start_dir" = CS_StartDir c /\
  getStr (PersistCommon c ∅) "transcript_path" = CS_TranscriptPath c /\
  getStr (PersistCommon c ∅) "worktree_name" = CS_WorktreeName c /\
  getStr (PersistCommon c ∅) "branch_tag" = CS_BranchTag c /\
  getStr (PersistCommon c ∅) "branch_bg" = CS_BranchBG c /\
  getStr (PersistCommon c ∅) "branch_fg" = CS_BranchFG c /\
  getStr (PersistCommon c ∅) "branch_target" = CS_BranchTarget c /\
  getStr (PersistCommon c ∅) "branch_parent_branch" = CS_BranchParentBranch c /\
  getStr (PersistCommon c ∅) "summary" = CS_Summary c /\
  getStr (PersistCommon c ∅) "title" = CS_Title c /\
  getStr (PersistCommon c ∅) "last_prompt" = CS_LastPrompt c /\
  getStr (PersistCommon c ∅) "last_assistant_message" = CS_LastAssistantMessage c /\
  getStr (PersistCommon c ∅) "last_hook_event" = CS_LastHookEvent c.
Proof.
  unfold PersistCommon. cbv zeta.
  split_and!; (etrans; [apply getStr_eq; bag_ne; reflexivity|]; apply getStr_putStr; bag_ne).
Qed.

Lemma persisted_rest c (Hf : timesFormattable c) :
  bool_decide (getStr (PersistCommon c ∅) "branch_is_worktree" = "1"%string)
    = CS_BranchIsWorktree c /\
  (forall old, getTime (PersistCommon c ∅) "status_changed_at" old
               = restoredTime (CS_StatusChangedAt c) old) /\
  (forall old, getTime (PersistCommon c ∅) "branch_at" old = restoredTime (CS_BranchAt c) old) /\
  (forall old, getTime (PersistCommon c ∅) "last_hook_at" old = restoredTime (CS_LastHookAt c) old).
Proof.
  destruct Hf as (H1 & H2 & H3). unfold PersistCommon. cbv zeta. split_and!.
  - erewrite getStr_eq; [|bag_ne; reflexivity]. apply getFlag_putFlag. bag_ne.
  - intros old. etrans; [apply getTime_eq; bag_ne; reflexivity|]. apply getTime_putTime; [bag_ne|done].
  - intros old. etrans; [apply getTime_eq; bag_ne; reflexivity|]. apply getTime_putTime; [bag_ne|done].
  - intros old. apply getTime_putTime; [bag_ne|done].
Qed.

Lemma RestoreCommon_holds c0 c bag :
  timesFormattable c -> holdsCommon c bag -> RestoreCommon c0 bag = survives c0 c.
Proof.
  intros Hf H. unfold RestoreCommon. rewrite decide_False by (by eapply holds_nonempty).
  assert (forall k, k ∈ commonKeys -> getStr bag k = getStr (PersistCommon c ∅) k) as Hs
    by (intros k Hk; by apply getStr_eq, H).
  assert (forall k old, k ∈ commonKeys -> getTime bag k old = getTime (PersistCommon c ∅) k old) as Ht
    by (intros k old Hk; by apply getTime_eq, H).
  pose proof (persisted_strings c) as (E1 & E2 & E3 & E4 & E5 & E6 & E7 & E8 & E9 & E10 & E11 & E12 & E13 & E14).
  destruct (persisted_rest c Hf) as (F1 & F2 & F3 & F4).
  assert (getStr (PersistCommon c ∅) "status" = Status_String (CS_Status c)) as Est
    by (unfold getStr; by rewrite status_lookup).
  rewrite !Hs, !Ht by (vm_compute; repeat constructor).
  rewrite E1, E2, E3, E4, E5, E6, E7, E8, E9, E10, E11, E12, E13, E14, F1, F2, F3, F4, Est.
  rewrite decide_False by apply Status_String_nonempty. rewrite ParseStatus_String.
  unfold survives. by destruct (known_status (CS_Status c)), c.
Qed.

(** ** The drivers *)

Section drivers.
Context {DT : DriverTypes} {DE : DriverEnv}.

Definition commonOf (ds : DriverStates) : CommonState :=
  match ds with
  | DSGeneric s => GS_Common s
  | DSShell s => SS_Common s
  | DSClaude s => CL_Common s
  | DSCodex s => CX_Common s
  | DSGemini s => GM_Common s
  end.

(** [Persist] and [Restore] of the driver whose state it is. *)
Definition persistOf (ds : DriverStates) : option (gmap string string) :=
  match ds with
  | DSGeneric _ => Generic.Persist (Some ds)
  | DSShell _ => Shell.Persist (Some ds)
  | DSClaude _ => Claude.Persist (Some ds)
  | DSCodex _ => Codex.Persist (Some ds)
  | DSGemini _ => Gemini.Persist (Some ds)
  end.

Definition restoreOf (ds : DriverStates) (bag : gmap string string) (now : Time) : DriverStates :=
  match ds with
  | DSGeneric s => DSGeneric (Generic.Restore (Generic.mkGenericDriver (GS_Name s) "" 0) bag now)
  | DSShell _ => DSShell (Shell.Restore bag now)
  | DSClaude _ => DSClaude (Claude.Restore bag now)
  | DSCodex _ => DSCodex (Codex.Restore bag now)
  | DSGemini _ => DSGemini (Gemini.Restore bag now)
  end.

(** The codex rollout path and the transcript path stand in for each other. *)
Definition codexPaths (c : CommonState) (rollout : string) : CommonState * string :=
  let rollout := orElse rollout (CS_TranscriptPath c) in
  (c <| CS_TranscriptPath := orElse (CS_TranscriptPath c) rollout |>, rollout).

(** The state after a restart at [now]. *)
Definition survivor (now : Time) (ds : DriverStates) : DriverStates :=
  match ds with
  | DSGeneric s =>
    DSGeneric (mkGenericState (survives (initCommon StatusWaiting now) (GS_Common s)) (GS_Name s))
  | DSShell s =>
    DSShell (mkShellState (survives (initCommon StatusWaiting now) (SS_Common s))
               (SS_SawPromptEvent s) (SS_LastExitCode s))
  | DSClaude s =>
    DSClaude (Claude.zeroStateOf (survives (initCommon StatusIdle now) (CL_Common s))
                <| CL_ClaudeSessionID := CL_ClaudeSessionID s |>
                <| CL_ForkParentID := CL_ForkParentID s |>)
  | DSCodex s =>
    let '(c, rollout) :=
      codexPaths (survives (initCommon StatusIdle now) (CX_Common s)) (CX_RolloutPath s) in
    DSCodex (Codex.zeroStateOf c <| CX_ThreadID := CX_ThreadID s |>
               <| CX_SessionID := CX_SessionID s |> <| CX_RolloutPath := rollout |>
               <| CX_RequestedThreadID := CX_RequestedThreadID s |>
               <| CX_ObservedThreadID := CX_ObservedThreadID s |>
               <| CX_ResumePhase := CX_ResumePhase s |>)
  | DSGemini s =>
    DSGemini (Gemini.zeroStateOf (survives (initCommon StatusIdle now) (GM_Common s))
                <| GM_GeminiSessionID := GM_GeminiSessionID s |>)
  end.

(** Exit codes are Go ints. *)
Definition exitCodeOk (ds : DriverStates) : Prop :=
  match ds with
  | DSShell s => match SS_LastExitCode s with Some n => in_int64 n | None => True end
  | _ => True
  end.

Lemma holdsCommon_refl c : holdsCommon c (PersistCommon c ∅).
Proof. by intros k _. Qed.

(** A key of the driver's own is none of the common keys. *)
Lemma holdsCommon_putStr c bag k v :
  k ∉ commonKeys -> holdsCommon c bag -> holdsCommon c (putStr k v bag).
Proof. intros Hk H. eapply holdsCommon_put; [done|]. intros k' Hk'. apply putStr_lookup_ne. set_solver. Qed.
Lemma holdsCommon_putFlag c bag k v :
  k ∉ commonKeys -> holdsCommon c bag -> holdsCommon c (putFlag k v bag).
Proof. intros Hk H. eapply holdsCommon_put; [done|]. intros k' Hk'. apply putFlag_lookup_ne. set_solver. Qed.

Lemma PersistCommon_other c k : k ∉ commonKeys -> PersistCommon c ∅ !! k = None.
Proof.
  unfold commonKeys. rewrite !not_elem_of_cons. intros Hk. destruct_and! Hk.
  unfold PersistCommon. cbv zeta. repeat first [rewrite putStr_lookup_ne by congruence
    | rewrite putTime_lookup_ne by congruence | rewrite putFlag_lookup_ne by congruence
    | rewrite lookup_insert_ne by congruence]. apply lookup_empty.
Qed.

Lemma PersistCommon_other_elem : "shell_last_exit_code"%string ∉ commonKeys.
Proof. apply (bool_decide_unpack _). vm_compute. exact I. Qed.

Lemma Itoa_nonempty z : strconv.Itoa z <> EmptyString.
Proof.
  destruct z as [|q|q]; [done| |done].
  destruct (strconv.pretty_N_head (N.pos q)) as (c & s & E & _).
  change (strconv.Itoa (Z.pos q)) with (pretty.pretty (N.pos q)). by rewrite E.
Qed.

Ltac not_common := apply (bool_decide_unpack _); vm_compute; exact I.
Ltac own_key := etrans; [apply getStr_eq; bag_ne; reflexivity|]; apply getStr_putStr; bag_ne;
  try (apply PersistCommon_other; not_common).

Lemma shell_restart now s :
  timesFormattable (SS_Common s) -> exitCodeOk (DSShell s) ->
  exists bag, Shell.Persist (Some (DSShell s)) = Some bag /\
    DSShell (Shell.Restore bag now) = survivor now (DSShell s).
Proof.
  intros Hf He. eexists. split; [reflexivity|]. cbn [Shell.asState].
  set (out := putFlag "shell_saw_prompt_event" (SS_SawPromptEvent s) (PersistCommon (SS_Common s) ∅)).
  set (bag := match SS_LastExitCode s with Some n => _ | None => _ end).
  assert (holdsCommon (SS_Common s) bag) as Hb.
  { assert (holdsCommon (SS_Common s) out)
      by (apply holdsCommon_putFlag; [not_common|apply holdsCommon_refl]).
    subst bag. destruct (SS_LastExitCode s) as [n|]; [|done].
    eapply holdsCommon_put; [done|]. intros k Hk. apply lookup_insert_ne.
    intros <-. revert Hk. apply PersistCommon_other_elem. }
  assert (PersistCommon (SS_Common s) ∅ !! "shell_saw_prompt_event"%string = None) as Hk1
    by (apply PersistCommon_other; not_common).
  assert (PersistCommon (SS_Common s) ∅ !! "shell_last_exit_code"%string = None) as Hk2
    by (apply PersistCommon_other; not_common).
  unfold Shell.Restore, survivor. rewrite decide_False by (by eapply holds_nonempty).
  rewrite (RestoreCommon_holds _ (SS_Common s)) by done. do 2 f_equal.
  - etrans; [|apply (getFlag_putFlag "shell_saw_prompt_event" _ _ Hk1)].
    f_equal. subst bag. unfold getStr.
    destruct (SS_LastExitCode s); [by rewrite lookup_insert_ne by done|done].
  - subst bag out. unfold getStr. destruct (SS_LastExitCode s) as [n|] eqn:En.
    + rewrite lookup_insert_eq. cbn [default from_option Datatypes.id].
      rewrite decide_False by apply Itoa_nonempty. apply strconv.Atoi_Itoa.
      unfold exitCodeOk in He. by rewrite En in He.
    + rewrite putFlag_lookup_ne by done. by rewrite Hk2.
Qed.

Lemma claude_restart now s :
  timesFormattable (CL_Common s) ->
  exists bag, Claude.Persist (Some (DSClaude s)) = Some bag /\
    DSClaude (Claude.Restore bag now) = survivor now (DSClaude s).
Proof.
  intros Hf. eexists. split; [reflexivity|]. cbn [Claude.asState].
  set (bag := putStr _ _ _).
  assert (holdsCommon (CL_Common s) bag) as Hb
    by (do 2 (apply holdsCommon_putStr; [not_common|]); apply holdsCommon_refl).
  unfold Claude.Restore, survivor. rewrite decide_False by (by eapply holds_nonempty).
  change (CL_Common (Claude.newState now)) with (initCommon StatusIdle now).
  rewrite (RestoreCommon_holds _ (CL_Common s)) by done.
  assert (getStr bag "claude_session_id" = CL_ClaudeSessionID s) as -> by (unfold bag; own_key).
  assert (getStr bag "fork_parent_id" = CL_ForkParentID s) as -> by (unfold bag; own_key).
  done.
Qed.

(** The conversation survives a restart whatever the clock shows. *)
Lemma claude_restored_ids s bag now :
  Claude.Persist (Some (DSClaude s)) = Some bag ->
  CL_ClaudeSessionID (Claude.Restore bag now) = CL_ClaudeSessionID s /\
  CL_ForkParentID (Claude.Restore bag now) = CL_ForkParentID s.
Proof.
  intros E. injection E as E.
  assert (holdsCommon (CL_Common s) bag) as Hb
    by (rewrite <- E; do 2 (apply holdsCommon_putStr; [not_common|]); apply holdsCommon_refl).
  unfold Claude.Restore. rewrite decide_False by (by eapply holds_nonempty).
  cbn [CL_ClaudeSessionID CL_ForkParentID].
  assert (getStr bag "claude_session_id" = CL_ClaudeSessionID s) as -> by (rewrite <- E; own_key).
  assert (getStr bag "fork_parent_id" = CL_ForkParentID s) as -> by (rewrite <- E; own_key).
  done.
Qed.

Lemma gemini_restart now s :
  timesFormattable (GM_Common s) ->
  exists bag, Gemini.Persist (Some (DSGemini s)) = Some bag /\
    DSGemini (Gemini.Restore bag now) = survivor now (DSGemini s).
Proof.
  intros Hf. eexists. split; [reflexivity|]. cbn [Gemini.asState].
  set (bag := putStr _ _ _).
  assert (holdsCommon (GM_Common s) bag) as Hb
    by (apply holdsCommon_putStr; [not_common|apply holdsCommon_refl]).
  unfold Gemini.Restore, survivor. rewrite decide_False by (by eapply holds_nonempty).
  change (GM_Common (Gemini.newState now)) with (initCommon StatusIdle now).
  rewrite (RestoreCommon_holds _ (GM_Common s)) by done.
  assert (getStr bag "gemini_session_id" = GM_GeminiSessionID s) as -> by (unfold bag; own_key).
  done.
Qed.

Lemma codex_restart now s :
  timesFormattable (CX_Common s) ->
  exists bag, Codex.Persist (Some (DSCodex s)) = Some bag /\
    DSCodex (Codex.Restore bag now) = survivor now (DSCodex s).
Proof.
  intros Hf. eexists. split; [reflexivity|]. cbn [Codex.asState].
  set (bag := putStr _ _ _).
  assert (holdsCommon (CX_Common s) bag) as Hb
    by (do 6 (apply holdsCommon_putStr; [not_common|]); apply holdsCommon_refl).
  unfold Codex.Restore, survivor. rewrite decide_False by (by eapply holds_nonempty).
  change (CX_Common (Codex.newState now)) with (initCommon StatusIdle now).
  rewrite (RestoreCommon_holds _ (CX_Common s)) by done.
  assert (getStr bag "thread_id" = CX_ThreadID s) as -> by (unfold bag; own_key).
  assert (getStr bag "session_id" = CX_SessionID s) as -> by (unfold bag; own_key).
  assert (getStr bag "rollout_path" = CX_RolloutPath s) as -> by (unfold bag; own_key).
  assert (getStr bag "requested_thread_id" = CX_RequestedThreadID s) as -> by (unfold bag; own_key).
  assert (getStr bag "observed_thread_id" = CX_ObservedThreadID s) as -> by (unfold bag; own_key).
  assert (getStr bag "resume_phase" = CX_ResumePhase s) as -> by (unfold bag; own_key).
  done.
Qed.

Lemma restart ds now :
  timesFormattable (commonOf ds) -> exitCodeOk ds ->
  exists bag, persistOf ds = Some bag /\ restoreOf ds bag now = survivor now ds.
Proof.
  intros Hf He. destruct ds as [s|s|s|s|s].
  - exists (PersistCommon (GS_Common s) ∅). split; [done|]. cbn [restoreOf survivor]. f_equal.
    unfold Generic.Restore. rewrite decide_False by (eapply holds_nonempty, holdsCommon_refl).
    cbn [GS_Common Generic.name]. by rewrite (RestoreCommon_holds _ (GS_Common s))
      by (done || apply holdsCommon_refl).
  - by apply shell_restart.
  - by apply claude_restart.
  - by apply codex_restart.
  - by apply gemini_restart.
Qed.

(** *** The status in the bag *)

Definition onCommon (f : CommonState -> CommonState) (ds : DriverStates) : DriverStates :=
  match ds with
  | DSGeneric s => DSGeneric (s <| GS_Common := f (GS_Common s) |>)
  | DSShell s => DSShell (s <| SS_Common := f (SS_Common s) |>)
  | DSClaude s => DSClaude (s <| CL_Common := f (CL_Common s) |>)
  | DSCodex s => DSCodex (s <| CX_Common := f (CX_Common s) |>)
  | DSGemini s => DSGemini (s <| GM_Common := f (GM_Common s) |>)
  end.
Definition withStatus (st : Status) (c : CommonState) : CommonState := c <| CS_Status := st |>.
#[local] Arguments withStatus : simpl never.

Abbreviation status := "status"%string.

Lemma putStr_insert k v x out : k <> status -> <[status := x]> (putStr k v out) = putStr k v (<[status := x]> out).
Proof. intros Hk. unfold putStr. case_decide; [done|]. by apply insert_insert_ne. Qed.
Lemma putTime_insert k t x out : k <> status -> <[status := x]> (putTime k t out) = putTime k t (<[status := x]> out).
Proof. intros Hk. unfold putTime. case_match; [done|]. by apply insert_insert_ne. Qed.
Lemma putFlag_insert k b x out : k <> status -> <[status := x]> (putFlag k b out) = putFlag k b (<[status := x]> out).
Proof. intros Hk. unfold putFlag. case_match; [|done]. by apply insert_insert_ne. Qed.

Lemma PersistCommon_status st c out :
  PersistCommon (withStatus st c) out = <[status := Status_String st]> (PersistCommon c out).
Proof.
  unfold PersistCommon. cbv zeta. do 30 (first [rewrite putStr_insert by done|rewrite putTime_insert by done|
    rewrite putFlag_insert by done|rewrite insert_insert_eq]; try reflexivity).
Qed.

Lemma persist_status st ds bag : persistOf ds = Some bag ->
  persistOf (onCommon (withStatus st) ds) = Some (<[status := Status_String st]> bag).
Proof.
  destruct ds as [s|s|s|s|s]; intros [= <-]; cbn; unfold Generic.Persist, Shell.Persist, Claude.Persist, Codex.Persist, Gemini.Persist;
    cbn; rewrite PersistCommon_status; f_equal.
  - destruct (SS_LastExitCode s); [rewrite insert_insert_ne by done|]; by rewrite putFlag_insert.
  - by rewrite !putStr_insert.
  - by rewrite !putStr_insert.
  - by rewrite !putStr_insert.
Qed.

Lemma persisted_status ds bag : persistOf ds = Some bag ->
  bag !! status = Some (Status_String (CS_Status (commonOf ds))).
Proof.
  destruct ds as [s|s|s|s|s]; intros [= <-]; cbn;
    rewrite ?putStr_lookup_ne, ?putFlag_lookup_ne by done; try apply status_lookup.
  destruct (SS_LastExitCode s); [rewrite lookup_insert_ne by done|]; rewrite putFlag_lookup_ne by done;
    apply status_lookup.
Qed.

Lemma running_string st : Status_String st = "running"%string <-> st = StatusRunning.
Proof.
  unfold Status_String. split; [|by intros ->]. destruct (Z.eqb_spec st StatusRunning); [done|].
  repeat case_match; done.
Qed.
End drivers.
