(* ===== verification/DriverLaunch.v ===== *)
(** * client/driver: launch commands

    What the command-line functions of the drivers do on the level of words:
    the worktree parsers, the sandbox flags, the resume and fork commands, and
    from these the command lines that [PrepareLaunch] hands to the runtime. *)

From S2P Require Import Prelude GoStd GoText ClientView ClientState DriverTypes DriverText DriverCommon DriverShell DriverClaude DriverCodex DriverGemini.
Open Scope Z_scope.

(** ** Words of a concatenation *)

Lemma fields_go_space cur l1 c l2 :
  Strings.fields_go cur (l1 ++ (c, true) :: l2)
  = Strings.fields_go cur l1 ++ Strings.fields_go EmptyString l2.
Proof.
  revert cur. induction l1 as [|[d []] l1 IH]; intros cur; cbn [app Strings.fields_go].
  - by case_decide.
  - case_decide; [by rewrite IH|]. cbn [app]. by rewrite IH.
  - apply IH.
Qed.

Lemma Fields_app a b :
  Strings.Fields (a +:+ " " +:+ b) = Strings.Fields a ++ Strings.Fields b.
Proof.
  unfold Strings.Fields, Strings.FieldsFunc.
  change (" " +:+ b) with (String.String " " b). rewrite Strings.mask_app by done.
  rewrite Strings.mask_space, fields_go_space. f_equal. by destruct b.
Qed.

Lemma Fields_word w : Strings.word w -> Strings.Fields w = [w].
Proof. intros H. apply (Strings.Fields_Join [w]). by constructor. Qed.

Lemma Fields_TrimSpace_Join ws :
  Forall Strings.word ws -> Strings.Fields (Strings.TrimSpace (Strings.Join ws " ")) = ws.
Proof. intros H. rewrite Strings.TrimSpace_Join by done. by apply Strings.Fields_Join. Qed.

(** *** Identifiers are words *)

Lemma mask_go_unmarked p k s :
  forallb (fun r => negb (p r)) (utf8.runes_go k s) = true ->
  Forall (fun x : ascii * bool => snd x = false) (Strings.mask_go p k false s).
Proof.
  revert k. induction s as [|c s IH]; intros k; cbn [utf8.runes_go Strings.mask_go]; [constructor|].
  destruct k as [|k].
  - destruct (utf8.decode c s) as [r w]. cbn [forallb]. intros [Hr H]%andb_prop.
    apply negb_true_iff in Hr. rewrite Hr. constructor; [done|by apply IH].
  - intros H. constructor; [done|by apply IH].
Qed.

Lemma alphanum_word id : isAlphanumHyphen id = true -> Strings.word id.
Proof.
  unfold isAlphanumHyphen. intros [H Hne]%andb_prop. split.
  { apply negb_true_iff, bool_decide_eq_false in Hne. done. }
  apply mask_go_unmarked. rewrite forallb_forall in *. intros r Hr.
  specialize (H r Hr). unfold alphanumRune, unicode.IsSpace, utf8.between in *. lia.
Qed.

(** ** Worktree flags *)

(** The words a worktree parser keeps. *)
Definition keptWords (command : string) : list string :=
  claudecli.stripWorktree_go (Strings.Fields command).

(** Induction that may also step over two words. *)
Lemma words_ind (P : list string -> Prop) :
  P [] -> (forall p ws, P ws -> (forall next ws', ws = next :: ws' -> P ws') -> P (p :: ws)) ->
  forall ws, P ws.
Proof.
  intros H0 HS ws. enough (P ws /\ forall next ws', ws = next :: ws' -> P ws') as [? _]; [done|].
  induction ws as [|p ws [IH1 IH2]]; [split; [done|by intros ??[=]]|].
  split; [by apply HS|]. by intros ?? [= _ <-].
Qed.

Lemma stripWorktree_sublist ws : claudecli.stripWorktree_go ws `sublist_of` ws.
Proof.
  induction ws as [|p ws IH IH'] using words_ind; [done|]. cbn [claudecli.stripWorktree_go].
  case_decide.
  - destruct ws as [|next ws']; [constructor; done|].
    case_match; [by constructor|]. do 2 constructor. by eapply IH'.
  - case_match; by constructor.
Qed.

Lemma matchFlag_worktree p :
  matchFlag p ["--worktree"%string]
  = if decide (p = "--worktree"%string) then Some MatchExact
    else if Strings.HasPrefix p "--worktree=" then Some (MatchValue (Strings.TrimPrefix p "--worktree="))
    else None.
Proof. done. Qed.

(** The parser of [worktree.go] keeps the words that the one of the command
    line library keeps. *)
Lemma parseWorktree_kept ws : forall req out,
  (parseWorktree_go ["--worktree"%string] ws req out).2 = out ++ claudecli.stripWorktree_go ws.
Proof.
  induction ws as [|p ws IH IH'] using words_ind; intros req out.
  { by rewrite app_nil_r. }
  cbn [parseWorktree_go claudecli.stripWorktree_go]. rewrite matchFlag_worktree. case_decide.
  - destruct ws as [|next ws']; [by rewrite app_nil_r|].
    case_match; [apply IH|]. by eapply IH'.
  - destruct (Strings.HasPrefix p "--worktree="); [apply IH|]. rewrite IH, <- app_assoc. done.
Qed.

(** A word the parsers drop. *)
Definition isWorktreeWord (p : string) : bool :=
  bool_decide (p = "--worktree"%string) || Strings.HasPrefix p "--worktree=".

Lemma stripWorktree_clean ws :
  Forall (fun p => isWorktreeWord p = false) (claudecli.stripWorktree_go ws).
Proof.
  induction ws as [|p ws IH IH'] using words_ind; [constructor|].
  cbn [claudecli.stripWorktree_go]. case_decide.
  - destruct ws as [|next ws']; [constructor|]. case_match; [done|]. by eapply IH'.
  - case_match; [done|]. constructor; [|done]. unfold isWorktreeWord.
    rewrite bool_decide_eq_false_2 by done. done.
Qed.

Lemma stripWorktree_id ws :
  Forall (fun p => isWorktreeWord p = false) ws -> claudecli.stripWorktree_go ws = ws.
Proof.
  induction 1 as [|p ws Hp _ IH]; [done|]. cbn [claudecli.stripWorktree_go].
  unfold isWorktreeWord in Hp. apply orb_false_iff in Hp as [H1%bool_decide_eq_false H2].
  rewrite decide_False by done. by rewrite H2, IH.
Qed.

Lemma keptWords_words command : Forall Strings.word (keptWords command).
Proof.
  pose proof (Strings.Fields_words command) as H. rewrite Forall_forall in *.
  intros w Hw. apply H. eapply elem_of_sublist; [done|apply stripWorktree_sublist].
Qed.

Lemma resolveWorktree_command command options :
  (resolveWorktreeRequest command options ["--worktree"%string]).2
  = Strings.Join (keptWords command) " ".
Proof.
  unfold resolveWorktreeRequest, parseWorktreeFlags.
  pose proof (parseWorktree_kept (Strings.Fields command) (mkWorktreeRequest false "") []) as H.
  destruct (parseWorktree_go _ _ _ _) as [req out]. cbn [snd app] in *. subst out.
  apply Strings.TrimSpace_Join, keptWords_words.
Qed.

Lemma StripWorktreeFlag_kept command :
  claudecli.StripWorktreeFlag command = Strings.Join (keptWords command) " ".
Proof. done. Qed.

(** ** Sandbox flags *)

(** The words of a command for a sandboxed agent: the permission bypass is
    there once it was not, automatic mode never. *)
Definition sandboxWords (sandboxed : bool) (ws : list string) : list string :=
  if sandboxed then
    let ws := filter (fun p => p <> claudecli.autoModeFlag) ws in
    if decide (claudecli.sandboxSkipFlag ∈ ws) then ws else ws ++ [claudecli.sandboxSkipFlag]
  else ws.

Lemma skipFlag_word : Strings.word claudecli.sandboxSkipFlag.
Proof. split; [done|]. apply mask_go_unmarked. vm_compute. reflexivity. Qed.

Lemma sandboxWords_words sandboxed ws :
  Forall Strings.word ws -> Forall Strings.word (sandboxWords sandboxed ws).
Proof.
  intros H. destruct sandboxed; [|done]. cbn.
  assert (Forall Strings.word (filter (fun p => p <> claudecli.autoModeFlag) ws)) as Hf
    by (rewrite Forall_forall in *; intros w [_ Hw]%list_elem_of_filter; by apply H).
  case_decide; [done|]. apply Forall_app. split; [done|]. constructor; [apply skipFlag_word|done].
Qed.

Lemma hasToken_Join ws flag :
  Forall Strings.word ws -> claudecli.hasToken (Strings.Join ws " ") flag = bool_decide (flag ∈ ws).
Proof.
  intros H. unfold claudecli.hasToken. rewrite Strings.Fields_Join by done. clear H.
  induction ws as [|w ws IH]; [done|]. cbn [existsb]. rewrite IH.
  apply eq_bool_prop_intro. rewrite orb_True, !bool_decide_spec, elem_of_cons. split; naive_solver.
Qed.

Lemma SandboxFlags_words ws sandboxed :
  Forall Strings.word ws ->
  Strings.Fields (claudecli.SandboxFlags (Strings.Join ws " ") sandboxed) = sandboxWords sandboxed ws.
Proof.
  intros H. destruct sandboxed; cbn [sandboxWords]; [|by apply Strings.Fields_Join].
  unfold claudecli.SandboxFlags, claudecli.stripToken. cbn [negb]. rewrite Strings.Fields_Join by done.
  set (ws' := filter _ ws).
  assert (Forall Strings.word ws') as Hf
    by (rewrite Forall_forall in *; intros w [_ Hw]%list_elem_of_filter; by apply H).
  rewrite hasToken_Join by done. case_bool_decide.
  - rewrite decide_True by done. by apply Strings.Fields_Join.
  - rewrite decide_False by done.
    rewrite Fields_app, Fields_TrimSpace_Join by done.
    by rewrite (Fields_word _ skipFlag_word).
Qed.

(** A sandboxed command has the bypass and not the automatic mode. *)
Lemma sandboxWords_flags ws :
  claudecli.sandboxSkipFlag ∈ sandboxWords true ws /\ claudecli.autoModeFlag ∉ sandboxWords true ws.
Proof.
  cbn. case_decide as Hd.
  - split; [done|]. rewrite list_elem_of_filter. naive_solver.
  - rewrite !elem_of_app, !list_elem_of_singleton, !list_elem_of_filter. split; [by right|].
    intros [[H _]|H]; [by apply H|done].
Qed.

Lemma sandboxWords_clean sandboxed ws :
  Forall (fun p => isWorktreeWord p = false) ws ->
  Forall (fun p => isWorktreeWord p = false) (sandboxWords sandboxed ws).
Proof.
  intros H. destruct sandboxed; [|done]. cbn.
  assert (Forall (fun p => isWorktreeWord p = false)
    (filter (fun p => p <> claudecli.autoModeFlag) ws)) as Hf
    by (rewrite Forall_forall in *; intros w [_ Hw]%list_elem_of_filter; by apply H).
  case_decide; [done|]. apply Forall_app. split; [done|]. constructor; [done|constructor].
Qed.

(** ** Resume and fork *)

Lemma resume_words : Strings.Fields "--resume" = ["--resume"%string].
Proof. vm_compute. reflexivity. Qed.

Lemma resume_suffix command id :
  Strings.word id ->
  Strings.Fields (command +:+ " --resume " +:+ id) = Strings.Fields command ++ ["--resume"%string; id].
Proof.
  intros H. change (" --resume " +:+ id) with (" " +:+ ("--resume" +:+ (" " +:+ id))).
  rewrite !Fields_app. by rewrite resume_words, (Fields_word _ H).
Qed.

Lemma ForkCommand_words command id :
  Strings.word id ->
  Strings.Fields (claudecli.ForkCommand command id)
  = keptWords command ++ ["--resume"%string; id; "--fork-session"%string].
Proof.
  intros H. unfold claudecli.ForkCommand, claudecli.ResumeCommand.
  rewrite decide_False by apply H. rewrite decide_False by apply H.
  change " --fork-session" with (" " +:+ "--fork-session"). rewrite Fields_app.
  rewrite resume_suffix by done. rewrite StripWorktreeFlag_kept.
  rewrite Strings.Fields_Join by apply keptWords_words. rewrite <- app_assoc.
  f_equal.
Qed.

(** ** Claude *)

Section claude.
Context {DT : DriverTypes} {DE : DriverEnv}.

(** The words every launch starts from. *)
Definition launchWords (sandboxed : bool) (base : string) : list string :=
  sandboxWords sandboxed (keptWords base).

Lemma launchWords_words sandboxed base : Forall Strings.word (launchWords sandboxed base).
Proof. apply sandboxWords_words, keptWords_words. Qed.

Lemma launch_command base options sandboxed :
  Strings.Fields (claudecli.SandboxFlags
    (Strings.TrimSpace (resolveWorktreeRequest base options ["--worktree"%string]).2) sandboxed)
  = launchWords sandboxed base.
Proof.
  rewrite resolveWorktree_command, Strings.TrimSpace_Join by apply keptWords_words.
  apply SandboxFlags_words, keptWords_words.
Qed.

(** A further fork or resume finds no worktree flag to strip. *)
Lemma keptWords_launch command sandboxed base :
  Strings.Fields command = launchWords sandboxed base ->
  keptWords command = launchWords sandboxed base.
Proof.
  intros E. unfold keptWords. rewrite E. apply stripWorktree_id, sandboxWords_clean, stripWorktree_clean.
Qed.

(** The words [PrepareLaunch] adds: none, or on a cold start the conversation
    to resume or to fork from, under an identifier without special
    characters. *)
Definition launchExtra (cs : ClaudeState) (mode : LaunchMode) (extra : list string) : Prop :=
  extra = [] \/
  mode = LaunchModeColdStart /\ exists id, isAlphanumHyphen id = true /\
    (id = CL_ClaudeSessionID cs /\ extra = ["--resume"%string; id] \/
     CL_ClaudeSessionID cs = EmptyString /\ id = CL_ForkParentID cs /\
     extra = ["--resume"%string; id; "--fork-session"%string]).

Lemma claude_launch d cs mode project base options sandboxed plan :
  Claude.PrepareLaunch d (Some (DSClaude cs)) mode project base options sandboxed = inl plan ->
  exists extra, launchExtra cs mode extra /\
    Strings.Fields (Plan_Command plan) = launchWords sandboxed base ++ extra.
Proof.
  unfold Claude.PrepareLaunch. cbn [Claude.asState default from_option Datatypes.id].
  pose proof (launch_command base options sandboxed) as HL.
  destruct (resolveWorktreeRequest base options _) as [req command]. cbn [snd] in HL.
  set (cmd := claudecli.SandboxFlags _ sandboxed) in *.
  assert (forall opts sd stdin, exists extra, launchExtra cs mode extra /\
    Strings.Fields (Plan_Command (Claude.simplePlan cmd sd stdin opts)) = launchWords sandboxed base ++ extra)
    as Hplain by (intros; exists []; rewrite app_nil_r; split; [by left|done]).
  destruct mode; try (intros [= <-]; apply Hplain).
  case_decide as Hid.
  - destruct (_ && _) eqn:Ef; [|intros [= <-]; apply Hplain].
    apply andb_prop in Ef as [_ Hf]. intros [= <-].
    exists ["--resume"%string; CL_ForkParentID cs; "--fork-session"%string]. split.
    + right. split; [done|]. exists (CL_ForkParentID cs). split; [done|]. by right.
    + cbn [Plan_Command Claude.simplePlan]. rewrite ForkCommand_words by (by apply alphanum_word).
      by rewrite (keptWords_launch _ _ _ HL).
  - destruct (Strings.Contains cmd "--resume"); [intros [= <-]; apply Hplain|].
    destruct (isAlphanumHyphen (CL_ClaudeSessionID cs)) eqn:Ha; cbn [negb]; [|intros [= <-]; apply Hplain].
    assert (forall sd stdin opts, exists extra, launchExtra cs LaunchModeColdStart extra /\
      Strings.Fields (Plan_Command (Claude.simplePlan (cmd +:+ " --resume " +:+ CL_ClaudeSessionID cs)
        sd stdin opts)) = launchWords sandboxed base ++ extra) as Hres.
    { intros. exists ["--resume"%string; CL_ClaudeSessionID cs]. split.
      - right. split; [done|]. exists (CL_ClaudeSessionID cs). split; [done|]. by left.
      - cbn [Plan_Command Claude.simplePlan]. rewrite resume_suffix by (by apply alphanum_word).
        by rewrite HL. }
    destruct sandboxed; [intros [= <-]; apply Hres|].
    case_decide; [intros [= <-]; apply Hplain|].
    destruct (os_Stat _); intros [= <-]; [apply Hres|apply Hplain].
Qed.

(** A restored fork that never saw its own identifier is forked again. *)
Lemma claude_refork d cs pid project base options sandboxed :
  isAlphanumHyphen pid = true -> CL_ClaudeSessionID cs = EmptyString -> CL_ForkParentID cs = pid ->
  exists plan, Claude.PrepareLaunch d (Some (DSClaude cs)) LaunchModeColdStart project base options
      sandboxed = inl plan /\
    Strings.Fields (Plan_Command plan)
    = launchWords sandboxed base ++ ["--resume"%string; pid; "--fork-session"%string].
Proof.
  intros Hp H1 H2. unfold Claude.PrepareLaunch. cbn [Claude.asState default from_option Datatypes.id].
  pose proof (launch_command base options sandboxed) as HL.
  destruct (resolveWorktreeRequest base options _) as [req command]. cbn [snd] in HL.
  rewrite decide_True by done. rewrite H2, Hp.
  assert (Strings.word pid) as Hw by (by apply alphanum_word).
  rewrite bool_decide_eq_true_2 by apply Hw. cbn [andb]. eexists. split; [done|].
  cbn [Plan_Command Claude.simplePlan]. rewrite ForkCommand_words by done.
  by rewrite (keptWords_launch _ _ _ HL).
Qed.
End claude.

(** ** Codex *)

Section codex.
Context {DT : DriverTypes} {DE : DriverEnv}.

Lemma TrimSpace_word w : Strings.word w -> Strings.TrimSpace w = w.
Proof. intros H. apply (Strings.TrimSpace_Join [w]). by constructor. Qed.

Lemma alphanum_trimmed id :
  isAlphanumHyphen id = true -> isAlphanumHyphen (Strings.TrimSpace id) = true.
Proof. intros H. by rewrite TrimSpace_word by (by apply alphanum_word). Qed.

Lemma alphanum_nonempty id : isAlphanumHyphen id = true -> id <> EmptyString.
Proof. intros H%alphanum_word. apply H. Qed.

(** A frame with a durable identity is resumed or not launched at all. *)
Lemma recoverable_plan cs :
  Codex.RecoverableOnColdStart (Some (DSCodex cs)) = true ->
  match Codex.coldStartResumePlan cs with
  | inl None => False
  | inl (Some (target, _)) => Resume_RolloutPath target <> EmptyString
  | inr _ => True
  end.
Proof.
  unfold Codex.RecoverableOnColdStart, Codex.coldStartResumePlan. cbn [Codex.asState]. cbv zeta.
  intros HR. set (tid := if isAlphanumHyphen _ then _ else _).
  assert (bool_decide (tid = EmptyString)
    && bool_decide (Strings.TrimSpace (Codex.resolvedRolloutPath cs) = EmptyString) = false) as ->.
  { apply andb_false_iff. rewrite !orb_true_iff in HR. destruct HR as [[HR|HR]|HR].
    - right. apply bool_decide_eq_true in HR. by apply bool_decide_eq_false_2.
    - left. apply bool_decide_eq_false_2. subst tid. rewrite (alphanum_trimmed _ HR).
      by apply alphanum_nonempty, alphanum_trimmed.
    - left. apply bool_decide_eq_false_2. subst tid. destruct (isAlphanumHyphen (_ (CX_ThreadID cs))) eqn:E.
      + by apply alphanum_nonempty.
      + rewrite (alphanum_trimmed _ HR). by apply alphanum_nonempty, alphanum_trimmed. }
  match goal with |- context [decide (?r = EmptyString)] => generalize r end.
  intros roll. clearbody tid. destruct (decide (roll = EmptyString)) as [_|H]; [|exact H].
  destruct (_ && _); exact I.
Qed.
End codex.
