(* ===== verification/DriverHooks.v ===== *)
(** * client/driver: the claude driver's hook stream

    Facts about sequences of hooks of a root frame: late hooks are as good as
    lost, a forked conversation waits for its own identifier, and every tool
    use that finishes is logged with what was noted when it started. *)

From S2P Require Import Prelude GoStd GoText ClientView ClientState DriverTypes DriverText DriverCommon DriverClaude.
Open Scope Z_scope.

Section hooks.
Context {DT : DriverTypes} {DE : DriverEnv}.

(** ** What the handlers leave alone *)

Lemma absorb_bridge cs hp : CL_LastBridgeTS (Claude.absorbIdentityFromHP cs hp) = CL_LastBridgeTS cs.
Proof. unfold Claude.absorbIdentityFromHP. repeat case_match; done. Qed.
Lemma absorb_roost cs hp :
  CS_RoostSessionID (CL_Common (Claude.absorbIdentityFromHP cs hp)) = CS_RoostSessionID (CL_Common cs).
Proof. unfold Claude.absorbIdentityFromHP. repeat case_match; done. Qed.
Lemma absorb_tools cs hp : CL_PendingTools (Claude.absorbIdentityFromHP cs hp) = CL_PendingTools cs.
Proof. unfold Claude.absorbIdentityFromHP. repeat case_match; done. Qed.

(** The fields no handler of a hook's consequences writes. *)
Definition sameStream (cs cs' : ClaudeState) : Prop :=
  CL_LastBridgeTS cs' = CL_LastBridgeTS cs /\
  CS_RoostSessionID (CL_Common cs') = CS_RoostSessionID (CL_Common cs).

#[local] Instance sameStream_preorder : PreOrder sameStream.
Proof. split; [by intros cs|]. intros a b c [H1 H2] [H3 H4]. split; congruence. Qed.

Lemma absorb_stream cs hp : sameStream cs (Claude.absorbIdentityFromHP cs hp).
Proof. split; [apply absorb_bridge|apply absorb_roost]. Qed.

Lemma startParse_stream d cs : sameStream cs (Claude.startTranscriptParse d cs).1.
Proof. unfold Claude.startTranscriptParse. repeat case_match; by split. Qed.

Lemma startParse_tools d cs : CL_PendingTools (Claude.startTranscriptParse d cs).1 = CL_PendingTools cs.
Proof. unfold Claude.startTranscriptParse. repeat case_match; done. Qed.

Lemma startParse_ids d cs :
  CL_ClaudeSessionID (Claude.startTranscriptParse d cs).1 = CL_ClaudeSessionID cs /\
  CL_ForkParentID (Claude.startTranscriptParse d cs).1 = CL_ForkParentID cs.
Proof. unfold Claude.startTranscriptParse. repeat case_match; done. Qed.

Lemma sessionStart_stream d cs ctx hp ts :
  sameStream cs (Claude.handleSessionStart d cs ctx hp ts).1.
Proof.
  etrans; [apply (absorb_stream cs hp)|]. unfold Claude.handleSessionStart.
  set (c1 := Claude.absorbIdentityFromHP cs hp). cbv zeta. repeat case_match; simplify_eq/=; by split.
Qed.

Lemma stateChange_stream d cs hp st ts : sameStream cs (Claude.handleStateChange d cs hp st ts).1.
Proof.
  etrans; [apply (absorb_stream cs hp)|]. unfold Claude.handleStateChange.
  set (c1 := Claude.absorbIdentityFromHP cs hp). cbv zeta. destruct (ParseStatus st) as [status ok].
  pose proof (startParse_stream d (if ok then Claude.setStatus c1 status
    (statusTime ts (CS_StatusChangedAt (CL_Common c1))) else c1)) as H.
  destruct (Claude.startTranscriptParse _ _) as [c2 effs]. cbn [fst] in *. etrans; [|exact H].
  by destruct ok.
Qed.

Lemma promptSubmit_stream d cs hp ts : sameStream cs (Claude.handleUserPromptSubmit d cs hp ts).1.
Proof.
  etrans; [apply (absorb_stream cs hp)|]. unfold Claude.handleUserPromptSubmit.
  set (c1 := Claude.absorbIdentityFromHP cs hp). cbv zeta. destruct (enqueueSummaryJob _ _ _) as [e1 b].
  match goal with |- context [Claude.startTranscriptParse d ?c] =>
    pose proof (startParse_stream d c) as H; destruct (Claude.startTranscriptParse d c) as [c2 e2] end.
  cbn [fst] in *. etrans; [|exact H]. by split.
Qed.

Lemma toolLog_stream cs hp ts : sameStream cs (Claude.handleToolLog cs hp ts).1.
Proof.
  unfold Claude.handleToolLog, Claude.emitToolLog. repeat case_match; by split.
Qed.

Lemma orderedHook_stream d cs hp ts : sameStream cs (Claude.handleOrderedHook d cs hp ts).1.
Proof.
  unfold Claude.handleOrderedHook. case_match; [apply promptSubmit_stream|].
  do 2 (case_match; [by split|]).
  pose proof (toolLog_stream cs hp ts) as HT. destruct (Claude.handleToolLog cs hp ts) as [c1 e1].
  cbn [fst] in HT.
  set (c2 := if String.eqb (HP_HookEventName hp) "SessionEnd" then _ else c1).
  assert (sameStream cs c2) as HE by (etrans; [exact HT|]; subst c2; case_match; by split).
  case_decide; [done|].
  pose proof (stateChange_stream d c2 hp (Claude.deriveState hp) ts) as HC.
  destruct (Claude.handleStateChange _ _ _ _ _) as [c3 e3]. cbn [fst] in *. by etrans.
Qed.

(** ** Late hooks *)

(** A hook as the bridge sends it: its time and its payload. *)
Definition hookAt := (Time * string)%type.

(** The hooks of [roost]'s root frame, one after the other. *)
Fixpoint runHooks (d : Claude.ClaudeDriver) (ctx : FrameContext) (roost : string)
    (cs : ClaudeState) (hs : list hookAt) : ClaudeState * list Effect :=
  match hs with
  | [] => (cs, [])
  | (ts, payload) :: hs' =>
    let '(cs, effs) := Claude.handleHook d cs ctx ts roost payload in
    let '(cs, effs') := runHooks d ctx roost cs hs' in
    (cs, effs ++ effs')
  end.

(** The hooks that count: those that name a session, except those not later
    than the latest so far.  A session start begins a new stream. *)
Fixpoint inOrder (last : Time) (hs : list hookAt) : list hookAt :=
  match hs with
  | [] => []
  | (ts, payload) :: hs' =>
    let hp := parseHookPayload payload in
    if decide (HP_SessionID hp = EmptyString) then inOrder last hs'
    else if String.eqb (HP_HookEventName hp) "SessionStart" then (ts, payload) :: inOrder ts hs'
    else if Claude.staleHook ts last then inOrder last hs'
    else (ts, payload) :: inOrder (if time.IsZero ts then last else ts) hs'
  end.

Lemma runHooks_cons d ctx roost cs ts payload hs cs1 effs1 :
  Claude.handleHook d cs ctx ts roost payload = (cs1, effs1) ->
  runHooks d ctx roost cs ((ts, payload) :: hs)
  = ((runHooks d ctx roost cs1 hs).1, effs1 ++ (runHooks d ctx roost cs1 hs).2).
Proof. intros E. cbn [runHooks]. rewrite E. by destruct (runHooks _ _ _ _ _). Qed.

Lemma setRoost_id cs roost :
  CS_RoostSessionID (CL_Common cs) = roost ->
  cs <| CL_Common := CL_Common cs
     <| CS_RoostSessionID := orElse roost (CS_RoostSessionID (CL_Common cs)) |> |> = cs.
Proof.
  intros <-. replace (orElse _ _) with (CS_RoostSessionID (CL_Common cs))
    by (unfold orElse; by case_decide).
  destruct cs as [c]. cbn. by destruct c.
Qed.

Lemma runHooks_inOrder d ctx roost hs : forall cs,
  Ctx_IsRoot ctx = true -> CS_RoostSessionID (CL_Common cs) = roost ->
  runHooks d ctx roost cs hs = runHooks d ctx roost cs (inOrder (CL_LastBridgeTS cs) hs).
Proof.
  induction hs as [|[ts payload] hs IH]; intros cs Hr Hroost; [done|].
  destruct (Claude.handleHook d cs ctx ts roost payload) as [cs1 effs1] eqn:E.
  rewrite (runHooks_cons _ _ _ _ _ _ _ _ _ E). cbn [inOrder].
  pose proof E as E0. unfold Claude.handleHook in E. rewrite Hr in E. cbn [negb] in E.
  case_decide as Hs.
  { injection E as <- <-. rewrite (IH cs) by done. by destruct (runHooks _ _ _ _ _). }
  rewrite (setRoost_id cs roost) in E by done.
  destruct (String.eqb _ _) eqn:Ess.
  - rewrite (runHooks_cons _ _ _ _ _ _ _ _ _ E0).
    match type of E with Claude.handleSessionStart _ ?c _ ?h _ = _ =>
      pose proof (sessionStart_stream d c ctx h ts) as [H1 H2] end.
    rewrite E in H1, H2. cbn in H1, H2. rewrite (IH cs1) by (done || congruence). by rewrite H1.
  - destruct (Claude.staleHook ts (CL_LastBridgeTS cs)).
    { injection E as <- <-. rewrite (IH cs) by done. by destruct (runHooks _ _ _ _ _). }
    rewrite (runHooks_cons _ _ _ _ _ _ _ _ _ E0).
    match type of E with Claude.handleOrderedHook _ ?c ?h _ = _ =>
      pose proof (orderedHook_stream d c h ts) as [H1 H2] end.
    rewrite E in H1, H2. cbn [fst] in H1, H2.
    rewrite (IH cs1) by (done || (rewrite H2; unfold Claude.bridgeTS; by case_match)).
    rewrite H1. unfold Claude.bridgeTS. by destruct (time.IsZero ts).
Qed.

(** ** Tools *)

Lemma stateChange_tools d cs hp st ts :
  CL_PendingTools (Claude.handleStateChange d cs hp st ts).1 = CL_PendingTools cs.
Proof.
  rewrite <- (absorb_tools cs hp). unfold Claude.handleStateChange.
  set (c1 := Claude.absorbIdentityFromHP cs hp). cbv zeta. destruct (ParseStatus st) as [status ok].
  set (c2 := if ok then _ else c1). pose proof (startParse_tools d c2) as H.
  destruct (Claude.startTranscriptParse d c2) as [c3 effs]. cbn [fst] in *. rewrite H.
  by subst c2; destruct ok.
Qed.

Lemma promptSubmit_tools d cs hp ts :
  CL_PendingTools (Claude.handleUserPromptSubmit d cs hp ts).1 = CL_PendingTools cs.
Proof.
  rewrite <- (absorb_tools cs hp). unfold Claude.handleUserPromptSubmit.
  set (c1 := Claude.absorbIdentityFromHP cs hp). cbv zeta. destruct (enqueueSummaryJob _ _ _) as [e1 b].
  match goal with |- context [Claude.startTranscriptParse d ?c] =>
    pose proof (startParse_tools d c) as H; destruct (Claude.startTranscriptParse d c) as [c2 e2] end.
  cbn [fst] in *. by rewrite H.
Qed.

(** [p'] is [p], perhaps with its permission prompt seen. *)
Definition sameTool (p p' : pendingTool) : Prop :=
  PT_Name p' = PT_Name p /\ PT_Input p' = PT_Input p /\ PT_StartedAt p' = PT_StartedAt p /\
  PT_PermMode p' = PT_PermMode p.

#[local] Instance sameTool_preorder : PreOrder sameTool.
Proof. split; [by intros p|]. intros a b c (?&?&?&?) (?&?&?&?). split_and!; congruence. Qed.

(** The tool [id] is pending, as it was noted in [p]. *)
Definition pendingAs (cs : ClaudeState) (id : string) (p : pendingTool) : Prop :=
  exists p', CL_PendingTools cs !! id = Some p' /\ sameTool p p'.

Lemma pendingAs_eq cs cs' id p :
  CL_PendingTools cs' = CL_PendingTools cs -> pendingAs cs id p -> pendingAs cs' id p.
Proof. unfold pendingAs. by intros ->. Qed.

Lemma markPrompt_pending tools id p :
  tools !! id = Some p -> exists p', Claude.markPrompt tools !! id = Some p' /\ sameTool p p'.
Proof.
  intros H. unfold Claude.markPrompt. case_decide; [by exists p|].
  set (o := Claude.oldestPending _). destruct (tools !! o) as [e|] eqn:Eo; [|by exists p].
  destruct (decide (o = id)) as [->|Hne].
  - rewrite lookup_insert_eq. eexists. split; [done|]. simplify_eq. by split_and!.
  - rewrite lookup_insert_ne by done. by exists p.
Qed.

Lemma toolLog_pending cs hp ts id p :
  HP_ToolUseID hp <> id -> pendingAs cs id p -> pendingAs (Claude.handleToolLog cs hp ts).1 id p.
Proof.
  intros Hid Hp.
  assert (forall kind, pendingAs (Claude.emitToolLog cs hp ts kind).1 id p) as Hemit.
  { intros kind. unfold Claude.emitToolLog, Claude.finishTool.
    destruct Hp as (p' & Hl & Hs). destruct (decide (HP_ToolUseID hp = EmptyString)).
    - case_decide; by exists p'.
    - destruct (_ !! HP_ToolUseID hp); case_decide; exists p'; cbn;
        (split; [|done]); [by rewrite lookup_delete_ne..|done|done]. }
  unfold Claude.handleToolLog. destruct (String.eqb _ "PreToolUse").
  { case_decide; [done|]. destruct Hp as (p' & Hl & Hs). exists p'.
    cbn. by rewrite lookup_insert_ne. }
  destruct (String.eqb _ "Notification").
  { case_match; [done|]. destruct Hp as (p' & Hl & Hs).
    destruct (markPrompt_pending _ _ _ Hl) as (p2 & Hl2 & Hs2). exists p2. split; [done|by etrans]. }
  destruct (String.eqb _ "PostToolUse"); [apply Hemit|].
  destruct (String.eqb _ "PostToolUseFailure"); [|done]. apply Hemit.
Qed.

(** An event that may end the wait for the tool [id]. *)
Definition touches (id : string) (ev : DriverEvent) : bool :=
  match ev with
  | DEvHook _ _ _ payload =>
    let hp := parseHookPayload payload in
    bool_decide (HP_ToolUseID hp = id)
    || existsb (String.eqb (HP_HookEventName hp)) ["SessionStart"; "SessionEnd"]%string
  | _ => false
  end.

Lemma orderedHook_pending d cs hp ts id p :
  HP_ToolUseID hp <> id -> HP_HookEventName hp <> "SessionEnd"%string ->
  pendingAs cs id p -> pendingAs (Claude.handleOrderedHook d cs hp ts).1 id p.
Proof.
  intros Hid Hend%String.eqb_neq Hp. unfold Claude.handleOrderedHook.
  destruct (String.eqb _ "UserPromptSubmit"); [eapply pendingAs_eq; [apply promptSubmit_tools|done]|].
  do 2 (case_match; [done|]). pose proof (toolLog_pending cs hp ts id p Hid Hp) as HT.
  destruct (Claude.handleToolLog cs hp ts) as [c1 e1]. cbn [fst] in HT. rewrite Hend.
  case_decide; [done|].
  pose proof (stateChange_tools d c1 hp (Claude.deriveState hp) ts) as HC.
  destruct (Claude.handleStateChange _ _ _ _ _) as [c3 e3]. cbn [fst] in *.
  by eapply pendingAs_eq.
Qed.

Lemma stepRoot_pending d cs ctx ev id p :
  Ctx_IsRoot ctx = true -> touches id ev = false -> pendingAs cs id p ->
  pendingAs (Claude.stepRoot d cs ctx ev).1 id p.
Proof.
  intros Hr Ht Hp. destruct ev; cbn [Claude.stepRoot]; try done.
  - cbn [touches existsb] in Ht. unfold Claude.handleHook. set (hp := parseHookPayload _) in *.
    rewrite Hr. cbn [negb]. apply orb_false_iff in Ht as [H1%bool_decide_eq_false H2].
    rewrite !orb_false_iff in H2. destruct H2 as (H2 & H3 & _).
    case_decide; [done|]. rewrite H2. case_match; [done|].
    apply orderedHook_pending; [done|by apply String.eqb_neq|].
    eapply pendingAs_eq; [|exact Hp]. unfold Claude.bridgeTS. by case_match.
  - destruct (HandleTick _ _ _ _). by eapply pendingAs_eq.
  - eapply pendingAs_eq; [|exact Hp]. unfold Claude.handleJobResult. repeat case_match; done.
  - eapply pendingAs_eq; [|exact Hp]. unfold Claude.handleTranscriptChanged.
    case_decide; [done|]. case_decide; by destruct (CL_TranscriptInFlight _).
  - eapply pendingAs_eq; [|exact Hp]. unfold Claude.handleWindowTitle. repeat case_match; done.
Qed.

(** A root frame's events, one after the other. *)
Fixpoint runRoot (d : Claude.ClaudeDriver) (ctx : FrameContext) (cs : ClaudeState)
    (evs : list DriverEvent) : ClaudeState :=
  match evs with
  | [] => cs
  | ev :: evs' => runRoot d ctx (Claude.stepRoot d cs ctx ev).1 evs'
  end.

Lemma runRoot_pending d ctx evs id p : forall cs,
  Ctx_IsRoot ctx = true -> forallb (fun ev => negb (touches id ev)) evs = true ->
  pendingAs cs id p -> pendingAs (runRoot d ctx cs evs) id p.
Proof.
  induction evs as [|ev evs IH]; intros cs Hr; [done|]. cbn [forallb runRoot].
  intros [H1%negb_true_iff H2]%andb_prop Hp. apply IH; [done..|]. by apply stepRoot_pending.
Qed.

(** The lines of the tool log among the effects, with their projects. *)
Definition toolLines (effs : list Effect) : list (string * string) :=
  omap (fun eff => match eff with EffToolLogAppend _ project line => Some (project, line)
                   | _ => None end) effs.

Lemma stateChange_lines d cs hp st ts : toolLines (Claude.handleStateChange d cs hp st ts).2 = [].
Proof.
  unfold Claude.handleStateChange. cbv zeta. destruct (ParseStatus st) as [status ok].
  unfold Claude.startTranscriptParse. set (c := if ok then _ else _).
  unfold Claude.logEffects. by repeat case_match; simplify_eq/=.
Qed.

(** A hook that is neither lost nor late. *)
Definition accepted (cs : ClaudeState) (ts : Time) (hp : hookPayload) : Prop :=
  HP_SessionID hp <> EmptyString /\ Claude.staleHook ts (CL_LastBridgeTS cs) = false.

(** The state in which an accepted hook is handled. *)
Definition received (cs : ClaudeState) (ts : Time) (roost : string) : ClaudeState :=
  Claude.bridgeTS (cs <| CL_Common := CL_Common cs
    <| CS_RoostSessionID := orElse roost (CS_RoostSessionID (CL_Common cs)) |> |>) ts.

Lemma handleHook_accepted d cs ctx ts roost payload :
  Ctx_IsRoot ctx = true -> accepted cs ts (parseHookPayload payload) ->
  HP_HookEventName (parseHookPayload payload) <> "SessionStart"%string ->
  Claude.handleHook d cs ctx ts roost payload
  = Claude.handleOrderedHook d (received cs ts roost) (parseHookPayload payload) ts.
Proof.
  intros Hr [H1 H2] H3%String.eqb_neq. unfold Claude.handleHook.
  rewrite decide_False by done. rewrite Hr, H3. cbn [negb].
  match goal with |- context [Claude.staleHook ts ?l] => change l with (CL_LastBridgeTS cs) end.
  by rewrite H2.
Qed.

Lemma received_tools cs ts roost : CL_PendingTools (received cs ts roost) = CL_PendingTools cs.
Proof. unfold received, Claude.bridgeTS. by case_match. Qed.
Lemma received_project cs ts roost :
  CS_Project (CL_Common (received cs ts roost)) = CS_Project (CL_Common cs).
Proof. unfold received, Claude.bridgeTS. by case_match. Qed.

(** A tool hook reaches the tool log. *)
Lemma orderedHook_tool d cs hp ts :
  existsb (String.eqb (HP_HookEventName hp)) ["PreToolUse"; "PostToolUse"]%string = true ->
  HP_ToolName hp <> "Agent"%string ->
  CL_PendingTools (Claude.handleOrderedHook d cs hp ts).1
    = CL_PendingTools (Claude.handleToolLog cs hp ts).1 /\
  toolLines (Claude.handleOrderedHook d cs hp ts).2 = toolLines (Claude.handleToolLog cs hp ts).2.
Proof.
  intros Hev Hagent%String.eqb_neq. unfold Claude.handleOrderedHook. rewrite Hagent.
  assert (existsb (String.eqb (HP_HookEventName hp))
    ["UserPromptSubmit"; "SubagentStart"; "SubagentStop"; "SessionEnd"]%string = false
    /\ Claude.deriveState hp = "running"%string) as [Hno ->].
  { cbn [existsb] in Hev. rewrite orb_false_r in Hev. unfold Claude.deriveState.
    apply orb_prop in Hev as [->%String.eqb_eq| ->%String.eqb_eq]; by split. }
  cbn [existsb] in *. rewrite !orb_false_iff in Hno. destruct Hno as (-> & -> & -> & -> & _).
  cbn [orb]. destruct (Claude.handleToolLog cs hp ts) as [c1 e1].
  rewrite decide_False by done.
  pose proof (stateChange_tools d c1 hp "running" ts) as HT.
  pose proof (stateChange_lines d c1 hp "running" ts) as HL.
  destruct (Claude.handleStateChange _ _ _ _ _) as [c2 e2]. cbn [fst snd] in *.
  split; [done|]. unfold toolLines in *. by rewrite omap_app, HL.
Qed.

(** A tool use is noted when it starts ... *)
Lemma tool_started d cs ctx ts roost payload :
  let hp := parseHookPayload payload in
  Ctx_IsRoot ctx = true -> accepted cs ts hp -> HP_HookEventName hp = "PreToolUse"%string ->
  HP_ToolUseID hp <> EmptyString -> HP_ToolName hp <> EmptyString -> HP_ToolName hp <> "Agent"%string ->
  pendingAs (Claude.handleHook d cs ctx ts roost payload).1 (HP_ToolUseID hp)
    (mkPendingTool (HP_ToolName hp) (HP_ToolInput hp) ts false (HP_PermissionMode hp)).
Proof.
  intros hp Hr Ha Hev Hid Hn Hag. subst hp. set (hp := parseHookPayload payload) in *.
  rewrite handleHook_accepted by (done || by (fold hp; rewrite Hev)). fold hp.
  eexists. split; [|reflexivity]. destruct (orderedHook_tool d (received cs ts roost) hp ts) as [-> _];
    [by rewrite Hev|done|].
  unfold Claude.handleToolLog. rewrite Hev. cbn [String.eqb Ascii.eqb Bool.eqb].
  rewrite decide_False by tauto. cbn. apply lookup_insert_eq.
Qed.

(** ... and logged with what was noted when it ends. *)
Lemma tool_finished d cs ctx ts roost payload p :
  let hp := parseHookPayload payload in
  let slug := resolveProjectSlug (CS_Project (CL_Common cs)) in
  Ctx_IsRoot ctx = true -> accepted cs ts hp -> HP_HookEventName hp = "PostToolUse"%string ->
  HP_ToolUseID hp <> EmptyString -> HP_ToolName hp <> "Agent"%string ->
  slug <> EmptyString -> pendingAs cs (HP_ToolUseID hp) p ->
  (exists kind, kind ∈ ["auto"; "approved"]%string /\
   toolLines (Claude.handleHook d cs ctx ts roost payload).2
   = [(slug, buildToolLogLine (mkToolLogEntry ts
        (orElse roost (CS_RoostSessionID (CL_Common cs))) (CL_ClaudeSessionID cs) (HP_ToolUseID hp)
        (HP_ToolName hp) kind (HP_PermissionMode hp) (toolDurationMs ts (PT_StartedAt p))
        (summariseToolInput (HP_ToolName hp) (PT_Input p)) (HP_Error hp)))]) /\
  CL_PendingTools (Claude.handleHook d cs ctx ts roost payload).1 !! HP_ToolUseID hp = None.
Proof.
  intros hp slug Hr Ha Hev Hid Hag Hslug (p' & Hl & _ & Hin & Hst & _). subst hp slug.
  set (hp := parseHookPayload payload) in *.
  rewrite handleHook_accepted by (done || by (fold hp; rewrite Hev)). fold hp.
  destruct (orderedHook_tool d (received cs ts roost) hp ts) as [-> ->]; [by rewrite Hev|done|].
  unfold Claude.handleToolLog. rewrite Hev. cbn [String.eqb Ascii.eqb Bool.eqb].
  unfold Claude.emitToolLog, Claude.finishTool. rewrite decide_False by done.
  rewrite received_tools, Hl. cbn [fst snd].
  change (CS_Project (CL_Common (_ <| CL_PendingTools := _ |>))) with
    (CS_Project (CL_Common (received cs ts roost))). rewrite received_project, decide_False by done.
  split; [|cbn; apply lookup_delete_eq].
  exists (if PT_SawPrompt p' then "approved" else "auto")%string. split; [destruct (PT_SawPrompt p'); set_solver|].
  cbn [toolLines omap list_omap]. rewrite <- Hin, <- Hst.
  unfold received, Claude.bridgeTS. by destruct (time.IsZero ts).
Qed.

(** *** Permission prompts *)

(** [acc] is the oldest tool without a prompt among those of [l]. *)
Definition oldestOf (l : list (string * pendingTool)) (acc : string * Time) : Prop :=
  (acc.1 = EmptyString /\ forall id p, (id, p) ∈ l -> PT_SawPrompt p = true) \/
  (acc.1 <> EmptyString /\ exists p, (acc.1, p) ∈ l /\ PT_SawPrompt p = false /\
     acc.2 = PT_StartedAt p /\
     forall id' p', (id', p') ∈ l -> PT_SawPrompt p' = false -> PT_StartedAt p <= PT_StartedAt p').

Lemma olderPending_oldest l acc id p :
  id <> EmptyString -> oldestOf l acc -> oldestOf (l ++ [(id, p)]) (Claude.olderPending acc (id, p)).
Proof.
  intros Hid H. destruct acc as [o t]. unfold Claude.olderPending.
  destruct (PT_SawPrompt p) eqn:Es; cbn [negb andb].
  { destruct H as [[H1 H2]|(H1 & q & H2 & H3 & H4 & H5)]; [left|right].
    - split; [done|]. intros id' p' [Hin|[= -> ->]%list_elem_of_singleton]%elem_of_app; [by eapply H2|done].
    - split; [done|]. exists q. split_and!; [apply elem_of_app; by left|done..|].
      intros id' p' [Hin|[= -> ->]%list_elem_of_singleton]%elem_of_app Hs; [by eapply H5|congruence]. }
  destruct H as [[H1 H2]|(H1 & q & H2 & H3 & H4 & H5)]; cbn [fst snd] in *.
  - rewrite bool_decide_eq_true_2 by done. cbn [orb]. right. split; [done|]. exists p.
    split_and!; [apply elem_of_app; right; by apply list_elem_of_singleton|done..|].
    intros id' p' [Hin|[= -> ->]%list_elem_of_singleton]%elem_of_app Hs; [|done].
    apply H2 in Hin. congruence.
  - rewrite bool_decide_eq_false_2 by done. cbn [orb]. unfold time.Before.
    destruct (PT_StartedAt p <? t) eqn:Et; right; (split; [done|]); [exists p|exists q].
    + split_and!; [apply elem_of_app; right; by apply list_elem_of_singleton|done..|].
      intros id' p' [Hin|[= -> ->]%list_elem_of_singleton]%elem_of_app Hs; [|done].
      pose proof (H5 _ _ Hin Hs). lia.
    + split_and!; [apply elem_of_app; by left|done..|].
      intros id' p' [Hin|[= -> ->]%list_elem_of_singleton]%elem_of_app Hs; [by eapply H5|lia].
Qed.

Lemma oldestPending_spec l :
  Forall (fun kv => kv.1 <> EmptyString) l ->
  oldestOf l (foldl Claude.olderPending (EmptyString, 0) l).
Proof.
  induction l as [|[id p] l IH] using rev_ind; intros Hl.
  { left. split; [done|]. by intros id p []%not_elem_of_nil. }
  apply Forall_app in Hl as [Hl Hid]. rewrite foldl_app. cbn [foldl].
  apply olderPending_oldest; [by inversion Hid|by apply IH].
Qed.

(** ** Forked conversations *)

(** A fork of the conversation [pid] that has not seen its own identifier. *)
Definition awaitsFork (pid : string) (cs : ClaudeState) : Prop :=
  CL_ClaudeSessionID cs = EmptyString /\ CL_ForkParentID cs = pid.

(** An event that names no conversation but [pid]. *)
Definition namesOnly (pid : string) (ev : DriverEvent) : bool :=
  match ev with
  | DEvHook _ _ _ payload =>
    let id := HP_SessionID (parseHookPayload payload) in
    bool_decide (id = EmptyString) || bool_decide (id = pid)
  | _ => true
  end.

Lemma awaitsFork_eq pid cs cs' :
  CL_ClaudeSessionID cs' = CL_ClaudeSessionID cs -> CL_ForkParentID cs' = CL_ForkParentID cs ->
  awaitsFork pid cs -> awaitsFork pid cs'.
Proof. unfold awaitsFork. by intros -> ->. Qed.

Lemma absorb_waits pid cs hp :
  pid <> EmptyString -> HP_SessionID hp = pid -> awaitsFork pid cs ->
  awaitsFork pid (Claude.absorbIdentityFromHP cs hp).
Proof.
  intros Hne Hid [H1 H2]. unfold Claude.absorbIdentityFromHP.
  rewrite (decide_False (P := HP_SessionID hp = EmptyString)) by congruence.
  rewrite H2, Hid, !bool_decide_eq_true_2 by done. cbn [andb].
  by case_decide.
Qed.

Lemma startParse_waits pid d cs :
  awaitsFork pid cs -> awaitsFork pid (Claude.startTranscriptParse d cs).1.
Proof. destruct (startParse_ids d cs). by apply awaitsFork_eq. Qed.

Lemma sessionStart_waits pid d cs ctx hp ts :
  pid <> EmptyString -> HP_SessionID hp = pid -> awaitsFork pid cs ->
  awaitsFork pid (Claude.handleSessionStart d cs ctx hp ts).1.
Proof.
  intros Hne Hid H%(absorb_waits pid cs hp Hne Hid). revert H. unfold Claude.handleSessionStart.
  set (c1 := Claude.absorbIdentityFromHP cs hp). cbv zeta. apply awaitsFork_eq;
    repeat case_match; simplify_eq/=; done.
Qed.

Lemma stateChange_waits pid d cs hp st ts :
  pid <> EmptyString -> HP_SessionID hp = pid -> awaitsFork pid cs ->
  awaitsFork pid (Claude.handleStateChange d cs hp st ts).1.
Proof.
  intros Hne Hid H%(absorb_waits pid cs hp Hne Hid). revert H. unfold Claude.handleStateChange.
  set (c1 := Claude.absorbIdentityFromHP cs hp). cbv zeta. intros H.
  destruct (ParseStatus st) as [status ok].
  set (c2 := if ok then _ else c1). assert (awaitsFork pid c2) as H2
    by (subst c2; destruct ok; by eapply awaitsFork_eq).
  apply (startParse_waits pid d) in H2. by destruct (Claude.startTranscriptParse d c2).
Qed.

Lemma promptSubmit_waits pid d cs hp ts :
  pid <> EmptyString -> HP_SessionID hp = pid -> awaitsFork pid cs ->
  awaitsFork pid (Claude.handleUserPromptSubmit d cs hp ts).1.
Proof.
  intros Hne Hid H%(absorb_waits pid cs hp Hne Hid). revert H. unfold Claude.handleUserPromptSubmit.
  set (c1 := Claude.absorbIdentityFromHP cs hp). cbv zeta. intros H.
  destruct (enqueueSummaryJob _ _ _) as [e1 b].
  match goal with |- context [Claude.startTranscriptParse d ?c] =>
    pose proof (startParse_waits pid d c) as HS; destruct (Claude.startTranscriptParse d c) as [c2 e2] end.
  apply HS. by eapply awaitsFork_eq.
Qed.

Lemma toolLog_waits pid cs hp ts :
  awaitsFork pid cs -> awaitsFork pid (Claude.handleToolLog cs hp ts).1.
Proof.
  apply awaitsFork_eq; unfold Claude.handleToolLog, Claude.emitToolLog; repeat case_match; done.
Qed.

Lemma orderedHook_waits pid d cs hp ts :
  pid <> EmptyString -> HP_SessionID hp = pid -> awaitsFork pid cs ->
  awaitsFork pid (Claude.handleOrderedHook d cs hp ts).1.
Proof.
  intros Hne Hid H. unfold Claude.handleOrderedHook.
  destruct (String.eqb _ "UserPromptSubmit"); [by apply promptSubmit_waits|].
  destruct (String.eqb _ "Agent"); [done|]. destruct (existsb _ _); [done|].
  apply (toolLog_waits pid _ hp ts) in H. destruct (Claude.handleToolLog cs hp ts) as [c1 e1].
  set (c2 := if String.eqb _ "SessionEnd" then _ else c1). assert (awaitsFork pid c2) as H2
    by (subst c2; destruct (String.eqb _ _); [by eapply awaitsFork_eq|done]).
  case_decide; [done|]. apply (stateChange_waits pid d _ hp (Claude.deriveState hp) ts Hne Hid) in H2.
  by destruct (Claude.handleStateChange _ _ _ _ _).
Qed.

Lemma stepRoot_waits pid d cs ctx ev :
  pid <> EmptyString -> Ctx_IsRoot ctx = true -> namesOnly pid ev = true ->
  awaitsFork pid cs -> awaitsFork pid (Claude.stepRoot d cs ctx ev).1.
Proof.
  intros Hne Hr Ht Hw. destruct ev; cbn [Claude.stepRoot]; try done.
  - cbn [namesOnly] in Ht. unfold Claude.handleHook. set (hp := parseHookPayload _) in *.
    rewrite Hr. cbn [negb]. case_decide as Hid; [done|]. rewrite bool_decide_eq_false_2 in Ht by done.
    apply bool_decide_eq_true in Ht. destruct (String.eqb _ "SessionStart").
    { apply sessionStart_waits; [done..|]. by eapply awaitsFork_eq. }
    destruct (Claude.staleHook _ _); [by eapply awaitsFork_eq|].
    apply orderedHook_waits; [done..|]. eapply awaitsFork_eq; [| |exact Hw];
      unfold Claude.bridgeTS; by case_match.
  - destruct (HandleTick _ _ _ _). by eapply awaitsFork_eq.
  - eapply awaitsFork_eq; [| |exact Hw]; unfold Claude.handleJobResult; repeat case_match; done.
  - eapply awaitsFork_eq; [| |exact Hw]; unfold Claude.handleTranscriptChanged;
      (case_decide; [done|]); case_decide; by destruct (CL_TranscriptInFlight _).
  - eapply awaitsFork_eq; [| |exact Hw]; unfold Claude.handleWindowTitle; repeat case_match; done.
Qed.

Lemma runRoot_waits pid d ctx evs : forall cs,
  pid <> EmptyString -> Ctx_IsRoot ctx = true -> forallb (namesOnly pid) evs = true ->
  awaitsFork pid cs -> awaitsFork pid (runRoot d ctx cs evs).
Proof.
  induction evs as [|ev evs IH]; intros cs Hne Hr; [done|]. cbn [forallb runRoot].
  intros [H1 H2]%andb_prop Hw. apply IH; [done..|]. by apply stepRoot_waits.
Qed.

Lemma forkChild_waits parent p now :
  parent = Some (DSClaude p) -> CL_ClaudeSessionID p <> EmptyString ->
  awaitsFork (CL_ClaudeSessionID p) (Claude.forkChild parent now).
Proof.
  intros -> H. unfold Claude.forkChild. cbn [Claude.asState]. by rewrite decide_False.
Qed.

(** A session start under another identifier settles the fork. *)
Lemma sessionStart_settles pid d cs ctx hp ts :
  HP_SessionID hp <> EmptyString -> HP_SessionID hp <> pid -> awaitsFork pid cs ->
  CL_ClaudeSessionID (Claude.handleSessionStart d cs ctx hp ts).1 = HP_SessionID hp /\
  CL_ForkParentID (Claude.handleSessionStart d cs ctx hp ts).1 = EmptyString.
Proof.
  intros Hne Hid [H1 H2].
  assert (CL_ClaudeSessionID (Claude.absorbIdentityFromHP cs hp) = HP_SessionID hp /\
    CL_ForkParentID (Claude.absorbIdentityFromHP cs hp) = EmptyString) as [<- <-].
  { unfold Claude.absorbIdentityFromHP.
    rewrite (decide_False (P := HP_SessionID hp = EmptyString)) by done.
    rewrite (bool_decide_eq_false_2 (HP_SessionID hp = _)) by congruence. rewrite andb_false_r.
    by case_decide. }
  unfold Claude.handleSessionStart. set (c1 := Claude.absorbIdentityFromHP cs hp). cbv zeta.
  split; repeat case_match; simplify_eq/=; done.
Qed.
End hooks.
