(* ===== verification/WorkerPool.v ===== *)
(** * client/runtime/worker: the pool that runs the drivers' jobs

    [pool.go] and [registry.go].  A pool is two channels of capacity 64 and a
    fixed number of worker goroutines; [pool_step] interleaves what the
    workers do, [Submit], [Stop] and receiving from [Results] are what the
    daemon does.  Runners do I/O: a registered runner is the relation between
    an input and what it may return. *)

From S2P Require Import Prelude GoStd ClientView ClientState.
From stdpp Require Import sorting.
Open Scope Z_scope.

Section pool.
Context {T : ClientTypes}.
(** [input.JobKind()]. *)
Variable jobKind : JobInput -> string.

Definition Runner := JobInput -> JobResult -> option error -> Prop.

(** [registry] maps each job kind to its runner. *)
Definition RegisterRunner (registry : gmap string Runner) (kind : string) (runner : Runner)
    : gmap string Runner := <[kind := runner]> registry.

(** A queued job is its id and its input; its closure calls [Job_Run]. *)
Record job := mkJob { Job_ID : JobID; Job_Input : JobInput; Job_Run : Runner }.

(** [state.EvJobResult] as a worker builds it. *)
Record jobResult := mkJobResult {
  Res_JobID : JobID; Res_Result : JobResult; Res_Err : option error;
}.

(** Where a worker goroutine stands: at the select of [run], in the job's
    runner, at the select that sends the result, or past its return. *)
Inductive worker :=
| Idle
| Running (j : job)
| Sending (ev : jobResult)
| Exited.

Record Pool := mkPool {
  Pool_Jobs : list job;
  Pool_Results : list jobResult;
  Pool_Workers : list worker;
  Pool_Cancelled : bool;
  Pool_Closed : bool;
}.
#[export] Instance eta_Pool : Eta Pool := fun r =>
  mkPool (Pool_Jobs r) (Pool_Results r) (Pool_Workers r) (Pool_Cancelled r) (Pool_Closed r).

Definition queueCap : nat := 64.

Definition NewPool (size : nat) : Pool := mkPool [] [] (replicate size Idle) false false.

(** [Submit]: a job that finds the queue full is dropped. *)
Definition Submit (p : Pool) (j : job) : Pool :=
  if Pool_Closed p then p
  else if (length (Pool_Jobs p) <? queueCap)%nat then p <| Pool_Jobs := Pool_Jobs p ++ [j] |>
  else p.

Definition Dispatch (registry : gmap string Runner) (p : Pool) (jobID : JobID) (input : JobInput) : Pool :=
  match registry !! jobKind input with
  | None => p
  | Some runner => Submit p (mkJob jobID input runner)
  end.

(** [Stop]; how long it waits for the workers is not part of the state. *)
Definition Stop (p : Pool) : Pool :=
  if Pool_Closed p then p else p <| Pool_Closed := true |> <| Pool_Cancelled := true |>.

(** What the goroutines of the pool may do next. *)
Inductive pool_step (p : Pool) : Pool -> Prop :=
| step_exit i :
    Pool_Workers p !! i = Some Idle -> Pool_Cancelled p = true ->
    pool_step p (p <| Pool_Workers := <[i := Exited]> (Pool_Workers p) |>)
| step_take i j rest :
    Pool_Workers p !! i = Some Idle -> Pool_Jobs p = j :: rest ->
    pool_step p (p <| Pool_Jobs := rest |>
      <| Pool_Workers := <[i := if Pool_Cancelled p then Idle else Running j]> (Pool_Workers p) |>)
| step_finish i j result err :
    Pool_Workers p !! i = Some (Running j) -> Job_Run j (Job_Input j) result err ->
    pool_step p (p <| Pool_Workers :=
      <[i := Sending (mkJobResult (Job_ID j) result err)]> (Pool_Workers p) |>)
| step_send i ev :
    Pool_Workers p !! i = Some (Sending ev) -> (length (Pool_Results p) < queueCap)%nat ->
    pool_step p (p <| Pool_Results := Pool_Results p ++ [ev] |>
      <| Pool_Workers := <[i := Idle]> (Pool_Workers p) |>)
| step_discard i ev :
    Pool_Workers p !! i = Some (Sending ev) -> Pool_Cancelled p = true ->
    pool_step p (p <| Pool_Workers := <[i := Idle]> (Pool_Workers p) |>).

(** The daemon's receive from [Results]. *)
Definition receive (p : Pool) : option (jobResult * Pool) :=
  match Pool_Results p with
  | [] => None
  | ev :: rest => Some (ev, p <| Pool_Results := rest |>)
  end.

(** ** Where a job is *)

Definition workerID (w : worker) : list JobID :=
  match w with Running j => [Job_ID j] | Sending ev => [Res_JobID ev] | _ => [] end.

(** The ids of the jobs the pool still owes a result for. *)
Definition owed (p : Pool) : list JobID :=
  (Job_ID <$> Pool_Jobs p) ++ mjoin (workerID <$> Pool_Workers p) ++ (Res_JobID <$> Pool_Results p).

Lemma workers_insert ws i w w' :
  ws !! i = Some w ->
  workerID w ++ mjoin (workerID <$> <[i := w']> ws) ≡ₚ workerID w' ++ mjoin (workerID <$> ws).
Proof.
  revert i. induction ws as [|x ws IH]; intros [|i] H; simplify_eq/=.
  - by rewrite !(assoc (++)), (comm (++) (workerID w) (workerID w')).
  - rewrite (assoc (++)), (comm (++) (workerID w) (workerID x)), <- (assoc (++)), IH by done.
    by rewrite !(assoc (++)), (comm (++) (workerID x)).
Qed.

Lemma sent_perm (jobs ws ws' : list JobID) (rs : list jobResult) ev :
  Res_JobID ev :: ws' ≡ₚ ws ->
  jobs ++ ws' ++ (Res_JobID <$> rs ++ [ev]) ≡ₚ jobs ++ ws ++ (Res_JobID <$> rs).
Proof.
  intros <-. rewrite fmap_app. cbn. f_equiv. rewrite (assoc (++)).
  symmetry. apply Permutation_cons_append.
Qed.

(** A pool that is not cancelled keeps every job it has accepted. *)
Lemma pool_step_owed p p' : pool_step p p' -> Pool_Cancelled p = false -> owed p' ≡ₚ owed p.
Proof.
  intros Hs Hc. unfold owed. destruct Hs as [i Hw Hc'|i j rest Hw Hj|i j result err Hw Hr|i ev Hw Hl|i ev Hw Hc'];
    try congruence; cbn.
  - rewrite Hc, Hj. cbn. pose proof (workers_insert _ _ _ (Running j) Hw) as H. cbn in H.
    rewrite H. cbn. by rewrite <- Permutation_middle.
  - pose proof (workers_insert _ _ _ (Sending (mkJobResult (Job_ID j) result err)) Hw) as H. cbn in H.
    apply (Permutation_cons_inv (a := Job_ID j)) in H. by rewrite H.
  - pose proof (workers_insert _ _ _ Idle Hw) as H. cbn in H.
    by rewrite (sent_perm _ _ _ _ _ H).
Qed.

(** Whatever it does, the pool owes nothing it did not owe before. *)
Lemma pool_step_owed_subset p p' : pool_step p p' -> owed p' ⊆+ owed p.
Proof.
  intros Hs. destruct (Pool_Cancelled p) eqn:Hc; [|by rewrite (pool_step_owed _ _ Hs Hc)].
  unfold owed. destruct Hs as [i Hw _|i j rest Hw Hj|i j result err Hw Hr|i ev Hw Hl|i ev Hw _]; cbn.
  - pose proof (workers_insert _ _ _ Exited Hw) as H. cbn in H. by rewrite H.
  - rewrite Hc, Hj. pose proof (workers_insert _ _ _ Idle Hw) as H. cbn in H. rewrite H. cbn.
    by apply submseteq_cons.
  - pose proof (workers_insert _ _ _ (Sending (mkJobResult (Job_ID j) result err)) Hw) as H. cbn in H.
    apply (Permutation_cons_inv (a := Job_ID j)) in H. by rewrite H.
  - pose proof (workers_insert _ _ _ Idle Hw) as H. cbn in H.
    by rewrite (sent_perm _ _ _ _ _ H).
  - pose proof (workers_insert _ _ _ Idle Hw) as H. cbn in H. rewrite <- H.
    cbn. rewrite <- Permutation_middle. by apply submseteq_cons.
Qed.

Lemma receive_owed p ev p' :
  receive p = Some (ev, p') -> owed p ≡ₚ Res_JobID ev :: owed p'.
Proof.
  unfold receive, owed. destruct (Pool_Results p) as [|ev' rest] eqn:E; [done|].
  intros [= -> <-]. cbn. by rewrite (assoc (++)), <- Permutation_middle, <- (assoc (++)).
Qed.

Lemma Submit_owed p j :
  owed (Submit p j) ≡ₚ (if Pool_Closed p then [] else
    if (length (Pool_Jobs p) <? queueCap)%nat then [Job_ID j] else []) ++ owed p.
Proof.
  unfold Submit. destruct (Pool_Closed p); [done|]. case_match; [|done].
  unfold owed. cbn. rewrite fmap_app. cbn. by rewrite <- Permutation_cons_append.
Qed.

(** ** Properties of all jobs in the pool *)

Section all.
Context (Pj : job -> Prop) (Pr : jobResult -> Prop).

Definition workerAll (w : worker) : Prop :=
  match w with Running j => Pj j | Sending ev => Pr ev | _ => True end.

Definition poolAll (p : Pool) : Prop :=
  Forall Pj (Pool_Jobs p) /\ Forall workerAll (Pool_Workers p) /\ Forall Pr (Pool_Results p).

Lemma poolAll_step p p' :
  (forall j result err, Pj j -> Job_Run j (Job_Input j) result err ->
    Pr (mkJobResult (Job_ID j) result err)) ->
  pool_step p p' -> poolAll p -> poolAll p'.
Proof.
  intros Hrun Hs (HJ & HW & HR). unfold poolAll.
  destruct Hs as [i Hw _|i j rest Hw Hj|i j result err Hw Hr|i ev Hw Hl|i ev Hw _]; cbn.
  - split_and!; [done| |done]. by apply Forall_insert.
  - rewrite Hj in HJ. inversion_clear HJ. split_and!; [done| |done].
    apply Forall_insert; [done|]. by case_match.
  - split_and!; [done| |done]. apply Forall_insert; [done|]. apply Hrun; [|done].
    exact (Forall_lookup_1 _ _ _ _ HW Hw).
  - split_and!; [done|by apply Forall_insert|]. apply Forall_app. split; [done|].
    constructor; [|done]. exact (Forall_lookup_1 _ _ _ _ HW Hw).
  - split_and!; [done| |done]. by apply Forall_insert.
Qed.

Lemma poolAll_Submit p j : Pj j -> poolAll p -> poolAll (Submit p j).
Proof.
  intros Hj (HJ & HW & HR). unfold Submit. repeat case_match; try done.
  split_and!; [|done|done]. cbn. apply Forall_app. by repeat constructor.
Qed.

Lemma poolAll_Stop p : poolAll p -> poolAll (Stop p).
Proof. unfold Stop. by case_match. Qed.

Lemma poolAll_receive p ev p' : receive p = Some (ev, p') -> poolAll p -> Pr ev /\ poolAll p'.
Proof.
  unfold receive. destruct (Pool_Results p) eqn:E; [done|]. intros [= -> <-] (HJ & HW & HR).
  rewrite E in HR. inversion_clear HR. by repeat split.
Qed.

Lemma poolAll_New size : poolAll (NewPool size).
Proof. split_and!; [constructor| |constructor]. by apply Forall_replicate. Qed.
End all.

Lemma poolAll_mono (Pj Pj' : job -> Prop) (Pr Pr' : jobResult -> Prop) p :
  (forall j, Job_ID j ∈ owed p -> Pj j -> Pj' j) ->
  (forall ev, Res_JobID ev ∈ owed p -> Pr ev -> Pr' ev) ->
  poolAll Pj Pr p -> poolAll Pj' Pr' p.
Proof.
  intros Hj Hr (HJ & HW & HR). unfold owed in *. split_and!.
  - rewrite Forall_forall in *. intros j Hin. apply Hj; [|by apply HJ].
    apply elem_of_app. left. by apply list_elem_of_fmap_2.
  - rewrite Forall_forall in *. intros w Hin. specialize (HW w Hin).
    assert (forall id, id ∈ workerID w -> id ∈ mjoin (workerID <$> Pool_Workers p)) as Hm.
    { intros id Hid. apply list_elem_of_join. exists (workerID w). split; [done|].
      by apply list_elem_of_fmap_2. }
    destruct w; [done| | |done]; [apply Hj|apply Hr]; try done;
      apply elem_of_app; right; apply elem_of_app; left; apply Hm; by apply list_elem_of_singleton.
  - rewrite Forall_forall in *. intros ev Hin. apply Hr; [|by apply HR].
    apply elem_of_app. right. apply elem_of_app. right. by apply list_elem_of_fmap_2.
Qed.

Lemma Stop_owed p : owed (Stop p) = owed p.
Proof. unfold Stop. by case_match. Qed.

Lemma owed_New size : owed (NewPool size) = [].
Proof. unfold owed. cbn. rewrite app_nil_r. by induction size. Qed.
End pool.
