(* ===== verification/DriverJobs.v ===== *)
(** * client/driver and client/runtime/worker: jobs in flight

    A driver starts a job of a kind only when it has none of that kind in
    flight, and clears its mark when the result arrives: [JobLaws], for each
    of the five drivers. *)

From S2P Require Import Prelude GoStd GoText ClientView ClientState DriverTypes DriverText DriverCommon DriverShell DriverClaude DriverCodex DriverGemini WorkerPool.
Open Scope Z_scope.

(** ** Kinds of jobs *)

Inductive jobClass := CBranch | CSummary | CTranscript.
#[export] Instance jobClass_eq_dec : EqDecision jobClass.
Proof. solve_decision. Defined.

(** Which driver a state belongs to, by its type. *)
Inductive driverKind := KGeneric | KShell | KClaude | KCodex | KGemini.

Section laws.
Context {DT : DriverTypes} {DE : DriverEnv}.

Definition kindOf (ds : DriverStates) : driverKind :=
  match ds with
  | DSGeneric _ => KGeneric | DSShell _ => KShell | DSClaude _ => KClaude
  | DSCodex _ => KCodex | DSGemini _ => KGemini
  end.

(** The in-flight marks of a state. *)
Definition commonFlags (c : CommonState) (transcript : bool) (k : jobClass) : bool :=
  match k with
  | CBranch => CS_BranchInFlight c
  | CSummary => CS_SummaryInFlight c
  | CTranscript => transcript
  end.
Definition inFlight (ds : DriverStates) : jobClass -> bool :=
  match ds with
  | DSGeneric s => commonFlags (GS_Common s) false
  | DSShell s => commonFlags (SS_Common s) false
  | DSClaude s => commonFlags (CL_Common s) (CL_TranscriptInFlight s)
  | DSCodex s => commonFlags (CX_Common s) (CX_TranscriptInFlight s)
  | DSGemini s => commonFlags (GM_Common s) (GM_TranscriptInFlight s)
  end.

(** The class of a job a driver of kind [k] starts, and of a result it takes;
    [None]: not one of its own. *)
Definition inputClass (k : driverKind) (input : DriverJobInput) : option jobClass :=
  match k, input with
  | _, BranchDetectInput _ => Some CBranch
  | _, SummaryCommandInput _ => Some CSummary
  | KClaude, TranscriptParseInput _ _ => Some CTranscript
  | KCodex, CodexTranscriptParseInput _ => Some CTranscript
  | KGemini, GeminiTranscriptParseInput _ => Some CTranscript
  | _, _ => None
  end.
Definition resultClass (k : driverKind) (result : DriverJobResult) : option jobClass :=
  match k, result with
  | _, ResultBranch _ => Some CBranch
  | _, SummaryCommandResult _ => Some CSummary
  | KClaude, ResultTranscript _ => Some CTranscript
  | KCodex, ResultCodexTranscript _ => Some CTranscript
  | KGemini, ResultGeminiTranscript _ => Some CTranscript
  | _, _ => None
  end.

(** The jobs among the effects of a step. *)
Definition startedInputs (effs : list Effect) : list DriverJobInput :=
  omap (fun eff => match eff with EffStartJob _ input => Some input | _ => None end) effs.

Definition classCount (k : driverKind) (c : jobClass) (l : list DriverJobInput) : nat :=
  length (filter (fun i => inputClass k i = Some c) l).

(** ** The balance of marks and jobs *)

(** Exactly the marks that were set from [f] to [f'] have a job among [effs],
    which has no others. *)
Definition balanced (k : driverKind) (f f' : jobClass -> bool) (effs : list Effect) : Prop :=
  (forall c, Nat.b2n (f' c) = (Nat.b2n (f c) + classCount k c (startedInputs effs))%nat) /\
  Forall (fun i => inputClass k i <> None) (startedInputs effs).

Lemma startedInputs_app l1 l2 : startedInputs (l1 ++ l2) = startedInputs l1 ++ startedInputs l2.
Proof. apply omap_app. Qed.
Lemma classCount_app k c l1 l2 :
  classCount k c (l1 ++ l2) = (classCount k c l1 + classCount k c l2)%nat.
Proof. unfold classCount. by rewrite filter_app, length_app. Qed.

Lemma balanced_trans k f g h l1 l2 :
  balanced k f g l1 -> balanced k g h l2 -> balanced k f h (l1 ++ l2).
Proof.
  intros [H1 F1] [H2 F2]. unfold balanced. rewrite startedInputs_app. split; [|by apply Forall_app].
  intros c. rewrite H2, H1, classCount_app. lia.
Qed.

Lemma balanced_quiet k f f' effs :
  (forall c, f' c = f c) -> startedInputs effs = [] -> balanced k f f' effs.
Proof. intros H E. unfold balanced. rewrite E. split; [|constructor]. intros c. rewrite H. cbn. lia. Qed.

Lemma balanced_refl k f : balanced k f f [].
Proof. by apply balanced_quiet. Qed.

(** Effects without a job do not count. *)
Lemma balanced_app_quiet k f g l1 l2 :
  startedInputs l2 = [] -> balanced k f g l1 -> balanced k f g (l1 ++ l2).
Proof. intros E H. eapply balanced_trans; [exact H|by apply balanced_quiet]. Qed.
Lemma balanced_quiet_app k f g l1 l2 :
  startedInputs l1 = [] -> balanced k f g l2 -> balanced k f g (l1 ++ l2).
Proof. intros E H. eapply balanced_trans; [by apply balanced_quiet|exact H]. Qed.

(** Only the branch and summary marks of the common part matter. *)
Definition sameMarks (c c' : CommonState) : Prop :=
  CS_BranchInFlight c' = CS_BranchInFlight c /\ CS_SummaryInFlight c' = CS_SummaryInFlight c.

Lemma sameMarks_flags c c' t k : sameMarks c c' -> commonFlags c' t k = commonFlags c t k.
Proof. intros [H1 H2]. by destruct k. Qed.

(** A job of class [c0] started under a mark that was clear. *)
Lemma balanced_start k (f f' : jobClass -> bool) c0 input :
  inputClass k input = Some c0 -> f c0 = false -> f' c0 = true ->
  (forall c, c <> c0 -> f' c = f c) -> balanced k f f' [startJob input].
Proof.
  intros Hi H0 H1 H2. split; [|cbn; constructor; [congruence|constructor]].
  intros c. cbn [startedInputs omap list_omap startJob]. unfold classCount. destruct (decide (c = c0)) as [->|Hne].
  - rewrite H0, H1, filter_cons_True by done. done.
  - rewrite H2, filter_cons_False by (done || congruence). cbn. lia.
Qed.

Lemma HandleTick_balanced k c now watched project t :
  balanced k (commonFlags c t) (commonFlags (HandleTick c now watched project).1 t)
    (HandleTick c now watched project).2.
Proof.
  unfold HandleTick.
  set (c1 := if decide (CS_StartDir _ = EmptyString) then _ else _).
  assert (sameMarks c c1) as HM by (subst c1; by case_decide). clearbody c1.
  assert (balanced k (commonFlags c t) (commonFlags c1 t) []) as H0.
  { apply balanced_quiet; [|done]. intros. by apply sameMarks_flags. }
  destruct (_ || _); [done|]. destruct (negb watched); [done|].
  destruct (_ && _ && _) eqn:E; [|done]. rewrite !andb_true_iff in E. destruct E as [[_ E%negb_true_iff] _].
  apply (balanced_start k _ _ CBranch); [by destruct k| |done|].
  - cbn. destruct HM as [<- _]. done.
  - intros [] Hne; try done. destruct HM as [_ HM]. cbn. done.
Qed.

Lemma enqueueSummaryJob_balanced k c t prompt effs :
  startedInputs effs = [] ->
  balanced k (commonFlags c t)
    (commonFlags (c <| CS_SummaryInFlight := (enqueueSummaryJob effs (CS_SummaryInFlight c) prompt).2 |>) t)
    (enqueueSummaryJob effs (CS_SummaryInFlight c) prompt).1.
Proof.
  intros Hq. unfold enqueueSummaryJob. destruct (_ || _) eqn:E.
  - apply balanced_quiet; [by intros []|done].
  - apply orb_false_iff in E as [E _]. apply balanced_quiet_app; [done|].
    apply (balanced_start k _ _ CSummary); [by destruct k|done|done|by intros []].
Qed.

(** The result of a job clears its mark and no other. *)
Definition cleared (f f' : jobClass -> bool) (r : option jobClass) : Prop :=
  forall c, f' c = if decide (r = Some c) then false else f c.

Lemma commonJobResult_cleared k c result err now t :
  match commonJobResult c result err now with
  | Some c' => cleared (commonFlags c t) (commonFlags c' t) (resultClass k result)
  | None => match result with ResultBranch _ | SummaryCommandResult _ => False | _ => True end
  end.
Proof.
  unfold commonJobResult, applySummaryJobResult.
  destruct result; try done; [destruct err|]; unfold ApplyBranchResult;
    repeat case_match; simplify_eq/=; intros []; destruct k; done.
Qed.

Definition isResult (ev : DriverEvent) : bool :=
  match ev with DEvJobResult _ _ _ => true | _ => false end.

(** The states the daemon gives a new frame: [NewState], [Restore] of what was
    saved, [ForkChildState], and what [PrepareCreate] and [WithStartDir] make
    of them. *)
Inductive created (drv : Driver) : DriverState -> Prop :=
| created_new now : created drv (Driver_NewState drv now)
| created_restored bag now : created drv (Driver_Restore drv bag now)
| created_forked fk parent now :
    Driver_Forkable drv = Some fk -> created drv (ForkChildState fk parent now)
| created_prepared planner s sid project command options s' launch :
    Driver_CreateSessionPlanner drv = Some planner -> created drv s ->
    PrepareCreate planner s sid project command options = inl (s', launch) -> created drv s'
| created_startDir wp s dir :
    Driver_StartDirAware drv = Some wp -> created drv s -> created drv (WithStartDir wp s dir).

(** No job in flight. *)
Definition unmarked (k : driverKind) (s : DriverState) : Prop :=
  exists ds, s = Some ds /\ kindOf ds = k /\ forall c, inFlight ds c = false.

(** What the daemon relies on of a driver's jobs.  A frame that is not the
    root of its session ignores results. *)
Class JobLaws (drv : Driver) (k : driverKind) : Prop := {
  jl_created s : created drv s -> unmarked k s;
  jl_step ds ctx ev : kindOf ds = k -> isResult ev = false ->
    exists ds' effs v, Driver_Step drv (Some ds) ctx ev = (Some ds', effs, v) /\ kindOf ds' = k /\
      balanced k (inFlight ds) (inFlight ds') effs;
  jl_result ds ctx result err now : kindOf ds = k -> Ctx_IsRoot ctx = true ->
    exists ds' v, Driver_Step drv (Some ds) ctx (DEvJobResult result err now) = (Some ds', [], v) /\
      kindOf ds' = k /\ cleared (inFlight ds) (inFlight ds') (resultClass k result);
  jl_child ds ctx result err now : kindOf ds = k -> Ctx_IsRoot ctx = false ->
    exists v, Driver_Step drv (Some ds) ctx (DEvJobResult result err now) = (Some ds, [], v);
  jl_boot boot ds ctx now : Driver_BootstrapSessionStart drv = Some boot -> kindOf ds = k ->
    exists ds' effs, boot (Some ds) ctx now = (Some ds', effs) /\ kindOf ds' = k /\
      balanced k (inFlight ds) (inFlight ds') effs;
  jl_recover recover ds now : Driver_WarmStartRecoverer drv = Some recover -> kindOf ds = k ->
    exists ds' effs, recover (Some ds) now = (Some ds', effs) /\ kindOf ds' = k /\
      balanced k (inFlight ds) (inFlight ds') effs;
}.

Lemma created_unmarked drv k :
  (forall now, unmarked k (Driver_NewState drv now)) ->
  (forall bag now, unmarked k (Driver_Restore drv bag now)) ->
  (forall fk parent now, Driver_Forkable drv = Some fk -> unmarked k (ForkChildState fk parent now)) ->
  (forall planner s sid project command options s' launch,
    Driver_CreateSessionPlanner drv = Some planner -> unmarked k s ->
    PrepareCreate planner s sid project command options = inl (s', launch) -> s' = s) ->
  (forall wp s dir, Driver_StartDirAware drv = Some wp -> unmarked k s ->
    unmarked k (WithStartDir wp s dir)) ->
  forall s, created drv s -> unmarked k s.
Proof.
  intros HN HR HF HP HW s. induction 1 as [| | |planner s sid project command options s' launch Hp _ IH E|];
    eauto. by rewrite (HP _ _ _ _ _ _ _ _ Hp IH E).
Qed.

Lemma sameMarks_balanced k c c' t :
  sameMarks c c' -> balanced k (commonFlags c t) (commonFlags c' t) [].
Proof. intros H. apply balanced_quiet; [|done]. intros. by apply sameMarks_flags. Qed.

Lemma ApplyCommandExited_marks c code ts : sameMarks c (ApplyCommandExited c code ts).
Proof. unfold ApplyCommandExited. repeat case_match; done. Qed.

(** ** Generic and shell *)

Lemma generic_stepRoot_balanced gs ev :
  isResult ev = false ->
  balanced KGeneric (inFlight (DSGeneric gs)) (inFlight (DSGeneric (Generic.stepRoot gs ev).1))
    (Generic.stepRoot gs ev).2.
Proof.
  intros Hr. destruct ev; try done; cbn [Generic.stepRoot]; try apply balanced_refl.
  - case_match; [apply balanced_refl|].
    pose proof (HandleTick_balanced KGeneric (GS_Common gs) now watched project false) as H0.
    by destruct (HandleTick _ _ _ _).
  - apply sameMarks_balanced, ApplyCommandExited_marks.
Qed.

Lemma generic_created d s : created (Generic.driver d) s -> unmarked KGeneric s.
Proof.
  apply created_unmarked; cbn [Generic.driver Driver_NewState Driver_Restore Driver_Forkable
    Driver_CreateSessionPlanner Driver_StartDirAware].
  - intros. eexists. split_and!; [done..|]. by intros [].
  - intros. unfold Generic.Restore. case_decide; eexists; (split_and!; [done..|]);
      intros []; cbn; try done; unfold RestoreCommon; by case_decide.
  - done.
  - intros planner s0 sid project command options s' launch [= <-] (ds & -> & Hk & _). cbn.
    destruct ds; try done. by intros [= <- _].
  - intros wp s0 dir [= <-] (ds & -> & Hk & H). destruct ds; try done.
    eexists. split_and!; [done..|]. intros c. specialize (H c). by destruct c.
Qed.

#[export] Instance generic_jobs d : JobLaws (Generic.driver d) KGeneric.
Proof.
  split.
  - apply generic_created.
  - intros [gs| | | |] ctx ev Hk Hr; try done. cbn [Generic.driver Driver_Step]. unfold Generic.Step.
    cbn [Generic.asState]. pose proof (generic_stepRoot_balanced gs ev Hr) as H.
    destruct (Ctx_IsRoot ctx); [destruct (Generic.stepRoot gs ev) as [gs' effs]|].
    + by exists (DSGeneric gs'), effs, (Generic.view d gs').
    + exists (DSGeneric gs), [], (Generic.view d gs). split_and!; [done..|apply balanced_refl].
  - intros [gs| | | |] ctx result err now Hk Hr; try done. cbn [Generic.driver Driver_Step].
    unfold Generic.Step. cbn [Generic.asState]. rewrite Hr. cbn [Generic.stepRoot].
    pose proof (commonJobResult_cleared KGeneric (GS_Common gs) result err now false) as H.
    destruct (commonJobResult _ _ _ _) as [c|].
    + by eexists (DSGeneric _), _.
    + exists (DSGeneric gs). eexists. split_and!; [done..|]. intros []; by destruct result.
  - intros [gs| | | |] ctx result err now Hk Hr; try done. cbn [Generic.driver Driver_Step].
    unfold Generic.Step. rewrite Hr. by eexists.
  - done.
  - done.
Qed.

Lemma shell_prompt_marks ss phase code now :
  sameMarks (SS_Common ss) (SS_Common (Shell.applyShellPromptEvent ss phase code now)).
Proof.
  unfold Shell.applyShellPromptEvent, Shell.setShellStatus. repeat case_match; done.
Qed.

Lemma shell_stepRoot_balanced ss ev :
  isResult ev = false ->
  balanced KShell (inFlight (DSShell ss)) (inFlight (DSShell (Shell.stepRoot ss ev).1))
    (Shell.stepRoot ss ev).2.
Proof.
  intros Hr. destruct ev; try done; cbn [Shell.stepRoot]; try apply balanced_refl.
  - case_match; [apply balanced_refl|].
    pose proof (HandleTick_balanced KShell (SS_Common ss) now watched project false) as H0.
    by destruct (HandleTick _ _ _ _).
  - apply sameMarks_balanced, shell_prompt_marks.
  - apply sameMarks_balanced, ApplyCommandExited_marks.
Qed.

Lemma shell_created d s : created (Shell.driver d) s -> unmarked KShell s.
Proof.
  apply created_unmarked; cbn [Shell.driver Driver_NewState Driver_Restore Driver_Forkable
    Driver_CreateSessionPlanner Driver_StartDirAware].
  - intros. eexists. split_and!; [done..|]. by intros [].
  - intros. unfold Shell.Restore. case_decide; eexists; (split_and!; [done..|]);
      intros []; cbn; try done; unfold RestoreCommon; by case_decide.
  - done.
  - intros planner s0 sid project command options s' launch [= <-] (ds & -> & Hk & _). cbn.
    destruct ds; try done. by intros [= <- _].
  - intros wp s0 dir [= <-] (ds & -> & Hk & H). destruct ds; try done.
    eexists. split_and!; [done..|]. intros c. specialize (H c). by destruct c.
Qed.

#[export] Instance shell_jobs d : JobLaws (Shell.driver d) KShell.
Proof.
  split.
  - apply shell_created.
  - intros [|ss| | |] ctx ev Hk Hr; try done. cbn [Shell.driver Driver_Step]. unfold Shell.Step.
    cbn [Shell.asState]. pose proof (shell_stepRoot_balanced ss ev Hr) as H.
    destruct (Ctx_IsRoot ctx); [destruct (Shell.stepRoot ss ev) as [ss' effs]|].
    + by exists (DSShell ss'), effs, (Shell.view d ss').
    + exists (DSShell ss), [], (Shell.view d ss). split_and!; [done..|apply balanced_refl].
  - intros [|ss| | |] ctx result err now Hk Hr; try done. cbn [Shell.driver Driver_Step].
    unfold Shell.Step. cbn [Shell.asState]. rewrite Hr. cbn [Shell.stepRoot]. unfold Shell.applyJobResult.
    pose proof (commonJobResult_cleared KShell (SS_Common ss) result err now false) as H.
    destruct (commonJobResult _ _ _ _) as [c|].
    + by eexists (DSShell _), _.
    + exists (DSShell ss). eexists. split_and!; [done..|]. intros []; by destruct result.
  - intros [|ss| | |] ctx result err now Hk Hr; try done. cbn [Shell.driver Driver_Step].
    unfold Shell.Step. rewrite Hr. by eexists.
  - done.
  - done.
Qed.

(** ** Claude *)

Definition clBalanced (cs cs' : ClaudeState) (effs : list Effect) : Prop :=
  balanced KClaude (inFlight (DSClaude cs)) (inFlight (DSClaude cs')) effs.

Definition clSame (cs cs' : ClaudeState) : Prop :=
  sameMarks (CL_Common cs) (CL_Common cs') /\ CL_TranscriptInFlight cs' = CL_TranscriptInFlight cs.

Lemma clSame_balanced cs cs' effs :
  clSame cs cs' -> startedInputs effs = [] -> clBalanced cs cs' effs.
Proof.
  intros [HM HT] E. apply balanced_quiet; [|done]. intros c. cbn. rewrite HT. by apply sameMarks_flags.
Qed.

Lemma clBalanced_from cs0 cs cs' effs : clSame cs0 cs -> clBalanced cs cs' effs -> clBalanced cs0 cs' effs.
Proof.
  intros H HB. apply (balanced_trans _ _ (inFlight (DSClaude cs)) _ []); [by apply clSame_balanced|done].
Qed.

Lemma absorb_same cs hp : clSame cs (Claude.absorbIdentityFromHP cs hp).
Proof. unfold Claude.absorbIdentityFromHP. repeat case_match; done. Qed.

Lemma logEffects_quiet hp : startedInputs (Claude.logEffects hp) = [].
Proof. unfold Claude.logEffects. by case_match. Qed.

Lemma claude_start cs path :
  CL_TranscriptInFlight cs = false ->
  clBalanced cs (cs <| CL_TranscriptInFlight := true |>) [Claude.parseJob cs path].
Proof. intros H. apply (balanced_start _ _ _ CTranscript); [done..|by intros []]. Qed.

Lemma startParse_balanced d cs :
  clBalanced cs (Claude.startTranscriptParse d cs).1 (Claude.startTranscriptParse d cs).2.
Proof.
  unfold Claude.startTranscriptParse. destruct (CL_TranscriptInFlight cs) eqn:E; [apply balanced_refl|].
  case_match; [apply balanced_refl|by apply claude_start].
Qed.

(** Watching and parsing [path] as a session start and a file change do. *)
Lemma watchParse_balanced cs path effs :
  startedInputs effs = [] ->
  let r := if CL_TranscriptInFlight cs then (cs, effs)
           else (cs <| CL_TranscriptInFlight := true |>, effs ++ [Claude.parseJob cs path]) in
  clBalanced cs r.1 r.2.
Proof.
  intros E r. subst r. destruct (CL_TranscriptInFlight cs) eqn:Ef.
  - by apply clSame_balanced.
  - by apply balanced_quiet_app, claude_start.
Qed.

(** The branch detection a session start asks for. *)
Lemma branch_balanced cs target :
  CS_BranchInFlight (CL_Common cs) = false ->
  clBalanced cs (cs <| CL_Common := CL_Common cs <| CS_BranchInFlight := true |>
                                   <| CS_BranchTarget := target |> |>)
    [startJob (BranchDetectInput target)].
Proof. intros H. apply (balanced_start _ _ _ CBranch); [done..|by intros []]. Qed.

Lemma sessionStart_balanced d cs ctx hp ts :
  clBalanced cs (Claude.handleSessionStart d cs ctx hp ts).1 (Claude.handleSessionStart d cs ctx hp ts).2.
Proof.
  unfold Claude.handleSessionStart.
  set (c1 := Claude.setStatus _ _ _). assert (clSame cs c1) as H1
    by (destruct (absorb_same cs hp) as [[]]; by repeat split).
  cbv zeta. clearbody c1. set (path := Claude.resolveTranscriptPath d c1). clearbody path.
  set (r := if bool_decide _ && _ then _ else (c1, [])).
  assert (clBalanced cs r.1 r.2) as H2.
  { subst r. destruct (_ && _); [|by apply clSame_balanced].
    eapply clBalanced_from; [|apply (watchParse_balanced (c1 <| CL_WatchedFile := path |>) path
      [Claude.watchTranscript path] eq_refl)]. by destruct H1 as [[]]. }
  clearbody r. destruct r as [c2 e2]. cbn [fst snd] in H2.
  pose proof (balanced_app_quiet _ _ _ _ _ (logEffects_quiet hp) H2) as H3.
  destruct (_ && _ && _) eqn:E; [|done]. apply andb_prop in E as [_ E%negb_true_iff].
  eapply balanced_trans; [exact H3|by apply branch_balanced].
Qed.

Lemma stateChange_balanced d cs hp st ts :
  clBalanced cs (Claude.handleStateChange d cs hp st ts).1 (Claude.handleStateChange d cs hp st ts).2.
Proof.
  unfold Claude.handleStateChange. cbv zeta. destruct (ParseStatus st) as [status ok].
  set (c1 := if ok then _ else _). assert (clSame cs c1) as H1
    by (destruct (absorb_same cs hp) as [[]]; subst c1; destruct ok; by repeat split).
  clearbody c1. pose proof (startParse_balanced d c1) as H2.
  destruct (Claude.startTranscriptParse d c1) as [c2 e2]. cbn [fst snd] in *.
  apply balanced_quiet_app; [apply logEffects_quiet|]. by eapply clBalanced_from.
Qed.

Lemma promptSubmit_balanced d cs hp ts :
  clBalanced cs (Claude.handleUserPromptSubmit d cs hp ts).1
    (Claude.handleUserPromptSubmit d cs hp ts).2.
Proof.
  unfold Claude.handleUserPromptSubmit. cbv zeta.
  set (c1 := Claude.setStatus _ _ _ <| CL_Common := _ |>). assert (clSame cs c1) as H1
    by (destruct (absorb_same cs hp) as [[]]; by repeat split).
  set (prompt := formatSummaryPrompt _ _). clearbody prompt. clearbody c1.
  pose proof (enqueueSummaryJob_balanced KClaude (CL_Common c1) (CL_TranscriptInFlight c1) prompt
    (Claude.logEffects hp) (logEffects_quiet hp)) as H2.
  destruct (enqueueSummaryJob _ _ prompt) as [e2 b]. cbn [fst snd] in H2.
  set (c2 := c1 <| CL_Common := _ |>). pose proof (startParse_balanced d c2) as H3.
  destruct (Claude.startTranscriptParse d c2) as [c3 e3]. cbn [fst snd] in *.
  eapply balanced_trans; [|exact H3]. by eapply clBalanced_from.
Qed.

Lemma toolLog_same cs hp ts :
  clSame cs (Claude.handleToolLog cs hp ts).1 /\ startedInputs (Claude.handleToolLog cs hp ts).2 = [].
Proof. unfold Claude.handleToolLog, Claude.emitToolLog. repeat case_match; done. Qed.

Lemma orderedHook_balanced d cs hp ts :
  clBalanced cs (Claude.handleOrderedHook d cs hp ts).1 (Claude.handleOrderedHook d cs hp ts).2.
Proof.
  unfold Claude.handleOrderedHook. destruct (String.eqb _ _); [apply promptSubmit_balanced|].
  pose proof (logEffects_quiet hp) as HL.
  do 2 (match goal with |- context [if ?b then (cs, _) else _] => destruct b end;
    [by apply clSame_balanced|]).
  destruct (toolLog_same cs hp ts) as [HS HQ]. destruct (Claude.handleToolLog cs hp ts) as [c1 e1].
  cbn [fst snd] in *. set (c2 := if String.eqb _ _ then _ else c1).
  assert (clSame cs c2) as H2 by (subst c2; destruct (String.eqb _ _); [by destruct HS as [[]]|done]).
  clearbody c2. case_decide.
  - apply clSame_balanced; [done|]. cbn [snd]. by rewrite startedInputs_app, HL, HQ.
  - pose proof (stateChange_balanced d c2 hp (Claude.deriveState hp) ts) as H3.
    destruct (Claude.handleStateChange _ _ _ _ _) as [c3 e3]. cbn [fst snd] in *.
    apply balanced_app_quiet; [done|]. by eapply clBalanced_from.
Qed.

Lemma claude_hook_balanced d cs ctx ts roost payload :
  clBalanced cs (Claude.handleHook d cs ctx ts roost payload).1
    (Claude.handleHook d cs ctx ts roost payload).2.
Proof.
  unfold Claude.handleHook. cbv zeta. case_decide; [apply balanced_refl|].
  set (c1 := cs <| CL_Common := _ |>). assert (clSame cs c1) as H1 by done. clearbody c1.
  destruct (negb _).
  { apply clSame_balanced; [|done]. unfold Claude.handleChildHook, Claude.bridgeTS.
    repeat case_match; done. }
  destruct (String.eqb _ _).
  { eapply clBalanced_from; [|apply sessionStart_balanced]. by destruct H1 as [[]]. }
  destruct (Claude.staleHook _ _); [by apply clSame_balanced|].
  eapply clBalanced_from; [|apply orderedHook_balanced]. unfold Claude.bridgeTS. by case_match.
Qed.

Lemma claude_files_balanced cs path :
  clBalanced cs (Claude.handleTranscriptChanged cs path).1 (Claude.handleTranscriptChanged cs path).2.
Proof.
  unfold Claude.handleTranscriptChanged. cbv zeta. case_decide; [apply balanced_refl|].
  set (p := orElse _ _). clearbody p.
  set (r := if decide _ then _ else _). assert (clSame cs r.1 /\ startedInputs r.2 = []) as [H1 H2]
    by (subst r; by case_decide). clearbody r. destruct r as [c1 e1]. cbn [fst snd] in *.
  eapply clBalanced_from; [exact H1|]. by apply watchParse_balanced.
Qed.

Lemma claude_stepRoot_balanced d cs ctx ev :
  isResult ev = false ->
  clBalanced cs (Claude.stepRoot d cs ctx ev).1 (Claude.stepRoot d cs ctx ev).2.
Proof.
  intros Hr. destruct ev; try done; cbn [Claude.stepRoot]; try apply balanced_refl.
  - apply claude_hook_balanced.
  - pose proof (HandleTick_balanced KClaude (CL_Common cs) now watched project
      (CL_TranscriptInFlight cs)) as H0. by destruct (HandleTick _ _ _ _).
  - apply claude_files_balanced.
  - apply clSame_balanced; [|done]. unfold Claude.handleWindowTitle. repeat case_match; done.
  - apply clSame_balanced; [done|]. unfold Claude.handleStatusLineClick. by case_match.
  - apply clSame_balanced; [|done]. split; [apply ApplyCommandExited_marks|done].
Qed.

Lemma claude_created d s : created (Claude.driver d) s -> unmarked KClaude s.
Proof.
  apply created_unmarked; cbn [Claude.driver Driver_NewState Driver_Restore Driver_Forkable
    Driver_CreateSessionPlanner Driver_StartDirAware].
  - intros. eexists. split_and!; [done..|]. by intros [].
  - intros. unfold Claude.Restore. case_decide; eexists; (split_and!; [done..|]);
      intros []; cbn; try done; unfold RestoreCommon; by case_decide.
  - intros fk parent now [= <-]. cbn. unfold Claude.forkChild.
    repeat case_match; eexists; (split_and!; [done..|]); by intros [].
  - intros planner s0 sid project command options s' launch [= <-] (ds & -> & Hk & _). cbn.
    destruct ds; try done. by intros [= <- _].
  - intros wp s0 dir [= <-] (ds & -> & Hk & H). destruct ds; try done.
    eexists. split_and!; [done..|]. intros c. specialize (H c). by destruct c.
Qed.

Lemma claude_recover_balanced d cs now :
  clBalanced cs (Claude.WarmStartRecover d (Some (DSClaude cs)) now).1
    (Claude.WarmStartRecover d (Some (DSClaude cs)) now).2.
Proof.
  unfold Claude.WarmStartRecover. cbn [Claude.asState]. case_decide; [apply balanced_refl|].
  set (p := Claude.resolveTranscriptPath d cs). clearbody p.
  set (c0 := cs <| CL_Common := _ |>). assert (clSame cs c0) as H0 by done. clearbody c0.
  set (r := if decide _ then _ else _). assert (clSame c0 r.1 /\ startedInputs r.2 = []) as [H1 H2]
    by (subst r; by case_decide). clearbody r. destruct r as [c1 e1]. cbn [fst snd] in *.
  eapply clBalanced_from; [exact H0|]. eapply clBalanced_from; [exact H1|]. by apply watchParse_balanced.
Qed.

#[export] Instance claude_jobs d : JobLaws (Claude.driver d) KClaude.
Proof.
  split.
  - apply claude_created.
  - intros [| |cs| |] ctx ev Hk Hr; try done. cbn [Claude.driver Driver_Step]. unfold Claude.Step.
    cbn [Claude.asState]. pose proof (claude_stepRoot_balanced d cs ctx ev Hr) as H.
    set (r := if Ctx_IsRoot ctx then _ else _). assert (clBalanced cs r.1 r.2) as HB.
    { subst r. destruct (Ctx_IsRoot ctx); [done|]. destruct ev; try apply balanced_refl.
      apply claude_hook_balanced. }
    clearbody r. destruct r as [cs' effs]. by exists (DSClaude cs'), effs, (Claude.view d cs').
  - intros [| |cs| |] ctx result err now Hk Hr; try done. cbn [Claude.driver Driver_Step].
    unfold Claude.Step. cbn [Claude.asState]. rewrite Hr. cbn [Claude.stepRoot].
    eexists (DSClaude _), _. split_and!; [done..|]. unfold Claude.handleJobResult.
    pose proof (commonJobResult_cleared KClaude (CL_Common cs) result err now (CL_TranscriptInFlight cs)) as H.
    destruct (commonJobResult _ _ _ _) as [c|]; [done|].
    destruct result; try done; [destruct err|..]; intros []; done.
  - intros [| |cs| |] ctx result err now Hk Hr; try done. cbn [Claude.driver Driver_Step].
    unfold Claude.Step. rewrite Hr. by eexists.
  - done.
  - intros recover [| |cs| |] now [= <-] Hk; try done. pose proof (claude_recover_balanced d cs now) as H.
    destruct (Claude.WarmStartRecover _ _ _) as [cs' effs]. by exists (DSClaude cs'), effs.
Qed.

(** ** Codex *)

Definition cxBalanced (cs cs' : CodexState) (effs : list Effect) : Prop :=
  balanced KCodex (inFlight (DSCodex cs)) (inFlight (DSCodex cs')) effs.

Definition cxSame (cs cs' : CodexState) : Prop :=
  sameMarks (CX_Common cs) (CX_Common cs') /\ CX_TranscriptInFlight cs' = CX_TranscriptInFlight cs.

Lemma cxSame_balanced cs cs' effs :
  cxSame cs cs' -> startedInputs effs = [] -> cxBalanced cs cs' effs.
Proof.
  intros [HM HT] E. apply balanced_quiet; [|done]. intros c. cbn. rewrite HT. by apply sameMarks_flags.
Qed.

Lemma cxBalanced_from cs0 cs cs' effs : cxSame cs0 cs -> cxBalanced cs cs' effs -> cxBalanced cs0 cs' effs.
Proof.
  intros H HB. apply (balanced_trans _ _ (inFlight (DSCodex cs)) _ []); [by apply cxSame_balanced|done].
Qed.

Lemma codex_startParse_balanced cs :
  cxBalanced cs (Codex.startCodexTranscriptParse cs).1 (Codex.startCodexTranscriptParse cs).2.
Proof.
  unfold Codex.startCodexTranscriptParse. destruct (_ || _) eqn:E; [apply balanced_refl|].
  apply orb_false_iff in E as [E _].
  apply (balanced_start _ _ _ CTranscript); [done..|by intros []].
Qed.

Lemma codex_watch_same cs :
  cxSame cs (Codex.watchCodexTranscript cs).1 /\ startedInputs (Codex.watchCodexTranscript cs).2 = [].
Proof. unfold Codex.watchCodexTranscript. by case_decide. Qed.

Lemma codex_watchParse_balanced cs :
  cxBalanced cs (Codex.watchAndParse cs).1 (Codex.watchAndParse cs).2.
Proof.
  unfold Codex.watchAndParse. destruct (codex_watch_same cs) as [H1 H2].
  destruct (Codex.watchCodexTranscript cs) as [c1 e1]. cbn [fst snd] in *.
  pose proof (codex_startParse_balanced c1) as H3.
  destruct (Codex.startCodexTranscriptParse c1) as [c2 e2]. cbn [fst snd] in *.
  apply balanced_quiet_app; [done|]. by eapply cxBalanced_from.
Qed.

Lemma codex_sessionStart_balanced cs ctx ts :
  cxBalanced cs (Codex.applySessionStart cs ctx ts).1 (Codex.applySessionStart cs ctx ts).2.
Proof.
  unfold Codex.applySessionStart. set (c1 := Codex.applyHookStatus _ _ _).
  assert (cxSame cs c1) as H1 by done. clearbody c1. pose proof (codex_startParse_balanced c1) as H2.
  destruct (Codex.startCodexTranscriptParse c1) as [c2 e2]. cbn [fst snd] in *.
  apply (cxBalanced_from cs) in H2; [|done].
  destruct (_ && _ && _) eqn:E; [|done]. apply andb_prop in E as [_ E%negb_true_iff].
  eapply balanced_trans; [exact H2|].
  apply (balanced_start _ _ _ CBranch); [done..|by intros []].
Qed.

Lemma codex_prompt_balanced cs prompt ts :
  cxBalanced cs (Codex.applyPrompt cs prompt ts).1 (Codex.applyPrompt cs prompt ts).2.
Proof.
  unfold Codex.applyPrompt. cbv zeta. set (c1 := Codex.applyHookStatus _ _ _).
  assert (cxSame cs c1) as H1 by done. set (text := formatSummaryPrompt _ _). clearbody text c1.
  pose proof (enqueueSummaryJob_balanced KCodex (CX_Common c1) (CX_TranscriptInFlight c1) text []
    eq_refl) as H2.
  destruct (enqueueSummaryJob _ _ text) as [e2 b]. cbn [fst snd] in H2.
  set (c2 := c1 <| CX_Common := _ |>). pose proof (codex_startParse_balanced c2) as H3.
  destruct (Codex.startCodexTranscriptParse c2) as [c3 e3]. cbn [fst snd] in *.
  eapply balanced_trans; [|exact H3]. by eapply cxBalanced_from.
Qed.

Lemma codex_kind_balanced cs ctx kind ts p :
  cxBalanced cs (Codex.applySubsystemKind cs ctx kind ts p).1
    (Codex.applySubsystemKind cs ctx kind ts p).2.
Proof.
  unfold Codex.applySubsystemKind.
  repeat (destruct (String.eqb kind _); [first [apply codex_sessionStart_balanced
    | apply codex_prompt_balanced | apply cxSame_balanced; [|done]; by repeat case_match | idtac]|]).
  - apply cxSame_balanced; [|done]. unfold Codex.handleSubsystemToolStarted. by repeat case_match.
  - unfold Codex.handleSubsystemToolCompleted, Codex.emitToolLog.
    apply cxSame_balanced; repeat case_match; done.
  - apply balanced_refl.
Qed.

Lemma codex_subsystem_balanced cs ctx kind ts p :
  cxBalanced cs (Codex.handleSubsystem cs ctx kind ts p).1 (Codex.handleSubsystem cs ctx kind ts p).2.
Proof.
  unfold Codex.handleSubsystem. cbv zeta. set (c1 := Codex.absorbTargets cs p).
  assert (cxSame cs c1) as H1 by done. clearbody c1.
  destruct (negb _); [by apply cxSame_balanced|].
  set (c2 := if decide _ then c1 else _). assert (cxSame cs c2) as H2
    by (subst c2; case_decide; [done|by destruct H1 as [[]]]). clearbody c2.
  set (c3 := c2 <| CX_StatusLine := _ |>). assert (cxSame cs c3) as H3 by done. clearbody c3.
  destruct (codex_watch_same c3) as [H4 H5].
  destruct (Codex.watchCodexTranscript c3) as [c4 e4]. cbn [fst snd] in *.
  pose proof (codex_kind_balanced c4 ctx kind ts p) as H6.
  destruct (Codex.applySubsystemKind _ _ _ _ _) as [c5 e5]. cbn [fst snd] in *.
  apply balanced_quiet_app; [done|]. eapply cxBalanced_from; [exact H3|]. by eapply cxBalanced_from.
Qed.

Lemma codex_stepRoot_balanced cs ctx ev :
  isResult ev = false -> cxBalanced cs (Codex.stepRoot cs ctx ev).1 (Codex.stepRoot cs ctx ev).2.
Proof.
  intros Hr. destruct ev; try done; cbn [Codex.stepRoot]; try apply balanced_refl.
  - apply codex_subsystem_balanced.
  - pose proof (HandleTick_balanced KCodex (CX_Common cs) now watched project
      (CX_TranscriptInFlight cs)) as H0. by destruct (HandleTick _ _ _ _).
  - unfold Codex.handleTranscriptChanged. case_decide; [apply balanced_refl|apply codex_watchParse_balanced].
  - apply cxSame_balanced; [|done]. unfold Codex.handleWindowTitle. repeat case_match; done.
  - apply cxSame_balanced; [|done]. split; [apply ApplyCommandExited_marks|done].
Qed.

Lemma codex_created d s : created (Codex.driver d) s -> unmarked KCodex s.
Proof.
  apply created_unmarked; cbn [Codex.driver Driver_NewState Driver_Restore Driver_Forkable
    Driver_CreateSessionPlanner Driver_StartDirAware].
  - intros. eexists. split_and!; [done..|]. by intros [].
  - intros. unfold Codex.Restore. case_decide; eexists; (split_and!; [done..|]);
      intros []; cbn; try done; unfold RestoreCommon; by case_decide.
  - done.
  - intros planner s0 sid project command options s' launch [= <-] (ds & -> & Hk & _). cbn.
    destruct ds; try done. by intros [= <- _].
  - intros wp s0 dir [= <-] (ds & -> & Hk & H). destruct ds; try done.
    eexists. split_and!; [done..|]. intros c. specialize (H c). by destruct c.
Qed.

Lemma codex_boot_balanced cs ctx now :
  cxBalanced cs (Codex.BootstrapSessionStart (Some (DSCodex cs)) ctx now).1
    (Codex.BootstrapSessionStart (Some (DSCodex cs)) ctx now).2.
Proof.
  unfold Codex.BootstrapSessionStart. cbn [Codex.asState]. destruct (codex_watch_same cs) as [H1 H2].
  destruct (Codex.watchCodexTranscript cs) as [c1 e1]. cbn [fst snd] in *.
  pose proof (codex_sessionStart_balanced c1 ctx now) as H3.
  destruct (Codex.applySessionStart c1 ctx now) as [c2 e2]. cbn [fst snd] in *.
  apply balanced_quiet_app; [done|]. by eapply cxBalanced_from.
Qed.

#[export] Instance codex_jobs d : JobLaws (Codex.driver d) KCodex.
Proof.
  split.
  - apply codex_created.
  - intros [| | |cs|] ctx ev Hk Hr; try done. cbn [Codex.driver Driver_Step]. unfold Codex.Step.
    cbn [Codex.asState]. pose proof (codex_stepRoot_balanced cs ctx ev Hr) as H.
    set (r := if Ctx_IsRoot ctx then _ else _). assert (cxBalanced cs r.1 r.2) as HB.
    { subst r. destruct (Ctx_IsRoot ctx); [done|]. destruct ev; try apply balanced_refl.
      apply codex_subsystem_balanced. }
    clearbody r. destruct r as [cs' effs]. by exists (DSCodex cs'), effs, (Codex.view d cs').
  - intros [| | |cs|] ctx result err now Hk Hr; try done. cbn [Codex.driver Driver_Step].
    unfold Codex.Step. cbn [Codex.asState]. rewrite Hr. cbn [Codex.stepRoot].
    eexists (DSCodex _), _. split_and!; [done..|]. unfold Codex.handleJobResult.
    pose proof (commonJobResult_cleared KCodex (CX_Common cs) result err now (CX_TranscriptInFlight cs)) as H.
    destruct (commonJobResult _ _ _ _) as [c|]; [done|].
    destruct result; try done; intros []; try done; destruct err; try done; cbv zeta; by case_match.
  - intros [| | |cs|] ctx result err now Hk Hr; try done. cbn [Codex.driver Driver_Step].
    unfold Codex.Step. rewrite Hr. by eexists.
  - intros boot [| | |cs|] ctx now [= <-] Hk; try done. pose proof (codex_boot_balanced cs ctx now) as H.
    destruct (Codex.BootstrapSessionStart _ _ _) as [cs' effs]. by exists (DSCodex cs'), effs.
  - intros recover [| | |cs|] now [= <-] Hk; try done. pose proof (codex_watchParse_balanced cs) as H.
    unfold Codex.WarmStartRecover. cbn [Codex.asState].
    destruct (Codex.watchAndParse cs) as [cs' effs]. by exists (DSCodex cs'), effs.
Qed.

(** ** Gemini *)

Definition gmBalanced (gs gs' : GeminiState) (effs : list Effect) : Prop :=
  balanced KGemini (inFlight (DSGemini gs)) (inFlight (DSGemini gs')) effs.

Definition gmSame (gs gs' : GeminiState) : Prop :=
  sameMarks (GM_Common gs) (GM_Common gs') /\ GM_TranscriptInFlight gs' = GM_TranscriptInFlight gs.

Lemma gmSame_balanced gs gs' effs :
  gmSame gs gs' -> startedInputs effs = [] -> gmBalanced gs gs' effs.
Proof.
  intros [HM HT] E. apply balanced_quiet; [|done]. intros c. cbn. rewrite HT. by apply sameMarks_flags.
Qed.

Lemma gmBalanced_from gs0 gs gs' effs : gmSame gs0 gs -> gmBalanced gs gs' effs -> gmBalanced gs0 gs' effs.
Proof.
  intros H HB. apply (balanced_trans _ _ (inFlight (DSGemini gs)) _ []); [by apply gmSame_balanced|done].
Qed.

Lemma gemini_startParse_balanced gs :
  gmBalanced gs (Gemini.startGeminiTranscriptParse gs).1 (Gemini.startGeminiTranscriptParse gs).2.
Proof.
  unfold Gemini.startGeminiTranscriptParse. destruct (_ || _) eqn:E; [apply balanced_refl|].
  apply orb_false_iff in E as [E _].
  apply (balanced_start _ _ _ CTranscript); [done..|by intros []].
Qed.

Lemma gemini_watch_same gs :
  gmSame gs (Gemini.watchGeminiTranscript gs).1 /\ startedInputs (Gemini.watchGeminiTranscript gs).2 = [].
Proof. unfold Gemini.watchGeminiTranscript. by case_decide. Qed.

Lemma gemini_watchParse_balanced gs :
  gmBalanced gs (Gemini.watchAndParse gs).1 (Gemini.watchAndParse gs).2.
Proof.
  unfold Gemini.watchAndParse. destruct (gemini_watch_same gs) as [H1 H2].
  destruct (Gemini.watchGeminiTranscript gs) as [c1 e1]. cbn [fst snd] in *.
  pose proof (gemini_startParse_balanced c1) as H3.
  destruct (Gemini.startGeminiTranscriptParse c1) as [c2 e2]. cbn [fst snd] in *.
  apply balanced_quiet_app; [done|]. by eapply gmBalanced_from.
Qed.

Lemma gemini_sessionStart_balanced gs ts :
  gmBalanced gs (Gemini.geminiSessionStart gs ts).1 (Gemini.geminiSessionStart gs ts).2.
Proof.
  unfold Gemini.geminiSessionStart. cbv zeta. set (c1 := Gemini.setStatus _ _ _).
  assert (gmSame gs c1) as H1 by done. clearbody c1. pose proof (gemini_startParse_balanced c1) as H2.
  destruct (Gemini.startGeminiTranscriptParse c1) as [c2 e2]. cbn [fst snd] in *.
  apply (gmBalanced_from gs) in H2; [|done].
  destruct (_ && _) eqn:E; [|done]. apply andb_prop in E as [_ E%negb_true_iff].
  eapply balanced_trans; [exact H2|].
  apply (balanced_start _ _ _ CBranch); [done..|by intros []].
Qed.

Lemma gemini_beforeAgent_balanced gs prompt ts :
  gmBalanced gs (Gemini.geminiBeforeAgent gs prompt ts).1 (Gemini.geminiBeforeAgent gs prompt ts).2.
Proof.
  unfold Gemini.geminiBeforeAgent. cbv zeta. set (c1 := Gemini.setStatus _ _ _).
  assert (gmSame gs c1) as H1 by done. set (text := formatSummaryPrompt _ _). clearbody text c1.
  pose proof (enqueueSummaryJob_balanced KGemini (GM_Common c1) (GM_TranscriptInFlight c1) text []
    eq_refl) as H2.
  destruct (enqueueSummaryJob _ _ text) as [e2 b]. cbn [fst snd] in *. by eapply gmBalanced_from.
Qed.

Lemma gemini_event_balanced gs hp ts :
  gmBalanced gs (Gemini.handleGeminiHookEvent gs hp ts).1 (Gemini.handleGeminiHookEvent gs hp ts).2.
Proof.
  unfold Gemini.handleGeminiHookEvent.
  repeat (destruct (String.eqb (GHP_HookEventName hp) _); [first [apply gemini_sessionStart_balanced
    | apply gemini_beforeAgent_balanced | idtac]|]); [..|apply balanced_refl].
  - apply gmSame_balanced; [|done]. unfold Gemini.handleGeminiPendingTool. by case_match.
  - unfold Gemini.emitGeminiToolLog. apply gmSame_balanced; repeat case_match; done.
  - eapply gmBalanced_from; [|apply gemini_startParse_balanced]. done.
  - unfold Gemini.markGeminiPermissionPrompt. apply gmSame_balanced; repeat case_match; done.
  - by apply gmSame_balanced.
Qed.

Lemma gemini_hook_balanced gs ctx ts roost payload :
  gmBalanced gs (Gemini.handleHook gs ctx ts roost payload).1
    (Gemini.handleHook gs ctx ts roost payload).2.
Proof.
  unfold Gemini.handleHook. cbv zeta.
  destruct (applyHookPreamble _ _ _ _) as [c|] eqn:Ep; [|apply balanced_refl].
  set (c1 := gs <| GM_Common := c |> <| GM_GeminiSessionID := _ |>). assert (gmSame gs c1) as H1.
  { unfold applyHookPreamble in Ep. repeat case_match; simplify_eq/=; done. }
  clearbody c1. destruct (negb _); [by apply gmSame_balanced|].
  destruct (gemini_watch_same c1) as [H2 H3].
  destruct (Gemini.watchGeminiTranscript c1) as [c2 e2]. cbn [fst snd] in *.
  pose proof (gemini_event_balanced c2 (parseGeminiHookPayload payload) ts) as H4.
  destruct (Gemini.handleGeminiHookEvent _ _ _) as [c3 e3]. cbn [fst snd] in *.
  apply balanced_quiet_app; [done|]. apply balanced_app_quiet; [by case_decide|].
  eapply gmBalanced_from; [exact H1|]. by eapply gmBalanced_from.
Qed.

Lemma gemini_stepRoot_balanced gs ctx ev :
  isResult ev = false -> gmBalanced gs (Gemini.stepRoot gs ctx ev).1 (Gemini.stepRoot gs ctx ev).2.
Proof.
  intros Hr. destruct ev; try done; cbn [Gemini.stepRoot]; try apply balanced_refl.
  - apply gemini_hook_balanced.
  - pose proof (HandleTick_balanced KGemini (GM_Common gs) now watched project
      (GM_TranscriptInFlight gs)) as H0. by destruct (HandleTick _ _ _ _).
  - unfold Gemini.handleTranscriptChanged. case_decide; [apply balanced_refl|apply gemini_watchParse_balanced].
  - apply gmSame_balanced; [|done]. unfold Gemini.handleWindowTitle. repeat case_match; done.
  - apply gmSame_balanced; [|done]. split; [apply ApplyCommandExited_marks|done].
Qed.

Lemma gemini_created d s : created (Gemini.driver d) s -> unmarked KGemini s.
Proof.
  apply created_unmarked; cbn [Gemini.driver Driver_NewState Driver_Restore Driver_Forkable
    Driver_CreateSessionPlanner Driver_StartDirAware].
  - intros. eexists. split_and!; [done..|]. by intros [].
  - intros. unfold Gemini.Restore. case_decide; eexists; (split_and!; [done..|]);
      intros []; cbn; try done; unfold RestoreCommon; by case_decide.
  - done.
  - intros planner s0 sid project command options s' launch [= <-] (ds & -> & Hk & _). cbn.
    destruct ds; try done. by intros [= <- _].
  - intros wp s0 dir [= <-] (ds & -> & Hk & H). destruct ds; try done.
    eexists. split_and!; [done..|]. intros c. specialize (H c). by destruct c.
Qed.

#[export] Instance gemini_jobs d : JobLaws (Gemini.driver d) KGemini.
Proof.
  split.
  - apply gemini_created.
  - intros [| | | |gs] ctx ev Hk Hr; try done. cbn [Gemini.driver Driver_Step]. unfold Gemini.Step.
    cbn [Gemini.asState]. pose proof (gemini_stepRoot_balanced gs ctx ev Hr) as H.
    set (r := if Ctx_IsRoot ctx then _ else _). assert (gmBalanced gs r.1 r.2) as HB.
    { subst r. destruct (Ctx_IsRoot ctx); [done|]. destruct ev; try apply balanced_refl.
      apply gemini_hook_balanced. }
    clearbody r. destruct r as [gs' effs]. by exists (DSGemini gs'), effs, (Gemini.view d gs').
  - intros [| | | |gs] ctx result err now Hk Hr; try done. cbn [Gemini.driver Driver_Step].
    unfold Gemini.Step. cbn [Gemini.asState]. rewrite Hr. cbn [Gemini.stepRoot].
    eexists (DSGemini _), _. split_and!; [done..|]. unfold Gemini.handleJobResult.
    pose proof (commonJobResult_cleared KGemini (GM_Common gs) result err now (GM_TranscriptInFlight gs)) as H.
    destruct (commonJobResult _ _ _ _) as [c|]; [done|].
    destruct result; try done; intros []; try done; by destruct err.
  - intros [| | | |gs] ctx result err now Hk Hr; try done. cbn [Gemini.driver Driver_Step].
    unfold Gemini.Step. rewrite Hr. by eexists.
  - done.
  - intros recover [| | | |gs] now [= <-] Hk; try done. pose proof (gemini_watchParse_balanced gs) as H.
    unfold Gemini.WarmStartRecover. cbn [Gemini.asState].
    destruct (Gemini.watchAndParse gs) as [gs' effs]. by exists (DSGemini gs'), effs.
Qed.
End laws.
