(* ===== verification/DriverWorld.v ===== *)
(** * A frame's driver and the worker pool

    The composition of client/driver with client/runtime/worker, as the daemon
    routes them: the jobs a driver step starts get the next job ids and are
    dispatched (client/runtime/interpret.go); a result goes back to the driver
    if its job is one of the frame's ([reduceJobResult]).  Other frames submit
    jobs of their own.  The reducer records a job before the pool takes it:
    [W_Jobs] also has the jobs the pool refused, which [W_Refused], a history
    the code does not keep, tells apart. *)

From S2P Require Import Prelude GoStd GoText ClientView ClientState DriverTypes DriverText DriverCommon DriverShell DriverClaude DriverCodex DriverGemini WorkerPool DriverJobs.
Open Scope Z_scope.

Section world.
Context {DT : DriverTypes} {DE : DriverEnv}.

(** ** The runners (runners.go) *)

(** What the runners' I/O may return. *)
Record RunnerOutcomes := mkRunnerOutcomes {
  transcript_parse : string -> string -> TranscriptParseResult -> option error -> Prop;
  codex_transcript_parse : string -> CodexTranscriptParseResult -> option error -> Prop;
  gemini_transcript_parse : string -> GeminiTranscriptParseResult -> option error -> Prop;
  summary_command : string -> string -> option error -> Prop;
  branch_detect : string -> BranchDetectResult -> option error -> Prop;
}.

(** Every runner returns its own result type, with or without an error. *)
Definition RegisterRunners (o : RunnerOutcomes) : gmap string Runner :=
  let r := ∅ in
  let r := RegisterRunner r "transcript_parse" (fun input result err =>
    match input, result with
    | TranscriptParseInput uuid path, ResultTranscript out => transcript_parse o uuid path out err
    | _, _ => False end) in
  let r := RegisterRunner r "codex_transcript_parse" (fun input result err =>
    match input, result with
    | CodexTranscriptParseInput path, ResultCodexTranscript out => codex_transcript_parse o path out err
    | _, _ => False end) in
  let r := RegisterRunner r "gemini_transcript_parse" (fun input result err =>
    match input, result with
    | GeminiTranscriptParseInput path, ResultGeminiTranscript out => gemini_transcript_parse o path out err
    | _, _ => False end) in
  let r := RegisterRunner r "summary_command" (fun input result err =>
    match input, result with
    | SummaryCommandInput prompt, SummaryCommandResult out => summary_command o prompt out err
    | _, _ => False end) in
  RegisterRunner r "branch_detect" (fun input result err =>
    match input, result with
    | BranchDetectInput dir, ResultBranch out => branch_detect o dir out err
    | _, _ => False end).

Lemma runners_typed o kind runner input result err :
  RegisterRunners o !! kind = Some runner -> runner input result err ->
  forall k, resultClass k result = inputClass k input.
Proof.
  unfold RegisterRunners, RegisterRunner. cbv zeta. rewrite !lookup_insert_Some, lookup_empty.
  intros H Hr k.
  repeat (destruct H as [[_ <-]|[_ H]]; [destruct input, result; try done; by destruct k|]). done.
Qed.

(** Every job has a runner. *)
Lemma runners_complete o input : is_Some (RegisterRunners o !! JobKind input).
Proof. destruct input; by eexists. Qed.

(** ** The world *)

(** [W_Jobs]: the frame's entries of the reducer's [Jobs].  [W_Refused]: the
    jobs of the frame that [Submit] dropped, each with the pool that did. *)
Record World := mkWorld {
  W_State : DriverStates;
  W_NextJobID : JobID;
  W_Jobs : gmap JobID DriverJobInput;
  W_Pool : @Pool DriverClientTypes;
  W_Refused : gmap JobID (@Pool DriverClientTypes);
}.
#[export] Instance eta_World : Eta World := fun r =>
  mkWorld (W_State r) (W_NextJobID r) (W_Jobs r) (W_Pool r) (W_Refused r).

Context (o : RunnerOutcomes) (drv : Driver) (k : driverKind) (ctx : FrameContext).
Context {HL : JobLaws drv k}.

(** Whether [Submit] drops a job. *)
Definition refuses (p : @Pool DriverClientTypes) : bool :=
  Pool_Closed p || (queueCap <=? length (Pool_Jobs p))%nat.
Definition noteRefused (w : World) : gmap JobID (@Pool DriverClientTypes) :=
  if refuses (W_Pool w) then <[W_NextJobID w := W_Pool w]> (W_Refused w) else W_Refused w.

(** A job of the frame, and one of another frame. *)
Definition startOwn (w : World) (input : DriverJobInput) : World :=
  w <| W_NextJobID := W_NextJobID w + 1 |> <| W_Jobs := <[W_NextJobID w := input]> (W_Jobs w) |>
    <| W_Pool := Dispatch JobKind (RegisterRunners o) (W_Pool w) (W_NextJobID w) input |>
    <| W_Refused := noteRefused w |>.
Definition startOther (w : World) (input : DriverJobInput) : World :=
  w <| W_NextJobID := W_NextJobID w + 1 |>
    <| W_Pool := Dispatch JobKind (RegisterRunners o) (W_Pool w) (W_NextJobID w) input |>.

(** The driver's state after a step, a bootstrap or a recovery. *)
Definition moved (ds : DriverStates) (r : DriverState * list Effect) : DriverStates * list Effect :=
  match r with
  | (Some ds', effs) => (ds', effs)
  | (None, effs) => (ds, effs)
  end.
Definition drvStep (ds : DriverStates) (ev : DriverEvent) : DriverStates * list Effect :=
  moved ds (Driver_Step drv (Some ds) ctx ev).1.
Definition drvBoot (ds : DriverStates) (now : Time) : DriverStates * list Effect :=
  match Driver_BootstrapSessionStart drv with
  | Some boot => moved ds (boot (Some ds) ctx now)
  | None => (ds, [])
  end.
Definition drvRecover (ds : DriverStates) (now : Time) : DriverStates * list Effect :=
  match Driver_WarmStartRecoverer drv with
  | Some recover => moved ds (recover (Some ds) now)
  | None => (ds, [])
  end.

(** The world after the driver has moved, and after an event of the frame. *)
Definition afterMove (w : World) (r : DriverStates * list Effect) : World :=
  foldl startOwn (w <| W_State := r.1 |>) (startedInputs r.2).
Definition afterEvent (w : World) (ev : DriverEvent) : World :=
  afterMove w (drvStep (W_State w) ev).

Inductive world_step (w : World) : World -> Prop :=
| world_event ev :
    isResult ev = false ->
    world_step w (afterEvent w ev)
| world_boot now : world_step w (afterMove w (drvBoot (W_State w) now))
| world_recover now : world_step w (afterMove w (drvRecover (W_State w) now))
| world_other input : world_step w (startOther w input)
| world_pool p : pool_step (W_Pool w) p -> world_step w (w <| W_Pool := p |>)
| world_result ev p input now :
    receive (W_Pool w) = Some (ev, p) -> W_Jobs w !! Res_JobID ev = Some input ->
    world_step w (w <| W_Pool := p |> <| W_Jobs := delete (Res_JobID ev) (W_Jobs w) |>
      <| W_State := (drvStep (W_State w) (DEvJobResult (Res_Result ev) (Res_Err ev) now)).1 |>)
| world_foreign ev p :
    receive (W_Pool w) = Some (ev, p) -> W_Jobs w !! Res_JobID ev = None ->
    world_step w (w <| W_Pool := p |>)
| world_stop : world_step w (w <| W_Pool := Stop (W_Pool w) |>).

Definition startWorld (ds : DriverStates) (size : nat) : World := mkWorld ds 1 ∅ (NewPool size) ∅.

(** ** Counting *)

Definition ownCount (c : jobClass) (m : gmap JobID DriverJobInput) : nat :=
  classCount k c (map_to_list m).*2.

#[local] Instance classCount_perm c : Proper ((≡ₚ) ==> eq) (classCount k c).
Proof. intros l l' H. unfold classCount. by rewrite H. Qed.
Lemma classCount_cons c i l :
  classCount k c (i :: l) = (classCount k c [i] + classCount k c l)%nat.
Proof. apply (classCount_app k c [i] l). Qed.

Lemma ownCount_insert c m id i :
  m !! id = None -> ownCount c (<[id := i]> m) = (classCount k c [i] + ownCount c m)%nat.
Proof.
  intros H. unfold ownCount. rewrite map_to_list_insert by done. cbn [fmap list_fmap snd].
  apply classCount_cons.
Qed.
Lemma ownCount_delete c m id i :
  m !! id = Some i -> ownCount c m = (classCount k c [i] + ownCount c (delete id m))%nat.
Proof.
  intros H. rewrite <- (insert_delete_id _ _ _ H) at 1. apply ownCount_insert, lookup_delete_eq.
Qed.
Lemma classCount_one c i : classCount k c [i] = Nat.b2n (bool_decide (inputClass k i = Some c)).
Proof. unfold classCount. cbn. case_bool_decide; by case_decide. Qed.

(** ** The invariant *)

(** Jobs and results of the frame carry the input on record. *)
Definition jobTyped (m : gmap JobID DriverJobInput) (j : job) : Prop :=
  (exists kind, RegisterRunners o !! kind = Some (Job_Run j)) /\
  forall input, m !! Job_ID j = Some input -> Job_Input j = input.
Definition resultTyped (m : gmap JobID DriverJobInput) (ev : jobResult) : Prop :=
  forall input, m !! Res_JobID ev = Some input -> resultClass k (Res_Result ev) = inputClass k input.

(** Where a job of the frame is while the pool runs: with the pool, or nowhere
    if the queue was full when it was submitted. *)
Definition whereabouts (w : World) (id : JobID) : Prop :=
  match W_Refused w !! id with
  | Some p => (queueCap <= length (Pool_Jobs p))%nat /\ id ∉ owed (W_Pool w)
  | None => id ∈ owed (W_Pool w)
  end.
Record placed (w : World) : Prop := {
  pl_stopped : Pool_Closed (W_Pool w) = Pool_Cancelled (W_Pool w);
  pl_refused id : is_Some (W_Refused w !! id) -> id < W_NextJobID w;
  pl_where id : Pool_Cancelled (W_Pool w) = false -> is_Some (W_Jobs w !! id) -> whereabouts w id;
}.

Record world_ok (w : World) : Prop := {
  wo_kind : kindOf (W_State w) = k;
  wo_marks c : (ownCount c (W_Jobs w) <= Nat.b2n (inFlight (W_State w) c))%nat;
  wo_root c : Ctx_IsRoot ctx = true -> (Nat.b2n (inFlight (W_State w) c) <= ownCount c (W_Jobs w))%nat;
  wo_jobs id : is_Some (W_Jobs w !! id) -> id < W_NextJobID w;
  wo_owed id : id ∈ owed (W_Pool w) -> id < W_NextJobID w;
  wo_nodup : NoDup (owed (W_Pool w));
  wo_typed : poolAll (jobTyped (W_Jobs w)) (resultTyped (W_Jobs w)) (W_Pool w);
  wo_placed : placed w;
}.

Lemma Dispatch_owed p id input :
  owed (Dispatch JobKind (RegisterRunners o) p id input) ≡ₚ (if refuses p then [] else [id]) ++ owed p.
Proof.
  unfold Dispatch. destruct (runners_complete o input) as [runner ->].
  rewrite Submit_owed. cbn [Job_ID]. unfold refuses. destruct (Pool_Closed p); [done|]. cbn [orb].
  by destruct (Nat.ltb_spec (length (Pool_Jobs p)) queueCap), (Nat.leb_spec queueCap (length (Pool_Jobs p))); try lia.
Qed.

Lemma Dispatch_new p id input id' :
  id' ∈ owed (Dispatch JobKind (RegisterRunners o) p id input) <->
  (refuses p = false /\ id' = id) \/ id' ∈ owed p.
Proof.
  rewrite Dispatch_owed, elem_of_app. destruct (refuses p); rewrite ?elem_of_nil, ?list_elem_of_singleton; naive_solver.
Qed.

Lemma Dispatch_flags p id input :
  Pool_Closed (Dispatch JobKind (RegisterRunners o) p id input) = Pool_Closed p /\
  Pool_Cancelled (Dispatch JobKind (RegisterRunners o) p id input) = Pool_Cancelled p.
Proof. unfold Dispatch, Submit. repeat case_match; done. Qed.

Lemma Dispatch_typed m p id input :
  (forall i, m !! id = Some i -> i = input) ->
  poolAll (jobTyped m) (resultTyped m) p ->
  poolAll (jobTyped m) (resultTyped m) (Dispatch JobKind (RegisterRunners o) p id input).
Proof.
  intros Hm Hp. unfold Dispatch.
  destruct (RegisterRunners o !! JobKind input) as [runner|] eqn:E; [|done].
  apply poolAll_Submit; [|done]. split; [by eexists|]. cbn. intros i Hi. symmetry. by apply Hm.
Qed.

(** Recording a fresh job does not concern the jobs in the pool. *)
Lemma typed_fresh m p id input :
  (forall id', id' ∈ owed p -> id' < id) ->
  poolAll (jobTyped m) (resultTyped m) p ->
  poolAll (jobTyped (<[id := input]> m)) (resultTyped (<[id := input]> m)) p.
Proof.
  intros Hlt. apply poolAll_mono.
  - intros j Hin [Hk Hi]. split; [done|]. intros i. apply Hlt in Hin.
    rewrite lookup_insert_ne by lia. apply Hi.
  - intros ev Hin Hi i. apply Hlt in Hin. rewrite lookup_insert_ne by lia. apply Hi.
Qed.

(** A frame's state apart, starting jobs keeps the books. *)
Record books_ok (w : World) : Prop := {
  bo_jobs id : is_Some (W_Jobs w !! id) -> id < W_NextJobID w;
  bo_owed id : id ∈ owed (W_Pool w) -> id < W_NextJobID w;
  bo_nodup : NoDup (owed (W_Pool w));
  bo_typed : poolAll (jobTyped (W_Jobs w)) (resultTyped (W_Jobs w)) (W_Pool w);
  bo_placed : placed w;
}.

(** The world after a job was dispatched, with the books [m] and [rf]. *)
Definition dispatched (w : World) (m : gmap JobID DriverJobInput)
    (rf : gmap JobID (@Pool DriverClientTypes)) (input : DriverJobInput) : World :=
  mkWorld (W_State w) (W_NextJobID w + 1) m
    (Dispatch JobKind (RegisterRunners o) (W_Pool w) (W_NextJobID w) input) rf.

(** They have the job if it is the frame's. *)
Inductive noted (w : World) (input : DriverJobInput)
    : gmap JobID DriverJobInput -> gmap JobID (@Pool DriverClientTypes) -> Prop :=
| noted_own : noted w input (<[W_NextJobID w := input]> (W_Jobs w)) (noteRefused w)
| noted_other : noted w input (W_Jobs w) (W_Refused w).

Lemma noted_old w input m rf id :
  noted w input m rf -> id < W_NextJobID w -> m !! id = W_Jobs w !! id /\ rf !! id = W_Refused w !! id.
Proof.
  intros [] Hlt; [|done]. unfold noteRefused. rewrite lookup_insert_ne by lia.
  destruct (refuses _); [|done]. by rewrite lookup_insert_ne by lia.
Qed.
Lemma noted_le w input m rf id :
  books_ok w -> noted w input m rf -> is_Some (m !! id) \/ is_Some (rf !! id) ->
  id < W_NextJobID w \/ id = W_NextJobID w /\ m = <[W_NextJobID w := input]> (W_Jobs w) /\ rf = noteRefused w.
Proof.
  intros Hb Hn H. destruct (decide (id = W_NextJobID w)) as [->|Hne].
  - destruct Hn; [by right|]. left. destruct H as [H|H]; [by apply (bo_jobs _ Hb)|by apply (pl_refused _ (bo_placed _ Hb))].
  - left. destruct Hn as [|]; [|destruct H as [H|H]; [by apply (bo_jobs _ Hb)|by apply (pl_refused _ (bo_placed _ Hb))]].
    unfold noteRefused in H. rewrite lookup_insert_ne in H by done. destruct H as [H|H]; [by apply (bo_jobs _ Hb)|].
    apply (pl_refused _ (bo_placed _ Hb)). destruct (refuses _); [|done]. by rewrite lookup_insert_ne in H by done.
Qed.

Lemma placed_dispatch w m rf input :
  books_ok w -> noted w input m rf -> placed (dispatched w m rf input).
Proof.
  intros Hb Hn. destruct (bo_placed _ Hb) as [HS HR HW].
  pose proof (Dispatch_flags (W_Pool w) (W_NextJobID w) input) as [HF1 HF2]. split; cbn.
  - congruence.
  - intros id Hid. destruct (noted_le _ _ _ _ id Hb Hn (or_intror Hid)) as [|[-> _]]; lia.
  - rewrite HF2. intros id Hc Hid. unfold whereabouts, dispatched. cbn [W_Refused W_Pool].
    destruct (noted_le _ _ _ _ id Hb Hn (or_introl Hid)) as [Hlt|(-> & -> & ->)].
    + destruct (noted_old _ _ _ _ id Hn Hlt) as [E1 E2]. rewrite E1 in Hid. specialize (HW id Hc Hid).
      unfold whereabouts in HW. rewrite E2. destruct (W_Refused w !! id); rewrite Dispatch_new; [|by right].
      destruct HW as [? HW]. split; [done|]. intros [[_ ->]|]; [lia|done].
    + assert (W_NextJobID w ∉ owed (W_Pool w)) as Hno by (intros H%(bo_owed _ Hb); lia).
      unfold noteRefused. destruct (refuses (W_Pool w)) eqn:E.
      * rewrite lookup_insert_eq, Dispatch_new, E. unfold refuses in E. rewrite HS, Hc in E.
        apply Nat.leb_le in E. naive_solver.
      * replace (W_Refused w !! W_NextJobID w) with (@None (@Pool DriverClientTypes)); [rewrite Dispatch_new; auto|].
        symmetry. apply eq_None_not_Some. intros H%HR. lia.
Qed.

Lemma books_dispatch w m rf input :
  books_ok w -> noted w input m rf -> books_ok (dispatched w m rf input).
Proof.
  intros Hb Hn. pose proof (placed_dispatch _ _ _ _ Hb Hn) as HP. split; [..|exact HP]; cbn.
  - intros id Hid. destruct (noted_le _ _ _ _ id Hb Hn (or_introl Hid)) as [|[-> _]]; lia.
  - intros id. rewrite Dispatch_new. intros [[_ ->]|H%(bo_owed _ Hb)]; lia.
  - rewrite Dispatch_owed. destruct (refuses _); [by destruct Hb|]. apply NoDup_cons. split; [|by destruct Hb].
    intros H%(bo_owed _ Hb). lia.
  - assert (W_Jobs w !! W_NextJobID w = None) as Hfresh by (apply eq_None_not_Some; intros H%(bo_jobs _ Hb); lia).
    destruct Hn; apply Dispatch_typed.
    + intros i. rewrite lookup_insert_eq. congruence.
    + apply typed_fresh; [|by destruct Hb]. apply (bo_owed _ Hb).
    + congruence.
    + by destruct Hb.
Qed.

Lemma books_of w : world_ok w -> books_ok w.
Proof. by intros []. Qed.

(** Starting the jobs of a step records each of them. *)
Lemma startOwn_books inputs : forall w,
  books_ok w ->
  books_ok (foldl startOwn w inputs) /\ W_State (foldl startOwn w inputs) = W_State w /\
  forall c, ownCount c (W_Jobs (foldl startOwn w inputs))
          = (ownCount c (W_Jobs w) + classCount k c inputs)%nat.
Proof.
  induction inputs as [|i inputs IH]; intros w Hw; [split_and!; [done..|]; intros; cbn; lia|].
  cbn [foldl]. assert (books_ok (startOwn w i)) as H1 by (apply (books_dispatch w); [done|constructor]).
  destruct (IH _ H1) as (H2 & H3 & H4). split_and!; [done|by rewrite H3|].
  intros c. rewrite H4, (classCount_cons c i). cbn [startOwn W_Jobs].
  change (W_Jobs (startOwn w i)) with (<[W_NextJobID w := i]> (W_Jobs w)).
  rewrite ownCount_insert; [lia|].
  apply eq_None_not_Some. intros H%(bo_jobs _ Hw). lia.
Qed.

(** What a move of the driver does to its marks. *)
Definition move_ok (ds : DriverStates) (r : DriverStates * list Effect) : Prop :=
  kindOf r.1 = k /\
  forall c, Nat.b2n (inFlight r.1 c) = (Nat.b2n (inFlight ds c) + classCount k c (startedInputs r.2))%nat.

Lemma drvStep_event ds ev : kindOf ds = k -> isResult ev = false -> move_ok ds (drvStep ds ev).
Proof.
  intros Hk Hr. destruct (jl_step ds ctx ev Hk Hr) as (ds' & effs & v & E & Hk' & HB & _).
  unfold drvStep. rewrite E. done.
Qed.
Lemma move_ok_refl ds : kindOf ds = k -> move_ok ds (ds, []).
Proof. intros Hk. split; [done|]. intros c. cbn. lia. Qed.
Lemma drvBoot_ok ds now : kindOf ds = k -> move_ok ds (drvBoot ds now).
Proof.
  intros Hk. unfold drvBoot. destruct (Driver_BootstrapSessionStart drv) as [boot|] eqn:E; [|by apply move_ok_refl].
  destruct (jl_boot boot ds ctx now E Hk) as (ds' & effs & -> & Hk' & HB & _). done.
Qed.
Lemma drvRecover_ok ds now : kindOf ds = k -> move_ok ds (drvRecover ds now).
Proof.
  intros Hk. unfold drvRecover. destruct (Driver_WarmStartRecoverer drv) as [rc|] eqn:E; [|by apply move_ok_refl].
  destruct (jl_recover rc ds now E Hk) as (ds' & effs & -> & Hk' & HB & _). done.
Qed.

Lemma drvStep_result ds result err now :
  kindOf ds = k ->
  kindOf (drvStep ds (DEvJobResult result err now)).1 = k /\
  if Ctx_IsRoot ctx
  then cleared (inFlight ds) (inFlight (drvStep ds (DEvJobResult result err now)).1) (resultClass k result)
  else (drvStep ds (DEvJobResult result err now)).1 = ds.
Proof.
  intros Hk. unfold drvStep. destruct (Ctx_IsRoot ctx) eqn:Hroot.
  - by destruct (jl_result ds ctx result err now Hk Hroot) as (ds' & v & -> & Hk' & HC).
  - by destruct (jl_child ds ctx result err now Hk Hroot) as (v & ->).
Qed.

(** Receiving and the workers' steps keep the whereabouts. *)
Lemma placed_receive w ev p m :
  placed w -> receive (W_Pool w) = Some (ev, p) ->
  (forall id i, m !! id = Some i -> W_Jobs w !! id = Some i /\ id <> Res_JobID ev) ->
  placed (w <| W_Pool := p |> <| W_Jobs := m |>).
Proof.
  intros [HS HR HW] Hr Hm. pose proof (receive_owed _ _ _ Hr) as Ho.
  assert (Pool_Closed p = Pool_Closed (W_Pool w) /\ Pool_Cancelled p = Pool_Cancelled (W_Pool w)) as [F1 F2].
  { unfold receive in Hr. case_match; by simplify_eq/=. }
  split; cbn; [congruence|done|]. rewrite F2. intros id Hc [i Hid]. destruct (Hm _ _ Hid) as [Hj Hne].
  specialize (HW id Hc (mk_is_Some _ _ Hj)). unfold whereabouts in *. cbn.
  destruct (W_Refused w !! id).
  - destruct HW as [? HW]. split; [done|]. intros Hin. apply HW. rewrite Ho. by apply elem_of_cons; right.
  - rewrite Ho, elem_of_cons in HW. naive_solver.
Qed.

Lemma placed_pool w p : placed w -> pool_step (W_Pool w) p -> placed (w <| W_Pool := p |>).
Proof.
  intros [HS HR HW] Hp.
  assert (Pool_Closed p = Pool_Closed (W_Pool w) /\ Pool_Cancelled p = Pool_Cancelled (W_Pool w)) as [F1 F2]
    by (by destruct Hp).
  split; cbn; [congruence|done|]. rewrite F2. intros id Hc Hid. specialize (HW id Hc Hid).
  pose proof (pool_step_owed _ _ Hp Hc) as Ho. unfold whereabouts in *. cbn.
  destruct (W_Refused w !! id); by rewrite Ho.
Qed.

Lemma placed_stop w : placed w -> placed (w <| W_Pool := Stop (W_Pool w) |>).
Proof.
  intros [HS HR HW]. split; cbn; [|done|]; unfold Stop; destruct (Pool_Closed _) eqn:E; cbn; try done; congruence.
Qed.

Lemma books_result w ev p input :
  books_ok w -> receive (W_Pool w) = Some (ev, p) -> W_Jobs w !! Res_JobID ev = Some input ->
  books_ok (w <| W_Pool := p |> <| W_Jobs := delete (Res_JobID ev) (W_Jobs w) |>) /\
  resultClass k (Res_Result ev) = inputClass k input.
Proof.
  intros [HJ HO HN HT HP] Hr Hj. pose proof (receive_owed _ _ _ Hr) as Ho.
  destruct (poolAll_receive _ _ _ _ _ Hr HT) as [Hev HT']. split; [|by apply Hev].
  rewrite Ho in HN. apply NoDup_cons in HN as [Hnot HN]. split; cbn.
  - intros id. rewrite lookup_delete_is_Some. intros [_ H]. by apply HJ.
  - intros id Hid. apply HO. rewrite Ho. by apply elem_of_cons; right.
  - done.
  - eapply poolAll_mono; [| |exact HT'].
    + intros j Hin [Hk Hi]. split; [done|]. intros i. rewrite lookup_delete_Some. intros [_ H]. by apply Hi.
    + intros ev' Hin Hi i. rewrite lookup_delete_Some. intros [_ H]. by apply Hi.
  - apply (placed_receive _ _ _ _ HP Hr). intros id i. rewrite lookup_delete_Some. naive_solver.
Qed.

Lemma books_state w ds : books_ok w -> books_ok (w <| W_State := ds |>).
Proof. intros [? ? ? ? [? ? ?]]. by split; [..|split]. Qed.

Lemma books_world w :
  books_ok w -> kindOf (W_State w) = k ->
  (forall c, (ownCount c (W_Jobs w) <= Nat.b2n (inFlight (W_State w) c))%nat) ->
  (forall c, Ctx_IsRoot ctx = true -> (Nat.b2n (inFlight (W_State w) c) <= ownCount c (W_Jobs w))%nat) ->
  world_ok w.
Proof. intros [] **. by split. Qed.

Lemma world_move_ok w r : move_ok (W_State w) r -> world_ok w -> world_ok (afterMove w r).
Proof.
  intros [Hk HB] Hw. unfold afterMove.
  destruct (startOwn_books (startedInputs r.2) (w <| W_State := r.1 |>)) as (H1 & HS & HC).
  { by apply books_state, books_of. }
  apply books_world; [done|by rewrite HS|intros c; rewrite HS, HC..]; cbn; rewrite HB.
  - pose proof (wo_marks _ Hw c). lia.
  - intros Hroot. pose proof (wo_root _ Hw c Hroot). lia.
Qed.

Lemma world_event_ok w ev : isResult ev = false -> world_ok w -> world_ok (afterEvent w ev).
Proof. intros Hr Hw. apply world_move_ok; [|done]. apply drvStep_event; [by destruct Hw|done]. Qed.

Lemma world_result_ok w ev p input now :
  receive (W_Pool w) = Some (ev, p) -> W_Jobs w !! Res_JobID ev = Some input -> world_ok w ->
  world_ok (w <| W_Pool := p |> <| W_Jobs := delete (Res_JobID ev) (W_Jobs w) |>
    <| W_State := (drvStep (W_State w) (DEvJobResult (Res_Result ev) (Res_Err ev) now)).1 |>).
Proof.
  intros Hr Hj Hw. destruct (books_result _ _ _ _ (books_of _ Hw) Hr Hj) as [Hb Hcl].
  destruct (drvStep_result (W_State w) (Res_Result ev) (Res_Err ev) now (wo_kind _ Hw)) as [Hk HC].
  apply books_world; [by apply books_state|done|intros c; cbn..];
    pose proof (wo_marks _ Hw c) as HM; pose proof (wo_root _ Hw c) as HM2;
    rewrite (ownCount_delete _ _ _ _ Hj), classCount_one in HM, HM2; destruct (Ctx_IsRoot ctx);
    [|rewrite HC; lia| |done]; rewrite HC, Hcl; specialize (HM2 eq_refl);
    (case_bool_decide; [rewrite decide_True by done|rewrite decide_False by done]);
    destruct (inFlight (W_State w) c); cbn in *; lia.
Qed.

Lemma world_step_ok w w' : world_step w w' -> world_ok w -> world_ok w'.
Proof.
  intros Hs Hw. pose proof (wo_kind _ Hw) as Hkd.
  destruct Hs as [ev Hr|now|now|input|p Hp|ev p input now Hr Hj|ev p Hr Hj|].
  - by apply world_event_ok.
  - apply world_move_ok; [by apply drvBoot_ok|done].
  - apply world_move_ok; [by apply drvRecover_ok|done].
  - pose proof (books_dispatch w _ _ input (books_of _ Hw) (noted_other _ _)) as [H1 H2 H3 H4 H5].
    destruct Hw. by split.
  - pose proof (pool_step_owed_subset _ _ Hp) as Hsub. destruct Hw as [H1 H2 H2' H3 H4 H5 H6 H7].
    split; cbn; try done.
    + intros id Hid. apply H4. by eapply elem_of_submseteq.
    + destruct (submseteq_Permutation _ _ Hsub) as [l E]. rewrite E in H5.
      by apply NoDup_app in H5 as [? _].
    + eapply poolAll_step; [|exact Hp|exact H6]. intros j result err [[kind Hreg] Hi] Hrun input Hin.
      cbn in Hin. rewrite <- (Hi _ Hin). by eapply runners_typed.
    + by apply placed_pool.
  - by eapply world_result_ok.
  - pose proof (receive_owed _ _ _ Hr) as Ho. destruct Hw as [H1 H2 H2' H3 H4 H5 H6 H7].
    rewrite Ho in H5. apply NoDup_cons in H5 as [_ H5].
    destruct (poolAll_receive _ _ _ _ _ Hr H6) as [_ HT].
    split; cbn; try done; [intros id Hid; apply H4; rewrite Ho; by apply elem_of_cons; right|].
    apply (placed_receive w ev p (W_Jobs w)); [done..|]. intros id i Hid. split; [done|congruence].
  - destruct Hw as [H1 H2 H2' H3 H4 H5 H6 H7]. split; cbn; rewrite ?Stop_owed; try done; [by apply poolAll_Stop|].
    by apply placed_stop.
Qed.

Lemma world_steps_ok w w' : rtc world_step w w' -> world_ok w -> world_ok w'.
Proof. induction 1; [done|]. intros. by eauto using world_step_ok. Qed.

Lemma startWorld_ok ds size :
  kindOf ds = k -> (forall c, inFlight ds c = false) -> world_ok (startWorld ds size).
Proof.
  intros Hk Hf. split; cbn [startWorld W_State W_Jobs W_NextJobID W_Pool].
  - done.
  - intros c. apply Nat.le_0_l.
  - intros c _. rewrite Hf. apply Nat.le_0_l.
  - intros id. rewrite lookup_empty. by intros [].
  - intros id. rewrite owed_New. by intros []%not_elem_of_nil.
  - rewrite owed_New. constructor.
  - apply poolAll_New.
  - split; [done|..]; cbn.
    + intros id. rewrite lookup_empty. by intros [].
    + intros id _. rewrite lookup_empty. by intros [].
Qed.

Lemma created_ok ds size : created drv (Some ds) -> world_ok (startWorld ds size).
Proof. intros (ds' & [= <-] & Hk & Hf)%(jl_created (k := k)). by apply startWorld_ok. Qed.

(** ** At most one job of a class *)

Lemma ownCount_two c m id1 id2 i1 i2 :
  m !! id1 = Some i1 -> m !! id2 = Some i2 -> id1 <> id2 ->
  inputClass k i1 = Some c -> inputClass k i2 = Some c -> (2 <= ownCount c m)%nat.
Proof.
  intros H1 H2 Hne C1 C2. rewrite (ownCount_delete _ _ _ _ H1).
  rewrite (ownCount_delete c (delete id1 m) id2 i2) by (by rewrite lookup_delete_ne).
  rewrite !classCount_one, !bool_decide_eq_true_2 by done. cbn. lia.
Qed.

Lemma ownCount_pos c m : (0 < ownCount c m)%nat ->
  exists id i, m !! id = Some i /\ inputClass k i = Some c.
Proof.
  unfold ownCount, classCount. intros H.
  destruct (filter _ (map_to_list m).*2) as [|i l] eqn:E; [cbn in H; lia|].
  assert (i ∈ filter (fun i => inputClass k i = Some c) (map_to_list m).*2) as Hin
    by (rewrite E; apply elem_of_cons; by left).
  apply list_elem_of_filter in Hin as [Hc Hin]. apply list_elem_of_fmap in Hin as ([id i'] & -> & Hin).
  apply elem_of_map_to_list in Hin. eauto.
Qed.

Lemma world_unique w c id1 id2 i1 i2 :
  world_ok w -> W_Jobs w !! id1 = Some i1 -> W_Jobs w !! id2 = Some i2 ->
  inputClass k i1 = Some c -> inputClass k i2 = Some c -> id1 = id2.
Proof.
  intros Hw H1 H2 C1 C2. destruct (decide (id1 = id2)) as [|Hne]; [done|].
  pose proof (ownCount_two c _ _ _ _ _ H1 H2 Hne C1 C2). pose proof (wo_marks _ Hw c).
  destruct (inFlight (W_State w) c); cbn in *; lia.
Qed.

Lemma world_mark w c id i :
  world_ok w -> W_Jobs w !! id = Some i -> inputClass k i = Some c -> inFlight (W_State w) c = true.
Proof.
  intros Hw H C. pose proof (wo_marks _ Hw c) as HM.
  rewrite (ownCount_delete _ _ _ _ H), classCount_one, bool_decide_eq_true_2 in HM by done.
  destruct (inFlight (W_State w) c); cbn in HM; [done|lia].
Qed.

Lemma world_marked w c :
  world_ok w -> Ctx_IsRoot ctx = true -> inFlight (W_State w) c = true ->
  exists id i, W_Jobs w !! id = Some i /\ inputClass k i = Some c.
Proof.
  intros Hw Hroot E. pose proof (wo_root _ Hw c Hroot) as HM. rewrite E in HM. apply ownCount_pos.
  cbn in HM. lia.
Qed.

(** ** Lost jobs *)

(** The frame waits for a job the pool does not have. *)
Definition lost (w : World) (id : JobID) (input : DriverJobInput) : Prop :=
  W_Jobs w !! id = Some input /\ id ∉ owed (W_Pool w).

Lemma lost_dispatch w id input m rf i :
  noted w i m rf -> books_ok w -> lost w id input -> lost (dispatched w m rf i) id input.
Proof.
  intros Hn Hb [H1 H2]. assert (id < W_NextJobID w) as Hlt by (apply (bo_jobs _ Hb); by rewrite H1).
  split; cbn.
  - by rewrite (proj1 (noted_old _ _ _ _ id Hn Hlt)).
  - rewrite Dispatch_new. intros [[_ ->]|]; [lia|done].
Qed.

Lemma lost_startOwn id input inputs : forall w,
  books_ok w -> lost w id input -> lost (foldl startOwn w inputs) id input.
Proof.
  induction inputs as [|i inputs IH]; intros w Hb Hl; [done|]. cbn [foldl]. apply IH.
  - apply (books_dispatch w); [done|constructor].
  - apply (lost_dispatch w); [constructor|done..].
Qed.

Lemma lost_step w w' id input : world_step w w' -> world_ok w -> lost w id input -> lost w' id input.
Proof.
  intros Hs Hw Hl. pose proof (books_of _ Hw) as Hb.
  destruct Hs as [ev Hr|now|now|i|p Hp|ev p i now Hr Hj|ev p Hr Hj|].
  1-3: apply lost_startOwn; [by apply books_state|done].
  - by apply (lost_dispatch w id input _ _ i (noted_other w i)).
  - destruct Hl as [H1 H2]. split; [done|]. cbn. intros Hin. apply H2.
    by eapply elem_of_submseteq, pool_step_owed_subset.
  - destruct Hl as [H1 H2]. pose proof (receive_owed _ _ _ Hr) as Ho. split; cbn.
    + rewrite lookup_delete_ne; [done|]. intros <-. apply H2. rewrite Ho. by apply elem_of_cons; left.
    + intros Hin. apply H2. rewrite Ho. by apply elem_of_cons; right.
  - destruct Hl as [H1 H2]. pose proof (receive_owed _ _ _ Hr) as Ho. split; [done|]. cbn.
    intros Hin. apply H2. rewrite Ho. by apply elem_of_cons; right.
  - destruct Hl as [H1 H2]. split; [done|]. cbn. by rewrite Stop_owed.
Qed.

Lemma lost_steps w w' id input :
  rtc world_step w w' -> world_ok w -> lost w id input -> lost w' id input.
Proof.
  induction 1 as [|w w1 w' H1 _ IH]; [done|]. intros Hw Hl.
  apply IH; [by eapply world_step_ok|by eapply lost_step].
Qed.

(** While it waits the driver starts no job of that class. *)
Lemma lost_blocks w id input c ev :
  world_ok w -> lost w id input -> inputClass k input = Some c -> isResult ev = false ->
  inFlight (W_State w) c = true /\ classCount k c (startedInputs (drvStep (W_State w) ev).2) = 0%nat.
Proof.
  intros Hw [H1 _] Hc Hr.
  assert (inFlight (W_State w) c = true) as E by (by eapply world_mark). split; [done|].
  destruct (drvStep_event _ _ (wo_kind _ Hw) Hr) as [_ HB]. specialize (HB c). rewrite E in HB.
  destruct (inFlight (drvStep _ _).1 c); cbn in HB; lia.
Qed.

(** A full queue loses every job of a step. *)
Lemma full_queue_pool p id input :
  length (Pool_Jobs p) = queueCap -> Dispatch JobKind (RegisterRunners o) p id input = p.
Proof.
  intros Hq. unfold Dispatch. destruct (RegisterRunners o !! JobKind input); [|done]. unfold Submit.
  destruct (Pool_Closed _); [done|]. by rewrite Hq.
Qed.

Lemma full_queue_loses inputs i : forall w,
  books_ok w -> length (Pool_Jobs (W_Pool w)) = queueCap -> i ∈ inputs ->
  exists id, lost (foldl startOwn w inputs) id i.
Proof.
  induction inputs as [|i0 inputs IH]; intros w Hb Hq Hin; [by apply not_elem_of_nil in Hin|].
  cbn [foldl]. assert (books_ok (startOwn w i0)) as Hb' by (apply (books_dispatch w); [done|constructor]).
  assert (W_Pool (startOwn w i0) = W_Pool w) as Ep by (by apply full_queue_pool).
  apply elem_of_cons in Hin as [<-|Hin].
  - exists (W_NextJobID w). apply lost_startOwn; [done|]. split; [apply lookup_insert_eq|].
    rewrite Ep. intros H%(bo_owed _ Hb). lia.
  - apply IH; [done| |done]. by rewrite Ep.
Qed.
End world.
