(* ===== verification/DriverProps.v ===== *)
(** * client/driver: the properties of the shipped drivers

    The session daemon with the drivers it ships, the command lines they
    launch, what survives a restart, the claude hook stream, and the jobs they
    run.  The examples at the end run the daemon with every driver. *)

From S2P Require Import Prelude GoStd GoText GoTime ClientView ClientState ClientReduce ClientInv ClientGraph ClientSteps ClientRollback ClientFrames ClientProps DriverTypes DriverText DriverCommon DriverShell DriverClaude DriverCodex DriverGemini DriverRegistry DriverPersist DriverLaunch DriverHooks WorkerPool DriverJobs DriverWorld.
Open Scope Z_scope.

Section props.
Context {DT : DriverTypes} {DE : DriverEnv}.

(** ** The daemon *)


(** C33: with the shipped drivers, a hook or subsystem event from a connected
    client is answered exactly once, whatever the driver does with it, and no
    push request reaches the runtime, which could not perform it. *)
Theorem driver_event_answered o display idAt json rng s ev conn req s' effs rng' :
  conn ≠ 0 ->
  (∃ event ts sender payload, ev = EvDriverEvent conn req event ts sender payload) \/
  (∃ fid source kind ts payload, ev = EvSubsystem conn req fid source kind ts payload) ->
  Reduce (shippedRegistry o display) idAt json rng s ev = Some (s', effs, rng') ->
  List.filter (λ a, negb (a.1 =? 0)) (omap answers effs) = [(conn, req)] /\
  existsb isPush effs = false.
Proof. apply driver_event_replied, shipped_quiet. Qed.

Lemma shipped_stops o display command : stops_on_exit (shippedDriver o display command).
Proof.
  intros ds ctx code ts Hr Hc. pose proof (shipped_laws o display command) as HL.
  pose proof (dl_step ds ctx (DEvCommandExited code ts)) as Ht.
  pose proof (dl_crash ds ctx code ts Hr Hc) as Hs.
  destruct (Driver_Step _ _ _ _).1.1 as [x|]; [by exists x|].
  exfalso. unfold typedFor, ownsShell, ownsGemini, ownsCodex, ownsClaude, ownsGeneric in Ht.
  repeat case_decide; by destruct Ht.
Qed.

(** A crash of a session's root frame is handled once: after an abnormal
    exit of its command has been reported, further reports change nothing and
    have no effects. *)
Theorem crash_handled_once o display s fid code code' sid sess frame s1 effs1 :
  let reg := shippedRegistry o display in
  wf_shapes (shapes s) -> isIntentionalExit code = false -> isIntentionalExit code' = false ->
  findFrame s fid = Some (sid, sess, 0%nat) -> Session_Frames sess !! 0%nat = Some frame ->
  reduceFrameCommandExited reg s fid code = (s1, effs1) ->
  reduceFrameCommandExited reg s1 fid code' = (s1, []).
Proof.
  intros reg Hwf Hc Hc' Hf Hi. eapply root_crash_once; [done..| |apply shipped_stops].
  apply shipped_GetDriver.
Qed.

(** [n] reports of the exit of a frame's command, one after the other. *)
Fixpoint exitReports (reg : Registry) (fid : FrameID) (code : Z) (n : nat) (s : State)
    : State * list Effect :=
  match n with
  | O => (s, [])
  | S n =>
    let '(s, effs) := reduceFrameCommandExited reg s fid code in
    let '(s, effs') := exitReports reg fid code n s in
    (s, effs ++ effs')
  end.

(** A crash of a child frame is never settled: the shipped drivers ignore
    it, so the frame's status stays as it was, and each of the reports that
    every reconcile of the dead frame produces releases its sandbox again. *)
Theorem child_crash_repeats o display s fid code sid sess idx frame n :
  let reg := shippedRegistry o display in
  frames_ok typedFor s -> isIntentionalExit code = false ->
  findFrame s fid = Some (sid, sess, S idx) -> Session_Frames sess !! S idx = Some frame ->
  Driver_Status (shippedDriver o display (Frame_Command frame)) (Frame_Driver frame) ≠ StatusStopped ->
  exitReports reg fid code n s = (s, replicate n (EffReleaseFrameSandbox fid)).
Proof.
  intros reg Hok Hc Hf Hi Hst. destruct (findFrame_Some _ _ _ _ _ Hf) as [Hs _].
  destruct (Hok _ _ Hs) as [HF _]. rewrite Forall_forall in HF.
  pose proof (HF frame (list_elem_of_lookup_2 _ _ _ Hi)) as Ht. unfold frame_ok in Ht.
  pose proof (shipped_laws o display (Frame_Command frame)) as HL.
  destruct (Frame_Driver frame) as [ds|] eqn:Hd.
  2:{ exfalso. unfold typedFor, ownsShell, ownsGemini, ownsCodex, ownsClaude, ownsGeneric in Ht.
      repeat case_decide; by destruct Ht. }
  assert (reduceFrameCommandExited reg s fid code = (s, [EffReleaseFrameSandbox fid])) as E.
  { eapply child_crash_ignored; [done..|apply shipped_GetDriver|done|done|].
    by apply dl_child_crash. }
  induction n as [|n IH]; [done|]. cbn [exitReports]. by rewrite E, IH.
Qed.

(** ** Restarts *)

(** What a driver writes at shutdown it reads back at the next start: the
    persistent part of its state survives, times to the second, and the
    in-flight marks and cached transcript data are gone.  Hypotheses: the
    times are in the years that RFC 3339 can write, and the exit code on
    record is a Go int. *)
Theorem persist_round_trip now ds :
  timesFormattable (commonOf ds) -> exitCodeOk ds ->
  exists bag, persistOf ds = Some bag /\ restoreOf ds bag now = survivor now ds.
Proof. apply restart. Qed.

(** A codex frame that counts as recoverable is never cold-started with a
    fresh conversation: the launch fails, or it resumes from a rollout file. *)
Theorem codex_never_fresh cs project base options sandboxed :
  let command := Strings.Join (keptWords base) " " in
  Codex.RecoverableOnColdStart (Some (DSCodex cs)) = true ->
  head (keptWords base) = Some CodexDriverName -> Codex.hasResumeToken command = false ->
  match Codex.PrepareLaunch (Some (DSCodex cs)) LaunchModeColdStart project base options sandboxed with
  | inl plan => Resume_RolloutPath (Stream_ResumeTarget (Plan_Stream plan)) <> EmptyString
  | inr _ => True
  end.
Proof.
  intros command HR Hh Ht. apply recoverable_plan in HR. unfold Codex.PrepareLaunch.
  cbn [Codex.asState default from_option Datatypes.id].
  pose proof (resolveWorktree_command base options) as HC.
  destruct (resolveWorktreeRequest base options _) as [req stripped]. cbn [snd] in HC. subst stripped.
  rewrite Strings.Fields_Join by apply keptWords_words.
  rewrite bool_decide_eq_true_2 by done.
  rewrite Strings.TrimSpace_Join by apply keptWords_words. fold command. rewrite Ht.
  destruct sandboxed; destruct (Codex.coldStartResumePlan cs) as [[[target session]|]|err]; done.
Qed.

(** ** Command lines *)

(** C27: the command line of a claude launch has the words of the requested
    command, without worktree flags and with the sandbox flags a sandboxed
    launch needs, followed by nothing, or on a cold start by the resumption
    or the fork of a conversation whose identifier has only letters, digits,
    hyphens and underscores. *)
Theorem claude_launch_words d cs mode project base options sandboxed plan :
  Claude.PrepareLaunch d (Some (DSClaude cs)) mode project base options sandboxed = inl plan ->
  exists extra, launchExtra cs mode extra /\
    Strings.Fields (Plan_Command plan) = launchWords sandboxed base ++ extra.
Proof. apply claude_launch. Qed.

(** A fork whose own identifier was never reported is forked again after a
    restart: whatever happens before, as long as hooks name no conversation
    but the parent's, the restored frame's cold start asks for a fork of the
    parent. *)
Theorem fork_survives_restart d ctx p now evs bag now' project base options sandboxed :
  let pid := CL_ClaudeSessionID p in
  isAlphanumHyphen pid = true -> Ctx_IsRoot ctx = true -> forallb (namesOnly pid) evs = true ->
  Claude.Persist (Some (DSClaude (runRoot d ctx (Claude.forkChild (Some (DSClaude p)) now) evs)))
    = Some bag ->
  exists plan, Claude.PrepareLaunch d (Some (DSClaude (Claude.Restore bag now'))) LaunchModeColdStart
      project base options sandboxed = inl plan /\
    Strings.Fields (Plan_Command plan)
    = launchWords sandboxed base ++ ["--resume"%string; pid; "--fork-session"%string].
Proof.
  intros pid Hpid Hr Hevs Hbag. pose proof (alphanum_nonempty _ Hpid) as Hne.
  destruct (runRoot_waits pid d ctx evs _ Hne Hr Hevs (forkChild_waits _ p now eq_refl Hne)) as [W1 W2].
  destruct (claude_restored_ids _ _ now' Hbag) as [R1 R2]. rewrite W1 in R1. rewrite W2 in R2.
  apply claude_refork; done.
Qed.

(** ** The claude hook stream *)

(** Hooks that arrive late are as good as lost: the state a root frame
    ends in and the effects it asks for are those of the hooks in order, with
    the late ones left out.  Hypothesis: the frame already knows the
    session its hooks are tagged with. *)
Theorem late_hooks_lost d ctx roost cs hs :
  Ctx_IsRoot ctx = true -> CS_RoostSessionID (CL_Common cs) = roost ->
  runHooks d ctx roost cs hs = runHooks d ctx roost cs (inOrder (CL_LastBridgeTS cs) hs).
Proof. apply runHooks_inOrder. Qed.

(** A tool use is logged once, with what was noted when it started: after
    its start hook, whatever events follow that neither name it nor start or
    end the session, its end hook logs one line, with the time between the
    two, the input noted at the start and a kind saying whether a permission
    prompt was seen, and the tool is no longer pending. *)
Theorem tool_use_logged d ctx cs ts1 roost payload1 evs ts2 payload2 :
  let hp1 := parseHookPayload payload1 in
  let hp2 := parseHookPayload payload2 in
  let id := HP_ToolUseID hp1 in
  let cs2 := runRoot d ctx (Claude.handleHook d cs ctx ts1 roost payload1).1 evs in
  let slug := resolveProjectSlug (CS_Project (CL_Common cs2)) in
  Ctx_IsRoot ctx = true ->
  accepted cs ts1 hp1 -> HP_HookEventName hp1 = "PreToolUse"%string -> id <> EmptyString ->
  HP_ToolName hp1 <> EmptyString -> HP_ToolName hp1 <> "Agent"%string ->
  forallb (fun ev => negb (touches id ev)) evs = true ->
  accepted cs2 ts2 hp2 -> HP_HookEventName hp2 = "PostToolUse"%string -> HP_ToolUseID hp2 = id ->
  HP_ToolName hp2 <> "Agent"%string -> slug <> EmptyString ->
  (exists kind, kind ∈ ["auto"; "approved"]%string /\
   toolLines (Claude.handleHook d cs2 ctx ts2 roost payload2).2
   = [(slug, buildToolLogLine (mkToolLogEntry ts2
        (orElse roost (CS_RoostSessionID (CL_Common cs2))) (CL_ClaudeSessionID cs2) id
        (HP_ToolName hp2) kind (HP_PermissionMode hp2) (toolDurationMs ts2 ts1)
        (summariseToolInput (HP_ToolName hp2) (HP_ToolInput hp1)) (HP_Error hp2)))]) /\
  CL_PendingTools (Claude.handleHook d cs2 ctx ts2 roost payload2).1 !! id = None.
Proof.
  intros hp1 hp2 id cs2 slug Hr Ha1 He1 Hid Hn1 Hg1 Hevs Ha2 He2 Hid2 Hg2 Hslug.
  pose proof (runRoot_pending d ctx evs id _ _ Hr Hevs
    (tool_started d cs ctx ts1 roost payload1 Hr Ha1 He1 Hid Hn1 Hg1)) as Hp.
  pose proof (fun p => tool_finished d cs2 ctx ts2 roost payload2 p Hr Ha2 He2) as HF.
  fold hp2 in HF. rewrite Hid2 in HF. exact (HF _ Hid Hg2 Hslug Hp).
Qed.

(** A permission prompt is attributed to the tool that has waited longest
    without one, in whatever order the pending tools are visited. *)
Theorem prompt_marks_oldest (tools : gmap string pendingTool) l :
  tools !! ""%string = None -> l ≡ₚ map_to_list tools ->
  match Claude.oldestPending l with
  | EmptyString => forall id p, tools !! id = Some p -> PT_SawPrompt p = true
  | id => exists p, tools !! id = Some p /\ PT_SawPrompt p = false /\
      forall id' p', tools !! id' = Some p' -> PT_SawPrompt p' = false -> PT_StartedAt p <= PT_StartedAt p'
  end.
Proof.
  intros H0 Hl. assert (forall id p, (id, p) ∈ l <-> tools !! id = Some p) as Hin
    by (intros id p; by rewrite Hl, elem_of_map_to_list).
  destruct (oldestPending_spec l) as [[H1 H2]|(H1 & p & H2 & H3 & _ & H5)].
  - apply Forall_forall. intros [id p] H%Hin E. cbn in E. subst. congruence.
  - unfold Claude.oldestPending. rewrite H1. intros id p H%Hin. by eapply H2.
  - unfold Claude.oldestPending in *. destruct (foldl _ _ l).1 as [|c r]; [done|].
    exists p. split_and!; [by apply Hin|done|]. intros id' p' H%Hin. by apply (H5 id').
Qed.

(** ** Jobs *)

(** C7: at every moment a frame, root or child, has on record at most one job
    of each kind, and while it has one its in-flight mark of that kind is set;
    a root frame has the mark set only then.  While the pool runs, a recorded
    job is queued, running or has its result waiting, unless the queue was full
    when it was submitted: then the pool does not have it.  The pool owes no
    result twice.  All this from any state a frame is created with, whatever
    the frame, the other frames and the pool's workers do, in whatever
    order. *)
Theorem one_job_per_kind o drv k ctx ds size w :
  JobLaws drv k -> created drv (Some ds) ->
  rtc (world_step o drv ctx) (startWorld ds size) w ->
  (forall c id i, W_Jobs w !! id = Some i -> inputClass k i = Some c ->
     inFlight (W_State w) c = true /\
     forall id' i', W_Jobs w !! id' = Some i' -> inputClass k i' = Some c -> id' = id) /\
  (Ctx_IsRoot ctx = true -> forall c, inFlight (W_State w) c = true ->
     exists id i, W_Jobs w !! id = Some i /\ inputClass k i = Some c) /\
  (Pool_Cancelled (W_Pool w) = false -> forall id, is_Some (W_Jobs w !! id) ->
     match W_Refused w !! id with
     | None => id ∈ owed (W_Pool w)
     | Some p => ~ (id ∈ owed (W_Pool w)) /\ (queueCap <= length (Pool_Jobs p))%nat
     end) /\
  NoDup (owed (W_Pool w)).
Proof.
  intros HL Hc Hs.
  assert (world_ok o k ctx w) as Hw by (eapply world_steps_ok; [done..|by eapply created_ok]).
  split_and!; [..|by destruct Hw].
  - intros c id i H1 C1. split; [by eapply world_mark|]. intros id' i' H2 C2. by eapply world_unique.
  - intros Hr c. by eapply world_marked.
  - intros Hp id Hid. pose proof (pl_where _ (wo_placed _ _ _ _ Hw) id Hp Hid) as H.
    unfold whereabouts in H. case_match; naive_solver.
Qed.

(** A job dropped by a full queue is never made up for: the mark of the
    frame that asked for it stays set, and the frame starts no job of that
    kind again, in any continuation. *)
Theorem lost_job_never_retried o drv k ctx ds size w ev input c w' ev' :
  JobLaws drv k -> kindOf ds = k -> (forall c, inFlight ds c = false) ->
  rtc (world_step o drv ctx) (startWorld ds size) w ->
  isResult ev = false -> input ∈ startedInputs (drvStep drv ctx (W_State w) ev).2 ->
  inputClass k input = Some c -> length (Pool_Jobs (W_Pool w)) = queueCap ->
  rtc (world_step o drv ctx) (afterEvent o drv ctx w ev) w' -> isResult ev' = false ->
  inFlight (W_State w') c = true /\
  classCount k c (startedInputs (drvStep drv ctx (W_State w') ev').2) = 0%nat.
Proof.
  intros HL Hk Hf Hs Hev Hin Hc Hq Hs' Hev'.
  assert (world_ok o k ctx w) as Hw by (eapply world_steps_ok; [done..|by apply startWorld_ok]).
  assert (world_ok o k ctx (afterEvent o drv ctx w ev)) as Hw1 by (by apply world_event_ok).
  destruct (full_queue_loses o k _ input (w <| W_State := (drvStep drv ctx (W_State w) ev).1 |>)
    (books_state _ _ _ _ (books_of _ _ _ _ Hw)) Hq Hin) as [id Hl].
  apply (lost_blocks o drv k ctx w' id input c ev'); [by eapply world_steps_ok| |done|done].
  by eapply lost_steps.
Qed.
End props.

(** ** Examples *)

#[local] Instance exTypes : DriverTypes :=
  {| JsonOther := unit; DriverAny := unit; DriverFloat := unit |}.

Definition exHook (event tool id session : string) : hookPayload :=
  mkHookPayload session event "do it" "" "" tool ∅ "" id "default" "" false.

(** Hook payloads are named by what they say; files exist; no database. *)
#[local] Instance exEnv : DriverEnv := {|
  unmarshalHook payload :=
    if String.eqb payload "start" then exHook "SessionStart" "" "" "conv-1"
    else if String.eqb payload "pre" then exHook "PreToolUse" "Bash" "tool-1" "conv-1"
    else if String.eqb payload "post" then exHook "PostToolUse" "Bash" "tool-1" "conv-1"
    else if String.eqb payload "stop" then exHook "Stop" "" "" "conv-1"
    else exHook "" "" "" "";
  unmarshalGeminiHook _ := zeroGeminiHookPayload;
  marshalToolLog e := inl (TL_ToolName e +:+ " " +:+ TL_Kind e);
  marshalClaudeRenderer _ _ := ""%string;
  marshalCodexRenderer := ""%string;
  fishpath_Shorten p _ := p;
  os_Stat _ := StatOk 1;
  os_Getenv _ := ""%string;
  os_UserHomeDir := inl "/home/u"%string;
  sql_threads _ _ _ _ := inr "no database"%string;
|}.

Definition exOptions : RegisterOptions := mkRegisterOptions "/home/u" "/log" 0 false "less".
Definition exJson (command : string) : Json :=
  mkJson (λ _, inl (mkSetHeadFrameParams (exampleId 0) (exampleId 1)))
    (λ _, inl (mkCreateSessionParams "/proj" command 0 zeroLaunchOptions))
    (λ _, inl (mkPushDriverParams (exampleId 0) "" "claude" zeroLaunchOptions ""))
    (λ _, inl (mkForkSessionParams (exampleId 0)))
    (λ _, inl (mkStopSessionParams (exampleId 0)))
    (λ _, inl tt).
Abbreviation exReg := (shippedRegistry exOptions "zsh").
Definition exCreate : Event := EvEvent 1 "r1" EventCreateSession "{}".
Definition exPush : Event := EvEvent 1 "r2" EventPushDriver "{}".
Definition exHookEv (payload : string) : Event := EvDriverEvent 7 "r4" "" 5 (exampleId 1) payload.

Definition exState (r : option (State * list Effect * nat)) : State :=
  match r with Some (s, _, _) => s | None => New end.
Definition exEffs (r : option (State * list Effect * nat)) : list Effect :=
  match r with Some (_, effs, _) => effs | None => [] end.

(** A claude session that has started, and one with a second frame. *)
Definition exStarted : option (State * list Effect * nat) :=
  Eval vm_compute in run exReg exampleId (exJson "claude") 0 New [exCreate; exHookEv "start"].
Definition exTwo : State :=
  Eval vm_compute in exState (run exReg exampleId (exJson "claude") 0 New [exCreate; exPush]).


Lemma driver_event_answered_witness :
  List.filter (λ a, negb (a.1 =? 0)) (omap answers (exEffs (Reduce exReg exampleId (exJson "claude") 2
    (exState exStarted) (exHookEv "stop")))) = [(7, "r4"%string)].
Proof.
  apply (driver_event_answered exOptions "zsh" exampleId (exJson "claude") 2 (exState exStarted)
    (exHookEv "stop") 7 "r4"
    (exState (Reduce exReg exampleId (exJson "claude") 2 (exState exStarted) (exHookEv "stop")))
    (exEffs (Reduce exReg exampleId (exJson "claude") 2 (exState exStarted) (exHookEv "stop"))) 2).
  - done.
  - left. eexists _, _, _, _. reflexivity.
  - vm_compute. reflexivity.
Defined.

(** The session of [exTwo]. *)
Definition exSession : Session :=
  Eval vm_compute in match Sessions exTwo !! exampleId 0 with Some sess => sess
    | None => mkSession "" "" 0 [] "" [] "" 0 zeroLaunchOptions None end.
Definition exFrame (i : nat) : SessionFrame :=
  match Session_Frames exSession !! i with Some f => f
  | None => mkSessionFrame "" "" "" "" "" zeroLaunchOptions 0 None end.

Lemma exTwo_run : run exReg exampleId (exJson "claude") 0 New [exCreate; exPush]
  = Some (exTwo, exEffs (run exReg exampleId (exJson "claude") 0 New [exCreate; exPush]), 3%nat).
Proof. vm_compute. reflexivity. Qed.

Lemma exTwo_wf : wf_shapes (shapes exTwo).
Proof.
  apply (run_wf exReg exampleId (exJson "claude") [exCreate; exPush] 0 New exTwo _ 3
    exampleId_ok (wf_graph_New _) exTwo_run).
Qed.

Lemma exTwo_ok : frames_ok typedFor exTwo.
Proof. eapply run_frames_ok; [apply _|apply frames_ok_New|apply exTwo_run]. Qed.

Lemma crash_handled_once_witness :
  let s1 := (reduceFrameCommandExited exReg exTwo (exampleId 1) 2).1 in
  reduceFrameCommandExited exReg s1 (exampleId 1) 1 = (s1, []).
Proof.
  apply (crash_handled_once exOptions "zsh" exTwo (exampleId 1) 2 1 (exampleId 0) exSession (exFrame 0)
    _ (reduceFrameCommandExited exReg exTwo (exampleId 1) 2).2).
  - apply exTwo_wf.
  - reflexivity.
  - reflexivity.
  - vm_compute. reflexivity.
  - vm_compute. reflexivity.
  - apply surjective_pairing.
Defined.

(** Two reports of the crash of the second frame: two releases. *)
Lemma child_crash_repeats_witness :
  exitReports exReg (exampleId 2) 2 2 exTwo
  = (exTwo, [EffReleaseFrameSandbox (exampleId 2); EffReleaseFrameSandbox (exampleId 2)]).
Proof.
  apply (child_crash_repeats exOptions "zsh" exTwo (exampleId 2) 2 (exampleId 0) exSession 0 (exFrame 1) 2).
  - apply exTwo_ok.
  - reflexivity.
  - vm_compute. reflexivity.
  - vm_compute. reflexivity.
  - vm_compute. discriminate.
Defined.

(** A claude state as the hooks of a session leave it. *)
Definition exCtx : FrameContext := mkFrameContext (exampleId 1) "/proj" "claude" zeroLaunchOptions 0 true.
Definition exDriver : Claude.ClaudeDriver := Claude.mkClaudeDriver "/home/u" "/log" false "less".
Definition exInstant : Time := 63800000000 * 1000000000.
Definition exClaude : ClaudeState :=
  Claude.newState exInstant <| CL_Common := initCommon StatusIdle exInstant
    <| CS_Project := "/proj" |> <| CS_RoostSessionID := "s" |> |> <| CL_ClaudeSessionID := "conv-1" |>.

Lemma persist_round_trip_witness :
  exists bag, persistOf (DSClaude exClaude) = Some bag /\
    restoreOf (DSClaude exClaude) bag 0 = survivor 0 (DSClaude exClaude).
Proof.
  apply (persist_round_trip 0 (DSClaude exClaude)).
  - unfold timesFormattable, rfc3339.formattable. vm_compute. intuition discriminate.
  - exact I.
Defined.

Definition exCodex : CodexState :=
  Codex.newState 0 <| CX_ThreadID := "thread-1" |> <| CX_RolloutPath := "/r.jsonl" |>.

Lemma codex_never_fresh_witness :
  match Codex.PrepareLaunch (Some (DSCodex exCodex)) LaunchModeColdStart "/proj" "codex --worktree w"
          zeroLaunchOptions false with
  | inl plan => Resume_RolloutPath (Stream_ResumeTarget (Plan_Stream plan)) <> EmptyString
  | inr _ => True
  end.
Proof.
  apply (codex_never_fresh exCodex "/proj" "codex --worktree w" zeroLaunchOptions false).
  - vm_compute. reflexivity.
  - vm_compute. reflexivity.
  - vm_compute. reflexivity.
Defined.

Definition exPlan (r : LaunchPlan + error) : LaunchPlan :=
  match r with inl plan => plan
  | inr _ => Claude.simplePlan "" "" "" zeroLaunchOptions end.
Definition exResumed : ClaudeState :=
  exClaude <| CL_Common := initCommon StatusIdle 0 <| CS_TranscriptPath := "/t" |> |>.
Definition exLaunch : LaunchPlan + error :=
  Claude.PrepareLaunch exDriver (Some (DSClaude exResumed)) LaunchModeColdStart "/proj"
    "claude --worktree w" zeroLaunchOptions false.

Lemma claude_launch_words_witness : exists extra,
  launchExtra exResumed LaunchModeColdStart extra /\
  Strings.Fields (Plan_Command (exPlan exLaunch)) = launchWords false "claude --worktree w" ++ extra.
Proof.
  apply (claude_launch_words exDriver exResumed LaunchModeColdStart "/proj" "claude --worktree w"
    zeroLaunchOptions false (exPlan exLaunch)).
  vm_compute. reflexivity.
Defined.

(** A fork that only hears of its parent. *)
Definition exFork : list DriverEvent :=
  [DEvHook "" 5 "s" "start"; DEvTick 9 true "/proj" 1 1; DEvHook "" 7 "s" "stop"].

Definition exForked : ClaudeState :=
  runRoot exDriver exCtx (Claude.forkChild (Some (DSClaude exClaude)) 3) exFork.
Definition exBag : gmap string string :=
  Eval vm_compute in default ∅ (Claude.Persist (Some (DSClaude exForked))).

Lemma fork_survives_restart_witness : exists plan,
  Claude.PrepareLaunch exDriver (Some (DSClaude (Claude.Restore exBag 8))) LaunchModeColdStart "/proj"
    "claude" zeroLaunchOptions false = inl plan /\
  Strings.Fields (Plan_Command plan) = ["claude"; "--resume"; "conv-1"; "--fork-session"]%string.
Proof.
  apply (fork_survives_restart exDriver exCtx exClaude 3 exFork exBag 8 "/proj" "claude"
    zeroLaunchOptions false).
  - vm_compute. reflexivity.
  - reflexivity.
  - vm_compute. reflexivity.
  - vm_compute. reflexivity.
Defined.

(** The second hook comes late. *)
Lemma late_hooks_lost_witness :
  runHooks exDriver exCtx "s" exClaude [(5, "pre"); (4, "stop"); (7, "post")]%string
  = runHooks exDriver exCtx "s" exClaude [(5, "pre"); (7, "post")]%string.
Proof.
  rewrite (late_hooks_lost exDriver exCtx "s" exClaude [(5, "pre"); (4, "stop"); (7, "post")]%string)
    by reflexivity.
  vm_compute. reflexivity.
Defined.

Lemma tool_use_logged_witness : exists kind,
  toolLines (Claude.handleHook exDriver (runRoot exDriver exCtx
    (Claude.handleHook exDriver exClaude exCtx 5 "s" "pre").1 [DEvHook "" 6 "s" "stop"])
    exCtx 7 "s" "post").2 = [("-proj"%string, "Bash " +:+ kind)].
Proof.
  destruct (tool_use_logged exDriver exCtx exClaude 5 "s" "pre" [DEvHook "" 6 "s" "stop"] 7 "post")
    as [(kind & Hk & H) _].
  - reflexivity.
  - split; vm_compute; [discriminate|reflexivity].
  - reflexivity.
  - vm_compute. discriminate.
  - vm_compute. discriminate.
  - vm_compute. discriminate.
  - vm_compute. reflexivity.
  - split; vm_compute; [discriminate|reflexivity].
  - reflexivity.
  - reflexivity.
  - vm_compute. discriminate.
  - vm_compute. discriminate.
  - exists kind. rewrite H. vm_compute. reflexivity.
Defined.

Definition exTools : gmap string pendingTool :=
  {["a"%string := mkPendingTool "Bash" ∅ 7 false ""]} ∪ {["b"%string := mkPendingTool "Read" ∅ 5 false ""]}.

Lemma prompt_marks_oldest_witness : exists p, exTools !! "b"%string = Some p /\ PT_SawPrompt p = false /\
  forall id' p', exTools !! id' = Some p' -> PT_SawPrompt p' = false -> PT_StartedAt p <= PT_StartedAt p'.
Proof.
  exact (prompt_marks_oldest exTools (map_to_list exTools) eq_refl (reflexivity _)).
Defined.

(** One worker, a frame of the shell driver. *)
Definition exOutcomes : RunnerOutcomes :=
  mkRunnerOutcomes (λ _ _ _ _, True) (λ _ _ _, True) (λ _ _ _, True) (λ _ _ _, True) (λ _ _ _, True).
Definition exShell : Driver := Shell.driver (Shell.mkShellDriver "shell" "zsh" 0).
Definition exShellState : DriverStates := DSShell (Shell.newState 0).
Definition exTick : DriverEvent := DEvTick 9 true "/proj" 1 1.

Definition exTicked : World := afterEvent exOutcomes exShell exCtx (startWorld exShellState 1) exTick.

(** Sixty-four jobs of other frames fill the queue before the tick. *)
Fixpoint exFill (n : nat) (w : World) : World :=
  match n with O => w | S n => exFill n (startOther exOutcomes w (SummaryCommandInput "x")) end.

Lemma exFill_steps n : forall w, rtc (world_step exOutcomes exShell exCtx) w (exFill n w).
Proof. induction n; intros w; [done|]. eapply rtc_l; [apply world_other|]. apply IHn. Qed.

(** The job of a tick, with room in the queue and with none. *)
Definition exCrowded : World :=
  afterEvent exOutcomes exShell exCtx (exFill 64 (startWorld exShellState 1)) exTick.

Lemma exTicked_facts :
  W_Jobs exTicked !! 1 = Some (BranchDetectInput "/proj") /\ W_Refused exTicked !! 1 = None /\
  Pool_Cancelled (W_Pool exTicked) = false.
Proof. split_and!; vm_compute; reflexivity. Qed.
Lemma exCrowded_facts :
  W_Jobs exCrowded !! 65 = Some (BranchDetectInput "/proj") /\
  bool_decide (is_Some (W_Refused exCrowded !! 65)) = true /\
  Pool_Cancelled (W_Pool exCrowded) = false.
Proof. split_and!; vm_compute; reflexivity. Qed.

Lemma one_job_per_kind_witness :
  (inFlight (W_State exTicked) CBranch = true /\ 1 ∈ owed (W_Pool exTicked)) /\
  (W_Jobs exCrowded !! 65 = Some (BranchDetectInput "/proj") /\ 65 ∉ owed (W_Pool exCrowded)).
Proof.
  assert (created exShell (Some exShellState)) as Hc by exact (created_new exShell 0).
  split.
  - destruct (one_job_per_kind exOutcomes exShell KShell exCtx exShellState 1 exTicked) as (H1 & _ & H3 & _).
    + apply shell_jobs.
    + exact Hc.
    + apply rtc_once. apply world_event. reflexivity.
    + destruct exTicked_facts as (E1 & E2 & E3).
      split; [exact (proj1 (H1 CBranch _ _ E1 eq_refl))|].
      specialize (H3 E3 1 (mk_is_Some _ _ E1)). by rewrite E2 in H3.
  - destruct (one_job_per_kind exOutcomes exShell KShell exCtx exShellState 1 exCrowded) as (_ & _ & H3 & _).
    + apply shell_jobs.
    + exact Hc.
    + eapply rtc_r; [apply exFill_steps|]. apply world_event. reflexivity.
    + destruct exCrowded_facts as (E1 & E2%bool_decide_eq_true & E3). split; [exact E1|].
      specialize (H3 E3 65 (mk_is_Some _ _ E1)). destruct E2 as [p E2]. rewrite E2 in H3. exact (proj1 H3).
Defined.

Lemma lost_job_never_retried_witness :
  let w := afterEvent exOutcomes exShell exCtx (exFill 64 (startWorld exShellState 1)) exTick in
  inFlight (W_State w) CBranch = true /\
  classCount KShell CBranch (startedInputs (drvStep exShell exCtx (W_State w) exTick).2) = 0%nat.
Proof.
  apply (lost_job_never_retried exOutcomes exShell KShell exCtx exShellState 1
    (exFill 64 (startWorld exShellState 1)) exTick (BranchDetectInput "/proj") CBranch).
  - apply shell_jobs.
  - reflexivity.
  - intros []; reflexivity.
  - apply exFill_steps.
  - reflexivity.
  - vm_compute. left.
  - reflexivity.
  - vm_compute. reflexivity.
  - apply rtc_refl.
  - reflexivity.
Defined.
