(* ===== verification/DriverRunners.v ===== *)
(** * client/driver: the job runners

    [claude_runners.go], [codex_runners.go], [runners.go]: what the worker
    pool runs for a driver.  [ctxErr] is the error of a cancelled context; a
    file is its content when it is read, [None] if that fails; the summarizer
    is a shell command. *)

From S2P Require Import Prelude GoStd GoText GoJson GoIO ClientView ClientState DriverTypes DriverText ClaudeTool ClaudeParser ClaudeTracker CodexTranscript GeminiTranscript Worktree DriverWorld.
Open Scope Z_scope.

Section runners.
Context `{MR : MapRange}.

Definition normalizeTurns (turns : list claudetrack.TurnText) : list SummaryTurn :=
  map (fun t => mkSummaryTurn (claudetrack.Turn_Role t) (claudetrack.Turn_Text t)) turns.

(** [tp] of [newTranscriptSummaryRunners]: the tracker is shared by all jobs. *)
Definition transcriptParse (t : gmap string claudetrack.trackerState) (uuid path : string)
    (file : option string) (ctxErr : option error)
    : gmap string claudetrack.trackerState * (TranscriptParseResult + error) :=
  match ctxErr with
  | Some err => (t, inr err)
  | None =>
    let '(t, _, failed) := claudetrack.Update t uuid path file in
    if failed then (t, inr "open"%string)
    else
      let snap := claudetrack.Snapshot t uuid in
      let insight := claudetrack.Snap_Insight snap in
      (t, inl (mkTranscriptParseResult (claudetrack.Snap_Title snap) (claudetrack.Snap_LastPrompt snap)
                 (claudetrack.StatusLine t uuid) (claudetrack.SI_CurrentTool insight)
                 (claudetrack.SI_SubagentCounts insight)
                 (normalizeTurns (claudetrack.RecentRounds t uuid 2))
                 (claudetrack.SI_PlanFile insight)))
  end.

(** [summarizeWithCommand]: [sh] is the process, its output or its error. *)
Definition summarizeWithCommand (sh : string -> string -> string + error) (prompt command : string)
    : string + error :=
  match sh command prompt with
  | inl stdout => inl (Strings.TrimSpace (stripHookLines stdout))
  | inr err => inr err
  end.

(** [hs]: nothing to do without a command or a prompt. *)
Definition summaryCommand (sh : string -> string -> string + error) (summarizeCmd prompt : string)
    : string + error :=
  if decide (summarizeCmd = EmptyString \/ Strings.TrimSpace prompt = EmptyString) then inl EmptyString
  else match summarizeWithCommand sh prompt summarizeCmd with
       | inl r => inl (Strings.TrimSpace r)
       | inr err => inr err
       end.

Definition normalizeCodexTurns (turns : list codextx.TurnText) : list SummaryTurn :=
  map (fun t => mkSummaryTurn (codextx.Turn_Role t) (codextx.Turn_Text t)) turns.

Definition codexTranscriptParse (file : option string) (ctxErr : option error)
    : CodexTranscriptParseResult + error :=
  match ctxErr, file with
  | Some err, _ => inr err
  | None, None => inr "open"%string
  | None, Some data =>
    let snap := codextx.snapshot (codextx.ParseLines codextx.NewParser data).1 in
    inl (mkCodexTranscriptParseResult (codextx.Snap_Title snap) (codextx.Snap_LastPrompt snap)
           (codextx.Snap_LastAssistantMessage snap) (codextx.Snap_StatusLine snap)
           (normalizeCodexTurns (codextx.Snap_RecentTurns snap)))
  end.

Definition branchDetect (gitFound : bool) (plasticCmd : string) (urlHostname : string -> option string)
    (dir : string) : Eff worktree.Call worktree.Reply BranchDetectResult :=
  r ← worktree.vcs_DetectBranch gitFound plasticCmd urlHostname dir;
  mret (mkBranchDetectResult (worktree.Res_Branch r) (worktree.Res_Background r)
          (worktree.Res_Foreground r) (worktree.Res_IsWorktree r) (worktree.Res_ParentBranch r)).
End runners.
