(* ===== verification/TranscriptProps.v ===== *)
(** * The properties of the transcript parsers

    Following a claude transcript, the prompt and the rounds a session shows,
    subagents, codex chunks and gemini messages. *)

From S2P Require Import Prelude GoStd GoText GoJson GoIO ClaudeTool ClaudeParser ClaudeTracker ClaudeFollow CodexTranscript GeminiTranscript.
Open Scope Z_scope.

Import json claudetx claudeparse claudetrack.

Section props.
Context `{MR : MapRange}.

(** C9: however the updates of a session are spread over the growth of its
    transcript, as long as each of them finds complete lines (shorter than the
    scanner's 1 MiB), the tracker ends up as if it had read the file once. *)
Theorem transcript_followed id path batches :
  id <> EmptyString -> path <> EmptyString -> batches <> [] ->
  Forall (Forall (bufio.fits scannerMax)) batches ->
  updates NewTracker id path (growing [] batches)
  = (Update NewTracker id path (Some (bufio.unlines (concat batches)))).1.1.
Proof.
  intros Hi Hp Hne Hf. rewrite (updates_growing id path batches NewTracker [] EmptyString) by done.
  rewrite Update_first; [done..|]. by apply Forall_concat.
Qed.

(** A line that an update reads in two pieces, neither of them JSON, is
    lost for good: what the session shows is what it showed before the line,
    although the file has the line. *)
Theorem split_line_lost id path lines a b :
  id <> EmptyString -> path <> EmptyString -> Forall (bufio.fits scannerMax) lines ->
  a <> EmptyString -> bufio.fits scannerMax a -> bufio.fits scannerMax b ->
  parse (bufio.dropCR a) = None -> parse (bufio.dropCR b) = None ->
  let t := updates NewTracker id path
    [Some (bufio.unlines lines); Some (bufio.unlines lines +:+ a);
     Some (bufio.unlines (lines ++ [a +:+ b]))] in
  let t0 := (Update NewTracker id path (Some (bufio.unlines lines))).1.1 in
  Snapshot t id = Snapshot t0 id /\ StatusLine t id = StatusLine t0 id /\
  forall n, RecentRounds t id n = RecentRounds t0 id n.
Proof.
  intros Hi Hp Hl Hne Ha Hb Pa Pb. cbn zeta. rewrite split_line, Update_first by done.
  unfold Snapshot, StatusLine, RecentRounds. rewrite !lookup_singleton_eq.
  split; [|done]. unfold activeLastPrompt. by rewrite walk_offset.
Qed.

(** C37: after any sequence of updates of any sessions with any files, each
    session keeps at most 64 turns, each of them the text of a user or an
    assistant, and at most 5 commands and 10 files, without duplicates. *)
Theorem tracker_bounded (ops : list (string * string * option string)) id st :
  foldl (fun t '(id, path, file) => (Update t id path file).1.1) NewTracker ops !! id = Some st ->
  tracker_ok st.
Proof.
  assert (forall t : Tracker, (forall k st, t !! k = Some st -> tracker_ok st) ->
    forall k st, foldl (fun t '(id, path, file) => (Update t id path file).1.1) t ops !! k = Some st ->
    tracker_ok st) as H; [|apply H; by intros ? ?].
  induction ops as [|[[i p] f] ops IH]; intros t Ht k s; cbn [foldl]; [apply Ht|].
  apply IH. intros ? ?. by apply Update_ok.
Qed.

(** The prompt a session shows is the last one of the user, as long as what
    follows goes on from it: each entry belongs to the newest message or is an
    answer to it under a new id, fewer than the 100000 hops of the walk. *)
Theorem prompt_shown st e es :
  isPrompt e -> Entry_UUID e <> EmptyString -> (length es < maxWalk)%nat ->
  follows_on (<[Entry_UUID e := Entry_Text e]> (T_userPrompts st)) [Entry_UUID e] es ->
  activeLastPrompt (foldl applyEntry st (e :: es)) = Entry_Text e.
Proof. apply current_prompt. Qed.

(** The rounds of a summary: all turns when there are fewer user turns than
    asked for, otherwise a suffix that starts with a user turn and has as many
    user turns as asked for. *)
Theorem recent_rounds t id n st :
  t !! id = Some st -> 0 < n ->
  (users (T_recentTurns st) < n -> RecentRounds t id n = T_recentTurns st) /\
  (n <= users (T_recentTurns st) -> exists before first rest,
     T_recentTurns st = before ++ first :: rest /\ Turn_Role first = "user"%string /\
     RecentRounds t id n = first :: rest /\ users (first :: rest) = n).
Proof. apply RecentRounds_spec. Qed.

(** C36: inlining subagents returns when no agent's transcript leads back to the
    agent, with as much fuel as the agents are nested. *)
Theorem subagents_inlined fsys root show rank id base p :
  ranked fsys root rank -> is_Some (load_go fsys root show (S (rank id)) id base p).
Proof. intros Hr. apply (load_returns fsys root show rank Hr (S (rank id))). lia. Qed.

(** A subagent whose transcript names its own agent is loaded again and
    again: with no amount of fuel does the loader return. *)
Theorem subagent_loops fsys root show id data fuel base p :
  id <> EmptyString -> fsys (jsonlPath root id) = Some data -> inlines show id data ->
  P_cache p !! id = None -> load_go fsys root show fuel id base p = None.
Proof. intros Hne Hf Hi. by apply (load_diverges fsys root show id data). Qed.
End props.

(** A codex rollout fed in chunks that end at a line leaves the parser in
    the state, and yields the entries, of the whole text. *)
Theorem codex_chunks p a b :
  Forall (fun l => Strings.ContainsByte l bufio.newline = false) (a ++ b) ->
  let '(p1, es1) := codextx.ParseLines p (bufio.unlines a) in
  let '(p2, es2) := codextx.ParseLines p1 (bufio.unlines b) in
  codextx.ParseLines p (bufio.unlines (a ++ b)) = (p2, es1 ++ es2).
Proof. apply codextx.ParseLines_app. Qed.

(** The messages of a gemini chat file have different ids, and are the last
    versions of the messages its lines hold. *)
Theorem gemini_latest data meta messages :
  geminitx.scanGeminiTranscript data = Some (meta, messages) ->
  NoDup (geminitx.ids messages) /\
  forall m, m ∈ messages <-> exists l1 l2,
    omap geminitx.lineMessage (bufio.scan geminitx.scannerMax data).1.1 = l1 ++ m :: l2 /\
    geminitx.Msg_ID m ∉ geminitx.ids l2.
Proof.
  unfold geminitx.scanGeminiTranscript. destruct (bufio.scan _ data) as [[ts n] tl]. cbn [fst].
  destruct tl; [done|]. intros E%(inj Some).
  pose proof (geminitx.scan_messages ts (geminitx.mkMetadata "" "" "") []) as H. rewrite E in H.
  cbn [snd] in H. rewrite H. apply geminitx.upserts_latest.
Qed.

(** ** Witnesses *)

Program Definition someRange : MapRange := {| mapRange K _ _ V m := map_to_list m |}.
Next Obligation. done. Qed.

(** JSON with ['] for the quote. *)
Fixpoint ticked (s : string) : string :=
  match s with
  | EmptyString => EmptyString
  | String.String c s =>
    String.String (if decide (c = "'"%char) then "034"%char else c) (ticked s)
  end.

Definition userLine : string :=
  Eval vm_compute in ticked "{'type':'user','uuid':'u1','message':{'content':'fix it'}}".
Definition answerLine : string :=
  Eval vm_compute in ticked "{'type':'assistant','uuid':'u2','parentUuid':'u1','message':{'content':[{'type':'text','text':'done'}]}}".

Lemma fits_short max line :
  Strings.ContainsByte line bufio.newline = false -> bufio.len line <? max = true ->
  bufio.fits max line.
Proof. intros H1 H2%Z.ltb_lt. by split. Qed.

Ltac fits := apply fits_short; vm_compute; reflexivity.

Lemma transcript_followed_witness :
  updates (MR := someRange) NewTracker "s" "/t" (growing [] [[userLine]; [answerLine]])
  = (Update (MR := someRange) NewTracker "s" "/t" (Some (bufio.unlines [userLine; answerLine]))).1.1.
Proof.
  apply (transcript_followed (MR := someRange) "s" "/t" [[userLine]; [answerLine]]); try done.
  repeat (apply Forall_cons; split; [apply Forall_singleton; fits|]). apply Forall_nil. exact I.
Defined.

Lemma split_line_lost_witness :
  let a := Strings.str_take 20 answerLine in
  let b := Strings.str_drop 20 answerLine in
  let t := updates (MR := someRange) NewTracker "s" "/t"
    [Some (bufio.unlines [userLine]); Some (bufio.unlines [userLine] +:+ a);
     Some (bufio.unlines [userLine; a +:+ b])] in
  let t0 := (Update (MR := someRange) NewTracker "s" "/t" (Some (bufio.unlines [userLine]))).1.1 in
  Snapshot t "s" = Snapshot t0 "s" /\ StatusLine t "s" = StatusLine t0 "s" /\
  forall n, RecentRounds t "s" n = RecentRounds t0 "s" n.
Proof.
  apply (split_line_lost (MR := someRange) "s" "/t" [userLine]);
    [discriminate|discriminate|apply Forall_singleton; fits|discriminate|fits|fits
    |vm_compute; reflexivity|vm_compute; reflexivity].
Defined.

Lemma tracker_bounded_witness :
  exists st, foldl (fun t '(id, path, file) => (Update (MR := someRange) t id path file).1.1) NewTracker
    [("s", "/t", Some (bufio.unlines [userLine]))]%string !! "s"%string = Some st /\ tracker_ok st.
Proof.
  eexists. assert (H : foldl (fun t '(id, path, file) => (Update (MR := someRange) t id path file).1.1) NewTracker
    [("s", "/t", Some (bufio.unlines [userLine]))]%string !! "s"%string = Some
      (default newTrackerState (foldl (fun t '(id, path, file) => (Update (MR := someRange) t id path file).1.1) NewTracker
    [("s", "/t", Some (bufio.unlines [userLine]))]%string !! "s"%string))) by (vm_compute; reflexivity).
  split; [exact H|]. exact (tracker_bounded (MR := someRange) _ _ _ H).
Defined.

Definition promptEntry : Entry := textEntry KindUser "fix it" <| Entry_UUID := "u1"%string |>.
Definition answerEntry : Entry :=
  textEntry KindAssistantText "done" <| Entry_UUID := "u2"%string |> <| Entry_ParentUUID := "u1"%string |>.

Lemma prompt_shown_witness :
  activeLastPrompt (foldl applyEntry newTrackerState [promptEntry; answerEntry]) = "fix it"%string.
Proof.
  apply (prompt_shown newTrackerState promptEntry [answerEntry]); [done|done|cbn [length]; unfold maxWalk; lia|].
  apply fo_next; [done|done|set_solver|done|by intros [? _]|apply fo_nil].
Defined.

Lemma recent_rounds_witness :
  let st := newTrackerState <| T_recentTurns := [mkTurnText "user" "a"; mkTurnText "assistant" "b";
    mkTurnText "user" "c"]%string |> in
  1 <= users (T_recentTurns st) /\
  RecentRounds {[ "s"%string := st ]} "s" 1 = [mkTurnText "user" "c"]%string.
Proof.
  cbn zeta. split; [vm_compute; discriminate|].
  edestruct (recent_rounds {[ "s"%string := newTrackerState <| T_recentTurns :=
     [mkTurnText "user" "a"; mkTurnText "assistant" "b"; mkTurnText "user" "c"]%string |> ]} "s" 1)
    as [_ H]; [apply lookup_singleton_eq|lia|].
  destruct H as (? & ? & ? & _); [vm_compute; discriminate|]. vm_compute. reflexivity.
Defined.

(** An agent that starts itself. *)
Definition startLine : string :=
  Eval vm_compute in ticked "{'type':'assistant','message':{'content':[{'type':'tool_use','id':'t1','name':'Task','input':{}}]}}".
Definition endLine (agent : string) : string :=
  ticked ("{'type':'user','message':{'content':[{'type':'tool_result','tool_use_id':'t1','content':'ok'}]},'toolUseResult':{'agentId':'" +:+ agent +:+ "'}}").
Definition calls (agent : string) : string := bufio.unlines [startLine; endLine agent].

Definition files (agent path : string) : option string :=
  if decide (path = "sub/agent-a1.jsonl"%string) then Some (calls agent) else None.
Definition nesting (id : string) : nat := if files "a2" (jsonlPath "sub" id) then 1 else 0.

Lemma subagents_inlined_witness :
  is_Some (load_go (MR := someRange) (files "a2") "sub" true (S (nesting "a1")) "a1" 0 (newParser ∅)).
Proof.
  refine (subagents_inlined (MR := someRange) (files "a2") "sub" true nesting "a1" 0 (newParser ∅) _).
  intros id data line Hf Hl Hne. unfold nesting at 2. rewrite Hf.
  assert (data = calls "a2") as ->.
  { revert Hf. unfold files. case_decide; [|done]. by intros [= <-]. }
  assert ((bufio.scan (16 * 1024 * 1024) (calls "a2")).1.1 = [startLine; endLine "a2"]) as E
    by (vm_compute; reflexivity).
  rewrite E in Hl. apply elem_of_cons in Hl as [->|Hl].
  - exfalso. apply Hne. vm_compute. reflexivity.
  - apply list_elem_of_singleton in Hl as ->.
    assert (lineAgent (endLine "a2") = "a2"%string) as -> by (vm_compute; reflexivity).
    assert (nesting "a2" = 0%nat) as -> by (vm_compute; reflexivity). lia.
Defined.

Lemma subagent_loops_witness :
  load_go (MR := someRange) (files "a1") "sub" true 1000 "a1" 0 (newParser ∅) = None.
Proof.
  refine (subagent_loops (MR := someRange) (files "a1") "sub" true "a1" (calls "a1") 1000 0 (newParser ∅) _ _ _ _).
  - discriminate.
  - vm_compute. reflexivity.
  - intros load cache Hc Hl. unfold ParseAll.
    assert ((bufio.scan (16 * 1024 * 1024) (calls "a1")).1.1 = [startLine; endLine "a1"]) as ->
      by (vm_compute; reflexivity).
    vm_compute. rewrite Hl; [reflexivity|exact Hc].
  - reflexivity.
Defined.

Lemma codex_chunks_witness :
  let a := ["{}"%string] in
  Forall (fun l => Strings.ContainsByte l bufio.newline = false) (a ++ a) /\
  let '(p1, es1) := codextx.ParseLines codextx.NewParser (bufio.unlines a) in
  let '(p2, es2) := codextx.ParseLines p1 (bufio.unlines a) in
  codextx.ParseLines codextx.NewParser (bufio.unlines (a ++ a)) = (p2, es1 ++ es2).
Proof.
  cbn zeta. split.
  - repeat (apply Forall_cons; split; [reflexivity|]). by apply Forall_nil.
  - apply (codex_chunks codextx.NewParser ["{}"%string] ["{}"%string]).
    repeat (apply Forall_cons; split; [reflexivity|]). by apply Forall_nil.
Defined.

Definition chat : string :=
  bufio.unlines (map ticked ["{'id':'m1','type':'user','content':'a'}";
                             "{'id':'m1','type':'user','content':'b'}"]%string).

Lemma gemini_latest_witness :
  exists meta messages, geminitx.scanGeminiTranscript chat = Some (meta, messages) /\
    length messages = 1%nat /\ NoDup (geminitx.ids messages).
Proof.
  destruct (geminitx.scanGeminiTranscript chat) as [[meta messages]|] eqn:E.
  - exists meta, messages. split; [reflexivity|]. split.
    + revert E. vm_compute. intros [= <- <-]. reflexivity.
    + exact (proj1 (gemini_latest chat meta messages E)).
  - exfalso. revert E. vm_compute. discriminate.
Defined.
