(* ===== verification/PlatformProps.v ===== *)
(** * The properties of workspaces, mounts and worktrees *)

From S2P Require Import Prelude GoStd GoText GoPath WfConfig Workspace Pathmap ClientView ClientState Worktree GoIO.
Open Scope Z_scope.

Import filepath.

Section workspaces.
Import workspace.

(** C10: whatever identifiers and branches a tracker hands out, and whatever the
    operating system answers, the workspace manager looks at, creates, removes
    and runs hooks in nothing but directories right below its root. *)
Theorem workspace_contained cfg os ops :
  Forall (callInside (Clean (Workspace_Root (Config_Workspace cfg)))) (runOps (New cfg) os ops).
Proof. apply (runOps_inside (New cfg)). cbn. apply Clean_idem. Qed.

(** [Ensure] in full: an existing directory is taken as it is, another file
    is an error; a directory that was created is removed again exactly if its
    after_create hook fails or times out. *)
Theorem workspace_ensured m os h id br p :
  Path m id = inl p ->
  let hook := CHook "after_create" (Hooks_AfterCreate (M_hooks m)) p (branchEnv br)
                (Hooks_TimeoutMS (M_hooks m)) in
  let failed := match os (h ++ [CStat p; CMkdirAll p]) hook with RErr _ | RTimeout => true | _ => false end in
  let '(r, h') := Ensure m id br os h in
  match os h (CStat p) with
  | RDir => r = inl p /\ h' = h ++ [CStat p]
  | RNotExist =>
    match os (h ++ [CStat p]) (CMkdirAll p) with
    | RErr err => r = inr (ErrOs err) /\ h' = h ++ [CStat p; CMkdirAll p]
    | _ =>
      if decide (Hooks_AfterCreate (M_hooks m) = EmptyString) then
        r = inl p /\ h' = h ++ [CStat p; CMkdirAll p]
      else if failed then
        (exists err, r = inr (ErrAfterCreate err)) /\ h' = h ++ [CStat p; CMkdirAll p; hook; CRemoveAll p]
      else r = inl p /\ h' = h ++ [CStat p; CMkdirAll p; hook]
    end
  | RErr err => r = inr (ErrOs err) /\ h' = h ++ [CStat p]
  | _ => r = inr (ErrNotDirectory p) /\ h' = h ++ [CStat p]
  end.
Proof. apply Ensure_calls. Qed.

End workspaces.

Import worktree.

(** C21: a host path that is mounted into a container comes back from there as
    it was, cleaned, if the mount points are absolute, none of them the root,
    and no container mount point lies at or below another. *)
Theorem mount_round_trip ms h c :
  pathmap.translates ms -> pathmap.separate ms -> rooted h = true ->
  pathmap.ToContainer ms h = Some c -> pathmap.ToHost ms c = Some (Clean h).
Proof. apply pathmap.host_round_trip. Qed.

(** C22: the cleanup of worktrees removes only directories right below the
    worktrees of the repository it runs git in, and none that is tracked. *)
Theorem cleanup_spares_tracked gitFound projects tracked w h :
  exists calls, (CleanupUntracked gitFound projects tracked w h).2 = h ++ calls /\
    forall root x, CGit root (removeArgs x) ∈ calls -> Dir x = worktreesDir root /\ x ∉ tracked.
Proof.
  destruct (CleanupUntracked_only gitFound projects tracked w h) as (calls & E & H).
  exists calls. split; [done|]. intros root x Hx. rewrite Forall_forall in H.
  destruct (H _ Hx root x eq_refl) as (_ & ? & ?). done.
Qed.

(** A worktree that a launch creates or finds is recognized as managed
    later on, lies right below the worktrees of its repository, where it may be
    removed, and is the clean path under which it is tracked; [git] prints the
    root of a repository and the candidate names are plain file names. *)
Theorem created_worktree_managed gitFound w dir names wt h :
  printsRoot w -> Forall plain names -> (CreateWorktree gitFound dir names w h).1 = inl wt ->
  IsManagedWorktreePath (WR_StartDir wt) = true /\ Clean (WR_StartDir wt) = WR_StartDir wt /\
  exists root, Dir (WR_StartDir wt) = worktreesDir root.
Proof.
  intros Hw Hn E. destruct (CreateWorktree_yields gitFound w Hw dir names h wt E) as (root & Hr & Hin & ->).
  rewrite Forall_forall in Hn. destruct (worktreeDir_managed root (WR_Name wt) Hr (Hn _ Hin)) as (H1 & H2 & H3).
  split_and!; [done..|]. by exists root.
Qed.

(** The walk from a directory up to a repository ends at any directory:
    it needs no more steps than the path has characters, and three. *)
Theorem repository_search_ends entry dir w h : (findRoot_go (findFuel dir) entry dir w h).1 <> None.
Proof. apply findRoot_returns. Qed.

(** A frame that was started in the worktree of another one, without asking
    for a worktree itself, does not count as a user of it: when the owner is
    released, the worktree is removed under the frame that still runs in it. *)
Theorem borrowed_worktree_removed gitFound b owner borrower plan borrowed names w h :
  IsManagedWorktreePath (Plan_StartDir plan) = true -> Plan_StartDir plan <> EmptyString ->
  owner <> borrower -> worktreeEnabled plan = true ->
  Plan_StartDir borrowed = Plan_StartDir plan -> worktreeEnabled borrowed = false ->
  (forall f, B_frames b !! f <> Some (Plan_StartDir plan)) ->
  exists b1 r1 b2 r2,
    (BindFrame gitFound b owner plan names w h).1 = inl (b1, r1) /\
    (BindFrame gitFound b1 borrower borrowed names w h).1 = inl (b2, r2) /\
    Bind_WorktreeStartDir r2 = Plan_StartDir plan /\
    (ReleaseFrame b2 owner).2 = Some (Plan_StartDir plan) /\
    is_Some (B_frames (ReleaseFrame b2 owner).1 !! borrower).
Proof.
  intros Hm Hne Hd He Hs Hb Hno.
  rewrite (BindFrame_managed gitFound b owner plan names w h Hm), He.
  do 4 eexists. split; [done|].
  rewrite BindFrame_managed by by rewrite Hs. rewrite Hb, Hs. split_and!; [done..| |].
  - apply ReleaseFrame_spec. cbn. split_and!; [|done|].
    + rewrite lookup_insert_ne by done. by rewrite lookup_insert_eq.
    + intros g Hg. destruct (decide (g = borrower)) as [->|]; [rewrite lookup_insert_eq; congruence|].
      rewrite !lookup_insert_ne by done. apply Hno.
  - cbn. rewrite lookup_delete_ne, lookup_insert_eq by done. by eexists.
Qed.

(** ** Witnesses *)

Definition emptyDisk : World workspace.OsCall workspace.OsReply := fun _ c =>
  match c with workspace.CStat _ => workspace.RNotExist | _ => workspace.ROk end.

Lemma workspace_ensured_witness :
  let m := workspace.mkManager "/ws" (Config_Hooks zeroConfig) in
  workspace.Path m "ABC-1" = inl "/ws/ABC-1"%string /\
  workspace.Ensure m "ABC-1" "main" emptyDisk [] = (inl "/ws/ABC-1"%string,
    [workspace.CStat "/ws/ABC-1"; workspace.CMkdirAll "/ws/ABC-1"]).
Proof.
  cbn zeta.
  assert (workspace.Path (workspace.mkManager "/ws" (Config_Hooks zeroConfig)) "ABC-1"
    = inl "/ws/ABC-1"%string) as E by (vm_compute; reflexivity).
  split; [exact E|].
  pose proof (workspace_ensured _ emptyDisk [] "ABC-1" "main" _ E) as H. cbn zeta in H.
  destruct (workspace.Ensure _ _ _ _ _) as [r h'].
  revert H. cbn -[workspace.branchEnv]. rewrite decide_True by reflexivity. intros [-> ->]. reflexivity.
Defined.

Definition exampleMounts : list pathmap.Mount :=
  [pathmap.mkMount "/home/u/src" "/work"; pathmap.mkMount "/home/u/.cfg" "/cfg"].

Lemma example_separate : pathmap.separate exampleMounts.
Proof.
  intros m m' Hm Hm' [l Hl]. unfold exampleMounts in *.
  apply elem_of_cons in Hm as [->|Hm%list_elem_of_singleton];
    apply elem_of_cons in Hm' as [->|Hm'%list_elem_of_singleton]; subst; try reflexivity;
    revert Hl; vm_compute; discriminate.
Qed.

Lemma mount_round_trip_witness :
  pathmap.ToContainer exampleMounts "/home/u/src/a/../b" = Some "/work/b"%string /\
  pathmap.ToHost exampleMounts "/work/b" = Some "/home/u/src/b"%string.
Proof.
  assert (pathmap.ToContainer exampleMounts "/home/u/src/a/../b" = Some "/work/b"%string) as E
    by (vm_compute; reflexivity).
  split; [exact E|].
  rewrite (mount_round_trip exampleMounts "/home/u/src/a/../b" "/work/b"); [vm_compute; reflexivity| | | |].
  - repeat (apply Forall_cons; split; [split; (split; [reflexivity|vm_compute; discriminate])|]).
    apply Forall_nil. exact I.
  - apply example_separate.
  - reflexivity.
  - exact E.
Defined.

(** A repository at [/r] in which [git] succeeds. *)
Definition repository : World Call Reply := fun _ c =>
  match c with
  | CLstat _ => RFound false
  | CStat _ => RFailed "no such file"
  | CGit _ _ => ROutput "/r"
  | _ => ROutput EmptyString
  end.

Lemma created_worktree_managed_witness :
  exists wt, (CreateWorktree true "/r" ["w1"]%string repository []).1 = inl wt /\
    IsManagedWorktreePath (WR_StartDir wt) = true.
Proof.
  eexists. assert (E : (CreateWorktree true "/r" ["w1"]%string repository []).1
    = inl (mkWorktreeResult "/r/.agent-reactor/worktrees/w1" "w1")) by (vm_compute; reflexivity).
  split; [exact E|].
  refine (proj1 (created_worktree_managed true repository "/r" ["w1"%string] _ [] _ _ E)).
  - intros h dir out [= <-]. vm_compute. discriminate.
  - apply Forall_singleton. split_and!; try discriminate. reflexivity.
Defined.

Definition planIn (dir : string) (own : bool) : LaunchPlan :=
  mkLaunchPlan "claude" dir "/r" 0 (mkLaunchOptions (mkWorktreeOption own) "" 0 0) ""
    (mkStreamLaunchOptions "" "" (mkResumeTarget "" "") "") "".

Lemma borrowed_worktree_removed_witness :
  let dir := "/r/.agent-reactor/worktrees/w1"%string in
  exists b1 r1 b2 r2,
    (BindFrame true (NewBackend "/r") "f1" (planIn dir true) [] repository []).1 = inl (b1, r1) /\
    (BindFrame true b1 "f2" (planIn dir false) [] repository []).1 = inl (b2, r2) /\
    Bind_WorktreeStartDir r2 = dir /\
    (ReleaseFrame b2 "f1").2 = Some dir /\ is_Some (B_frames (ReleaseFrame b2 "f1").1 !! ("f2" : FrameID)).
Proof.
  cbn zeta.
  apply (borrowed_worktree_removed true (NewBackend "/r") "f1" "f2"
    (planIn "/r/.agent-reactor/worktrees/w1" true) (planIn "/r/.agent-reactor/worktrees/w1" false)
    [] repository []).
  - vm_compute. reflexivity.
  - discriminate.
  - discriminate.
  - reflexivity.
  - reflexivity.
  - reflexivity.
  - intros f. discriminate.
Defined.
