(* ===== verification/FrameReg.v ===== *)
(** * client/runtime/framereg: bearer tokens and bind mounts of frames

    Containers authenticate with a token that leads to the frame they were
    spawned for.  The two directions of the table stay inverse to each other
    ([consistent]), so a token leads to at most one frame and dies with it. *)

From S2P Require Import Prelude GoStd GoText GoPath Pathmap.
Open Scope Z_scope.

Module framereg.

Record Registry := mkRegistry {
  frameToToken : gmap string string;
  tokenToFrame : gmap string string;
  mounts : gmap string (list pathmap.Mount);
}.
#[export] Instance eta_Registry : Eta Registry := fun r =>
  mkRegistry (frameToToken r) (tokenToFrame r) (mounts r).

Definition New : Registry := mkRegistry ∅ ∅ ∅.

(** A token that is bound to another frame is taken from it. *)
Definition warnIfTokenRebind (reg : Registry) (token newFrameID : string) : Registry :=
  match tokenToFrame reg !! token with
  | None => reg
  | Some prev =>
    if decide (prev = newFrameID) then reg
    else reg <| frameToToken := delete prev (frameToToken reg) |>
             <| mounts := delete prev (mounts reg) |>
  end.

Definition Register (reg : Registry) (frameID token : string) : Registry :=
  let reg := match frameToToken reg !! frameID with
             | Some old => reg <| tokenToFrame := delete old (tokenToFrame reg) |>
             | None => reg
             end in
  let reg := warnIfTokenRebind reg token frameID in
  reg <| frameToToken := <[frameID := token]> (frameToToken reg) |>
      <| tokenToFrame := <[token := frameID]> (tokenToFrame reg) |>.

Definition RegisterWithMounts (reg : Registry) (frameID token : string) (ms : list pathmap.Mount)
    : Registry :=
  let reg := match frameToToken reg !! frameID with
             | Some old => reg <| tokenToFrame := delete old (tokenToFrame reg) |>
             | None => reg
             end in
  let reg := warnIfTokenRebind reg token frameID in
  let reg := reg <| frameToToken := <[frameID := token]> (frameToToken reg) |>
                 <| tokenToFrame := <[token := frameID]> (tokenToFrame reg) |> in
  match ms with
  | _ :: _ => reg <| mounts := <[frameID := ms]> (mounts reg) |>
  | [] => reg <| mounts := delete frameID (mounts reg) |>
  end.

Definition StoreMounts (reg : Registry) (frameID : string) (ms : list pathmap.Mount) : Registry :=
  reg <| mounts := <[frameID := ms]> (mounts reg) |>.

Definition Lookup (reg : Registry) (token : string) : option string := tokenToFrame reg !! token.
Definition GetMounts (reg : Registry) (frameID : string) : option (list pathmap.Mount) :=
  mounts reg !! frameID.

Definition Delete (reg : Registry) (frameID : string) : Registry :=
  let reg := match frameToToken reg !! frameID with
             | Some token => reg <| tokenToFrame := delete token (tokenToFrame reg) |>
                                 <| frameToToken := delete frameID (frameToToken reg) |>
             | None => reg
             end in
  reg <| mounts := delete frameID (mounts reg) |>.

(** ** The two directions *)

Definition consistent (reg : Registry) : Prop :=
  forall f t, frameToToken reg !! f = Some t <-> tokenToFrame reg !! t = Some f.

Lemma New_consistent : consistent New.
Proof. intros f t. cbn. by rewrite !lookup_empty. Qed.

(** The part common to both registrations. *)
Definition bound (reg : Registry) (f t : string) : Registry :=
  let reg := match frameToToken reg !! f with
             | Some old => reg <| tokenToFrame := delete old (tokenToFrame reg) |>
             | None => reg
             end in
  let reg := warnIfTokenRebind reg t f in
  reg <| frameToToken := <[f := t]> (frameToToken reg) |>
      <| tokenToFrame := <[t := f]> (tokenToFrame reg) |>.

Lemma bound_tokens reg f t t' :
  tokenToFrame (bound reg f t) !! t' =
    if decide (t' = t) then Some f
    else if decide (frameToToken reg !! f = Some t') then None else tokenToFrame reg !! t'.
Proof.
  assert (forall r, tokenToFrame (warnIfTokenRebind r t f) = tokenToFrame r) as Hw
    by (intros r; unfold warnIfTokenRebind; repeat case_match; done).
  unfold bound. cbv zeta. cbn [tokenToFrame field_set]. cbn. rewrite Hw.
  destruct (decide (t' = t)) as [->|]; [apply lookup_insert_eq|]. rewrite lookup_insert_ne by done.
  destruct (frameToToken reg !! f) as [old|]; cbn; [|done].
  case_decide as E; [injection E as ->; apply lookup_delete_eq|]. apply lookup_delete_ne. congruence.
Qed.

Lemma bound_frames reg f t f' : consistent reg ->
  frameToToken (bound reg f t) !! f' =
    if decide (f' = f) then Some t
    else if decide (frameToToken reg !! f' = Some t) then None else frameToToken reg !! f'.
Proof.
  intros H. unfold bound. cbv zeta. cbn.
  destruct (decide (f' = f)) as [->|Hf]; [apply lookup_insert_eq|]. rewrite lookup_insert_ne by done.
  set (r1 := match frameToToken reg !! f with Some _ => _ | None => _ end).
  assert (frameToToken r1 = frameToToken reg) as E1 by (unfold r1; by destruct (frameToToken reg !! f)).
  assert (tokenToFrame r1 !! t = if decide (frameToToken reg !! f = Some t) then None else tokenToFrame reg !! t) as E2.
  { unfold r1. destruct (frameToToken reg !! f) as [old|]; cbn; [|done].
    case_decide as E; [injection E as ->; apply lookup_delete_eq|]. apply lookup_delete_ne. congruence. }
  unfold warnIfTokenRebind. rewrite E2. case_decide as E.
  - rewrite E1. rewrite decide_False; [done|]. intros E'. apply H in E, E'. congruence.
  - destruct (tokenToFrame reg !! t) as [prev|] eqn:Ep.
    + destruct (decide (prev = f)) as [->|Hp]; [by apply H in Ep|]. cbn. rewrite E1.
      apply H in Ep. destruct (decide (f' = prev)) as [->|].
      * rewrite lookup_delete_eq. by rewrite decide_True.
      * rewrite lookup_delete_ne by done. rewrite decide_False; [done|].
        intros E'. apply H in E', Ep. congruence.
    + rewrite E1, decide_False; [done|]. intros E'. apply H in E'. congruence.
Qed.

Lemma bound_consistent reg f t : consistent reg -> consistent (bound reg f t).
Proof.
  intros H f' t'. rewrite bound_tokens, bound_frames by done.
  destruct (decide (f' = f)) as [->|Hf], (decide (t' = t)) as [->|Ht]; try done.
  - split; [intros [= E]; by destruct Ht|]. case_decide as E; [done|]. intros E'. by apply H in E'.
  - split; [|intros [= E]; by destruct Hf]. case_decide as E; [done|]. done.
  - destruct (decide (frameToToken reg !! f' = Some t)) as [E|E].
    + split; [done|]. case_decide; [done|]. intros E'. apply H in E'. congruence.
    + case_decide as E'; [|apply H]. split; [|done]. intros E2. apply H in E', E2. congruence.
Qed.

Lemma Register_bound reg f t : Register reg f t = bound reg f t.
Proof. done. Qed.

Lemma RegisterWithMounts_bound reg f t ms :
  frameToToken (RegisterWithMounts reg f t ms) = frameToToken (bound reg f t) /\
  tokenToFrame (RegisterWithMounts reg f t ms) = tokenToFrame (bound reg f t).
Proof. by destruct ms. Qed.

Lemma RegisterWithMounts_consistent reg f t ms : consistent reg -> consistent (RegisterWithMounts reg f t ms).
Proof.
  intros H f' t'. destruct (RegisterWithMounts_bound reg f t ms) as [-> ->]. by apply bound_consistent.
Qed.

(** Only the frame itself gains a token. *)
Lemma RegisterWithMounts_frames reg f t ms f' : consistent reg ->
  is_Some (frameToToken (RegisterWithMounts reg f t ms) !! f') -> f' = f \/ is_Some (frameToToken reg !! f').
Proof.
  intros H. destruct (RegisterWithMounts_bound reg f t ms) as [-> _]. rewrite bound_frames by done.
  case_decide; [by left|]. case_decide; [by intros []|]. by right.
Qed.

Lemma Delete_spec reg f : consistent reg ->
  consistent (Delete reg f) /\ frameToToken (Delete reg f) = delete f (frameToToken reg).
Proof.
  intros H. assert (frameToToken (Delete reg f) = delete f (frameToToken reg)) as E.
  { unfold Delete. cbv zeta. destruct (frameToToken reg !! f) eqn:E; cbn; [done|]. by rewrite delete_id. }
  split; [|done]. intros f' t'. rewrite E. unfold Delete. cbv zeta.
  destruct (frameToToken reg !! f) as [t|] eqn:Et; cbn.
  - destruct (decide (f' = f)) as [->|Hf].
    + rewrite lookup_delete_eq. split; [done|]. intros [Hne E']%lookup_delete_Some. apply H in E'. congruence.
    + rewrite lookup_delete_ne, lookup_delete_Some by done. split.
      * intros E'. apply H in E'. split; [|done]. intros ->. apply H in Et. congruence.
      * intros [_ E']. by apply H.
  - rewrite delete_id by done. apply H.
Qed.

(** No token leads to a deleted frame. *)
Lemma Delete_Lookup reg f t : consistent reg -> Lookup (Delete reg f) t <> Some f.
Proof.
  intros H E. destruct (Delete_spec reg f H) as [Hc Ef]. apply Hc in E. by rewrite Ef, lookup_delete_eq in E.
Qed.
End framereg.
