(* ===== verification/RuntimePersist.v ===== *)
(** * client/runtime/persist.go: session snapshots on disk

    The on-disk form of a session (backends.go), its JSON, and [FilePersist]:
    one file per session, written to a temporary file and renamed.
    [warm_state.go], the per-frame store of container tokens, works the same
    way. *)

From S2P Require Import Prelude GoStd GoText GoTime GoJson GoMarshal GoPath GoDisk ClientView ClientState.
From stdpp Require Import pretty.
Open Scope Z_scope.

Import json marshal indent filepath os.

(** ** Snapshots (backends.go) *)

(** A nil [DriverState] is [None]. *)
Record SessionFrameSnapshot := mkSessionFrameSnapshot {
  FSnap_ID : string;
  FSnap_SubsystemID : string;
  FSnap_TargetID : string;
  FSnap_Project : string;
  FSnap_Command : string;
  FSnap_LaunchOptions : LaunchOptions;
  FSnap_CreatedAt : string;
  FSnap_Driver : string;
  FSnap_DriverState : option (gmap string string);
}.

Record SessionSnapshot := mkSessionSnapshot {
  Snap_ID : string;
  Snap_Project : string;
  Snap_CreatedAt : string;
  Snap_Frames : list SessionFrameSnapshot;
  Snap_HeadFrameID : string;
  Snap_MRUFrameIDs : list string;
  Snap_Sandbox : SandboxOverride;
}.

#[export] Instance eta_WorktreeOption : Eta WorktreeOption := fun r => mkWorktreeOption (Worktree_Enabled r).
#[export] Instance eta_SessionFrameSnapshot : Eta SessionFrameSnapshot := fun r =>
  mkSessionFrameSnapshot (FSnap_ID r) (FSnap_SubsystemID r) (FSnap_TargetID r) (FSnap_Project r)
    (FSnap_Command r) (FSnap_LaunchOptions r) (FSnap_CreatedAt r) (FSnap_Driver r) (FSnap_DriverState r).
#[export] Instance eta_SessionSnapshot : Eta SessionSnapshot := fun r =>
  mkSessionSnapshot (Snap_ID r) (Snap_Project r) (Snap_CreatedAt r) (Snap_Frames r)
    (Snap_HeadFrameID r) (Snap_MRUFrameIDs r) (Snap_Sandbox r).

Definition zeroFrameSnapshot : SessionFrameSnapshot :=
  mkSessionFrameSnapshot "" "" "" "" "" zeroLaunchOptions "" "" None.
Definition zeroSnapshot : SessionSnapshot := mkSessionSnapshot "" "" "" [] "" [] 0.

(** ** Encoding

    [omitempty] has no effect on a struct. *)

Definition worktreeAny (w : WorktreeOption) : any := AObj (omitBool "enabled" (Worktree_Enabled w)).

Definition omitBytes (name data : string) : list (string * any) :=
  if decide (data = EmptyString) then [] else [(name, AStr (base64.Encode data))].

Definition launchOptionsAny (o : LaunchOptions) : any :=
  AObj ([("worktree"%string, worktreeAny (Opt_Worktree o))]
        ++ omitBytes "initial_input" (Opt_InitialInput o)
        ++ omitInt "cols" (Opt_Cols o) ++ omitInt "rows" (Opt_Rows o)).

Definition bagAny (bag : option (gmap string string)) : any :=
  match bag with
  | Some m => mapAny (map (fun kv => (kv.1, AStr kv.2)) (map_to_list m))
  | None => ANull
  end.

Definition frameMembers (f : SessionFrameSnapshot) : list (string * any) :=
  [("id"%string, AStr (FSnap_ID f))]
  ++ omitStr "subsystem_id" (FSnap_SubsystemID f) ++ omitStr "target_id" (FSnap_TargetID f)
  ++ [("project"%string, AStr (FSnap_Project f)); ("command"%string, AStr (FSnap_Command f));
      ("launch_options"%string, launchOptionsAny (FSnap_LaunchOptions f));
      ("created_at"%string, AStr (FSnap_CreatedAt f)); ("driver"%string, AStr (FSnap_Driver f));
      ("driver_state"%string, bagAny (FSnap_DriverState f))].

Definition snapshotMembers (s : SessionSnapshot) : list (string * any) :=
  [("id"%string, AStr (Snap_ID s)); ("project"%string, AStr (Snap_Project s));
   ("created_at"%string, AStr (Snap_CreatedAt s));
   ("frames"%string, AArr (map (fun f => AObj (frameMembers f)) (Snap_Frames s)))]
  ++ omitStr "head_frame_id" (Snap_HeadFrameID s) ++ omitStrs "mru_frame_ids" (Snap_MRUFrameIDs s)
  ++ omitInt "sandbox" (Snap_Sandbox s).

Definition snapshotAny (s : SessionSnapshot) : any := AObj (snapshotMembers s).

(** ** Decoding *)

Definition dWorktree : Decoder WorktreeOption := dStruct [fld "enabled" Worktree_Enabled dBool].

(** [[]byte]: base64. *)
Definition dBytes : Decoder string := fun rv x =>
  match rv.2 with
  | Str s => match base64.Decode s with Some b => (b, false) | None => (x, true) end
  | Null => (EmptyString, false)
  | _ => (x, true)
  end.

Definition dUint16 : Decoder Z := fun rv x =>
  match rv.2 with
  | Number lit =>
    match strconv.Atoi lit with
    | Some n => if Strings.HasPrefix lit "-" || (65535 <? n) then (x, true) else (n, false)
    | None => (x, true)
    end
  | Null => (x, false)
  | _ => (x, true)
  end.

Definition dLaunchOptions : Decoder LaunchOptions := dStruct
  [fld "worktree" Opt_Worktree dWorktree; fld "initial_input" Opt_InitialInput dBytes;
   fld "cols" Opt_Cols dUint16; fld "rows" Opt_Rows dUint16].

Definition dBag : Decoder (option (gmap string string)) := fun rv x =>
  match rv.2 with
  | Null => (None, false)
  | Object _ => let '(m, e) := dMap EmptyString dString rv (default ∅ x) in (Some m, e)
  | _ => (x, true)
  end.

Definition dFrame : Decoder SessionFrameSnapshot := dStruct
  [fld "id" FSnap_ID dString; fld "subsystem_id" FSnap_SubsystemID dString;
   fld "target_id" FSnap_TargetID dString; fld "project" FSnap_Project dString;
   fld "command" FSnap_Command dString; fld "launch_options" FSnap_LaunchOptions dLaunchOptions;
   fld "created_at" FSnap_CreatedAt dString; fld "driver" FSnap_Driver dString;
   fld "driver_state" FSnap_DriverState dBag].

Definition dSnapshot : Decoder SessionSnapshot := dStruct
  [fld "id" Snap_ID dString; fld "project" Snap_Project dString;
   fld "created_at" Snap_CreatedAt dString; fld "frames" Snap_Frames (dSlice zeroFrameSnapshot dFrame);
   fld "head_frame_id" Snap_HeadFrameID dString;
   fld "mru_frame_ids" Snap_MRUFrameIDs (dSlice EmptyString dString);
   fld "sandbox" Snap_Sandbox dInt].

Record legacySnapshot := mkLegacySnapshot { Legacy_ActiveFrameID : string }.
#[export] Instance eta_legacySnapshot : Eta legacySnapshot := fun r => mkLegacySnapshot (Legacy_ActiveFrameID r).
Definition dLegacy : Decoder legacySnapshot := dStruct [fld "active_frame_id" Legacy_ActiveFrameID dString].

(** ** FilePersist *)

Module persist.
Section persist.
Context (fault : Faults).

Record FilePersist := mkFilePersist { dir : string }.
Definition NewFilePersist (dataDir : string) : FilePersist := mkFilePersist (Join [dataDir; "sessions"]).

Definition writeOne (p : FilePersist) (sess : SessionSnapshot) : IO (option string) :=
  match MarshalIndent (snapshotAny sess) with
  | None => mret (Some ("persist: marshal " +:+ Snap_ID sess))
  | Some data =>
    let target := Join [dir p; Snap_ID sess +:+ ".json"] in
    let tmp := target +:+ ".tmp" in
    r ← WriteFile fault tmp data;
    match r with
    | inr e => mret (Some ("persist: write " +:+ Snap_ID sess +:+ ": " +:+ Error_text e))
    | inl _ =>
      r ← Rename fault tmp target;
      match r with
      | inr e => mret (Some ("persist: rename " +:+ Snap_ID sess +:+ ": " +:+ Error_text e))
      | inl _ => mret None
      end
    end
  end.

(** The loop stops at the first error. *)
Fixpoint writeAll (p : FilePersist) (sessions : list SessionSnapshot) : IO (option string) :=
  match sessions with
  | [] => mret None
  | sess :: sessions =>
    err ← writeOne p sess;
    match err with Some e => mret (Some e) | None => writeAll p sessions end
  end.

Definition Save (p : FilePersist) (sessions : list SessionSnapshot) : IO (option string) :=
  r ← MkdirAll fault (dir p);
  match r with
  | inr e => mret (Some ("persist: mkdir: " +:+ Error_text e))
  | inl _ => writeAll p sessions
  end.

Definition Delete (p : FilePersist) (id : string) : IO (option string) :=
  if decide (id = EmptyString) then mret None
  else
    r ← Remove fault (Join [dir p; id +:+ ".json"]);
    match r with
    | inr e => if IsNotExist e then mret None
               else mret (Some ("persist: delete " +:+ id +:+ ": " +:+ Error_text e))
    | inl _ => mret None
    end.

(** The snapshot a file holds. *)
Definition decodeSnapshot (data : string) : SessionSnapshot * bool :=
  let '(snap, bad) := Unmarshal dSnapshot data zeroSnapshot in
  if bad then (snap, true)
  else if decide (Snap_HeadFrameID snap = EmptyString) then
    match Unmarshal dLegacy data (mkLegacySnapshot "") with
    | (legacy, false) => (snap <| Snap_HeadFrameID := Legacy_ActiveFrameID legacy |>, false)
    | (_, true) => (snap, false)
    end
  else (snap, false).

Fixpoint loadEntries (p : FilePersist) (names : list string) (out : list SessionSnapshot)
    : IO (list SessionSnapshot + string) :=
  match names with
  | [] => mret (inl out)
  | name :: names =>
    if negb (Strings.HasSuffix name ".json") || Strings.HasSuffix name ".tmp" then loadEntries p names out
    else
      r ← ReadFile fault (Join [dir p; name]);
      match r with
      | inr e => mret (inr ("persist: read " +:+ name +:+ ": " +:+ Error_text e))
      | inl data =>
        match decodeSnapshot data with
        | (_, true) => mret (inr ("persist: unmarshal " +:+ name))
        | (snap, false) => loadEntries p names (out ++ [snap])
        end
      end
  end.

Definition Load (p : FilePersist) : IO (list SessionSnapshot + string) :=
  r ← ReadDir fault (dir p);
  match r with
  | inr e => if IsNotExist e then mret (inl []) else mret (inr ("persist: readdir: " +:+ Error_text e))
  | inl names => loadEntries p names []
  end.
End persist.
End persist.
Abbreviation decodeSnapshot := persist.decodeSnapshot.

(** ** The warm store (warm_state.go) *)

Module warm.
Record WarmFrameState := mkWarmFrameState { WF_FrameID : string; WF_ContainerToken : string }.
#[export] Instance eta_WarmFrameState : Eta WarmFrameState := fun r =>
  mkWarmFrameState (WF_FrameID r) (WF_ContainerToken r).

Definition stateAny (st : WarmFrameState) : any :=
  AObj ([("frame_id"%string, AStr (WF_FrameID st))] ++ omitStr "container_token" (WF_ContainerToken st)).
Definition dState : Decoder WarmFrameState := dStruct
  [fld "frame_id" WF_FrameID dString; fld "container_token" WF_ContainerToken dString].

Section store.
Context (fault : Faults) (storeDir : string).

Definition path (frameID : string) : string := Join [storeDir; Base frameID +:+ ".json"].

Definition Save (st : WarmFrameState) : IO (option string) :=
  match MarshalIndent (stateAny st) with
  | None => mret (Some ("warm: marshal " +:+ WF_FrameID st))
  | Some data =>
    let target := path (WF_FrameID st) in
    let tmp := target +:+ ".tmp" in
    r ← WriteFile fault tmp data;
    match r with
    | inr e => mret (Some ("warm: write " +:+ WF_FrameID st +:+ ": " +:+ Error_text e))
    | inl _ =>
      r ← Rename fault tmp target;
      match r with
      | inr e => mret (Some ("warm: rename " +:+ WF_FrameID st +:+ ": " +:+ Error_text e))
      | inl _ => mret None
      end
    end
  end.

Definition Reset : IO (option string) :=
  r ← RemoveAll fault storeDir;
  match r with
  | inr e => mret (Some ("warm: reset remove: " +:+ Error_text e))
  | inl _ =>
    r ← MkdirAll fault storeDir;
    match r with
    | inr e => mret (Some ("warm: reset mkdir: " +:+ Error_text e))
    | inl _ => mret None
    end
  end.

Definition Delete (frameID : string) : IO (option string) :=
  r ← Remove fault (path frameID);
  match r with
  | inr e => if IsNotExist e then mret None
             else mret (Some ("warm: delete " +:+ frameID +:+ ": " +:+ Error_text e))
  | inl _ => mret None
  end.

(** Files that cannot be read or parsed are skipped. *)
Fixpoint loadEntries (names : list string) (out : list WarmFrameState) : IO (list WarmFrameState) :=
  match names with
  | [] => mret out
  | name :: names =>
    if negb (Strings.HasSuffix name ".json") then loadEntries names out
    else
      r ← ReadFile fault (Join [storeDir; name]);
      match r with
      | inr _ => loadEntries names out
      | inl data =>
        match Unmarshal dState data (mkWarmFrameState "" "") with
        | (_, true) => loadEntries names out
        | (st, false) => loadEntries names (out ++ [st])
        end
      end
  end.

Definition LoadAll : IO (list WarmFrameState + string) :=
  r ← ReadDir fault storeDir;
  match r with
  | inr e => if IsNotExist e then mret (inl []) else mret (inr ("warm: readdir: " +:+ Error_text e))
  | inl names => out ← loadEntries names []; mret (inl out)
  end.
End store.

Definition newWarmFrameStore (fault : Faults) (dataDir : string) : IO (string + string) :=
  let storeDir := Join [dataDir; "warm"] in
  r ← MkdirAll fault storeDir;
  match r with
  | inr e => mret (inr ("warm: mkdir: " +:+ Error_text e))
  | inl _ => mret (inl storeDir)
  end.
End warm.

(** ** What is written is read back *)

(** Valid UTF-8, which the encoder leaves alone. *)
Definition utf8ok (s : string) : Prop := ToValid s = s.

Definition optionsOk (o : LaunchOptions) : Prop :=
  0 <= Opt_Cols o <= 65535 /\ 0 <= Opt_Rows o <= 65535.

Record frameOk (f : SessionFrameSnapshot) : Prop := {
  fo_strings : Forall utf8ok [FSnap_ID f; FSnap_SubsystemID f; FSnap_TargetID f; FSnap_Project f;
    FSnap_Command f; FSnap_CreatedAt f; FSnap_Driver f];
  fo_options : optionsOk (FSnap_LaunchOptions f);
  fo_bag : forall bag k v, FSnap_DriverState f = Some bag -> bag !! k = Some v -> utf8ok k /\ utf8ok v;
}.

Record snapshotOk (s : SessionSnapshot) : Prop := {
  so_strings : Forall utf8ok [Snap_ID s; Snap_Project s; Snap_CreatedAt s; Snap_HeadFrameID s];
  so_frames : Forall frameOk (Snap_Frames s);
  so_mru : Forall utf8ok (Snap_MRUFrameIDs s);
  so_sandbox : in_int64 (Snap_Sandbox s);
}.

(** Enough levels for every value here. *)
Lemma wf_strs_at n l : wf (S n) (strs l).
Proof. constructor. apply Forall_map. apply Forall_true. intros. constructor. Qed.

Ltac members := repeat first
  [ apply Forall_app; split | apply Forall_cons; split | apply Forall_nil_2
  | progress unfold omitStr, omitInt, omitBool, omitBytes, omitStrs | case_match | case_decide ].

Lemma wf_worktree n w : wf (S n) (worktreeAny w).
Proof. constructor. members; constructor. Qed.
Lemma wf_options n o : wf (S (S n)) (launchOptionsAny o).
Proof. constructor. members; first [apply wf_worktree | constructor]. Qed.
Lemma wf_bag n bag : wf (S n) (bagAny bag).
Proof.
  destruct bag as [m|]; [|constructor]. constructor. rewrite merge_sort_Permutation.
  apply Forall_map, Forall_true. intros. constructor.
Qed.
Lemma wf_frame n f : wf (S (S (S n))) (AObj (frameMembers f)).
Proof. constructor. unfold frameMembers. members; first [apply wf_options | apply wf_bag | constructor]. Qed.
Lemma wf_snapshot s : wf 5 (snapshotAny s).
Proof.
  constructor. unfold snapshotMembers. members; first [apply wf_strs_at | constructor].
  apply Forall_map, Forall_true. intros. apply wf_frame.
Qed.

Lemma cooked_bag bag : cooked (bagAny bag) = true.
Proof.
  destruct bag as [m|]; [|done]. cbn [bagAny mapAny cooked]. apply forallb_forall.
  intros x Hx%list_elem_of_In. rewrite merge_sort_Permutation in Hx.
  apply list_elem_of_fmap in Hx as (kv & -> & _). done.
Qed.

Ltac cooks := rewrite ?forallb_app; cbn [forallb snd cooked];
  unfold omitStr, omitInt, omitBool, omitBytes, omitStrs; repeat case_match; try done.

Lemma cooked_frame f : cooked (AObj (frameMembers f)) = true.
Proof.
  cbn [cooked]. unfold frameMembers. rewrite !forallb_app. cbn [forallb snd cooked].
  rewrite cooked_bag. unfold launchOptionsAny, worktreeAny, omitStr, omitInt, omitBool, omitBytes.
  repeat case_decide; destruct (Worktree_Enabled _); done.
Qed.

Lemma cooked_snapshot s : cooked (snapshotAny s) = true.
Proof.
  cbn [snapshotAny cooked]. unfold snapshotMembers. rewrite !forallb_app. cbn [forallb snd cooked].
  assert (forallb cooked (map (fun f => AObj (frameMembers f)) (Snap_Frames s)) = true) as ->.
  { apply forallb_forall. intros x (f & <- & _)%in_map_iff. apply cooked_frame. }
  unfold omitStr, omitInt, omitStrs. assert (cooked (strs (Snap_MRUFrameIDs s)) = true) as Hs.
  { apply forallb_forall. by intros x (f & <- & _)%in_map_iff. }
  destruct (Snap_MRUFrameIDs s); repeat case_decide; cbn [forallb snd app]; rewrite ?Hs; done.
Qed.

(** None of the decoders keeps source text. *)
Lemma textless_bytes : textless dBytes.
Proof. by intros t [] x. Qed.
Lemma textless_uint16 : textless dUint16.
Proof. by intros t [] x. Qed.
Lemma textless_bag : textless dBag.
Proof.
  intros t [] x; try done. unfold dBag. cbn [snd erase].
  by rewrite (textless_map EmptyString dString textless_string t (Object members)).
Qed.
Ltac textlesses := repeat (apply Forall_cons; split; [cbn [snd]; apply textless_field|]); [..|apply Forall_nil_2].
Lemma textless_options : textless dLaunchOptions.
Proof.
  apply textless_struct. textlesses; [|apply textless_bytes|apply textless_uint16..].
  apply textless_struct. textlesses. apply textless_bool.
Qed.
Lemma textless_frame : textless dFrame.
Proof. apply textless_struct. textlesses; try apply textless_string; [apply textless_options|apply textless_bag]. Qed.
Lemma textless_snapshot : textless dSnapshot.
Proof.
  apply textless_struct. textlesses; try apply textless_string; [apply textless_slice, textless_frame|
    apply textless_slice, textless_string|apply textless_int].
Qed.
Lemma textless_legacy : textless dLegacy.
Proof. apply textless_struct. textlesses. apply textless_string. Qed.

(** Values of the encoder, decoded. *)
Definition decodes {T} (d : Decoder T) (a : any) (x y : T) : Prop := d (text a, valueOf a) x = (y, false).

Lemma Itoa_unsigned n : 0 <= n -> Strings.HasPrefix (strconv.Itoa n) "-" = false.
Proof.
  intros Hn. destruct (Itoa_shape n) as [->|(sign & c & ds & E & Hs & Hc & _)]; [done|].
  destruct n as [|q|q]; [done| |lia]. rewrite E. destruct Hs as [->| ->].
  - rewrite str_app_nil_l. unfold Strings.HasPrefix. cbn [String.prefix].
    destruct (ascii_dec "-" c) as [<-|]; [by destruct Hc|done].
  - exfalso. destruct (strconv.pretty_N_head (N.pos q)) as (c' & s & E' & Hc').
    change (strconv.Itoa (Z.pos q)) with (pretty (N.pos q)) in E. rewrite E', str_app_cons, str_app_nil_l in E.
    injection E as -> _. by destruct Hc'.
Qed.

Lemma dUint16_Itoa n x : 0 <= n <= 65535 -> decodes dUint16 (AInt n) x n.
Proof.
  intros Hn. unfold decodes, dUint16. cbn [snd valueOf].
  rewrite strconv.Atoi_Itoa by (unfold in_int64, int64_min, int64_max; lia).
  rewrite Itoa_unsigned by lia. by destruct (Z.ltb_spec 65535 n); [lia|].
Qed.

(** ASCII text is valid. *)
Fixpoint ascii7 (s : string) : Prop :=
  match s with EmptyString => True | String.String c s => utf8.byte c < 128 /\ ascii7 s end.

Lemma utf8ok_ascii s : ascii7 s -> utf8ok s.
Proof.
  unfold utf8ok. induction s as [|c s IH]; [done|]. intros [Hc Hs].
  rewrite (ToValid_cons c s (utf8.byte c) 0) by (unfold utf8.decode; by rewrite (proj2 (Z.ltb_lt _ _) Hc)).
  change (utf8.of_runes (utf8.runes_go 0 s)) with (ToValid s). rewrite IH by done.
  pose proof (utf8.byte_range c). unfold utf8.encode, utf8.valid_rune, utf8.between.
  replace ((0 <=? utf8.byte c) && (utf8.byte c <=? 55295)) with true by lia. cbn [orb].
  rewrite (proj2 (Z.ltb_lt _ _) Hc). by rewrite chr_of_byte.
Qed.

Lemma alphabet_ascii n : 0 <= n < 64 -> utf8.byte (base64.alphabet n) < 128.
Proof.
  intros Hn. unfold base64.alphabet.
  rewrite utf8.byte_chr; repeat case_match; lia.
Qed.

Lemma Encode_ascii s : ascii7 (base64.Encode s).
Proof.
  induction s as [s IH] using (induction_ltof1 _ String.length). unfold ltof in IH.
  destruct s as [|a [|b [|c s]]]; [done|..]; cbn [base64.Encode]; cbv zeta;
    pose proof (utf8.byte_range a); try pose proof (utf8.byte_range b); try pose proof (utf8.byte_range c);
    cbn [ascii7]; split_and!; try done; try (apply IH; simpl; lia);
    apply alphabet_ascii; Z.to_euclidean_division_equations; lia.
Qed.

Lemma dBytes_Encode s x : decodes dBytes (AStr (base64.Encode s)) x s.
Proof.
  unfold decodes, dBytes. cbn [snd valueOf]. rewrite (utf8ok_ascii _ (Encode_ascii s)).
  by rewrite base64.Decode_Encode.
Qed.

Lemma decodes_str s x : utf8ok s -> decodes dString (AStr s) x s.
Proof. intros H. unfold decodes, dString. cbn [snd valueOf]. by rewrite H. Qed.

Lemma decodes_member {S T} (fields : list (Field S)) name (pr : S -> T) `{!FieldSet pr} (d : Decoder T) a x y :
  findField fields (ToValid name) = Some (snd (fld name pr d)) -> decodes d a (pr x) y ->
  storeMembers fields (enc [(name, a)]) x = (field_set pr y x, false).
Proof. intros. by eapply store_member. Qed.

Lemma decodes_obj {S} (fields : list (Field S)) ms x y :
  storeMembers fields (enc ms) x = (y, false) -> decodes (dStruct fields) (AObj ms) x y.
Proof. intros H. unfold decodes, dStruct. cbn [snd valueOf]. exact H. Qed.

Lemma decodes_worktree w : decodes dWorktree (worktreeAny w) (mkWorktreeOption false) w.
Proof. apply decodes_obj. rewrite (store_omitBool _ _ Worktree_Enabled) by done. by destruct w. Qed.

Lemma store_omitBytes {S} (fields : list (Field S)) name (pr : S -> string) `{!FieldSet pr} s x :
  findField fields (ToValid name) = Some (snd (fld name pr dBytes)) -> field_set pr EmptyString x = x ->
  storeMembers fields (enc (omitBytes name s)) x = (field_set pr s x, false).
Proof.
  intros Hf Hx. unfold omitBytes. case_decide; [by subst; rewrite Hx|].
  eapply decodes_member; [done|]. apply dBytes_Encode.
Qed.

Lemma store_omitUint16 {S} (fields : list (Field S)) name (pr : S -> Z) `{!FieldSet pr} n x :
  findField fields (ToValid name) = Some (snd (fld name pr dUint16)) -> field_set pr 0 x = x -> 0 <= n <= 65535 ->
  storeMembers fields (enc (omitInt name n)) x = (field_set pr n x, false).
Proof.
  intros Hf Hx Hn. unfold omitInt. case_decide; [by subst; rewrite Hx|].
  eapply decodes_member; [done|]. by apply dUint16_Itoa.
Qed.

Lemma decodes_options o : optionsOk o -> decodes dLaunchOptions (launchOptionsAny o) zeroLaunchOptions o.
Proof.
  intros [Hc Hr]. apply decodes_obj. rewrite !enc_app.
  erewrite store_then by (eapply decodes_member; [done|apply decodes_worktree]).
  erewrite store_then by (apply (store_omitBytes _ "initial_input" Opt_InitialInput); done).
  erewrite store_then by (apply (store_omitUint16 _ "cols" Opt_Cols); done).
  erewrite (store_omitUint16 _ "rows" Opt_Rows) by done. by destruct o.
Qed.

(** Distinct keys: the order of the members does not matter. *)
Lemma foldl_insert {V} (l : list (string * V)) (m : gmap string V) : NoDup l.*1 ->
  foldl (fun m kv => <[kv.1 := kv.2]> m) m l = list_to_map l ∪ m.
Proof.
  revert m. induction l as [|[k v] l IH]; intros m; cbn [fmap list_fmap foldl fst snd list_to_map].
  - intros _. by rewrite left_id_L by apply _.
  - intros [Hk Hl]%NoDup_cons. rewrite IH by done. rewrite <- insert_union_r by by apply not_elem_of_list_to_map.
    by rewrite insert_union_l.
Qed.

Lemma decodes_bag bag : (forall m k v, bag = Some m -> m !! k = Some v -> utf8ok k /\ utf8ok v) ->
  decodes dBag (bagAny bag) None bag.
Proof.
  intros Hb. destruct bag as [m|]; [|done]. unfold decodes, dBag, dMap.
  cbn [bagAny mapAny valueOf snd default]. set (ms := map (fun kv => (kv.1, AStr kv.2)) (map_to_list m)).
  assert (exists l, merge_sort keyLe ms = map (fun kv => (kv.1, AStr kv.2)) l /\ l ≡ₚ map_to_list m) as (l & -> & Hl).
  { destruct (Permutation_map_inv _ _ (merge_sort_Permutation keyLe ms)) as (l & E & Hp).
    exists l. split; [exact E|]. by symmetry. }
  assert (Forall (fun kv => utf8ok kv.1 /\ utf8ok kv.2) l) as Hok.
  { apply Forall_forall. intros [k v] Hkv. rewrite Hl in Hkv. apply elem_of_map_to_list in Hkv. by eapply Hb. }
  assert (foldl (fun (m : gmap string string) km => <[km.1 := (dString km.2 EmptyString).1]> m) ∅
    (map (fun x => (ToValid x.1, (quote x.2, Str (ToValid x.2)))) l) = m) as E.
  { transitivity (foldl (fun (m : gmap string string) kv => <[kv.1 := kv.2]> m) ∅ l).
    - generalize (∅ : gmap string string). clear Hl. induction Hok as [|[k v] l [H1 H2] _ IH]; intros g; [done|].
      cbn [map foldl fst snd dString]. by rewrite H1, H2, IH.
    - rewrite foldl_insert by (rewrite Hl; apply NoDup_fst_map_to_list).
      rewrite right_id_L by apply _. rewrite <- (list_to_map_to_list m).
      apply list_to_map_proper; [rewrite Hl; apply NoDup_fst_map_to_list|done]. }
  rewrite map_map. cbn [fst snd valueOf text]. rewrite E. f_equal. clear.
  induction l as [|kv l IH]; [done|]. exact IH.
Qed.

Lemma decodes_frame f : frameOk f -> decodes dFrame (AObj (frameMembers f)) zeroFrameSnapshot f.
Proof.
  intros [Hs Ho Hb]. rewrite !Forall_cons in Hs. destruct Hs as (H1 & H2 & H3 & H4 & H5 & H6 & H7 & _).
  apply decodes_obj. unfold frameMembers. rewrite !enc_app.
  erewrite store_then by (eapply decodes_member; [done|by apply decodes_str]).
  erewrite store_then by (apply (store_omitStr _ "subsystem_id" FSnap_SubsystemID); done).
  erewrite store_then by (apply (store_omitStr _ "target_id" FSnap_TargetID); done).
  erewrite store_first by (eapply decodes_member; [done|by apply decodes_str]).
  erewrite store_first by (eapply decodes_member; [done|by apply decodes_str]).
  erewrite store_first by (eapply decodes_member; [done|by apply decodes_options]).
  erewrite store_first by (eapply decodes_member; [done|by apply decodes_str]).
  erewrite store_first by (eapply decodes_member; [done|by apply decodes_str]).
  erewrite decodes_member; [|done|by apply decodes_bag].
  unfold utf8ok in *. rewrite H2, H3. by destruct f.
Qed.

Lemma decodes_frames fs x : Forall frameOk fs ->
  decodes (dSlice zeroFrameSnapshot dFrame) (AArr (map (fun f => AObj (frameMembers f)) fs)) x fs.
Proof.
  intros H. unfold decodes, dSlice. cbn [snd valueOf]. rewrite !map_map.
  induction H as [|f fs Hf _ IH]; [done|]. apply pair_equal_spec in IH as [E1 E2]. cbn [map existsb].
  rewrite (decodes_frame f Hf), E2. by setoid_rewrite E1.
Qed.

Lemma decodes_strs l x : Forall utf8ok l -> decodes (dSlice EmptyString dString) (strs l) x l.
Proof.
  intros H. unfold decodes. rewrite dSlice_strs. f_equal. induction H as [|s l Hs _ IH]; [done|].
  cbn [map]. by rewrite Hs, IH.
Qed.

Lemma decodes_snapshot s : snapshotOk s -> decodes dSnapshot (snapshotAny s) zeroSnapshot s.
Proof.
  intros [Hs Hf Hm Hb]. rewrite !Forall_cons in Hs. destruct Hs as (H1 & H2 & H3 & H4 & _).
  apply decodes_obj. unfold snapshotMembers. rewrite !enc_app.
  erewrite store_then.
  2: { erewrite store_first by (eapply decodes_member; [done|by apply decodes_str]).
       erewrite store_first by (eapply decodes_member; [done|by apply decodes_str]).
       erewrite store_first by (eapply decodes_member; [done|by apply decodes_str]).
       eapply decodes_member; [done|by apply decodes_frames]. }
  erewrite store_then by (apply (store_omitStr _ "head_frame_id" Snap_HeadFrameID); done).
  erewrite store_then.
  2: { instantiate (1 := mkSessionSnapshot (Snap_ID s) (Snap_Project s) (Snap_CreatedAt s) (Snap_Frames s)
         (ToValid (Snap_HeadFrameID s)) (Snap_MRUFrameIDs s) 0).
       unfold omitStrs. destruct (Snap_MRUFrameIDs s) as [|m ms] eqn:E; [done|]. rewrite <- E in *.
       erewrite decodes_member; [|done|by apply decodes_strs]. done. }
  erewrite (store_omitInt _ "sandbox" Snap_Sandbox) by done. unfold utf8ok in *. rewrite H4. by destruct s.
Qed.

Lemma depth5 : (5 <= maxNestingDepth)%nat.
Proof. unfold maxNestingDepth. lia. Qed.

(** A snapshot is read back from the file written for it. *)
Lemma decode_written s : snapshotOk s -> decodeSnapshot (textAt 0 (snapshotAny s)) = (s, false).
Proof.
  intros H. unfold decodeSnapshot.
  rewrite (Unmarshal_indented 5) by (apply wf_snapshot || apply depth5 || apply cooked_snapshot || apply textless_snapshot).
  unfold Unmarshal at 1. rewrite (parse_text 5) by (apply wf_snapshot || apply depth5).
  rewrite (decodes_snapshot s H). case_decide as Hh; [|done].
  rewrite (Unmarshal_indented 5) by (apply wf_snapshot || apply depth5 || apply cooked_snapshot || apply textless_legacy).
  unfold Unmarshal. rewrite (parse_text 5) by (apply wf_snapshot || apply depth5).
  assert (dLegacy (text (snapshotAny s), valueOf (snapshotAny s)) (mkLegacySnapshot "")
          = (mkLegacySnapshot "", false)) as ->.
  { unfold dLegacy, dStruct. cbn [snd valueOf snapshotAny]. fold (enc (snapshotMembers s)).
    unfold snapshotMembers. rewrite !enc_app. erewrite store_then by done.
    unfold omitStr, omitInt, omitStrs. rewrite decide_True by done.
    destruct (Snap_MRUFrameIDs s); case_decide; done. }
  cbn [Legacy_ActiveFrameID]. rewrite <- Hh. by destruct s.
Qed.
