(* ===== verification/RuntimeStore.v ===== *)
(** * client/runtime/persist.go: the session files

    What [Save], [Delete] and [Load] do to the files of the sessions
    directory, whatever operation fails: a session's file is replaced in one
    step, so it always holds a whole snapshot, the old one or the new one. *)

From S2P Require Import Prelude GoStd GoText GoTime GoJson GoMarshal GoPath GoDisk ClientView ClientState RuntimePersist.
From stdpp Require Import sorting.
Open Scope Z_scope.

Import json marshal indent filepath os.

(** ** File names *)

Definition fileName (id : string) : string := id +:+ ".json".
(** An id that can be part of a file name. *)
Definition idOk (id : string) : Prop := Strings.ContainsByte id "/" = false.

Lemma plain_long x y : idOk x -> idOk y -> (2 < String.length y)%nat -> plain (x +:+ y).
Proof.
  intros Hx Hy Hl. assert (2 < String.length (x +:+ y))%nat as H by (rewrite str_length_app; lia).
  split_and!; try (intros E; rewrite E in H; simpl in H; lia).
  rewrite ContainsByte_app. by rewrite Hx, Hy.
Qed.
Lemma plain_file id : idOk id -> plain (fileName id).
Proof. intros H. apply plain_long; [done|done|simpl; lia]. Qed.
Lemma plain_tmp id : idOk id -> plain (fileName id +:+ ".tmp").
Proof. intros H. unfold fileName. rewrite str_app_assoc. apply plain_long; [done|done|simpl; lia]. Qed.

Lemma fileName_inj id id' : fileName id = fileName id' -> id = id'.
Proof. apply str_app_inj_r. Qed.
Lemma last_char a c b d : a +:+ String.String c EmptyString = b +:+ String.String d EmptyString -> c = d.
Proof.
  intros E. assert (String.length a = String.length b) as Hl.
  { apply (f_equal String.length) in E. rewrite !str_length_app in E. simpl in E. lia. }
  assert (a = b) as -> by (rewrite <- (str_take_app a (String.String c EmptyString)), E, Hl; apply str_take_app).
  pose proof (str_drop_app b (String.String c EmptyString)) as E1. rewrite E, str_drop_app in E1. by injection E1 as ->.
Qed.
(** A temporary file is not the file of a session. *)
Lemma tmp_not_file id id' : fileName id <> fileName id' +:+ ".tmp".
Proof.
  unfold fileName. intros E.
  change ".json"%string with (".jso" +:+ "n")%string in E at 1. change ".tmp"%string with (".tm" +:+ "p")%string in E.
  rewrite <- !str_app_assoc in E. by apply last_char in E.
Qed.

Section store.
Context (fault : Faults) (p : persist.FilePersist).
Context (Hdir : Clean (persist.dir p) = persist.dir p) (Hne : persist.dir p <> EmptyString).

(** What the file of a session holds. *)
Definition stored (d : Disk) (id : string) : option string := files d !! (persist.dir p, fileName id).
Definition textOf (s : SessionSnapshot) : string := textAt 0 (snapshotAny s).

Lemma locate_file id : idOk id -> locate (Join [persist.dir p; id +:+ ".json"]) = (persist.dir p, fileName id).
Proof. intros H. apply locate_Join; [done..|]. by apply plain_file. Qed.
Lemma locate_tmp id : idOk id -> locate (Join [persist.dir p; id +:+ ".json"] +:+ ".tmp") = (persist.dir p, fileName id +:+ ".tmp").
Proof.
  intros H. rewrite Join_suffix by (done || by apply plain_file || by apply plain_tmp).
  apply locate_Join; [done..|]. by apply plain_tmp.
Qed.

(** ** Writing one session *)

Lemma stored_tmp d id id' data :
  stored (tick (d <| files := <[(persist.dir p, fileName id +:+ ".tmp") := data]> (files d) |>)) id' = stored d id'.
Proof.
  unfold stored. cbn. rewrite lookup_insert_ne; [done|]. intros [= E]. by apply (tmp_not_file id' id).
Qed.

Lemma writeOne_spec sess d r d' : idOk (Snap_ID sess) -> persist.writeOne fault p sess d = (r, d') ->
  dirs d' = dirs d /\
  (forall id, id <> Snap_ID sess -> stored d' id = stored d id) /\
  stored d' (Snap_ID sess) = match r with None => Some (textOf sess) | Some _ => stored d (Snap_ID sess) end.
Proof.
  intros Hid. unfold persist.writeOne. rewrite (MarshalIndent_wf 5) by (apply wf_snapshot || apply depth5).
  cbv zeta. unfold mbind, IO_bind, mret, IO_ret, WriteFile, Rename, perform. rewrite locate_tmp, locate_file by done.
  destruct (fault (ops d) _) as [f|].
  - intros [= <- <-]. destruct (Fault_torn f) as [torn|]; [|done].
    split_and!; [done|intros; apply stored_tmp..].
  - case_decide; [|by intros [= <- <-]].
    cbv beta iota zeta. set (d1 := tick _).
    assert (forall id, stored d1 id = stored d id) as H1 by (intros; apply stored_tmp).
    destruct (fault (ops d1) _) as [f|]; [intros [= <- <-]; split_and!; [done|intros; apply H1..]|].
    assert (files d1 !! (persist.dir p, fileName (Snap_ID sess) +:+ ".tmp") = Some (textOf sess)) as ->
      by apply lookup_insert_eq.
    intros [= <- <-]. split_and!; [done|..].
    + intros id Hne'. unfold stored in *. cbn [files field_set tick]. cbn.
      rewrite lookup_insert_ne by (intros [= E]; by apply Hne', fileName_inj).
      rewrite lookup_delete_ne by (intros [= E]; by apply (tmp_not_file id (Snap_ID sess))). apply H1.
    + unfold stored. cbn. apply lookup_insert_eq.
Qed.

(** ** Saving *)

Lemma writeAll_spec sessions : Forall (fun s => idOk (Snap_ID s)) sessions -> forall d r d',
  persist.writeAll fault p sessions d = (r, d') ->
  dirs d' = dirs d /\
  (forall id, stored d' id = stored d id \/ exists s, s ∈ sessions /\ Snap_ID s = id /\ stored d' id = Some (textOf s)) /\
  (r = None -> NoDup (map Snap_ID sessions) -> forall s, s ∈ sessions -> stored d' (Snap_ID s) = Some (textOf s)).
Proof.
  induction 1 as [|s sessions Hs _ IH]; intros d r d'; cbn [persist.writeAll].
  { intros [= <- <-]. split_and!; [done|by left|]. intros _ _ s Hs. by apply elem_of_nil in Hs. }
  unfold mbind, IO_bind. destruct (persist.writeOne fault p s d) as [r1 d1] eqn:E1.
  apply writeOne_spec in E1 as (D1 & O1 & N1); [|done]. destruct r1 as [e|].
  - intros [= <- <-]. split_and!; [done| |done]. intros id. left.
    destruct (decide (id = Snap_ID s)) as [->|]; [done|by apply O1].
  - intros (D2 & W2 & A2)%IH. split_and!; [by rewrite D2| |].
    + intros id. destruct (W2 id) as [E|(s' & Hin & Hid & E)]; [|right; exists s'; split_and!; [by right|done..]].
      rewrite E. destruct (decide (id = Snap_ID s)) as [->|]; [|left; by apply O1].
      right. exists s. rewrite N1. split_and!; [by left|done..].
    + intros Hr [Hn HN]%NoDup_cons s' [->|Hin]%elem_of_cons; [|by apply A2].
      destruct (W2 (Snap_ID s)) as [E|(s'' & Hin & Hid & _)]; [by rewrite E, N1|].
      destruct Hn. rewrite <- Hid. by apply list_elem_of_fmap_2.
Qed.

Lemma Save_spec sessions d r d' : Forall (fun s => idOk (Snap_ID s)) sessions ->
  persist.Save fault p sessions d = (r, d') ->
  (forall id, stored d' id = stored d id \/ exists s, s ∈ sessions /\ Snap_ID s = id /\ stored d' id = Some (textOf s)) /\
  (r = None -> persist.dir p ∈ dirs d') /\ dirs d ⊆ dirs d' /\
  (r = None -> NoDup (map Snap_ID sessions) -> forall s, s ∈ sessions -> stored d' (Snap_ID s) = Some (textOf s)).
Proof.
  intros Hs. unfold persist.Save, mbind, IO_bind, MkdirAll, perform. destruct (fault (ops d) _) as [f|].
  { intros [= <- <-]. split_and!; [by left|done..]. }
  cbv beta iota zeta. set (d1 := tick _). intros (D & W & A)%writeAll_spec; [|done].
  rewrite D. unfold d1. cbn. rewrite Hdir. split_and!; [done|set_solver..|done].
Qed.

Lemma delete_files id d r d' : idOk id -> id <> EmptyString -> persist.Delete fault p id d = (r, d') ->
  dirs d' = dirs d /\ (forall id', id' <> id -> stored d' id' = stored d id') /\
  stored d' id = match r with None => None | Some _ => stored d id end.
Proof.
  intros Hid Hi. unfold persist.Delete. rewrite decide_False by done.
  unfold mbind, IO_bind, Remove, perform, mret, IO_ret. rewrite locate_file by done.
  destruct (fault (ops d) _) as [f|]; [by intros [= <- <-]|].
  destruct (files d !! (persist.dir p, fileName id)) as [data|] eqn:E; cbn [IsNotExist missing].
  - intros [= <- <-]. split_and!; [done|..]; unfold stored; cbn; [|apply lookup_delete_eq].
    intros id' Hi'. apply lookup_delete_ne. intros [= E']. by apply Hi', fileName_inj.
  - intros [= <- <-]. split_and!; [done..|]. exact E.
Qed.

(** Without faults a save succeeds. *)
Lemma writeOne_faultless sess d : (forall n o, fault n o = None) -> idOk (Snap_ID sess) ->
  persist.dir p ∈ dirs d -> (persist.writeOne fault p sess d).1 = None.
Proof.
  intros Hf Hid Hd. unfold persist.writeOne. rewrite (MarshalIndent_wf 5) by (apply wf_snapshot || apply depth5).
  cbv zeta. unfold mbind, IO_bind, mret, IO_ret, WriteFile, Rename, perform. rewrite Hf.
  pose proof (locate_tmp (Snap_ID sess) Hid) as El. pose proof (f_equal fst El) as Ed. cbn [fst locate] in Ed. rewrite Ed.
  rewrite decide_True, Hf, locate_tmp by done. cbn. by rewrite lookup_insert_eq.
Qed.

Lemma Save_faultless sessions d : (forall n o, fault n o = None) -> Forall (fun s => idOk (Snap_ID s)) sessions ->
  (persist.Save fault p sessions d).1 = None.
Proof.
  intros Hf Hs. unfold persist.Save, mbind, IO_bind, MkdirAll, perform. rewrite Hf. cbv beta iota zeta.
  assert (persist.dir p ∈ dirs (tick (d <| dirs := {[Clean (persist.dir p)]} ∪ dirs d |>))) as Hd
    by (cbn; rewrite Hdir; set_solver).
  revert Hd. generalize (tick (d <| dirs := {[Clean (persist.dir p)]} ∪ dirs d |>)).
  induction Hs as [|s sessions Hid _ IH]; intros d1 Hd1; [done|]. cbn [persist.writeAll]. unfold mbind, IO_bind.
  pose proof (writeOne_faultless s d1 Hf Hid Hd1) as E1.
  destruct (persist.writeOne fault p s d1) as [r1 d2] eqn:E. cbn in E1. subst r1.
  apply IH. by apply writeOne_spec in E as (-> & _).
Qed.
End store.

(** ** The directory as a whole *)

Lemma textOf_inj s s' : snapshotOk s -> snapshotOk s' -> textOf s = textOf s' -> s = s'.
Proof.
  intros H H' E. pose proof (decode_written s H) as D. pose proof (decode_written s' H') as D'.
  unfold textOf in E. rewrite E in D. congruence.
Qed.

(** A snapshot the daemon writes under its own id. *)
Record sane (s : SessionSnapshot) : Prop := {
  sane_ok : snapshotOk s;
  sane_id : idOk (Snap_ID s);
}.

(** Every session file holds a whole snapshot, under its id. *)
Definition sound (p : persist.FilePersist) (d : Disk) : Prop :=
  forall id data, stored p d id = Some data -> exists s, sane s /\ Snap_ID s = id /\ data = textOf s.

(** The session files are those of [m]. *)
Definition mirrors (p : persist.FilePersist) (d : Disk) (m : gmap string SessionSnapshot) : Prop :=
  forall id, stored p d id = textOf <$> m !! id.

(** The snapshots are kept under their ids. *)
Definition keyed (m : gmap string SessionSnapshot) : Prop :=
  forall id s, m !! id = Some s -> sane s /\ Snap_ID s = id.

Lemma mirrors_sound p d m : keyed m -> mirrors p d m -> sound p d.
Proof.
  intros Hk Hm id data. rewrite Hm. destruct (m !! id) as [s|] eqn:E; [|done]. intros [= <-].
  exists s. by destruct (Hk _ _ E).
Qed.

Lemma files_entries d path name : name ∈ entries d path <-> is_Some (files d !! (path, name)).
Proof.
  unfold entries. rewrite merge_sort_Permutation, list_elem_of_In, in_map_iff. split.
  - intros ([a b] & <- & [E Hin]%list_elem_of_In%list_elem_of_filter). cbn [fst snd] in *. subst a.
    apply list_elem_of_In, in_map_iff in Hin as ([k v] & <- & Hkv%list_elem_of_In%elem_of_map_to_list). by eexists.
  - intros [v Hv%elem_of_map_to_list]. exists (path, name). split; [done|].
    apply list_elem_of_In, list_elem_of_filter. split; [done|].
    apply list_elem_of_In, in_map_iff. exists ((path, name), v). split; [done|]. by apply list_elem_of_In.
Qed.

Lemma entries_NoDup d path : NoDup (entries d path).
Proof.
  unfold entries. rewrite merge_sort_Permutation. apply NoDup_fmap_2_strong.
  - intros [a b] [a' b'] [E _]%list_elem_of_filter [E' _]%list_elem_of_filter. cbn in *. by intros ->; subst.
  - apply NoDup_filter, NoDup_fst_map_to_list.
Qed.

(** The snapshots in the files [names]. *)
Definition snapshotsIn (p : persist.FilePersist) (d : Disk) (names : list string) : list SessionSnapshot :=
  omap (fun name =>
    if Strings.HasSuffix name ".json" then
      match files d !! (persist.dir p, name) with
      | Some data => Some (decodeSnapshot data).1
      | None => None
      end
    else None) names.

Section load.
Context (fault : Faults) (Hfault : forall n o, fault n o = None) (p : persist.FilePersist).
Context (Hdir : Clean (persist.dir p) = persist.dir p) (Hne : persist.dir p <> EmptyString).

Lemma json_not_tmp name : Strings.HasSuffix name ".json" = true -> Strings.HasSuffix name ".tmp" = false.
Proof.
  intros [a ->]%HasSuffix_inv. apply not_true_iff_false. intros [b E]%HasSuffix_inv.
  change ".json"%string with (".jso" +:+ "n")%string in E. change ".tmp"%string with (".tm" +:+ "p")%string in E.
  rewrite <- !str_app_assoc in E. by apply last_char in E.
Qed.

Lemma loadEntries_spec names : forall d out, sound p d ->
  Forall (fun n => plain n /\ is_Some (files d !! (persist.dir p, n))) names ->
  exists d', files d' = files d /\ dirs d' = dirs d /\
    persist.loadEntries fault p names out d = (inl (out ++ snapshotsIn p d names), d').
Proof.
  induction names as [|n names IH]; intros d out Hs HF; cbn [persist.loadEntries snapshotsIn omap list_omap].
  { exists d. by rewrite app_nil_r. }
  apply Forall_cons in HF as [[Hn [data Hd]] HF]. fold (snapshotsIn p d names).
  destruct (Strings.HasSuffix n ".json") eqn:Hj; cbn [negb orb]; [|by apply IH].
  rewrite json_not_tmp by done. unfold mbind, IO_bind, ReadFile, perform.
  rewrite Hfault, locate_Join, Hd by done.
  apply HasSuffix_inv in Hj as [id ->]. destruct (Hs id data Hd) as (s & Hsane & _ & ->).
  unfold textOf. rewrite decode_written by apply Hsane. cbn [fst].
  destruct (IH (tick d) (out ++ [s]) Hs HF) as (d' & Hf & Hds & E). exists d'.
  split_and!; [done..|]. etrans; [exact E|]. by rewrite <- app_assoc.
Qed.

(** What can be read is read. *)
Lemma snapshotsIn_elem d s : sound p d ->
  s ∈ snapshotsIn p d (entries d (persist.dir p)) <-> stored p d (Snap_ID s) = Some (textOf s) /\ sane s.
Proof.
  intros Hs. unfold snapshotsIn. rewrite list_elem_of_omap. split.
  - intros (n & Hn & E). destruct (Strings.HasSuffix n ".json") eqn:Hj; [|done].
    apply HasSuffix_inv in Hj as [id ->]. destruct (files d !! _) as [data|] eqn:Hd; [|done].
    destruct (Hs id data Hd) as (s' & Hsane & <- & ->). injection E as <-.
    unfold textOf in *. rewrite decode_written by apply Hsane. by split.
  - intros [Hd Hsane]. exists (fileName (Snap_ID s)). split; [apply files_entries; by eexists|].
    unfold fileName. rewrite HasSuffix_app. unfold stored, fileName in Hd. rewrite Hd.
    unfold textOf. by rewrite decode_written by apply Hsane.
Qed.

Lemma snapshotsIn_NoDup d names : sound p d -> NoDup names ->
  NoDup (map Snap_ID (snapshotsIn p d names)).
Proof.
  intros Hs. induction names as [|n names IH]; [constructor|].
  intros [Hn HN]%NoDup_cons. cbn [snapshotsIn omap list_omap]. fold (snapshotsIn p d names).
  destruct (Strings.HasSuffix n ".json") eqn:Hj; [|by apply IH].
  destruct (files d !! _) as [data|] eqn:Hd; [|by apply IH].
  apply HasSuffix_inv in Hj as [id ->]. destruct (Hs id data Hd) as (s & Hsane & <- & ->).
  unfold textOf. rewrite decode_written by apply Hsane. cbn [fst map]. apply NoDup_cons. split; [|by apply IH].
  intros (s' & E & Hin)%list_elem_of_fmap. apply Hn. unfold snapshotsIn in Hin.
  apply list_elem_of_omap in Hin as (n' & Hn' & E'). destruct (Strings.HasSuffix n' ".json") eqn:Hj'; [|done].
  apply HasSuffix_inv in Hj' as [id' ->]. destruct (files d !! (_, id' +:+ _)) as [data'|] eqn:Hd'; [|done].
  destruct (Hs id' data' Hd') as (s'' & Hsane' & <- & ->). injection E' as <-.
  unfold textOf in E. rewrite decode_written in E by apply Hsane'. by rewrite E.
Qed.

(** Without faults [Load] returns every snapshot in the directory. *)
Lemma Load_sound d : sound p d -> persist.dir p ∈ dirs d -> Forall plain (entries d (persist.dir p)) ->
  exists snaps d', persist.Load fault p d = (inl snaps, d') /\ files d' = files d /\ dirs d' = dirs d /\
    NoDup (map Snap_ID snaps) /\
    forall s, s ∈ snaps <-> stored p d (Snap_ID s) = Some (textOf s) /\ sane s.
Proof.
  intros Hs Hd Hp. unfold persist.Load, mbind, IO_bind, ReadDir, perform. rewrite Hfault, Hdir, decide_True by done.
  destruct (loadEntries_spec (entries d (persist.dir p)) (tick d) [] Hs) as (d' & Hf & Hds & E).
  { apply Forall_forall. intros n Hn. rewrite Forall_forall in Hp. split; [by apply Hp|]. by apply files_entries. }
  exists (snapshotsIn p d (entries d (persist.dir p))), d'. split_and!; [exact E|done|done|..].
  - apply snapshotsIn_NoDup; [done|]. apply entries_NoDup.
  - intros s. by rewrite snapshotsIn_elem.
Qed.

Lemma Load_mirrors d m : keyed m -> mirrors p d m -> persist.dir p ∈ dirs d ->
  Forall plain (entries d (persist.dir p)) ->
  exists snaps d', persist.Load fault p d = (inl snaps, d') /\ files d' = files d /\ dirs d' = dirs d /\
    NoDup (map Snap_ID snaps) /\ forall s, s ∈ snaps <-> m !! Snap_ID s = Some s.
Proof.
  intros Hk Hm Hd Hp. destruct (Load_sound d (mirrors_sound _ _ _ Hk Hm) Hd Hp) as (snaps & d' & E & H1 & H2 & H3 & H4).
  exists snaps, d'. split_and!; try done. intros s. rewrite H4, Hm. split.
  - intros [E1 Hsane]. destruct (m !! Snap_ID s) as [s'|] eqn:Em; [|done].
    destruct (Hk _ _ Em) as [Hsane' _]. f_equal. cbn [fmap option_fmap option_map] in E1.
    apply textOf_inj; [apply Hsane'|apply Hsane|congruence].
  - intros Em. rewrite Em. split; [done|]. by destruct (Hk _ _ Em).
Qed.
End load.
