(* ===== verification/Runtime.v ===== *)
(** * client/runtime: the event loop and the effect interpreter

    [Runtime] holds what the loop owns: the reducer's state, the session files,
    and the per-frame handles (cleanup closures, container tokens, subsystem
    bindings).  Everything else (the pty backend, the launcher, subsystems, logs,
    file watches, connections) is called through [Call]; a goroutine that is
    started is the call [CallGo].  Spawning a frame runs in such a goroutine:
    [spawnFrameWindow], whose result comes back as an internal event. *)

From S2P Require Import Prelude GoStd GoText GoTime GoIO GoPath GoDisk Pathmap ClientView ClientState ClientReduce FrameReg RuntimePersist.
From stdpp Require Import pretty.
Open Scope Z_scope.

Import filepath os.

Class RuntimeTypes := {
  Closure : Type;      (** [func() error] *)
  Subsystem : Type;    (** a subsystem instance *)
  Sub_Kind : Subsystem -> LaunchSubsystem;
}.

(** [subsystem.BindResult]; its [ExtraEnv] is read nowhere. *)
Record BindResult := mkBindResult {
  Bind_Plan : LaunchPlan;
  Bind_WorktreeStartDir : string;
  Bind_WorktreeName : string;
}.

Section types.
Context {T : ClientTypes} {RT : RuntimeTypes}.

(** [runtime.WrappedLaunch]. *)
Record WrappedLaunch := mkWrappedLaunch {
  Wrapped_Command : string;
  Wrapped_StartDir : string;
  Wrapped_Env : gmap string string;
  Wrapped_Cleanup : option Closure;
  Wrapped_ContainerSockDir : string;
  Wrapped_Mounts : list pathmap.Mount;
}.

(** [state.EffSpawnFrame] as a struct. *)
Record SpawnRequest := mkSpawnRequest {
  Spawn_SessionID : SessionID;
  Spawn_FrameID : FrameID;
  Spawn_Mode : LaunchMode;
  Spawn_Project : string;
  Spawn_Command : string;
  Spawn_StartDir : string;
  Spawn_Sandbox : SandboxOverride;
  Spawn_Options : LaunchOptions;
  Spawn_Subsystem : LaunchSubsystem;
  Spawn_Stream : StreamLaunchOptions;
  Spawn_Stdin : string;
  Spawn_Env : gmap string string;
  Spawn_ReplyConn : ConnID;
  Spawn_ReplyReqID : string;
}.

(** [internalSpawnComplete]. *)
Record SpawnComplete := mkSpawnComplete {
  Done_effect : SpawnRequest;
  Done_subsystemID : SubsystemID;
  Done_sub : Subsystem;
  Done_cleanup : option Closure;
  Done_token : string;
  Done_mounts : list pathmap.Mount;
  Done_containerSockDir : string;
  Done_bindResult : BindResult;
}.

(** ** Messages (proto) *)

Record FrameInfo := mkFrameInfo {
  FI_ID : string;
  FI_Command : string;
  FI_SubsystemID : string;
  FI_TargetID : string;
}.

Record SessionInfo := mkSessionInfo {
  SInfo_ID : string;
  SInfo_Project : string;
  SInfo_Workspace : string;
  SInfo_Command : string;
  SInfo_RootDriver : string;
  SInfo_RootDriverForkable : bool;
  SInfo_CreatedAt : string;
  SInfo_State : Status;
  SInfo_StateChangedAt : string;
  SInfo_View : View;
  SInfo_Frames : list FrameInfo;
  SInfo_HeadFrameID : string;
}.

Record DriverInfo := mkDriverInfo {
  DInfo_Name : string;
  DInfo_DisplayName : string;
}.

Inductive Response :=
| RespOK
| RespCreateSession (sid : string)
| RespSessions (sessions : list SessionInfo) (features : list string)
| RespSurfaceText (text : string)
| RespDriverList (drivers : list DriverInfo).

(** The surface output before it is encoded in base64; its sequence number is 0
    when the reducer broadcasts it. *)
Inductive ServerEvent :=
| EvtSessionsChanged (sessions : list SessionInfo) (features : list string)
| EvtProjectSelected (project : string)
| EvtAgentNotification (sid : string) (cmd : Z) (title body : string)
| EvtSurfaceOutput (sid : string) (timeSec : Float64) (data : string) (sequence : Z)
| EvtPromptEvent (fid phase : string) (exitCode : Z) (now : Time)
| EvtLogLine (path line : string)
| EvtSessionFileLine (sid kind line : string).

(** What is written to a connection, before it is encoded. *)
Inductive Wire :=
| WireResponse (req : string) (resp : Response)
| WireError (req code message : string) (details : gmap string AnyValue)
| WireEvent (ev : ServerEvent).

Inductive Call :=
| CallSpawnFrame (frameID name command startDir : string) (env : gmap string string)
| CallKillFrame (target : string)
| CallFrameExitStatus (target : string)
| CallCaptureFrame (target : string) (lines : Z)
| CallSendKeys (target text : string)
| CallSendKey (target key : string)
| CallSetEnv (key value : string)
| CallUnsetEnv (key : string)
| CallIsContainer (project : string)
| CallGenerateToken
| CallWrapLaunch (fid : FrameID) (plan : LaunchPlan) (env : gmap string string)
| CallAdoptFrame (fid : FrameID) (project : string)
| CallEnsureProject (project : string)
| CallRunDirKey (project : string)
| CallEnsure (kind : LaunchSubsystem) (sid : SessionID) (project : string) (plan : LaunchPlan)
| CallBindFrame (sub : Subsystem) (fid : FrameID) (plan : LaunchPlan) (stdin project : string)
| CallReleaseFrame (sub : Subsystem) (fid : FrameID)
| CallStop (sub : Subsystem)
| CallRemove (kind : LaunchSubsystem) (id : SubsystemID)
| CallCleanup (c : Closure)
| CallWriteTemp (data : string)
| CallEventLogAppend (fid : FrameID) (line : string)
| CallEventLogClose (fid : FrameID)
| CallToolLogAppend (namespace project line : string)
| CallWatch (fid : FrameID) (path : string)
| CallUnwatch (fid : FrameID)
| CallRelayWatch (fid : FrameID) (path kind : string)
| CallRelayUnwatch (fid : FrameID)
| CallTapStart (fid : FrameID)
| CallTapStop (fid : FrameID)
| CallTerminalEvict (target : string)
| CallSurfaceSubscribe (conn : ConnID) (sid : SessionID) (target : string)
| CallSurfaceUnsubscribe (conn : ConnID) (sid : SessionID)
| CallSurfaceResize (target : string) (cols rows : Z)
| CallSurfaceWrite (target data : string)
| CallQueueWire (conn : ConnID) (w : Wire)
| CallWriteWire (conn : ConnID) (w : Wire)
| CallShut (conn : ConnID)
| CallStartEndpoint (project sock : string)
| CallSubmitJob (job : JobID) (input : JobInput)
| CallGo (e : SpawnRequest)
| CallEnqueue (ev : Event)
| CallAckShutdown
| CallResolveWorkspace (project : string)
| CallNow.

(** [RPanic] is the value of a panic, in a call made by a spawn goroutine. *)
Inductive Reply :=
| ROk
| RErr (missing : bool) (text : string)
| RPanic (text : string)
| RBool (b : bool)
| RText (s : string)
| RTime (t : Time)
| RExit (dead : bool) (code : Z)
| REnsured (sub : Subsystem) (id : SubsystemID)
| RBound (b : BindResult)
| RWrapped (w : WrappedLaunch)
| RAdopted (cleanup : option Closure) (mounts : list pathmap.Mount).

Abbreviation M := (Eff Call Reply).

(** ** The runtime *)

(** [Config], as far as it matters: the data directory, the session files, the
    directory of the warm store, and which optional parts are there. *)
Record Config := mkConfig {
  Cfg_DataDir : string;
  Cfg_Persist : persist.FilePersist;
  Cfg_Warm : option string;
  Cfg_Tap : bool;
  Cfg_TerminalEvict : bool;
  Cfg_SurfaceBackend : bool;
}.

Record Runtime := mkRuntime {
  R_state : State;
  R_rng : nat;                                   (** random ids drawn *)
  R_disk : Disk;
  R_conns : gset Z;
  R_nextConn : ConnID;
  R_relay : bool;
  R_tickN : Z;
  R_taps : gset string;
  R_sandboxCleanups : gmap string Closure;
  R_frameReg : framereg.Registry;
  R_containerEndpoints : gset string;
  R_subsystems : gmap string Subsystem;
  R_frameSubsystems : gmap string Subsystem;
  R_frameSubsystemIDs : gmap string string;
}.

#[export] Instance eta_Runtime : Eta Runtime := fun r =>
  mkRuntime (R_state r) (R_rng r) (R_disk r) (R_conns r) (R_nextConn r) (R_relay r) (R_tickN r)
    (R_taps r) (R_sandboxCleanups r) (R_frameReg r) (R_containerEndpoints r) (R_subsystems r)
    (R_frameSubsystems r) (R_frameSubsystemIDs r).

Definition spawnRequest (eff : Effect) : option SpawnRequest :=
  match eff with
  | EffSpawnFrame sid fid mode project command startDir sandbox options subsystem stream stdin env conn req =>
      Some (mkSpawnRequest sid fid mode project command startDir sandbox options subsystem stream stdin
              env conn req)
  | _ => None
  end.
End types.

(** What the daemon is built from: the drivers, the supply of random ids, the
    decoder of payloads, the configuration, the faults of the disk, and

    - [sameSessionMap]: do two maps have the same header?
    - [projectSelected]: the project of a [state.ProjectSelectedPayload];
    - [localFormat]: [Format] with [time.RFC3339] in the zone of the time;
    - [quoted]: [%q] of a subsystem kind. *)
Class Deps {T : ClientTypes} := {
  reg : Registry;
  idAt : nat -> string;
  json : Json;
  cfg : Config;
  fault : Faults;
  sameSessionMap : gmap string Session -> gmap string Session -> bool;
  projectSelected : AnyValue -> option string;
  localFormat : Time -> string;
  quoted : string -> string;
}.

Section loop.
Context {T : ClientTypes} {RT : RuntimeTypes} {MR : MapRange} {D : Deps}.
Abbreviation M := (Eff Call Reply).

Definition errOf (r : Reply) : option (bool * string) :=
  match r with RErr missing text => Some (missing, text) | _ => None end.
Definition failedReply (r : Reply) : bool := match errOf r with Some _ => true | None => false end.

(** Calls one after the other. *)
Fixpoint callAll (cs : list Call) : M unit :=
  match cs with [] => mret tt | c :: cs => _ ← call c; callAll cs end.
Fixpoint foldM {A B} (f : A -> B -> M B) (l : list A) (b : B) : M B :=
  match l with [] => mret b | a :: l => b ← f a b; foldM f l b end.

(** ** Frames (resident.go, runtime.go) *)

Definition sessionHeadFrame (sess : Session) : option SessionFrame :=
  match Session_Frames sess with
  | [] =>
    if bool_decide (Session_Command sess = ""%string) || negb (is_some (Session_Driver sess)) then None
    else Some (mkSessionFrame (Session_ID sess) "" "" (Session_Project sess) (Session_Command sess)
                 (Session_LaunchOptions sess) (Session_CreatedAt sess) (Session_Driver sess))
  | frames =>
    match (if decide (Session_HeadFrameID sess = ""%string) then None
           else List.find (fun f => String.eqb (Frame_ID f) (Session_HeadFrameID sess)) frames) with
    | Some f => Some f
    | None => last frames
    end
  end.

(** The empty string when the session has no head frame. *)
Definition sessionHeadFrameTarget (s : State) (sid : SessionID) : string :=
  match Sessions s !! sid with
  | None => ""
  | Some sess => match sessionHeadFrame sess with Some f => Frame_ID f | None => "" end
  end.

Definition sessionIDForFrame (s : State) (fid : FrameID) : SessionID :=
  match List.find (fun kv => existsb (fun f => String.eqb (Frame_ID f) fid) (Session_Frames kv.2))
          (mapRange (Sessions s)) with
  | Some (sid, _) => sid
  | None => ""
  end.

(** ** Snapshots (interpret.go) *)

Definition snapshotFrame (frame : SessionFrame) : SessionFrameSnapshot :=
  let '(bag, name) := match GetDriver reg (Frame_Command frame) with
                      | Some drv => (Driver_Persist drv (Frame_Driver frame), Driver_Name drv)
                      | None => (None, ""%string)
                      end in
  mkSessionFrameSnapshot (Frame_ID frame) (Frame_SubsystemID frame) (Frame_TargetID frame)
    (Frame_Project frame) (Frame_Command frame)
    (Frame_LaunchOptions frame <| Opt_InitialInput := EmptyString |>)
    (rfc3339.Format (Frame_CreatedAt frame)) name bag.

Definition snapshotSession (sess : Session) : SessionSnapshot :=
  mkSessionSnapshot (Session_ID sess) (Session_Project sess) (rfc3339.Format (Session_CreatedAt sess))
    (map snapshotFrame (Session_Frames sess)) (Session_HeadFrameID sess) (Session_MRUFrameIDs sess)
    (Session_Sandbox sess).

Definition snapshotSessions (s : State) : list SessionSnapshot :=
  map (fun kv => snapshotSession kv.2) (mapRange (Sessions s)).

(** Errors of the store are logged and dropped. *)
Definition saveSessions (r : Runtime) : Runtime :=
  r <| R_disk := (persist.Save fault (Cfg_Persist cfg) (snapshotSessions (R_state r)) (R_disk r)).2 |>.
Definition deleteSession (id : SessionID) (r : Runtime) : Runtime :=
  r <| R_disk := (persist.Delete fault (Cfg_Persist cfg) id (R_disk r)).2 |>.

(** ** Handles of frames (cleanup.go) *)

Definition storeFrameCleanup (r : Runtime) (fid : FrameID) (fn : option Closure) : Runtime :=
  match fn with
  | None => r
  | Some c => r <| R_sandboxCleanups := <[fid := c]> (R_sandboxCleanups r) |>
  end.

Definition startContainerEndpointIfNeeded (project sock : string) (r : Runtime) : M Runtime :=
  if decide (project ∈ R_containerEndpoints r) then mret r
  else
    rep ← call (CallStartEndpoint project sock);
    if failedReply rep then mret r
    else mret (r <| R_containerEndpoints := {[project]} ∪ R_containerEndpoints r |>).

Definition ContainerSockPath (runDir : string) : string := Join [runDir; "server.sock"].

Definition registerContainerFrame (fid : FrameID) (project sockDir token : string)
    (mounts : list pathmap.Mount) (r : Runtime) : M Runtime :=
  let r := r <| R_frameReg := framereg.RegisterWithMounts (R_frameReg r) fid token mounts |> in
  r ← startContainerEndpointIfNeeded project (ContainerSockPath sockDir) r;
  mret match Cfg_Warm cfg with
       | None => r
       | Some dir =>
         r <| R_disk := (warm.Save fault dir (warm.mkWarmFrameState fid token) (R_disk r)).2 |>
       end.

(** The cleanup runs in a goroutine. *)
Definition invokeFrameCleanup (fid : FrameID) (r : Runtime) : M Runtime :=
  let fn := R_sandboxCleanups r !! fid in
  let r := r <| R_frameReg := framereg.Delete (R_frameReg r) fid |>
             <| R_sandboxCleanups := delete fid (R_sandboxCleanups r) |> in
  match fn with
  | None => mret r
  | Some c => _ ← call (CallCleanup c); mret r
  end.

Definition drainFrameCleanups (r : Runtime) : M Runtime :=
  let fns := R_sandboxCleanups r in
  let r := r <| R_sandboxCleanups := ∅ |> in
  _ ← callAll (map (fun kv => CallCleanup kv.2) (mapRange fns));
  mret r.

(** ** Killing a frame (interpret.go, interpret_spawn.go) *)

(** Factories that implement [Reaper]. *)
Definition isReaper (kind : LaunchSubsystem) : bool := String.eqb kind LaunchSubsystemStream.

Definition reapSubsystemIfLast (sub : Subsystem) (fid : FrameID) (r : Runtime) : M Runtime :=
  match R_frameSubsystemIDs r !! fid with
  | None => mret r
  | Some subsystemID =>
    let ids := delete fid (R_frameSubsystemIDs r) in
    let r := r <| R_frameSubsystemIDs := ids |> in
    if existsb (fun kv => String.eqb kv.2 subsystemID) (mapRange ids) then mret r
    else if isReaper (Sub_Kind sub) then _ ← call (CallRemove (Sub_Kind sub) subsystemID); mret r
    else mret r
  end.

Definition executeKillSessionWindow (fid : FrameID) (r : Runtime) : M Runtime :=
  _ ← call (CallCaptureFrame fid 20);
  _ ← call (CallKillFrame fid);
  let r := match Cfg_Warm cfg with
           | None => r
           | Some dir => r <| R_disk := (warm.Delete fault dir fid (R_disk r)).2 |>
           end in
  match R_frameSubsystems r !! fid with
  | None => mret r
  | Some sub =>
    let r := r <| R_frameSubsystems := delete fid (R_frameSubsystems r) |> in
    _ ← call (CallReleaseFrame sub fid);
    reapSubsystemIfLast sub fid r
  end.

(** ** Taps (tap_manager.go) *)

Definition tapStop (fid : FrameID) (r : Runtime) : M Runtime :=
  if decide (fid ∈ R_taps r) then
    _ ← call (CallTapStop fid); mret (r <| R_taps := R_taps r ∖ {[fid]} |>)
  else mret r.

Definition tapStart (fid : FrameID) (r : Runtime) : M Runtime :=
  if negb (Cfg_Tap cfg) then mret r
  else
    r ← tapStop fid r;
    rep ← call (CallTapStart fid);
    if failedReply rep then mret r else mret (r <| R_taps := {[fid]} ∪ R_taps r |>).

(** ** Connections (proto_bridge.go) *)

Definition queueWire (conn : ConnID) (w : Wire) (r : Runtime) : M Runtime :=
  if decide (conn ∈ R_conns r) then _ ← call (CallQueueWire conn w); mret r else mret r.

(** [proto.FromStateCode]. *)
Definition FromStateCode (code : string) : string :=
  if existsb (String.eqb code) ["not_found"; "invalid_argument"; "internal"; "session_stopped";
                                "already_exists"; "unsupported"]%string then code
  else if String.eqb code "frame_not_ready" then "frame-not-ready" else "unknown".

Definition subscriptionMatches (sub : Subscriber) (eventName : string) : bool :=
  match Subscriber_Filters sub with
  | [] => true
  | filters => existsb (fun f => String.eqb f eventName) filters
  end.

(** To every subscriber that wants the event and is still connected. *)
Definition broadcastWire (w : Wire) (eventName : string) (r : Runtime) : M Runtime :=
  foldM (fun kv r => if subscriptionMatches kv.2 eventName then queueWire kv.1 w r else mret r)
    (mapRange (Subscribers (R_state r))) r.

(** To every connection subscribed to the surface of a session. *)
Definition broadcastSurface (sid : SessionID) (w : Wire) (r : Runtime) : M Runtime :=
  foldM (fun kv r => if decide (sid ∈ (kv.2 : gset string)) then queueWire kv.1 w r else mret r)
    (mapRange (SurfaceSubs (R_state r))) r.

Definition closeConn (conn : ConnID) (r : Runtime) : M Runtime :=
  if decide (conn ∈ R_conns r) then
    _ ← call (CallShut conn); mret (r <| R_conns := R_conns r ∖ {[conn]} |>)
  else mret r.

Definition sessionRootFrame (sess : Session) : option SessionFrame :=
  match Session_Frames sess with [] => sessionHeadFrame sess | f :: _ => Some f end.

(** The log tabs of every session are watched by the relay. *)
Definition relayWatches (s : State) : list Call :=
  mapRange (Sessions s) ≫= fun kv =>
    match sessionRootFrame kv.2 with
    | None => []
    | Some frame =>
      match GetDriver reg (Frame_Command frame) with
      | None => []
      | Some drv =>
        map (fun lt => CallRelayWatch (Frame_ID frame) (Tab_Path lt) (Tab_Kind lt))
          (List.filter (fun lt => negb (String.eqb (Tab_Path lt) ""))
             (View_LogTabs (Driver_View drv (Frame_Driver frame))))
      end
    end.
Definition syncRelayWatches (r : Runtime) : M unit :=
  if R_relay r then callAll (relayWatches (R_state r)) else mret tt.

(** ** Responses (proto_bridge.go) *)

Definition frameInfo (sf : SessionFrame) : FrameInfo :=
  mkFrameInfo (Frame_ID sf) (Frame_Command sf) (Frame_SubsystemID sf) (Frame_TargetID sf).

Definition zeroView : View :=
  let tag := mkTag "" "" "" in mkView (mkCard "" [] tag tag "") "" [] [] false "" 0 0.

(** The card also names the driver of the head frame, and is tagged when the
    session runs on the host. *)
Definition sessionView (sess : Session) (frame : SessionFrame) : View :=
  let view := match GetDriver reg (Frame_Command frame) with
              | Some drv => Driver_View drv (Frame_Driver frame)
              | None => zeroView
              end in
  let card := View_Card view in
  let secondary :=
    if (1 <? length (Session_Frames sess))%nat then
      match sessionHeadFrame sess with
      | Some activeF =>
        match GetDriver reg (Frame_Command activeF) with
        | Some activeDrv => Card_BorderTitle (View_Card (Driver_View activeDrv (Frame_Driver activeF)))
        | None => Card_BorderTitleSecondary card
        end
      | None => Card_BorderTitleSecondary card
      end
    else Card_BorderTitleSecondary card in
  let tags := if decide (Session_Sandbox sess = SandboxOverrideHost) then Card_Tags card ++ [HostTag]
              else Card_Tags card in
  mkView (mkCard (Card_Title card) tags (Card_BorderTitle card) secondary (Card_BorderBadge card))
    (View_DisplayName view) (View_LogTabs view) (View_InfoExtras view) (View_SuppressInfo view)
    (View_StatusLine view) (View_Status view) (View_StatusChangedAt view).

Definition buildOneSessionInfo (sess : Session) : M (option SessionInfo) :=
  match sessionRootFrame sess with
  | None => mret None
  | Some frame =>
    let drv := GetDriver reg (Frame_Command frame) in
    let view := sessionView sess frame in
    rep ← call (CallResolveWorkspace (Session_Project sess));
    mret (Some (mkSessionInfo (Session_ID sess) (Session_Project sess)
      match rep with RText ws => ws | _ => "" end
      (Frame_Command frame)
      match drv with Some d => Driver_Name d | None => "" end
      match drv with Some d => is_some (Driver_Forkable d) | None => false end
      (localFormat (Session_CreatedAt sess)) (View_Status view)
      (if time.IsZero (View_StatusChangedAt view) then "" else localFormat (View_StatusChangedAt view))
      view (map frameInfo (Session_Frames sess))
      match sessionHeadFrame sess with Some f => Frame_ID f | None => "" end))
  end.

Fixpoint mapM {A B} (f : A -> M B) (l : list A) : M (list B) :=
  match l with [] => mret [] | a :: l => b ← f a; bs ← mapM f l; mret (b :: bs) end.

(** Oldest first; sessions of the same age in any order. *)
Definition buildSessionInfos (s : State) : M (list SessionInfo) :=
  infos ← mapM buildOneSessionInfo
    (sort.SliceStable (fun a b => time.Before (Session_CreatedAt a) (Session_CreatedAt b))
       (map snd (mapRange (Sessions s))));
  mret (omap id infos).

Definition buildFeatureList (s : State) : list string :=
  map fst (List.filter snd (mapRange (Features s))).

Definition buildSurfaceText (s : State) (sid : SessionID) (lines : Z) : M Response :=
  let target := sessionHeadFrameTarget s sid in
  if decide (target = EmptyString) then mret (RespSurfaceText "")
  else
    rep ← call (CallCaptureFrame target lines);
    mret (RespSurfaceText match rep with RText text => text | _ => "" end).

Definition buildDriverList : Response :=
  RespDriverList (sort.SliceStable (fun a b => String.ltb (DInfo_Name a) (DInfo_Name b))
    (map (fun kv => mkDriverInfo (Driver_Name kv.2) (Driver_DisplayName kv.2))
       (mapRange (driverRegistry reg)))).

Definition translateResponseBody (s : State) (body : Body) : M Response :=
  match body with
  | BodyNil => mret RespOK
  | BodyCreateSessionReply sid => mret (RespCreateSession sid)
  | BodySessionsReply => infos ← buildSessionInfos s; mret (RespSessions infos (buildFeatureList s))
  | BodySurfaceReadTextReply sid lines => buildSurfaceText s sid lines
  | BodyDriverListReply => mret buildDriverList
  | BodyAny _ => mret RespOK
  end.

Definition sendResponse (conn : ConnID) (req : string) (body : Body) (r : Runtime) : M Runtime :=
  if decide (conn ∈ R_conns r) then
    resp ← translateResponseBody (R_state r) body;
    queueWire conn (WireResponse req resp) r
  else mret r.

(** Written before it returns, past the queue. *)
Definition sendResponseSync (conn : ConnID) (req : string) (body : Body) (r : Runtime) : M Runtime :=
  if decide (conn ∈ R_conns r) then
    resp ← translateResponseBody (R_state r) body;
    _ ← call (CallWriteWire conn (WireResponse req resp)); mret r
  else mret r.

Definition broadcastSessionsChanged (r : Runtime) : M Runtime :=
  _ ← syncRelayWatches r;
  infos ← buildSessionInfos (R_state r);
  broadcastWire (WireEvent (EvtSessionsChanged infos (buildFeatureList (R_state r)))) "sessions-changed" r.

Definition broadcastGenericEvent (name : string) (payload : AnyValue) (r : Runtime) : M Runtime :=
  if String.eqb name "project-selected" then
    match projectSelected payload with
    | Some project => broadcastWire (WireEvent (EvtProjectSelected project)) name r
    | None => mret r
    end
  else mret r.

(** ** Effects (interpret.go) *)

Definition executeIPCEffect (eff : Effect) (r : Runtime) : M Runtime :=
  match eff with
  | EffSendResponse conn req body => sendResponse conn req body r
  | EffSendResponseSync conn req body => sendResponseSync conn req body r
  | EffSendError conn req code message details =>
    queueWire conn (WireError req (FromStateCode code) message details) r
  | EffBroadcastSessionsChanged => broadcastSessionsChanged r
  | EffBroadcastEvent name payload _ => broadcastGenericEvent name payload r
  | EffCloseConn conn => closeConn conn r
  | _ => mret r
  end.

Definition sendError (conn : ConnID) (req code message : string) : Effect :=
  EffSendError conn req code message ∅.

Definition executeSendFrameKeys (conn : ConnID) (req : string) (sid : SessionID) (text key : string)
    (withEnter : bool) (r : Runtime) : M Runtime :=
  let target := sessionHeadFrameTarget (R_state r) sid in
  if decide (target = EmptyString) then
    executeIPCEffect (sendError conn req "not_found" ("no frame registered for session: " +:+ sid)) r
  else
    rep ← call (if withEnter then CallSendKeys target text else CallSendKey target key);
    match errOf rep with
    | Some (_, err) => executeIPCEffect (sendError conn req "internal" err) r
    | None => executeIPCEffect (EffSendResponse conn req BodyNil) r
    end.

Definition broadcastPromptEvent (fid : FrameID) (phase : string) (exitCode : Z) (r : Runtime) : M Runtime :=
  let sid := sessionIDForFrame (R_state r) fid in
  if decide (sid = EmptyString) then mret r
  else
    rep ← call CallNow;
    let now := match rep with RTime t => t | _ => 0 end in
    broadcastSurface sid (WireEvent (EvtPromptEvent fid phase exitCode now)) r.

Definition executeSurfaceEffect (eff : Effect) (r : Runtime) : M Runtime :=
  let onFrame (sid : SessionID) (c : string -> Call) : M Runtime :=
    let target := sessionHeadFrameTarget (R_state r) sid in
    if negb (Cfg_SurfaceBackend cfg) || bool_decide (target = EmptyString) then mret r
    else _ ← call (c target); mret r in
  match eff with
  | EffSurfaceSubscribeStart conn sid => onFrame sid (CallSurfaceSubscribe conn sid)
  | EffSurfaceSubscribeStop conn sid =>
    if Cfg_SurfaceBackend cfg then _ ← call (CallSurfaceUnsubscribe conn sid); mret r else mret r
  | EffSurfaceResize sid cols rows => onFrame sid (fun target => CallSurfaceResize target cols rows)
  | EffSurfaceWriteRaw sid data => onFrame sid (fun target => CallSurfaceWrite target data)
  | EffBroadcastSurfaceOutput sid data timeSec =>
    broadcastSurface sid (WireEvent (EvtSurfaceOutput sid timeSec data 0)) r
  | EffBroadcastPromptEvent fid phase exitCode => broadcastPromptEvent fid phase exitCode r
  | _ => mret r
  end.

(** A dead frame is reported as exited, a missing one as vanished; any other
    error is ignored until the next tick. *)
Definition reconcileFrame (fid : FrameID) : M unit :=
  rep ← call (CallFrameExitStatus fid);
  match rep with
  | RErr true _ => _ ← call (CallEnqueue (EvFrameVanished fid)); mret tt
  | RExit true code =>
    _ ← call (CallCaptureFrame fid 20);
    _ ← call (CallEnqueue (EvFrameCommandExited fid code)); mret tt
  | _ => mret tt
  end.
Definition reconcileWindows (r : Runtime) : M unit :=
  foldM (fun fid _ => reconcileFrame fid)
    (mapRange (Sessions (R_state r)) ≫= fun kv => map Frame_ID (Session_Frames kv.2)) tt.

Definition executeUnregisterFrame (fid : FrameID) (r : Runtime) : M Runtime :=
  r ← tapStop fid r;
  _ ← call (CallEventLogClose fid);
  _ ← callAll (if Cfg_TerminalEvict cfg then [CallTerminalEvict fid] else []);
  mret r.

Definition executeFrameEffect (eff : Effect) (r : Runtime) : M Runtime :=
  match eff with
  | EffSpawnFrame _ _ _ _ _ _ _ _ _ _ _ _ _ _ =>
    _ ← callAll (map CallGo (option_list (spawnRequest eff))); mret r
  | EffKillFrame fid => executeKillSessionWindow fid r
  | EffRegisterFrame fid tap => if tap then tapStart fid r else mret r
  | EffUnregisterFrame fid => executeUnregisterFrame fid r
  | EffSetSessionEnv key value => _ ← call (CallSetEnv key value); mret r
  | EffUnsetSessionEnv key => _ ← call (CallUnsetEnv key); mret r
  | EffReconcileWindows => _ ← reconcileWindows r; mret r
  | _ => mret r
  end.

Definition executeFSEffect (eff : Effect) (r : Runtime) : M Runtime :=
  match eff with
  | EffWatchFile fid path kind =>
    _ ← call (CallWatch fid path);
    _ ← callAll (if R_relay r then [CallRelayWatch fid path kind] else []); mret r
  | EffUnwatchFile fid =>
    _ ← call (CallUnwatch fid);
    _ ← callAll (if R_relay r then [CallRelayUnwatch fid] else []); mret r
  | _ => mret r
  end.

Definition oscEventLogLine (source title body : string) : string :=
  if decide (body = EmptyString) then "[" +:+ source +:+ "] " +:+ title
  else if decide (title = EmptyString) then "[" +:+ source +:+ "] " +:+ body
  else "[" +:+ source +:+ "] " +:+ title +:+ " | " +:+ body.

Definition executeRecordNotification (sid : SessionID) (fid : FrameID) (cmd : Z) (title body : string)
    (r : Runtime) : M Runtime :=
  r ← broadcastWire (WireEvent (EvtAgentNotification sid cmd title body)) "agent-notification" r;
  _ ← call (CallEventLogAppend fid (oscEventLogLine ("osc" +:+ strconv.Itoa cmd) title body));
  mret r.

Definition executeMiscEffect (eff : Effect) (r : Runtime) : M Runtime :=
  match eff with
  | EffPersistSnapshot => mret (saveSessions r)
  | EffEventLogAppend fid line => _ ← call (CallEventLogAppend fid line); mret r
  | EffToolLogAppend namespace project line => _ ← call (CallToolLogAppend namespace project line); mret r
  | EffStartJob job input => _ ← call (CallSubmitJob job input); mret r
  | EffRecordNotification sid fid cmd title body => executeRecordNotification sid fid cmd title body r
  | EffReleaseFrameSandboxes =>
    _ ← callAll (map (fun kv => CallStop kv.2) (mapRange (R_subsystems r)));
    r ← drainFrameCleanups r;
    _ ← call CallAckShutdown; mret r
  | EffReleaseFrameSandbox fid => invokeFrameCleanup fid r
  | _ => mret r
  end.

Definition execute (eff : Effect) (r : Runtime) : M Runtime :=
  match eff with
  | EffSpawnFrame _ _ _ _ _ _ _ _ _ _ _ _ _ _ | EffKillFrame _ | EffRegisterFrame _ _
  | EffUnregisterFrame _ | EffSetSessionEnv _ _ | EffUnsetSessionEnv _ | EffReconcileWindows =>
    executeFrameEffect eff r
  | EffSendResponse _ _ _ | EffSendResponseSync _ _ _ | EffSendError _ _ _ _ _
  | EffBroadcastSessionsChanged | EffBroadcastEvent _ _ _ | EffCloseConn _ => executeIPCEffect eff r
  | EffWatchFile _ _ _ | EffUnwatchFile _ => executeFSEffect eff r
  | EffSendFrameKeys conn req sid text key withEnter =>
    executeSendFrameKeys conn req sid text key withEnter r
  | EffSurfaceSubscribeStart _ _ | EffSurfaceSubscribeStop _ _ | EffSurfaceResize _ _ _
  | EffSurfaceWriteRaw _ _ | EffBroadcastSurfaceOutput _ _ _ | EffBroadcastPromptEvent _ _ _ =>
    executeSurfaceEffect eff r
  | _ => executeMiscEffect eff r
  end.

(** ** Dispatch (runtime.go) *)

(** Sessions that are gone are deleted, the others saved; an empty table is
    never saved. *)
Definition reconcilePersist (prev next : gmap string Session) (r : Runtime) : Runtime :=
  if sameSessionMap prev next then r
  else
    let removed := List.filter (fun id => negb (is_some (next !! id))) (map fst (mapRange prev)) in
    let r := foldl (fun r id => deleteSession id r) r removed in
    if decide (next = ∅) then r else saveSessions r.

(** [None]: the reducer panics. *)
Definition dispatch (ev : Event) (r : Runtime) : M (option Runtime) :=
  let prev := Sessions (R_state r) in
  match Reduce reg idAt json (R_rng r) (R_state r) ev with
  | None => mret None
  | Some (next, effects, rng) =>
    r ← foldM execute effects (r <| R_state := next |> <| R_rng := rng |>);
    mret (Some (reconcilePersist prev (Sessions (R_state r)) r))
  end.

Definition finalPersistFlush (r : Runtime) : Runtime :=
  if decide (Sessions (R_state r) = ∅) then r else saveSessions r.

(** ** Spawning a frame (interpret_spawn.go, launcher.go) *)

(** The goroutine's result: the event it enqueues when the spawn fails, or the
    completion it sends to the loop. *)
Abbreviation Spawned := (Event + SpawnComplete)%type.

Definition sendFailed (e : SpawnRequest) (msg : string) : Spawned :=
  inl (EvSpawnFailed (Spawn_SessionID e) (Spawn_FrameID e) msg (Spawn_ReplyConn e) (Spawn_ReplyReqID e)).

(** [recoverSpawnPanic]: a panic of the call is a failed spawn. *)
Definition recovering (e : SpawnRequest) (c : Call) (k : Reply -> M Spawned) : M Spawned :=
  rep ← call c;
  match rep with
  | RPanic text => mret (sendFailed e ("spawn panicked: " +:+ text))
  | _ => k rep
  end.

Definition errorText (rep : Reply) : string :=
  match errOf rep with Some (_, text) => text | None => "" end.

Definition launchPlan (e : SpawnRequest) : LaunchPlan :=
  mkLaunchPlan (Spawn_Command e) (Spawn_StartDir e) (Spawn_Project e) (Spawn_Sandbox e)
    (Spawn_Options e) (Spawn_Subsystem e) (Spawn_Stream e) (Spawn_Stdin e).

Definition squote : ascii := "039"%char.
Definition dquote : string := String.String "034"%char EmptyString.

Definition shellQuote (s : string) : string :=
  "'" +:+ Strings.ReplaceAll s squote "'\''" +:+ "'".

Definition LoginShellCommand : string :=
  dquote +:+ "$(getent passwd " +:+ dquote +:+ "$(id -un)" +:+ dquote +:+ " | cut -d: -f7)" +:+ dquote.

Definition isShellCommand (command : string) : bool := String.eqb command "shell".

(** The input is written to a temporary file, or ignored. *)
Definition stdinCommand (command tmp : string) : string :=
  "bash -c " +:+ shellQuote (command +:+ " < " +:+ tmp +:+ "; _ec=$?; rm -f " +:+ tmp +:+ "; exit $_ec").
Definition buildSpawnCommand (command stdin : string) (e : SpawnRequest) (k : string -> M Spawned)
    : M Spawned :=
  if isShellCommand command then k ("exec " +:+ LoginShellCommand +:+ " -l")
  else if decide (stdin = EmptyString) then k ("exec " +:+ command)
  else recovering e (CallWriteTemp stdin) (fun rep =>
    match rep with
    | RText tmp => k (stdinCommand command tmp)
    | _ => k ("exec " +:+ command)
    end).

(** The part of the project after the last slash. *)
Fixpoint afterSlash (s : string) : string :=
  match s with
  | EmptyString => EmptyString
  | String.String c s' =>
    if Strings.ContainsByte s' "/" then afterSlash s'
    else if decide (c = "/"%char) then s' else s
  end.
Definition windowName (project sessionID : string) : string :=
  let project := afterSlash project in
  (if decide (project = EmptyString) then "session" else project) +:+ ":" +:+ sessionID.

(** An empty kind is the CLI. *)
Definition ensureSubsystemOnce (e : SpawnRequest) (k : Subsystem -> SubsystemID -> M Spawned) : M Spawned :=
  let kind := if decide (Spawn_Subsystem e = EmptyString) then LaunchSubsystemCLI
              else Spawn_Subsystem e in
  if existsb (String.eqb kind) [LaunchSubsystemCLI; LaunchSubsystemStream] then
    recovering e (CallEnsure kind (Spawn_SessionID e) (Spawn_Project e) (launchPlan e)) (fun rep =>
      match rep with
      | REnsured sub id => k sub id
      | _ => mret (sendFailed e (errorText rep))
      end)
  else mret (sendFailed e ("runtime: unknown subsystem kind " +:+ quoted kind)).

(** A frame in a container gets a token in its environment. *)
Definition wrapLaunchForSpawn (e : SpawnRequest) (plan : LaunchPlan)
    (failed : string -> M Spawned) (k : WrappedLaunch -> string -> M Spawned) : M Spawned :=
  recovering e (CallIsContainer (Spawn_Project e)) (fun rep =>
    match rep with
    | RBool true =>
      recovering e CallGenerateToken (fun rep =>
        match rep with
        | RText token =>
          recovering e (CallWrapLaunch (Spawn_FrameID e) plan
                          (<["ROOST_SOCKET_TOKEN"%string := token]> (Spawn_Env e))) (fun rep =>
            match rep with
            | RWrapped w => k w token
            | _ => failed ("launcher wrap: " +:+ errorText rep)
            end)
        | _ => failed ("token generate: " +:+ errorText rep)
        end)
    | _ =>
      recovering e (CallWrapLaunch (Spawn_FrameID e) plan (Spawn_Env e)) (fun rep =>
        match rep with RWrapped w => k w EmptyString | _ => failed (errorText rep) end)
    end).

(** A spawn that failed gives back what it acquired. *)
Definition undoSpawn (e : SpawnRequest) (cleanup : option Closure) (sub : Subsystem) (msg : string)
    : M Spawned :=
  let release := recovering e (CallReleaseFrame sub (Spawn_FrameID e))
                   (fun _ => mret (sendFailed e msg)) in
  match cleanup with
  | Some c => recovering e (CallCleanup c) (fun _ => release)
  | None => release
  end.

(** Starts a frame that is bound and wrapped. *)
Definition startCommand (e : SpawnRequest) (sub : Subsystem) (subsystemID : SubsystemID)
    (bindResult : BindResult) (wrapped : WrappedLaunch) (token spawnCmd : string) : M Spawned :=
  recovering e (CallSpawnFrame (Spawn_FrameID e) (windowName (Spawn_Project e) (Spawn_FrameID e))
                  spawnCmd (Wrapped_StartDir wrapped) (Wrapped_Env wrapped)) (fun rep =>
    match errOf rep with
    | Some (_, err) => undoSpawn e (Wrapped_Cleanup wrapped) sub err
    | None =>
      mret (inr (mkSpawnComplete e subsystemID sub (Wrapped_Cleanup wrapped) token
                   (Wrapped_Mounts wrapped) (Wrapped_ContainerSockDir wrapped) bindResult))
    end).
Definition startFrame (e : SpawnRequest) (sub : Subsystem) (subsystemID : SubsystemID)
    (bindResult : BindResult) (wrapped : WrappedLaunch) (token : string) : M Spawned :=
  buildSpawnCommand (Wrapped_Command wrapped) (Spawn_Stdin e) e
    (startCommand e sub subsystemID bindResult wrapped token).

Definition spawnFrameWindow (e : SpawnRequest) : M Spawned :=
  ensureSubsystemOnce e (fun sub subsystemID =>
  recovering e (CallBindFrame sub (Spawn_FrameID e) (launchPlan e) (Spawn_Stdin e) (Spawn_Project e))
    (fun rep =>
    match rep with
    | RBound bindResult =>
      wrapLaunchForSpawn e (Bind_Plan bindResult) (undoSpawn e None sub)
        (startFrame e sub subsystemID bindResult)
    | _ => mret (sendFailed e (errorText rep))
    end)).

(** ** Completions (interpret_spawn.go) *)

Definition spawnTargetAlive (s : State) (sid : SessionID) (fid : FrameID) : bool :=
  match Sessions s !! sid with
  | None => false
  | Some sess => existsb (fun f => String.eqb (Frame_ID f) fid) (Session_Frames sess)
  end.

(** The release and the cleanup run in a goroutine. *)
Definition discardSpawnResult (c : SpawnComplete) (r : Runtime) : M (option Runtime) :=
  let e := Done_effect c in
  _ ← call (CallKillFrame (Spawn_FrameID e));
  _ ← callAll (CallReleaseFrame (Done_sub c) (Spawn_FrameID e)
               :: map CallCleanup (option_list (Done_cleanup c)));
  dispatch (EvSpawnFailed (Spawn_SessionID e) (Spawn_FrameID e) "frame killed before spawn completed"
              (Spawn_ReplyConn e) (Spawn_ReplyReqID e)) r.

Definition handleSpawnComplete (c : SpawnComplete) (r : Runtime) : M (option Runtime) :=
  let e := Done_effect c in
  let fid := Spawn_FrameID e in
  if negb (spawnTargetAlive (R_state r) (Spawn_SessionID e) fid) then discardSpawnResult c r
  else
    let r := r <| R_subsystems := <[Done_subsystemID c := Done_sub c]> (R_subsystems r) |>
               <| R_frameSubsystems := <[fid := Done_sub c]> (R_frameSubsystems r) |>
               <| R_frameSubsystemIDs := <[fid := Done_subsystemID c]> (R_frameSubsystemIDs r) |> in
    let r := storeFrameCleanup r fid (Done_cleanup c) in
    r ← (if decide (Done_token c = EmptyString) then mret r
         else registerContainerFrame fid (Spawn_Project e) (Done_containerSockDir c) (Done_token c)
                (Done_mounts c) r);
    dispatch (EvFrameSpawned (Spawn_SessionID e) fid (Done_subsystemID c)
                (Bind_WorktreeStartDir (Done_bindResult c)) (Bind_WorktreeName (Done_bindResult c))
                (Spawn_ReplyConn e) (Spawn_ReplyReqID e)) r.

(** ** Internal events (ipc.go) *)

Inductive InternalEvent :=
| ConnOpen
| ConnClose (id : ConnID)
| InternalSetRelay
| InternalBroadcastWire (ev : ServerEvent) (eventName : string)
| InternalStartRestoredTaps
| InternalSpawnComplete (c : SpawnComplete)
| InternalBroadcastSurface (conn : ConnID) (sid : SessionID) (timeSec : Float64) (data : string) (seq : Z)
| InternalSurfaceClosed (conn : ConnID) (sid : SessionID).

Definition handleConnOpen (r : Runtime) : M (option Runtime) :=
  let id := wrapu64 (R_nextConn r + 1) in
  dispatch (EvConnOpened id) (r <| R_nextConn := id |> <| R_conns := {[id]} ∪ R_conns r |>).

Definition handleConnClose (id : ConnID) (r : Runtime) : M (option Runtime) :=
  r ← closeConn id r; dispatch (EvConnClosed id) r.

(** Only the root frame of a session has a tap. *)
Definition startRestoredTaps (r : Runtime) : M Runtime :=
  foldM (fun kv r => match Session_Frames kv.2 with
                     | [] => mret r
                     | f :: _ => tapStart (Frame_ID f) r
                     end) (mapRange (Sessions (R_state r))) r.

Definition dispatchInternal (ev : InternalEvent) (r : Runtime) : M (option Runtime) :=
  match ev with
  | ConnOpen => handleConnOpen r
  | ConnClose id => handleConnClose id r
  | InternalBroadcastWire e name => r ← broadcastWire (WireEvent e) name r; mret (Some r)
  | InternalSetRelay =>
    let r := r <| R_relay := true |> in _ ← syncRelayWatches r; mret (Some r)
  | InternalStartRestoredTaps => r ← startRestoredTaps r; mret (Some r)
  | InternalSpawnComplete c => handleSpawnComplete c r
  | InternalBroadcastSurface conn sid timeSec data seq =>
    r ← queueWire conn (WireEvent (EvtSurfaceOutput sid timeSec data seq)) r; mret (Some r)
  | InternalSurfaceClosed conn sid =>
    _ ← (if Cfg_SurfaceBackend cfg then callAll [CallSurfaceUnsubscribe conn sid] else mret tt);
    dispatch (EvCmdSurfaceUnsubscribe conn EmptyString sid) r
  end.

(** ** The loop (runtime.go)

    What one iteration of [Run] takes from its channels: an event of the queue,
    an internal event, a tick, a result of a worker, a changed file. *)
Inductive Input :=
| InEvent (ev : Event)
| InInternal (ev : InternalEvent)
| InTick (now : Time)
| InResult (job : JobID) (result : JobResult) (err : option error)
| InFile (fid : FrameID) (path : string).

Definition iterate (i : Input) (r : Runtime) : M (option Runtime) :=
  match i with
  | InEvent ev => dispatch ev r
  | InInternal ev => dispatchInternal ev r
  | InTick now =>
    let n := wrapu64 (R_tickN r + 1) in dispatch (EvTick now n) (r <| R_tickN := n |>)
  | InResult job result err => dispatch (EvJobResult job result err) r
  | InFile fid path => dispatch (EvFileChanged fid path) r
  end.

(** What [Run] does when it returns, as far as it matters to the sessions. *)
Definition leaveRun (r : Runtime) : M Runtime :=
  r ← foldM (fun fid r => tapStop fid r) (elements (R_taps r)) r;
  let r := finalPersistFlush r in
  _ ← callAll (map CallShut (elements (R_conns r)));
  mret (r <| R_conns := ∅ |>).
End loop.
