(* ===== verification/RuntimeInv.v ===== *)
(** * client/runtime: what the loop does to the handles of frames

    The loop runs a cleanup only for [EffReleaseFrameSandbox] and
    [EffReleaseFrameSandboxes], which take it out of the table; no other effect
    touches the cleanups or the tokens. *)

From S2P Require Import Prelude GoStd GoText GoTime GoIO GoPath GoDisk Pathmap ClientView ClientState ClientReduce ClientInv ClientGraph ClientSteps ClientRollback FrameReg RuntimePersist Runtime.
Open Scope Z_scope.

Import os.

Section inv.
Context {T : ClientTypes} {RT : RuntimeTypes} {MR : MapRange} {D : Deps}.
Abbreviation M := (Eff Call Reply).

(** ** Accounts *)

Definition released (cs : list Call) : list Closure :=
  omap (fun c => match c with CallCleanup x => Some x | _ => None end) cs.

Definition started (cs : list Call) : list SpawnRequest :=
  omap (fun c => match c with CallGo e => Some e | _ => None end) cs.

(** The cleanup that comes with the reply to a call. *)
Definition acquiredBy (c : Call) (rep : Reply) : list Closure :=
  match c, rep with
  | CallWrapLaunch _ _ _, RWrapped w => option_list (Wrapped_Cleanup w)
  | CallAdoptFrame _ _, RAdopted cleanup _ => option_list cleanup
  | _, _ => []
  end.

Fixpoint acquired_go (w : World Call Reply) (pre rest : list Call) : list Closure :=
  match rest with
  | [] => []
  | c :: rest => acquiredBy c (w pre c) ++ acquired_go w (pre ++ [c]) rest
  end.
Definition acquired (w : World Call Reply) (h : list Call) : list Closure := acquired_go w [] h.

Lemma acquired_go_app w l1 : forall pre l2,
  acquired_go w pre (l1 ++ l2) = acquired_go w pre l1 ++ acquired_go w (pre ++ l1) l2.
Proof.
  induction l1 as [|c l1 IH]; intros pre l2; cbn; [by rewrite app_nil_r|].
  rewrite IH, <- !app_assoc. done.
Qed.

Lemma acquired_app w h cs : acquired w (h ++ cs) = acquired w h ++ acquired_go w h cs.
Proof. apply acquired_go_app. Qed.

(** What the last launch before [h] ends acquired. *)
Fixpoint held_go (w : World Call Reply) (acc : list Closure) (pre rest : list Call) : list Closure :=
  match rest with
  | [] => acc
  | c :: rest =>
    held_go w (match c with CallWrapLaunch _ _ _ => acquiredBy c (w pre c) | _ => acc end) (pre ++ [c]) rest
  end.
Definition held (w : World Call Reply) (h : list Call) : list Closure := held_go w [] [] h.

(** What is lost with a goroutine that panics after it has acquired a sandbox:
    while it writes the input of the command or starts its window. *)
Definition lostBy (w : World Call Reply) (pre : list Call) (c : Call) : list Closure :=
  match c, w pre c with
  | (CallSpawnFrame _ _ _ _ _ | CallWriteTemp _), RPanic _ => held w pre
  | _, _ => []
  end.
Fixpoint lost_go (w : World Call Reply) (pre rest : list Call) : list Closure :=
  match rest with
  | [] => []
  | c :: rest => lostBy w pre c ++ lost_go w (pre ++ [c]) rest
  end.

Lemma held_go_snoc w h c : forall acc pre,
  held_go w acc pre (h ++ [c])
    = match c with CallWrapLaunch _ _ _ => acquiredBy c (w (pre ++ h) c) | _ => held_go w acc pre h end.
Proof.
  induction h as [|c' h IH]; intros acc pre; cbn [held_go app]; [by rewrite app_nil_r|].
  by rewrite IH, <- app_assoc.
Qed.

Lemma held_snoc w h c :
  held w (h ++ [c]) = match c with CallWrapLaunch _ _ _ => acquiredBy c (w h c) | _ => held w h end.
Proof. apply (held_go_snoc w h c [] []). Qed.

Lemma lost_go_app w l1 : forall pre l2,
  lost_go w pre (l1 ++ l2) = lost_go w pre l1 ++ lost_go w (pre ++ l1) l2.
Proof.
  induction l1 as [|c l1 IH]; intros pre l2; cbn; [by rewrite app_nil_r|].
  rewrite IH, <- !app_assoc. done.
Qed.

(** Calls that only a launch makes. *)
Definition launches (c : Call) : bool :=
  match c with
  | CallWrapLaunch _ _ _ | CallAdoptFrame _ _ | CallSpawnFrame _ _ _ _ _ | CallWriteTemp _ => true
  | _ => false
  end.

Lemma acquired_none w pre cs : Forall (fun c => launches c = false) cs -> acquired_go w pre cs = [].
Proof.
  intros H. revert pre. induction H as [|c cs Hc _ IH]; intros pre; cbn; [done|]. rewrite IH.
  by destruct c.
Qed.

Lemma lost_none w pre cs : Forall (fun c => launches c = false) cs -> lost_go w pre cs = [].
Proof.
  intros H. revert pre. induction H as [|c cs Hc _ IH]; intros pre; cbn; [done|]. rewrite IH.
  by destruct c.
Qed.

Lemma released_app l1 l2 : released (l1 ++ l2) = released l1 ++ released l2.
Proof. apply omap_app. Qed.
Lemma started_app l1 l2 : started (l1 ++ l2) = started l1 ++ started l2.
Proof. apply omap_app. Qed.

(** ** Operations that leave the handles alone *)

Definition neutral (c : Call) : Prop :=
  match c with
  | CallWrapLaunch _ _ _ | CallAdoptFrame _ _ | CallSpawnFrame _ _ _ _ _ | CallWriteTemp _
  | CallCleanup _ | CallGo _ => False
  | _ => True
  end.

Lemma neutral_calls cs : Forall neutral cs ->
  released cs = [] /\ started cs = [] /\ Forall (fun c => launches c = false) cs.
Proof.
  induction 1 as [|c cs Hc _ (IH1 & IH2 & IH3)]; [done|].
  by destruct c; split_and!; try done; constructor.
Qed.

Definition handles (r : Runtime) :=
  (R_state r, R_rng r, R_sandboxCleanups r, R_frameReg r).

Definition core (r : Runtime) := (handles r, R_disk r).

Definition keeps (r : Runtime) (m : M Runtime) : Prop :=
  forall w h, exists cs, (m w h).2 = h ++ cs /\ Forall neutral cs /\ core (m w h).1 = core r.

Lemma keeps_ret r r' : core r' = core r -> keeps r (mret r').
Proof. intros H w h. exists []. by rewrite app_nil_r. Qed.

Lemma keeps_bind r m f :
  keeps r m -> (forall r', core r' = core r -> keeps r (f r')) -> keeps r (m ≫= f).
Proof.
  intros Hm Hf w h. destruct (Hm w h) as (c1 & E1 & H1 & K1). unfold mbind, Eff_bind.
  destruct (m w h) as [r1 h1]. cbn [fst snd] in *. subst h1.
  destruct (Hf r1 K1 w (h ++ c1)) as (c2 & E2 & H2 & K2). exists (c1 ++ c2).
  rewrite E2, app_assoc. split_and!; [done|by apply Forall_app|done].
Qed.

Lemma keeps_bind_only {A} r (m : M A) f :
  only neutral m -> (forall x, keeps r (f x)) -> keeps r (m ≫= f).
Proof.
  intros Hm Hf w h. destruct (Hm w h) as (c1 & E1 & H1). unfold mbind, Eff_bind.
  destruct (m w h) as [x h1]. cbn [fst snd] in *. subst h1.
  destruct (Hf x w (h ++ c1)) as (c2 & E2 & H2 & K2). exists (c1 ++ c2).
  rewrite E2, app_assoc. split_and!; [done|by apply Forall_app|done].
Qed.

Lemma keeps_eq r r' m : core r' = core r -> keeps r' m -> keeps r m.
Proof. intros E H w h. destruct (H w h) as (cs & ? & ? & ?). exists cs. split_and!; congruence. Qed.

Lemma keeps_foldM {A} (f : A -> Runtime -> M Runtime) l : (forall a r, keeps r (f a r)) ->
  forall r, keeps r (foldM f l r).
Proof.
  intros Hf. induction l as [|a l IH]; intros r; [by apply keeps_ret|]. cbn [foldM].
  apply keeps_bind; [apply Hf|]. intros r' E. by eapply keeps_eq.
Qed.

Lemma only_callAll cs : Forall neutral cs -> only neutral (callAll cs).
Proof.
  induction 1 as [|c cs Hc _ IH]; [apply only_ret|]. cbn [callAll].
  apply only_bind; [by apply only_call|]. done.
Qed.

Lemma only_foldM {A} (f : A -> unit -> M unit) l : (forall a u, only neutral (f a u)) ->
  forall u, only neutral (foldM f l u).
Proof.
  intros Hf. induction l as [|a l IH]; intros u; [apply only_ret|]. cbn [foldM].
  apply only_bind; [apply Hf|done].
Qed.

Lemma only_mapM {A B} (f : A -> M B) l : (forall a, only neutral (f a)) -> only neutral (mapM f l).
Proof.
  intros Hf. induction l as [|a l IH]; [apply only_ret|]. cbn [mapM].
  apply only_bind; [apply Hf|]. intros b. apply only_bind; [done|]. intros bs. apply only_ret.
Qed.
End inv.

(** Steps through a computation, one call or branch at a time. *)
Ltac quiet_step := first
  [ apply keeps_ret; reflexivity
  | apply only_ret
  | apply only_call; exact I
  | apply only_callAll; repeat constructor
  | apply only_bind; [|intros ?]
  | apply keeps_bind_only; [solve [repeat first [apply only_call; exact I | apply only_callAll; repeat constructor]]|intros ?]
  | case_match ].
Ltac quiet := repeat quiet_step.

Section ops.
Context {T : ClientTypes} {RT : RuntimeTypes} {MR : MapRange} {D : Deps}.
Abbreviation M := (Eff Call Reply).

Lemma queueWire_keeps conn wire r : keeps r (queueWire conn wire r).
Proof. unfold queueWire. quiet. Qed.

Lemma closeConn_keeps conn r : keeps r (closeConn conn r).
Proof. unfold closeConn. quiet. Qed.

Lemma broadcastWire_keeps wire name r : keeps r (broadcastWire wire name r).
Proof.
  unfold broadcastWire. apply keeps_foldM. intros kv r'. case_match; [apply queueWire_keeps|quiet].
Qed.

Lemma broadcastSurface_keeps sid wire r : keeps r (broadcastSurface sid wire r).
Proof.
  unfold broadcastSurface. apply keeps_foldM. intros kv r'. case_match; [apply queueWire_keeps|quiet].
Qed.

Lemma syncRelayWatches_only r : only neutral (syncRelayWatches r).
Proof.
  unfold syncRelayWatches. case_match; [|apply only_ret]. apply only_callAll.
  apply Forall_forall. intros c. unfold relayWatches. rewrite list_elem_of_bind.
  intros (kv & Hc & _). repeat case_match; try by apply elem_of_nil in Hc.
  apply list_elem_of_fmap in Hc as (lt & -> & _). exact I.
Qed.

Lemma buildSessionInfos_only s : only neutral (buildSessionInfos s).
Proof.
  unfold buildSessionInfos. apply only_bind; [|intros; apply only_ret].
  apply only_mapM. intros sess. unfold buildOneSessionInfo. quiet.
Qed.

Lemma translateResponseBody_only s body : only neutral (translateResponseBody s body).
Proof.
  destruct body; cbn [translateResponseBody]; try apply only_ret.
  - apply only_bind; [apply buildSessionInfos_only|intros; apply only_ret].
  - unfold buildSurfaceText. quiet.
Qed.

Lemma executeIPCEffect_keeps eff r : keeps r (executeIPCEffect eff r).
Proof.
  destruct eff; cbn [executeIPCEffect]; try by apply keeps_ret.
  - unfold sendResponse. case_match; [|quiet].
    apply keeps_bind_only; [apply translateResponseBody_only|]. intros. apply queueWire_keeps.
  - unfold sendResponseSync. case_match; [|quiet].
    apply keeps_bind_only; [apply translateResponseBody_only|]. intros resp. quiet.
  - apply queueWire_keeps.
  - unfold broadcastSessionsChanged. apply keeps_bind_only; [apply syncRelayWatches_only|intros _].
    apply keeps_bind_only; [apply buildSessionInfos_only|intros]. apply broadcastWire_keeps.
  - unfold broadcastGenericEvent. repeat case_match; quiet. apply broadcastWire_keeps.
  - apply closeConn_keeps.
Qed.

Lemma executeSendFrameKeys_keeps conn req sid text key e r :
  keeps r (executeSendFrameKeys conn req sid text key e r).
Proof.
  unfold executeSendFrameKeys. case_match; [apply executeIPCEffect_keeps|].
  apply keeps_bind_only; [case_match; quiet|]. intros rep. repeat case_match; apply executeIPCEffect_keeps.
Qed.

Lemma executeSurfaceEffect_keeps eff r : keeps r (executeSurfaceEffect eff r).
Proof.
  destruct eff; cbn [executeSurfaceEffect]; cbv zeta; try (by apply keeps_ret); quiet.
  - apply broadcastSurface_keeps.
  - unfold broadcastPromptEvent. case_match; [quiet|].
    apply keeps_bind_only; [quiet|]. intros rep. apply broadcastSurface_keeps.
Qed.

Lemma tapStop_keeps fid r : keeps r (tapStop fid r).
Proof. unfold tapStop. quiet. Qed.

Lemma tapStart_keeps fid r : keeps r (tapStart fid r).
Proof.
  unfold tapStart. case_match; [quiet|]. apply keeps_bind; [apply tapStop_keeps|]. intros r' E.
  eapply keeps_eq; [exact E|]. quiet.
Qed.

(** The disk without the warm file of a frame. *)
Definition forgetWarm (fid : string) (d : Disk) : Disk :=
  match Cfg_Warm cfg with None => d | Some dir => (warm.Delete fault dir fid d).2 end.

Lemma executeKillSessionWindow_keeps fid r :
  keeps (r <| R_disk := forgetWarm fid (R_disk r) |>) (executeKillSessionWindow fid r).
Proof.
  unfold executeKillSessionWindow, reapSubsystemIfLast, forgetWarm.
  do 2 (apply keeps_bind_only; [quiet|intros _]). cbv zeta.
  destruct (Cfg_Warm cfg); (case_match; [|quiet]); quiet.
Qed.

Lemma reconcileWindows_only r : only neutral (reconcileWindows r).
Proof. unfold reconcileWindows. apply only_foldM. intros fid u. unfold reconcileFrame. quiet. Qed.

Lemma executeUnregisterFrame_keeps fid r : keeps r (executeUnregisterFrame fid r).
Proof.
  unfold executeUnregisterFrame. apply keeps_bind; [apply tapStop_keeps|]. intros r' E.
  eapply keeps_eq; [exact E|]. apply keeps_bind_only; [quiet|intros _].
  apply keeps_bind_only; [case_match; quiet|intros _]. quiet.
Qed.

(** ** Releases *)

(** What an effect does to the handles and to the disk. *)
Definition diskAfter (s : State) (eff : Effect) (d : Disk) : Disk :=
  match eff with
  | EffPersistSnapshot => (persist.Save fault (Cfg_Persist cfg) (snapshotSessions s) d).2
  | EffKillFrame fid => forgetWarm fid d
  | _ => d
  end.

Definition effectOn (eff : Effect) (r r' : Runtime) (cs : list Call) : Prop :=
  R_disk r' = diskAfter (R_state r) eff (R_disk r) /\
  match eff with
  | EffReleaseFrameSandbox fid =>
      released cs = option_list (R_sandboxCleanups r !! fid) /\
      handles r' = (R_state r, R_rng r, delete fid (R_sandboxCleanups r), framereg.Delete (R_frameReg r) fid)
  | EffReleaseFrameSandboxes =>
      released cs = (mapRange (R_sandboxCleanups r)).*2 /\
      handles r' = (R_state r, R_rng r, ∅, R_frameReg r)
  | _ => released cs = [] /\ handles r' = handles r
  end.

Definition executed (eff : Effect) (r : Runtime) (m : M Runtime) : Prop :=
  forall w h, exists cs, (m w h).2 = h ++ cs /\ Forall (fun c => launches c = false) cs /\
    started cs = option_list (spawnRequest eff) /\ effectOn eff r (m w h).1 cs.

Lemma keeps_executed eff r m :
  match eff with EffReleaseFrameSandbox _ | EffReleaseFrameSandboxes => False | _ => True end ->
  spawnRequest eff = None -> keeps (r <| R_disk := diskAfter (R_state r) eff (R_disk r) |>) m ->
  executed eff r m.
Proof.
  intros He Hs Hm w h. destruct (Hm w h) as (cs & E & Hn & K). exists cs.
  destruct (neutral_calls _ Hn) as (? & ? & ?). rewrite Hs. split_and!; [done..|].
  apply pair_equal_spec in K as [K1 K2]. split; [exact K2|]. by destruct eff.
Qed.

Lemma callAll_run cs : forall w h, callAll cs w h = (tt, h ++ cs).
Proof.
  induction cs as [|c cs IH]; intros w h; [by rewrite app_nil_r|].
  cbn [callAll]. unfold mbind, Eff_bind, call. cbn. rewrite IH, <- app_assoc. done.
Qed.

Lemma released_cleanups {A} (f : A -> Closure) l : released (map (fun a => CallCleanup (f a)) l) = map f l.
Proof. induction l as [|a l IH]; [done|]. cbn. f_equal. exact IH. Qed.

Lemma execute_shutdown r : executed EffReleaseFrameSandboxes r (executeMiscEffect EffReleaseFrameSandboxes r).
Proof.
  intros w h. cbn [executeMiscEffect]. unfold drainFrameCleanups, mbind, Eff_bind, mret, Eff_ret, call.
  repeat (rewrite callAll_run; cbv beta zeta). cbn [fst snd].
  set (stops := map _ (mapRange (R_subsystems r))). set (cleans := map _ (mapRange (R_sandboxCleanups r))).
  exists (stops ++ cleans ++ [CallAckShutdown]). rewrite <- !app_assoc.
  assert (forall l : list (string * Subsystem), Forall neutral (map (fun kv => CallStop kv.2) l)) as Hs
    by (intros l; apply Forall_map, Forall_true; by intros).
  destruct (neutral_calls _ (Hs (mapRange (R_subsystems r)))) as (E1 & E2 & E3). fold stops in E1, E2, E3.
  assert (forall l : list (string * Closure), started (map (fun kv => CallCleanup kv.2) l) = []) as E4
    by (by intros l; induction l).
  split_and!; [done| | |split; [done|split; [|done]]].
  - rewrite !Forall_app. split_and!; [done| |by apply Forall_singleton].
    apply Forall_map, Forall_true. by intros.
  - rewrite !started_app, E2. unfold cleans. by rewrite E4.
  - rewrite !released_app, E1. unfold cleans. rewrite released_cleanups. cbn. by rewrite app_nil_r.
Qed.

Lemma execute_release fid r : executed (EffReleaseFrameSandbox fid) r (executeMiscEffect (EffReleaseFrameSandbox fid) r).
Proof.
  intros w h. cbn [executeMiscEffect]. unfold invokeFrameCleanup. cbv zeta.
  destruct (R_sandboxCleanups r !! fid) as [c|] eqn:E.
  - exists [CallCleanup c]. split_and!; [done|by repeat constructor|done|].
    split; [done|]. split; [by rewrite E|done].
  - exists []. rewrite app_nil_r. split_and!; [done|constructor|done|].
    split; [done|]. split; [by rewrite E|done].
Qed.

Lemma execute_spawn r eff e : spawnRequest eff = Some e -> executed eff r (executeFrameEffect eff r).
Proof.
  intros He w h. destruct eff; try done. cbn [executeFrameEffect]. rewrite He.
  exists [CallGo e]. split_and!; [done|by repeat constructor|done|done].
Qed.

Lemma execute_spec eff r : executed eff r (execute eff r).
Proof.
  assert (forall m, keeps r m -> keeps (r <| R_disk := R_disk r |>) m) as Hsame by (intros m; by apply keeps_eq).
  destruct eff; cbn [execute];
    try (eapply execute_spawn; reflexivity); try apply execute_release; try apply execute_shutdown;
    (apply keeps_executed; [done|done|]); cbn [diskAfter];
    try (apply executeKillSessionWindow_keeps); try (by apply keeps_ret); apply Hsame;
    try apply executeIPCEffect_keeps; try apply executeSurfaceEffect_keeps;
    try apply executeSendFrameKeys_keeps; try apply executeUnregisterFrame_keeps;
    cbn [executeFrameEffect executeFSEffect executeMiscEffect].
  all: try (by quiet).
  - case_match; [apply tapStart_keeps|quiet].
  - apply keeps_bind_only; [apply reconcileWindows_only|intros _; quiet].
  - unfold executeRecordNotification. apply keeps_bind; [apply broadcastWire_keeps|]. intros r' E.
    eapply keeps_eq; [exact E|]. quiet.
Qed.

(** ** The effects of an event *)

Definition registered (r : Runtime) : list Closure := (map_to_list (R_sandboxCleanups r)).*2.

Record ranEffects (effs : list Effect) (r r' : Runtime) (cs : list Call) : Prop := {
  ran_quiet : Forall (fun c => launches c = false) cs;
  ran_started : started cs = omap spawnRequest effs;
  ran_state : R_state r' = R_state r;
  ran_rng : R_rng r' = R_rng r;
  ran_disk : R_disk r' = foldl (fun d eff => diskAfter (R_state r) eff d) (R_disk r) effs;
  ran_released : registered r ≡ₚ released cs ++ registered r';
  ran_cleanups fid c : R_sandboxCleanups r' !! fid = Some c ->
    R_sandboxCleanups r !! fid = Some c /\ EffReleaseFrameSandbox fid ∉ effs;
  ran_consistent : framereg.consistent (R_frameReg r) -> framereg.consistent (R_frameReg r');
  ran_tokens fid t : framereg.consistent (R_frameReg r) ->
    framereg.frameToToken (R_frameReg r') !! fid = Some t ->
    framereg.frameToToken (R_frameReg r) !! fid = Some t /\ EffReleaseFrameSandbox fid ∉ effs;
}.

Lemma executed_ran eff r r' cs :
  Forall (fun c => launches c = false) cs -> started cs = option_list (spawnRequest eff) ->
  effectOn eff r r' cs -> ranEffects [eff] r r' cs.
Proof.
  intros Hq Hs [Hd He].
  assert (started cs = omap spawnRequest [eff]) as Hs' by (rewrite Hs; cbn; by destruct (spawnRequest eff)).
  assert ((exists fid, eff = EffReleaseFrameSandbox fid) \/ forall fid, eff <> EffReleaseFrameSandbox fid)
    as [[fid ->]|Hn1] by (destruct eff; eauto; by right).
  { destruct He as [Hr Hh]. injection Hh as E1 E2 E3 E4. split; try done.
    - unfold registered. rewrite Hr, E3. destruct (R_sandboxCleanups r !! fid) as [c|] eqn:E; cbn.
      + rewrite <- (map_to_list_delete _ _ _ E). done.
      + by rewrite delete_id.
    - intros fid' c. rewrite E3, lookup_delete_Some. intros [Hne ?]. split; [done|].
      intros Hin%list_elem_of_singleton. congruence.
    - rewrite E4. intros Hc. by apply framereg.Delete_spec.
    - intros fid' t Hc. rewrite E4, (proj2 (framereg.Delete_spec _ fid Hc)), lookup_delete_Some.
      intros [Hne ?]. split; [done|]. intros Hin%list_elem_of_singleton. congruence. }
  assert (forall fid, EffReleaseFrameSandbox fid ∉ [eff]) as Hni.
  { intros fid E%list_elem_of_singleton. by apply (Hn1 fid). }
  assert (eff = EffReleaseFrameSandboxes \/ eff <> EffReleaseFrameSandboxes) as [->|Hn2]
    by (destruct eff; auto).
  { destruct He as [Hr Hh]. injection Hh as E1 E2 E3 E4. split; try done.
    - unfold registered. rewrite Hr, E3, map_to_list_empty, mapRange_perm. cbn. by rewrite app_nil_r.
    - intros fid c. by rewrite E3, lookup_empty.
    - by rewrite E4.
    - intros fid t _. by rewrite E4. }
  assert (released cs = [] /\ handles r' = handles r) as [Hr Hh].
  { destruct eff; try done; naive_solver. }
  injection Hh as E1 E2 E3 E4. split; rewrite ?E3, ?E4, ?Hr; try done.
  unfold registered. by rewrite E3.
Qed.

Lemma ran_nil r : ranEffects [] r r [].
Proof. split; try done; try (by constructor); intros; (split; [assumption|apply not_elem_of_nil]). Qed.

Lemma ran_app effs1 effs2 r1 r2 r3 cs1 cs2 :
  ranEffects effs1 r1 r2 cs1 -> ranEffects effs2 r2 r3 cs2 ->
  ranEffects (effs1 ++ effs2) r1 r3 (cs1 ++ cs2).
Proof.
  intros [A1 A2 A3 A4 A9 A5 A6 A7 A8] [B1 B2 B3 B4 B9 B5 B6 B7 B8]. split.
  - by apply Forall_app.
  - by rewrite started_app, omap_app, A2, B2.
  - congruence.
  - congruence.
  - by rewrite foldl_app, B9, A3, A9.
  - rewrite A5, B5, released_app. by rewrite app_assoc.
  - intros fid c H. apply B6 in H as [H ?]. apply A6 in H as [? ?]. rewrite elem_of_app. naive_solver.
  - auto.
  - intros fid t Hc H. apply B8 in H as [H ?]; [|auto]. apply A8 in H as [? ?]; [|done].
    rewrite elem_of_app. naive_solver.
Qed.

Lemma execute_all effs : forall r w h, exists cs,
  (foldM execute effs r w h).2 = h ++ cs /\ ranEffects effs r (foldM execute effs r w h).1 cs.
Proof.
  induction effs as [|eff effs IH]; intros r w h.
  { exists []. rewrite app_nil_r. split; [done|apply ran_nil]. }
  cbn [foldM]. unfold mbind, Eff_bind.
  destruct (execute_spec eff r w h) as (c1 & E1 & Hq & Hs & He).
  destruct (execute eff r w h) as [r1 h1]. cbn [fst snd] in *. subst h1.
  destruct (IH r1 w (h ++ c1)) as (c2 & E2 & H2). exists (c1 ++ c2). rewrite E2, app_assoc. split; [done|].
  apply (ran_app [eff] effs _ r1); [by apply executed_ran|done].
Qed.

(** ** Dispatch *)

Lemma reconcilePersist_handles prev next r : handles (reconcilePersist prev next r) = handles r.
Proof.
  unfold reconcilePersist. destruct (sameSessionMap prev next); [done|].
  set (ids := List.filter _ _). assert (forall r, handles (foldl (fun r id => deleteSession id r) r ids) = handles r) as H.
  { induction ids as [|id ids IH]; intros r0; [done|]. cbn. by rewrite IH. }
  specialize (H r). case_decide; [done|]. exact H.
Qed.

Lemma dispatch_spec ev r w h :
  match Reduce reg idAt json (R_rng r) (R_state r) ev with
  | None => (dispatch ev r w h).1 = None
  | Some (next, effs, rng) => exists r1 cs,
      dispatch ev r w h = (Some (reconcilePersist (Sessions (R_state r)) (Sessions next) r1), h ++ cs) /\
      ranEffects effs (r <| R_state := next |> <| R_rng := rng |>) r1 cs
  end.
Proof.
  unfold dispatch. destruct (Reduce _ _ _ _ _ ev) as [[[next effs] rng]|]; [|done]. cbv zeta.
  unfold mbind, Eff_bind.
  destruct (execute_all effs (r <| R_state := next |> <| R_rng := rng |>) w h) as (cs & E & H).
  destruct (foldM _ _ _ w h) as [r1 h1]. cbn [fst snd] in *. subst h1.
  exists r1, cs. split; [|done]. by rewrite (ran_state _ _ _ _ H).
Qed.
End ops.
