(* ===== verification/RuntimeSys.v ===== *)
(** * client/runtime: the loop and its spawn goroutines

    A step of the system is an iteration of the loop, a spawn goroutine that
    runs to its end, or a completion that the loop takes.  The calls of a
    goroutine may come between those of the loop; since the world answers as it
    likes, running it at once loses nothing.  The queue of events is not kept:
    any event may arrive, or be lost. *)

From S2P Require Import Prelude GoStd GoText GoTime GoIO GoPath GoDisk Pathmap ClientView ClientState ClientReduce ClientInv ClientGraph ClientSteps ClientRollback FrameReg RuntimePersist Runtime RuntimeInv.
Open Scope Z_scope.

Section sys.
Context {T : ClientTypes} {RT : RuntimeTypes} {MR : MapRange} {D : Deps}.
Abbreviation M := (Eff Call Reply).

Record Sys := mkSys {
  S_rt : Runtime;
  S_hist : list Call;
  S_going : list SpawnRequest;       (** goroutines that have not run *)
  S_done : list SpawnComplete;       (** completions the loop has not taken *)
}.

Definition completion (res : Event + SpawnComplete) : list SpawnComplete :=
  match res with inl _ => [] | inr c => [c] end.

Definition isCompletion (i : Input) : bool :=
  match i with InInternal (InternalSpawnComplete _) => true | _ => false end.

Inductive sysStep (w : World Call Reply) : Sys -> Sys -> Prop :=
| Sys_iterate r h going done i r' cs :
    isCompletion i = false -> iterate i r w h = (Some r', h ++ cs) ->
    sysStep w (mkSys r h going done) (mkSys r' (h ++ cs) (going ++ started cs) done)
| Sys_spawn r h g1 e g2 done res h' :
    spawnFrameWindow e w h = (res, h') ->
    sysStep w (mkSys r h (g1 ++ e :: g2) done) (mkSys r h' (g1 ++ g2) (done ++ completion res))
| Sys_complete r h going d1 c d2 r' cs :
    handleSpawnComplete c r w h = (Some r', h ++ cs) ->
    sysStep w (mkSys r h going (d1 ++ c :: d2)) (mkSys r' (h ++ cs) (going ++ started cs) (d1 ++ d2)).

(** ** The invariant *)

Definition spawning (going : list SpawnRequest) (done : list SpawnComplete) : list string :=
  map Spawn_FrameID going ++ map (fun c => Spawn_FrameID (Done_effect c)) done.

Definition inFlight (done : list SpawnComplete) : list Closure := omap Done_cleanup done.

(** What is live has a frame, and what is being spawned has no handle yet. *)
Record handlesOk (r : Runtime) (sp : list string) : Prop := {
  ok_graph : wf_graph idAt (R_rng r, shapes (R_state r));
  ok_cleanups fid : is_Some (R_sandboxCleanups r !! fid) -> has_frame (shapes (R_state r)) fid;
  ok_consistent : framereg.consistent (R_frameReg r);
  ok_tokens fid : is_Some (framereg.frameToToken (R_frameReg r) !! fid) ->
    has_frame (shapes (R_state r)) fid;
  ok_once : NoDup sp;
  ok_old fid : fid ∈ sp -> exists n, (n < R_rng r)%nat /\ fid = idAt n;
  ok_unregistered fid : fid ∈ sp -> R_sandboxCleanups r !! fid = None;
}.

Definition sysOk (s : Sys) : Prop := handlesOk (S_rt s) (spawning (S_going s) (S_done s)).

(** The sandboxes a system answers for: registered for a frame, or part of a
    completion on its way to the loop. *)
Definition holds (s : Sys) : list Closure := registered (S_rt s) ++ inFlight (S_done s).

(** From [s] to [s'], every sandbox held before or acquired since has been
    released, is held, or was lost in a panic. *)
Definition accounted (w : World Call Reply) (s s' : Sys) : Prop :=
  exists cs, S_hist s' = S_hist s ++ cs /\
    holds s ++ acquired_go w (S_hist s) cs ≡ₚ released cs ++ holds s' ++ lost_go w (S_hist s) cs.

#[export] Instance handlesOk_Permutation r : Proper (Permutation ==> iff) (handlesOk r).
Proof.
  assert (forall sp sp', sp ≡ₚ sp' -> handlesOk r sp -> handlesOk r sp') as H.
  { intros sp sp' E []. split; try done; [by rewrite <- E|..]; intros fid; rewrite <- E; auto. }
  intros sp sp' E. split; apply H; [done|by symmetry].
Qed.

Lemma spawning_started going more done :
  spawning (going ++ more) done ≡ₚ spawning going done ++ map Spawn_FrameID more.
Proof. unfold spawning. rewrite map_app, <- !app_assoc. by rewrite (Permutation_app_comm (map _ more)). Qed.

Lemma spawnRequest_ids effs : map Spawn_FrameID (omap spawnRequest effs) = spawnedIDs effs.
Proof.
  unfold spawnedIDs. induction effs as [|eff effs IH]; [done|]. destruct eff; cbn; try exact IH. by f_equal.
Qed.

Lemma handlesOk_eq r r' sp : handles r' = handles r -> handlesOk r sp -> handlesOk r' sp.
Proof. intros E. injection E as E1 E2 E3 E4. intros []. split; rewrite ?E1, ?E2, ?E3, ?E4; done. Qed.

Lemma registered_eq r r' : handles r' = handles r -> registered r' = registered r.
Proof. intros E. injection E as _ _ E _. unfold registered. by rewrite E. Qed.

Lemma gone_released rng s ev s' effs rng' fid :
  supply_ok idAt -> wf_graph idAt (rng, shapes s) ->
  Reduce reg idAt json rng s ev = Some (s', effs, rng') ->
  has_frame (shapes s) fid -> EffReleaseFrameSandbox fid ∉ effs -> has_frame (shapes s') fid.
Proof.
  intros Hid Hwf E Hf Hn. destruct (findFrame s' fid) as [[[sid sess] idx]|] eqn:Ef.
  - apply findFrame_Some in Ef as [Hl Hi]. apply list_elem_of_lookup_2 in Hi.
    exists sid, (shape sess). split; [apply shapes_lookup; eauto|done].
  - destruct Hn. apply findFrame_None in Ef.
    apply (Reduce_teardown _ _ _ _ _ _ _ _ _ _ Hid Hwf E Hf Ef). unfold frameTeardownEffects. set_solver.
Qed.

Context (Hid : supply_ok idAt) (Hpush : drivers_push reg).

Lemma dispatch_handles ev r w h r' h' sp :
  dispatch ev r w h = (Some r', h') -> handlesOk r sp ->
  exists cs, h' = h ++ cs /\ handlesOk r' (sp ++ map Spawn_FrameID (started cs)) /\
    Forall (fun c => launches c = false) cs /\ registered r ≡ₚ released cs ++ registered r'.
Proof.
  intros Hd [Hwf Hcl Hco Htk Hon Hol Hun]. pose proof (dispatch_spec ev r w h) as H.
  destruct (Reduce _ _ _ _ _ ev) as [[[next effs] rng]|] eqn:E; [|by rewrite Hd in H].
  destruct H as (r1 & cs & E1 & [Hq Hs Hst Hrng _ Hrel Hc Hcon Ht]). rewrite E1 in Hd. injection Hd as <- <-.
  exists cs. split; [done|]. set (r2 := reconcilePersist _ _ r1).
  pose proof (reconcilePersist_handles _ _ r1 : handles r2 = handles r1) as K.
  rewrite (registered_eq _ _ K). enough (handlesOk r1 (sp ++ map Spawn_FrameID (started cs)))
    by (split; [by eapply handlesOk_eq|done]). cbn in *. rewrite Hs, spawnRequest_ids.
  destruct (Reduce_steps _ _ _ _ _ _ _ _ _ E) as [Hg _].
  pose proof (graph_steps_mono _ _ _ Hg) as Hm. cbn in Hm.
  destruct (Reduce_spawns _ _ _ _ _ _ _ _ _ Hpush E) as (ns & Ens & Hnd & Hns). rewrite Ens.
  rewrite Forall_forall in Hns. split; rewrite ?Hst, ?Hrng.
  - by eapply graph_steps_wf.
  - intros fid [c Hfid]. apply Hc in Hfid as [Hfid Hno].
    eapply (gone_released (R_rng r)); eauto.
  - auto.
  - intros fid [t Hfid]. apply Ht in Hfid as [Hfid Hno]; [|done].
    eapply (gone_released (R_rng r)); eauto.
  - apply NoDup_app. split_and!; [done| |].
    + intros fid (n & Hn & ->)%Hol (m & Em & Hm')%list_elem_of_fmap.
      apply (supply_inj _ Hid) in Em as ->. apply Hns in Hm'. lia.
    + apply NoDup_fmap_2_strong; [|done]. intros n m _ _. apply (supply_inj _ Hid).
  - intros fid [(n & Hn & ->)%Hol|(m & -> & Hm')%list_elem_of_fmap]%elem_of_app; [exists n|exists m].
    + split; [lia|done].
    + apply Hns in Hm'. split; [lia|done].
  - intros fid Hin. destruct (R_sandboxCleanups r1 !! fid) as [c|] eqn:Ec; [|done].
    apply Hc in Ec as [Ec _]. apply elem_of_app in Hin as [Hin|(m & -> & Hm')%list_elem_of_fmap].
    + by rewrite Hun in Ec.
    + destruct (wfg_fresh_fid _ _ Hwf m); [cbn; apply Hns in Hm'; lia|]. apply Hcl. eauto.
Qed.

(** From [r] and [h] to [r'] and [h'] without acquiring anything. *)
Definition advances (r : Runtime) (h : list Call) (sp : list string) (r' : Runtime) (h' : list Call) : Prop :=
  exists cs, h' = h ++ cs /\ handlesOk r' (sp ++ map Spawn_FrameID (started cs)) /\
    Forall (fun c => launches c = false) cs /\ registered r ≡ₚ released cs ++ registered r'.

Lemma advances_after r0 r h cs0 sp r' h' :
  Forall neutral cs0 -> handles r = handles r0 -> advances r (h ++ cs0) sp r' h' -> advances r0 h sp r' h'.
Proof.
  intros Hn E (cs & -> & Hok & Hq & Hr). destruct (neutral_calls _ Hn) as (E1 & E2 & E3).
  exists (cs0 ++ cs). rewrite app_assoc, started_app, released_app, E1, E2. split_and!; try done.
  - by apply Forall_app.
  - by rewrite <- (registered_eq _ _ E).
Qed.

Lemma keeps_advances r m w h r' h' sp :
  keeps r m -> m w h = (r', h') -> handlesOk r sp -> advances r h sp r' h'.
Proof.
  intros Hk E Hok. destruct (Hk w h) as (cs & E1 & Hn & [K _]%pair_equal_spec). rewrite E in *. cbn in *. subst h'.
  destruct (neutral_calls _ Hn) as (E2 & E3 & E4). exists cs. rewrite E2, E3. cbn. rewrite app_nil_r.
  split_and!; [done|by eapply handlesOk_eq|done|]. by rewrite (registered_eq _ _ K).
Qed.

Lemma startRestoredTaps_keeps r : keeps r (startRestoredTaps r).
Proof.
  unfold startRestoredTaps. apply keeps_foldM. intros kv r0. case_match; [quiet|apply tapStart_keeps].
Qed.

Lemma some_keeps_advances r (m : M Runtime) w h r' h' sp :
  keeps r m -> (m ≫= (fun r => mret (Some r))) w h = (Some r', h') -> handlesOk r sp ->
  advances r h sp r' h'.
Proof.
  intros Hk E. unfold mbind, Eff_bind in E. destruct (m w h) as [r1 h1] eqn:Em.
  injection E as <- <-. by eapply keeps_advances.
Qed.

Lemma keeps_dispatch_advances ev r (m : M Runtime) w h r' h' sp :
  keeps r m -> (m ≫= dispatch ev) w h = (Some r', h') -> handlesOk r sp -> advances r h sp r' h'.
Proof.
  intros Hk E Hok. unfold mbind, Eff_bind in E. destruct (Hk w h) as (cs & E1 & Hn & [K _]%pair_equal_spec).
  destruct (m w h) as [r1 h1]. cbn in *. subst h1. eapply advances_after; [exact Hn|exact K|].
  eapply dispatch_handles; [exact E|]. by eapply handlesOk_eq.
Qed.

Lemma iterate_advances i r w h r' h' sp :
  isCompletion i = false -> iterate i r w h = (Some r', h') -> handlesOk r sp -> advances r h sp r' h'.
Proof.
  intros Hi E Hok. assert (forall ev r0, handles r0 = handles r -> dispatch ev r0 w h = (Some r', h') ->
    advances r h sp r' h') as Hd.
  { intros ev r0 K Ed. apply (advances_after r r0 h []); [constructor|done|]. rewrite app_nil_r.
    eapply dispatch_handles; [exact Ed|]. by eapply handlesOk_eq. }
  destruct i as [ev|ev|now|job res err|fid path]; cbn [iterate] in E; try (by eapply Hd; [|exact E]).
  destruct ev; try done; cbn [dispatchInternal] in E.
  - by eapply Hd; [|exact E].
  - eapply keeps_dispatch_advances; [|exact E|done]. apply closeConn_keeps.
  - eapply (some_keeps_advances r (_ ← syncRelayWatches _; mret (r <| R_relay := true |>)));
      [|rewrite Eff_assoc; exact E|done].
    apply keeps_bind_only; [apply syncRelayWatches_only|]. intros _. by apply keeps_ret.
  - eapply some_keeps_advances; [|exact E|done]. apply broadcastWire_keeps.
  - eapply some_keeps_advances; [|exact E|done]. apply startRestoredTaps_keeps.
  - eapply some_keeps_advances; [|exact E|done]. apply queueWire_keeps.
  - destruct (Cfg_SurfaceBackend cfg); [|by eapply Hd; [|exact E]].
    eapply (keeps_dispatch_advances _ r (_ ← callAll [CallSurfaceUnsubscribe conn sid]; mret r));
      [|rewrite Eff_assoc; exact E|done].
    quiet.
Qed.

(** ** Completions *)

Lemma spawnTargetAlive_frame s sid fid : spawnTargetAlive s sid fid = true -> has_frame (shapes s) fid.
Proof.
  unfold spawnTargetAlive. destruct (Sessions s !! sid) as [sess|] eqn:E; [|done].
  intros (f & Hf & Heq)%existsb_exists. apply String.eqb_eq in Heq as <-.
  exists sid, (shape sess). split; [apply shapes_lookup; eauto|]. cbn. apply list_elem_of_fmap.
  exists f. split; [done|]. by apply list_elem_of_In.
Qed.

Definition frameOf (c : SpawnComplete) : string := Spawn_FrameID (Done_effect c).

(** The runtime after a completion for a live frame has been stored. *)
Definition stored (c : SpawnComplete) (r : Runtime) : Runtime :=
  let fid := frameOf c in
  storeFrameCleanup
    (r <| R_subsystems := <[Done_subsystemID c := Done_sub c]> (R_subsystems r) |>
       <| R_frameSubsystems := <[fid := Done_sub c]> (R_frameSubsystems r) |>
       <| R_frameSubsystemIDs := <[fid := Done_subsystemID c]> (R_frameSubsystemIDs r) |>)
    fid (Done_cleanup c).

Lemma stored_handles c r :
  handles (stored c r) = (R_state r, R_rng r,
    match Done_cleanup c with Some x => <[frameOf c := x]> (R_sandboxCleanups r) | None => R_sandboxCleanups r end,
    R_frameReg r).
Proof. unfold stored. by destruct (Done_cleanup c). Qed.

Lemma stored_registered c r : R_sandboxCleanups r !! frameOf c = None ->
  registered (stored c r) ≡ₚ option_list (Done_cleanup c) ++ registered r.
Proof.
  intros H. pose proof (stored_handles c r) as E. injection E as _ _ E _. unfold registered. rewrite E.
  destruct (Done_cleanup c) as [x|]; [|done]. by rewrite map_to_list_insert.
Qed.

Lemma stored_ok c r sp1 sp2 :
  has_frame (shapes (R_state r)) (frameOf c) -> handlesOk r (sp1 ++ frameOf c :: sp2) ->
  handlesOk (stored c r) (sp1 ++ sp2).
Proof.
  intros Hf [Hwf Hcl Hco Htk Hon Hol Hun]. pose proof (stored_handles c r) as E.
  injection E as E1 E2 E3 E4. rewrite <- Permutation_middle in Hon. apply NoDup_cons in Hon as [Hni Hon].
  assert (forall fid, fid ∈ sp1 ++ sp2 -> fid ∈ sp1 ++ frameOf c :: sp2) as Hsub by set_solver.
  split; rewrite ?E1, ?E2, ?E4; try done.
  - intros fid. rewrite E3. destruct (Done_cleanup c) as [x|]; [|apply Hcl].
    rewrite lookup_insert_is_Some. intros [<-|[_ ?]]; auto.
  - intros fid Hin. apply Hol. auto.
  - intros fid Hin. rewrite E3. destruct (Done_cleanup c) as [x|]; [|by apply Hun; auto].
    rewrite lookup_insert_ne; [by apply Hun; auto|]. intros <-. done.
Qed.

(** A frame that is spawned in a container gets a token. *)
Lemma registerContainerFrame_ok fid project dir token ms r w h sp :
  has_frame (shapes (R_state r)) fid -> handlesOk r sp ->
  let '(r', h') := registerContainerFrame fid project dir token ms r w h in
  handlesOk r' sp /\ registered r' = registered r /\ exists cs, h' = h ++ cs /\ Forall neutral cs.
Proof.
  intros Hf [Hwf Hcl Hco Htk Hon Hol Hun].
  assert (exists r1 cs, registerContainerFrame fid project dir token ms r w h = (r1, h ++ cs) /\
    Forall neutral cs /\ handles r1 = (R_state r, R_rng r, R_sandboxCleanups r,
      framereg.RegisterWithMounts (R_frameReg r) fid token ms)) as (r1 & cs & -> & Hn & K).
  { unfold registerContainerFrame, startContainerEndpointIfNeeded, mbind, Eff_bind, mret, Eff_ret, call. cbn.
    destruct (decide (project ∈ _)).
    - eexists _, []. rewrite app_nil_r. split; [reflexivity|]. by destruct (Cfg_Warm cfg).
    - destruct (failedReply _); (eexists _, [_]; split; [reflexivity|]; split; [by repeat constructor|]);
        by destruct (Cfg_Warm cfg). }
  injection K as E1 E2 E3 E4. split_and!; [|unfold registered; by rewrite E3|by exists cs].
  split; rewrite ?E1, ?E2, ?E3, ?E4; try done.
  - by apply framereg.RegisterWithMounts_consistent.
  - intros fid' [->|?]%framereg.RegisterWithMounts_frames; auto.
Qed.

Lemma spawning_middle going d1 c d2 :
  exists sp1 sp2, spawning going (d1 ++ c :: d2) = sp1 ++ frameOf c :: sp2 /\
    spawning going (d1 ++ d2) = sp1 ++ sp2.
Proof.
  exists (map Spawn_FrameID going ++ map frameOf d1), (map frameOf d2).
  unfold spawning. rewrite !map_app, <- !app_assoc. done.
Qed.

Lemma handlesOk_sub r sp sp' : sublist sp' sp -> handlesOk r sp -> handlesOk r sp'.
Proof.
  intros Hs []. split; try done.
  - by eapply sublist_NoDup.
  - intros fid Hin. apply ok_old0. by eapply elem_of_sublist.
  - intros fid Hin. apply ok_unregistered0. by eapply elem_of_sublist.
Qed.

(** The cleanup of a completion is run when its frame is gone, and registered
    otherwise. *)
Lemma handleSpawnComplete_ok c r w h r' h' going d1 d2 :
  handleSpawnComplete c r w h = (Some r', h') -> handlesOk r (spawning going (d1 ++ c :: d2)) ->
  exists cs, h' = h ++ cs /\ Forall (fun c => launches c = false) cs /\
    handlesOk r' (spawning going (d1 ++ d2) ++ map Spawn_FrameID (started cs)) /\
    option_list (Done_cleanup c) ++ registered r ≡ₚ released cs ++ registered r'.
Proof.
  destruct (spawning_middle going d1 c d2) as (sp1 & sp2 & -> & ->). intros E Hok.
  unfold handleSpawnComplete in E. cbv zeta in E.
  destruct (spawnTargetAlive _ _ _) eqn:Ha; cbn [negb] in E.
  - apply spawnTargetAlive_frame in Ha.
    pose proof (ok_unregistered _ _ Hok (frameOf c) ltac:(set_solver)) as Hno.
    pose proof (stored_ok c r sp1 sp2 Ha Hok) as Hok1.
    change (storeFrameCleanup _ _ _) with (stored c r) in E. unfold mbind, Eff_bind in E.
    assert (exists r2 cs0, (if decide (Done_token c = EmptyString) then mret (stored c r)
      else registerContainerFrame (frameOf c) (Spawn_Project (Done_effect c)) (Done_containerSockDir c)
        (Done_token c) (Done_mounts c) (stored c r)) w h = (r2, h ++ cs0) /\ Forall neutral cs0 /\
      handlesOk r2 (sp1 ++ sp2) /\ registered r2 = registered (stored c r)) as (r2 & cs0 & E2 & Hn & Hok2 & Hr2).
    { case_decide.
      - exists (stored c r), []. rewrite app_nil_r. split_and!; try done.
      - pose proof (registerContainerFrame_ok (frameOf c) (Spawn_Project (Done_effect c)) (Done_containerSockDir c)
          (Done_token c) (Done_mounts c) (stored c r) w h (sp1 ++ sp2)) as H0.
        destruct (registerContainerFrame _ _ _ _ _ _ w h) as [r2 h2].
        destruct H0 as (? & ? & cs & -> & ?); [|done|by exists r2, cs].
        pose proof (stored_handles c r) as K. injection K as -> _ _ _. done. }
    unfold frameOf in E2. rewrite E2 in E. destruct (dispatch_handles _ _ _ _ _ _ _ E Hok2) as (cs & -> & H1 & H2 & H3).
    destruct (neutral_calls _ Hn) as (E3 & E4 & E5). exists (cs0 ++ cs).
    rewrite app_assoc, started_app, released_app, E3, E4. split_and!; [done|by apply Forall_app|done|].
    cbn. rewrite <- H3, Hr2. by rewrite stored_registered.
  - unfold discardSpawnResult, mbind, Eff_bind in E. cbn [call] in E. cbv zeta in E.
    rewrite callAll_run in E. cbv beta zeta iota in E.
    eapply dispatch_handles in E as (cs & -> & H1 & H2 & H3);
      [|eapply handlesOk_sub; [|exact Hok]; apply sublist_app; [done|by apply sublist_cons]].
    unfold call in *. cbn in *.
    exists ([CallKillFrame (Spawn_FrameID (Done_effect c)); CallReleaseFrame (Done_sub c) (Spawn_FrameID (Done_effect c))]
       ++ map CallCleanup (option_list (Done_cleanup c)) ++ cs).
    split_and!; [by rewrite <- !app_assoc| | |].
    + destruct (Done_cleanup c); repeat constructor; done.
    + rewrite !started_app. by destruct (Done_cleanup c).
    + rewrite !released_app, H3. by destruct (Done_cleanup c).
Qed.

(** ** Goroutines *)

(** With [mine] acquired before, in a history with [P]: [m] ends with every
    cleanup run, in the completion of [e], or lost. *)
Definition settles (w : World Call Reply) (e : SpawnRequest) (P : list Call -> Prop) (mine : list Closure)
    (m : M (Event + SpawnComplete)) : Prop :=
  forall h, P h -> exists cs, (m w h).2 = h ++ cs /\ started cs = [] /\
    mine ++ acquired_go w h cs ≡ₚ released cs ++ inFlight (completion (m w h).1) ++ lost_go w h cs /\
    Forall (fun c => Done_effect c = e) (completion (m w h).1).

Abbreviation always := (fun _ : list Call => True).

Lemma settles_always w e P mine m : settles w e always mine m -> settles w e P mine m.
Proof. intros H h _. by apply H. Qed.

Lemma settles_failed w e P msg : settles w e P [] (mret (sendFailed e msg)).
Proof. intros h _. exists []. rewrite app_nil_r. by split_and!. Qed.

Lemma settles_call w e P mine (P' : Reply -> list Call -> Prop) (mine' : Reply -> list Closure) c k :
  started [c] = [] ->
  (forall h, P h -> mine ++ acquiredBy c (w h c) ≡ₚ released [c] ++ mine' (w h c) ++ lostBy w h c) ->
  (forall t, mine' (RPanic t) = []) ->
  (forall h, P h -> P' (w h c) (h ++ [c])) ->
  (forall rep, (forall t, rep <> RPanic t) -> settles w e (P' rep) (mine' rep) (k rep)) ->
  settles w e P mine (recovering e c k).
Proof.
  intros Hs Ha Hp Hn Hk h HP. unfold recovering, mbind, Eff_bind, call.
  assert (settles w e (P' (w h c)) (mine' (w h c)) (match w h c with
    | RPanic text => mret (sendFailed e ("spawn panicked: " +:+ text)) | _ => k (w h c) end)) as H.
  { destruct (w h c) as [| |t| | | | | | | |] eqn:E; try (apply Hk; discriminate). rewrite Hp. apply settles_failed. }
  destruct (H (h ++ [c]) (Hn h HP)) as (cs & E1 & E2 & E3 & E4). exists ([c] ++ cs).
  rewrite (started_app [c] cs), (released_app [c] cs), Hs, E2. cbn [acquired_go lost_go app].
  rewrite E1, <- app_assoc. split_and!; [done|done| |done].
  rewrite app_assoc, (Ha h HP), <- !app_assoc. rewrite (app_assoc (mine' _)).
  rewrite (Permutation_app_comm (mine' _)), <- app_assoc, E3. solve_Permutation.
Qed.

(** A call that neither acquires nor releases, with nothing acquired. *)
Lemma settles_neutral w e P c k :
  neutral c -> (forall rep, settles w e always [] (k rep)) -> settles w e P [] (recovering e c k).
Proof.
  intros Hc Hk. destruct (neutral_calls [c]) as (E1 & E2 & E3); [by constructor|].
  apply (settles_call _ _ _ _ (fun _ => always) (fun _ => [])); try done.
  intros h _. rewrite E1. by destruct c.
Qed.

(** With [mine] acquired: a panic loses it. *)
Lemma settles_risk w e mine c k :
  match c with CallSpawnFrame _ _ _ _ _ | CallWriteTemp _ => True | _ => False end ->
  (forall rep, settles w e (fun h => held w h = mine) mine (k rep)) ->
  settles w e (fun h => held w h = mine) mine (recovering e c k).
Proof.
  intros Hc Hk.
  apply (settles_call _ _ _ _ (fun _ h => held w h = mine) (fun rep => match rep with RPanic _ => [] | _ => mine end)).
  - by destruct c.
  - intros h Hh. assert (released [c] = [] /\ acquiredBy c (w h c) = []) as [-> ->] by by destruct c.
    rewrite app_nil_r. unfold lostBy. destruct c; try done; destruct (w h _); rewrite ?app_nil_r; by rewrite ?Hh.
  - done.
  - intros h Hh. rewrite held_snoc. by destruct c.
  - intros rep Hr. specialize (Hk rep). destruct rep as [| |t| | | | | | | |]; try done. by destruct (Hr t).
Qed.

Lemma settles_wrap w e P fid plan env k :
  (forall rep, let mine := acquiredBy (CallWrapLaunch fid plan env) rep in
    settles w e (fun h => held w h = mine) mine (k rep)) ->
  settles w e P [] (recovering e (CallWrapLaunch fid plan env) k).
Proof.
  intros Hk. set (c := CallWrapLaunch fid plan env).
  apply (settles_call _ _ _ _ (fun rep h => held w h = acquiredBy c rep) (acquiredBy c)); try done.
  - intros h _. cbn. by rewrite app_nil_r.
  - intros h _. by rewrite held_snoc.
Qed.

Lemma settles_undo w e P cleanup sub msg :
  settles w e P (option_list cleanup) (undoSpawn e cleanup sub msg).
Proof.
  assert (forall P, settles w e P []
    (recovering e (CallReleaseFrame sub (Spawn_FrameID e)) (fun _ => mret (sendFailed e msg)))) as H.
  { intros P'. apply settles_neutral; [done|]. intros _. apply settles_failed. }
  unfold undoSpawn. destruct cleanup as [c|]; [|done].
  by apply (settles_call _ _ _ _ (fun _ => always) (fun _ => [])).
Qed.

Lemma settles_start w e sub id b wl token :
  let mine := option_list (Wrapped_Cleanup wl) in
  settles w e (fun h => held w h = mine) mine (startFrame e sub id b wl token).
Proof.
  intros mine. unfold startFrame, buildSpawnCommand.
  assert (forall cmd, settles w e (fun h => held w h = mine) mine (startCommand e sub id b wl token cmd)) as H.
  { intros cmd. apply settles_risk; [done|].
    intros rep. destruct (errOf rep) as [[m err]|]; [apply settles_undo|].
    intros h _. exists []. rewrite !app_nil_r. split_and!; [done|done| |by constructor].
    unfold mine. cbn. by destruct (Wrapped_Cleanup wl). }
  case_match; [apply H|]. case_match; [apply H|]. apply settles_risk; [done|].
  intros rep. destruct rep; apply H.
Qed.

Lemma settles_spawn w e : settles w e always [] (spawnFrameWindow e).
Proof.
  assert (forall P sub msg, settles w e P [] (undoSpawn e None sub msg)) as Hundo
    by (intros; apply (settles_undo w e _ None)).
  unfold spawnFrameWindow, ensureSubsystemOnce. cbv zeta.
  destruct (existsb _ _); [|apply settles_failed].
  apply settles_neutral; [done|]. intros [| | | | | | |sub id| | |]; try apply settles_failed.
  apply settles_neutral; [done|]. intros [| | | | | | | |b| |]; try apply settles_failed.
  unfold wrapLaunchForSpawn. apply settles_neutral; [done|].
  assert (forall env (f : Reply -> string) token, settles w e always []
    (recovering e (CallWrapLaunch (Spawn_FrameID e) (Bind_Plan b) env) (fun rep =>
      match rep with RWrapped wl => startFrame e sub id b wl token | _ => undoSpawn e None sub (f rep) end))) as Hwrap.
  { intros env f token. apply settles_wrap. intros []; try apply Hundo. apply settles_start. }
  intros [| | |[]| | | | | | |]; try apply (Hwrap _ errorText).
  apply settles_neutral; [done|].
  intros [| | | |token| | | | | |]; try apply Hundo.
  apply (Hwrap _ (fun rep => "launcher wrap: " +:+ errorText rep)).
Qed.

(** A goroutine that ended left at most its own completion. *)
Lemma spawning_ended g1 e g2 done res :
  Forall (fun c => Done_effect c = e) (completion res) ->
  exists sp, spawning (g1 ++ g2) (done ++ completion res) ≡ₚ sp /\ sublist sp (spawning (g1 ++ e :: g2) done).
Proof.
  intros H. unfold spawning. exists (map Spawn_FrameID (g1 ++ match completion res with [] => [] | _ => [e] end ++ g2)
    ++ map frameOf done). split.
  - rewrite !map_app. destruct res as [ev|c]; cbn in *; [by rewrite app_nil_r|].
    inversion H as [|? ? Hc]; subst. unfold frameOf. solve_Permutation.
  - apply sublist_app; [|done]. rewrite !map_app. apply sublist_app; [done|].
    destruct (completion res); cbn; [by apply sublist_cons|done].
Qed.

Lemma inFlight_middle d1 c d2 :
  inFlight (d1 ++ c :: d2) ≡ₚ option_list (Done_cleanup c) ++ inFlight (d1 ++ d2).
Proof.
  unfold inFlight. rewrite !omap_app. cbn. destruct (Done_cleanup c) as [x|]; cbn; [|done].
  by rewrite <- Permutation_middle.
Qed.

(** ** Every step keeps the invariant *)

Lemma sysStep_ok w s s' : sysStep w s s' -> sysOk s -> sysOk s' /\ accounted w s s'.
Proof.
  intros Hs. destruct Hs as [r h going done i r' cs Hi E|r h g1 e g2 done res h' E|r h going d1 c d2 r' cs E];
    unfold sysOk, accounted, holds; cbn [S_rt S_hist S_going S_done]; intros Hok.
  - destruct (iterate_advances _ _ _ _ _ _ _ Hi E Hok) as (cs' & ->%app_inv_head & Hok' & Hq & Hr).
    split; [by rewrite spawning_started|]. exists cs'. split; [done|].
    rewrite (acquired_none _ _ _ Hq), (lost_none _ _ _ Hq), !app_nil_r, Hr. by rewrite <- !app_assoc.
  - destruct (settles_spawn w e h I) as (cs & E1 & E2 & E3 & E4).
    rewrite E in E1, E3, E4. cbn [fst snd] in *. subst h'. split.
    + destruct (spawning_ended g1 e g2 done res E4) as (sp & -> & Hsub). by eapply handlesOk_sub.
    + exists cs. split; [done|]. unfold inFlight in *. cbn in E3. rewrite E3, omap_app. solve_Permutation.
  - destruct (handleSpawnComplete_ok _ _ _ _ _ _ _ _ _ E Hok) as (cs' & ->%app_inv_head & Hq & Hok' & Hr).
    split; [by rewrite spawning_started|]. exists cs'. split; [done|].
    rewrite (acquired_none _ _ _ Hq), (lost_none _ _ _ Hq), !app_nil_r.
    rewrite inFlight_middle, (app_assoc (released cs')), <- Hr. solve_Permutation.
Qed.

Lemma accounted_trans w s1 s2 s3 : accounted w s1 s2 -> accounted w s2 s3 -> accounted w s1 s3.
Proof.
  intros (c1 & E1 & H1) (c2 & E2 & H2). exists (c1 ++ c2). split; [by rewrite E2, E1, app_assoc|].
  rewrite acquired_go_app, released_app, lost_go_app, app_assoc, H1. rewrite E1 in H2.
  rewrite <- !app_assoc. f_equiv. rewrite (Permutation_app_comm (lost_go _ _ c1)), app_assoc, H2. solve_Permutation.
Qed.

Lemma reached_ok w s s' : rtc (sysStep w) s s' -> sysOk s -> sysOk s' /\ accounted w s s'.
Proof.
  induction 1 as [s|s1 s2 s3 H _ IH]; intros Hok.
  - split; [done|]. exists []. cbn. by rewrite !app_nil_r.
  - destruct (sysStep_ok _ _ _ H Hok) as [Hok2 Ha]. destruct (IH Hok2) as [Hok3 Ha'].
    split; [done|]. by eapply accounted_trans.
Qed.
End sys.
