(* ===== verification/RuntimeDurable.v ===== *)
(** * client/runtime: the session files follow the sessions

    After each event the files of the sessions directory are those of the
    sessions, when no operation of the disk fails; whatever fails, a file holds
    a whole snapshot. *)

From S2P Require Import Prelude GoStd GoText GoTime GoIO GoJson GoMarshal GoPath GoDisk Pathmap ClientView ClientState ClientReduce ClientInv ClientGraph ClientSteps ClientRollback FrameReg RuntimePersist RuntimeStore Runtime RuntimeInv.
Open Scope Z_scope.

Import filepath os indent.

(** ** Warm files *)

Lemma Join_slash d x : d <> EmptyString -> plain x -> Join [d; "/" +:+ x] = Join [d; x].
Proof.
  intros Hd Hx. assert (forall y, Clean (Join [d; y]) = Join [d; y]) as Hc.
  { intros y. cbn [Join]. rewrite decide_False by done. apply Clean_idem. }
  destruct (Join_comps d ("/" +:+ x) Hd) as [R1 C1]. destruct (Join_comps d x Hd) as [R2 C2].
  apply clean_ext; [apply Hc..|by rewrite R1, R2|]. rewrite C1, C2, slash_app.
  rewrite <- (str_app_nil_l (String.String "/" x)), split_sep. cbn [Strings.Split app clean_go].
  by rewrite decide_True by auto.
Qed.

(** A warm file is directly in its directory. *)
Lemma warm_path dir fid : dir <> EmptyString ->
  exists name, plain name /\ plain (name +:+ ".tmp") /\ warm.path dir fid = Join [dir; name].
Proof.
  intros Hd. assert (forall b, Strings.ContainsByte b "/" = false ->
    plain (b +:+ ".json") /\ plain ((b +:+ ".json") +:+ ".tmp")) as Hb.
  { intros b Hb. split; [|rewrite str_app_assoc]; (apply plain_long; [done|by vm_compute|vm_compute; lia]). }
  unfold warm.path, Base. destruct (decide (fid = EmptyString)).
  { exists ("." +:+ ".json")%string. by split_and!; [apply Hb..|]. }
  cbv zeta. set (b := default _ _). destruct (decide (b = EmptyString)) as [|Hne].
  { exists ".json"%string. split_and!; [apply (Hb EmptyString)..|]; try done. by apply (Join_slash dir ".json"). }
  exists (b +:+ ".json"). split_and!; try done; apply Hb.
  all: unfold b; destruct (last _) as [x|] eqn:E; [|done]; cbn;
    apply last_Some in E as [l E];
    pose proof (split_noslash (Strings.TrimRight fid ["/"%char])) as H; rewrite E in H;
    apply Forall_app in H as [_ H]; by apply Forall_cons in H as [? _].
Qed.

Section durable.
Context {T : ClientTypes} {RT : RuntimeTypes} {MR : MapRange} {D : Deps}.

Abbreviation p := (Cfg_Persist cfg).

(** The directories of a daemon: absolute, and apart. *)
Record placed : Prop := {
  placed_sessions : Clean (persist.dir p) = persist.dir p;
  placed_named : persist.dir p <> EmptyString;
  placed_warm dir : Cfg_Warm cfg = Some dir -> Clean dir = dir /\ dir <> EmptyString /\ dir <> persist.dir p;
}.

(** The snapshots of the sessions, and whether they can be written. *)
Definition snapshots (m : gmap string Session) : gmap string SessionSnapshot := snapshotSession <$> m.
Definition storable (m : gmap string Session) : Prop :=
  forall id sess, m !! id = Some sess ->
  sane (snapshotSession sess) /\ Snap_ID (snapshotSession sess) = id /\ id <> EmptyString.

Lemma storable_keyed m : storable m -> keyed (snapshots m).
Proof.
  intros H id s. unfold snapshots. rewrite lookup_fmap_Some. intros (sess & <- & E).
  destruct (H _ _ E) as (? & ? & ?). done.
Qed.

Lemma storable_text m id data : storable m -> textOf <$> snapshots m !! id = Some data ->
  exists s, sane s /\ Snap_ID s = id /\ data = textOf s.
Proof.
  intros Hs. unfold snapshots. rewrite lookup_fmap. destruct (m !! id) as [sess|] eqn:E; [|done].
  intros [= <-]. destruct (Hs _ _ E) as (? & ? & _). eauto.
Qed.

Lemma snapshotSessions_elem (s : State) snap :
  snap ∈ snapshotSessions s <-> exists id sess, Sessions s !! id = Some sess /\ snap = snapshotSession sess.
Proof.
  unfold snapshotSessions. rewrite list_elem_of_fmap. split.
  - intros ([id sess] & -> & Hin). rewrite mapRange_perm in Hin. apply elem_of_map_to_list in Hin. eauto.
  - intros (id & sess & E & ->). exists (id, sess). split; [done|]. rewrite mapRange_perm.
    by apply elem_of_map_to_list.
Qed.

Lemma snapshotSessions_NoDup (s : State) : storable (Sessions s) ->
  NoDup (map Snap_ID (snapshotSessions s)).
Proof.
  intros Hs. unfold snapshotSessions. rewrite map_map.
  assert (forall l : list (string * Session), (forall kv, kv ∈ l -> Sessions s !! kv.1 = Some kv.2) ->
    map (fun kv => Snap_ID (snapshotSession kv.2)) l = map fst l) as H.
  { intros l Hl. apply map_ext_in. intros [id sess] Hin%list_elem_of_In. by apply Hl, Hs in Hin as (_ & ? & _). }
  rewrite H.
  - pose proof (NoDup_fst_map_to_list (Sessions s)) as Hn. by rewrite <- mapRange_perm in Hn.
  - intros [id sess] Hin. rewrite mapRange_perm in Hin. by apply elem_of_map_to_list in Hin.
Qed.

(** A file is as before, or holds the snapshot of its session in [m]. *)
Definition updates (m : gmap string Session) (d d' : Disk) : Prop :=
  forall id, stored p d' id = stored p d id \/ stored p d' id = textOf <$> snapshots m !! id /\ is_Some (m !! id).

#[export] Instance updates_PreOrder m : PreOrder (updates m).
Proof.
  split; [by left|]. intros d1 d2 d3 H1 H2 id. destruct (H2 id) as [ ->|?]; [apply H1|by right].
Qed.

Lemma Save_updates (s : State) d : placed -> storable (Sessions s) ->
  let '(r, d') := persist.Save fault p (snapshotSessions s) d in
  updates (Sessions s) d d' /\
  (r = None -> forall id, is_Some (Sessions s !! id) -> stored p d' id = textOf <$> snapshots (Sessions s) !! id).
Proof.
  intros Hp Hs. destruct (persist.Save _ _ _ _) as [r d'] eqn:E.
  assert (forall id sess, Sessions s !! id = Some sess -> Some (textOf (snapshotSession sess)) = textOf <$> snapshots (Sessions s) !! id) as Ht.
  { intros id sess H. unfold snapshots. by rewrite lookup_fmap, H. }
  apply Save_spec in E as (H1 & _ & _ & H2); [|apply Hp..|].
  - split.
    + intros id. destruct (H1 id) as [?|(snap & (id' & sess & El & ->)%snapshotSessions_elem & Eid & ->)]; [by left|right].
      destruct (Hs _ _ El) as (_ & E2 & _). rewrite Eid in E2. subst id'. split; [by apply Ht|by eexists].
    + intros Hr id [sess El]. rewrite <- (Ht _ _ El). destruct (Hs _ _ El) as (_ & E2 & _). rewrite <- E2 at 1.
      apply H2; [done|by apply snapshotSessions_NoDup|]. apply snapshotSessions_elem. eauto.
  - apply Forall_forall. intros snap (id & sess & El & ->)%snapshotSessions_elem. by destruct (Hs _ _ El) as ([] & _).
Qed.

(** Other directories do not matter. *)
Lemma stored_other d fs id : (forall k, k.1 = persist.dir p -> fs !! k = files d !! k) ->
  stored p (d <| files := fs |>) id = stored p d id.
Proof. intros H. unfold stored. cbn. by apply H. Qed.

Lemma forgetWarm_stored fid d id : placed -> stored p (forgetWarm fid d) id = stored p d id.
Proof.
  intros Hp. unfold forgetWarm. destruct (Cfg_Warm cfg) as [dir|] eqn:Ew; [|done].
  destruct (placed_warm Hp dir Ew) as (Hc & Hd & Hne). destruct (warm_path dir fid Hd) as (name & Hn & _ & Ep).
  unfold warm.Delete. rewrite Ep. unfold mbind, IO_bind, Remove, perform, mret, IO_ret. rewrite locate_Join by done.
  destruct (fault (ops d) _); [done|].
  destruct (files d !! (dir, name)); cbn; [|done].
  unfold stored. cbn. rewrite lookup_delete_ne; [done|]. intros [= ? ?]. done.
Qed.

(** ** The effects of an event *)

Lemma effects_update (s : State) effs : placed -> storable (Sessions s) -> forall d,
  updates (Sessions s) d (foldl (fun d eff => diskAfter s eff d) d effs).
Proof.
  intros Hp Hs. induction effs as [|eff effs IH]; intros d; [done|]. cbn [foldl]. etrans; [|apply IH].
  destruct eff; cbn [diskAfter]; try done.
  - intros id. left. by apply forgetWarm_stored.
  - pose proof (Save_updates s d Hp Hs) as H. destruct (persist.Save _ _ _ _). by destruct H.
Qed.

(** ** Reconciliation *)

Lemma deleteSession_disk id r : placed -> idOk id -> id <> EmptyString ->
  (forall id', id' <> id -> stored p (R_disk (deleteSession id r)) id' = stored p (R_disk r) id') /\
  (stored p (R_disk (deleteSession id r)) id = None \/
   stored p (R_disk (deleteSession id r)) id = stored p (R_disk r) id) /\
  ((forall n o, fault n o = None) -> stored p (R_disk (deleteSession id r)) id = None).
Proof.
  intros Hp Hid Hne. unfold deleteSession. cbn. destruct (persist.Delete _ _ _ _) as [e d'] eqn:E.
  pose proof E as E1. apply delete_files in E1 as (_ & H1 & H2); [|apply Hp|apply Hp|done|done]. cbn. split_and!; [done| |].
  - rewrite H2. destruct e; [by right|by left].
  - intros Hf. rewrite H2. destruct e as [e|]; [|done]. exfalso. revert E. unfold persist.Delete.
    rewrite decide_False by done. unfold mbind, IO_bind, Remove, perform, mret, IO_ret. rewrite Hf.
    destruct (files (R_disk r) !! _); cbn; congruence.
Qed.

Lemma deletes_disk ids : placed -> Forall (fun id => idOk id /\ id <> EmptyString) ids -> forall r id,
  let d' := R_disk (foldl (fun r id => deleteSession id r) r ids) in
  (id ∉ ids -> stored p d' id = stored p (R_disk r) id) /\
  (stored p d' id = None \/ stored p d' id = stored p (R_disk r) id) /\
  ((forall n o, fault n o = None) -> id ∈ ids -> stored p d' id = None).
Proof.
  intros Hp. induction 1 as [|i ids [Hi Hne] _ IH]; intros r id; cbn zeta.
  { split_and!; [done|by right|]. intros _ H. by apply elem_of_nil in H. }
  cbn [foldl]. destruct (IH (deleteSession i r) id) as (I1 & I2 & I3).
  destruct (deleteSession_disk i r Hp Hi Hne) as (D1 & D2 & D3). cbn zeta in *. split_and!.
  - intros [Hn1 Hn2]%not_elem_of_cons. by rewrite I1, D1.
  - destruct I2 as [?| ->]; [by left|]. destruct (decide (id = i)) as [ ->|]; [done|right; by apply D1].
  - intros Hf [ ->|Hin]%elem_of_cons; [|auto]. destruct I2 as [?| ->]; auto.
Qed.

Lemma removed_elem (prev next : gmap string Session) id :
  id ∈ List.filter (fun id => negb (is_some (next !! id))) (map fst (mapRange prev)) <->
  is_Some (prev !! id) /\ next !! id = None.
Proof.
  rewrite list_elem_of_In, filter_In, <- list_elem_of_In, list_elem_of_fmap. split.
  - intros [([k v] & -> & Hin) Hn]. rewrite mapRange_perm in Hin. apply elem_of_map_to_list in Hin.
    cbn in *. split; [by eexists|]. by destruct (next !! k).
  - intros [[v Hv] Hn]. rewrite Hn. split; [|done]. exists (id, v). split; [done|].
    rewrite mapRange_perm. by apply elem_of_map_to_list.
Qed.

Lemma removed_ok (prev next : gmap string Session) : storable prev ->
  Forall (fun id => idOk id /\ id <> EmptyString)
    (List.filter (fun id => negb (is_some (next !! id))) (map fst (mapRange prev))).
Proof.
  intros Hs. apply Forall_forall. intros id [[sess E] _]%removed_elem.
  destruct (Hs _ _ E) as ([_ Hid] & <- & Hne). done.
Qed.

(** [sameSessionMap] compares the headers of two maps. *)
Definition headersMatch : Prop := forall a b, sameSessionMap a b = true -> a = b.

Lemma reconcilePersist_disk prev next r : placed -> storable prev -> storable next ->
  Sessions (R_state r) = next ->
  forall id, let d' := R_disk (reconcilePersist prev next r) in
  (stored p d' id = None \/ stored p d' id = stored p (R_disk r) id \/
   stored p d' id = textOf <$> snapshots next !! id /\ is_Some (next !! id)) /\
  ((forall n o, fault n o = None) -> headersMatch ->
   (forall id, stored p (R_disk r) id = textOf <$> snapshots prev !! id \/
               stored p (R_disk r) id = textOf <$> snapshots next !! id) ->
   stored p d' id = textOf <$> snapshots next !! id).
Proof.
  intros Hp Hs Hs' <- id. cbn zeta. unfold reconcilePersist. destruct (sameSessionMap _ _) eqn:Hm.
  { split; [auto|]. intros _ Hh H. apply Hh in Hm as ->. destruct (H id); done. }
  set (ids := List.filter _ _). set (r1 := foldl _ r ids).
  assert (R_state r1 = R_state r) as Er.
  { unfold r1. generalize ids. clear. intros ids. revert r. induction ids as [|i ids IH]; intros r; [done|]. cbn. by rewrite IH. }
  destruct (deletes_disk ids Hp (removed_ok _ _ Hs) r id) as (D1 & D2 & D3). cbn zeta in *. fold r1 in D1, D2, D3.
  assert (forall id, (forall n o, fault n o = None) ->
    (stored p (R_disk r) id = textOf <$> snapshots prev !! id \/
     stored p (R_disk r) id = textOf <$> snapshots (Sessions (R_state r)) !! id) ->
    Sessions (R_state r) !! id = None -> stored p (R_disk r1) id = None) as Hgone.
  { clear D1 D2 D3. intros id' Hf Hst Hn. destruct (deletes_disk ids Hp (removed_ok _ _ Hs) r id') as (D1 & D2 & D3).
    cbn zeta in *. fold r1 in D1, D2, D3. destruct (decide (id' ∈ ids)) as [Hin|Hni]; [auto|].
    rewrite D1 by done. unfold ids in Hni. rewrite removed_elem in Hni. unfold snapshots in Hst.
    rewrite !lookup_fmap, Hn in Hst. destruct (prev !! id') eqn:E; [|by destruct Hst].
    destruct Hni. split; [by eexists|done]. }
  case_decide as He.
  - split; [naive_solver|]. intros Hf _ H. rewrite He in *. unfold snapshots. rewrite fmap_empty, lookup_empty.
    apply Hgone; [done|auto|by apply lookup_empty].
  - unfold saveSessions. cbn [R_disk]. cbn. rewrite Er.
    pose proof (Save_updates (R_state r) (R_disk r1) Hp Hs') as H.
    pose proof (Save_faultless fault p (placed_sessions Hp) (placed_named Hp) (snapshotSessions (R_state r)) (R_disk r1)) as Hok.
    destruct (persist.Save _ _ _ _) as [e d']. destruct H as [H1 H2]. cbn [fst snd] in *. split.
    + destruct (H1 id) as [ ->|?]; naive_solver.
    + intros Hf _ H. destruct (Sessions (R_state r) !! id) as [sess|] eqn:El.
      * apply H2; [|by eexists]. apply Hok; [done|]. apply Forall_forall.
        intros snap (id' & sess' & El' & ->)%snapshotSessions_elem. by destruct (Hs' _ _ El') as ([] & _).
      * destruct (H1 id) as [ ->|[_ Hs1]]; [|rewrite El in Hs1; by destruct Hs1].
        unfold snapshots. rewrite lookup_fmap, El. apply Hgone; auto.
Qed.

(** ** Events *)

Record follows (r r' : Runtime) : Prop := {
  follows_sound : sound p (R_disk r) -> sound p (R_disk r');
  follows_mirrors : (forall n o, fault n o = None) -> headersMatch ->
    mirrors p (R_disk r) (snapshots (Sessions (R_state r))) ->
    mirrors p (R_disk r') (snapshots (Sessions (R_state r')));
}.

Lemma dispatch_disk ev r w h r' h' : placed ->
  storable (Sessions (R_state r)) -> storable (Sessions (R_state r')) ->
  dispatch ev r w h = (Some r', h') -> follows r r'.
Proof.
  intros Hp Hs Hs' E. pose proof (dispatch_spec ev r w h) as H.
  destruct (Reduce _ _ _ _ _ ev) as [[[next effs] rng]|]; [|by rewrite E in H].
  destruct H as (r1 & cs & E1 & Hran). rewrite E1 in E. injection E as <- <-.
  pose proof (reconcilePersist_handles (Sessions (R_state r)) (Sessions next) r1) as K. injection K as K _ _ _.
  destruct Hran as [_ _ Hst _ Hd _ _ _ _]. cbn in Hst, Hd. rewrite K, Hst in Hs'.
  pose proof (effects_update next effs Hp Hs' (R_disk r)) as Hu. rewrite <- Hd in Hu.
  pose proof (reconcilePersist_disk _ _ r1 Hp Hs Hs' (f_equal Sessions Hst)) as Hr. split.
  - intros Hsound id data Hid. destruct (Hr id) as [[E|[E|[E _]]] _]; rewrite E in Hid;
      [done| |by eapply storable_text].
    destruct (Hu id) as [E2|[E2 _]]; rewrite E2 in Hid; [by apply Hsound|by eapply storable_text].
  - intros Hf Hh Hm id. rewrite K, Hst. apply (proj2 (Hr id)); [done|done|]. intros id'. rewrite <- Hm. destruct (Hu id') as [?|[? _]]; auto.
Qed.

(** As far as the session files go, nothing happened. *)
Definition unmoved (r r' : Runtime) : Prop :=
  R_state r' = R_state r /\ forall id, stored p (R_disk r') id = stored p (R_disk r) id.

Lemma unmoved_core r r' : core r' = core r -> unmoved r r'.
Proof. intros K. injection K as K1 _ _ _ K2. split; [done|]. by rewrite K2. Qed.

Lemma unmoved_follows r r' : unmoved r r' -> follows r r'.
Proof.
  intros [Es Ed]. split.
  - intros H id data. rewrite Ed. apply H.
  - intros _ _ H id. by rewrite Ed, Es.
Qed.

Lemma unmoved_dispatch ev r r0 w h r' h' : placed -> unmoved r r0 ->
  storable (Sessions (R_state r)) -> storable (Sessions (R_state r')) ->
  dispatch ev r0 w h = (Some r', h') -> follows r r'.
Proof.
  intros Hp [Es Ed] Hs Hs' E. rewrite <- Es in Hs. destruct (dispatch_disk _ _ _ _ _ _ Hp Hs Hs' E) as [F1 F2]. split.
  - intros H. apply F1. intros id data. rewrite Ed. apply H.
  - intros Hf Hh H. apply F2; [done..|]. intros id. by rewrite Ed, Es.
Qed.

Lemma keeps_unmoved r m w h r' h' : keeps r m -> m w h = (r', h') -> unmoved r r'.
Proof. intros Hk E. destruct (Hk w h) as (cs & _ & _ & K). rewrite E in K. by apply unmoved_core. Qed.

(** A warm file is written next to the others. *)
Lemma warmSave_stored dir st d id : placed -> Cfg_Warm cfg = Some dir ->
  stored p (warm.Save fault dir st d).2 id = stored p d id.
Proof.
  intros Hp Ew. destruct (placed_warm Hp dir Ew) as (Hc & Hd & Hne).
  destruct (warm_path dir (warm.WF_FrameID st) Hd) as (name & Hn & Hnt & Ep).
  unfold warm.Save. destruct (MarshalIndent _) as [data|]; [|done]. cbv zeta. rewrite Ep.
  rewrite Join_suffix by done. unfold mbind, IO_bind, WriteFile, Rename, perform, mret, IO_ret.
  rewrite !locate_Join by done.
  assert (forall d n v, stored p (d <| files := <[(dir, n) := v]> (files d) |>) id = stored p d id) as H1.
  { intros d0 n v. unfold stored. cbn. rewrite lookup_insert_ne; [done|]. by intros [= ? ?]. }
  assert (forall d n fs, (forall k, k.1 = persist.dir p -> fs !! k = files d !! k) ->
    stored p (d <| files := delete (dir, n) fs |>) id = stored p d id) as H2.
  { intros d0 n fs H. unfold stored. cbn. rewrite lookup_delete_ne; [by apply H|]. by intros [= ? ?]. }
  destruct (fault (ops d) _) as [f|].
  { cbn. destruct (Fault_torn f); [apply H1|done]. }
  case_decide; [|done]. cbv beta iota zeta. set (d1 := tick _).
  assert (stored p d1 id = stored p d id) as E1 by apply H1.
  destruct (fault (ops d1) _) as [f|]; [exact E1|].
  destruct (files d1 !! _) as [v|]; [|exact E1]. cbn [snd]. rewrite <- E1.
  unfold stored. cbn. rewrite lookup_insert_ne by (by intros [= ? ?]). rewrite lookup_delete_ne by (by intros [= ? ?]). done.
Qed.

Lemma registerContainerFrame_unmoved fid project dir token ms r w h : placed ->
  unmoved r (registerContainerFrame fid project dir token ms r w h).1.
Proof.
  intros Hp. unfold registerContainerFrame, startContainerEndpointIfNeeded, mbind, Eff_bind, mret, Eff_ret, call. cbn.
  destruct (decide (project ∈ _)); [|destruct (failedReply _)]; destruct (Cfg_Warm cfg) as [wd|] eqn:Ew; cbn;
    (split; [done|]); intros id; cbn; try done; by rewrite warmSave_stored.
Qed.

Lemma handleSpawnComplete_disk c r w h r' h' : placed ->
  storable (Sessions (R_state r)) -> storable (Sessions (R_state r')) ->
  handleSpawnComplete c r w h = (Some r', h') -> follows r r'.
Proof.
  intros Hp Hs Hs' E. unfold handleSpawnComplete in E. cbv zeta in E. destruct (negb _).
  - unfold discardSpawnResult, mbind, Eff_bind in E. destruct (call _ w h) as [? h1].
    destruct (callAll _ w h1) as [? h2]. by eapply dispatch_disk.
  - unfold mbind, Eff_bind in E. set (r1 := storeFrameCleanup _ _ _) in E.
    assert (unmoved r r1) as H1 by (split; [|intros id]; unfold r1, storeFrameCleanup; by destruct (Done_cleanup c)).
    destruct (decide (Done_token c = EmptyString)).
    + eapply unmoved_dispatch; [done|exact H1|done|done|exact E].
    + pose proof (registerContainerFrame_unmoved (Spawn_FrameID (Done_effect c)) (Spawn_Project (Done_effect c))
        (Done_containerSockDir c) (Done_token c) (Done_mounts c) r1 w h Hp) as H2.
      destruct (registerContainerFrame _ _ _ _ _ r1 w h) as [r2 h2]. cbn in H2.
      eapply unmoved_dispatch; [done| |done|done|exact E]. destruct H1 as [A1 A2], H2 as [B1 B2].
      split; [congruence|]. intros id. by rewrite B2, A2.
Qed.

Lemma iterate_disk i r w h r' h' : placed ->
  storable (Sessions (R_state r)) -> storable (Sessions (R_state r')) ->
  iterate i r w h = (Some r', h') -> follows r r'.
Proof.
  intros Hp Hs Hs' E. assert (forall ev r0, unmoved r r0 -> forall h, dispatch ev r0 w h = (Some r', h') -> follows r r') as Hd.
  { intros ev r0 Hu h0 Ed. by eapply unmoved_dispatch. }
  assert (forall m : Eff Call Reply Runtime, keeps r m -> (m ≫= (fun r => mret (Some r))) w h = (Some r', h') -> follows r r') as Hk.
  { intros m Hm Em. unfold mbind, Eff_bind in Em. destruct (m w h) as [r1 h1] eqn:Em1. injection Em as <- <-.
    by eapply unmoved_follows, keeps_unmoved. }
  destruct i as [ev|ev|now|job res err|fid path]; cbn [iterate] in E; try (by eapply Hd; [|exact E]).
  destruct ev; cbn [dispatchInternal] in E.
  - by eapply Hd; [|exact E].
  - unfold handleConnClose, mbind, Eff_bind in E. destruct (closeConn id r w h) as [r1 h1] eqn:E1.
    eapply Hd; [|exact E]. eapply keeps_unmoved; [apply closeConn_keeps|exact E1].
  - eapply (Hk (_ ← syncRelayWatches _; mret (r <| R_relay := true |>))); [|rewrite Eff_assoc; exact E].
    apply keeps_bind_only; [apply syncRelayWatches_only|]. intros _. by apply keeps_ret.
  - eapply Hk; [|exact E]. apply broadcastWire_keeps.
  - eapply Hk; [|exact E]. unfold startRestoredTaps. apply keeps_foldM. intros kv r0.
    case_match; [quiet|apply tapStart_keeps].
  - by eapply handleSpawnComplete_disk.
  - eapply Hk; [|exact E]. apply queueWire_keeps.
  - destruct (Cfg_SurfaceBackend cfg); by eapply Hd; [|exact E].
Qed.
End durable.
