(* ===== verification/RuntimeBoot.v ===== *)
(** * client/runtime: start of the daemon

    [LoadSnapshot] and the other steps of [bootSession], which run before the
    loop: sessions are read back from their files, containers that outlived the
    last daemon are adopted, drivers resume, and every frame is spawned again.
    No call panics here. *)

From S2P Require Import Prelude GoStd GoText GoTime GoIO GoPath GoDisk Pathmap ClientView ClientState ClientReduce FrameReg RuntimePersist RuntimeStore Worktree Runtime RuntimeInv RuntimeDurable.
Open Scope Z_scope.

Import filepath os.

Section boot.
Context {T : ClientTypes} {RT : RuntimeTypes} {MR : MapRange} {D : Deps}.
Abbreviation M := (Eff Call Reply).

(** [New]; the warm store is part of [cfg]. *)
Definition New (features : gmap string bool) (disk : Disk) : Runtime :=
  mkRuntime (ClientState.New <| Features := features |>) 0 disk ∅ 0 false 0 ∅ ∅ framereg.New ∅ ∅ ∅ ∅.

Definition now_ : M Time := rep ← call CallNow; mret match rep with RTime t => t | _ => 0 end.

(** ** Sessions from their files (bootstrap.go) *)

Definition coldStartRecoverable (drv : Driver) (ds : DriverState) : bool :=
  match Driver_ColdStartRecoverer drv with
  | Some recoverable => is_some ds && recoverable ds
  | None => false
  end.

(** A frame that was running waits after a cold start; a nil map reads as an
    empty one. *)
Definition restoredBag (coldStart : bool) (bag : option (gmap string string)) : gmap string string :=
  let m := default ∅ bag in
  if coldStart && bool_decide (m !! "status"%string = Some "running"%string)
  then <["status"%string := "waiting"%string]> m else m.

Definition orDefault (s d : string) : string := if decide (s = EmptyString) then d else s.

(** A time that does not parse is zero. *)
Definition parsedTime (s : string) (fallback : Time) : Time :=
  let t := default 0 (rfc3339.Parse s) in
  if time.IsZero t then fallback else t.

Definition restoreFrame (f : SessionFrameSnapshot) (createdAt : Time) (ds : DriverState) : SessionFrame :=
  mkSessionFrame (FSnap_ID f) (orDefault (FSnap_SubsystemID f) (FSnap_ID f))
    (orDefault (FSnap_TargetID f) (FSnap_ID f)) (FSnap_Project f) (FSnap_Command f)
    (FSnap_LaunchOptions f) (parsedTime (FSnap_CreatedAt f) createdAt) ds.

(** A command without a driver ends the frames; a stopped frame is dropped at a
    cold start unless its driver can recover it. *)
Fixpoint restoreFrames (coldStart : bool) (now createdAt : Time) (fs : list SessionFrameSnapshot)
    : list SessionFrame :=
  match fs with
  | [] => []
  | f :: fs =>
    match GetDriver reg (FSnap_Command f) with
    | None => []
    | Some drv =>
      let ds := Driver_Restore drv (restoredBag coldStart (FSnap_DriverState f)) now in
      let frames := restoreFrames coldStart now createdAt fs in
      if coldStart && bool_decide (Driver_Status drv ds = StatusStopped) && negb (coldStartRecoverable drv ds)
      then frames else restoreFrame f createdAt ds :: frames
    end
  end.

Definition restoreSession (snap : SessionSnapshot) (coldStart : bool) (now : Time) : option Session :=
  let createdAt := parsedTime (Snap_CreatedAt snap) now in
  let frames := restoreFrames coldStart now createdAt (Snap_Frames snap) in
  match frames with
  | [] => None
  | root :: _ =>
    Some (mkSession (Snap_ID snap) (Snap_Project snap) createdAt frames
      (if decide (Snap_HeadFrameID snap = EmptyString)
       then match last frames with Some f => Frame_ID f | None => "" end else Snap_HeadFrameID snap)
      (Snap_MRUFrameIDs snap) (Frame_Command root) (Snap_Sandbox snap) (Frame_LaunchOptions root)
      (Frame_Driver root))
  end.

(** A snapshot without frames is deleted at a cold start. *)
Definition loadOne (coldStart : bool) (now : Time) (r : Runtime) (snap : SessionSnapshot) : Runtime :=
  match restoreSession snap coldStart now with
  | Some sess =>
    r <| R_state := R_state r <| Sessions := <[Session_ID sess := sess]> (Sessions (R_state r)) |> |>
  | None => if coldStart then deleteSession (Snap_ID snap) r else r
  end.

(** The error is that of the store. *)
Definition LoadSnapshot (coldStart : bool) (r : Runtime) : M (Runtime * option string) :=
  let '(res, d) := persist.Load fault (Cfg_Persist cfg) (R_disk r) in
  let r := r <| R_disk := d |> in
  match res with
  | inr err => mret (r, Some err)
  | inl snaps => now ← now_; mret (fold_left (loadOne coldStart now) snaps r, None)
  end.

(** ** Containers that are still there (bootstrap.go) *)

Fixpoint recoverTokens (dir : string) (live : gset string) (states : list warm.WarmFrameState)
    (out : gmap string string) (r : Runtime) : gmap string string * Runtime :=
  match states with
  | [] => (out, r)
  | st :: states =>
    if decide (warm.WF_FrameID st ∈ live) then
      let out := if decide (warm.WF_ContainerToken st = EmptyString) then out
                 else <[warm.WF_FrameID st := warm.WF_ContainerToken st]> out in
      recoverTokens dir live states out r
    else
      recoverTokens dir live states out
        (r <| R_disk := (warm.Delete fault dir (warm.WF_FrameID st) (R_disk r)).2 |>)
  end.

Definition frameIDs (s : State) : list FrameID :=
  mapRange (Sessions s) ≫= fun kv => map Frame_ID (Session_Frames kv.2).

Definition recoverWarmTokens (r : Runtime) : gmap string string * Runtime :=
  match Cfg_Warm cfg with
  | None => (∅, r)
  | Some dir =>
    let '(res, d) := warm.LoadAll fault dir (R_disk r) in
    let states := match res with inl states => states | inr _ => [] end in
    recoverTokens dir (list_to_set (frameIDs (R_state r))) states ∅ (r <| R_disk := d |>)
  end.

(** [%x] of the first six bytes of the hash. *)
Definition ProjectRunDir (runBase projectPath : string) : string :=
  Join [runBase; sha256.hex (take 6 (sha256.Sum256 projectPath))].

Definition sandboxed (s : State) (project : string) : bool :=
  match SandboxedProject s with Some f => f project | None => false end.

(** Without a devcontainer launcher the key is the project. *)
Definition adoptEndpoint (project : string) (r : Runtime) : M Runtime :=
  if sandboxed (R_state r) project && negb (bool_decide (Cfg_DataDir cfg = EmptyString)) then
    rep ← call (CallRunDirKey project);
    let key := match rep with RText key => key | _ => project end in
    let runDir := ProjectRunDir (Join [Cfg_DataDir cfg; "run"%string]) key in
    startContainerEndpointIfNeeded project (ContainerSockPath runDir) r
  else mret r.

Definition adoptFrame (warmTokens : gmap string string) (frame : SessionFrame)
    (acc : Runtime * gset string) : M (Runtime * gset string) :=
  let '(r, adopted) := acc in
  let fid := Frame_ID frame in
  rep ← call (CallAdoptFrame fid (Frame_Project frame));
  match rep with
  | RAdopted cleanup mounts =>
    let r := storeFrameCleanup r fid cleanup in
    let tok := default EmptyString (warmTokens !! fid) in
    let r := if decide (tok = EmptyString) then
               match mounts with
               | [] => r
               | _ => r <| R_frameReg := framereg.StoreMounts (R_frameReg r) fid mounts |>
               end
             else r <| R_frameReg := framereg.RegisterWithMounts (R_frameReg r) fid tok mounts |> in
    r ← adoptEndpoint (Frame_Project frame) r;
    mret (r, {[fid]} ∪ adopted)
  | _ => mret (r, adopted)
  end.

Definition RecoverSandboxFrames (r : Runtime) : M (Runtime * gset string) :=
  let '(warmTokens, r) := recoverWarmTokens r in
  foldM (adoptFrame warmTokens)
    (mapRange (Sessions (R_state r)) ≫= fun kv => Session_Frames kv.2) (r, ∅).

(** ** Drivers that resume (bootstrap.go) *)

Definition bootstrapSessionEffect (sessID : SessionID) (frameID : FrameID) (now : Time) (eff : Effect)
    (s : State) : Effect * State :=
  match eff with
  | EffStartJob _ input =>
    let jobID := wrapu64 (NextJobID s + 1) in
    (EffStartJob jobID input,
     s <| NextJobID := jobID |> <| Jobs := <[jobID := mkJobMeta sessID frameID now]> (Jobs s) |>)
  | EffEventLogAppend fid line => (EffEventLogAppend (orDefault fid frameID) line, s)
  | EffWatchFile fid path kind => (EffWatchFile (orDefault fid frameID) path kind, s)
  | EffUnwatchFile fid => (EffUnwatchFile (orDefault fid frameID), s)
  | _ => (eff, s)
  end.

Definition bootEffect (sessID : SessionID) (frameID : FrameID) (now : Time) (eff : Effect) (r : Runtime)
    : M Runtime :=
  let '(eff, s) := bootstrapSessionEffect sessID frameID now eff (R_state r) in
  execute eff (r <| R_state := s |>).

(** [sess] is the session as the loop over its frames has left it. *)
Fixpoint recoverFrames (sid : SessionID) (now : Time) (i : nat) (frames : list SessionFrame)
    (sess : Session) (r : Runtime) (changed : bool) : M (Runtime * bool) :=
  match frames with
  | [] => mret (r, changed)
  | frame :: frames =>
    match GetDriver reg (Frame_Command frame) ≫= Driver_WarmStartRecoverer with
    | None => recoverFrames sid now (S i) frames sess r changed
    | Some recover =>
      let '(next, effs) := recover (Frame_Driver frame) now in
      let sess := sess <| Session_Frames :=
        <[i := frame <| Frame_Driver := next |>]> (Session_Frames sess) |> in
      let r := r <| R_state := R_state r <| Sessions := <[sid := sess]> (Sessions (R_state r)) |> |> in
      r ← foldM (bootEffect sid (Frame_ID frame) now) effs r;
      recoverFrames sid now (S i) frames sess r true
    end
  end.

Definition RecoverWarmStartSessions (r : Runtime) : M Runtime :=
  now ← now_;
  foldM (fun (kv : string * Session) (acc : Runtime * bool) =>
      recoverFrames kv.1 now 0 (Session_Frames kv.2) kv.2 acc.1 acc.2)
    (mapRange (Sessions (R_state r))) (r, false)
  ≫= fun (acc : Runtime * bool) => mret (if acc.2 then saveSessions acc.1 else acc.1).

(** ** Fresh frames (bootstrap_coldstart.go) *)

(** Containers are started in parallel, in any order; failures are logged. *)
Definition PrewarmContainers (r : Runtime) : M unit :=
  match SandboxedProject (R_state r) with
  | None => mret tt
  | Some inSandbox =>
    let wanted := mapRange (Sessions (R_state r)) ≫= fun kv =>
      if decide (Session_Sandbox kv.2 = SandboxOverrideHost) then []
      else List.filter (fun p => negb (String.eqb p "") && inSandbox p)
             (map Frame_Project (Session_Frames kv.2)) in
    callAll (map CallEnsureProject (elements (list_to_set wanted : gset string)))
  end.

Definition skipColdStartSpawn (frame : SessionFrame) : bool :=
  match GetDriver reg (Frame_Command frame), Frame_Driver frame with
  | Some drv, Some _ =>
    bool_decide (Driver_Status drv (Frame_Driver frame) = StatusStopped)
    && negb (coldStartRecoverable drv (Frame_Driver frame))
  | _, _ => false
  end.

(** [ensureSubsystemOnce] and [wrapLaunchForSpawn], outside a goroutine. *)
Definition ensureSubsystem (sid : SessionID) (project : string) (plan : LaunchPlan)
    : M ((Subsystem * SubsystemID) + string) :=
  let kind := orDefault (Plan_Subsystem plan) LaunchSubsystemCLI in
  if existsb (String.eqb kind) [LaunchSubsystemCLI; LaunchSubsystemStream] then
    rep ← call (CallEnsure kind sid project plan);
    mret match rep with REnsured sub id => inl (sub, id) | _ => inr (errorText rep) end
  else mret (inr ("runtime: unknown subsystem kind " +:+ quoted kind)).

Definition wrapLaunch (fid : FrameID) (project : string) (plan : LaunchPlan) (env : gmap string string)
    : M ((WrappedLaunch * string) + string) :=
  rep ← call (CallIsContainer project);
  match rep with
  | RBool true =>
    rep ← call CallGenerateToken;
    match rep with
    | RText token =>
      rep ← call (CallWrapLaunch fid plan (<["ROOST_SOCKET_TOKEN"%string := token]> env));
      mret match rep with RWrapped w => inl (w, token) | _ => inr ("launcher wrap: " +:+ errorText rep) end
    | _ => mret (inr ("token generate: " +:+ errorText rep))
    end
  | _ =>
    rep ← call (CallWrapLaunch fid plan env);
    mret match rep with RWrapped w => inl (w, EmptyString) | _ => inr (errorText rep) end
  end.

(** There is no input to redirect. *)
Definition spawnWrapped (fid : FrameID) (project : string) (wrapped : WrappedLaunch) : M Reply :=
  let command := Wrapped_Command wrapped in
  call (CallSpawnFrame fid (windowName project fid)
    (if isShellCommand command then "exec " +:+ LoginShellCommand +:+ " -l" else "exec " +:+ command)
    (Wrapped_StartDir wrapped) (Wrapped_Env wrapped)).

(** A frame that fails gives back what it acquired; its subsystem stays. *)
Definition coldSpawned (frame : SessionFrame) (sub : Subsystem) (wrapped : WrappedLaunch) (token : string)
    (r : Runtime) : M (Runtime * option string) :=
  let fid := Frame_ID frame in
  rep ← spawnWrapped fid (Frame_Project frame) wrapped;
  match errOf rep with
  | Some (_, err) =>
    _ ← callAll (map CallCleanup (option_list (Wrapped_Cleanup wrapped)) ++ [CallReleaseFrame sub fid]);
    mret (r <| R_frameSubsystems := delete fid (R_frameSubsystems r) |>, Some err)
  | None =>
    let r := storeFrameCleanup r fid (Wrapped_Cleanup wrapped) in
    r ← (if decide (token = EmptyString) then mret r
         else registerContainerFrame fid (Frame_Project frame) (Wrapped_ContainerSockDir wrapped) token
                (Wrapped_Mounts wrapped) r);
    mret (r, None)
  end.

Definition coldSpawnFrameWindow (sid : SessionID) (sandbox : SandboxOverride) (frame : SessionFrame)
    (r : Runtime) : M (Runtime * option string) :=
  let fid := Frame_ID frame in
  match GetDriver reg (Frame_Command frame) with
  | None => mret (r, None)
  | Some drv =>
    let inSandbox := sandboxed (R_state r) (Frame_Project frame)
                     && negb (bool_decide (sandbox = SandboxOverrideHost)) in
    match Driver_PrepareLaunch drv (Frame_Driver frame) LaunchModeColdStart (Frame_Project frame)
            (Frame_Command frame) (Frame_LaunchOptions frame) inSandbox with
    | inr err => mret (r, Some err)
    | inl launch =>
      let launch := launch <| Plan_Sandbox := sandbox |> <| Plan_Project := Frame_Project frame |> in
      ens ← ensureSubsystem sid (Frame_Project frame) launch;
      match ens with
      | inr err => mret (r, Some err)
      | inl (sub, subsystemID) =>
        rep ← call (CallBindFrame sub fid launch EmptyString (Frame_Project frame));
        match rep with
        | RBound bindResult =>
          let r := r <| R_subsystems := <[subsystemID := sub]> (R_subsystems r) |>
                     <| R_frameSubsystems := <[fid := sub]> (R_frameSubsystems r) |> in
          let env : gmap string string :=
            <["ROOST_SESSION_ID"%string := sid]> {["ROOST_FRAME_ID"%string := fid]} in
          wr ← wrapLaunch fid (Frame_Project frame) (Bind_Plan bindResult) env;
          match wr with
          | inr err =>
            _ ← call (CallReleaseFrame sub fid);
            mret (r <| R_frameSubsystems := delete fid (R_frameSubsystems r) |>, Some err)
          | inl (wrapped, token) => coldSpawned frame sub wrapped token r
          end
        | _ => mret (r, Some (errorText rep))
        end
      end
    end
  end.

(** A frame that fails does not keep the others from being spawned. *)
Definition recreateFrame (sid : SessionID) (sandbox : SandboxOverride) (frame : SessionFrame) (r : Runtime)
    : M Runtime :=
  if skipColdStartSpawn frame then mret r
  else res ← coldSpawnFrameWindow sid sandbox frame r; mret res.1.

Definition recreateSessionFrames (kv : string * Session) (r : Runtime) : M Runtime :=
  foldM (recreateFrame kv.1 (Session_Sandbox kv.2)) (Session_Frames kv.2) r.

Definition RecreateAll (r : Runtime) : M Runtime :=
  foldM recreateSessionFrames (mapRange (Sessions (R_state r))) r.

(** ** Worktrees in use (runtime.go) *)

Definition collectTrackedWorktrees (s : State) : gset string :=
  list_to_set (mapRange (Sessions s) ≫= fun kv =>
    omap (fun fr =>
      match GetDriver reg (Frame_Command fr) ≫= Driver_StartDirAware with
      | None => None
      | Some sda =>
        let dir := StartDir sda (Frame_Driver fr) in
        if negb (String.eqb dir "") && worktree.IsManagedWorktreePath dir then Some dir else None
      end) (Session_Frames kv.2)).

Fixpoint distinct (seen : gset string) (l : list string) : list string :=
  match l with
  | [] => []
  | p :: l => if decide (p ∈ seen) then distinct seen l else p :: distinct ({[p]} ∪ seen) l
  end.
Definition KnownProjects (s : State) : list string :=
  distinct ∅ (List.filter (fun p => negb (String.eqb p ""))
    (map (fun kv => Session_Project kv.2) (mapRange (Sessions s)))).

(** ** The boot (cmd/server/coordinator.go) *)

(** The driver of the login shell is registered before; errors are logged. *)
Definition bootSession (r : Runtime) : M Runtime :=
  loaded ← LoadSnapshot true r;
  recovered ← RecoverSandboxFrames loaded.1;
  r ← RecoverWarmStartSessions recovered.1;
  _ ← PrewarmContainers r;
  RecreateAll r.
End boot.

(** ** What a restart brings back *)

Section restart.
Context {T : ClientTypes} {RT : RuntimeTypes} {MR : MapRange} {D : Deps}.
Abbreviation p := (Cfg_Persist cfg).

Definition timeOf (rep : Reply) : Time := match rep with RTime t => t | _ => 0 end.

Lemma restoreSession_id snap cold now sess : restoreSession snap cold now = Some sess -> Session_ID sess = Snap_ID snap.
Proof. unfold restoreSession. destruct (restoreFrames _ _ _ _); [done|]. by intros [= <-]. Qed.

(** What loading the snapshot [o] of a session makes of its entry and its file. *)
Definition loaded (now : Time) (o : option SessionSnapshot) (before : option Session) (file : option string)
    : option Session * option string :=
  match o with
  | None => (before, file)
  | Some snap =>
    match restoreSession snap true now with
    | Some sess => (Some sess, file)
    | None => (before, None)
    end
  end.

Abbreviation entry r id := (Sessions (R_state r) !! id, stored p (R_disk r) id).

Lemma loadOne_entry now snap r : placed -> (forall n o, fault n o = None) -> sane snap ->
  Snap_ID snap <> EmptyString ->
  entry (loadOne true now r snap) (Snap_ID snap)
    = loaded now (Some snap) (Sessions (R_state r) !! Snap_ID snap) (stored p (R_disk r) (Snap_ID snap)) /\
  forall id, id <> Snap_ID snap -> entry (loadOne true now r snap) id = entry r id.
Proof.
  intros Hp Hf Hs Hne. unfold loadOne, loaded. destruct (restoreSession snap true now) as [sess|] eqn:E.
  - apply restoreSession_id in E as ->. cbn. split; [by rewrite lookup_insert_eq|].
    intros id Hid. by rewrite lookup_insert_ne.
  - destruct (deleteSession_disk (Snap_ID snap) r Hp (sane_id _ Hs) Hne) as (D1 & _ & D3). split.
    + by rewrite D3.
    + intros id Hid. by rewrite D1.
Qed.

Lemma load_entries now snaps : placed -> (forall n o, fault n o = None) ->
  Forall (fun s => sane s /\ Snap_ID s <> EmptyString) snaps -> NoDup (map Snap_ID snaps) -> forall r id,
  entry (fold_left (loadOne true now) snaps r) id
    = loaded now (List.find (fun s => String.eqb (Snap_ID s) id) snaps) (Sessions (R_state r) !! id)
        (stored p (R_disk r) id).
Proof.
  intros Hp Hf. induction 1 as [|snap snaps [Hs Hne] _ IH]; [done|]. cbn [map List.find fold_left].
  intros [Hn Hnd]%NoDup_cons r id. rewrite IH by done.
  destruct (loadOne_entry now snap r Hp Hf Hs Hne) as [H1 H2].
  destruct (String.eqb_spec (Snap_ID snap) id) as [<-|Hid].
  - destruct (List.find _ snaps) as [s'|] eqn:Ef.
    { apply find_some in Ef as [Hin%list_elem_of_In E%String.eqb_eq]. destruct Hn. rewrite <- E.
      by apply list_elem_of_fmap_2. }
    exact H1.
  - specialize (H2 id (not_eq_sym Hid)). apply pair_equal_spec in H2 as [-> ->]. done.
Qed.

Lemma find_snapshot (m : gmap string SessionSnapshot) snaps id : keyed m ->
  (forall s, s ∈ snaps <-> m !! Snap_ID s = Some s) ->
  List.find (fun s => String.eqb (Snap_ID s) id) snaps = m !! id.
Proof.
  intros Hk Hm. destruct (List.find _ snaps) as [s|] eqn:E.
  - apply find_some in E as [Hin%list_elem_of_In E%String.eqb_eq]. apply Hm in Hin. by rewrite <- E.
  - destruct (m !! id) as [s|] eqn:El; [|done]. destruct (Hk _ _ El) as [_ Hid].
    pose proof (find_none _ _ E s) as H. cbn in H. rewrite Hid, String.eqb_refl in H.
    discriminate H. apply list_elem_of_In, Hm. by rewrite Hid.
Qed.

(** A cold start without faults, from files that mirror the sessions [m]. *)
Lemma LoadSnapshot_restores m features d w h : placed -> (forall n o, fault n o = None) -> storable m ->
  mirrors p d (snapshots m) -> persist.dir p ∈ dirs d -> Forall plain (entries d (persist.dir p)) ->
  exists r, LoadSnapshot true (New features d) w h = ((r, None), h ++ [CallNow]) /\
    forall id, entry r id = loaded (timeOf (w h CallNow)) (snapshots m !! id) None (stored p d id).
Proof.
  intros Hp Hf Hs Hm Hd He. pose proof (storable_keyed m Hs) as Hk.
  destruct (Load_mirrors fault Hf p (placed_sessions Hp) (placed_named Hp) d (snapshots m) Hk Hm Hd He)
    as (snaps & d' & E & Hfs & _ & Hnd & Hin).
  unfold LoadSnapshot. cbn [R_disk New]. rewrite E. eexists. split; [reflexivity|]. intros id.
  rewrite load_entries; [|done|done| |done].
  - rewrite (find_snapshot (snapshots m)) by done. cbn. rewrite lookup_empty. f_equal. unfold stored. cbn. by rewrite Hfs.
  - apply Forall_forall. intros s Hi%Hin. destruct (Hk _ _ Hi) as [Hsane _]. split; [done|].
    unfold snapshots in Hi. apply lookup_fmap_Some in Hi as (sess & Es & El). by destruct (Hs _ _ El) as (_ & _ & ?).
Qed.

(** *** Frames *)

Definition restoredDriver (now : Time) (f : SessionFrame) : DriverState :=
  match GetDriver reg (Frame_Command f) with
  | Some drv => Driver_Restore drv (restoredBag true (Driver_Persist drv (Frame_Driver f))) now
  | None => None
  end.

(** Frames that a cold start keeps. *)
Definition kept (now : Time) (f : SessionFrame) : bool :=
  match GetDriver reg (Frame_Command f) with
  | Some drv =>
    let ds := restoredDriver now f in
    negb (bool_decide (Driver_Status drv ds = StatusStopped) && negb (coldStartRecoverable drv ds))
  | None => false
  end.

Definition resumedFrame (now createdAt : Time) (f : SessionFrame) : SessionFrame :=
  restoreFrame (snapshotFrame f) createdAt (restoredDriver now f).

Lemma restoreFrames_snapshot now createdAt frames :
  Forall (fun f => is_Some (GetDriver reg (Frame_Command f))) frames ->
  restoreFrames true now createdAt (map snapshotFrame frames)
    = map (resumedFrame now createdAt) (List.filter (kept now) frames).
Proof.
  induction 1 as [|f frames [drv Hd] _ IH]; [done|]. cbn [map restoreFrames List.filter].
  assert (FSnap_Command (snapshotFrame f) = Frame_Command f /\
          FSnap_DriverState (snapshotFrame f) = Driver_Persist drv (Frame_Driver f)) as [-> ->].
  { unfold snapshotFrame. by rewrite Hd. }
  rewrite Hd, IH. cbv zeta.
  assert (restoredDriver now f = Driver_Restore drv (restoredBag true (Driver_Persist drv (Frame_Driver f))) now)
    as Er by (unfold restoredDriver; by rewrite Hd).
  assert (kept now f = negb (bool_decide (Driver_Status drv (restoredDriver now f) = StatusStopped)
            && negb (coldStartRecoverable drv (restoredDriver now f)))) as -> by (unfold kept; by rewrite Hd).
  rewrite <- Er. cbn [andb]. by destruct (bool_decide _ && negb _).
Qed.

Lemma restoreSession_snapshot now sess :
  Forall (fun f => is_Some (GetDriver reg (Frame_Command f))) (Session_Frames sess) ->
  let createdAt := parsedTime (rfc3339.Format (Session_CreatedAt sess)) now in
  let frames := List.filter (kept now) (Session_Frames sess) in
  match restoreSession (snapshotSession sess) true now with
  | None => frames = []
  | Some sess' =>
    frames <> [] /\ Session_Frames sess' = map (resumedFrame now createdAt) frames /\
    Session_ID sess' = Session_ID sess /\ Session_Project sess' = Session_Project sess /\
    Session_Sandbox sess' = Session_Sandbox sess /\ Session_CreatedAt sess' = createdAt /\
    Session_MRUFrameIDs sess' = Session_MRUFrameIDs sess
  end.
Proof.
  intros Hd createdAt frames. unfold restoreSession. cbn [snapshotSession Snap_CreatedAt Snap_Frames].
  rewrite restoreFrames_snapshot by done. fold createdAt frames. by destruct frames.
Qed.
End restart.

(** ** The sandbox of a frame that is spawned again *)

Section respawn.
Context {T : ClientTypes} {RT : RuntimeTypes} {MR : MapRange} {D : Deps}.
Abbreviation M := (Eff Call Reply).

(** With [held] acquired for the frame: it is given back when the spawn fails,
    and otherwise takes the place of what was registered for the frame. *)
Definition settled (fid : FrameID) (r : Runtime) (held : list Closure) (m : M (Runtime * option string)) : Prop :=
  forall w h, exists cs, (m w h).2 = h ++ cs /\
  let acq := held ++ acquired_go w h cs in
  let before := R_sandboxCleanups r in
  let after := R_sandboxCleanups (m w h).1.1 in
  (after = before /\ released cs = acq /\ (acq = [] \/ is_Some (m w h).1.2)) \/
  (exists c, acq = [c] /\ released cs = [] /\ after = <[fid := c]> before /\ (m w h).1.2 = None).

Lemma settled_ret fid r r' err : R_sandboxCleanups r' = R_sandboxCleanups r -> settled fid r [] (mret (r', err)).
Proof. intros E w h. exists []. rewrite app_nil_r. split; [done|]. left. auto. Qed.

Lemma settled_call fid r held c (f : Reply -> M (Runtime * option string)) :
  match c with CallWrapLaunch _ _ _ | CallAdoptFrame _ _ | CallCleanup _ => False | _ => True end ->
  (forall rep, settled fid r held (f rep)) -> settled fid r held (call c ≫= f).
Proof.
  intros Hc Hf w h. destruct (Hf (w h c) w (h ++ [c])) as (cs & E & H). exists (c :: cs).
  change ((call c ≫= f) w h) with (f (w h c) w (h ++ [c])). rewrite E, <- app_assoc. split; [done|].
  assert (acquired_go w h (c :: cs) = acquired_go w (h ++ [c]) cs) as ->.
  { cbn [acquired_go]. by destruct c. }
  by assert (released (c :: cs) = released cs) as -> by by destruct c.
Qed.

Lemma registerContainerFrame_settled fid project dir token ms r :
  forall w h, exists cs, (registerContainerFrame fid project dir token ms r w h).2 = h ++ cs /\ Forall neutral cs /\
    R_sandboxCleanups (registerContainerFrame fid project dir token ms r w h).1 = R_sandboxCleanups r.
Proof.
  intros w h. unfold registerContainerFrame, startContainerEndpointIfNeeded, mbind, Eff_bind. cbn [R_containerEndpoints].
  case_decide.
  - exists []. rewrite app_nil_r. by destruct (Cfg_Warm cfg).
  - unfold call. exists [CallStartEndpoint project (ContainerSockPath dir)].
    destruct (failedReply _); destruct (Cfg_Warm cfg);
      (split; [reflexivity|split; [by repeat constructor|reflexivity]]).
Qed.

Lemma coldSpawned_settled frame sub wrapped token r r0 : R_sandboxCleanups r = R_sandboxCleanups r0 ->
  settled (Frame_ID frame) r0 (option_list (Wrapped_Cleanup wrapped)) (coldSpawned frame sub wrapped token r).
Proof.
  intros E0. unfold coldSpawned, spawnWrapped. apply settled_call; [done|]. intros rep.
  destruct (errOf rep) as [[missing err]|].
  - intros w h. unfold mbind, Eff_bind. rewrite callAll_run. eexists. split; [reflexivity|]. left. cbn [fst snd R_sandboxCleanups].
    split; [done|]. split; [|right; by eexists]. destruct (Wrapped_Cleanup wrapped); done.
  - intros w h. unfold mbind, Eff_bind. set (r1 := storeFrameCleanup _ _ _).
    assert (exists cs r2, (if decide (token = EmptyString) then mret r1
        else registerContainerFrame (Frame_ID frame) (Frame_Project frame) (Wrapped_ContainerSockDir wrapped) token
          (Wrapped_Mounts wrapped) r1) w h = (r2, h ++ cs) /\ Forall neutral cs /\
        R_sandboxCleanups r2 = R_sandboxCleanups r1) as (cs & r2 & E & Hn & Er).
    { case_decide; [exists [], r1; by rewrite app_nil_r|].
      destruct (registerContainerFrame_settled (Frame_ID frame) (Frame_Project frame)
        (Wrapped_ContainerSockDir wrapped) token (Wrapped_Mounts wrapped) r1 w h) as (cs & E & Hn & Er).
      destruct (registerContainerFrame _ _ _ _ _ r1 w h) as [r2 h2]. cbn in E, Er. subst h2. by exists cs, r2. }
    rewrite E. exists cs. split; [done|]. destruct (neutral_calls _ Hn) as (Hr & _ & Ha). cbn [fst snd mret Eff_ret].
    rewrite (acquired_none _ _ _ Ha), Er, Hr, app_nil_r. unfold r1, storeFrameCleanup.
    destruct (Wrapped_Cleanup wrapped) as [c|]; cbn; [right; exists c|left]; rewrite ?E0; auto.
Qed.

Lemma settled_eq fid r held (m m' : M (Runtime * option string)) :
  (forall w h, m w h = m' w h) -> settled fid r held m' -> settled fid r held m.
Proof. intros E H w h. rewrite E. apply H. Qed.

Lemma settled_wrap fid r fid' plan env (f : Reply -> M (Runtime * option string)) :
  (forall rep, settled fid r match rep with RWrapped w => option_list (Wrapped_Cleanup w) | _ => [] end (f rep)) ->
  settled fid r [] (call (CallWrapLaunch fid' plan env) ≫= f).
Proof.
  intros Hf w h. set (c := CallWrapLaunch fid' plan env). destruct (Hf (w h c) w (h ++ [c])) as (cs & E & H).
  exists (c :: cs). change ((call c ≫= f) w h) with (f (w h c) w (h ++ [c])). rewrite E, <- app_assoc.
  split; [done|]. exact H.
Qed.

Lemma wrapLaunch_settled fid fid' project plan env r (k : ((WrappedLaunch * string) + string) -> M (Runtime * option string)) :
  (forall err, settled fid r [] (k (inr err))) ->
  (forall w token, settled fid r (option_list (Wrapped_Cleanup w)) (k (inl (w, token)))) ->
  settled fid r [] (wrapLaunch fid' project plan env ≫= k).
Proof.
  intros Hr Hl. unfold wrapLaunch. eapply settled_eq; [intros; apply Eff_assoc|].
  apply settled_call; [done|]. intros rep.
  assert (forall env' (g : Reply -> (WrappedLaunch * string) + string),
    (forall rep, match rep with RWrapped w => exists token, g rep = inl (w, token) | _ => exists err, g rep = inr err end) ->
    settled fid r [] ((rep ← call (CallWrapLaunch fid' plan env'); mret (g rep)) ≫= k)) as Hw.
  { intros env' g Hg. eapply settled_eq; [intros; apply Eff_assoc|]. apply settled_wrap. intros rep'.
    apply (settled_eq _ _ _ _ (k (g rep'))); [done|]. specialize (Hg rep').
    destruct rep'; destruct Hg as [x ->]; auto. }
  assert (settled fid r [] ((rep ← call (CallWrapLaunch fid' plan env);
    mret match rep with RWrapped w => inl (w, EmptyString) | _ => inr (errorText rep) end) ≫= k)) as Hd.
  { apply Hw. intros []; eauto. }
  destruct rep as [| | |[]| | | | | | |]; try exact Hd.
  eapply settled_eq; [intros; apply Eff_assoc|]. apply settled_call; [done|]. intros rep.
  assert (forall err : string, settled fid r [] (mret (inr err) ≫= k)) as He
    by (intros err; by apply (settled_eq _ _ _ _ (k (inr err)))).
  destruct rep; try apply He. apply Hw. intros []; eauto.
Qed.

Lemma coldSpawn_settled sid sandbox frame r : settled (Frame_ID frame) r [] (coldSpawnFrameWindow sid sandbox frame r).
Proof.
  unfold coldSpawnFrameWindow. destruct (GetDriver reg _) as [drv|]; [|by apply settled_ret].
  destruct (Driver_PrepareLaunch _ _ _ _ _ _ _) as [launch|err]; [|by apply settled_ret]. cbv zeta.
  unfold ensureSubsystem. destruct (existsb _ _).
  - eapply settled_eq; [intros; apply Eff_assoc|]. apply settled_call; [done|]. intros rep.
    destruct rep as [| | | | | | |sub subsystemID| | |]; try exact (settled_ret _ r r _ eq_refl).
    apply (settled_call _ _ _ (CallBindFrame sub (Frame_ID frame) _ _ _) _ I). intros rep.
    destruct rep as [| | | | | | | |b| |]; try exact (settled_ret _ r r _ eq_refl).
    apply wrapLaunch_settled.
    + intros err. apply settled_call; [done|]. intros rep. by apply settled_ret.
    + intros w token. by apply coldSpawned_settled.
  - exact (settled_ret _ r r _ eq_refl).
Qed.

Lemma adoptEndpoint_cleanups project r w h :
  R_sandboxCleanups (adoptEndpoint project r w h).1 = R_sandboxCleanups r.
Proof.
  unfold adoptEndpoint. destruct (_ && _); [|done].
  unfold startContainerEndpointIfNeeded, mbind, Eff_bind, call. case_decide; [done|]. by destruct (failedReply _).
Qed.

Lemma adoptFrame_registers tokens frame r adopted w h c ms :
  w h (CallAdoptFrame (Frame_ID frame) (Frame_Project frame)) = RAdopted (Some c) ms ->
  R_sandboxCleanups (adoptFrame tokens frame (r, adopted) w h).1.1 !! Frame_ID frame = Some c.
Proof.
  intros E. unfold adoptFrame, mbind, Eff_bind, call. rewrite E. cbv zeta. set (r1 := if decide _ then _ else _).
  assert (R_sandboxCleanups r1 = <[Frame_ID frame := c]> (R_sandboxCleanups r)) as E1
    by (unfold r1; case_decide; [by destruct ms|done]).
  pose proof (adoptEndpoint_cleanups (Frame_Project frame) r1 w (h ++ [CallAdoptFrame (Frame_ID frame) (Frame_Project frame)])) as E2.
  destruct (adoptEndpoint _ r1 w _) as [r2 h2]. cbn [fst mret Eff_ret] in *. by rewrite E2, E1, lookup_insert_eq.
Qed.

(** A frame that has a sandbox already and is spawned again has a second one;
    the first is not released, and nothing will release it. *)
Lemma respawn_leaks sid sandbox frame r w h r' h' c :
  R_sandboxCleanups r !! Frame_ID frame = Some c ->
  coldSpawnFrameWindow sid sandbox frame r w h = ((r', None), h') -> acquired w h' <> acquired w h ->
  exists cs, h' = h ++ cs /\
  acquired w h' ++ registered r ≡ₚ c :: acquired w h ++ released cs ++ registered r'.
Proof.
  intros Hc E Hne. destruct (coldSpawn_settled sid sandbox frame r w h) as (cs & Eh & H). rewrite E in Eh, H.
  cbn [fst snd] in *. subst h'. exists cs. split; [done|]. rewrite acquired_app in Hne. rewrite acquired_app.
  cbn [app] in H. destruct H as [(Ha & Hr & [Hq|[? Hq]])|(c' & Hq & Hr & Ha & _)];
    [by rewrite Hq, app_nil_r in Hne|done|].
  rewrite Hq, Hr. unfold registered. rewrite Ha, <- insert_delete_eq, map_to_list_insert by apply lookup_delete_eq.
  rewrite <- (map_to_list_delete _ _ _ Hc). cbn. solve_Permutation.
Qed.
End respawn.
