(* ===== verification/RuntimeBootInv.v ===== *)
(** * client/runtime: the daemon after its boot

    What the boot registers belongs to frames of the sessions it loaded, so a
    daemon enters its loop with the invariant of [RuntimeSys]. *)

From S2P Require Import Prelude GoStd GoText GoTime GoIO GoPath GoDisk Pathmap ClientView ClientState ClientReduce ClientInv ClientGraph ClientSteps ClientRollback FrameReg RuntimePersist RuntimeStore Worktree Runtime RuntimeInv RuntimeSys RuntimeDurable RuntimeBoot.
Open Scope Z_scope.

Section ends.
Context {T : ClientTypes} {RT : RuntimeTypes} {MR : MapRange} {D : Deps}.
Abbreviation M := (Eff Call Reply).

(** Whatever the world answers, [m] returns an [x] with [Q x]. *)
Definition ends {A} (Q : A -> Prop) (m : M A) : Prop := forall w h, Q (m w h).1.

Lemma ends_ret {A} (Q : A -> Prop) x : Q x -> ends Q (mret x).
Proof. by intros H w h. Qed.

Lemma ends_bind {A B} (P : A -> Prop) (Q : B -> Prop) (m : M A) (f : A -> M B) :
  ends P m -> (forall x, P x -> ends Q (f x)) -> ends Q (m ≫= f).
Proof.
  intros Hm Hf w h. unfold mbind, Eff_bind. specialize (Hm w h). destruct (m w h) as [x h']. by apply Hf.
Qed.

Lemma ends_any {A B} (Q : B -> Prop) (m : M A) (f : A -> M B) :
  (forall x, ends Q (f x)) -> ends Q (m ≫= f).
Proof. intros Hf. by apply (ends_bind (fun _ => True)). Qed.

Lemma ends_foldM {A B} (I : B -> Prop) (f : A -> B -> M B) l b :
  (forall a b, a ∈ l -> I b -> ends I (f a b)) -> I b -> ends I (foldM f l b).
Proof.
  revert b. induction l as [|a l IH]; intros b Hf Hb; [by apply ends_ret|]. cbn [foldM].
  apply (ends_bind I); [apply Hf; [left|done]|]. intros b' Hb'. apply IH; [|done].
  intros a' b'' Ha. apply Hf. by right.
Qed.
End ends.

Section boot.
Context {T : ClientTypes} {RT : RuntimeTypes} {MR : MapRange} {D : Deps}.
Abbreviation M := (Eff Call Reply).

(** The sessions have the shapes [m]; cleanups and tokens are those of their frames. *)
Record owned (m : gmap string Shape) (r : Runtime) : Prop := {
  ow_shapes : shapes (R_state r) = m;
  ow_rng : R_rng r = O;
  ow_cleanups fid : is_Some (R_sandboxCleanups r !! fid) -> has_frame m fid;
  ow_consistent : framereg.consistent (R_frameReg r);
  ow_tokens fid : is_Some (framereg.frameToToken (R_frameReg r) !! fid) -> has_frame m fid;
}.

Lemma owned_eq m r r' :
  shapes (R_state r') = shapes (R_state r) -> R_rng r' = R_rng r ->
  R_sandboxCleanups r' = R_sandboxCleanups r -> R_frameReg r' = R_frameReg r -> owned m r -> owned m r'.
Proof. intros E1 E2 E3 E4 []. split; rewrite ?E1, ?E2, ?E3, ?E4; done. Qed.

Lemma owned_ok m r : owned m r -> wf_graph idAt (O, m) -> handlesOk r [].
Proof.
  intros [Hs Hr Hc Hco Ht] Hwf. split; rewrite ?Hs, ?Hr; try done; [constructor|by intros fid ?%elem_of_nil..].
Qed.

Lemma owned_store m r fid c : has_frame m fid -> owned m r -> owned m (storeFrameCleanup r fid c).
Proof.
  intros Hf [Hs Hr Hc Hco Ht]. destruct c as [c|]; [|done]. split; try done. cbn. intros fid'.
  rewrite lookup_insert_is_Some. intros [<-|[_ ?]]; auto.
Qed.

Lemma owned_register m r fid token ms : has_frame m fid -> owned m r ->
  owned m (r <| R_frameReg := framereg.RegisterWithMounts (R_frameReg r) fid token ms |>).
Proof.
  intros Hf [Hs Hr Hc Hco Ht]. split; try done; cbn.
  - by apply framereg.RegisterWithMounts_consistent.
  - intros fid' [->|?]%framereg.RegisterWithMounts_frames; auto.
Qed.

(** ** Containers that are still there *)

Lemma startEndpoint_owned m project sock r : owned m r -> ends (owned m) (startContainerEndpointIfNeeded project sock r).
Proof.
  intros H. unfold startContainerEndpointIfNeeded. case_decide; [by apply ends_ret|].
  apply ends_any. intros rep. destruct (failedReply rep); apply ends_ret; [done|]. by apply (owned_eq m r).
Qed.

Lemma registerContainerFrame_owned m fid project dir token ms r : has_frame m fid -> owned m r ->
  ends (owned m) (registerContainerFrame fid project dir token ms r).
Proof.
  intros Hf H. unfold registerContainerFrame. cbv zeta.
  apply (ends_bind (owned m)); [by apply startEndpoint_owned, owned_register|]. intros r' H'. apply ends_ret.
  destruct (Cfg_Warm cfg); [|done]. by apply (owned_eq m r').
Qed.

Lemma owned_mounts m r fid ms : owned m r ->
  owned m (r <| R_frameReg := framereg.StoreMounts (R_frameReg r) fid ms |>).
Proof. intros [Hs Hr Hc Hco Ht]. by split. Qed.

Lemma adoptFrame_owned m tokens frame acc : has_frame m (Frame_ID frame) -> owned m acc.1 ->
  ends (fun acc => owned m acc.1) (adoptFrame tokens frame acc).
Proof.
  intros Hf. destruct acc as [r adopted]. cbn [fst]. intros H. unfold adoptFrame. apply ends_any. intros rep.
  destruct rep as [| | | | | | | | | |cleanup ms]; try by apply ends_ret. cbv zeta.
  set (r1 := if decide _ then _ else _).
  assert (owned m r1) as H1.
  { pose proof (owned_store m r (Frame_ID frame) cleanup Hf H) as H0.
    unfold r1. case_decide; [|by apply owned_register]. destruct ms; [done|by apply owned_mounts]. }
  apply (ends_bind (owned m)); [|intros r2 H2; by apply ends_ret]. unfold adoptEndpoint.
  destruct (_ && _); [|by apply ends_ret]. apply ends_any. intros rep. by apply startEndpoint_owned.
Qed.

Lemma recoverTokens_owned m dir live states : forall out r, owned m r -> owned m (recoverTokens dir live states out r).2.
Proof.
  induction states as [|st states IH]; intros out r H; [done|]. cbn [recoverTokens].
  case_decide; apply IH; [done|]. by apply (owned_eq m r).
Qed.

Lemma frame_in (m : gmap string Session) sid sess frame :
  (sid, sess) ∈ mapRange m -> frame ∈ Session_Frames sess -> has_frame (shape <$> m) (Frame_ID frame).
Proof.
  intros Hk Hf. exists sid, (shape sess). split.
  - rewrite mapRange_perm in Hk. apply elem_of_map_to_list in Hk. by rewrite lookup_fmap, Hk.
  - cbn. by apply list_elem_of_fmap_2.
Qed.

Lemma RecoverSandboxFrames_owned m r : owned m r -> ends (fun acc => owned m acc.1) (RecoverSandboxFrames r).
Proof.
  intros H. unfold RecoverSandboxFrames. destruct (recoverWarmTokens r) as [tokens r1] eqn:E.
  assert (owned m r1) as H1.
  { unfold recoverWarmTokens in E. destruct (Cfg_Warm cfg) as [dir|]; [|by injection E as _ <-].
    destruct (warm.LoadAll _ _ _) as [res d]. apply (f_equal snd) in E. cbn [snd] in E. rewrite <- E.
    apply recoverTokens_owned. by apply (owned_eq m r). }
  apply ends_foldM; [|done]. intros frame acc (kv & Hf & Hk)%list_elem_of_bind Ha. apply adoptFrame_owned; [|done].
  rewrite <- (ow_shapes _ _ H1). destruct kv as [sid sess]. by apply (frame_in _ sid sess).
Qed.

(** ** Drivers that resume *)

Lemma bootEffect_owned m sid fid now eff r : owned m r -> ends (owned m) (bootEffect sid fid now eff r).
Proof.
  intros H w h. unfold bootEffect. destruct (bootstrapSessionEffect sid fid now eff (R_state r)) as [eff' s] eqn:E.
  assert (Sessions s = Sessions (R_state r)) as Es.
  { apply (f_equal snd) in E. cbn [snd] in E. subst s. by destruct eff. }
  set (r1 := r <| R_state := s |>).
  assert (owned m r1) as [Hs Hr Hc Hco Ht] by (apply (owned_eq m r); try done; unfold shapes, r1; cbn; by rewrite Es).
  destruct (execute_spec eff' r1 w h) as (cs & _ & Hq & Hst & He).
  destruct (executed_ran _ _ _ _ Hq Hst He) as [_ _ R1 R2 _ _ R3 R4 R5]. split.
  - by rewrite R1.
  - by rewrite R2.
  - intros f [c Hf]. apply Hc. apply R3 in Hf as [Hf _]. by eexists.
  - by apply R4.
  - intros f [t Hf]. apply Ht. apply R5 in Hf as [Hf _]; [by eexists|done].
Qed.

Lemma shape_resumed sess i frame next : frame_ids sess !! i = Some (Frame_ID frame) ->
  shape (sess <| Session_Frames := <[i := frame <| Frame_Driver := next |>]> (Session_Frames sess) |>) = shape sess.
Proof.
  intros H. unfold shape, frame_ids in *. cbn. rewrite list_fmap_insert. cbn. by rewrite list_insert_id.
Qed.

Lemma recoverFrames_owned m sid now frames : forall i sess r changed,
  m !! sid = Some (shape sess) ->
  (forall j f, frames !! j = Some f -> frame_ids sess !! (i + j)%nat = Some (Frame_ID f)) ->
  owned m r -> ends (fun acc => owned m acc.1) (recoverFrames sid now i frames sess r changed).
Proof.
  induction frames as [|frame frames IH]; intros i sess r changed Hm Hf H; [by apply ends_ret|]. cbn [recoverFrames].
  pose proof (Hf O frame eq_refl) as H0. rewrite Nat.add_0_r in H0.
  assert (forall sess', shape sess' = shape sess ->
    forall j f, frames !! j = Some f -> frame_ids sess' !! (S i + j)%nat = Some (Frame_ID f)) as Hf'.
  { intros sess' E j f Hj. apply (f_equal sh_frames) in E. cbn in E. rewrite E, Nat.add_succ_comm. by apply Hf. }
  destruct (_ ≫= _) as [recover|]; [|apply IH; auto].
  destruct (recover _ now) as [next effs]. cbv zeta. set (sess' := sess <| Session_Frames := _ |>).
  assert (shape sess' = shape sess) as Es by by apply shape_resumed.
  apply (ends_bind (owned m)).
  - apply ends_foldM; [intros; by apply bootEffect_owned|].
    apply (owned_eq m r); try done. etrans; [apply (fmap_insert shape)|]. rewrite Es. apply insert_id.
    rewrite <- (ow_shapes _ _ H) in Hm. exact Hm.
  - intros r' H'. apply IH; [by rewrite Es|by apply Hf'|done].
Qed.

Lemma RecoverWarmStart_owned m r : owned m r -> ends (owned m) (RecoverWarmStartSessions r).
Proof.
  intros H. unfold RecoverWarmStartSessions. apply ends_any. intros now.
  apply (ends_bind (fun acc => owned m acc.1)).
  - apply ends_foldM; [|done]. intros [sid sess] [r1 changed] Hk H1. cbn [fst snd] in *.
    apply recoverFrames_owned; [| |done].
    + rewrite mapRange_perm in Hk. apply elem_of_map_to_list in Hk.
      rewrite <- (ow_shapes _ _ H). unfold shapes. by rewrite lookup_fmap, Hk.
    + intros j f Hj. unfold frame_ids. cbn. by rewrite list_lookup_fmap, Hj.
  - intros [r1 changed] H1. apply ends_ret. cbn [fst snd] in *. destruct changed; [|done]. by apply (owned_eq m r1).
Qed.

(** ** Fresh frames *)

Lemma coldSpawned_owned m frame sub wrapped token r : has_frame m (Frame_ID frame) -> owned m r ->
  ends (fun acc => owned m acc.1) (coldSpawned frame sub wrapped token r).
Proof.
  intros Hf H. unfold coldSpawned, spawnWrapped. apply ends_any. intros rep.
  destruct (errOf rep) as [[missing err]|].
  - apply ends_any. intros _. apply ends_ret. by apply (owned_eq m r).
  - cbv zeta. apply (ends_bind (owned m)); [|intros r' H'; by apply ends_ret].
    pose proof (owned_store m r (Frame_ID frame) (Wrapped_Cleanup wrapped) Hf H) as H1.
    case_decide; [by apply ends_ret|]. by apply registerContainerFrame_owned.
Qed.

Lemma coldSpawn_owned m sid sandbox frame r : has_frame m (Frame_ID frame) -> owned m r ->
  ends (fun acc => owned m acc.1) (coldSpawnFrameWindow sid sandbox frame r).
Proof.
  intros Hf H. unfold coldSpawnFrameWindow. cbv zeta.
  destruct (GetDriver reg _) as [drv|]; [|by apply ends_ret].
  destruct (Driver_PrepareLaunch _ _ _ _ _ _ _) as [launch|err]; [|by apply ends_ret].
  apply ends_any. intros [[sub id]|err]; [|by apply ends_ret].
  apply ends_any. intros rep. destruct rep as [| | | | | | | |b| |]; try by apply ends_ret.
  apply ends_any. intros [[wrapped token]|err].
  - apply coldSpawned_owned; [done|]. by apply (owned_eq m r).
  - apply ends_any. intros _. apply ends_ret. by apply (owned_eq m r).
Qed.

Lemma RecreateAll_owned m r : owned m r -> ends (owned m) (RecreateAll r).
Proof.
  intros H. unfold RecreateAll. apply ends_foldM; [|done]. intros [sid sess] r1 Hk H1.
  unfold recreateSessionFrames. cbn [fst snd]. apply ends_foldM; [|done]. intros frame r2 Hf H2. unfold recreateFrame.
  destruct (skipColdStartSpawn frame); [by apply ends_ret|].
  apply (ends_bind (fun acc => owned m acc.1)); [|intros [r3 err] H3; by apply ends_ret].
  apply coldSpawn_owned; [|done]. rewrite <- (ow_shapes _ _ H). by apply (frame_in _ sid sess).
Qed.

Lemma LoadSnapshot_owned features disk w h :
  let r := (LoadSnapshot true (New features disk) w h).1.1 in owned (shapes (R_state r)) r.
Proof.
  assert (forall r, R_rng r = O /\ R_sandboxCleanups r = ∅ /\ R_frameReg r = framereg.New -> owned (shapes (R_state r)) r) as H.
  { intros r (E1 & E2 & E3). split; [done|done| | |].
    - intros fid. rewrite E2, lookup_empty. by intros [].
    - rewrite E3. apply framereg.New_consistent.
    - intros fid. rewrite E3. cbn. rewrite lookup_empty. by intros []. }
  apply H. unfold LoadSnapshot. destruct (persist.Load _ _ _) as [[snaps|err] d]; [|done].
  unfold now_, mbind, Eff_bind, mret, Eff_ret, call. cbn [fst snd]. set (now := match w h CallNow with RTime t => t | _ => 0 end).
  assert (forall snaps r, let r' := fold_left (loadOne true now) snaps r in
    R_rng r' = R_rng r /\ R_sandboxCleanups r' = R_sandboxCleanups r /\ R_frameReg r' = R_frameReg r) as Hl; [|apply Hl].
  clear. induction snaps as [|snap snaps IH]; intros r; [done|]. cbn [fold_left].
  destruct (IH (loadOne true now r snap)) as (-> & -> & ->). unfold loadOne. by destruct (restoreSession _ _ _).
Qed.

(** The daemon after its boot, if what it loaded is a graph of sessions whose
    ids are not drawn again. *)
Lemma bootSession_ok features disk w h :
  wf_graph idAt (O, shapes (R_state (LoadSnapshot true (New features disk) w h).1.1)) ->
  handlesOk (bootSession (New features disk) w h).1 [].
Proof.
  set (m := shapes _). intros Hwf. apply (owned_ok m); [|done].
  unfold bootSession, mbind, Eff_bind. pose proof (LoadSnapshot_owned features disk w h) as H. cbv zeta in H. fold m in H.
  destruct (LoadSnapshot true (New features disk) w h) as [[r1 err] h1]. cbn [fst] in *.
  pose proof (RecoverSandboxFrames_owned m r1 H w h1) as H2. destruct (RecoverSandboxFrames r1 w h1) as [[r2 ad] h2].
  cbn [fst] in *. pose proof (RecoverWarmStart_owned m r2 H2 w h2) as H3.
  destruct (RecoverWarmStartSessions r2 w h2) as [r3 h3]. cbn [fst] in *.
  destruct (PrewarmContainers r3 w h3) as [u h4]. by apply RecreateAll_owned.
Qed.
End boot.
