(* ===== verification/RuntimeReply.v ===== *)
(** * client/runtime: who answers a request

    A request is answered by the reducer, or its reply travels with the frame
    it spawns: in the effect, the goroutine, the completion or the report of a
    failure.  Key input is answered by the runtime once it is sent. *)

From S2P Require Import Prelude GoStd GoText GoTime GoIO GoPath GoDisk Pathmap ClientView ClientState ClientReduce ClientInv ClientGraph ClientSteps ClientRollback FrameReg RuntimePersist Runtime RuntimeInv RuntimeSys.
Open Scope Z_scope.

(** A request: the connection it came on and its id. *)
Abbreviation Request := (Z * string)%type.

(** The requests of one connection. *)
Definition on (c0 : Z) (l : list Request) : list Request := List.filter (fun a => a.1 =? c0) l.

Lemma on_app c0 l1 l2 : on c0 (l1 ++ l2) = on c0 l1 ++ on c0 l2.
Proof. apply List.filter_app. Qed.

#[export] Instance on_Permutation c0 : Proper (Permutation ==> Permutation) (on c0).
Proof.
  intros l l' E. unfold on. induction E as [|x l l' E IH|x y l|l1 l2 l3 E1 IH1 E2 IH2]; cbn; try done.
  - case_match; [by rewrite IH|done].
  - repeat case_match; [by rewrite Permutation_swap|done..].
  - by rewrite IH1.
Qed.

Section reducer.
Context `{T : ClientTypes}.
Context (reg : Registry) (idAt : nat -> string) (json : Json).

(** What an event asks to be answered: a command or an event from a client, and
    the outcome of a spawn that a client asked for. *)
Definition asked (ev : Event) : list Request :=
  match ev with
  | EvDriverEvent conn req _ _ _ _ | EvSubsystem conn req _ _ _ _ _
  | EvFrameSpawned _ _ _ _ _ conn req | EvSpawnFailed _ _ _ conn req => [(conn, req)]
  | _ => option_list (command ev)
  end.

Context (c0 : Z) (Hc0 : c0 <> 0) (Hq : silent_drivers reg answers).

Lemma answers_post s sid fid eff : answers (postProcessEffect s sid fid eff).1 = answers eff.
Proof. by destruct eff. Qed.

Lemma on_nobody req l : on c0 ((0, req) :: l) = on c0 l.
Proof. unfold on. cbn [List.filter fst]. by destruct (Z.eqb_spec 0 c0) as [<-|]. Qed.

Lemma on_zero l : Forall (fun a : Request => a = (0, ""%string)) l -> on c0 l = [].
Proof.
  induction 1 as [|a l -> _ IH]; [done|]. by rewrite on_nobody.
Qed.

(** The common tail of hook and subsystem events. *)
Lemma driver_event_asked rng s conn req raw :
  omap answers raw = [] ->
  let '(_, effs, _) := resolvePushDriverEffects reg idAt rng s raw in
  on c0 (omap answers (effs ++ [EffPersistSnapshot; EffBroadcastSessionsChanged]
           ++ (if conn =? 0 then [] else [okResp conn req BodyNil]))) = on c0 [(conn, req)].
Proof.
  intros Hr. pose proof (resolvePush_answers reg idAt raw rng s Hr) as H.
  destruct (resolvePushDriverEffects reg idAt rng s raw) as [[s2 effs] rng2]. destruct H as [H _].
  rewrite omap_app, on_app, on_zero by done. destruct (Z.eqb_spec conn 0) as [->|]; [|done].
  by rewrite on_nobody.
Qed.

(** An event is answered by its effects as often as it asks: once, or not at all. *)
Lemma Reduce_asked rng s ev s' effs rng' :
  match ev with EvFrameSpawned sid fid _ _ _ _ _ => spawnTarget s sid fid = true | _ => True end ->
  Reduce reg idAt json rng s ev = Some (s', effs, rng') ->
  on c0 (omap answers effs) = on c0 (asked ev).
Proof.
  intros Ht. destruct (ordinary ev) eqn:Ho.
  { intros E. rewrite (Reduce_silent reg answers (fun _ H => H) answers_post Hq _ _ _ _ _ _ _ _ Ho E).
    by destruct ev. }
  destruct (command ev) as [[conn req]|] eqn:Ec.
  { intros E. assert (omap answers effs = [(conn, req)]) as ->.
    { by destruct (Reduce_replied _ _ _ _ _ _ _ _ _ _ _ Ec E) as [(_ & ? & ? & ->)|[? _]]. }
    destruct ev; try done; cbn in Ec; by injection Ec as -> ->. }
  assert (forall conn req code msg, on c0 (omap answers [errResp conn req code msg]) = on c0 [(conn, req)]) as Herr by done.
  destruct ev; try done; cbn [Reduce asked].
  - intros E%(inj Some). unfold reduceDriverHook in E. destruct (String.eqb _ _); [by injection E as _ <- _|].
    destruct (findFrame s sender); [|by injection E as _ <- _].
    destruct (stepDriver reg _ _ _) as [[s1 raw]|] eqn:Es; [|by injection E as _ <- _].
    apply (stepDriver_silent reg answers answers_post Hq) in Es.
    pose proof (driver_event_asked rng s1 conn req raw Es) as H.
    destruct (resolvePushDriverEffects _ _ _ _ _) as [[s2 effs2] rng2]. by injection E as _ <- _.
  - intros E%(inj Some). unfold reduceSubsystem in E. destruct (String.eqb _ _); [by injection E as _ <- _|].
    destruct (findFrame s fid) as [[[sid sess] idx]|]; [|by injection E as _ <- _].
    destruct (stepDriver reg _ _ _) as [[s1 raw]|] eqn:Es; [|by injection E as _ <- _].
    apply (stepDriver_silent reg answers answers_post Hq) in Es.
    pose proof (driver_event_asked rng s1 conn req raw Es) as H.
    destruct (resolvePushDriverEffects _ _ _ _ _) as [[s2 effs2] rng2]. by injection E as _ <- _.
  - intros [= _ <- _]. rewrite (frameSpawned_silent reg answers (fun _ H => H) answers_post Hq), Ht.
    destruct (Z.eqb_spec replyConn 0) as [->|]; [|done]. by rewrite on_nobody.
  - intros [= _ <- _]. rewrite (spawnFailed_silent answers (fun _ H => H)).
    destruct (Z.eqb_spec replyConn 0) as [->|]; [|done]. by rewrite on_nobody.
Qed.
End reducer.

(** ** Effects *)

Section replies.
Context {T : ClientTypes} {RT : RuntimeTypes} {MR : MapRange} {D : Deps}.
Abbreviation M := (Eff Call Reply).

(** The request a call answers. *)
Definition answeredBy (c : Call) : option Request :=
  match c with
  | CallQueueWire conn (WireResponse req _) | CallQueueWire conn (WireError req _ _ _)
  | CallWriteWire conn (WireResponse req _) | CallWriteWire conn (WireError req _ _ _) => Some (conn, req)
  | _ => None
  end.
Definition answered (cs : list Call) : list Request := omap answeredBy cs.

Definition mute (c : Call) : Prop := answeredBy c = None.

Lemma answered_mute cs : Forall mute cs -> answered cs = [].
Proof. induction 1 as [|c cs Hc _ IH]; [done|]. cbn. by rewrite Hc. Qed.

Lemma answered_app l1 l2 : answered (l1 ++ l2) = answered l1 ++ answered l2.
Proof. apply omap_app. Qed.

(** [m] answers nobody and keeps the connections. *)
Definition mutes (r : Runtime) (m : M Runtime) : Prop :=
  forall w h, exists cs, (m w h).2 = h ++ cs /\ Forall mute cs /\ R_conns (m w h).1 = R_conns r.

Lemma mutes_ret r r' : R_conns r' = R_conns r -> mutes r (mret r').
Proof. intros H w h. exists []. by rewrite app_nil_r. Qed.

Lemma mutes_bind r m f :
  mutes r m -> (forall r', R_conns r' = R_conns r -> mutes r (f r')) -> mutes r (m ≫= f).
Proof.
  intros Hm Hf w h. destruct (Hm w h) as (c1 & E1 & H1 & K1). unfold mbind, Eff_bind.
  destruct (m w h) as [r1 h1]. cbn [fst snd] in *. subst h1.
  destruct (Hf r1 K1 w (h ++ c1)) as (c2 & E2 & H2 & K2). exists (c1 ++ c2).
  rewrite E2, app_assoc. split_and!; [done|by apply Forall_app|done].
Qed.

Lemma mutes_bind_only {A} r (m : M A) f :
  only mute m -> (forall x, mutes r (f x)) -> mutes r (m ≫= f).
Proof.
  intros Hm Hf w h. destruct (Hm w h) as (c1 & E1 & H1). unfold mbind, Eff_bind.
  destruct (m w h) as [x h1]. cbn [fst snd] in *. subst h1.
  destruct (Hf x w (h ++ c1)) as (c2 & E2 & H2 & K2). exists (c1 ++ c2).
  rewrite E2, app_assoc. split_and!; [done|by apply Forall_app|done].
Qed.

Lemma mutes_eq r r' m : R_conns r' = R_conns r -> mutes r' m -> mutes r m.
Proof. intros E H w h. destruct (H w h) as (cs & ? & ? & ?). exists cs. split_and!; congruence. Qed.

Lemma mutes_foldM {A} (f : A -> Runtime -> M Runtime) l : (forall a r, mutes r (f a r)) ->
  forall r, mutes r (foldM f l r).
Proof.
  intros Hf. induction l as [|a l IH]; intros r; [by apply mutes_ret|]. cbn [foldM].
  apply mutes_bind; [apply Hf|]. intros r' E. by eapply mutes_eq.
Qed.

Lemma mute_callAll cs : Forall mute cs -> only mute (callAll cs).
Proof.
  induction 1 as [|c cs Hc _ IH]; [apply only_ret|]. cbn [callAll].
  apply only_bind; [by apply only_call|]. done.
Qed.

Lemma mute_foldM {A} (f : A -> unit -> M unit) l : (forall a u, only mute (f a u)) ->
  forall u, only mute (foldM f l u).
Proof.
  intros Hf. induction l as [|a l IH]; intros u; [apply only_ret|]. cbn [foldM].
  apply only_bind; [apply Hf|done].
Qed.

Lemma mute_mapM {A B} (f : A -> M B) l : (forall a, only mute (f a)) -> only mute (mapM f l).
Proof.
  intros Hf. induction l as [|a l IH]; [apply only_ret|]. cbn [mapM].
  apply only_bind; [apply Hf|]. intros b. apply only_bind; [done|]. intros bs. apply only_ret.
Qed.
End replies.

(** Steps through a computation, one call or branch at a time. *)
Ltac hush_step := first
  [ apply mutes_ret; reflexivity
  | apply only_ret
  | apply only_call; exact eq_refl
  | apply mute_callAll; repeat constructor
  | apply only_bind; [|intros ?]
  | apply mutes_bind_only; [solve [repeat first [apply only_call; exact eq_refl | apply mute_callAll; repeat constructor]]|intros ?]
  | case_match ].
Ltac hush := repeat hush_step.

Section ops.
Context {T : ClientTypes} {RT : RuntimeTypes} {MR : MapRange} {D : Deps}.
Abbreviation M := (Eff Call Reply).

Lemma queueEvent_mutes conn ev r : mutes r (queueWire conn (WireEvent ev) r).
Proof. unfold queueWire. hush. Qed.

Lemma broadcastWire_mutes ev name r : mutes r (broadcastWire (WireEvent ev) name r).
Proof. unfold broadcastWire. apply mutes_foldM. intros kv r'. case_match; [apply queueEvent_mutes|hush]. Qed.

Lemma broadcastSurface_mutes sid ev r : mutes r (broadcastSurface sid (WireEvent ev) r).
Proof. unfold broadcastSurface. apply mutes_foldM. intros kv r'. case_match; [apply queueEvent_mutes|hush]. Qed.

Lemma syncRelayWatches_mute r : only mute (syncRelayWatches r).
Proof.
  unfold syncRelayWatches. case_match; [|apply only_ret]. apply mute_callAll.
  apply Forall_forall. intros c. unfold relayWatches. rewrite list_elem_of_bind.
  intros (kv & Hc & _). repeat case_match; try by apply elem_of_nil in Hc.
  by apply list_elem_of_fmap in Hc as (lt & -> & _).
Qed.

Lemma buildSessionInfos_mute s : only mute (buildSessionInfos s).
Proof.
  unfold buildSessionInfos. apply only_bind; [|intros; apply only_ret].
  apply mute_mapM. intros sess. unfold buildOneSessionInfo. hush.
Qed.

Lemma translateResponseBody_mute s body : only mute (translateResponseBody s body).
Proof.
  destruct body; cbn [translateResponseBody]; try apply only_ret.
  - apply only_bind; [apply buildSessionInfos_mute|intros; apply only_ret].
  - unfold buildSurfaceText. hush.
Qed.

Lemma tapStop_mutes fid r : mutes r (tapStop fid r).
Proof. unfold tapStop. hush. Qed.

Lemma tapStart_mutes fid r : mutes r (tapStart fid r).
Proof.
  unfold tapStart. case_match; [hush|]. apply mutes_bind; [apply tapStop_mutes|]. intros r' E.
  eapply mutes_eq; [exact E|]. hush.
Qed.

Lemma executeKillSessionWindow_mutes fid r : mutes r (executeKillSessionWindow fid r).
Proof.
  unfold executeKillSessionWindow, reapSubsystemIfLast.
  do 2 (apply mutes_bind_only; [hush|intros _]). cbv zeta.
  destruct (Cfg_Warm cfg); (case_match; [|hush]); hush.
Qed.

Lemma executeUnregisterFrame_mutes fid r : mutes r (executeUnregisterFrame fid r).
Proof.
  unfold executeUnregisterFrame. apply mutes_bind; [apply tapStop_mutes|]. intros r' E.
  eapply mutes_eq; [exact E|]. apply mutes_bind_only; [hush|intros _].
  apply mutes_bind_only; [case_match; hush|intros _]. hush.
Qed.

Lemma executeFrameEffect_mutes eff r : mutes r (executeFrameEffect eff r).
Proof.
  destruct eff; cbn [executeFrameEffect]; try (by hush).
  - apply executeKillSessionWindow_mutes.
  - case_match; [apply tapStart_mutes|hush].
  - apply executeUnregisterFrame_mutes.
  - apply mutes_bind_only; [|intros _; hush]. unfold reconcileWindows. apply mute_foldM. intros fid u.
    unfold reconcileFrame. hush.
Qed.

Lemma executeSurfaceEffect_mutes eff r : mutes r (executeSurfaceEffect eff r).
Proof.
  destruct eff; cbn [executeSurfaceEffect]; cbv zeta; try (by hush).
  - apply broadcastSurface_mutes.
  - unfold broadcastPromptEvent. case_match; [hush|].
    apply mutes_bind_only; [hush|]. intros rep. apply broadcastSurface_mutes.
Qed.

Lemma executeMiscEffect_mutes eff r : mutes r (executeMiscEffect eff r).
Proof.
  destruct eff; cbn [executeMiscEffect]; try (by hush).
  - unfold drainFrameCleanups, invokeFrameCleanup.
    apply mutes_bind_only; [apply mute_callAll, Forall_map, Forall_true; by intros|intros _].
    apply mutes_bind.
    + cbv zeta. apply mutes_bind_only; [apply mute_callAll, Forall_map, Forall_true; by intros|intros _].
      by apply mutes_ret.
    + intros r' E. apply mutes_bind_only; [hush|intros _]. by apply mutes_ret.
  - unfold invokeFrameCleanup. cbv zeta. destruct (R_sandboxCleanups r !! fid); hush.
  - unfold executeRecordNotification. apply mutes_bind; [apply broadcastWire_mutes|]. intros r' E.
    eapply mutes_eq; [exact E|]. hush.
Qed.
End ops.

(** ** Answers *)

Section answers.
Context {T : ClientTypes} {RT : RuntimeTypes} {MR : MapRange} {D : Deps}.
Abbreviation M := (Eff Call Reply).
Context (c0 : Z).

(** If [c0] is connected at the end, [m] answers the requests [ans] on it. *)
Definition speaks (r : Runtime) (ans : list Request) (m : M Runtime) : Prop :=
  forall w h, exists cs, (m w h).2 = h ++ cs /\
    (c0 ∈ R_conns (m w h).1 -> c0 ∈ R_conns r /\ on c0 (answered cs) = on c0 ans).

Lemma mutes_speaks r m : mutes r m -> speaks r [] m.
Proof.
  intros H w h. destruct (H w h) as (cs & E & Hm & K). exists cs. split; [done|]. rewrite K, answered_mute by done. done.
Qed.

(** A reply on [conn], which is sent if [conn] is connected. *)
Lemma reply_speaks conn req r m :
  (conn ∉ R_conns r -> mutes r m) ->
  (conn ∈ R_conns r -> forall w h, exists cs, (m w h).2 = h ++ cs /\ answered cs = [(conn, req)] /\
     R_conns (m w h).1 = R_conns r) ->
  speaks r [(conn, req)] m.
Proof.
  intros Hn Hy w h. destruct (decide (conn ∈ R_conns r)) as [Hi|Hi].
  - destruct (Hy Hi w h) as (cs & E & Ha & K). exists cs. by rewrite K, Ha.
  - destruct (Hn Hi w h) as (cs & E & Hm & K). exists cs. split; [done|]. rewrite K, answered_mute by done.
    intros Hc. split; [done|]. unfold on. cbn [List.filter fst]. by destruct (Z.eqb_spec conn c0) as [->|].
Qed.

Lemma queueWire_speaks conn req wire r :
  answeredBy (CallQueueWire conn wire) = Some (conn, req) -> speaks r [(conn, req)] (queueWire conn wire r).
Proof.
  intros Ha. unfold queueWire. apply reply_speaks; intros Hi.
  - rewrite decide_False by done. by apply mutes_ret.
  - rewrite decide_True by done. intros w h. exists [CallQueueWire conn wire]. split_and!; [done| |done].
    unfold answered. cbn [omap list_omap]. by rewrite Ha.
Qed.

Lemma send_speaks conn req body r (k : Response -> M Runtime) :
  (forall resp w h, exists c, k resp w h = (r, h ++ [c]) /\ answeredBy c = Some (conn, req)) ->
  speaks r [(conn, req)] (if decide (conn ∈ R_conns r) then resp ← translateResponseBody (R_state r) body; k resp else mret r).
Proof.
  intros Hk. apply reply_speaks; intros Hi.
  - rewrite decide_False by done. by apply mutes_ret.
  - rewrite decide_True by done. intros w h. unfold mbind, Eff_bind.
    destruct (translateResponseBody_mute (R_state r) body w h) as (cs & E & Hm).
    destruct (translateResponseBody (R_state r) body w h) as [resp h1]. cbn [snd] in E. subst h1.
    destruct (Hk resp w (h ++ cs)) as (c & E & Ha). rewrite E. exists (cs ++ [c]).
    rewrite answered_app, answered_mute, <- app_assoc by done. unfold answered. cbn [omap list_omap]. by rewrite Ha.
Qed.

Lemma sendResponse_speaks conn req body r : speaks r [(conn, req)] (sendResponse conn req body r).
Proof.
  unfold sendResponse. destruct (decide (conn ∈ R_conns r)) as [Hi|Hi].
  - pose proof (send_speaks conn req body r (fun resp => queueWire conn (WireResponse req resp) r)) as H.
    rewrite decide_True in H by done. apply H. intros resp w h. unfold queueWire. rewrite decide_True by done.
    by eexists.
  - pose proof (send_speaks conn req body r (fun resp w h => (r, h ++ [CallQueueWire conn (WireResponse req resp)]))) as H.
    rewrite decide_False in H by done. apply H. intros. by eexists.
Qed.

(** The request an effect answers. *)
Definition replies (eff : Effect) : option Request :=
  match eff with
  | EffSendResponse conn req _ | EffSendResponseSync conn req _ | EffSendError conn req _ _ _
  | EffSendFrameKeys conn req _ _ _ _ => Some (conn, req)
  | _ => None
  end.

Lemma executeIPCEffect_speaks eff r : replies eff = None \/ (forall conn req sid text key enter, eff <> EffSendFrameKeys conn req sid text key enter) ->
  speaks r (option_list (replies eff)) (executeIPCEffect eff r).
Proof.
  intros Hk. destruct eff; cbn [executeIPCEffect replies option_list]; try by apply mutes_speaks, mutes_ret.
  - apply sendResponse_speaks.
  - unfold sendResponseSync. apply send_speaks. intros resp w h. by eexists.
  - by apply queueWire_speaks.
  - apply mutes_speaks. unfold broadcastSessionsChanged.
    apply mutes_bind_only; [apply syncRelayWatches_mute|intros _].
    apply mutes_bind_only; [apply buildSessionInfos_mute|intros]. apply broadcastWire_mutes.
  - apply mutes_speaks. unfold broadcastGenericEvent. repeat case_match; hush. apply broadcastWire_mutes.
  - unfold closeConn. case_decide; [|by apply mutes_speaks, mutes_ret].
    intros w h. exists [CallShut conn]. split; [done|]. cbn. set_solver.
  - destruct Hk as [Hk|Hk]; [done|]. by edestruct Hk.
Qed.

Lemma executeSendFrameKeys_speaks conn req sid text key enter r :
  speaks r [(conn, req)] (executeSendFrameKeys conn req sid text key enter r).
Proof.
  unfold executeSendFrameKeys. cbv zeta.
  assert (forall code msg, speaks r [(conn, req)] (executeIPCEffect (sendError conn req code msg) r)) as He
    by (intros; by apply queueWire_speaks).
  case_decide; [apply He|]. set (c := if enter then _ else _).
  assert (answeredBy c = None) as Hc by (unfold c; by destruct enter).
  intros w h. unfold mbind, Eff_bind, call.
  assert (speaks r [(conn, req)] (match errOf (w h c) with
    | Some (_, err) => executeIPCEffect (sendError conn req "internal" err) r
    | None => executeIPCEffect (EffSendResponse conn req BodyNil) r end)) as Hm.
  { destruct (errOf _) as [[missing err]|]; [apply He|apply sendResponse_speaks]. }
  destruct (Hm w (h ++ [c])) as (cs & E & Hs). exists (c :: cs). rewrite E, <- app_assoc. split; [done|].
  unfold answered. cbn [omap list_omap]. by rewrite Hc.
Qed.

Lemma execute_speaks eff r : speaks r (option_list (replies eff)) (execute eff r).
Proof.
  destruct eff; cbn [execute];
    first [apply (executeIPCEffect_speaks _ r); by right
          |apply executeSendFrameKeys_speaks
          |apply mutes_speaks; first [apply executeFrameEffect_mutes|apply executeSurfaceEffect_mutes
             |apply executeMiscEffect_mutes|idtac]].
  all: cbn [executeFSEffect]; hush.
Qed.

Lemma executeAll_speaks effs : forall r, speaks r (omap replies effs) (foldM execute effs r).
Proof.
  induction effs as [|eff effs IH]; intros r w h; [exists []; by rewrite app_nil_r|].
  cbn [foldM]. unfold mbind, Eff_bind.
  destruct (execute_speaks eff r w h) as (c1 & E1 & H1). destruct (execute eff r w h) as [r1 h1]. cbn [fst snd] in *. subst h1.
  destruct (IH r1 w (h ++ c1)) as (c2 & E2 & H2). exists (c1 ++ c2). rewrite E2, app_assoc. split; [done|].
  intros Hc. destruct (H2 Hc) as [Hc1 E3]. destruct (H1 Hc1) as [Hc2 E4]. split; [done|].
  rewrite answered_app, on_app, E3, E4, <- on_app. f_equal. cbn [omap list_omap]. by destruct (replies eff).
Qed.

(** ** Spawns *)

(** The request a spawn answers. *)
Definition replyOf (e : SpawnRequest) : Request := (Spawn_ReplyConn e, Spawn_ReplyReqID e).

(** What is answered at once, and what with a frame. *)
Lemma answers_split effs :
  omap answers effs ≡ₚ omap replies effs ++ map replyOf (omap spawnRequest effs).
Proof.
  induction effs as [|eff effs IH]; [done|]. cbn [omap list_omap].
  destruct eff; cbn [answers replies spawnRequest map app]; try exact IH; try by rewrite IH.
  rewrite IH. cbn [app]. apply Permutation_middle.
Qed.

Context (Hc0 : c0 <> 0) (Hq : silent_drivers reg answers).

Lemma dispatch_answers ev r w h r' h' :
  match ev with EvFrameSpawned sid fid _ _ _ _ _ => spawnTarget (R_state r) sid fid = true | _ => True end ->
  dispatch ev r w h = (Some r', h') ->
  exists cs, h' = h ++ cs /\ (c0 ∈ R_conns r' -> c0 ∈ R_conns r /\
    on c0 (answered cs) ++ on c0 (map replyOf (started cs)) ≡ₚ on c0 (asked ev)).
Proof.
  intros Ht E. unfold dispatch in E.
  destruct (Reduce _ _ _ _ _ ev) as [[[next effs] rng]|] eqn:Er; [|done]. cbv zeta in E.
  set (r1 := r <| R_state := next |> <| R_rng := rng |>) in E. unfold mbind, Eff_bind in E.
  destruct (executeAll_speaks effs r1 w h) as (cs & E1 & Hs).
  destruct (execute_all effs r1 w h) as (cs' & E2 & Hran).
  destruct (foldM execute effs r1 w h) as [r2 h2]. cbn [fst snd] in *. subst h2. apply app_inv_head in E2 as <-.
  injection E as <- <-. exists cs. split; [done|]. intros Hc.
  assert (forall prev next r, R_conns (reconcilePersist prev next r) = R_conns r) as Hrec.
  { clear. intros prev next r. unfold reconcilePersist. destruct (sameSessionMap prev next); [done|].
    set (ids := List.filter _ _). assert (forall r, R_conns (foldl (fun r id => deleteSession id r) r ids) = R_conns r) as H.
    { induction ids as [|id ids IH]; intros r0; [done|]. cbn. by rewrite IH. }
    specialize (H r). case_decide; [done|]. exact H. }
  rewrite Hrec in Hc. destruct (Hs Hc) as [Hc1 Ha]. split; [exact Hc1|].
  rewrite (ran_started _ _ _ _ Hran), Ha, <- on_app, <- answers_split.
  by rewrite (Reduce_asked reg idAt json c0 Hc0 Hq _ _ _ _ _ _ Ht Er).
Qed.
End answers.

(** ** Steps of the system *)

Section steps.
Context {T : ClientTypes} {RT : RuntimeTypes} {MR : MapRange} {D : Deps}.
Abbreviation M := (Eff Call Reply).

(** The goroutine answers nobody; its result carries the request of [e]. *)
Definition carries (e : SpawnRequest) (m : M (Event + SpawnComplete)) : Prop :=
  forall w h, exists cs, (m w h).2 = h ++ cs /\ Forall mute cs /\
    match (m w h).1 with inl ev => exists msg, sendFailed e msg = inl ev | inr c => Done_effect c = e end.

Lemma carries_failed e msg : carries e (mret (sendFailed e msg)).
Proof. intros w h. exists []. rewrite app_nil_r. split_and!; [done..|]. by exists msg. Qed.

Lemma carries_call e c k : mute c -> (forall rep, carries e (k rep)) -> carries e (recovering e c k).
Proof.
  intros Hc Hk w h. unfold recovering, mbind, Eff_bind, call.
  assert (carries e (match w h c with RPanic text => mret (sendFailed e ("spawn panicked: " +:+ text)) | _ => k (w h c) end))
    as Hm by (destruct (w h c); try apply Hk; apply carries_failed).
  destruct (Hm w (h ++ [c])) as (cs & E & Hf & Hr). exists (c :: cs). rewrite E, <- app_assoc.
  split_and!; [done|by constructor|done].
Qed.

Lemma carries_undo e cleanup sub msg : carries e (undoSpawn e cleanup sub msg).
Proof.
  assert (carries e (recovering e (CallReleaseFrame sub (Spawn_FrameID e)) (fun _ => mret (sendFailed e msg)))) as Hm.
  { apply carries_call; [done|]. intros _. apply carries_failed. }
  unfold undoSpawn. destruct cleanup; [|done]. by apply carries_call.
Qed.

Lemma carries_spawn e : carries e (spawnFrameWindow e).
Proof.
  assert (forall sub id b wl token, carries e (startFrame e sub id b wl token)) as Hstart.
  { intros sub id b wl token. unfold startFrame, buildSpawnCommand.
    assert (forall cmd, carries e (startCommand e sub id b wl token cmd)) as Hm.
    { intros cmd. apply carries_call; [done|]. intros rep. destruct (errOf rep) as [[missing err]|]; [apply carries_undo|].
      intros w h. exists []. by rewrite app_nil_r. }
    case_match; [apply Hm|]. case_match; [apply Hm|]. apply carries_call; [done|]. intros []; apply Hm. }
  unfold spawnFrameWindow, ensureSubsystemOnce. cbv zeta.
  destruct (existsb _ _); [|apply carries_failed].
  apply carries_call; [done|]. intros [| | | | | | |sub id| | |]; try apply carries_failed.
  apply carries_call; [done|]. intros [| | | | | | | |b| |]; try apply carries_failed.
  unfold wrapLaunchForSpawn. apply carries_call; [done|].
  assert (forall env (f : Reply -> string) token, carries e
    (recovering e (CallWrapLaunch (Spawn_FrameID e) (Bind_Plan b) env) (fun rep =>
      match rep with RWrapped wl => startFrame e sub id b wl token | _ => undoSpawn e None sub (f rep) end))) as Hwrap.
  { intros env f token. apply carries_call; [done|]. intros []; try apply carries_undo. apply Hstart. }
  intros [| | |[]| | | | | | |]; try apply (Hwrap _ errorText).
  apply carries_call; [done|].
  intros [| | | |token| | | | | |]; try apply carries_undo.
  apply (Hwrap _ (fun rep => "launcher wrap: " +:+ errorText rep)).
Qed.

(** What an input asks to be answered.  A stream that ends unsubscribes in the
    name of its client, with an empty id, and the client is answered. *)
Definition askedBy (i : Input) : list Request :=
  match i with
  | InEvent ev => asked ev
  | InInternal (InternalSurfaceClosed conn _) => [(conn, EmptyString)]
  | _ => []
  end.

Context (c0 : Z) (Hc0 : c0 <> 0) (Hq : silent_drivers reg answers).

(** [asks] is answered, or goes with the frames that are started. *)
Definition serves (h : list Call) (asks : list Request) (r' : Runtime) (h' : list Call) : Prop :=
  exists cs, h' = h ++ cs /\ (c0 ∈ R_conns r' ->
    on c0 (answered cs) ++ on c0 (map replyOf (started cs)) ≡ₚ on c0 asks).

Lemma serves_after r h cs0 asks r' h' : Forall mute cs0 -> started cs0 = [] ->
  (exists cs, h' = (h ++ cs0) ++ cs /\ (c0 ∈ R_conns r' -> c0 ∈ R_conns r /\
    on c0 (answered cs) ++ on c0 (map replyOf (started cs)) ≡ₚ on c0 asks)) ->
  serves h asks r' h'.
Proof.
  intros Hm Hs (cs & -> & H). exists (cs0 ++ cs). rewrite app_assoc. split; [done|]. intros Hc.
  rewrite answered_app, answered_mute, started_app, Hs by done. by apply H.
Qed.

Lemma mutes_serves r m w h r' h' : mutes r m -> keeps r m -> (m ≫= (fun r => mret (Some r))) w h = (Some r', h') ->
  serves h [] r' h'.
Proof.
  intros Hm Hk E. unfold mbind, Eff_bind in E. destruct (Hm w h) as (cs & E1 & Hf & _).
  destruct (Hk w h) as (cs' & E2 & Hn & _). rewrite E1 in E2. apply app_inv_head in E2 as <-.
  destruct (m w h) as [r1 h1]. cbn [snd] in *. injection E as <- <-. subst h1.
  destruct (neutral_calls _ Hn) as (_ & Es & _). exists cs. rewrite answered_mute, Es by done. done.
Qed.

Lemma startRestoredTaps_mutes r : mutes r (startRestoredTaps r).
Proof. unfold startRestoredTaps. apply mutes_foldM. intros kv r0. case_match; [hush|apply tapStart_mutes]. Qed.

Lemma iterate_serves i r w h r' h' :
  isCompletion i = false -> match i with InEvent (EvFrameSpawned _ _ _ _ _ _ _) => False | _ => True end ->
  iterate i r w h = (Some r', h') -> serves h (askedBy i) r' h'.
Proof.
  intros Hi Hev E. assert (forall ev r0 cs0,
    match ev with EvFrameSpawned _ _ _ _ _ _ _ => False | _ => True end -> Forall mute cs0 -> started cs0 = [] ->
    dispatch ev r0 w (h ++ cs0) = (Some r', h') -> serves h (asked ev) r' h') as Hd.
  { intros ev r0 cs0 Hx Hm Hs Ed. apply (serves_after r0 h cs0); [done|done|].
    eapply dispatch_answers; [exact Hc0|exact Hq| |exact Ed]. by destruct ev. }
  assert (forall ev r0, match ev with EvFrameSpawned _ _ _ _ _ _ _ => False | _ => True end ->
    dispatch ev r0 w h = (Some r', h') -> serves h (asked ev) r' h') as Hd0.
  { intros ev r0 Hx Ed. apply (Hd ev r0 []); [done|done|done|]. by rewrite app_nil_r. }
  destruct i as [ev|ev|now|job res err|fid path]; cbn [iterate askedBy] in *;
    [by apply (Hd0 ev r)| |exact (Hd0 (EvTick now _) _ I E)|exact (Hd0 (EvJobResult job res err) _ I E)
    |exact (Hd0 (EvFileChanged fid path) _ I E)].
  destruct ev; try done; cbn [dispatchInternal] in E.
  - exact (Hd0 (EvConnOpened _) _ I E).
  - unfold handleConnClose, closeConn, mbind, Eff_bind in E. case_decide.
    + eapply (Hd (EvConnClosed id) _ [CallShut id]); [done|by repeat constructor|done|exact E].
    + exact (Hd0 (EvConnClosed id) _ I E).
  - eapply (mutes_serves r (_ ← syncRelayWatches _; mret (r <| R_relay := true |>))); [| |rewrite Eff_assoc; exact E].
    + apply mutes_bind_only; [apply syncRelayWatches_mute|]. intros _. by apply mutes_ret.
    + apply keeps_bind_only; [apply syncRelayWatches_only|]. intros _. by apply keeps_ret.
  - eapply mutes_serves; [apply broadcastWire_mutes|apply broadcastWire_keeps|exact E].
  - eapply mutes_serves; [apply startRestoredTaps_mutes|apply startRestoredTaps_keeps|exact E].
  - eapply mutes_serves; [apply queueEvent_mutes|apply queueWire_keeps|exact E].
  - destruct (Cfg_SurfaceBackend cfg).
    + unfold mbind, Eff_bind in E. rewrite callAll_run in E.
      eapply (Hd (EvCmdSurfaceUnsubscribe conn EmptyString sid) _ [CallSurfaceUnsubscribe conn sid]);
        [done|by repeat constructor|done|exact E].
    + exact (Hd0 (EvCmdSurfaceUnsubscribe conn EmptyString sid) _ I E).
Qed.

Lemma spawnTargetAlive_target s sid fid : spawnTargetAlive s sid fid = true -> spawnTarget s sid fid = true.
Proof.
  unfold spawnTargetAlive, spawnTarget. destruct (Sessions s !! sid) as [sess|]; [|done].
  unfold findFrameIndex. intros H. induction (Session_Frames sess) as [|f fs IH]; [done|].
  cbn in *. destruct (String.eqb _ _); [done|]. cbn in H. specialize (IH H). by destruct (frameIndex fs fid).
Qed.

Lemma complete_serves c r w h r' h' :
  handleSpawnComplete c r w h = (Some r', h') -> serves h [replyOf (Done_effect c)] r' h'.
Proof.
  intros E. unfold handleSpawnComplete in E. cbv zeta in E.
  destruct (spawnTargetAlive _ _ _) eqn:Ha; cbn [negb] in E.
  - apply spawnTargetAlive_target in Ha. change (storeFrameCleanup _ _ _) with (stored c r) in E.
    unfold mbind, Eff_bind in E.
    assert (exists r2 cs0, (if decide (Done_token c = EmptyString) then mret (stored c r)
      else registerContainerFrame (Spawn_FrameID (Done_effect c)) (Spawn_Project (Done_effect c)) (Done_containerSockDir c)
        (Done_token c) (Done_mounts c) (stored c r)) w h = (r2, h ++ cs0) /\ Forall mute cs0 /\ started cs0 = [] /\
      R_state r2 = R_state r) as (r2 & cs0 & E2 & Hm & Hs & Hst).
    { assert (R_state (stored c r) = R_state r) as Hst by (unfold stored; by destruct (Done_cleanup c)).
      case_decide; [exists (stored c r), []; by rewrite app_nil_r|].
      unfold registerContainerFrame, startContainerEndpointIfNeeded, mbind, Eff_bind, mret, Eff_ret, call. cbn.
      destruct (decide (_ ∈ _)).
      - eexists _, []. rewrite app_nil_r. split; [reflexivity|]. by destruct (Cfg_Warm cfg).
      - destruct (failedReply _); (eexists _, [_]; split; [reflexivity|]; split_and!; [by repeat constructor|done|]);
          by destruct (Cfg_Warm cfg). }
    rewrite E2 in E. eapply (serves_after r2 h cs0); [done|done|].
    eapply dispatch_answers in E; [exact E|exact Hc0|exact Hq|]. by rewrite Hst.
  - unfold discardSpawnResult, mbind, Eff_bind in E. cbn [call] in E. cbv zeta in E.
    rewrite callAll_run in E. unfold call in E. cbv beta zeta iota in E. rewrite <- app_assoc in E.
    eapply (serves_after r h); [| |eapply dispatch_answers in E; [exact E|exact Hc0|exact Hq|done]].
    + by destruct (Done_cleanup c); repeat constructor.
    + by destruct (Done_cleanup c).
Qed.

(** ** The queue of events

    Clients, taps and subsystems put events into it without waiting, and so do
    the loop itself and the goroutines whose spawn failed. *)

Record Served := mkServed {
  V_sys : Sys;
  V_queue : list Event;
  V_asked : list Request;                   (** requests that were made *)
  V_dropped : list (Event * list Event);    (** events that were dropped, and the queue then *)
}.

Definition eventCap : Z := 256.

(** [Enqueue]: an event that finds the queue full is dropped. *)
Definition Enqueue (ev : Event) (sys : Sys) (queue : list Event) (asks : list Request)
    (dropped : list (Event * list Event)) : Served :=
  if Z.of_nat (length queue) <? eventCap then mkServed sys (queue ++ [ev]) asks dropped
  else mkServed sys queue asks (dropped ++ [(ev, queue)]).

(** Events that are about the outcome of a spawn come from the runtime. *)
Definition aboutSpawn (ev : Event) : bool :=
  match ev with EvFrameSpawned _ _ _ _ _ _ _ | EvSpawnFailed _ _ _ _ _ => true | _ => false end.

(** An event arrives; the loop takes an event, or another input; a goroutine
    ends, with a completion that waits for the loop, or with a report of its
    failure; the loop takes a completion. *)
Inductive serve (w : World Call Reply) : Served -> Served -> Prop :=
| Serve_arrive ev sys queue asks dropped :
    aboutSpawn ev = false ->
    serve w (mkServed sys queue asks dropped) (Enqueue ev sys queue (asks ++ asked ev) dropped)
| Serve_event ev r h going done queue asks dropped r' cs :
    iterate (InEvent ev) r w h = (Some r', h ++ cs) ->
    serve w (mkServed (mkSys r h going done) (ev :: queue) asks dropped)
      (mkServed (mkSys r' (h ++ cs) (going ++ started cs) done) queue asks dropped)
| Serve_input i r h going done queue asks dropped r' cs :
    match i with InEvent _ => False | _ => isCompletion i = false end ->
    iterate i r w h = (Some r', h ++ cs) ->
    serve w (mkServed (mkSys r h going done) queue asks dropped)
      (mkServed (mkSys r' (h ++ cs) (going ++ started cs) done) queue (asks ++ askedBy i) dropped)
| Serve_spawned r h g1 e g2 done queue asks dropped c h' :
    spawnFrameWindow e w h = (inr c, h') ->
    serve w (mkServed (mkSys r h (g1 ++ e :: g2) done) queue asks dropped)
      (mkServed (mkSys r h' (g1 ++ g2) (done ++ [c])) queue asks dropped)
| Serve_failed r h g1 e g2 done queue asks dropped ev h' :
    spawnFrameWindow e w h = (inl ev, h') ->
    serve w (mkServed (mkSys r h (g1 ++ e :: g2) done) queue asks dropped)
      (Enqueue ev (mkSys r h' (g1 ++ g2) done) queue asks dropped)
| Serve_complete r h going d1 c d2 queue asks dropped r' cs :
    handleSpawnComplete c r w h = (Some r', h ++ cs) ->
    serve w (mkServed (mkSys r h going (d1 ++ c :: d2)) queue asks dropped)
      (mkServed (mkSys r' (h ++ cs) (going ++ started cs) (d1 ++ d2)) queue asks dropped).

(** A run during which the connection stays open. *)
Inductive servedFrom (w : World Call Reply) (v0 : Served) : Served -> Prop :=
| SF_start : servedFrom w v0 v0
| SF_step v v' : servedFrom w v0 v -> serve w v v' -> c0 ∈ R_conns (S_rt (V_sys v')) -> servedFrom w v0 v'.

(** Requests whose reply is on its way: with a goroutine, with a completion, or
    in the queue. *)
Definition owed (v : Served) : list Request :=
  map replyOf (S_going (V_sys v)) ++ map (fun c => replyOf (Done_effect c)) (S_done (V_sys v))
  ++ (V_queue v ≫= asked).

(** The requests made from [v] to [v'] and those owed before: answered, owed, or
    dropped with the queue full. *)
Definition settledUp (v v' : Served) : Prop :=
  exists calls asks lost,
    S_hist (V_sys v') = S_hist (V_sys v) ++ calls /\ V_asked v' = V_asked v ++ asks /\
    V_dropped v' = V_dropped v ++ lost /\
    on c0 (owed v) ++ on c0 asks ≡ₚ on c0 (answered calls) ++ on c0 (owed v') ++ on c0 (lost.*1 ≫= asked) /\
    Forall (fun d => eventCap <= Z.of_nat (length d.2)) lost.

(** The outcome of a spawn is never waiting for one that was not made. *)
Definition queueOk (v : Served) : Prop :=
  Forall (fun ev => match ev with EvFrameSpawned _ _ _ _ _ _ _ => False | _ => True end) (V_queue v).

Lemma bind_asked_app l1 l2 : (l1 ++ l2) ≫= asked = (l1 ≫= asked) ++ (l2 ≫= asked).
Proof. apply bind_app. Qed.

(** An event that carries [asks] enters the queue, or is dropped. *)
Lemma Enqueue_settled ev sys queue asks dropped :
  let v' := Enqueue ev sys queue asks dropped in
  exists lost, V_sys v' = sys /\ V_asked v' = asks /\ V_dropped v' = dropped ++ lost /\
    (queue ≫= asked) ++ asked ev ≡ₚ (V_queue v' ≫= asked) ++ (lost.*1 ≫= asked) /\
    Forall (fun d => eventCap <= Z.of_nat (length d.2)) lost /\
    (V_queue v' = queue \/ V_queue v' = queue ++ [ev]).
Proof.
  unfold Enqueue. destruct (Z.ltb_spec (Z.of_nat (length queue)) eventCap).
  - exists []. cbn. rewrite bind_asked_app. cbn. rewrite !app_nil_r. split_and!; auto.
  - exists [(ev, queue)]. cbn. rewrite !app_nil_r. split_and!; auto.
Qed.

(** An iteration that serves [asks], which were owed or are new. *)
Lemma loop_settled r h going done queue asks dropped r' cs done' queue' more mine :
  serves h (mine ++ more) r' (h ++ cs) -> c0 ∈ R_conns r' ->
  map (fun c => replyOf (Done_effect c)) done ++ (queue ≫= asked)
    ≡ₚ mine ++ map (fun c => replyOf (Done_effect c)) done' ++ (queue' ≫= asked) ->
  settledUp (mkServed (mkSys r h going done) queue asks dropped)
    (mkServed (mkSys r' (h ++ cs) (going ++ started cs) done') queue' (asks ++ more) dropped).
Proof.
  intros (cs' & ->%app_inv_head & H) Hc E. specialize (H Hc). exists cs', more, [].
  cbn [V_sys V_asked V_dropped S_hist]. rewrite app_nil_r. split_and!; try done.
  unfold owed. cbn [V_sys V_queue S_going S_done fmap list_fmap mbind list_bind].
  change (on c0 []) with ([] : list Request). rewrite app_nil_r, E, map_app, !on_app. rewrite on_app in H.
  transitivity (on c0 (map replyOf going) ++ (on c0 mine ++ on c0 more)
    ++ on c0 (map (fun c => replyOf (Done_effect c)) done') ++ on c0 (queue' ≫= asked)); [solve_Permutation|].
  rewrite <- H. solve_Permutation.
Qed.

Lemma serve_settled w v v' :
  serve w v v' -> c0 ∈ R_conns (S_rt (V_sys v')) -> queueOk v -> queueOk v' /\ settledUp v v'.
Proof.
  intros Hs. destruct Hs as [ev sys queue asks dropped Ha|ev r h going done queue asks dropped r' cs E
    |i r h going done queue asks dropped r' cs Hi E|r h g1 e g2 done queue asks dropped c h' E
    |r h g1 e g2 done queue asks dropped ev h' E|r h going d1 c d2 queue asks dropped r' cs E];
    unfold queueOk; cbn [V_sys V_queue S_rt]; intros Hc Hok.
  - destruct (Enqueue_settled ev sys queue (asks ++ asked ev) dropped) as (lost & E1 & E2 & E3 & E4 & E5 & E6).
    split.
    { destruct E6 as [->| ->]; [done|]. apply Forall_app. split; [done|]. apply Forall_singleton. by destruct ev. }
    exists [], (asked ev), lost. rewrite E1, E2, E3. cbn [V_sys V_asked V_dropped S_hist]. rewrite app_nil_r.
    split_and!; try done. unfold owed. rewrite E1. cbn [V_sys V_queue answered omap list_omap].
    rewrite !on_app, <- !app_assoc, <- !on_app, E4. by rewrite !on_app.
  - apply Forall_cons in Hok as [Hev Hok]. split; [done|].
    apply iterate_serves in E; [|done|by destruct ev]. cbn [askedBy] in E.
    pose proof (loop_settled r h going done (ev :: queue) asks dropped r' cs done queue [] (asked ev)) as H0.
    rewrite !app_nil_r in H0. apply H0; [exact E|exact Hc|]. cbn [mbind list_bind]. solve_Permutation.
  - split; [done|]. apply iterate_serves in E; [|by destruct i|by destruct i].
    by apply (loop_settled _ _ _ _ _ _ _ _ _ _ _ _ []).
  - split; [done|]. destruct (carries_spawn e w h) as (cs & E1 & Hm & Hr). rewrite E in E1, Hr. cbn [fst snd] in *. subst h'.
    exists cs, [], []. cbn [V_sys V_asked V_dropped S_hist]. rewrite !app_nil_r. split_and!; try done.
    unfold owed. cbn [V_sys V_queue S_going S_done fmap list_fmap mbind list_bind].
    rewrite answered_mute by done. change (on c0 []) with ([] : list Request). cbn [app]. rewrite !map_app. cbn [map]. rewrite Hr. f_equiv.
    solve_Permutation.
  - destruct (carries_spawn e w h) as (cs & E1 & Hm & Hr). rewrite E in E1, Hr. cbn [fst snd] in *. subst h'.
    destruct Hr as [msg [= <-]].
    set (ev := EvSpawnFailed _ _ _ _ _) in *.
    destruct (Enqueue_settled ev (mkSys r (h ++ cs) (g1 ++ g2) done) queue asks dropped) as (lost & F1 & F2 & F3 & F4 & F5 & F6).
    split.
    { destruct F6 as [->| ->]; [done|]. apply Forall_app. split; [done|]. by apply Forall_singleton. }
    exists cs, [], lost. rewrite F1, F2, F3. cbn [V_sys V_asked V_dropped S_hist]. rewrite app_nil_r.
    split_and!; try done. unfold owed. rewrite F1. cbn [V_sys V_queue S_going S_done].
    rewrite answered_mute by done. change (on c0 []) with ([] : list Request). cbn [app]. rewrite app_nil_r, <- on_app. f_equiv.
    rewrite <- !app_assoc, <- F4, !map_app. cbn [map asked]. unfold ev. cbn [asked]. unfold replyOf at 2. solve_Permutation.
  - split; [done|]. apply complete_serves in E.
    pose proof (loop_settled r h going (d1 ++ c :: d2) queue asks dropped r' cs (d1 ++ d2) queue [] [replyOf (Done_effect c)]) as H0.
    rewrite !app_nil_r in H0. apply H0; [exact E|exact Hc|]. rewrite !map_app. cbn [map]. solve_Permutation.
Qed.

Lemma settledUp_trans v1 v2 v3 : settledUp v1 v2 -> settledUp v2 v3 -> settledUp v1 v3.
Proof.
  intros (c1 & a1 & l1 & E1 & E2 & E3 & E4 & E5) (c2 & a2 & l2 & F1 & F2 & F3 & F4 & F5).
  exists (c1 ++ c2), (a1 ++ a2), (l1 ++ l2). rewrite F1, F2, F3, E1, E2, E3, !app_assoc. split_and!; try done.
  - rewrite on_app, app_assoc, E4, answered_app, fmap_app, bind_asked_app, !on_app.
    transitivity (on c0 (answered c1) ++ (on c0 (owed v2) ++ on c0 a2) ++ on c0 (l1.*1 ≫= asked)); [solve_Permutation|].
    rewrite F4. solve_Permutation.
  - by apply Forall_app.
Qed.

Lemma servedFrom_settled w v0 v : servedFrom w v0 v -> queueOk v0 -> queueOk v /\ settledUp v0 v.
Proof.
  intros Hr H0. induction Hr as [|v v' _ [IH1 IH2] Hs Hc].
  - split; [done|]. exists [], [], []. rewrite !app_nil_r. by split_and!.
  - destruct (serve_settled _ _ _ Hs Hc IH1) as [Hok Hu]. split; [done|]. by eapply settledUp_trans.
Qed.
End steps.
