(* ===== verification/RuntimeProps.v ===== *)
(** * client/runtime: what the daemon guarantees

    Cleanups and tokens of frames over any interleaving of the loop and its
    spawn goroutines, the session files, and a restart. *)

From S2P Require Import Prelude GoStd GoText GoTime GoIO GoJson GoMarshal GoPath GoDisk Pathmap ClientView ClientState ClientReduce ClientInv ClientGraph ClientSteps ClientRollback ClientProps DriverTypes DriverText DriverCommon DriverShell DriverClaude DriverCodex DriverGemini DriverRegistry DriverPersist DriverProps FrameReg RuntimePersist RuntimeStore Runtime RuntimeInv RuntimeSys RuntimeDurable RuntimeBoot RuntimeBootInv RuntimeReply.
Open Scope Z_scope.

Import filepath os.

Section props.
Context {T : ClientTypes} {RT : RuntimeTypes} {MR : MapRange} {D : Deps}.

(** A daemon without sessions. *)
Definition newSys (features : gmap string bool) (disk : Disk) : Sys :=
  mkSys (New features disk) [] [] [].

Lemma newSys_ok features disk : sysOk (newSys features disk).
Proof.
  split; cbn.
  - apply wf_graph_New.
  - intros fid. rewrite lookup_empty. by intros [].
  - apply framereg.New_consistent.
  - intros fid. rewrite lookup_empty. by intros [].
  - constructor.
  - intros fid H. by apply elem_of_nil in H.
  - intros fid H. by apply elem_of_nil in H.
Qed.

(** A daemon that enters its loop after the boot. *)
Definition bootedSys (features : gmap string bool) (disk : Disk) (w : World Call Reply) : Sys :=
  let '(r, h) := bootSession (New features disk) w [] in mkSys r h [] [].

Lemma bootedSys_ok features disk w :
  wf_graph idAt (O, shapes (R_state (LoadSnapshot true (New features disk) w []).1.1)) ->
  sysOk (bootedSys features disk w).
Proof.
  intros H%bootSession_ok. unfold bootedSys. by destruct (bootSession (New features disk) w []) as [r h].
Qed.

(** C3: Whatever the launcher, the subsystems and the backend answer, panics
    included, and however the loop and the spawn goroutines interleave, from any
    state whose sandboxes and tokens are those of frames that exist (a new
    daemon, or one after its boot): every sandbox that was held then or acquired
    since has been released exactly once, is registered for a frame that still
    exists, is in a completion on its way to the loop, or was lost because its
    goroutine panicked between the acquisition and the start of the window.
    What the boot itself does is not covered. *)
Theorem sandboxes_accounted w s0 s :
  supply_ok idAt -> drivers_push reg -> sysOk s0 -> rtc (sysStep w) s0 s ->
  (exists calls, S_hist s = S_hist s0 ++ calls /\
     (registered (S_rt s0) ++ inFlight (S_done s0)) ++ acquired_go w (S_hist s0) calls
     ≡ₚ released calls ++ (registered (S_rt s) ++ inFlight (S_done s)) ++ lost_go w (S_hist s0) calls) /\
  forall fid, is_Some (R_sandboxCleanups (S_rt s) !! fid) -> has_frame (shapes (R_state (S_rt s))) fid.
Proof.
  intros Hid Hpush H0 Hr. destruct (reached_ok Hid Hpush _ _ _ Hr H0) as [Hok Hac]. split; [exact Hac|]. apply Hok.
Qed.

(** C14: A container token is worth something only while its frame exists, and
    a frame has at most one. *)
Theorem tokens_expire w s0 s token fid :
  supply_ok idAt -> drivers_push reg -> sysOk s0 -> rtc (sysStep w) s0 s ->
  framereg.Lookup (R_frameReg (S_rt s)) token = Some fid ->
  has_frame (shapes (R_state (S_rt s))) fid /\
  forall token', framereg.Lookup (R_frameReg (S_rt s)) token' = Some fid -> token' = token.
Proof.
  intros Hid Hpush H0 Hr Hl. destruct (reached_ok Hid Hpush _ _ _ Hr H0) as [Hok _].
  unfold framereg.Lookup in *. pose proof (proj2 (ok_consistent _ _ Hok fid token) Hl) as Ht. split; [apply (ok_tokens _ _ Hok); by eexists|].
  intros token' Hl'. apply (ok_consistent _ _ Hok) in Hl'. congruence.
Qed.


(** C13: Whatever operation of the disk fails, and however: after every
    iteration a session file holds a whole snapshot under its id, so that the
    next start without faults reads them all. *)
Theorem session_files_whole i r w h r' h' :
  placed -> storable (Sessions (R_state r)) -> storable (Sessions (R_state r')) ->
  sound (Cfg_Persist cfg) (R_disk r) -> iterate i r w h = (Some r', h') ->
  sound (Cfg_Persist cfg) (R_disk r') /\
  forall ok, (forall n op, ok n op = None) -> persist.dir (Cfg_Persist cfg) ∈ dirs (R_disk r') ->
  Forall plain (entries (R_disk r') (persist.dir (Cfg_Persist cfg))) ->
  exists snaps d, persist.Load ok (Cfg_Persist cfg) (R_disk r') = (inl snaps, d) /\
    forall s, s ∈ snaps <->
      RuntimeStore.stored (Cfg_Persist cfg) (R_disk r') (Snap_ID s) = Some (textOf s) /\ sane s.
Proof.
  intros Hp Hs Hs' Hd E. destruct (iterate_disk _ _ _ _ _ _ Hp Hs Hs' E) as [Hd' _]. specialize (Hd' Hd).
  split; [done|]. intros ok Hok Hdir He.
  destruct (Load_sound ok Hok _ (placed_sessions Hp) (placed_named Hp) _ Hd' Hdir He) as (snaps & d & E1 & _ & _ & _ & H).
  by exists snaps, d.
Qed.

(** C28: At a restart a frame whose container survived is adopted and then
    spawned like any other, which acquires the container a second time; the
    cleanup of the adoption is overwritten.  So it is neither run nor
    registered, and the container is never released. *)
Theorem adopted_sandbox_leaked tokens frame r adopted sid sandbox w h c ms r' h' :
  w h (CallAdoptFrame (Frame_ID frame) (Frame_Project frame)) = RAdopted (Some c) ms ->
  let res := adoptFrame tokens frame (r, adopted) w h in
  coldSpawnFrameWindow sid sandbox frame res.1.1 w res.2 = ((r', None), h') ->
  acquired w h' <> acquired w res.2 ->
  exists cs, h' = res.2 ++ cs /\
    acquired w h' ++ registered res.1.1 ≡ₚ c :: acquired w res.2 ++ released cs ++ registered r'.
Proof.
  intros Ha res E Hne. eapply respawn_leaks; [|exact E|exact Hne].
  unfold res. by apply adoptFrame_registers with (ms := ms).
Qed.
End props.

(** ** The shipped drivers only push *)

Lemma allowed_spawns {DT : DriverTypes} effs : allowed effs -> omap spawns effs = [].
Proof.
  unfold allowed. induction effs as [|eff effs IH]; [done|]. cbn [forallb]. intros [H1 H2]%andb_prop.
  destruct eff; try done; cbn; by apply IH.
Qed.

Lemma shipped_bootstrap_allowed {DT : DriverTypes} {DE : DriverEnv} o display cmd boot ds ctx now :
  Driver_BootstrapSessionStart (shippedDriver o display cmd) = Some boot -> allowed (boot ds ctx now).2.
Proof.
  revert boot. unfold shippedDriver. cbv zeta.
  repeat case_decide; intros boot [= <-]. unfold Codex.BootstrapSessionStart.
  set (cs := match Codex.asState ds with Some cs => cs | None => _ end).
  pose proof (codex_watch_allowed cs) as Ha1. destruct (Codex.watchCodexTranscript cs) as [cs1 effs1].
  pose proof (codex_applySessionStart_allowed cs1 ctx now) as Ha2. destruct (Codex.applySessionStart cs1 ctx now) as [cs2 effs2].
  by apply allowed_app.
Qed.

Lemma shipped_push {DT : DriverTypes} {DE : DriverEnv} o display : drivers_push (shippedRegistry o display).
Proof.
  intros cmd drv. rewrite shipped_GetDriver. intros [= <-]. split.
  - intros ds ctx ev. apply allowed_spawns. apply (dl_effects (DriverLaws := shipped_laws o display cmd)).
  - intros boot Hb ds ctx now. apply allowed_spawns. by eapply shipped_bootstrap_allowed.
Qed.


(** ** A restart with the shipped drivers *)

Section restart.
Context {DT : DriverTypes} {DE : DriverEnv} {RT : RuntimeTypes} {MR : MapRange} {D : Deps}.
Context (o : RegisterOptions) (display : string) (Hreg : reg = shippedRegistry o display).

(** What was running waits. *)
Definition awaiting (ds : DriverStates) : DriverStates :=
  if CS_Status (commonOf ds) =? StatusRunning then onCommon (withStatus StatusWaiting) ds else ds.

(** A generic driver is named by its command. *)
Definition named (name : string) (ds : DriverStates) : DriverStates :=
  match ds with DSGeneric s => DSGeneric (s <| GS_Name := name |>) | _ => ds end.

(** The state of a frame's driver after a cold start at [now]. *)
Definition resumedState (now : Time) (command : string) (ds : DriverStates) : DriverStates :=
  survivor now (named (FirstToken command) (awaiting ds)).

Definition stopped (ds : DriverStates) : bool := CS_Status (commonOf ds) =? StatusStopped.

(** A codex thread that can be resumed. *)
Definition resumable (ds : DriverStates) : bool :=
  match ds with DSCodex _ => Codex.RecoverableOnColdStart (Some ds) | _ => false end.

(** A driver state that the bag of strings holds. *)
Definition writable (ds : DriverStates) : Prop := timesFormattable (commonOf ds) /\ exitCodeOk ds.

Lemma restoredBag_awaiting ds bag : persistOf ds = Some bag ->
  persistOf (awaiting ds) = Some (restoredBag true (Some bag)).
Proof.
  intros E. pose proof (persisted_status ds bag E) as Hs. unfold awaiting, restoredBag.
  cbn [from_option default]. unfold id. rewrite Hs. destruct (Z.eqb_spec (CS_Status (commonOf ds)) StatusRunning) as [Hr|Hr].
  - rewrite bool_decide_eq_true_2 by (f_equal; by apply running_string). cbn [andb].
    by apply (persist_status StatusWaiting).
  - rewrite bool_decide_eq_false_2; [done|]. intros [= E1%running_string]. done.
Qed.

Lemma awaiting_writable ds : writable ds -> writable (awaiting ds).
Proof. unfold awaiting. destruct (_ =? _); [|done]. by destruct ds. Qed.

Lemma named_writable name ds : writable ds -> writable (named name ds).
Proof. by destruct ds. Qed.

Lemma persist_named name ds : persistOf (named name ds) = persistOf ds.
Proof. by destruct ds. Qed.

Lemma shipped_restored now f ds : Frame_Driver f = Some ds -> typedFor (Frame_Command f) (Frame_Driver f) ->
  writable ds -> restoredDriver now f = Some (resumedState now (Frame_Command f) ds).
Proof.
  intros Ed Ht Hw. rewrite Ed in Ht.
  assert (exists bag, persistOf ds = Some bag) as [bag Eb] by (destruct ds; by eexists).
  pose proof (restoredBag_awaiting ds bag Eb) as Ea.
  set (ds' := named (FirstToken (Frame_Command f)) (awaiting ds)).
  destruct (restart ds' now) as (bag' & E1 & E2).
  { by apply named_writable, awaiting_writable. }
  { by apply named_writable, awaiting_writable. }
  unfold ds' in E1. rewrite persist_named, Ea in E1. injection E1 as <-.
  unfold restoredDriver, resumedState. fold ds'. rewrite <- E2, Hreg, shipped_GetDriver, Ed.
  unfold shippedDriver. unfold typedFor in Ht. cbv zeta in *.
  assert (restoreOf ds' = restoreOf (named (FirstToken (Frame_Command f)) ds)) as ->.
  { unfold ds', awaiting. by destruct (_ =? _), ds. }
  repeat case_decide.
  - apply shell_owned in Ht as [s [= ->]]. cbn in Eb |- *. by rewrite Eb.
  - apply gemini_owned in Ht as [s [= ->]]. cbn in Eb |- *. by rewrite Eb.
  - apply codex_owned in Ht as [s [= ->]]. cbn in Eb |- *. by rewrite Eb.
  - apply claude_owned in Ht as [s [= ->]]. cbn in Eb |- *. by rewrite Eb.
  - apply generic_owned in Ht as [s [= ->]]. cbn in Eb |- *. by rewrite Eb.
Qed.

Lemma survives_stopped c0 c : CS_Status c0 <> StatusStopped ->
  CS_Status (survives c0 c) = StatusStopped <-> CS_Status c = StatusStopped.
Proof.
  intros H0. change (CS_Status (survives c0 c)) with (if known_status (CS_Status c) then CS_Status c else CS_Status c0).
  destruct (known_status (CS_Status c)) eqn:Ek; [done|]. split; [done|]. intros Ec. by rewrite Ec in Ek.
Qed.

Lemma survivor_codex now s :
  commonOf (survivor now (DSCodex s))
  = (codexPaths (survives (initCommon StatusIdle now) (CX_Common s)) (CX_RolloutPath s)).1.
Proof. cbn [survivor]. destruct (codexPaths _ _) as [c rollout]. reflexivity. Qed.

Lemma codexPaths_status c rollout : CS_Status (codexPaths c rollout).1 = CS_Status c.
Proof. by destruct c. Qed.

Lemma survivor_stopped now ds :
  CS_Status (commonOf (survivor now ds)) = StatusStopped <-> CS_Status (commonOf ds) = StatusStopped.
Proof.
  destruct ds as [s|s|s|s|s].
  - by apply (survives_stopped (initCommon StatusWaiting now) (GS_Common s)).
  - by apply (survives_stopped (initCommon StatusWaiting now) (SS_Common s)).
  - by apply (survives_stopped (initCommon StatusIdle now) (CL_Common s)).
  - rewrite survivor_codex, codexPaths_status. by apply (survives_stopped (initCommon StatusIdle now) (CX_Common s)).
  - by apply (survives_stopped (initCommon StatusIdle now) (GM_Common s)).
Qed.

Lemma resumed_stopped now command ds :
  CS_Status (commonOf (resumedState now command ds)) = StatusStopped <-> stopped ds = true.
Proof.
  unfold resumedState, stopped. rewrite survivor_stopped, Z.eqb_eq.
  assert (commonOf (named (FirstToken command) (awaiting ds)) = commonOf (awaiting ds)) as -> by by destruct (awaiting ds).
  unfold awaiting. destruct (Z.eqb_spec (CS_Status (commonOf ds)) StatusRunning) as [E|E]; [|done].
  rewrite E. assert (CS_Status (commonOf (onCommon (withStatus StatusWaiting) ds)) = StatusWaiting) as -> by by destruct ds.
  by vm_compute.
Qed.

Lemma paths_resolve a b :
  orElse (Strings.TrimSpace (orElse a b)) (Strings.TrimSpace (orElse b (orElse a b)))
    = orElse (Strings.TrimSpace a) (Strings.TrimSpace b).
Proof.
  assert (forall x, orElse x x = x) as Hx by (intros x; unfold orElse; by case_decide).
  assert (forall x, orElse x EmptyString = x) as Hn by (intros x; unfold orElse; by case_decide).
  destruct (decide (a = EmptyString)) as [->|Ha], (decide (b = EmptyString)) as [->|Hb].
  - done.
  - change (orElse EmptyString b) with b. rewrite !Hx. done.
  - rewrite !Hn. change (orElse EmptyString a) with a. by rewrite Hx, ?Hn.
  - assert (orElse a b = a) as -> by (unfold orElse; by rewrite decide_False).
    by assert (orElse b a = b) as -> by (unfold orElse; by rewrite decide_False).
Qed.

Definition recoverable (rollout transcript thread session : string) : bool :=
  bool_decide (Strings.TrimSpace (orElse (Strings.TrimSpace rollout) (Strings.TrimSpace transcript)) <> EmptyString)
  || isAlphanumHyphen thread || isAlphanumHyphen session.

Lemma resumed_codex now s : resumable (survivor now (DSCodex s)) = resumable (DSCodex s).
Proof.
  change (resumable (DSCodex s))
    with (recoverable (CX_RolloutPath s) (CS_TranscriptPath (CX_Common s)) (CX_ThreadID s) (CX_SessionID s)).
  cbn [survivor]. destruct (codexPaths _ _) as [c rollout] eqn:E.
  change (recoverable rollout (CS_TranscriptPath c) (CX_ThreadID s) (CX_SessionID s)
    = recoverable (CX_RolloutPath s) (CS_TranscriptPath (CX_Common s)) (CX_ThreadID s) (CX_SessionID s)).
  unfold codexPaths in E. cbv zeta in E. injection E as <- <-.
  unfold recoverable. by rewrite <- (paths_resolve (CX_RolloutPath s) (CS_TranscriptPath (CX_Common s))).
Qed.

Lemma shipped_kept now f ds : Frame_Driver f = Some ds -> typedFor (Frame_Command f) (Frame_Driver f) ->
  writable ds -> kept now f = negb (stopped ds && negb (resumable ds)).
Proof.
  intros Ed Ht Hw. pose proof (shipped_restored now f ds Ed Ht Hw) as Er. unfold kept. cbv zeta. rewrite Er, Hreg, shipped_GetDriver.
  assert (forall drv, Driver_Status drv (Some (resumedState now (Frame_Command f) ds))
      = CS_Status (commonOf (resumedState now (Frame_Command f) ds)) ->
      bool_decide (Driver_Status drv (Some (resumedState now (Frame_Command f) ds)) = StatusStopped) = stopped ds) as Hs.
  { intros drv ->. apply Bool.eq_true_iff_eq. rewrite bool_decide_eq_true. apply resumed_stopped. }
  rewrite Ed in Ht. unfold typedFor in Ht. unfold shippedDriver. cbv zeta in *. f_equal.
  assert (forall c, resumable (resumedState now c ds) = resumable ds) as Hc.
  { intros c. unfold resumedState, awaiting. destruct ds as [| | |s|]; [by destruct (_ =? _)..| |by destruct (_ =? _)].
    destruct (_ =? _); cbn [named onCommon]; by rewrite resumed_codex. }
  specialize (Hc (Frame_Command f)). clear Er Ed. revert Ht.
  repeat match goal with |- context [decide (FirstToken ?c = ?n)] => destruct (decide (FirstToken c = n)) end; intros Ht.
  - apply shell_owned in Ht as [s [= ->]]. by rewrite Hs by (unfold resumedState, awaiting; by destruct (_ =? _)).
  - apply gemini_owned in Ht as [s [= ->]]. by rewrite Hs by (unfold resumedState, awaiting; by destruct (_ =? _)).
  - apply codex_owned in Ht as [s [= ->]]. rewrite Hs by (unfold resumedState, awaiting; by destruct (_ =? _)).
    do 2 f_equal. unfold coldStartRecoverable. cbn [codexDriver Codex.driver Driver_ColdStartRecoverer]. rewrite <- Hc.
    assert (exists s', resumedState now (Frame_Command f) (DSCodex s) = DSCodex s') as [s' ->]; [|done].
    unfold resumedState, awaiting. destruct (_ =? _); cbn [named onCommon survivor]; destruct (codexPaths _ _); by eexists.
  - apply claude_owned in Ht as [s [= ->]]. by rewrite Hs by (unfold resumedState, awaiting; by destruct (_ =? _)).
  - apply generic_owned in Ht as [s [= ->]]. by rewrite Hs by (unfold resumedState, awaiting; by destruct (_ =? _)).
Qed.

(** Frames whose command still runs, or whose thread can be resumed. *)
Definition alive (f : SessionFrame) : bool :=
  match Frame_Driver f with Some ds => negb (stopped ds && negb (resumable ds)) | None => false end.

(** [f'] is the frame [f] after a cold start at [now]. *)
Definition resumes (now : Time) (f f' : SessionFrame) : Prop :=
  Frame_ID f' = Frame_ID f /\ Frame_Project f' = Frame_Project f /\ Frame_Command f' = Frame_Command f /\
  (Frame_SubsystemID f <> EmptyString -> Frame_SubsystemID f' = Frame_SubsystemID f) /\
  (Frame_TargetID f <> EmptyString -> Frame_TargetID f' = Frame_TargetID f) /\
  exists ds, Frame_Driver f = Some ds /\ Frame_Driver f' = Some (resumedState now (Frame_Command f) ds).

(** What every session of a daemon with these drivers satisfies, and that its
    times can be written. *)
Definition restartable (sess : Session) : Prop :=
  rfc3339.formattable (Session_CreatedAt sess) /\
  Forall (fun f => typedFor (Frame_Command f) (Frame_Driver f) /\
                   exists ds, Frame_Driver f = Some ds /\ writable ds) (Session_Frames sess).

Lemma resumedFrame_resumes now createdAt f ds : Frame_Driver f = Some ds ->
  typedFor (Frame_Command f) (Frame_Driver f) -> writable ds -> resumes now f (resumedFrame now createdAt f).
Proof.
  intros Ed Ht Hw. unfold resumes, resumedFrame, restoreFrame.
  cbn [Frame_ID Frame_Project Frame_Command Frame_SubsystemID Frame_TargetID Frame_Driver].
  rewrite (shipped_restored now f ds Ed Ht Hw). unfold snapshotFrame. rewrite Hreg, shipped_GetDriver.
  cbn [FSnap_ID FSnap_Project FSnap_Command FSnap_SubsystemID FSnap_TargetID]. unfold orDefault.
  split_and!; try done; [intros; by rewrite decide_False..|]. by exists ds.
Qed.

Lemma restartable_frames now createdAt sess : restartable sess ->
  Forall2 (resumes now) (List.filter alive (Session_Frames sess))
    (map (resumedFrame now createdAt) (List.filter (kept now) (Session_Frames sess))).
Proof.
  intros [_ H]. induction H as [|f fs (Ht & ds & Ed & Hw) _ IH]; [constructor|]. cbn [List.filter].
  rewrite (shipped_kept now f ds Ed Ht Hw). unfold alive at 1. rewrite Ed.
  destruct (negb _); [|done]. constructor; [by eapply resumedFrame_resumes|done].
Qed.

(** To the second; a session that was never given a time starts at [now]. *)
Definition createdTime (now t : Time) : Time :=
  let t := rfc3339.truncate_second t in if time.IsZero t then now else t.

Lemma restartable_session now sess : restartable sess ->
  match restoreSession (snapshotSession sess) true now with
  | None => List.filter alive (Session_Frames sess) = []
  | Some sess' =>
    Session_Frames sess' <> [] /\
    Forall2 (resumes now) (List.filter alive (Session_Frames sess)) (Session_Frames sess') /\
    Session_Project sess' = Session_Project sess /\ Session_Sandbox sess' = Session_Sandbox sess /\
    Session_CreatedAt sess' = createdTime now (Session_CreatedAt sess)
  end.
Proof.
  intros Hr. pose proof (restoreSession_snapshot now sess) as H. cbv zeta in H.
  pose proof (restartable_frames now (parsedTime (rfc3339.Format (Session_CreatedAt sess)) now) sess Hr) as HF.
  assert (parsedTime (rfc3339.Format (Session_CreatedAt sess)) now = createdTime now (Session_CreatedAt sess)) as Et.
  { destruct Hr as [Hf _]. unfold parsedTime. by rewrite rfc3339.Parse_Format. }
  rewrite Et in H, HF.
  destruct (restoreSession _ _ _) as [sess'|].
  - destruct H as (Hne & -> & _ & -> & -> & -> & _); [|split_and!; [by destruct (List.filter (kept now) _)|done..]].
    apply Forall_true. intros f. rewrite Hreg, shipped_GetDriver. by eexists.
  - rewrite H in HF; [by apply Forall2_nil_inv_r in HF|].
    apply Forall_true. intros f. rewrite Hreg, shipped_GetDriver. by eexists.
Qed.

(** C6: A daemon that is killed after any iteration of its loop and started
    again has the sessions it had, if the disk did not fail: each with its
    frames whose command had not stopped or whose codex thread can be resumed,
    in order, and with the persistent part of their drivers' states, a running
    one waiting.  A session without such frames is gone, and so is its file. *)
Theorem restart_resumes i r w h r' h' features w2 h2 :
  placed -> (forall n o, fault n o = None) -> headersMatch ->
  storable (Sessions (R_state r)) -> storable (Sessions (R_state r')) ->
  mirrors (Cfg_Persist cfg) (R_disk r) (snapshots (Sessions (R_state r))) ->
  iterate i r w h = (Some r', h') ->
  persist.dir (Cfg_Persist cfg) ∈ dirs (R_disk r') ->
  Forall plain (entries (R_disk r') (persist.dir (Cfg_Persist cfg))) ->
  (forall id sess, Sessions (R_state r') !! id = Some sess -> restartable sess) ->
  exists r2, LoadSnapshot true (New features (R_disk r')) w2 h2 = ((r2, None), h2 ++ [CallNow]) /\
  forall id, let now := timeOf (w2 h2 CallNow) in
  match Sessions (R_state r') !! id, Sessions (R_state r2) !! id with
  | None, None => True
  | None, Some _ => False
  | Some sess, None =>
    List.filter alive (Session_Frames sess) = [] /\ RuntimeStore.stored (Cfg_Persist cfg) (R_disk r2) id = None
  | Some sess, Some sess' =>
    Session_Frames sess' <> [] /\
    Forall2 (resumes now) (List.filter alive (Session_Frames sess)) (Session_Frames sess') /\
    Session_Project sess' = Session_Project sess /\ Session_Sandbox sess' = Session_Sandbox sess /\
    Session_CreatedAt sess' = createdTime now (Session_CreatedAt sess)
  end.
Proof.
  intros Hp Hf Hh Hs Hs' Hm E Hd He Hr. pose proof (iterate_disk _ _ _ _ _ _ Hp Hs Hs' E) as [_ Hm'].
  destruct (LoadSnapshot_restores _ features _ w2 h2 Hp Hf Hs' (Hm' Hf Hh Hm) Hd He) as (r2 & E2 & H).
  exists r2. split; [done|]. intros id now. specialize (H id). fold now in H.
  unfold loaded, snapshots in H. rewrite lookup_fmap in H.
  destruct (Sessions (R_state r') !! id) as [sess|] eqn:El; cbn [fmap option_fmap option_map] in H;
    [|by injection H as -> _].
  pose proof (restartable_session now sess (Hr _ _ El)) as H1.
  destruct (restoreSession _ _ _) as [sess'|]; injection H as -> E4; [done|]. by rewrite E4.
Qed.
End restart.
(** ** Steps of the system, computed *)

Section actions.
Context {T : ClientTypes} {RT : RuntimeTypes} {MR : MapRange} {D : Deps}.

(** The loop takes an input; the first goroutine runs; the loop takes the first
    completion. *)
Inductive Action := Iterate (i : Input) | RunSpawn | TakeCompletion.

Definition stepped (s : Sys) (going : list SpawnRequest) (done : list SpawnComplete)
    (res : option Runtime * list Call) : option Sys :=
  match res with
  | (Some r, h) => Some (mkSys r h (going ++ started (drop (length (S_hist s)) h)) done)
  | (None, _) => None
  end.

Definition act (w : World Call Reply) (a : Action) (s : Sys) : option Sys :=
  match a with
  | Iterate i => stepped s (S_going s) (S_done s) (iterate i (S_rt s) w (S_hist s))
  | RunSpawn =>
    match S_going s with
    | [] => None
    | e :: going =>
      let '(res, h) := spawnFrameWindow e w (S_hist s) in
      Some (mkSys (S_rt s) h going (S_done s ++ completion res))
    end
  | TakeCompletion =>
    match S_done s with
    | [] => None
    | c :: done => stepped s (S_going s) done (handleSpawnComplete c (S_rt s) w (S_hist s))
    end
  end.

Lemma act_sound w a s s' : act w a s = Some s' ->
  S_hist s' = S_hist s ++ drop (length (S_hist s)) (S_hist s') ->
  match a with Iterate i => isCompletion i = false | _ => True end -> sysStep w s s'.
Proof.
  destruct s as [r h going done]. unfold act, stepped. cbn [S_rt S_hist S_going S_done]. destruct a as [i| |].
  - destruct (iterate i r w h) as [[r'|] h'] eqn:E; [|done]. intros [= <-] Eh Hi. cbn [S_hist] in *.
    rewrite Eh at 1. apply (Sys_iterate w r h going done i); [done|]. by rewrite <- Eh.
  - destruct going as [|e going]; [done|]. destruct (spawnFrameWindow e w h) as [res h'] eqn:E. intros [= <-] _ _.
    by apply (Sys_spawn w r h [] e going done res h').
  - destruct done as [|c done]; [done|].
    destruct (handleSpawnComplete c r w h) as [[r'|] h'] eqn:E; [|done]. intros [= <-] Eh _. cbn [S_hist] in *.
    rewrite Eh at 1. apply (Sys_complete w r h going [] c done); [by rewrite <- Eh].
Qed.

End actions.

(** ** An example *)

#[local] Existing Instance exTypes.
#[local] Existing Instance exEnv.
#[local] Instance exRT : RuntimeTypes := {| Closure := nat; Subsystem := unit; Sub_Kind _ := LaunchSubsystemCLI |}.
#[local] Instance exRange : MapRange.
Proof.
  refine {| mapRange K _ _ V m := map_to_list m |}. done.
Defined.

Definition exConfig : Config :=
  mkConfig "/data" (persist.NewFilePersist "/data") (Some "/data/warm") false false false.

(** The drivers as in [DriverProps], and a disk that works. *)
#[local] Instance exDeps : Deps := {|
  reg := shippedRegistry exOptions "zsh";
  idAt := exampleId;
  json := exJson "claude";
  cfg := exConfig;
  fault := faultless;
  sameSessionMap _ _ := false;
  projectSelected _ := None;
  localFormat := rfc3339.Format;
  quoted k := k;
|}.

(** Every project is in a container; a sandbox is named by when it was acquired. *)
Definition exWorld : World Call Reply := fun h c =>
  match c with
  | CallNow => RTime exInstant
  | CallIsContainer _ => RBool true
  | CallGenerateToken => RText "token"
  | CallEnsure _ _ _ _ => REnsured tt "cli"
  | CallBindFrame _ _ plan _ _ => RBound (mkBindResult plan "" "")
  | CallWrapLaunch _ plan env =>
    RWrapped (mkWrappedLaunch (Plan_Command plan) (Plan_StartDir plan) env (Some (length h)) "/run/p" [])
  | CallAdoptFrame _ _ => RAdopted (Some (length h)) []
  | _ => ROk
  end.

Definition exDisk : Disk := mkDisk ∅ {["/data/sessions"%string]} 0.

Definition exAct (a : Action) (s : Sys) : Sys := default s (act exWorld a s).

(** A tick; a client creates a session; its frame is spawned; the loop learns
    of it. *)
Definition exSys0 : Sys := newSys ∅ exDisk.
Definition exSys1 : Sys := Eval vm_compute in exAct (Iterate (InTick exInstant)) exSys0.
Definition exSys2 : Sys := Eval vm_compute in exAct (Iterate (InEvent exCreate)) exSys1.
Definition exSys3 : Sys := Eval vm_compute in exAct RunSpawn exSys2.
Definition exSys4 : Sys := Eval vm_compute in exAct TakeCompletion exSys3.

Lemma exSys_reached : rtc (sysStep exWorld) exSys0 exSys4.
Proof.
  apply (rtc_l _ _ exSys1); [apply (act_sound _ (Iterate (InTick exInstant))); by vm_compute|].
  apply (rtc_l _ _ exSys2); [apply (act_sound _ (Iterate (InEvent exCreate))); by vm_compute|].
  apply (rtc_l _ _ exSys3); [apply (act_sound _ RunSpawn); by vm_compute|].
  apply rtc_once. apply (act_sound _ TakeCompletion); by vm_compute.
Qed.

(** The same with a backend that panics. *)
Definition exPanics : World Call Reply := fun h c =>
  match c with CallSpawnFrame _ _ _ _ _ => RPanic "nil map" | _ => exWorld h c end.
Definition exLost : Sys := Eval vm_compute in
  let s := default exSys0 (act exPanics (Iterate (InEvent exCreate)) exSys1) in default s (act exPanics RunSpawn s).

Lemma sandboxes_accounted_witness :
  (registered (S_rt exSys4) = [5%nat] /\ lost_go exPanics [] (S_hist exLost) = [5%nat]) /\
  exists calls, S_hist exSys4 = calls /\ acquired_go exWorld [] calls = [5%nat] /\
    acquired_go exWorld [] calls
    ≡ₚ released calls ++ (registered (S_rt exSys4) ++ inFlight (S_done exSys4)) ++ lost_go exWorld [] calls.
Proof.
  split; [by vm_compute|].
  destruct (sandboxes_accounted exWorld exSys0 exSys4) as [(calls & E & H) _].
  - apply exampleId_ok.
  - apply shipped_push.
  - apply newSys_ok.
  - apply exSys_reached.
  - change (S_hist exSys4 = calls) in E. exists calls. split; [exact E|]. split; [|exact H].
    rewrite <- E. by vm_compute.
Defined.

Lemma tokens_expire_witness : has_frame (shapes (R_state (S_rt exSys4))) (exampleId 1).
Proof.
  apply (tokens_expire exWorld exSys0 exSys4 "token").
  - apply exampleId_ok.
  - apply shipped_push.
  - apply newSys_ok.
  - apply exSys_reached.
  - by vm_compute.
Defined.




(** *** Files *)

Definition validb (s : string) : bool := bool_decide (utf8ok s).
Definition frameOkb (f : SessionFrameSnapshot) : bool :=
  forallb validb [FSnap_ID f; FSnap_SubsystemID f; FSnap_TargetID f; FSnap_Project f; FSnap_Command f;
    FSnap_CreatedAt f; FSnap_Driver f]
  && bool_decide (optionsOk (FSnap_LaunchOptions f))
  && match FSnap_DriverState f with
     | None => true
     | Some bag => forallb (fun kv => validb kv.1 && validb kv.2) (map_to_list bag)
     end.
Definition saneb (s : SessionSnapshot) : bool :=
  forallb validb [Snap_ID s; Snap_Project s; Snap_CreatedAt s; Snap_HeadFrameID s]
  && forallb frameOkb (Snap_Frames s) && forallb validb (Snap_MRUFrameIDs s)
  && bool_decide (in_int64 (Snap_Sandbox s)) && negb (Strings.ContainsByte (Snap_ID s) "/").

Lemma validb_all l : forallb validb l = true -> Forall utf8ok l.
Proof. intros H. apply Forall_forall. intros s Hs. rewrite forallb_forall in H. by apply (bool_decide_eq_true_1 (utf8ok s)), H, list_elem_of_In. Qed.

Lemma frameOkb_ok f : frameOkb f = true -> frameOk f.
Proof.
  intros [[H1 H2%bool_decide_eq_true]%andb_prop H3]%andb_prop. split; [by apply validb_all|done|].
  intros bag k v Eb El. rewrite Eb, forallb_forall in H3.
  apply elem_of_map_to_list, list_elem_of_In, H3, andb_prop in El as [Hk Hv].
  split; by apply (bool_decide_eq_true_1 (utf8ok _)).
Qed.

Lemma saneb_sane s : saneb s = true -> sane s.
Proof.
  intros [[[[H1 H2]%andb_prop H3]%andb_prop H4%bool_decide_eq_true]%andb_prop H5%negb_true_iff]%andb_prop.
  split; [|done]. split; [by apply validb_all| |by apply validb_all|done].
  apply Forall_forall. intros f Hf. rewrite forallb_forall in H2. by apply frameOkb_ok, H2, list_elem_of_In.
Qed.

Definition storableb (m : gmap string Session) : bool :=
  forallb (fun kv => saneb (snapshotSession kv.2) && String.eqb (Session_ID kv.2) kv.1 && negb (String.eqb kv.1 ""))
    (map_to_list m).

Lemma storableb_storable m : storableb m = true -> storable m.
Proof.
  intros H id sess El. unfold storableb in H. rewrite forallb_forall in H.
  apply elem_of_map_to_list, list_elem_of_In, H in El.
  apply andb_prop in El as [[H1 H2%String.eqb_eq]%andb_prop H3%negb_true_iff]. cbn [fst snd] in *.
  split_and!; [by apply saneb_sane|done|]. by apply String.eqb_neq.
Qed.

Lemma exPlaced : placed.
Proof.
  split; [by vm_compute..|]. intros dir [= <-]. split_and!; [by vm_compute|done|]. by vm_compute.
Qed.

Lemma exFaultless n op : fault n op = None.
Proof. done. Qed.

Lemma exHeaders : headersMatch.
Proof. by intros a b E. Qed.

(** The files of the session directory are those of the sessions. *)
Abbreviation exMirrors s :=
  (mirrors (Cfg_Persist cfg) (R_disk (S_rt s)) (snapshots (Sessions (R_state (S_rt s))))).

Lemma exSys4_mirrors : exMirrors exSys4.
Proof.
  assert (forall i s s' h, storableb (Sessions (R_state (S_rt s))) = true ->
    storableb (Sessions (R_state (S_rt s'))) = true ->
    iterate i (S_rt s) exWorld (S_hist s) = (Some (S_rt s'), h) -> exMirrors s -> exMirrors s') as H.
  { intros i s s' h Hs Hs' E. eapply follows_mirrors; [|apply exFaultless|apply exHeaders].
    eapply iterate_disk; [apply exPlaced|by apply storableb_storable..|exact E]. }
  assert (exMirrors exSys0) as H0.
  { intros id. unfold RuntimeStore.stored, snapshots. cbn [S_rt exSys0 newSys New R_disk files exDisk R_state].
    by rewrite lookup_empty. }
  eapply (H (InTick exInstant) exSys0 exSys1) in H0; [|by vm_compute..].
  eapply (H (InEvent exCreate) exSys1 exSys2) in H0; [|by vm_compute..].
  destruct (S_done exSys3) as [|c done] eqn:Ec; [by vm_compute in Ec|].
  refine (H (InInternal (InternalSpawnComplete c)) exSys3 exSys4 (S_hist exSys4) _ _ _ H0); [by vm_compute..|].
  apply (f_equal head) in Ec. vm_compute in Ec. injection Ec as <-. by vm_compute.
Qed.

(** A hook tells the conversation of the agent. *)
Definition exSys5 : Sys := Eval vm_compute in exAct (Iterate (InEvent (exHookEv "start"))) exSys4.

Lemma exSys5_entries :
  entries (R_disk (S_rt exSys5)) (persist.dir (Cfg_Persist cfg)) = ["x.json"%string].
Proof. by vm_compute. Qed.

Lemma exSys5_restartable id sess :
  Sessions (R_state (S_rt exSys5)) !! id = Some sess -> restartable sess.
Proof.
  intros El%elem_of_map_to_list. remember (map_to_list _) as l eqn:E. vm_compute in E. subst l.
  apply list_elem_of_singleton in El as [= -> ->]. split.
  - unfold rfc3339.formattable. vm_compute. intuition discriminate.
  - apply Forall_singleton. split; [by eexists|]. eexists. split; [reflexivity|]. split; [|done].
    unfold timesFormattable, rfc3339.formattable. vm_compute. intuition discriminate.
Qed.

Lemma restart_resumes_witness : exists r2,
  LoadSnapshot true (New ∅ (R_disk (S_rt exSys5))) exWorld [] = ((r2, None), [CallNow]) /\
  match Sessions (R_state r2) !! exampleId 0 with Some sess => Session_Frames sess <> [] | None => False end.
Proof.
  destruct (restart_resumes (D := exDeps) exOptions "zsh" eq_refl (InEvent (exHookEv "start")) (S_rt exSys4) exWorld (S_hist exSys4)
    (S_rt exSys5) (S_hist exSys5) ∅ exWorld []) as (r2 & E & H).
  - apply exPlaced.
  - apply exFaultless.
  - apply exHeaders.
  - apply storableb_storable. by vm_compute.
  - apply storableb_storable. by vm_compute.
  - apply exSys4_mirrors.
  - by vm_compute.
  - by vm_compute.
  - rewrite exSys5_entries. repeat constructor; by vm_compute.
  - apply exSys5_restartable.
  - exists r2. split; [exact E|]. specialize (H (exampleId 0)). cbv zeta in H.
    destruct (Sessions (R_state (S_rt exSys5)) !! exampleId 0) as [sess|] eqn:El; [|by vm_compute in El].
    destruct (Sessions (R_state r2) !! exampleId 0) as [sess'|]; [by destruct H|].
    destruct H as [H _]. vm_compute in El. injection El as <-. by vm_compute in H.
Defined.

Lemma exSys4_sound : sound (Cfg_Persist cfg) (R_disk (S_rt exSys4)).
Proof.
  apply (mirrors_sound (Cfg_Persist cfg) (R_disk (S_rt exSys4)) (snapshots (Sessions (R_state (S_rt exSys4))))).
  - apply storable_keyed, storableb_storable. by vm_compute.
  - exact exSys4_mirrors.
Qed.

Lemma session_files_whole_witness : sound (Cfg_Persist cfg) (R_disk (S_rt exSys5)).
Proof.
  apply (session_files_whole (InEvent (exHookEv "start")) (S_rt exSys4) exWorld (S_hist exSys4)
    (S_rt exSys5) (S_hist exSys5)).
  - apply exPlaced.
  - apply storableb_storable. by vm_compute.
  - apply storableb_storable. by vm_compute.
  - apply exSys4_sound.
  - by vm_compute.
Defined.

(** The frame of the session, after the daemon has been killed. *)
Definition exRestarted : Runtime * list Call := Eval vm_compute in
  let '((r, _), h) := LoadSnapshot true (New ∅ (R_disk (S_rt exSys5))) exWorld [] in (r, h).
Definition exFrame : SessionFrame := Eval vm_compute in
  default (mkSessionFrame "" "" "" "" "" zeroLaunchOptions 0 None)
    (Sessions (R_state exRestarted.1) !! exampleId 0 ≫= fun sess => head (Session_Frames sess)).
Definition exAdopted : Runtime * gset string * list Call := Eval vm_compute in
  adoptFrame ∅ exFrame (exRestarted.1, ∅) exWorld exRestarted.2.
Definition exRespawned : Runtime * list Call := Eval vm_compute in
  let '((r, _), h) := coldSpawnFrameWindow (exampleId 0) 0 exFrame exAdopted.1.1 exWorld exAdopted.2 in (r, h).
Definition exBooted : Runtime * list Call := Eval vm_compute in
  bootSession (New ∅ (R_disk (S_rt exSys5))) exWorld [].

(** The whole boot acquires two sandboxes, and one is registered. *)
Lemma adopted_sandbox_leaked_witness :
  (acquired exWorld exBooted.2 = [1%nat; 7%nat] /\ released exBooted.2 = [] /\ registered exBooted.1 = [7%nat]) /\
  exists cs, exRespawned.2 = exAdopted.2 ++ cs /\
  acquired exWorld exRespawned.2 ++ registered exAdopted.1.1
    ≡ₚ 1%nat :: acquired exWorld exAdopted.2 ++ released cs ++ registered exRespawned.1.
Proof.
  split; [by vm_compute|].
  assert (adoptFrame ∅ exFrame (exRestarted.1, ∅) exWorld exRestarted.2 = exAdopted) as E by by vm_compute.
  pose proof (adopted_sandbox_leaked ∅ exFrame exRestarted.1 ∅ (exampleId 0) 0 exWorld exRestarted.2 1%nat []
    exRespawned.1 exRespawned.2) as H. cbv zeta in H. rewrite E in H. apply H; by vm_compute.
Defined.
